(* ===== verification/_CoqProject ===== *)
-Q . S2P
Prelude.v
GoStrings.v
Sqlstore.v
Diagnostics.v
Ledger.v
LedgerRows.v
LedgerOps.v
LedgerSteps.v
LedgerExclusion.v
LedgerFacts.v
LedgerTheorems.v
Worker.v
LedgerRuns.v
CoreTopology.v
CoreAuthority.v
CoreTheorems.v
AgentPull.v
AgentDelivery.v
AgentTheorems.v
AgentRegistry.v
AgentGrants.v
AgentClaims.v
Promotion.v
GoTime.v
Cloud.v
CloudOps.v
CloudWallet.v
CloudOrders.v
CloudBilling.v
CloudInvoices.v
CloudQueue.v
CloudRuns.v
LoginLimiter.v
GoText.v
RoutingTypes.v
RoutingDomain.v
RoutingRows.v
RoutingRoundTrip.v
RoutingStore.v
RoutingInvariants.v
RoutingTheorems.v
RoutingLabels.v
RoutingAgent.v
RoutingRuns.v
GoFiles.v
Securestore.v
SecureFormat.v
SecureTheorems.v
Warden.v
WardenFacts.v
WardenTheorems.v
WardenRollback.v
WardenRuns.v
GoNumbers.v
GoYaml.v
ComposePolicy.v
Admission.v
StackDeploy.v
AdmissionTheorems.v
AdmissionRoutes.v
Application.v
ApplicationFacts.v
ApplicationLabels.v
ApplicationTheorems.v
AdmissionRuns.v
ApplicationRuns.v
GoBase64.v
Logstore.v
LogTheorems.v
LogRuns.v
Sessions.v
SessionTheorems.v
ChangePreview.v
AuditLedger.v
AuditTheorems.v
GoRegexp.v
MachineCommands.v
MachineTheorems.v
Diagnosis.v
DiagnosisTheorems.v
