(* ===== verification/Prelude.v ===== *)
(** * SwarmOps: the verified core of the controller

    SwarmOps is a control plane for Docker Swarm machines.  A controller ("core")
    keeps its state in a MySQL database, accepts commands over HTTP, runs them
    through a worker or hands them to machine agents that poll it, keeps the
    routes, names and DNS credentials of each gateway, renders and admits the
    stacks of applications, and sells hosting through a small commerce layer.
    Beside it run a release updater and a log collector; state files are sealed,
    operators sign in, and what they do is audited.  This development models the
    parts that decide what happens and when, from the Go sources under src/, and
    proves what they promise.

    ** How the code is modelled

    A transaction is a function [tx S E A := S -> result E A * S] on the state of
    the tables it touches; [WithTx] (src/internal/sqlstore/db.go) runs it
    atomically against a list of verdicts of the server (success, a server
    error, a dead context, a connection lost while committing), retrying
    deadlocks as the code does; when the connection is lost an error is reported
    and the transaction has taken effect or not.  Tables are
    lists of rows with the statements of the code as [sql_where], [sql_update],
    [sql_delete] and [order_by]; text comparisons go through a [Collation],
    because the server compares case-insensitively where Go does not.  Row and
    singleton locks serialise the transactions, so concurrency is a sequence of
    calls in any order, by any process.  What the code does in several
    transactions is several steps, between which others may act: the two halves
    of an upload, the parts of a promotion, the reads after the commit of a
    confirmation, the statements of a routing snapshot, and the two visits of a
    sign-in to the limiter.  [int64] and [uint64] are [Z] with
    [int64_of] and [uint64_of] where they can wrap; times are nanoseconds since
    1970.  Everything a call reads from outside (clock, random bytes, verdicts,
    the answers of a peer) is an argument, so every definition computes.

    ** Files

    - Prelude, GoStrings, GoTime: the transaction monad, tables, machine
      integers; strings.TrimSpace, UTF-8, hexadecimal; the calendar of Go's time
      package.
    - Sqlstore: src/internal/sqlstore (transactions and server errors).
    - Diagnostics: src/internal/queue/diagnostics.go.
    - Ledger: src/internal/queue/store.go, the command ledger.  LedgerRows,
      LedgerOps, LedgerSteps, LedgerExclusion and LedgerFacts hold its lemmas
      (row invariants; what each operation does; the lifecycle of a row as a
      step relation, with every call and reachability; exclusion; functional
      facts), LedgerTheorems its properties, LedgerRuns concrete runs.
    - Worker: src/internal/queue/worker.go.
    - CoreTopology: src/internal/coretopology/store.go and
      src/internal/domain/core.go; CoreAuthority the authority protocol it
      refines, CoreTheorems the properties and concrete runs.
    - AgentPull: src/internal/agentpull (broker.go, client.go, protocol.go) and
      the two endpoints of src/api/http/agent_pull.go; AgentDelivery and
      AgentTheorems its invariants and properties.
    - AgentRegistry: src/internal/agentpull/registry.go; AgentGrants and
      AgentClaims its properties.
    - Promotion: corePromote of src/api/http/core.go, which joins ledger,
      topology, broker and registry.
    - Cloud, CloudOps: src/internal/cloud (wallet.go, orders.go, billing.go,
      invoices.go, Register of accounts.go) and the billing loop of
      src/cmd/api/cloud_billing.go; CloudWallet, CloudOrders, CloudBilling and
      CloudInvoices its properties, CloudQueue the instance of its queue
      interface by the ledger, CloudRuns concrete runs.
    - LoginLimiter: src/internal/auth/limiter.go and how the sign-in handlers
      call it.
    - GoText: case mapping, patterns, net.ParseIP and sort.Strings, as the
      routing code uses them.
    - RoutingTypes, RoutingDomain, RoutingRows, RoutingStore: src/internal/ops
      (routing_types.go, routing_domain.go, routing_store.go) and the tables of
      migration 0006: the types with Normalize and Validate, admission of names,
      the rows a gateway's state is kept in with their JSON columns, and every
      operation of the store.
      RoutingRoundTrip shows that rows read back, RoutingInvariants that calls
      keep the invariant, RoutingTheorems holds the properties.
    - RoutingLabels, RoutingAgent: the labels the controller and the machine
      (src/internal/agentcontrol/routing.go) render; RoutingRuns concrete runs.
    - GoFiles, GoNumbers, GoYaml, GoBase64, GoRegexp: paths and system calls
      that fail or crash; numbers in text; decoded YAML values and checks in
      sequence; base64; regular expressions, with their meaning.
    - Securestore: src/internal/securestore/sealer.go; SecureFormat the stream
      format, SecureTheorems the properties and a concrete cipher.
    - Warden: src/internal/warden/warden.go; WardenFacts, WardenTheorems and
      WardenRollback its properties, WardenRuns concrete updates.
    - ComposePolicy, Admission, StackDeploy: src/internal/ops (policy.go,
      admission.go, stack.go and DeployStack of control_plane.go);
      AdmissionTheorems and AdmissionRoutes their properties, AdmissionRuns
      concrete documents.
    - Application: src/internal/ops/application.go with resource_plan.go and
      parts of database.go; ApplicationFacts, ApplicationLabels and
      ApplicationTheorems show that what it renders is admitted,
      ApplicationRuns concrete specs.
    - Logstore: src/internal/logstore/store.go and
      src/internal/agentcontrol/logs.go; LogTheorems the pages of a query
      and what a cleanup keeps, LogRuns concrete volumes.
    - Sessions: src/internal/auth/auth.go and withAuth of
      src/api/http/server.go; SessionTheorems its properties and runs.
    - ChangePreview: src/internal/changepreview/preview.go and its endpoint,
      with its property and runs.
    - AuditLedger: src/internal/audit/store.go and the tables of migration 0001;
      AuditTheorems its properties and runs.
    - MachineCommands: src/internal/agentcontrol/command.go and resources.go;
      MachineTheorems its properties and runs.
    - Diagnosis: src/internal/diagnosis; DiagnosisTheorems its properties and
      runs.

    ** Interfaces

    [ServerError] is what [WithTx] needs of an error type, [Collation] what the
    tables need of text comparison, [CommandQueue] what the commerce layer needs
    of the command ledger; Ledger, CoreTopology, AgentRegistry and Cloud
    instantiate the first two and CloudQueue discharges the third.  [MapOrder]
    is the unspecified order in which Go visits a map, [Clock6] what a
    DATETIME(6) column keeps of a time, [CaseTable] Unicode's case mapping
    outside ASCII.  Code outside
    src/ is a class with the behaviour that is relied on: [Platform] (SHA-256
    and JSON), [NetLib] and [UriLib] (URLs), [RegistryLib] (X.509, PEM),
    [ApplicationRules] (the validation of an application as the commerce layer
    sees it), [AEAD] (AES-GCM), [WardenLib] (URLs, JSON, SHA-256, tar),
    [ComposeLib] (YAML, SHA-256), [LogLib] and [SessionLib] (JSON; HMAC and
    bcrypt), [BcryptCost], [Decimals] (a float with one digit).  Each is
    instantiated in the runs of its component.  In the database sealing is
    symbolic: a sealed value opens under its purpose and nothing else; the
    format of sealed files is modelled byte by byte.

    ** What is proved

    Transactions are all or nothing, also when their acknowledgement is lost.
    The ledger: rows stay well formed, one command is in flight at a time, one
    lease per server, every call moves rows only along the lifecycle (which the
    late end of an upload cuts short, as the theorems say), resubmission,
    supersession, pruning, scheduling order, leases, fencing, recovery, retries,
    and what is kept of inputs and outputs.  The worker settles what it starts.
    The topology: no split brain, one epoch per holder, handoffs and promotions.
    Agents: at most two deliveries, no going back, identities only from grants
    that are spent once.  A promotion moves the authority part by part, whatever
    happens in between.  Commerce: balances equal their ledgers, confirming an
    order is one step with queueing its deployment, top-ups and outcomes settle
    once, a month costs at most its cap, invoices add up and stay as issued.  The
    limiter bounds the rate of guesses by its limit and the number of requests in
    progress.  Routing: what is saved reads back, no two stored routes conflict,
    nothing is stored outside accepted domains, bindings resolve, rotation keeps
    every secret, the port allocator is exact, public exposure is declared, and
    the machine renders what was planned.  Sealed files: the old file or a
    complete new one after any failure, what was written reads back, and nothing
    else is accepted.  The updater: the current release survives every failure
    and crash and is replaced only by the one that was asked for, a rollback
    restores what ran, the health wait ends in bounded time and decides right,
    retention keeps the newest.  Stacks: what reaches Docker was checked,
    placement adds one constraint per service and keeps a document admitted,
    admitted stacks define and mount no name in common and the routes that
    admission looks at are encrypted or internal, and a rendered application is
    admitted.  Logs: following the cursors gives every selected legible record
    once, newest first; a cleanup removes the oldest files and no more than it
    must.  Sessions: who is let in signed in with the password and kept using the
    session, and who keeps using it stays signed in.  Audit: the ledger is the
    newest events.  Machines run the command line the controller asked for, and
    no argument of a request can become an option.  Previews tell one rollout
    that replaces every task once; a diagnosis is given only with its reason.
    Some theorems about concrete runs show behaviour that a comment denies or
    that looks unintended; their comments say what happens.

    ** Bounds

    Loops of the code whose length is bounded by a constant keep that bound
    ([maxTransactionAttempts], [defaultStoreRetryAttempts], [maxHoursPerRun]).
    [AllocateRoutePort] searches with fuel for every [uint16] and is shown to
    end before it; [parseIPv6] reads at most eight groups.
    The polling loops ([Worker.Run], [Poll], [cycle], [billing_pass]) are
    modelled one turn at a time and quantified over any number of turns.
    [Open] and [OpenRegistry] recurse on a list of runs, one per lost race for
    the first insert.  Reading a sealed stream has fuel for the bytes of its
    file; the health probe has fuel for every interval of
    its timeout and is shown to end; the shortest decimal of a float tries as
    many digits as its exact value has; a client that follows log cursors has one query more than
    there are records; the rounds of a preview have one turn per task and one
    more, and are shown to end unless the 64-bit counter could wrap.

    ** Not modelled

    Planning and reconciliation of Docker services, databases, routes and
    cutovers against the Docker API (the rest of src/internal/ops), the server
    profiles and transports of src/internal/remote, the machine agent and its
    host commands (src/internal/agent, provisioning and metrics of
    src/internal/agentcontrol), source builds, HTTP decoding and the other
    endpoints, configuration, the imports of files written by older releases,
    listings and reports, and the web console: they are network, file and
    process I/O around the state modelled here.  Column widths are modelled
    where the code can exceed them and for all routing tables; foreign keys
    outside routing hold by construction.  JSON is taken to carry a
    value unchanged, but for what is not UTF-8 in its texts, which it replaces:
    the columns and the copy of a routing state are modelled with that. *)

From Stdlib Require Import ZArith Lia Bool.
From stdpp Require Import base tactics list sorting.

(** ** Results and transactions

    A Go function that returns [(A, error)] is a [result]; a function body that
    runs inside a database transaction is a [tx]: it reads and writes the
    database and may stop with an error in the middle, leaving the writes it
    made so far.  Rolling those back is the job of [WithTx] (Sqlstore.v). *)

Inductive result (E A : Type) : Type :=
| Ok (a : A)
| Err (e : E).

Arguments Ok {E A} a.
Arguments Err {E A} e.

Definition tx (S E A : Type) : Type := S -> result E A * S.

Definition tx_ret {S E A : Type} (a : A) : tx S E A := fun s => (Ok a, s).

Definition tx_fail {S E A : Type} (e : E) : tx S E A := fun s => (Err e, s).

Definition tx_bind {S E A B : Type} (m : tx S E A) (k : A -> tx S E B) : tx S E B :=
  fun s => match m s with
           | (Ok a, s') => k a s'
           | (Err e, s') => (Err e, s')
           end.

Definition tx_get {S E : Type} : tx S E S := fun s => (Ok s, s).

Definition tx_gets {S E A : Type} (f : S -> A) : tx S E A := fun s => (Ok (f s), s).

Definition tx_modify {S E : Type} (f : S -> S) : tx S E unit := fun s => (Ok tt, f s).

Definition tx_guard {S E : Type} (b : bool) (e : E) : tx S E unit :=
  if b then tx_ret tt else tx_fail e.

Definition tx_lift {S E A : Type} (r : result E A) : tx S E A := fun s => (r, s).

Definition is_ok {E A : Type} (r : result E A) : bool :=
  match r with Ok _ => true | Err _ => false end.

Declare Scope tx_scope.
Delimit Scope tx_scope with tx.

Notation "x <- c ;; k" := (tx_bind c (fun x => k))
  (at level 100, c at next level, right associativity) : tx_scope.
Notation "c ;;; k" := (tx_bind c (fun _ => k))
  (at level 100, right associativity) : tx_scope.

(** ** Fixed-width integers *)

Definition two63 : Z := 9223372036854775808.
Definition two64 : Z := 18446744073709551616.

(** Conversion of an exact integer to Go's [int64] and [uint64]. *)
Definition int64_of (z : Z) : Z := (z + two63) mod two64 - two63.
Definition uint64_of (z : Z) : Z := z mod two64.

Definition is_int64 (z : Z) : Prop := (- two63 <= z < two63)%Z.
Definition is_uint64 (z : Z) : Prop := (0 <= z < two64)%Z.

(** ** Time

    Instants are nanoseconds since the Unix epoch, durations are nanoseconds.
    Every store keeps [time.Now().UTC().Truncate(time.Microsecond)], the
    precision of the [DATETIME(6)] columns. *)

Definition microsecond : Z := 1000.
Definition second : Z := 1000000000.
Definition minute : Z := 60 * second.
Definition hour : Z := 60 * minute.
Definition day : Z := 24 * hour.

Definition truncate (d t : Z) : Z := (t - t mod d)%Z.
Definition timestamp_of (now : Z) : Z := truncate microsecond now.

(** ** Relational tables

    A table is the list of its rows in insertion order; the four statement
    forms the stores use are the following. *)

Section Tables.
Context {A : Type}.

Definition sql_where (p : A -> bool) (t : list A) : list A := List.filter p t.

Definition sql_update (p : A -> bool) (f : A -> A) (t : list A) : list A :=
  map (fun r => if p r then f r else r) t.

Definition sql_delete (p : A -> bool) (t : list A) : list A :=
  List.filter (fun r => negb (p r)) t.

Definition sql_exists (p : A -> bool) (t : list A) : bool := existsb p t.

Definition sql_count (p : A -> bool) (t : list A) : Z := Z.of_nat (length (sql_where p t)).

Definition sql_sum (p : A -> bool) (f : A -> Z) (t : list A) : Z :=
  fold_right Z.add 0%Z (map f (sql_where p t)).

Definition sql_first (p : A -> bool) (t : list A) : option A := List.find p t.

(** [ORDER BY key1, key2], ascending and stable. *)
Definition lex_le (a b : Z * Z) : bool :=
  (fst a <? fst b)%Z || ((fst a =? fst b)%Z && (snd a <=? snd b)%Z).

Fixpoint insert_by (key : A -> Z * Z) (x : A) (l : list A) : list A :=
  match l with
  | [] => [x]
  | y :: l' => if lex_le (key x) (key y) then x :: y :: l' else y :: insert_by key x l'
  end.

Definition order_by (key : A -> Z * Z) (l : list A) : list A :=
  fold_right (insert_by key) [] l.

(** [UNIQUE KEY]: a row that agrees with the new one on the key exists. *)
Definition violates_unique (same : A -> A -> bool) (r : A) (t : list A) : bool :=
  existsb (same r) t.

End Tables.

(** ** Lemmas on results and transactions *)

Section TxInvariants.
Context {S E : Type}.

(** [txinv P m]: whenever [m] succeeds from a state in [P] it ends in one.
    Nothing is said of a failing run, whose writes are rolled back. *)
Definition txinv {A : Type} (P : S -> Prop) (m : tx S E A) : Prop :=
  forall s a s', P s -> m s = (Ok a, s') -> P s'.

Lemma txinv_ret {A} (P : S -> Prop) (a : A) : txinv P (tx_ret a).
Proof. intros s x s' H Hr. unfold tx_ret in Hr. by inversion Hr; subst. Qed.

Lemma txinv_fail {A} (P : S -> Prop) (e : E) : txinv P (tx_fail (A := A) e).
Proof. intros s x s' H Hr. unfold tx_fail in Hr. by inversion Hr. Qed.

Lemma txinv_bind {A B} (P : S -> Prop) (m : tx S E A) (k : A -> tx S E B) :
  txinv P m -> (forall a, txinv P (k a)) -> txinv P (tx_bind m k).
Proof.
  intros Hm Hk s b s' HP Hr. unfold tx_bind in Hr.
  destruct (m s) as [[a|e] s1] eqn:Hms; [|discriminate].
  eapply Hk; [|exact Hr]. by eapply Hm.
Qed.

Lemma txinv_gets {A} (P : S -> Prop) (f : S -> A) : txinv P (tx_gets f).
Proof. intros s x s' H Hr. unfold tx_gets in Hr. by inversion Hr; subst. Qed.

Lemma txinv_get (P : S -> Prop) : txinv P tx_get.
Proof. intros s x s' H Hr. unfold tx_get in Hr. by inversion Hr; subst. Qed.

Lemma txinv_guard (P : S -> Prop) b (e : E) : txinv P (tx_guard b e).
Proof. unfold tx_guard. destruct b; [apply txinv_ret|apply txinv_fail]. Qed.

Lemma txinv_lift {A} (P : S -> Prop) (r : result E A) : txinv P (tx_lift r).
Proof. intros s x s' H Hr. unfold tx_lift in Hr. by inversion Hr; subst. Qed.

Lemma txinv_modify (P : S -> Prop) (f : S -> S) :
  (forall s, P s -> P (f s)) -> txinv P (tx_modify f).
Proof. intros Hf s x s' H Hr. unfold tx_modify in Hr. inversion Hr; subst. by apply Hf. Qed.

Lemma txinv_if {A} (P : S -> Prop) (b : bool) (m n : tx S E A) :
  txinv P m -> txinv P n -> txinv P (if b then m else n).
Proof. by destruct b. Qed.

Lemma txinv_option {A B} (P : S -> Prop) (o : option B) (m : B -> tx S E A) (n : tx S E A) :
  (forall b, o = Some b -> txinv P (m b)) -> txinv P n ->
  txinv P (match o with Some b => m b | None => n end).
Proof. destruct o; eauto. Qed.

End TxInvariants.

Lemma guard_bind {S E A : Type} b (e : E) (k : unit -> tx S E A) s :
  tx_bind (tx_guard b e) k s = if b then k tt s else (Err e, s).
Proof. by destruct b. Qed.

Lemma get_bind {S E A : Type} (k : S -> tx S E A) s : tx_bind tx_get k s = k s s.
Proof. done. Qed.

Lemma lift_bind {S E A B : Type} (r : result E A) (k : A -> tx S E B) s :
  tx_bind (tx_lift r) k s = match r with Ok a => k a s | Err e => (Err e, s) end.
Proof. by destruct r. Qed.

Create HintDb txinv.
#[export] Hint Resolve txinv_ret txinv_fail txinv_gets txinv_get txinv_guard
  txinv_lift txinv_if txinv_option : txinv.

(** Runs a transaction body one statement at a time in a hypothesis
    [m s = (Ok a, s')]. *)
Ltac tx_step H :=
  lazymatch type of H with
  | tx_bind ?m _ ?s = _ =>
      let r := fresh "r" in let s1 := fresh "s" in let Hm := fresh "Hm" in
      unfold tx_bind at 1 in H;
      destruct (m s) as [[r|r] s1] eqn:Hm; [|discriminate H]
  end.

Ltac tx_prims :=
  repeat match goal with
  | H : tx_ret _ _ = _ |- _ => unfold tx_ret in H
  | H : tx_fail _ _ = _ |- _ => unfold tx_fail in H
  | H : tx_gets _ _ = _ |- _ => unfold tx_gets in H
  | H : tx_get _ = _ |- _ => unfold tx_get in H
  | H : tx_modify _ _ = _ |- _ => unfold tx_modify in H
  | H : tx_lift _ _ = _ |- _ => unfold tx_lift in H
  | H : (Ok _, _) = (Ok _, _) |- _ => injection H as ? ?; subst
  | H : (Err _, _) = (Err _, _) |- _ => injection H as ? ?; subst
  | H : (Err _, _) = (Ok _, _) |- _ => discriminate H
  | H : (Ok _, _) = (Err _, _) |- _ => discriminate H
  end.

(** ** Lemmas on integers *)

Lemma uint64_small z : is_uint64 z -> uint64_of z = z.
Proof. unfold is_uint64, uint64_of, two64. intros ?. rewrite Z.mod_small; lia. Qed.

Lemma int64_small z : is_int64 z -> int64_of z = z.
Proof. unfold is_int64, int64_of, two63, two64. intros ?. rewrite Z.mod_small; lia. Qed.

Lemma int64_range z : is_int64 (int64_of z).
Proof.
  unfold is_int64, int64_of, two63, two64.
  pose proof (Z.mod_pos_bound (z + 9223372036854775808) 18446744073709551616 ltac:(lia)). lia.
Qed.

(** A sum of two [int64] values wraps at most once. *)
Lemma int64_overflow a b :
  is_int64 a -> is_int64 b -> (two63 <= a + b)%Z -> (int64_of (a + b) < 0)%Z.
Proof.
  unfold is_int64, int64_of, two63, two64. intros.
  rewrite <- (Z.mod_unique (a + b + 9223372036854775808) 18446744073709551616 1
    (a + b + 9223372036854775808 - 18446744073709551616)); lia.
Qed.

Lemma truncate_le d t : (0 < d)%Z -> (truncate d t <= t < truncate d t + d)%Z.
Proof. unfold truncate. intros Hd. pose proof (Z.mod_pos_bound t d Hd). lia. Qed.

Lemma truncate_divide d t : (0 < d)%Z -> (truncate d t mod d = 0)%Z.
Proof.
  unfold truncate. intros Hd. rewrite Zminus_mod, Z.mod_mod by lia.
  by rewrite Z.sub_diag, Z.mod_0_l by lia.
Qed.

Lemma truncate_id d t : (0 < d)%Z -> (t mod d = 0)%Z -> truncate d t = t.
Proof. unfold truncate. lia. Qed.

Lemma truncate_mono d t u : (0 < d)%Z -> (t <= u)%Z -> (truncate d t <= truncate d u)%Z.
Proof.
  unfold truncate. intros Hd Hle.
  pose proof (Z.div_mod t d ltac:(lia)). pose proof (Z.div_mod u d ltac:(lia)).
  pose proof (Z.div_le_mono t u d Hd Hle). nia.
Qed.

(** ** Lemmas on tables *)

Section TableLemmas.
Context {A : Type}.
Implicit Types (t : list A) (p : A -> bool).

Lemma sql_where_In p t r : In r (sql_where p t) <-> In r t /\ p r = true.
Proof. unfold sql_where. apply filter_In. Qed.

Lemma sql_delete_In p t r : In r (sql_delete p t) <-> In r t /\ p r = false.
Proof. unfold sql_delete. rewrite filter_In, negb_true_iff. done. Qed.

Lemma sql_update_In p f t r :
  In r (sql_update p f t) <->
  exists r0, In r0 t /\ r = if p r0 then f r0 else r0.
Proof.
  unfold sql_update. rewrite in_map_iff. split; intros (r0 & H1 & H2); eauto.
Qed.

Lemma sql_first_Some p t r : sql_first p t = Some r -> In r t /\ p r = true.
Proof. unfold sql_first. intros H. by apply find_some in H. Qed.

Lemma sql_first_None p t r : sql_first p t = None -> In r t -> p r = false.
Proof. unfold sql_first. intros H. by apply find_none. Qed.

(** The only row that satisfies the condition is the first one. *)
Lemma sql_first_unique p t r :
  In r t -> p r = true -> (forall x, In x t -> p x = true -> x = r) -> sql_first p t = Some r.
Proof.
  intros Hin Hp Hu. destruct (sql_first p t) as [x|] eqn:F.
  - apply sql_first_Some in F as [Hx Hpx]. by rewrite (Hu x).
  - apply (sql_first_None _ _ r) in F; [congruence|done].
Qed.

Lemma sql_exists_true p t : sql_exists p t = true <-> exists r, In r t /\ p r = true.
Proof. apply existsb_exists. Qed.

Lemma sql_exists_false p t r : sql_exists p t = false -> In r t -> p r = false.
Proof.
  unfold sql_exists. intros H Hin. destruct (p r) eqn:E; [|done].
  rewrite <- H. symmetry. apply existsb_exists. eauto.
Qed.

Lemma filter_delete_nil p t : List.filter p (sql_delete p t) = [].
Proof.
  unfold sql_delete. induction t as [|r t IH]; simpl; [done|].
  destruct (p r) eqn:E; simpl; [done|]. by rewrite E.
Qed.

Lemma sql_update_length p f t : length (sql_update p f t) = length t.
Proof. apply length_map. Qed.

Lemma sql_update_none p f t : (forall r, In r t -> p r = false) -> sql_update p f t = t.
Proof.
  intros H. unfold sql_update. rewrite <- (map_id t) at 2. apply map_ext_in.
  intros r Hr. by rewrite H.
Qed.

Lemma sql_update_map {B} (g : A -> B) p f t :
  (forall r, In r t -> p r = true -> g (f r) = g r) -> map g (sql_update p f t) = map g t.
Proof.
  intros H. unfold sql_update. rewrite map_map. apply map_ext_in. intros r Hr.
  destruct (p r) eqn:E; auto.
Qed.

Lemma sql_count_delete p q t : (sql_count p (sql_delete q t) <= sql_count p t)%Z.
Proof.
  unfold sql_count, sql_where, sql_delete. induction t as [|r t IH]; simpl; [lia|].
  destruct (q r) eqn:Eq; simpl; destruct (p r) eqn:Ep; simpl in *; lia.
Qed.

Lemma sql_sum_cons p f t r :
  sql_sum p f (r :: t) = ((if p r then f r else 0) + sql_sum p f t)%Z.
Proof. unfold sql_sum, sql_where. simpl. destruct (p r); simpl; lia. Qed.

Lemma sql_sum_app p f t u : sql_sum p f (t ++ u) = (sql_sum p f t + sql_sum p f u)%Z.
Proof.
  induction t as [|r t IH]; [done|].
  simpl app. rewrite !sql_sum_cons, IH. lia.
Qed.

Lemma sql_sum_ext p q f g t :
  (forall r, In r t -> p r = q r) -> (forall r, In r t -> p r = true -> f r = g r) ->
  sql_sum p f t = sql_sum q g t.
Proof.
  induction t as [|r t IH]; intros Hp Hf; [done|].
  rewrite !sql_sum_cons, IH; [|intros; apply Hp; by right|intros; apply Hf; [by right|done]].
  rewrite <- (Hp r (or_introl eq_refl)). destruct (p r) eqn:E; [|done].
  by rewrite (Hf r (or_introl eq_refl) E).
Qed.

Lemma sql_sum_nonneg p f t :
  (forall r, In r t -> p r = true -> (0 <= f r)%Z) -> (0 <= sql_sum p f t)%Z.
Proof.
  induction t as [|r t IH]; intros H; [done|].
  rewrite sql_sum_cons.
  assert (0 <= sql_sum p f t)%Z by (apply IH; intros; apply H; [by right|done]).
  destruct (p r) eqn:E; [|lia]. pose proof (H r (or_introl eq_refl) E). lia.
Qed.

Lemma insert_by_perm key (x : A) l : insert_by key x l ≡ₚ x :: l.
Proof.
  induction l as [|y l IH]; simpl; [done|].
  destruct (lex_le _ _); [done|]. rewrite IH. apply Permutation_swap.
Qed.

Lemma order_by_perm key (l : list A) : order_by key l ≡ₚ l.
Proof.
  induction l as [|x l IH]; simpl; [done|].
  unfold order_by in *. by rewrite insert_by_perm, IH.
Qed.

Lemma order_by_In key (l : list A) r : In r (order_by key l) <-> In r l.
Proof.
  rewrite <- !list_elem_of_In. by rewrite (order_by_perm key l).
Qed.

Lemma lex_le_trans a b c : lex_le a b = true -> lex_le b c = true -> lex_le a c = true.
Proof. unfold lex_le. lia. Qed.

Lemma lex_le_total a b : lex_le a b = false -> lex_le b a = true.
Proof. unfold lex_le. lia. Qed.

Lemma lex_le_refl a : lex_le a a = true.
Proof. unfold lex_le. lia. Qed.

Definition key_le (key : A -> Z * Z) (a b : A) : Prop := lex_le (key a) (key b) = true.

Lemma insert_by_sorted key x l :
  StronglySorted (key_le key) l -> StronglySorted (key_le key) (insert_by key x l).
Proof.
  unfold key_le. induction 1 as [|y l Hs IH Hall]; simpl; [repeat constructor|].
  destruct (lex_le (key x) (key y)) eqn:E.
  - constructor; [by constructor|]. constructor; [done|].
    eapply Forall_impl; [exact Hall|]. simpl. intros. by eapply lex_le_trans.
  - constructor; [done|]. rewrite insert_by_perm. constructor; [|done].
    by apply lex_le_total.
Qed.

Lemma order_by_sorted key l : StronglySorted (key_le key) (order_by key l).
Proof. induction l as [|x l IH]; simpl; [constructor|]. by apply insert_by_sorted. Qed.

(** The head of an ordered selection is a minimum of it. *)
Lemma order_by_head (key : A -> Z * Z) (l : list A) r rest :
  order_by key l = r :: rest -> In r l /\ forall r', In r' l -> lex_le (key r) (key r') = true.
Proof.
  intros H. split.
  - apply (order_by_In key). rewrite H. by left.
  - intros r' Hr'. pose proof (order_by_sorted key l) as Hs. rewrite H in Hs.
    apply (order_by_In key) in Hr'. rewrite H in Hr'. inversion Hs as [|? ? ? Hall]; subst.
    destruct Hr' as [->|Hr']; [apply lex_le_refl|].
    rewrite Forall_forall in Hall. by apply Hall, list_elem_of_In.
Qed.

(** An ordered selection of rows that are in order already is the rows. *)
Lemma insert_by_head (key : A -> Z * Z) (x : A) (l : list A) :
  Forall (key_le key x) l -> insert_by key x l = x :: l.
Proof. destruct l as [|y l]; [done|]. intros Hf. inversion Hf as [|? ? Hk]; subst. simpl. by rewrite Hk. Qed.

Lemma order_by_id (key : A -> Z * Z) (l : list A) : StronglySorted (key_le key) l -> order_by key l = l.
Proof.
  induction 1 as [|x l Hs IH Hall]; [done|]. simpl. unfold order_by in *. rewrite IH. by apply insert_by_head.
Qed.

End TableLemmas.

Lemma sorted_take_drop {A} (R : A -> A -> Prop) n (l : list A) a b :
  StronglySorted R l -> In a (take n l) -> In b (drop n l) -> R a b.
Proof.
  intros Hs. revert n. induction Hs as [|x l Hs IH Hall]; intros n Ha Hb.
  - by rewrite take_nil in Ha.
  - destruct n as [|n]; [destruct Ha|]. simpl in Ha, Hb. destruct Ha as [->|Ha]; [|by eapply IH].
    rewrite Forall_forall in Hall. apply Hall, list_elem_of_In. rewrite <- (take_drop n l).
    apply in_or_app. by right.
Qed.

Create Rewrite HintDb sql.
#[export] Hint Rewrite @sql_where_In @sql_delete_In @sql_update_In : sql.
