(* ===== verification/GoStrings.v ===== *)
(** * The parts of Go's [strings], [unicode/utf8] and [encoding/hex] the program uses

    A Go string is a sequence of bytes: Rocq's [string], whose characters are
    bytes.  [TrimSpace] removes every character of [unicode.IsSpace] in its
    UTF-8 form, [runes] is the conversion [[]rune(s)] with each invalid byte
    replaced by U+FFFD, [commandIDPattern] is the queue's regular expression
    [^cmd-[a-f0-9]{32}$]. *)

From Stdlib Require Import ZArith Lia Bool Ascii String.
From stdpp Require Import base tactics list strings.
From S2P Require Import Prelude.

Local Open Scope Z_scope.

Definition code (c : ascii) : Z := Z.of_N (N_of_ascii c).
Definition chr (z : Z) : ascii := ascii_of_N (Z.to_N z).

Definition bytes (s : string) : list ascii := list_ascii_of_string s.
Definition of_bytes (l : list ascii) : string := string_of_list_ascii l.

(** [len(s)]: the number of bytes. *)
Definition len (s : string) : Z := Z.of_nat (String.length s).

Definition between (lo hi x : Z) : bool := (lo <=? x) && (x <=? hi).

(** ** [strings.TrimSpace] *)

(** The number of bytes of the white-space character the list starts with, 0
    when it starts with none. *)
Definition space_width (l : list ascii) : nat :=
  match map code (take 3 l) with
  | b0 :: rest =>
      if between 9 13 b0 || (b0 =? 32) then 1%nat
      else match rest with
           | b1 :: rest' =>
               if (b0 =? 194) && ((b1 =? 133) || (b1 =? 160)) then 2%nat
               else match rest' with
                    | b2 :: _ =>
                        if ((b0 =? 225) && (b1 =? 154) && (b2 =? 128))
                           || ((b0 =? 226) && (b1 =? 128) &&
                               (between 128 138 b2 || (b2 =? 168) || (b2 =? 169) || (b2 =? 175)))
                           || ((b0 =? 226) && (b1 =? 129) && (b2 =? 159))
                           || ((b0 =? 227) && (b1 =? 128) && (b2 =? 128))
                        then 3%nat else 0%nat
                    | [] => 0%nat
                    end
           | [] => 0%nat
           end
  | [] => 0%nat
  end.

(** The same for the character the list, given in reverse, ends with. *)
Definition space_width_rev (l : list ascii) : nat :=
  let w1 := space_width (take 1 l) in
  let w2 := space_width (rev (take 2 l)) in
  let w3 := space_width (rev (take 3 l)) in
  if Nat.eqb w1 1 then 1%nat
  else if Nat.eqb w2 2 then 2%nat
  else if Nat.eqb w3 3 then 3%nat else 0%nat.

Fixpoint strip (width : list ascii -> nat) (fuel : nat) (l : list ascii) : list ascii :=
  match fuel with
  | O => l
  | S fuel' => match width l with
               | O => l
               | n => strip width fuel' (drop n l)
               end
  end.

Definition TrimSpace (s : string) : string :=
  let l := strip space_width (S (String.length s)) (bytes s) in
  of_bytes (rev (strip space_width_rev (S (List.length l)) (rev l))).

(** ** Searching *)

(** [strings.ContainsAny(s, "\r\n\x00")]. *)
Definition has_control (s : string) : bool :=
  existsb (fun c => (code c =? 13) || (code c =? 10) || (code c =? 0)) (bytes s).

Definition HasPrefix (s p : string) : bool := String.prefix p s.

Fixpoint Contains (s p : string) : bool :=
  String.prefix p s || match s with EmptyString => false | String _ s' => Contains s' p end.

Definition HasSuffix (s p : string) : bool :=
  (len p <=? len s)%Z &&
  String.eqb (String.substring (String.length s - String.length p) (String.length p) s) p.

(** ** [unicode/utf8] *)

Definition replacement : list ascii := [chr 239; chr 191; chr 189].

Definition is_cont (b : Z) : bool := between 128 191 b.

(** Width of the valid encoding the list starts with; 0 when invalid. *)
Definition rune_width (l : list ascii) : nat :=
  match map code (take 4 l) with
  | [] => 0%nat
  | b0 :: rest =>
      if b0 <? 128 then 1%nat
      else match rest with
      | [] => 0%nat
      | b1 :: rest1 =>
          if between 194 223 b0 then (if is_cont b1 then 2%nat else 0%nat)
          else match rest1 with
          | [] => 0%nat
          | b2 :: rest2 =>
              if ((b0 =? 224) && between 160 191 b1 && is_cont b2)
                 || (((between 225 236 b0) || between 238 239 b0) && is_cont b1 && is_cont b2)
                 || ((b0 =? 237) && between 128 159 b1 && is_cont b2)
              then 3%nat
              else match rest2 with
              | [] => 0%nat
              | b3 :: _ =>
                  if ((b0 =? 240) && between 144 191 b1 && is_cont b2 && is_cont b3)
                     || (between 241 243 b0 && is_cont b1 && is_cont b2 && is_cont b3)
                     || ((b0 =? 244) && between 128 143 b1 && is_cont b2 && is_cont b3)
                  then 4%nat else 0%nat
              end
          end
      end
  end.

Fixpoint runes_aux (fuel : nat) (l : list ascii) : list (list ascii) :=
  match fuel with
  | O => []
  | S fuel' =>
      match l with
      | [] => []
      | _ :: l' => match rune_width l with
                   | O => replacement :: runes_aux fuel' l'
                   | n => take n l :: runes_aux fuel' (drop n l)
                   end
      end
  end.

(** [[]rune(s)], each rune given by its encoding. *)
Definition runes (s : string) : list (list ascii) := runes_aux (String.length s) (bytes s).

Definition RuneCount (s : string) : Z := Z.of_nat (List.length (runes s)).

Definition string_of_runes (rs : list (list ascii)) : string := of_bytes (concat rs).

(** ** [encoding/hex] and identifiers *)

Definition hex_digit (n : Z) : ascii := if n <? 10 then chr (48 + n) else chr (87 + n).

Definition EncodeToString (bs : list Z) : string :=
  of_bytes (flat_map (fun b => [hex_digit (b / 16); hex_digit (b mod 16)]) bs).

Definition is_hex (c : ascii) : bool := between 48 57 (code c) || between 97 102 (code c).

(** [commandIDPattern.MatchString]. *)
Definition commandIDPattern (s : string) : bool :=
  HasPrefix s "cmd-" &&
  (let tail := drop 4 (bytes s) in
   Nat.eqb (List.length tail) 32 && forallb is_hex tail).

(** ** Decimal numbers, [fmt.Sprintf("%d", n)] for [n] not negative *)

Fixpoint decimal_aux (fuel : nat) (n : Z) (acc : string) : string :=
  match fuel with
  | O => acc
  | S fuel' =>
      let acc' := String (chr (48 + n mod 10)) acc in
      if n <? 10 then acc' else decimal_aux fuel' (n / 10) acc'
  end.

Definition decimal (n : Z) : string := decimal_aux (S (Z.to_nat (Z.log2 n))) n "".

(** ** Lemmas *)

Lemma of_bytes_bytes s : of_bytes (bytes s) = s.
Proof. apply string_of_list_ascii_of_string. Qed.

Lemma bytes_of_bytes l : bytes (of_bytes l) = l.
Proof. apply list_ascii_of_string_of_list_ascii. Qed.

Lemma length_bytes s : List.length (bytes s) = String.length s.
Proof. induction s; simpl; auto. Qed.

Lemma code_chr z : 0 <= z < 256 -> code (chr z) = z.
Proof.
  intros H. unfold code, chr. rewrite N_ascii_embedding by lia. lia.
Qed.

Lemma code_range c : 0 <= code c < 256.
Proof. unfold code. pose proof (N_ascii_bounded c). lia. Qed.

Lemma chr_code c : chr (code c) = c.
Proof. unfold chr, code. rewrite N2Z.id. apply ascii_N_embedding. Qed.

Lemma hex_digit_is_hex n : 0 <= n < 16 -> is_hex (hex_digit n) = true.
Proof.
  intros H. unfold is_hex, hex_digit, between.
  destruct (n <? 10) eqn:E; rewrite code_chr by lia; lia.
Qed.

Lemma byte_nibbles b : 0 <= b < 256 -> 0 <= b / 16 < 16 /\ 0 <= b mod 16 < 16.
Proof.
  intros H. pose proof (Z.mod_pos_bound b 16 ltac:(lia)).
  split; [|done]. split; [apply Z.div_pos; lia|apply Z.div_lt_upper_bound; lia].
Qed.

Lemma encode_is_hex bs :
  Forall (fun b => 0 <= b < 256) bs ->
  forallb is_hex (flat_map (fun b => [hex_digit (b / 16); hex_digit (b mod 16)]) bs) = true.
Proof.
  induction 1 as [|b bs Hb Hbs IH]; [done|].
  destruct (byte_nibbles b Hb). simpl. by rewrite !hex_digit_is_hex, IH.
Qed.

Lemma encode_length bs :
  List.length (flat_map (fun b => [hex_digit (b / 16); hex_digit (b mod 16)]) bs)
  = (2 * List.length bs)%nat.
Proof. induction bs; simpl; lia. Qed.

Lemma prefix_append p s : String.prefix p (p ++ s)%string = true.
Proof. induction p as [|c p IH]; simpl; [by destruct s|]. by destruct (ascii_dec c c). Qed.

Lemma bytes_app p s : bytes (p ++ s)%string = bytes p ++ bytes s.
Proof. induction p as [|c p IH]; simpl; [done|]. unfold bytes in *. simpl. by f_equal. Qed.

(** A generated command identifier has the shape every lookup requires. *)
Lemma commandID_matches bs :
  List.length bs = 16%nat -> Forall (fun b => 0 <= b < 256) bs ->
  commandIDPattern ("cmd-" ++ EncodeToString bs)%string = true.
Proof.
  intros Hl Hb. unfold commandIDPattern, HasPrefix, EncodeToString.
  rewrite prefix_append, bytes_app, bytes_of_bytes.
  replace (drop 4 (bytes "cmd-" ++ _)) with
    (flat_map (fun b => [hex_digit (b / 16); hex_digit (b mod 16)]) bs) by done.
  cbv zeta. by rewrite encode_length, Hl, encode_is_hex.
Qed.

Lemma len_nonneg s : 0 <= len s.
Proof. unfold len. lia. Qed.

Lemma RuneCount_nonneg s : 0 <= RuneCount s.
Proof. unfold RuneCount. lia. Qed.

(** A rune takes at most four bytes. *)
Lemma rune_width_le l : (rune_width l <= 4)%nat.
Proof. unfold rune_width. repeat case_match; lia. Qed.

Lemma runes_aux_bytes fuel l :
  (List.length l <= fuel)%nat -> (List.length l <= 4 * List.length (runes_aux fuel l))%nat.
Proof.
  revert l. induction fuel as [|fuel IH]; intros l Hl; [lia|].
  destruct l as [|c l]; [simpl; lia|]. cbn [runes_aux].
  pose proof (rune_width_le (c :: l)) as Hw. destruct (rune_width (c :: l)) as [|n].
  - specialize (IH l ltac:(simpl in Hl; lia)). simpl in *. lia.
  - specialize (IH (drop (S n) (c :: l))). cbn [List.length]. rewrite length_drop in IH.
    simpl List.length in *. lia.
Qed.

Lemma runes_aux_widths fuel l r : In r (runes_aux fuel l) -> (List.length r <= 4)%nat.
Proof.
  revert l. induction fuel as [|fuel IH]; intros l; [done|].
  destruct l as [|c l]; [done|]. cbn [runes_aux].
  pose proof (rune_width_le (c :: l)) as Hw. destruct (rune_width (c :: l)) as [|n].
  - intros [<-|Hr]; [simpl; lia|by eapply IH].
  - intros [<-|Hr]; [rewrite length_take; lia|by eapply IH].
Qed.

Lemma concat_widths (rs : list (list ascii)) :
  (forall r, In r rs -> (List.length r <= 4)%nat) -> (List.length (concat rs) <= 4 * List.length rs)%nat.
Proof.
  induction rs as [|r rs IH]; intros Hr; [simpl; lia|]. cbn [concat List.length]. rewrite length_app.
  specialize (Hr r (or_introl eq_refl)) as Hr1. specialize (IH (fun x Hx => Hr x (or_intror Hx))). lia.
Qed.

(** Printable ASCII without spaces is left alone by [TrimSpace]. *)
Definition printable (c : ascii) : bool := between 33 127 (code c).

Lemma space_width_printable c l : printable c = true -> space_width (c :: l) = 0%nat.
Proof.
  unfold printable, between, space_width. intros Hc. cbn [take map].
  assert (between 9 13 (code c) || (code c =? 32) = false) as -> by (unfold between; lia).
  destruct l as [|c1 l]; [done|]. cbn [take map].
  replace (code c =? 194) with false by lia. cbn [andb].
  destruct l as [|c2 l]; [done|]. cbn [take map].
  replace (code c =? 225) with false by lia. replace (code c =? 226) with false by lia.
  by replace (code c =? 227) with false by lia.
Qed.

Lemma space_width_rev_printable l :
  forallb printable l = true -> space_width_rev l = 0%nat.
Proof.
  intros Hl. unfold space_width_rev. cbv zeta.
  assert (forall k, forallb printable k = true -> space_width k = 0%nat) as Hw.
  { intros [|c k] Hk; [done|]. apply andb_true_iff in Hk as [Hk _]. by apply space_width_printable. }
  assert (forall n, forallb printable (take n l) = true) as Ht.
  { intros n. rewrite forallb_forall in Hl |- *. intros x Hx. apply Hl.
    rewrite <- (take_drop n l). apply in_or_app. by left. }
  assert (forall k, forallb printable k = true -> forallb printable (rev k) = true) as Hr.
  { intros k Hk. rewrite forallb_forall in Hk |- *. intros x Hx. by apply Hk, in_rev. }
  by rewrite !Hw by auto.
Qed.

Lemma strip_none width n l : width l = 0%nat -> strip width n l = l.
Proof. destruct n; simpl; [done|]. by intros ->. Qed.

Lemma TrimSpace_printable s : forallb printable (bytes s) = true -> TrimSpace s = s.
Proof.
  intros Hs. unfold TrimSpace. cbv zeta. rewrite (strip_none space_width).
  - rewrite (strip_none space_width_rev), rev_involutive by
      (apply space_width_rev_printable; rewrite forallb_forall in Hs |- *; intros x Hx; by apply Hs, in_rev).
    apply of_bytes_bytes.
  - destruct (bytes s) as [|c l]; [done|]. apply andb_true_iff in Hs as [Hc _].
    by apply space_width_printable.
Qed.

Lemma prefix_split p s : String.prefix p s = true -> exists t, s = (p ++ t)%string.
Proof.
  revert s. induction p as [|c p IH]; intros s Hp; [by exists s|].
  destruct s as [|c' s]; [discriminate Hp|]. cbn [String.prefix] in Hp.
  destruct (ascii_dec c c') as [<-|]; [|discriminate Hp].
  apply IH in Hp as [t ->]. by exists t.
Qed.

Lemma commandID_printable s : commandIDPattern s = true -> forallb printable (bytes s) = true.
Proof.
  unfold commandIDPattern. intros [Hp [_ Ht]%andb_true_iff]%andb_true_iff.
  apply prefix_split in Hp as [t ->]. rewrite bytes_app in *. rewrite forallb_app.
  apply andb_true_iff. split; [done|]. cbn [bytes] in Ht.
  change (drop 4 (bytes "cmd-" ++ bytes t)) with (bytes t) in Ht.
  rewrite forallb_forall in Ht |- *. intros x Hx. specialize (Ht x Hx).
  unfold is_hex, printable, between in *. lia.
Qed.

Lemma commandID_trim s : commandIDPattern s = true -> TrimSpace s = s.
Proof. intros Hs. by apply TrimSpace_printable, commandID_printable. Qed.

Example trim_ascii : TrimSpace "  web-1 " = "web-1"%string.
Proof. vm_compute. reflexivity. Qed.

Example decimal_1024 : decimal 1024 = "1024"%string.
Proof. vm_compute. reflexivity. Qed.

(** A printable first character stops the trimming, from either side. *)
Lemma strip_rev_last c fuel k : printable c = true -> exists k', strip space_width_rev fuel (k ++ [c]) = k' ++ [c].
Proof.
  intros Hc. revert k. induction fuel as [|fuel IH]; intros k; [by exists k|]. cbn [strip].
  destruct (space_width_rev (k ++ [c])) as [|w] eqn:W; [by exists k|].
  assert (S w <= List.length k)%nat as Hle.
  { destruct (le_lt_dec (S w) (List.length k)) as [|Hgt]; [done|]. exfalso.
    assert (forall j, (List.length k < j)%nat -> space_width (rev (take j (k ++ [c]))) = 0%nat) as Hz.
    { intros j Hj. rewrite take_ge by (rewrite length_app; simpl; lia). rewrite rev_app_distr. by apply space_width_printable. }
    unfold space_width_rev in W. cbv zeta in W.
    destruct (Nat.eqb (space_width (take 1 (k ++ [c]))) 1) eqn:E1.
    { injection W as <-. destruct k as [|x k]; [|simpl in Hgt; lia]. simpl take in E1. by rewrite space_width_printable in E1. }
    destruct (Nat.eqb (space_width (rev (take 2 (k ++ [c])))) 2) eqn:E2.
    { injection W as <-. by rewrite Hz in E2 by lia. }
    destruct (Nat.eqb (space_width (rev (take 3 (k ++ [c])))) 3) eqn:E3; [|done]. injection W as <-. by rewrite Hz in E3 by lia. }
  rewrite drop_app_le by lia. apply IH.
Qed.

Lemma TrimSpace_head c s : printable c = true -> exists t, TrimSpace (String c s) = String c t.
Proof.
  intros Hc. unfold TrimSpace. cbv zeta. change (bytes (String c s)) with (c :: bytes s).
  rewrite (strip_none space_width) by (by apply space_width_printable). cbn [rev].
  destruct (strip_rev_last c (S (List.length (c :: bytes s))) (rev (bytes s)) Hc) as [k' ->].
  rewrite rev_app_distr. by exists (of_bytes (rev k')).
Qed.
