(* ===== verification/Sqlstore.v ===== *)
(** * internal/sqlstore: the transaction discipline every store follows

    [WithTx] runs a function in one transaction, rolls it back when it fails
    and runs it again, at most four times, when the server aborted it to break
    a deadlock or a lock wait.  What becomes of one attempt is its [verdict], an
    input of the model: it may be aborted by the server, fail before its commit
    is asked for, or be committed although the answer to the commit is lost, so
    that an error is reported for work that was done.  [Collation] is the equality the
    server uses on text columns: the schema declares [utf8mb4_unicode_ci],
    which is coarser than equality of bytes, and the stores rely only on its
    being an equivalence. *)

From Stdlib Require Import ZArith Lia Bool String.
From stdpp Require Import base tactics list strings.
From S2P Require Import Prelude GoStrings.

Local Open Scope Z_scope.

(** ** Server errors *)

Definition ErrDuplicateEntry : Z := 1062.
Definition ErrLockWaitTimeout : Z := 1205.
Definition ErrDeadlock : Z := 1213.
Definition ErrCheckViolation : Z := 3819.
Definition ErrMariaDBCheck : Z := 4025.

(** An error type that carries the errors of the database server. *)
Class ServerError (E : Type) := {
  server : Z -> E;
  server_code : E -> option Z;
  ctx_done : E;
  lost_connection : E;
  server_code_server : forall c, server_code (server c) = Some c;
  server_code_lost : server_code lost_connection = None
}.

Definition maxTransactionAttempts : nat := 4.

Section WithTx.
Context {S E : Type} `{ServerError E}.

Definition IsCode (e : E) (c : Z) : bool :=
  match server_code e with Some c' => c' =? c | None => false end.

Definition IsServerError (e : E) : bool :=
  match server_code e with Some _ => true | None => false end.

Definition IsDuplicate (e : E) : bool := IsCode e ErrDuplicateEntry.

Definition IsCheckViolation (e : E) : bool :=
  IsCode e ErrCheckViolation || IsCode e ErrMariaDBCheck.

Definition retryable (e : E) : bool := IsCode e ErrDeadlock || IsCode e ErrLockWaitTimeout.

(** What happens to one attempt: its commit is acknowledged; the server fails it
    with an error number; the connection is lost before the commit; or the
    commit takes place and its acknowledgement is lost. *)
Inductive fate := Acknowledged | Aborted (c : Z) | Unreachable | Unacknowledged.

(** [cancelled] says the caller's context ended meanwhile. *)
Record verdict := mkVerdict { fate_of : fate; cancelled : bool }.

Definition commits : verdict := mkVerdict Acknowledged false.

Definition runTx {A : Type} (v : verdict) (fn : tx S E A) : tx S E A :=
  fun s => match fate_of v with
           | Aborted c => (Err (server c), s)
           | Unreachable => (Err lost_connection, s)
           | Acknowledged => match fn s with
                             | (Ok a, s') => (Ok a, s')
                             | (Err e, _) => (Err e, s)
                             end
           | Unacknowledged => match fn s with
                               | (Ok _, s') => (Err lost_connection, s')
                               | (Err e, _) => (Err e, s)
                               end
           end.

Fixpoint attempts {A : Type} (n : nat) (vs : list verdict) (last : E) (fn : tx S E A) : tx S E A :=
  match n with
  | O => tx_fail last
  | Datatypes.S n' =>
      let v := List.hd commits vs in
      fun s => match runTx v fn s with
               | (Ok a, s') => (Ok a, s')
               | (Err e, s') =>
                   if retryable e
                   then if cancelled v then (Err ctx_done, s')
                        else attempts n' (List.tl vs) e fn s'
                   else (Err e, s')
               end
  end.

Definition WithTx {A : Type} (vs : list verdict) (fn : tx S E A) : tx S E A :=
  attempts maxTransactionAttempts vs ctx_done fn.

(** ** Lemmas *)

Lemma retryable_lost : retryable lost_connection = false.
Proof. unfold retryable, IsCode. by rewrite server_code_lost. Qed.

(** Work that was committed and reported as failed. *)
Definition unnoticed {A} (fn : tx S E A) (s : S) (e : E) (s' : S) : Prop :=
  e = lost_connection /\ exists a, fn s = (Ok a, s').

Lemma runTx_err {A} v (fn : tx S E A) s e s' : runTx v fn s = (Err e, s') -> s' = s \/ unnoticed fn s e s'.
Proof.
  unfold runTx, unnoticed. destruct (fate_of v); [|intros [= _ ->]; by left..|].
  - destruct (fn s) as [[a|e'] s1]; [discriminate|intros [= _ ->]; by left].
  - destruct (fn s) as [[a|e'] s1]; [intros [= <- <-]; right; eauto|intros [= _ ->]; by left].
Qed.

Lemma runTx_ok {A} v (fn : tx S E A) s a s' :
  runTx v fn s = (Ok a, s') -> fn s = (Ok a, s').
Proof. unfold runTx. destruct (fate_of v); try discriminate; by destruct (fn s) as [[a'|e'] s1]. Qed.

(** A retried attempt left nothing behind. *)
Lemma runTx_retry {A} v (fn : tx S E A) s e s' : runTx v fn s = (Err e, s') -> retryable e = true -> s' = s.
Proof. intros [->|[-> _]]%runTx_err; [done|]. by rewrite retryable_lost. Qed.

Lemma runTx_cases {A} v (fn : tx S E A) s r s' :
  runTx v fn s = (r, s') -> s' = s \/ exists a, fn s = (Ok a, s').
Proof.
  destruct r as [a|e]; [intros W%runTx_ok; eauto|]. intros [->|[_ [a Ha]]]%runTx_err; eauto.
Qed.

Lemma attempts_err {A} n vs last (fn : tx S E A) s e s' :
  attempts n vs last fn s = (Err e, s') -> s' = s \/ unnoticed fn s e s'.
Proof.
  revert vs last s. induction n as [|n IH]; intros vs last s; simpl; [intros [= _ ->]; by left|].
  destruct (runTx (hd commits vs) fn s) as [[a|e1] s1] eqn:R; [discriminate|].
  destruct (retryable e1) eqn:Y; [|intros [= <- <-]; by eapply runTx_err].
  apply runTx_retry in R as ->; [|done]. destruct (cancelled _); [intros [= _ ->]; by left|apply IH].
Qed.

Lemma attempts_ok {A} n vs last (fn : tx S E A) s a s' :
  attempts n vs last fn s = (Ok a, s') -> fn s = (Ok a, s').
Proof.
  revert vs last s. induction n as [|n IH]; intros vs last s; simpl; [discriminate|].
  destruct (runTx (hd commits vs) fn s) as [[a1|e1] s1] eqn:R.
  - intros [= -> ->]. by eapply runTx_ok.
  - destruct (retryable e1) eqn:Y; [|discriminate].
    apply runTx_retry in R as ->; [|done]. destruct (cancelled _); [discriminate|apply IH].
Qed.

Lemma WithTx_err {A} vs (fn : tx S E A) s e s' : WithTx vs fn s = (Err e, s') -> s' = s \/ unnoticed fn s e s'.
Proof. apply attempts_err. Qed.

Lemma WithTx_ok {A} vs (fn : tx S E A) s a s' :
  WithTx vs fn s = (Ok a, s') -> fn s = (Ok a, s').
Proof. apply attempts_ok. Qed.

(** Whatever is reported, the tables are as before or as a complete run leaves them. *)
Lemma WithTx_cases {A} vs (fn : tx S E A) s r s' :
  WithTx vs fn s = (r, s') -> s' = s \/ exists a, fn s = (Ok a, s').
Proof.
  destruct r as [a|e]; [intros W%WithTx_ok; eauto|]. intros [->|[_ [a Ha]]]%WithTx_err; eauto.
Qed.

(** An error that is not the loss of the connection was rolled back. *)
Lemma WithTx_rolled_back {A} vs (fn : tx S E A) s e s' :
  WithTx vs fn s = (Err e, s') -> e <> lost_connection -> s' = s.
Proof. by intros [->|[? _]]%WithTx_err ?. Qed.

(** No acknowledgement of these attempts is lost. *)
Definition acknowledged (vs : list verdict) : Prop := Forall (fun v => fate_of v <> Unacknowledged) vs.

Lemma WithTx_err_acknowledged {A} vs (fn : tx S E A) s e s' :
  acknowledged vs -> WithTx vs fn s = (Err e, s') -> s' = s.
Proof.
  unfold WithTx. generalize (ctx_done (E := E)) as last. generalize maxTransactionAttempts as n.
  intros n last. revert vs last. induction n as [|n IH]; intros vs last Hv; simpl; [by intros [= _ ->]|].
  destruct (runTx (hd commits vs) fn s) as [[a|e1] s1] eqn:R; [discriminate|].
  assert (s1 = s) as ->.
  { unfold runTx in R. destruct Hv as [|v vs Hv Hvs]; cbn in R;
      [|destruct (fate_of v); try done; try by injection R as _ <-]; destruct (fn s) as [[?|?] ?]; congruence. }
  destruct (retryable e1); [|by intros [= _ ->]]. destruct (cancelled _); [by intros [= _ ->]|].
  apply IH. destruct Hv; [constructor|done].
Qed.

Lemma duplicate_not_lost e : IsDuplicate e = true -> e <> lost_connection.
Proof. unfold IsDuplicate, IsCode. intros Hd ->. by rewrite server_code_lost in Hd. Qed.

(** An error is the function's own, the server's, the end of the context, or
    the loss of the connection. *)
Lemma WithTx_err_origin {A} vs (fn : tx S E A) s e s' :
  WithTx vs fn s = (Err e, s') ->
  (exists s1, fn s = (Err e, s1)) \/ e = ctx_done \/ e = lost_connection \/ exists c, e = server c.
Proof.
  set (origin e := (exists s1, fn s = (Err e, s1)) \/ e = ctx_done \/ e = lost_connection \/ exists c, e = server c).
  unfold WithTx. cut (forall n vs last, origin last -> attempts n vs last fn s = (Err e, s') -> origin e).
  { intros Hc. apply Hc. unfold origin. tauto. }
  intros n. induction n as [|n IH]; intros vs' last Hl; simpl; [by intros [= <- _]|].
  destruct (runTx (hd commits vs') fn s) as [[a|e1] s1] eqn:R; [discriminate|].
  assert (origin e1) as Ho.
  { unfold runTx in R. unfold origin. destruct (fate_of _), (fn s) as [[a|e2] s2]; try discriminate R; injection R as <- _; eauto. }
  destruct (retryable e1) eqn:Y; [|by intros [= <- _]].
  apply runTx_retry in R as ->; [|done]. destruct (cancelled _); [intros [= <- _]; unfold origin; tauto|]. by apply IH.
Qed.

Lemma WithTx_inv {A} (P : S -> Prop) vs (fn : tx S E A) s r s' :
  txinv P fn -> P s -> WithTx vs fn s = (r, s') -> P s'.
Proof. intros Hfn HP [->|[a Ha]]%WithTx_cases; [done|]. by eapply Hfn. Qed.

(** With no fault the transaction is the function itself, rolled back on error. *)
Lemma WithTx_clean {A} (fn : tx S E A) s :
  WithTx [] fn s =
  match fn s with
  | (Ok a, s') => (Ok a, s')
  | (Err e, _) => if retryable e then WithTx [] fn s else (Err e, s)
  end.
Proof.
  unfold WithTx, maxTransactionAttempts. simpl. unfold runTx. simpl.
  destruct (fn s) as [[a|e] s1] eqn:F; [done|].
  destruct (retryable e) eqn:R; [|done]. rewrite F, R. rewrite F, R. rewrite F, R. done.
Qed.

Lemma WithTx_commits {A} (fn : tx S E A) s a s' :
  fn s = (Ok a, s') -> WithTx [] fn s = (Ok a, s').
Proof. intros Hf. by rewrite WithTx_clean, Hf. Qed.

(** A database that aborts with a retryable code. *)
Definition deadlocks : verdict := mkVerdict (Aborted ErrDeadlock) false.

Lemma retryable_server c :
  retryable (server c) = ((c =? ErrDeadlock) || (c =? ErrLockWaitTimeout)).
Proof. unfold retryable, IsCode. by rewrite server_code_server. Qed.

Lemma attempts_deadlocks {A} n k last (fn : tx S E A) s a s' :
  (k < n)%nat -> fn s = (Ok a, s') ->
  attempts n (replicate k deadlocks) last fn s = (Ok a, s').
Proof.
  revert n last. induction k as [|k IH]; intros n last Hk Hf; destruct n as [|n]; try lia.
  - simpl. unfold runTx. simpl. by rewrite Hf.
  - simpl. rewrite retryable_server. simpl. apply IH; [lia|done].
Qed.

End WithTx.

Arguments verdict : clear implicits.

(** A transaction is all or nothing: whatever becomes of its attempts, the
    database holds afterwards what it held before or exactly one complete run of
    the function; a success is always the latter, and an error the former unless
    the connection was lost. *)
Theorem WithTx_atomic {S E A : Type} `{ServerError E}
    (vs : list verdict) (fn : tx S E A) (s : S) :
  match WithTx vs fn s with
  | (Ok a, s') => fn s = (Ok a, s')
  | (Err e, s') => s' = s \/ unnoticed fn s e s'
  end.
Proof.
  destruct (WithTx vs fn s) as [[a|e] s'] eqn:R.
  - by eapply WithTx_ok.
  - by eapply WithTx_err.
Qed.

(** ** Text columns *)

(** Equality of text under a column's collation. *)
Class Collation := {
  ceq : string -> string -> bool;
  ceq_refl : forall x, ceq x x = true;
  ceq_sym : forall x y, ceq x y = true -> ceq y x = true;
  ceq_trans : forall x y z, ceq x y = true -> ceq y z = true -> ceq x z = true
}.

Section CollationLemmas.
Context `{Collation}.

Lemma ceq_sym_eq x y : ceq x y = ceq y x.
Proof.
  destruct (ceq x y) eqn:E1, (ceq y x) eqn:E2; try done.
  - by rewrite (ceq_sym _ _ E1) in E2.
  - by rewrite (ceq_sym _ _ E2) in E1.
Qed.

Lemma ceq_congr_l x y z : ceq x y = true -> ceq x z = ceq y z.
Proof.
  intros Hxy. destruct (ceq y z) eqn:E.
  - by eapply ceq_trans.
  - destruct (ceq x z) eqn:E2; [|done].
    rewrite <- E. symmetry. eapply ceq_trans; [|done]. by apply ceq_sym.
Qed.

Lemma ceq_neq x y : ceq x y = false -> x <> y.
Proof. intros H1 ->. by rewrite ceq_refl in H1. Qed.

End CollationLemmas.

#[export] Hint Resolve ceq_refl ceq_sym : core.

(** Equality of bytes is a collation ([utf8mb4_bin]); it instantiates the
    parameter in the concrete runs below. *)
Definition binary_collation : Collation.
Proof.
  refine {| ceq := String.eqb |}.
  - apply String.eqb_refl.
  - intros x y Hxy. apply String.eqb_eq in Hxy as ->. apply String.eqb_refl.
  - intros x y z Hxy Hyz. apply String.eqb_eq in Hxy as ->. done.
Defined.
