(* ===== verification/Diagnostics.v ===== *)
(** * internal/queue/diagnostics.go: what a failed command tells its operator

    An execution error is reduced to a failure code, a summary and a recovery
    hint by a [switch] over its lower-cased text and the failure class its
    agent reported.  A Go [error] is an [ExecError]: its text, whether a
    [Permanent] is in its chain and the [SafeFailureCode] of the first error of
    the chain that has one. *)

From Stdlib Require Import ZArith Lia Bool Ascii String.
From stdpp Require Import base tactics list strings.
From S2P Require Import Prelude GoStrings.

Local Open Scope Z_scope.
Local Open Scope string_scope.
Local Open Scope list_scope.
Local Open Scope bool_scope.

Record ExecError := mkExecError {
  Error : string;
  wraps_permanent : bool;
  safe_failure_code : option string
}.

(** [PermanentError]: marks an error that must not be retried. *)
Definition PermanentError (err : option ExecError) : option ExecError :=
  match err with
  | None => None
  | Some e => Some (mkExecError (Error e) true (safe_failure_code e))
  end.

Definition isPermanent (err : option ExecError) : bool :=
  match err with None => false | Some e => wraps_permanent e end.

Definition safeFailureCode (err : option ExecError) : string :=
  match err with
  | Some e => match safe_failure_code e with Some c => c | None => "" end
  | None => ""
  end.

(** [errors.New]. *)
Definition errors_New (text : string) : option ExecError := Some (mkExecError text false None).

(** [strings.ToLower] as the patterns below can see it: ASCII letters, and the
    two other letters whose lower case is ASCII (U+212A and U+0130). *)
Definition lower_rune (r : list ascii) : list ascii :=
  match map code r with
  | [b] => if between 65 90 b then [chr (b + 32)] else r
  | [226; 132; 170] => [chr 107]
  | [196; 176] => [chr 105]
  | _ => r
  end.

Definition ToLower (s : string) : string := string_of_runes (map lower_rune (runes s)).

Definition lowered (err : option ExecError) : string :=
  match err with None => "" | Some e => ToLower (Error e) end.

Record Diagnostic := diag { FailureCode_of : string; Summary_of : string; Recovery_of : string }.

(** A Go [switch] without a tag: the first case whose condition holds. *)
Fixpoint switch {A : Type} (cases : list (bool * A)) (default : A) : A :=
  match cases with
  | [] => default
  | (c, a) :: rest => if c then a else switch rest default
  end.

Definition FailureCodeUnclassified : string := "execution_not_confirmed".
Definition maxLoggedCause : Z := 2048.

Definition dockerFailureDiagnostic (safeCode : string) : Diagnostic :=
  switch [
    ((safeCode =? "docker_placement_unsatisfied")%string,
      diag "stack_placement_unsatisfied"
        "Docker could not place this stack's services on any eligible node."
        "Check the placement this stack requires against the cluster: managed databases and the log aggregator need a ready, active node labelled nim.stateful=true, and every service needs a node with free capacity. Fix the placement, then retry.");
    ((safeCode =? "docker_image_unavailable")%string,
      diag "stack_image_unavailable"
        "The selected manager could not pull an image this stack declares."
        "Verify registry reachability and the image reference, then retry.");
    ((safeCode =? "docker_port_unavailable")%string,
      diag "stack_port_unavailable"
        "Docker could not start the stack because a port it publishes is already in use."
        "Inspect the selected manager for the process or service holding that port, resolve the conflict, then retry.");
    ((safeCode =? "docker_external_network_missing")%string,
      diag "stack_network_missing"
        "Docker rejected the stack because an external network it attaches to does not exist."
        "Create the reviewed overlay network on the manager, then retry.");
    ((safeCode =? "docker_external_config_missing")%string,
      diag "stack_config_missing"
        "Docker rejected the stack because an external configuration it mounts does not exist."
        "Repair the reviewed platform configurations, then retry.");
    ((safeCode =? "docker_external_secret_missing")%string,
      diag "stack_secret_missing"
        "Docker rejected the stack because an external secret it mounts does not exist."
        "Create the reviewed secret on the manager, then retry.");
    ((safeCode =? "docker_command_timed_out")%string,
      diag "stack_deploy_timed_out"
        "The deployment did not converge before the machine-agent deadline."
        "Inspect the stack's service tasks and the manager's capacity, confirm the intended state, then retry only if the change is still missing.");
    ((safeCode =? "docker_command_output_limit")%string,
      diag "stack_deploy_output_limit"
        "The deployment produced more status output than the bounded machine-agent response allows, which usually means services restarting repeatedly."
        "Inspect the stack's service tasks for a repeating failure, resolve it, then retry.");
    ((safeCode =? "docker_stack_deploy_failed")%string,
      diag "stack_deploy_failed"
        "Docker rejected or failed to converge this stack."
        "Inspect the stack's service tasks on the selected manager, resolve the reported Docker condition, then retry only if the change is still missing.")
  ] (diag "stack_operation_failed"
        "The machine agent reported that the Docker operation failed."
        "Inspect the target's current state on the selected manager before retrying.").

Definition commandFailureDiagnostic (action : string) (err : option ExecError) : Diagnostic :=
  let message := lowered err in
  let safeCode := safeFailureCode err in
  switch [
    (Contains message "command execution ended before completion" || Contains message "core restarted while",
      diag "execution_interrupted"
        "The controller stopped before it could confirm the remote result."
        "Verify the target's current state, then retry only if the intended change is still missing.");
    (Contains message "server is not connected" || Contains message "select a connected server",
      diag "target_disconnected"
        "The selected server was not connected when execution started."
        "Open Diagnostics, restore the agent connection, then retry this command.");
    (Contains message "docker reported a build error",
      diag "build_failed"
        "The image build failed on the machine."
        "Read this command's execution log for the failing step and its output, correct it in the repository, then retry.");
    (Contains message "docker reported an image push error" || Contains message "push built image",
      diag "image_push_failed"
        "The image built, but pushing it to the registry failed."
        "Read this command's execution log for the push output, check the registry credential and that the namespace accepts this image, then retry.");
    (Contains message "traefik acme email",
      diag "traefik_acme_email_required"
        "Traefik has no valid ACME contact email configured, and the gateway cannot be used until it does."
        "Open Gateway & ports, enter the ACME email under static settings, apply it, then retry.");
    (Contains message "external traefik overlay network",
      diag "traefik_network_required"
        "Traefik requires the external attachable overlay network named traefik."
        "Open Docker resources and create the reviewed encrypted traefik overlay, then retry.");
    (Contains message "nim.edge=true",
      diag "traefik_edge_label_required"
        "Traefik has no eligible manager because nim.edge=true is missing."
        "Open Swarm & placement, label the reviewed manager nim.edge=true, then retry.");
    (Contains message "dynamic config",
      diag "traefik_dynamic_config_required"
        "The reviewed Traefik dynamic config is missing."
        "Create the configured dynamic Swarm config, then retry.");
    (Contains message "dashboard" && Contains message "secret",
      diag "traefik_dashboard_auth_required"
        "The Traefik dashboard-auth secret is missing."
        "Create the configured htpasswd Swarm secret, then retry.");
    ((safeCode =? "docker_ingress_network_missing")%string,
      diag "swarm_ingress_network_missing"
        "Docker has no swarm ingress network, so no service can publish a port."
        "Recreate the ingress network on the manager (docker network create --driver overlay --ingress --subnet 10.0.0.0/24 --gateway 10.0.0.1 ingress), then retry.");
    ((action =? "traefik.reconcile")%string && (safeCode =? "docker_external_network_missing")%string,
      diag "traefik_network_required"
        "Docker rejected the Traefik deployment because its required external overlay network is missing."
        "Open Gateway & ports, refresh Installation prerequisites, repair the missing resources, then retry.");
    ((action =? "traefik.reconcile")%string && (safeCode =? "docker_external_config_missing")%string,
      diag "traefik_config_required"
        "Docker rejected the Traefik deployment because a required external configuration is missing."
        "Open Gateway & ports, refresh Installation prerequisites, repair the missing resources, then retry.");
    ((action =? "traefik.reconcile")%string && (safeCode =? "docker_external_secret_missing")%string,
      diag "traefik_secret_required"
        "Docker rejected the Traefik deployment because a required external secret is missing."
        "Open Gateway & ports, refresh Installation prerequisites, repair the missing resources, then retry.");
    ((action =? "traefik.reconcile")%string && (safeCode =? "docker_placement_unsatisfied")%string,
      diag "traefik_placement_unsatisfied"
        "Docker could not place the Traefik service on an eligible node."
        "Open Swarm placement, verify a ready active manager has nim.edge=true and sufficient capacity, then retry.");
    ((action =? "traefik.reconcile")%string && (safeCode =? "docker_port_unavailable")%string,
      diag "traefik_port_unavailable"
        "Docker could not start Traefik because a configured gateway port is already in use."
        "Inspect the selected manager for an existing gateway using ports 80 or 443, resolve the conflict, then retry.");
    ((action =? "traefik.reconcile")%string && (safeCode =? "docker_image_unavailable")%string,
      diag "traefik_image_unavailable"
        "The selected manager could not pull the reviewed Traefik image."
        "Verify registry reachability and the configured immutable Traefik image, then retry.");
    ((action =? "traefik.reconcile")%string && (safeCode =? "docker_command_timed_out")%string,
      diag "traefik_deploy_timed_out"
        "The Traefik deployment did not converge before the machine-agent deadline."
        "Inspect the Traefik service tasks and manager capacity, confirm the intended stack state, then retry only if it is absent.");
    ((action =? "traefik.reconcile")%string && (safeCode =? "docker_command_output_limit")%string,
      diag "traefik_deploy_output_limit"
        "The Traefik deployment produced more status output than the bounded machine-agent response allows."
        "Inspect the Traefik service tasks for repeated failures, resolve them, then retry only if the stack is absent.");
    ((action =? "traefik.reconcile")%string && (safeCode =? "docker_stack_deploy_failed")%string,
      diag "traefik_deploy_failed"
        "Docker rejected or failed to converge the reviewed Traefik stack."
        "Inspect Traefik service tasks and the selected manager's current gateway state, resolve the reported Docker condition, then retry only if the stack is absent.");
    (Contains message "traefik singleton service was not found",
      diag "gateway_required"
        "The managed Traefik gateway is required before this stack can create private routes."
        "Install and verify Traefik under Gateway, routes & DNS, then retry.");
    (Contains message "nim.stateful",
      diag "stateful_node_required"
        "No ready active node satisfies the required nim.stateful=true placement."
        "Open Swarm, assign the stateful label to the reviewed node, then retry.");
    (Contains message "namespace prefix",
      diag "stack_outside_namespace"
        "This stack name is outside the namespace SwarmOps deploys applications into."
        "Rename the stack so it starts with the application namespace prefix, then retry.");
    (Contains message "read trusted stack asset",
      diag "controller_asset_missing"
        "The controller's reviewed deployment asset is unavailable."
        "Repair or update the controller installation before retrying.");
    (Contains message "config" && Contains message "not found",
      diag "swarm_config_missing"
        "A required versioned Swarm configuration is missing."
        "Repair the reviewed platform configurations, then retry the stack deployment.");
    ((action =? "observability.core")%string,
      diag "observability_not_confirmed"
        "SwarmOps could not confirm the Prometheus, Alertmanager, and Jaeger deployment."
        "Check the selected manager, Traefik gateway, stateful placement, and reviewed Swarm configs before retrying.");
    (negb (safeCode =? "")%string,
      dockerFailureDiagnostic safeCode)
  ] (diag FailureCodeUnclassified
        "SwarmOps could not confirm that the requested change completed."
        "Inspect the explicit target and current resource state before retrying.").

Definition uploadFailureDiagnostic (err : option ExecError) (limit : Z) : Diagnostic :=
  let message := lowered err in
  switch [
    (Contains message "encrypted state source exceeds" || Contains message "http: request body too large",
      diag "source_input_too_large"
        ("The source input is larger than this controller's " ++ decimal (Z.shiftr limit 20) ++ " MiB build limit.")
        "Reduce what the build context carries — a .dockerignore excluding vendor, node_modules, build output and history is usually enough — or raise SWARMOPS_BUILD_MAX_BYTES on the controller, then submit again.");
    (Contains message "no space left on device",
      diag "controller_storage_full"
        "The controller has no disk space left to store the source input."
        "Free space in the controller's state directory — Controller & recovery reports what it holds — then submit again. The command ledger is written before any operation runs, so this disk must never fill.");
    (Contains message "permission denied" || Contains message "read-only file system",
      diag "controller_storage_unwritable"
        "The controller could not write to its own state directory."
        "Check the ownership and mount of the controller's state directory, then submit again.");
    (Contains message "file limit",
      diag "build_context_too_many_files"
        "The build context holds more files than a deployment may carry."
        "Exclude what the image does not need — a .dockerignore covering vendor, node_modules, build output and .git is usually enough — then submit again.");
    (Contains message "build context exceeds" || Contains message "provider archive exceeds",
      diag "build_context_too_large"
        "The build context is larger than this controller allows."
        "Exclude what the image does not need with a .dockerignore, or raise the configured archive limit on the controller, then submit again.");
    (Contains message "symbolic link or special file",
      diag "build_context_unsupported_entry"
        "The build context contains a symbolic link or a special file, which is not carried into a build."
        "Replace it with a regular file, or move the build context to a directory that does not contain it, then submit again.");
    (Contains message "no regular files",
      diag "build_context_empty"
        "The selected build context contains no regular files."
        "Check the build context path against the repository — a path that matches nothing produces an empty context — then submit again.");
    (Contains message "repository root" || Contains message "invalid path" || Contains message "invalid root",
      diag "provider_archive_malformed"
        "The archive the provider returned is not shaped like a repository export."
        "Verify the repository and revision resolve to a normal source archive; nothing was stored.");
    (Contains message "open provider archive",
      diag "provider_archive_unreadable"
        "The provider returned something that is not a gzipped source archive, which usually means the request was answered by an error or a login page."
        "Check the connection's token and its scope for this repository, then submit again.");
    (Contains message "archive request failed with status",
      diag "provider_archive_rejected"
        "The provider refused the archive request for this revision."
        "Check that the connection still has access to the repository and that the revision exists, then submit again.");
    (Contains message "context canceled" || Contains message "context deadline exceeded",
      diag "source_input_canceled"
        "The request carrying the source input ended before the archive was stored."
        "Submit again and leave the deployment screen open; closing the tab, a reverse-proxy timeout, or navigating away all end the request this way.");
    (Contains message "unexpected eof" || Contains message "connection reset" || Contains message "broken pipe" || Contains message "read encrypted state source" || Contains message "made no progress",
      diag "source_input_stream_failed"
        "The source input stream ended before the whole archive arrived."
        "Nothing was stored and no build ran. Check that the provider is reachable from the controller and that the revision still resolves, then submit again from the deployment screen.")
  ] (diag "source_input_not_stored"
        "The controller could not store the source input."
        "Nothing was stored and no build ran. Submit a new command with the source input; if it fails again, check the controller's disk and its state directory.").


(** [boundedCause], what [logUnclassifiedFailure] writes to the log. *)
Definition boundedCause (cause : string) : string :=
  let cause := TrimSpace cause in
  if (len cause <=? maxLoggedCause)%Z then cause
  else String.substring 0 (Z.to_nat maxLoggedCause) cause ++ "… (truncated)".

#[global] Arguments commandFailureDiagnostic : simpl never.
#[global] Arguments uploadFailureDiagnostic : simpl never.
#[global] Arguments dockerFailureDiagnostic : simpl never.

(** ** Lemmas *)

Lemma switch_In {A} (cases : list (bool * A)) d : In (switch cases d) (d :: map snd cases).
Proof.
  induction cases as [|[c a] rest IH]; simpl; [by left|].
  destruct c; [by right; left|]. destruct IH as [IH|IH]; [by left|by right; right].
Qed.

(** What every diagnostic satisfies: a code the [VARCHAR(64)] column holds, and
    a summary and a hint to show. *)
Definition diagnostic_ok (d : Diagnostic) : bool :=
  (1 <=? len (FailureCode_of d))%Z && (len (FailureCode_of d) <=? 64)%Z
  && negb (Summary_of d =? "")%string && negb (Recovery_of d =? "")%string.

Lemma switch_ok cases d :
  diagnostic_ok d = true -> forallb (fun c => diagnostic_ok (snd c)) cases = true ->
  diagnostic_ok (switch cases d) = true.
Proof.
  intros Hd Hc. destruct (switch_In cases d) as [<-|Hin]; [done|].
  apply in_map_iff in Hin as ([b x] & <- & Hin).
  rewrite forallb_forall in Hc. exact (Hc _ Hin).
Qed.

Lemma docker_diagnostic_ok c : diagnostic_ok (dockerFailureDiagnostic c) = true.
Proof. unfold dockerFailureDiagnostic. apply switch_ok; vm_compute; reflexivity. Qed.

Ltac diagnostic_cases :=
  apply switch_ok; [vm_compute; reflexivity|cbn [forallb snd]].

Lemma command_diagnostic_ok action err :
  diagnostic_ok (commandFailureDiagnostic action err) = true.
Proof.
  unfold commandFailureDiagnostic. apply switch_ok; [vm_compute; reflexivity|].
  cbn [forallb snd]. rewrite docker_diagnostic_ok. vm_compute. reflexivity.
Qed.

Lemma upload_diagnostic_ok err limit :
  diagnostic_ok (uploadFailureDiagnostic err limit) = true.
Proof.
  unfold uploadFailureDiagnostic. apply switch_ok; vm_compute; reflexivity.
Qed.

Lemma substring_length n s : (String.length (String.substring 0 n s) <= n)%nat.
Proof.
  revert n. induction s as [|c s IH]; intros [|n]; simpl; try lia.
  specialize (IH n). lia.
Qed.

(** Every failure class an operator can be shown fits its ledger column
    ([VARCHAR(64)], never empty) and comes with a summary and a recovery hint,
    whatever the action and the error: no error text reaches the ledger. *)
Theorem failure_diagnostics_bounded (action : string) (err : option ExecError) (limit : Z) :
  diagnostic_ok (commandFailureDiagnostic action err) = true /\
  diagnostic_ok (uploadFailureDiagnostic err limit) = true.
Proof. split; [apply command_diagnostic_ok|apply upload_diagnostic_ok]. Qed.
