(* ===== verification/Ledger.v ===== *)
(** * internal/queue/store.go: the durable command ledger

    The ledger is the [commands] table with its payload, event and output
    tables, and the sealed input files beside the controller.  Each exported
    method of [Store] is a definition over that state: the transaction body is
    a [tx] run by [WithTx], the file removals that follow a commit come after
    it.  What a call reads from outside (the clock, random bytes, the server's
    verdict on each attempt, the rows other transactions hold locked) is its
    [Env].  SHA-256 and the JSON syntax check are parameters ([Platform]). *)

From Stdlib Require Import ZArith Lia Bool Ascii String.
From stdpp Require Import base tactics list strings gmap.
From S2P Require Import Prelude GoStrings Sqlstore Diagnostics.

Local Open Scope string_scope.
Local Open Scope list_scope.
Local Open Scope bool_scope.
Local Open Scope Z_scope.
Local Open Scope tx_scope.

(** ** Data *)

Inductive CommandState :=
| Uploading | Queued | Leased | Preparing | Running | RetryScheduled
| Succeeded | Failed | NeedsAttention | Superseded | Cancelled.

#[export] Instance CommandState_eq_dec : EqDecision CommandState.
Proof. solve_decision. Defined.

Definition state_eqb (a b : CommandState) : bool := bool_decide (a = b).

(** [oneOfCommandState]; also the SQL [state IN (...)]. *)
Definition oneOfCommandState (value : CommandState) (choices : list CommandState) : bool :=
  existsb (state_eqb value) choices.

Definition terminalCommandState (s : CommandState) : bool :=
  match s with
  | Succeeded | Failed | NeedsAttention | Superseded | Cancelled => true
  | _ => false
  end.

Record Command := mkCommand {
  Action : string; Actor : string; Attempt : Z; AuthorityEpoch : Z; AutoRetry : bool;
  ClusterID : string; CreatedAt : Z; FailureCode : string; FailureSummary : string;
  ID : string; LastAttemptAt : option Z; LastError : string; LeaseExpiresAt : option Z;
  MaxAttempts : Z; NextAttemptAt : option Z; NodeID : string; RequestID : string;
  RecoveryHint : string; ServerID : string; State : CommandState; Target : string;
  UpdatedAt : Z }.

(** The columns [updateTx] writes, as setters. *)
Definition set_attempt (v : Z) (c : Command) : Command :=
  mkCommand (Action c) (Actor c) v (AuthorityEpoch c) (AutoRetry c) (ClusterID c) (CreatedAt c)
    (FailureCode c) (FailureSummary c) (ID c) (LastAttemptAt c) (LastError c) (LeaseExpiresAt c)
    (MaxAttempts c) (NextAttemptAt c) (NodeID c) (RequestID c) (RecoveryHint c) (ServerID c)
    (State c) (Target c) (UpdatedAt c).
Definition set_epoch (v : Z) (c : Command) : Command :=
  mkCommand (Action c) (Actor c) (Attempt c) v (AutoRetry c) (ClusterID c) (CreatedAt c)
    (FailureCode c) (FailureSummary c) (ID c) (LastAttemptAt c) (LastError c) (LeaseExpiresAt c)
    (MaxAttempts c) (NextAttemptAt c) (NodeID c) (RequestID c) (RecoveryHint c) (ServerID c)
    (State c) (Target c) (UpdatedAt c).
Definition set_failure (code summary hint : string) (c : Command) : Command :=
  mkCommand (Action c) (Actor c) (Attempt c) (AuthorityEpoch c) (AutoRetry c) (ClusterID c)
    (CreatedAt c) code summary (ID c) (LastAttemptAt c) (LastError c) (LeaseExpiresAt c)
    (MaxAttempts c) (NextAttemptAt c) (NodeID c) (RequestID c) hint (ServerID c)
    (State c) (Target c) (UpdatedAt c).
Definition set_last_attempt (v : option Z) (c : Command) : Command :=
  mkCommand (Action c) (Actor c) (Attempt c) (AuthorityEpoch c) (AutoRetry c) (ClusterID c)
    (CreatedAt c) (FailureCode c) (FailureSummary c) (ID c) v (LastError c) (LeaseExpiresAt c)
    (MaxAttempts c) (NextAttemptAt c) (NodeID c) (RequestID c) (RecoveryHint c) (ServerID c)
    (State c) (Target c) (UpdatedAt c).
Definition set_last_error (v : string) (c : Command) : Command :=
  mkCommand (Action c) (Actor c) (Attempt c) (AuthorityEpoch c) (AutoRetry c) (ClusterID c)
    (CreatedAt c) (FailureCode c) (FailureSummary c) (ID c) (LastAttemptAt c) v (LeaseExpiresAt c)
    (MaxAttempts c) (NextAttemptAt c) (NodeID c) (RequestID c) (RecoveryHint c) (ServerID c)
    (State c) (Target c) (UpdatedAt c).
Definition set_lease_expires (v : option Z) (c : Command) : Command :=
  mkCommand (Action c) (Actor c) (Attempt c) (AuthorityEpoch c) (AutoRetry c) (ClusterID c)
    (CreatedAt c) (FailureCode c) (FailureSummary c) (ID c) (LastAttemptAt c) (LastError c) v
    (MaxAttempts c) (NextAttemptAt c) (NodeID c) (RequestID c) (RecoveryHint c) (ServerID c)
    (State c) (Target c) (UpdatedAt c).
Definition set_next_attempt (v : option Z) (c : Command) : Command :=
  mkCommand (Action c) (Actor c) (Attempt c) (AuthorityEpoch c) (AutoRetry c) (ClusterID c)
    (CreatedAt c) (FailureCode c) (FailureSummary c) (ID c) (LastAttemptAt c) (LastError c)
    (LeaseExpiresAt c) (MaxAttempts c) v (NodeID c) (RequestID c) (RecoveryHint c) (ServerID c)
    (State c) (Target c) (UpdatedAt c).
Definition set_state (v : CommandState) (c : Command) : Command :=
  mkCommand (Action c) (Actor c) (Attempt c) (AuthorityEpoch c) (AutoRetry c) (ClusterID c)
    (CreatedAt c) (FailureCode c) (FailureSummary c) (ID c) (LastAttemptAt c) (LastError c)
    (LeaseExpiresAt c) (MaxAttempts c) (NextAttemptAt c) (NodeID c) (RequestID c)
    (RecoveryHint c) (ServerID c) v (Target c) (UpdatedAt c).
Definition set_updated (v : Z) (c : Command) : Command :=
  mkCommand (Action c) (Actor c) (Attempt c) (AuthorityEpoch c) (AutoRetry c) (ClusterID c)
    (CreatedAt c) (FailureCode c) (FailureSummary c) (ID c) (LastAttemptAt c) (LastError c)
    (LeaseExpiresAt c) (MaxAttempts c) (NextAttemptAt c) (NodeID c) (RequestID c)
    (RecoveryHint c) (ServerID c) (State c) (Target c) v.

#[export] Instance Command_eq_dec : EqDecision Command.
Proof. solve_decision. Defined.

(** One ledger row, with the [seq] column the database assigns. *)
Record commandRow := mkRow {
  seq : Z; artifact : bool; command : Command; idempotencyKey : string;
  leaseID : string; payloadDigest : string }.

#[export] Instance commandRow_eq_dec : EqDecision commandRow.
Proof. solve_decision. Defined.

Definition with_command (f : Command -> Command) (r : commandRow) : commandRow :=
  mkRow (seq r) (artifact r) (f (command r)) (idempotencyKey r) (leaseID r) (payloadDigest r).
Definition with_lease (l : string) (r : commandRow) : commandRow :=
  mkRow (seq r) (artifact r) (command r) (idempotencyKey r) l (payloadDigest r).
Definition without_input (r : commandRow) : commandRow :=
  mkRow (seq r) false (command r) (idempotencyKey r) (leaseID r) "".

Record SubmitInput := mkInput {
  in_Action : string; in_Actor : string; in_AuthorityEpoch : Z; in_AutoRetry : bool;
  in_ClusterID : string; in_IdempotencyKey : string; in_MaxArtifactBytes : Z;
  in_MaxAttempts : Z; in_Payload : string; in_RequestID : string; in_ServerID : string;
  in_Target : string }.

Record Record_ := mkRecord { rec_Artifact : bool; rec_Command : Command; rec_Payload : option string }.
Record Submission := mkSubmission { sub_Command : Command; sub_Created : bool; sub_Superseded : list Command }.
Record Lease := mkLease { lease_LeaseID : string; lease_Record : Record_ }.

Record CommandEvent := mkEvent {
  ev_CommandID : string; ev_Sequence : Z; ev_State : CommandState; ev_Evidence : string;
  ev_OccurredAt : Z }.

(** A sealed value: ciphertext bound to the purpose it was sealed for. *)
Record Sealed := seal { sealed_for : string; sealed_text : string }.

Definition Purpose (table column key : string) : string :=
  "swarmops-sql:" ++ table ++ "." ++ column ++ ":" ++ key.

Definition open_sealed (purpose : string) (c : Sealed) : option string :=
  if (sealed_for c =? purpose)%string then Some (sealed_text c) else None.

Definition payloadPurpose (id : string) : string := Purpose "command_payloads" "payload_sealed" id.
Definition outputPurpose (id : string) : string := Purpose "command_outputs" "output_sealed" id.

(** A file of the inputs directory: whether it is a regular owner-only file. *)
Record File := mkFile { owner_only : bool; contents : Sealed }.

Record Store := mkStore {
  commands : list commandRow;
  next_seq : Z;
  command_payloads : list (string * Sealed);
  command_events : list CommandEvent;
  command_outputs : list (string * Sealed);
  inputs : gmap string File }.

Inductive qerr :=
| ErrCommandNotFound | ErrFieldInvalid | ErrPayloadInvalid | ErrMaxAttempts | ErrKeyInvalid
| ErrArtifactLimit | ErrArtifactRequired | ErrIdempotencyConflict | ErrNotReadyForRetry
| ErrStaleRetryEpoch | ErrInputNeverStored | ErrInputFile | ErrLeaseIdentity | ErrLeaseDuration
| ErrLeaseInvalid | ErrInvalidLeasedState | ErrNotLeased | ErrNotPreparing | ErrNotRunning
| ErrEpochRequired | ErrInputSuperseded | ErrStoreInput | ErrInputUnavailable | ErrOutputUnavailable
| ErrOpenSealed | ErrRandom | ErrContext | ErrConnection
| ErrDB (c : Z)
| ErrSave (c : Z).

#[export] Instance qerr_server : ServerError qerr.
Proof.
  refine {| server := ErrDB;
            server_code e := match e with ErrDB c | ErrSave c => Some c | _ => None end;
            ctx_done := ErrContext; lost_connection := ErrConnection |}; done.
Defined.

(** [storeError]: marks a database failure as a command-store failure. *)
Definition storeError (e : qerr) : qerr := match e with ErrDB c => ErrSave c | _ => e end.

Definition map_error {S A : Type} (f : qerr -> qerr) (m : tx S qerr A) : tx S qerr A :=
  fun s => match m s with (Err e, s') => (Err (f e), s') | r => r end.

(** What a call reads from outside the ledger. *)
Record Env := mkEnv {
  env_now : Z;                      (* time.Now() *)
  env_verdicts : list verdict;      (* the server's answers to the attempts *)
  env_locked : string -> bool;      (* rows SKIP LOCKED passes over, by id *)
  env_random : option (list Z) }.   (* sixteen bytes of crypto/rand *)

Definition timestamp (env : Env) : Z := timestamp_of (env_now env).

(** SHA-256 in hexadecimal and the JSON syntax check, from the Go library. *)
Class Platform := {
  sha256_hex : string -> string;
  sha256_hex_length : forall p, String.length (sha256_hex p) = 64%nat;
  json_Valid : string -> bool;
  json_Valid_empty : json_Valid "" = false
}.

Definition maxPayloadBytes : Z := 1048576.
Definition maxAttemptsLimit : Z := 8.
Definition MaxCommandEvents : Z := 64.
Definition maxEvidenceRunes : Z := 240.
Definition MaxOutputBytes : Z := 262144.

Definition storing : string := "Command input is being stored.".
Definition expired_retry : string := "Agent lease expired; retry scheduled with backoff.".
Definition expired_uncertain : string :=
  "Agent lease expired with an uncertain remote outcome; reconcile the target before retrying.".
Definition fenced_message : string :=
  "Core authority changed before this command reached a confirmed terminal state. Review and retry it explicitly.".
Definition restarted : string :=
  "Core restarted while the command lease was in flight; the agent result must be reconciled before retrying.".
Definition upload_incomplete : string :=
  "Command input upload did not complete. Submit a new command with the source input.".
Definition upload_suffix : string := " No build ran; submit a new command with the source input.".

(** ** Small functions *)

(** 2, 4, 8, 16, 32 seconds: the attempt is capped at five. *)
Definition backoff (attempt : Z) : Z :=
  let attempt := if attempt >? 5 then 5 else attempt in
  second * int64_of (Z.shiftl 1 attempt).

Definition valueOrDefault (value fallback : string) : string :=
  let value := TrimSpace value in if negb (value =? "")%string then value else fallback.

(** Constant-time comparison, reported as a mismatch. *)
Definition subtleStringMismatch (left right : string) : bool := negb (left =? right)%string.

Definition clearCommandFailureDiagnostic (c : Command) : Command := set_failure "" "" "" c.

Definition setCommandFailureDiagnostic (err : option ExecError) (c : Command) : Command :=
  let d := commandFailureDiagnostic (Action c) err in
  set_failure (FailureCode_of d) (Summary_of d) (Recovery_of d) c.

Definition failureNarrative (c : Command) : string :=
  let summary := TrimSpace (FailureSummary c) in
  let summary := if (summary =? "")%string
                 then "SwarmOps could not confirm that the requested change completed."%string
                 else summary in
  if state_eqb (State c) RetryScheduled
  then (summary ++ " Attempt " ++ decimal (Attempt c) ++ " of " ++ decimal (MaxAttempts c)
        ++ " failed; a retry is scheduled with backoff.")%string
  else (summary ++ " Attempt " ++ decimal (Attempt c) ++ " of " ++ decimal (MaxAttempts c)
        ++ " failed and no retry is scheduled; inspect the target before retrying.")%string.

#[global] Arguments failureNarrative : simpl never.

Definition newID (random : option (list Z)) : result qerr string :=
  match random with
  | None => Err ErrRandom
  | Some bs => Ok ("cmd-" ++ EncodeToString bs)%string
  end.

Definition newLeaseID (random : option (list Z)) : result qerr string :=
  match random with
  | None => Err ErrRandom
  | Some bs => Ok ("lease-" ++ EncodeToString bs)%string
  end.

Definition artifactPath (id : string) : string := (id ++ ".input.sealed")%string.
Definition legacyArtifactPath (id : string) : string := (id ++ ".input")%string.
Definition artifactPurpose (id : string) : string := ("command-input:" ++ id)%string.

(** [protectedArtifactFile]: whether the file is there, an error when it is not
    a regular owner-only file. *)
Definition protectedArtifactFile (path : string) (fs : gmap string File) : result qerr bool :=
  match fs !! path with
  | None => Ok false
  | Some f => if owner_only f then Ok true else Err ErrInputFile
  end.

Definition with_commands (f : list commandRow -> list commandRow) (st : Store) : Store :=
  mkStore (f (commands st)) (next_seq st) (command_payloads st) (command_events st)
    (command_outputs st) (inputs st).
Definition with_inputs (f : gmap string File -> gmap string File) (st : Store) : Store :=
  mkStore (commands st) (next_seq st) (command_payloads st) (command_events st)
    (command_outputs st) (f (inputs st)).
Definition with_payloads (f : list (string * Sealed) -> list (string * Sealed)) (st : Store) : Store :=
  mkStore (commands st) (next_seq st) (f (command_payloads st)) (command_events st)
    (command_outputs st) (inputs st).
Definition with_events (f : list CommandEvent -> list CommandEvent) (st : Store) : Store :=
  mkStore (commands st) (next_seq st) (command_payloads st) (f (command_events st))
    (command_outputs st) (inputs st).
Definition with_outputs (f : list (string * Sealed) -> list (string * Sealed)) (st : Store) : Store :=
  mkStore (commands st) (next_seq st) (command_payloads st) (command_events st)
    (f (command_outputs st)) (inputs st).

Definition encryptedArtifactPresent (id : string) (st : Store) : result qerr bool :=
  protectedArtifactFile (artifactPath id) (inputs st).

Definition removeArtifact {E : Type} (id : string) : tx Store E unit :=
  tx_modify (with_inputs (fun fs => delete (legacyArtifactPath id) (delete (artifactPath id) fs))).

Definition ForgetInputs {E : Type} (ids : list string) : tx Store E unit :=
  fold_right (fun id rest => removeArtifact id ;;; rest) (tx_ret tt) ids.

Definition row_id (r : commandRow) : string := ID (command r).
Definition row_state (r : commandRow) : CommandState := State (command r).

Section Ledger.
Context `{Collation} `{Platform} (historyLimit : Z).

Definition digest (payload : string) : string :=
  if (payload =? "")%string then ""%string else sha256_hex payload.

Definition validateInput (input : SubmitInput) (artifact : bool) : result qerr unit :=
  let bad v := (TrimSpace v =? "")%string || has_control v in
  let key := TrimSpace (in_IdempotencyKey input) in
  if bad (in_Action input) || bad (in_Actor input) || bad (in_ServerID input) || bad (in_Target input)
  then Err ErrFieldInvalid
  else if (len (in_Payload input) >? maxPayloadBytes) || negb (json_Valid (in_Payload input))
  then Err ErrPayloadInvalid
  else if (in_MaxAttempts input <? 1) || (in_MaxAttempts input >? maxAttemptsLimit)
  then Err ErrMaxAttempts
  else if (key =? "")%string || (len key >? 128) || has_control key
  then Err ErrKeyInvalid
  else if artifact && (in_MaxArtifactBytes input <? 1)
  then Err ErrArtifactLimit
  else Ok tt.

Definition newRecord (env : Env) (input : SubmitInput) (artifact : bool) : result qerr commandRow :=
  match newID (env_random env) with
  | Err e => Err e
  | Ok id =>
      let now := timestamp env in
      Ok (mkRow 0 artifact
            (mkCommand (TrimSpace (in_Action input)) (TrimSpace (in_Actor input)) 0
               (Z.max (in_AuthorityEpoch input) 1) (in_AutoRetry input)
               (valueOrDefault (in_ClusterID input) "default") now "" "" id None "" None
               (in_MaxAttempts input) None (TrimSpace (in_ServerID input))
               (TrimSpace (in_RequestID input)) "" (TrimSpace (in_ServerID input)) Queued
               (TrimSpace (in_Target input)) now)
            (TrimSpace (in_IdempotencyKey input)) "" (digest (in_Payload input)))
  end.

(** ** Statements on the tables *)

Definition by_id (id : string) (r : commandRow) : bool := ceq (row_id r) id.

Definition seq_key (r : commandRow) : Z * Z := (seq r, 0).
Definition created_key (r : commandRow) : Z * Z := (CreatedAt (command r), seq r).

(** [DELETE FROM commands WHERE id = ?], with [ON DELETE CASCADE]. *)
Definition delete_command (id : string) (st : Store) : Store :=
  mkStore (sql_delete (by_id id) (commands st)) (next_seq st)
    (sql_delete (fun p => ceq (fst p) id) (command_payloads st))
    (sql_delete (fun e => ceq (ev_CommandID e) id) (command_events st))
    (sql_delete (fun p => ceq (fst p) id) (command_outputs st)) (inputs st).

Definition delete_commands (ids : list string) (st : Store) : Store :=
  fold_left (fun st id => delete_command id st) ids st.

Definition lockRow (id : string) : tx Store qerr (option commandRow) :=
  tx_gets (fun st => sql_first (by_id id) (commands st)).

(** The columns [UPDATE commands SET ...] writes; the others keep their value. *)
Definition overwrite (row r : commandRow) : commandRow :=
  let c := command row in let o := command r in
  mkRow (seq r) (artifact row)
    (mkCommand (Action o) (Actor o) (Attempt c) (AuthorityEpoch c) (AutoRetry o) (ClusterID o)
       (CreatedAt o) (FailureCode c) (FailureSummary c) (ID o) (LastAttemptAt c) (LastError c)
       (LeaseExpiresAt c) (MaxAttempts o) (NextAttemptAt c) (NodeID o) (RequestID o)
       (RecoveryHint c) (ServerID o) (State c) (Target o) (UpdatedAt c))
    (idempotencyKey r) (leaseID row) (payloadDigest row).

Definition update_row (row : commandRow) (st : Store) : Store :=
  with_commands (sql_update (by_id (row_id row)) (overwrite row)) st.

Definition updateTx (row : commandRow) : tx Store qerr unit := tx_modify (update_row row).

(** [PRIMARY KEY (id)] and [UNIQUE KEY (actor, idempotency_key)]. *)
Definition same_unique_key (r r' : commandRow) : bool :=
  ceq (row_id r') (row_id r) ||
  (ceq (Actor (command r')) (Actor (command r)) && ceq (idempotencyKey r') (idempotencyKey r)).

(** [ck_commands_attempts] and [ck_commands_epoch]. *)
Definition check_constraints (r : commandRow) : bool :=
  (1 <=? MaxAttempts (command r)) && (MaxAttempts (command r) <=? 8)
  && (1 <=? AuthorityEpoch (command r)).

Definition insertTx (row : commandRow) (payload : string) : tx Store qerr unit :=
  st <- tx_get ;;
  if violates_unique same_unique_key row (commands st) then tx_fail (ErrDB ErrDuplicateEntry)
  else if negb (check_constraints row) then tx_fail (ErrDB ErrCheckViolation)
  else
    tx_modify (fun st => mkStore
      (commands st ++ [mkRow (next_seq st) (artifact row) (command row) (idempotencyKey row)
                         (leaseID row) (payloadDigest row)])
      (next_seq st + 1) (command_payloads st) (command_events st) (command_outputs st) (inputs st)) ;;;
    if (payloadDigest row =? "")%string then tx_ret tt
    else tx_modify (with_payloads (fun t => t ++ [(row_id row, seal (payloadPurpose (row_id row)) payload)])).

Definition payloadTx (id : string) : tx Store qerr (option string) :=
  t <- tx_gets command_payloads ;;
  match sql_first (fun p => ceq (fst p) id) t with
  | None => tx_ret None
  | Some p => match open_sealed (payloadPurpose id) (snd p) with
              | Some payload => tx_ret (Some payload)
              | None => tx_fail ErrOpenSealed
              end
  end.

(** ** Submitting *)

Definition idempotentTx (input : SubmitInput) (is_artifact : bool) : tx Store qerr (option Command) :=
  t <- tx_gets commands ;;
  match sql_first (fun r => ceq (Actor (command r)) (TrimSpace (in_Actor input))
                            && ceq (idempotencyKey r) (TrimSpace (in_IdempotencyKey input))) t with
  | None => tx_ret None
  | Some row =>
      let samePayload := if (payloadDigest row =? "")%string
                         then (in_Payload input =? "")%string
                         else (payloadDigest row =? digest (in_Payload input))%string in
      if negb (Bool.eqb (artifact row) is_artifact)
         || negb (Action (command row) =? TrimSpace (in_Action input))%string
         || negb (ServerID (command row) =? TrimSpace (in_ServerID input))%string
         || negb (Target (command row) =? TrimSpace (in_Target input))%string
         || negb samePayload
      then tx_fail ErrIdempotencyConflict
      else tx_ret (Some (command row))
  end.

Definition supersedable (row : commandRow) : bool :=
  match row_state row with
  | Queued | RetryScheduled => true
  | NeedsAttention => artifact row && (LastError (command row) =? storing)%string
  | _ => false
  end.

Definition supersede_candidate (input : SubmitInput) (r : commandRow) : bool :=
  ceq (Action (command r)) (TrimSpace (in_Action input))
  && ceq (ServerID (command r)) (TrimSpace (in_ServerID input))
  && ceq (Target (command r)) (TrimSpace (in_Target input))
  && oneOfCommandState (row_state r) [Queued; RetryScheduled; NeedsAttention].

Definition superseded_rows (input : SubmitInput) (st : Store) : list commandRow :=
  List.filter supersedable
    (order_by seq_key (sql_where (supersede_candidate input) (commands st))).

Definition supersedeTx (input : SubmitInput) : tx Store qerr (list Command * list string) :=
  rows <- tx_gets (superseded_rows input) ;;
  tx_modify (delete_commands (map row_id rows)) ;;;
  tx_ret (map command rows, map row_id (List.filter artifact rows)).

Definition pruned_ids (st : Store) : list string :=
  let succeeded := sql_where (fun r => state_eqb (row_state r) Succeeded) (commands st) in
  let excess := Z.of_nat (length succeeded) - historyLimit in
  if excess <=? 0 then [] else map row_id (take (Z.to_nat excess) (order_by seq_key succeeded)).

Definition pruneTx : tx Store qerr (list string) :=
  ids <- tx_gets pruned_ids ;;
  tx_modify (delete_commands ids) ;;;
  tx_ret ids.

Definition submitTx (env : Env) (input : SubmitInput) : tx Store qerr (Submission * list string) :=
  found <- idempotentTx input false ;;
  match found with
  | Some c => tx_ret (mkSubmission c false [], [])
  | None =>
      record <- tx_lift (newRecord env input false) ;;
      sup <- supersedeTx input ;;
      insertTx record (in_Payload input) ;;;
      pruned <- pruneTx ;;
      tx_ret (mkSubmission (command record) true (fst sup), snd sup ++ pruned)
  end.

(** The input files are removed once the transaction has committed. *)
Definition finish (p : Submission * list string) : tx Store qerr Submission :=
  ForgetInputs (snd p) ;;; tx_ret (fst p).

(** [submit]: a second transaction when the first lost the race for its key. *)
Definition submit (env retry_env : Env) (input : SubmitInput) : tx Store qerr Submission :=
  fun st =>
  match WithTx (env_verdicts env) (submitTx env input) st with
  | (Ok p, st') => finish p st'
  | (Err e, st') =>
      if IsDuplicate e
      then match WithTx (env_verdicts retry_env) (submitTx retry_env input) st' with
           | (Ok p, st'') => finish p st''
           | (Err e', st'') => (Err (storeError e'), st'')
           end
      else (Err (storeError e), st')
  end.

Definition SubmitWithResult (env retry_env : Env) (input : SubmitInput) : tx Store qerr Submission :=
  tx_lift (validateInput input false) ;;; submit env retry_env input.

(** [SubmitInTx]: inside a transaction the caller owns. *)
Definition SubmitInTx (env : Env) (input : SubmitInput) : tx Store qerr (Submission * list string) :=
  tx_lift (validateInput input false) ;;; submitTx env input.

(** [SubmitArtifactWithResult] is two transactions around the upload; the
    first returns the new row, or the command the key already belongs to. *)
Definition submitArtifact_begin (env : Env) (input : SubmitInput)
    : tx Store qerr (Submission * option commandRow) :=
  out <- map_error storeError (WithTx (env_verdicts env)
    (found <- idempotentTx input true ;;
     match found with
     | Some c => tx_ret (mkSubmission c false [], None, [])
     | None =>
         record <- tx_lift (newRecord env input true) ;;
         let record := with_command (fun c => set_last_error storing (set_state NeedsAttention c)) record in
         sup <- supersedeTx input ;;
         insertTx record (in_Payload input) ;;;
         tx_ret (mkSubmission (command record) true (fst sup), Some record, snd sup)
     end)) ;;
  let '(sub, record, artifacts) := out in
  ForgetInputs artifacts ;;; tx_ret (sub, record).

(** [writeArtifact]: the sealer leaves either the complete file or none. *)
Definition writeArtifact (id : string) (limit : Z) (body : result ExecError string)
    : tx Store qerr (option ExecError) :=
  if negb (commandIDPattern id) || (limit <? 1)
  then tx_ret (errors_New "invalid command input")
  else match body with
       | Err e => tx_ret (Some e)
       | Ok data =>
           if len data >? limit
           then tx_ret (errors_New ("encrypted state source exceeds the " ++ decimal limit ++ " byte limit")%string)
           else tx_modify (with_inputs (insert (artifactPath id)
                  (mkFile true (seal (artifactPurpose id) data)))) ;;; tx_ret None
       end.

Definition upload_failed (now : Z) (limit : Z) (err : ExecError) (c : Command) : Command :=
  let d := uploadFailureDiagnostic (Some err) limit in
  set_last_error (Summary_of d ++ upload_suffix)%string
    (set_failure (FailureCode_of d) (Summary_of d) (Recovery_of d)
       (set_state NeedsAttention (set_updated now c))).

Definition upload_stored (now : Z) (c : Command) : Command :=
  set_last_error "" (set_state Queued (set_updated now c)).

Definition submitArtifact_finish (env : Env) (id : string) (limit : Z) (writeErr : option ExecError)
    : tx Store qerr Command :=
  out <- map_error storeError (WithTx (env_verdicts env)
    (found <- lockRow id ;;
     match found with
     | None => tx_ret None
     | Some row =>
         let row := with_command (match writeErr with
                                  | Some e => upload_failed (timestamp env) limit e
                                  | None => upload_stored (timestamp env)
                                  end) row in
         updateTx row ;;; tx_ret (Some (command row))
     end)) ;;
  match out, writeErr with
  | None, _ => removeArtifact id ;;; tx_fail ErrInputSuperseded
  | Some _, Some _ => removeArtifact id ;;; tx_fail ErrStoreInput
  | Some c, None => tx_ret c
  end.

Definition SubmitArtifactWithResult (env env' : Env) (input : SubmitInput)
    (body : option (result ExecError string)) : tx Store qerr Submission :=
  tx_lift (validateInput input true) ;;;
  match body with
  | None => tx_fail ErrArtifactRequired
  | Some body =>
      out <- submitArtifact_begin env input ;;
      let '(sub, record) := out in
      match record with
      | None => tx_ret sub
      | Some record =>
          writeErr <- writeArtifact (row_id record) (in_MaxArtifactBytes input) body ;;
          c <- submitArtifact_finish env' (row_id record) (in_MaxArtifactBytes input) writeErr ;;
          tx_ret (mkSubmission c true (sub_Superseded sub))
      end
  end.

(** ** Scheduling *)

Definition runnable (now : Z) (r : commandRow) : bool :=
  oneOfCommandState (row_state r) [Queued; RetryScheduled]
  && match NextAttemptAt (command r) with None => true | Some t => t <=? now end.

(** [ORDER BY created_at, seq LIMIT 1 FOR UPDATE SKIP LOCKED]. *)
Definition oldest (env : Env) (p : commandRow -> bool) (st : Store) : option commandRow :=
  head (order_by created_key
    (sql_where (fun r => p r && negb (env_locked env (row_id r))) (commands st))).

Definition claim_row (now : Z) (r : commandRow) : commandRow :=
  with_command (fun c => set_updated now (set_state Running (set_next_attempt None
    (set_last_attempt (Some now) (set_attempt (uint64_of (Attempt c + 1)) c))))) r.

Definition delete_events (id : string) : tx Store qerr unit :=
  tx_modify (with_events (sql_delete (fun e => ceq (ev_CommandID e) id))).

Definition ClaimDue (env : Env) : tx Store qerr (option Record_) :=
  map_error storeError (WithTx (env_verdicts env)
    (busy <- tx_gets (fun st => sql_exists (fun r => state_eqb (row_state r) Running) (commands st)) ;;
     if busy : bool then tx_ret None
     else
       let now := timestamp env in
       found <- tx_gets (oldest env (runnable now)) ;;
       match found with
       | None => tx_ret None
       | Some row =>
           let row := claim_row now row in
           delete_events (row_id row) ;;;
           updateTx row ;;;
           payload <- payloadTx (row_id row) ;;
           tx_ret (Some (mkRecord (artifact row) (command row) payload))
       end)).

Definition expire_row (now : Z) (r : commandRow) : commandRow :=
  let r := with_lease "" (with_command (fun c => set_updated now (set_lease_expires None c)) r) in
  let c := command r in
  if AutoRetry c && (Attempt c <? MaxAttempts c)
  then with_command (fun c => set_last_error expired_retry
         (set_state RetryScheduled (set_next_attempt (Some (now + backoff (Attempt c))) c))) r
  else with_command (fun c => set_last_error expired_uncertain
         (set_state NeedsAttention (set_next_attempt None c))) r.

Definition in_flight (s : CommandState) : bool := oneOfCommandState s [Leased; Preparing; Running].

Definition lease_lapsed (env : Env) (now : Z) (r : commandRow) : bool :=
  in_flight (row_state r)
  && match LeaseExpiresAt (command r) with None => false | Some t => t <=? now end
  && negb (env_locked env (row_id r)).

Definition expireLeases (env : Env) (now : Z) : tx Store qerr unit :=
  WithTx (env_verdicts env)
    (expired <- tx_gets (fun st => sql_where (lease_lapsed env now) (commands st)) ;;
     tx_modify (fun st => fold_left (fun st r => update_row (expire_row now r) st) expired st)).

Definition lease_row (now : Z) (epoch ttl : Z) (lease : string) (r : commandRow) : commandRow :=
  with_lease lease
    (with_command (fun c => set_updated now (set_state Leased (set_next_attempt None
       (set_lease_expires (Some (now + ttl)) (set_last_attempt (Some now)
         (set_epoch epoch (set_attempt (uint64_of (Attempt c + 1)) c))))))) r).

Definition lease_duration_ok (ttl : Z) : bool := negb ((ttl <? 5 * second) || (ttl >? 5 * minute)).

Definition LeaseDue (env_expire env : Env) (serverID : string) (authorityEpoch ttl : Z)
    : tx Store qerr (option Lease) :=
  let serverID := TrimSpace serverID in
  tx_guard (negb ((serverID =? "")%string || (authorityEpoch =? 0))) ErrLeaseIdentity ;;;
  tx_guard (lease_duration_ok ttl) ErrLeaseDuration ;;;
  expireLeases env_expire (timestamp env_expire) ;;;
  lease_id <- tx_lift (newLeaseID (env_random env)) ;;
  map_error storeError (WithTx (env_verdicts env)
    (busy <- tx_gets (fun st => sql_exists
        (fun r => ceq (ServerID (command r)) serverID && in_flight (row_state r)) (commands st)) ;;
     if busy : bool then tx_ret None
     else
       let now := timestamp env in
       found <- tx_gets (oldest env
           (fun r => ceq (ServerID (command r)) serverID && runnable now r)) ;;
       match found with
       | None => tx_ret None
       | Some row =>
           let row := lease_row now authorityEpoch ttl lease_id row in
           delete_events (row_id row) ;;;
           updateTx row ;;;
           payload <- payloadTx (row_id row) ;;
           tx_ret (Some (mkLease lease_id (mkRecord (artifact row) (command row) payload)))
       end)).

(** ** Transitions of one command *)

(** [transitionTx]: one locked row inside a transaction. *)
Definition transitionTx {A : Type} (env : Env) (id : string) (fn : commandRow -> tx Store qerr A)
    : tx Store qerr A :=
  if negb (commandIDPattern (TrimSpace id)) then tx_fail ErrCommandNotFound
  else map_error storeError (WithTx (env_verdicts env)
    (found <- lockRow id ;;
     match found with
     | None => tx_fail ErrCommandNotFound
     | Some row => fn row
     end)).

(** [transition]: writes what [fn] leaves, when it changed anything. *)
Definition transition (env : Env) (id : string) (fn : commandRow -> Store -> result qerr commandRow)
    : tx Store qerr Command :=
  transitionTx env id (fun before =>
    st <- tx_get ;;
    row <- tx_lift (fn before st) ;;
    (if bool_decide (row = before) then tx_ret tt else updateTx row) ;;;
    tx_ret (command row)).

Definition retry_row (now epoch : Z) (r : commandRow) : commandRow :=
  with_command (fun c => set_updated now (set_state Queued (set_next_attempt (Some now)
    (set_last_attempt None (clearCommandFailureDiagnostic (set_last_error ""
      (set_epoch epoch (set_attempt 0 c)))))))) r.

Definition RetryNow (env : Env) (id : string) (authorityEpoch : Z) : tx Store qerr Command :=
  transition env id (fun row st =>
    if negb (state_eqb (row_state row) NeedsAttention) then Err ErrNotReadyForRetry
    else if (authorityEpoch =? 0) || (authorityEpoch <? AuthorityEpoch (command row))
    then Err ErrStaleRetryEpoch
    else
      let ok := Ok (retry_row (timestamp env) authorityEpoch row) in
      if artifact row
      then match protectedArtifactFile (artifactPath (row_id row)) (inputs st) with
           | Err e => Err e
           | Ok stored => if stored then ok else Err ErrInputNeverStored
           end
      else ok).

Definition lease_valid (lease : string) (row : commandRow) : bool :=
  negb ((leaseID row =? "")%string || subtleStringMismatch (leaseID row) lease).

Definition AdvanceLease (env : Env) (id lease : string) (state : CommandState) : tx Store qerr Command :=
  tx_guard (oneOfCommandState state [Preparing; Running]) ErrInvalidLeasedState ;;;
  transition env id (fun row _ =>
    if negb (lease_valid lease row) then Err ErrLeaseInvalid
    else if state_eqb state Preparing && negb (state_eqb (row_state row) Leased) then Err ErrNotLeased
    else if state_eqb state Running && negb (oneOfCommandState (row_state row) [Leased; Preparing])
    then Err ErrNotPreparing
    else Ok (with_command (fun c => set_updated (timestamp env) (set_state state c)) row)).

Definition lease_check (lease : string) (row : commandRow) : result qerr unit :=
  if negb (lease_valid lease row) || negb (in_flight (row_state row)) then Err ErrLeaseInvalid
  else Ok tt.

Definition running_check (row : commandRow) : result qerr unit :=
  if negb (state_eqb (row_state row) Running) then Err ErrNotRunning else Ok tt.

Definition RenewLease (env : Env) (id lease : string) (ttl : Z) : tx Store qerr Command :=
  tx_guard (lease_duration_ok ttl) ErrLeaseDuration ;;;
  transition env id (fun row _ =>
    match lease_check lease row with
    | Err e => Err e
    | Ok _ => Ok (with_command (set_lease_expires (Some (timestamp env + ttl))) row)
    end).

Definition succeed_row (now : Z) (row : commandRow) : commandRow :=
  without_input (with_lease "" (with_command (fun c => set_updated now (set_state Succeeded
    (set_next_attempt None (set_lease_expires None (clearCommandFailureDiagnostic
      (set_last_error "" c)))))) row)).

Definition delete_payload (id : string) : tx Store qerr unit :=
  tx_modify (with_payloads (sql_delete (fun p => ceq (fst p) id))).

Definition succeed (env : Env) (id : string) (check : commandRow -> result qerr unit)
    : tx Store qerr Command :=
  out <- transitionTx env id (fun row =>
    tx_lift (check row) ;;;
    let row' := succeed_row (timestamp env) row in
    delete_payload (row_id row') ;;;
    updateTx row' ;;;
    pruned <- pruneTx ;;
    tx_ret (command row', artifact row, pruned)) ;;
  let '(c, had_artifact, pruned) := out in
  (if had_artifact : bool then removeArtifact id else tx_ret tt) ;;;
  ForgetInputs pruned ;;;
  tx_ret c.

Definition Complete (env : Env) (id : string) : tx Store qerr Command := succeed env id running_check.

Definition CompleteLease (env : Env) (id lease : string) : tx Store qerr Command :=
  succeed env id (lease_check lease).

Inductive FailEvent := EventNeedsAttention | EventRetryScheduled.

Definition fail_row (now : Z) (err : option ExecError) (row : commandRow) : commandRow * FailEvent :=
  let c := command row in
  let '(c, event) :=
    if AutoRetry c && negb (isPermanent err) && (Attempt c <? MaxAttempts c)
    then (set_state RetryScheduled (set_next_attempt (Some (now + backoff (Attempt c))) c),
          EventRetryScheduled)
    else (set_state NeedsAttention (set_next_attempt None c), EventNeedsAttention) in
  let c := setCommandFailureDiagnostic err c in
  let c := set_last_error (failureNarrative c) c in
  let c := set_updated now (set_lease_expires None c) in
  (with_lease "" (with_command (fun _ => c) row), event).

Definition fail (env : Env) (id : string) (err : option ExecError) (prune : bool)
    (check : commandRow -> result qerr unit) : tx Store qerr (Command * FailEvent) :=
  out <- transitionTx env id (fun row =>
    tx_lift (check row) ;;;
    let '(row', event) := fail_row (timestamp env) err row in
    updateTx row' ;;;
    pruned <- (if prune then pruneTx else tx_ret []) ;;
    tx_ret (command row', event, pruned)) ;;
  let '(c, event, pruned) := out in
  ForgetInputs pruned ;;;
  tx_ret (c, event).

Definition Fail_ (env : Env) (id : string) (err : option ExecError) : tx Store qerr (Command * FailEvent) :=
  fail env id err true running_check.

Definition FailLease (env : Env) (id lease : string) (err : option ExecError)
    : tx Store qerr (Command * FailEvent) :=
  fail env id err false (lease_check lease).

(** ** Authority and recovery *)

Definition fence_row (now : Z) (r : commandRow) : commandRow :=
  with_command (fun c => set_updated now (set_next_attempt None (set_lease_expires None
    (set_last_error fenced_message
      (set_state NeedsAttention c))))) r.

Definition fenced_by (newEpoch : Z) (r : commandRow) : bool :=
  (AuthorityEpoch (command r) <? newEpoch) && negb (terminalCommandState (row_state r)).

(** One statement, outside any transaction of its own: it applies or fails. *)
Definition FenceAuthority (env : Env) (newEpoch : Z) : tx Store qerr unit :=
  if newEpoch =? 0 then tx_fail ErrEpochRequired
  else runTx (List.hd commits (env_verdicts env))
    (tx_modify (with_commands (sql_update (fenced_by newEpoch) (fence_row (timestamp env))))).

Definition recover_row (now : Z) (r : commandRow) : commandRow :=
  with_lease "" (with_command (fun c => set_updated now (set_next_attempt None
    (set_lease_expires None (setCommandFailureDiagnostic (errors_New restarted)
      (set_last_error restarted (set_state NeedsAttention c)))))) r).

Definition recover_upload (now : Z) (st : Store) (r : commandRow) : commandRow :=
  match encryptedArtifactPresent (row_id r) st with
  | Ok true => with_command (fun c => set_updated now (set_last_error "" (set_state Queued c))) r
  | _ => with_command (fun c => set_updated now (set_last_error upload_incomplete c)) r
  end.

Definition interrupted_upload (r : commandRow) : bool :=
  state_eqb (row_state r) NeedsAttention && artifact r
  && negb (LastError (command r) =? "")%string && ceq (LastError (command r)) storing.

Definition Recover (env : Env) : tx Store qerr unit :=
  let now := timestamp env in
  WithTx (env_verdicts env)
    (inFlight <- tx_gets (fun st => sql_where (fun r => in_flight (row_state r)) (commands st)) ;;
     tx_modify (fun st => fold_left (fun st r => update_row (recover_row now r) st) inFlight st) ;;;
     uploads <- tx_gets (fun st => sql_where interrupted_upload (commands st)) ;;
     tx_modify (fun st => fold_left (fun st r => update_row (recover_upload now st r) st) uploads st)).

(** ** Reading, progress and logs *)

Definition Get (id : string) : tx Store qerr Command :=
  if negb (commandIDPattern (TrimSpace id)) then tx_fail ErrCommandNotFound
  else found <- lockRow id ;;
       match found with
       | None => tx_fail ErrCommandNotFound
       | Some row => tx_ret (command row)
       end.

Definition Artifact (id : string) : tx Store qerr string :=
  fun st => match Get id st with
  | (Err _, _) => (Err ErrInputUnavailable, st)
  | (Ok c, _) =>
      match sql_first (by_id (ID c)) (commands st) with
      | None => (Err ErrInputUnavailable, st)
      | Some row =>
          if negb (artifact row) then (Err ErrInputUnavailable, st)
          else match encryptedArtifactPresent id st with
               | Err e => (Err e, st)
               | Ok false => (Err ErrInputUnavailable, st)
               | Ok true =>
                   match inputs st !! artifactPath id with
                   | None => (Err ErrInputUnavailable, st)
                   | Some f => match open_sealed (artifactPurpose id) (contents f) with
                               | Some data => (Ok data, st)
                               | None => (Err ErrOpenSealed, st)
                               end
                   end
               end
      end
  end.

Definition bounded_evidence (evidence : string) : string :=
  let evidence := TrimSpace evidence in
  let rs := runes evidence in
  if Z.of_nat (length rs) >? maxEvidenceRunes
  then (string_of_runes (take (Z.to_nat maxEvidenceRunes) rs) ++ "…")%string
  else evidence.

Definition AppendEvent (env : Env) (id : string) (state : CommandState) (evidence : string)
    : tx Store qerr unit :=
  let evidence := bounded_evidence evidence in
  transitionTx env id (fun row =>
    count <- tx_gets (fun st => sql_count (fun e => ceq (ev_CommandID e) (row_id row)) (command_events st)) ;;
    if count >=? MaxCommandEvents then tx_ret tt
    else tx_modify (with_events (fun t => t ++ [mkEvent (row_id row) (count + 1) state evidence (timestamp env)]))).

Definition Events (id : string) : tx Store qerr (list CommandEvent) :=
  Get id ;;;
  tx_gets (fun st => order_by (fun e => (ev_Sequence e, 0))
                       (sql_where (fun e => ceq (ev_CommandID e) id) (command_events st))).

(** The head and the tail of an over-long log, with a mark between them. *)
Definition bounded_log (log : string) : string :=
  if len log >? MaxOutputBytes
  then let head := MaxOutputBytes / 4 in
       let tail := MaxOutputBytes - head in
       (String.substring 0 (Z.to_nat head) log ++ String (chr 10) "… (truncated) …" ++ String (chr 10) ""
        ++ String.substring (Z.to_nat (len log - tail)) (Z.to_nat tail) log)%string
  else log.

Definition RetainOutput (env : Env) (id log : string) : tx Store qerr unit :=
  if (TrimSpace log =? "")%string then tx_ret tt
  else if negb (commandIDPattern (TrimSpace id)) then tx_fail ErrCommandNotFound
  else
    let sealed := seal (outputPurpose id) (bounded_log log) in
    transitionTx env id (fun row =>
      tx_modify (with_outputs (fun t =>
        if sql_exists (fun p => ceq (fst p) (row_id row)) t
        then sql_update (fun p => ceq (fst p) (row_id row)) (fun p => (fst p, sealed)) t
        else t ++ [(row_id row, sealed)]))).

Definition Output (id : string) : tx Store qerr string :=
  if negb (commandIDPattern (TrimSpace id)) then tx_fail ErrOutputUnavailable
  else t <- tx_gets command_outputs ;;
       match sql_first (fun p => ceq (fst p) id) t with
       | None => tx_fail ErrOutputUnavailable
       | Some p => match open_sealed (outputPurpose id) (snd p) with
                   | Some log => tx_ret log
                   | None => tx_fail ErrOpenSealed
                   end
       end.

End Ledger.
