(* ===== verification/LedgerRows.v ===== *)
(** * How the rows of the ledger change

    Lemmas on the statements of Ledger.v, and [evolves], the relation between
    two ledgers every operation is shown to stay in: each row of the new ledger
    is a row of the old one moved along [R] or a new row of the kind [N], and
    each row of the old one is still there, moved along [R], unless it is of
    the kind [D] that may be removed. *)

From Stdlib Require Import ZArith Lia Bool Ascii String Sorting.
From stdpp Require Import base tactics list strings gmap relations.
From S2P Require Import Prelude GoStrings Sqlstore Diagnostics Ledger.

Local Open Scope string_scope.
Local Open Scope list_scope.
Local Open Scope bool_scope.
Local Open Scope Z_scope.

Section Rows.
Context `{Collation}.

(** No two rows agree on their primary key. *)
Definition unique_ids (t : list commandRow) : Prop :=
  ForallOrdPairs (fun a b => ceq a b = false) (map row_id t).

Lemma unique_ids_ForallOrdPairs t :
  unique_ids t -> ForallOrdPairs (fun a b => ceq (row_id a) (row_id b) = false) t.
Proof.
  unfold unique_ids. induction t as [|r t IH]; intros Hu; [constructor|].
  simpl in Hu. inversion Hu as [|? ? Hall Hrest]; subst.
  constructor; [|by apply IH]. by rewrite Forall_map in Hall.
Qed.

Lemma unique_eq t r1 r2 :
  unique_ids t -> In r1 t -> In r2 t -> ceq (row_id r1) (row_id r2) = true -> r1 = r2.
Proof.
  intros Hu%unique_ids_ForallOrdPairs H1 H2 Heq.
  destruct (ForallOrdPairs_In Hu r1 r2 H1 H2) as [->|[E|E]]; [done| |].
  - by rewrite E in Heq.
  - by rewrite ceq_sym_eq, E in Heq.
Qed.

Lemma unique_map t t' : map row_id t' = map row_id t -> unique_ids t -> unique_ids t'.
Proof. unfold unique_ids. by intros ->. Qed.

Lemma unique_filter p t : unique_ids t -> unique_ids (List.filter p t).
Proof.
  unfold unique_ids. induction t as [|r t IH]; simpl; intros Hu; [done|].
  inversion Hu as [|? ? Hall Hrest]; subst. destruct (p r); simpl; [|by apply IH].
  constructor; [|by apply IH].
  rewrite Forall_forall in Hall |- *. intros x Hx. apply Hall.
  rewrite list_elem_of_In, in_map_iff in *. destruct Hx as (y & <- & Hy).
  apply filter_In in Hy as [Hy _]. by exists y.
Qed.

Lemma unique_snoc t r :
  unique_ids t -> (forall x, In x t -> ceq (row_id x) (row_id r) = false) ->
  unique_ids (t ++ [r]).
Proof.
  unfold unique_ids. rewrite map_app. simpl.
  induction t as [|y t IH]; simpl; intros Hu Hx; [repeat constructor|].
  inversion Hu as [|? ? Hall Hrest]; subst. constructor.
  - rewrite Forall_app. split; [done|]. constructor; [|done]. apply Hx. by left.
  - apply IH; [done|]. intros x Hin. apply Hx. by right.
Qed.

Lemma unique_NoDup t : unique_ids t -> NoDup t.
Proof.
  intros Hu%unique_ids_ForallOrdPairs. induction Hu as [|r t Hall Hrest IH]; constructor; [|done].
  intros Hin. rewrite Forall_forall in Hall. specialize (Hall _ Hin). by rewrite ceq_refl in Hall.
Qed.

(** A row changed only in columns [UPDATE] writes. *)
Definition mutable_only (r row : commandRow) : Prop := overwrite row r = row.

Lemma mutable_only_id r row : mutable_only r row -> row_id row = row_id r.
Proof. unfold mutable_only. intros <-. done. Qed.

Lemma update_row_ids row st :
  map row_id (commands (update_row row st)) = map row_id (commands st).
Proof. unfold update_row, with_commands. simpl. by apply sql_update_map. Qed.

(** An update of a row of the table replaces that row and no other. *)
Lemma update_row_In st r row r' :
  unique_ids (commands st) -> In r (commands st) -> mutable_only r row ->
  In r' (commands (update_row row st)) <-> r' = row \/ (In r' (commands st) /\ r' <> r).
Proof.
  intros Hu Hr Hm. pose proof (mutable_only_id _ _ Hm) as Hid.
  unfold update_row, with_commands. simpl. rewrite sql_update_In. unfold by_id. rewrite Hid. split.
  - intros (r0 & Hr0 & ->). destruct (ceq (row_id r0) (row_id r)) eqn:E.
    + left. by rewrite (unique_eq _ r0 r Hu).
    + right. split; [done|]. intros ->. by rewrite ceq_refl in E.
  - intros [->|[Hin Hne]].
    + exists r. by rewrite ceq_refl.
    + exists r'. split; [done|]. destruct (ceq (row_id r') (row_id r)) eqn:E; [|done].
      destruct Hne. by eapply unique_eq.
Qed.

Lemma update_row_unique row st : unique_ids (commands st) -> unique_ids (commands (update_row row st)).
Proof. apply unique_map, update_row_ids. Qed.

Lemma delete_command_In id st r :
  In r (commands (delete_command id st)) <-> In r (commands st) /\ by_id id r = false.
Proof. unfold delete_command. simpl. apply sql_delete_In. Qed.

Lemma delete_commands_In ids st r :
  In r (commands (delete_commands ids st)) <->
  In r (commands st) /\ forall id, In id ids -> by_id id r = false.
Proof.
  unfold delete_commands. revert st. induction ids as [|id ids IH]; intros st; simpl.
  - split; [done|by intros [? _]].
  - rewrite IH, delete_command_In. split.
    + intros [[Hin Hid] Hids]. split; [done|]. intros x [<-|Hx]; auto.
    + intros [Hin Hids]. split; [split|]; auto.
Qed.

Lemma delete_commands_unique ids st :
  unique_ids (commands st) -> unique_ids (commands (delete_commands ids st)).
Proof.
  unfold delete_commands. revert st. induction ids as [|id ids IH]; intros st Hu; simpl; [done|].
  apply IH. unfold delete_command. simpl. by apply unique_filter.
Qed.

Lemma delete_commands_inputs ids st : inputs (delete_commands ids st) = inputs st.
Proof.
  unfold delete_commands. revert st.
  induction ids as [|id ids IH]; intros st; simpl; [done|]. by rewrite IH.
Qed.

(** Rows named by their own ids are exactly the rows a deletion removes. *)
Lemma deleted_row st rows r :
  unique_ids (commands st) -> (forall x, In x rows -> In x (commands st)) -> In r (commands st) ->
  ~ In r (commands (delete_commands (map row_id rows) st)) -> In r rows.
Proof.
  intros Hu Hsub Hr Hn. rewrite delete_commands_In in Hn.
  destruct (existsb (fun x => by_id (row_id x) r) rows) eqn:E.
  - apply existsb_exists in E as (x & Hx & Heq). unfold by_id in Heq.
    by rewrite (unique_eq _ r x Hu Hr (Hsub x Hx) Heq).
  - destruct Hn. split; [done|]. intros id (x & <- & Hx)%in_map_iff.
    destruct (by_id (row_id x) r) eqn:B; [|done].
    assert (existsb (fun x => by_id (row_id x) r) rows = true) as HT by (apply existsb_exists; eauto).
    congruence.
Qed.

(** ** [evolves] *)

Record evolves (R : relation commandRow) (N D : commandRow -> Prop) (st st' : Store) : Prop := {
  ev_unique : unique_ids (commands st) -> unique_ids (commands st');
  ev_back : forall r', In r' (commands st') ->
            exists r, (In r (commands st) \/ N r) /\ rtc R r r';
  ev_forth : forall r, In r (commands st) ->
             exists r', rtc R r r' /\ (In r' (commands st') \/ D r') }.

Lemma evolves_same R N D st st' : commands st' = commands st -> evolves R N D st st'.
Proof.
  intros E. split; rewrite E; [done| |].
  - intros r' Hr. exists r'. split; [by left|done].
  - intros r Hr. exists r. split; [done|by left].
Qed.

Lemma evolves_refl R N D st : evolves R N D st st.
Proof. by apply evolves_same. Qed.

Lemma evolves_trans R N D st1 st2 st3 :
  evolves R N D st1 st2 -> evolves R N D st2 st3 -> evolves R N D st1 st3.
Proof.
  intros [u1 b1 f1] [u2 b2 f2]. split; [auto| |].
  - intros r3 (r2 & [Hin|Hn] & Hs)%b2; [|by exists r2; split; [by right|]].
    apply b1 in Hin as (r1 & Hin & Hs'). exists r1. split; [done|by etrans].
  - intros r1 (r2 & Hs & [Hin|Hd])%f1; [|by exists r2; split; [done|by right]].
    apply f2 in Hin as (r3 & Hs' & Hin). exists r3. split; [by etrans|done].
Qed.

Lemma evolves_mono (R R' : relation commandRow) (N N' D D' : commandRow -> Prop) st st' :
  (forall a b, R a b -> R' a b) -> (forall a, N a -> N' a) -> (forall a, D a -> D' a) ->
  evolves R N D st st' -> evolves R' N' D' st st'.
Proof.
  intros HR HN HD [u b f].
  assert (forall x y, rtc R x y -> rtc R' x y) as Hm
    by (intros x y Hxy; induction Hxy; [done|econstructor; eauto]).
  split; [done| |].
  - intros r' (r & [Hin|Hn] & Hs)%b; exists r; eauto.
  - intros r (r' & Hs & [Hin|Hd])%f; exists r'; eauto.
Qed.

Lemma evolves_update (R : relation commandRow) N D st r row :
  unique_ids (commands st) -> In r (commands st) -> mutable_only r row -> R r row ->
  evolves R N D st (update_row row st).
Proof.
  intros Hu Hr Hm HR. split; [apply update_row_unique| |].
  - intros r' Hin. rewrite (update_row_In st r) in Hin by done. destruct Hin as [->|[Hin _]].
    + exists r. split; [by left|]. by apply rtc_once.
    + exists r'. split; [by left|done].
  - intros r0 Hin. destruct (decide (r0 = r)) as [->|Hne].
    + exists row. split; [by apply rtc_once|]. left. apply (update_row_In st r); auto.
    + exists r0. split; [done|]. left. apply (update_row_In st r); auto.
Qed.

Lemma evolves_updates (R : relation commandRow) N D (f : Store -> commandRow -> commandRow) rows st :
  unique_ids (commands st) -> NoDup rows -> (forall r, In r rows -> In r (commands st)) ->
  (forall st r, In r rows -> mutable_only r (f st r) /\ R r (f st r)) ->
  evolves R N D st (fold_left (fun st r => update_row (f st r) st) rows st).
Proof.
  revert st. induction rows as [|r rows IH]; intros st Hu Hnd Hin Hf; simpl; [apply evolves_refl|].
  destruct (Hf st r (or_introl eq_refl)) as [Hm HR].
  assert (In r (commands st)) as Hr by (apply Hin; by left).
  inversion Hnd as [|? ? Hnotin Hnd']; subst.
  eapply evolves_trans; [by eapply evolves_update|].
  apply IH; [by apply update_row_unique|done| |].
  - intros x Hx. apply (update_row_In st r); [done..|]. right.
    split; [apply Hin; by right|]. intros ->. by rewrite list_elem_of_In in Hnotin.
  - intros s x Hx. apply Hf. by right.
Qed.

Lemma evolves_delete R N (D : commandRow -> Prop) rows st :
  unique_ids (commands st) -> (forall r, In r rows -> In r (commands st) /\ D r) ->
  evolves R N D st (delete_commands (map row_id rows) st).
Proof.
  intros Hu Hrows. split; [apply delete_commands_unique| |].
  - intros r' Hin. apply delete_commands_In in Hin as [Hin _]. exists r'. split; [by left|done].
  - intros r Hr. exists r. split; [done|].
    destruct (in_dec (fun a b => decide (a = b)) r (commands (delete_commands (map row_id rows) st)))
      as [Hin|Hn]; [by left|right].
    eapply Hrows, deleted_row; [done| |done|done]. intros x Hx. by apply Hrows.
Qed.

Lemma evolves_append R (N : commandRow -> Prop) D st st' r :
  commands st' = commands st ++ [r] ->
  (forall x, In x (commands st) -> ceq (row_id x) (row_id r) = false) -> N r ->
  evolves R N D st st'.
Proof.
  intros E Hx Hn. split; rewrite E.
  - intros Hu. by apply unique_snoc.
  - intros r' [Hin|[<-|[]]]%in_app_or; [exists r'|exists r]; (split; [auto|apply rtc_refl]).
  - intros r0 Hin. exists r0. split; [done|]. left. apply in_or_app. by left.
Qed.

(** A property of single rows that new rows have and that moves along [R] keep
    holds of the whole new ledger when it holds of the old one. *)
Lemma evolves_forall (P : commandRow -> Prop) R N D st st' :
  evolves R N D st st' -> (forall r, N r -> P r) -> (forall r r', R r r' -> P r -> P r') ->
  (forall r, In r (commands st) -> P r) -> forall r', In r' (commands st') -> P r'.
Proof.
  intros [_ b _] HN HR HP r' (r & Hr & Hs)%b.
  assert (P r) as HPr by (destruct Hr; auto).
  clear Hr b. induction Hs; eauto.
Qed.

End Rows.

Create HintDb ledger.
#[export] Hint Resolve evolves_refl : ledger.
