(* ===== verification/LedgerOps.v ===== *)
(** * What each operation of the ledger does to its rows

    [settles] and [starts] are the moves of one row the operations of Ledger.v
    make, each with the guard the code checks first.  For every operation a
    lemma says that, whatever its outcome, the ledger [evolves] along those
    moves: this is the refinement of the transactional code to a state machine
    per command that the invariants of LedgerSteps.v are proved on. *)

From Stdlib Require Import ZArith Lia Bool Ascii String Sorting.
From stdpp Require Import base tactics list strings gmap relations.
From S2P Require Import Prelude GoStrings Sqlstore Diagnostics Ledger LedgerRows.

Local Open Scope string_scope.
Local Open Scope list_scope.
Local Open Scope bool_scope.
Local Open Scope Z_scope.

(** ** Inversion lemmas for the wrappers *)

Lemma map_error_ok {S A} f (m : tx S qerr A) s a s' :
  map_error f m s = (Ok a, s') -> m s = (Ok a, s').
Proof. unfold map_error. destruct (m s) as [[x|x] s1]; [done|discriminate]. Qed.

Lemma map_error_err {S A} f (m : tx S qerr A) s e s' :
  map_error f m s = (Err e, s') -> exists e', m s = (Err e', s') /\ e = f e'.
Proof.
  unfold map_error. destruct (m s) as [[x|x] s1]; [discriminate|].
  intros [= <- <-]. by exists x.
Qed.

Definition forget (ids : list string) (fs : gmap string File) : gmap string File :=
  fold_left (fun fs id => delete (legacyArtifactPath id) (delete (artifactPath id) fs)) ids fs.

Lemma ForgetInputs_run {E} ids st :
  ForgetInputs (E := E) ids st = (Ok tt, with_inputs (forget ids) st).
Proof.
  revert st. induction ids as [|id ids IH]; intros st; simpl.
  - unfold tx_ret, with_inputs. by destruct st.
  - unfold tx_bind, removeArtifact, tx_modify. by rewrite IH.
Qed.

(** Evaluates the columns of a row an operation has changed. *)
Ltac row_eval :=
  lazy beta iota zeta delta
    [overwrite with_command with_lease without_input row_id row_state
     set_attempt set_epoch set_failure set_last_attempt set_last_error set_lease_expires
     set_next_attempt set_state set_updated clearCommandFailureDiagnostic setCommandFailureDiagnostic
     claim_row lease_row expire_row succeed_row fail_row fence_row recover_row recover_upload
     retry_row upload_failed upload_stored fst snd
     seq artifact command idempotencyKey leaseID payloadDigest
     Action Actor Attempt AuthorityEpoch AutoRetry ClusterID CreatedAt FailureCode FailureSummary
     ID LastAttemptAt LastError LeaseExpiresAt MaxAttempts NextAttemptAt NodeID RequestID
     RecoveryHint ServerID State Target UpdatedAt].

Section Ops.
Context `{Collation} `{Platform} (historyLimit : Z).

(** Which rows the second half of an upload may meet: it locks its row by id
    and does not look at the state it is in. *)
Context (U : commandRow -> Prop).

Lemma transitionTx_ok {A} env id (fn : commandRow -> tx Store qerr A) st a st' :
  transitionTx env id fn st = (Ok a, st') ->
  exists row, In row (commands st) /\ by_id id row = true /\ fn row st = (Ok a, st').
Proof.
  unfold transitionTx. destruct (negb _); [discriminate|].
  intros Hr%map_error_ok%WithTx_ok. unfold tx_bind, lockRow, tx_gets in Hr.
  destruct (sql_first (by_id id) (commands st)) as [row|] eqn:F; [|discriminate].
  apply sql_first_Some in F as [Hin Hid]. eauto.
Qed.

Lemma map_error_cases {A} (f : qerr -> qerr) vs (fn : tx Store qerr A) st r st' :
  map_error f (WithTx vs fn) st = (r, st') -> st' = st \/ exists a, fn st = (Ok a, st').
Proof.
  unfold map_error. destruct (WithTx vs fn st) as [[a|e] s] eqn:W; intros [= _ <-]; by eapply WithTx_cases.
Qed.

(** Whatever a transition reports, it was rolled back or ran on the row. *)
Lemma transitionTx_cases {A} env id (fn : commandRow -> tx Store qerr A) st r st' :
  transitionTx env id fn st = (r, st') ->
  st' = st \/ exists a row, In row (commands st) /\ by_id id row = true /\ fn row st = (Ok a, st').
Proof.
  unfold transitionTx. destruct (negb _); [intros [= _ ->]; by left|].
  intros [->|[a Hr]]%map_error_cases; [by left|right]. unfold tx_bind, lockRow, tx_gets in Hr.
  destruct (sql_first (by_id id) (commands st)) as [row|] eqn:F; [|discriminate].
  apply sql_first_Some in F as [Hin Hid]. eauto.
Qed.

Lemma transitionTx_err_acknowledged {A} env id (fn : commandRow -> tx Store qerr A) st e st' :
  acknowledged (env_verdicts env) -> transitionTx env id fn st = (Err e, st') -> st' = st.
Proof.
  intros Hv. unfold transitionTx. destruct (negb _); [by intros [= _ ->]|].
  intros (e' & Hr & _)%map_error_err. by eapply WithTx_err_acknowledged.
Qed.

Lemma transition_ok env id fn st c st' :
  transition env id fn st = (Ok c, st') ->
  exists before row, In before (commands st) /\ by_id id before = true /\
    fn before st = Ok row /\ c = command row /\
    ((row = before /\ st' = st) \/ st' = update_row row st).
Proof.
  intros (before & Hin & Hid & Hr)%transitionTx_ok.
  unfold tx_bind, tx_get, tx_lift in Hr.
  destruct (fn before st) as [row|e] eqn:F; [|discriminate].
  exists before, row. repeat (split; [done|]).
  destruct (bool_decide (row = before)) eqn:B; injection Hr as <- <-; split; try done.
  - apply bool_decide_eq_true in B. by left.
  - by right.
Qed.

Lemma transition_cases env id fn st res st' :
  transition env id fn st = (res, st') ->
  st' = st \/ exists before row, In before (commands st) /\ by_id id before = true /\
    fn before st = Ok row /\ st' = update_row row st.
Proof.
  intros [->|(a & before & Hin & Hid & Hr)]%transitionTx_cases; [by left|].
  unfold tx_bind, tx_get, tx_lift in Hr.
  destruct (fn before st) as [row|e] eqn:F; [|discriminate].
  destruct (bool_decide (row = before)); injection Hr as _ <-; [by left|]. right. by exists before, row.
Qed.

(** ** The moves of one row *)

Inductive settles (r : commandRow) : commandRow -> Prop :=
| st_expire now :
    in_flight (row_state r) = true -> settles r (expire_row now r)
| st_advance now s :
    oneOfCommandState s [Preparing; Running] = true ->
    oneOfCommandState (row_state r) [Leased; Preparing] = true ->
    settles r (with_command (fun c => set_updated now (set_state s c)) r)
| st_renew t :
    in_flight (row_state r) = true -> settles r (with_command (set_lease_expires (Some t)) r)
| st_succeed now :
    in_flight (row_state r) = true -> settles r (succeed_row now r)
| st_fail now err :
    in_flight (row_state r) = true -> settles r (fst (fail_row now err r))
| st_fence now :
    terminalCommandState (row_state r) = false -> settles r (fence_row now r)
| st_recover now :
    in_flight (row_state r) = true -> settles r (recover_row now r)
| st_recover_upload now st :
    interrupted_upload r = true -> settles r (recover_upload now st r)
| st_retry now epoch :
    row_state r = NeedsAttention -> 1 <= epoch -> AuthorityEpoch (command r) <= epoch ->
    settles r (retry_row now epoch r)
| st_upload_failed now limit err :
    U r -> settles r (with_command (upload_failed now limit err) r)
| st_upload_stored now :
    U r -> settles r (with_command (upload_stored now) r).

Inductive claims (r : commandRow) : commandRow -> Prop :=
| st_claim now : runnable now r = true -> claims r (claim_row now r).

Inductive leases (r : commandRow) : commandRow -> Prop :=
| st_lease now epoch ttl lease :
    runnable now r = true -> 1 <= epoch -> leases r (lease_row now epoch ttl lease r).

(** What the ledger may delete: a command superseded before it started, and a
    finished one beyond the history limit. *)
Definition removable (r : commandRow) : Prop :=
  supersedable r = true \/ row_state r = Succeeded.

(** [crypto/rand] fills sixteen bytes. *)
Definition random_ok (env : Env) : Prop :=
  match env_random env with
  | None => True
  | Some bs => length bs = 16%nat /\ Forall (fun b => 0 <= b < 256) bs
  end.

(** A row a submission inserts. *)
Definition fresh (r : commandRow) : Prop :=
  exists env input is_artifact rec q,
    random_ok env /\ validateInput input is_artifact = Ok tt /\
    newRecord env input is_artifact = Ok rec /\
    check_constraints rec = true /\
    (r = mkRow q (artifact rec) (command rec) (idempotencyKey rec) (leaseID rec) (payloadDigest rec) \/
     r = mkRow q (artifact rec) (set_last_error storing (set_state NeedsAttention (command rec)))
           (idempotencyKey rec) (leaseID rec) (payloadDigest rec)).

Lemma settles_mutable r row : settles r row -> mutable_only r row.
Proof.
  unfold mutable_only. destruct r as [q a c k l d]. destruct c. intros Hs.
  destruct Hs; row_eval; try reflexivity.
  - by destruct (_ && _).
  - by destruct (_ && _ && _).
  - by destruct (encryptedArtifactPresent _ _) as [[]|].
Qed.

Lemma claims_mutable r row : claims r row -> mutable_only r row.
Proof. unfold mutable_only. destruct r as [q a [] k l d]. destruct 1. by row_eval. Qed.

Lemma leases_mutable r row : leases r row -> mutable_only r row.
Proof. unfold mutable_only. destruct r as [q a [] k l d]. destruct 1. by row_eval. Qed.

Abbreviation quiet := (evolves settles fresh removable).

Lemma quiet_update st r row :
  unique_ids (commands st) -> In r (commands st) -> settles r row -> quiet st (update_row row st).
Proof. intros Hu Hr Hs. eapply evolves_update; eauto using settles_mutable. Qed.

(** A transition that moves its row along [settles]. *)
Lemma quiet_transition env id fn st res st' :
  unique_ids (commands st) ->
  (forall r row, fn r st = Ok row -> settles r row) ->
  transition env id fn st = (res, st') -> quiet st st'.
Proof.
  intros Hu Hfn [->|(r & row & Hin & _ & Hf & ->)]%transition_cases; auto with ledger.
  eapply quiet_update; eauto.
Qed.

Lemma RetryNow_quiet env id epoch st res st' :
  unique_ids (commands st) -> 0 <= epoch ->
  RetryNow env id epoch st = (res, st') -> quiet st st'.
Proof.
  intros Hu He. apply quiet_transition; [done|]. intros r row Hf. cbv beta in Hf.
  destruct (state_eqb (row_state r) NeedsAttention) eqn:S; cbn [negb] in Hf; [|discriminate].
  apply bool_decide_eq_true in S.
  destruct ((epoch =? 0) || (epoch <? AuthorityEpoch (command r))) eqn:B; [discriminate|].
  assert (Ok (E := qerr) (retry_row (timestamp env) epoch r) = Ok row) as [= <-].
  { destruct (artifact r); [|done].
    by destruct (protectedArtifactFile _ _) as [[]|]. }
  apply st_retry; [done|lia|lia].
Qed.

Lemma AdvanceLease_quiet env id lease s st res st' :
  unique_ids (commands st) -> AdvanceLease env id lease s st = (res, st') -> quiet st st'.
Proof.
  intros Hu. unfold AdvanceLease. rewrite guard_bind.
  destruct (oneOfCommandState s [Preparing; Running]) eqn:S; [|intros [= _ <-]; auto with ledger].
  apply quiet_transition; [done|]. intros r row Hf. cbv beta in Hf.
  destruct (lease_valid lease r); cbn [negb] in Hf; [|discriminate].
  destruct (state_eqb s Preparing && negb (state_eqb (row_state r) Leased)) eqn:B1; [discriminate|].
  destruct (state_eqb s Running && negb (oneOfCommandState (row_state r) [Leased; Preparing])) eqn:B2;
    [discriminate|].
  injection Hf as <-. apply st_advance; [done|].
  destruct s; try discriminate S; destruct (row_state r); try done; discriminate.
Qed.

Lemma RenewLease_quiet env id lease ttl st res st' :
  unique_ids (commands st) -> RenewLease env id lease ttl st = (res, st') -> quiet st st'.
Proof.
  intros Hu. unfold RenewLease. rewrite guard_bind.
  destruct (lease_duration_ok ttl); [|intros [= _ <-]; auto with ledger].
  apply quiet_transition; [done|]. intros r row Hf. cbv beta in Hf.
  unfold lease_check in Hf. destruct (_ || _) eqn:B; [discriminate|]. injection Hf as <-.
  apply st_renew. apply orb_false_elim in B as [_ B]. by apply negb_false_iff in B.
Qed.

(** Pruning removes finished rows only. *)
Definition succeeded_rows (st : Store) : list commandRow :=
  sql_where (fun r => state_eqb (row_state r) Succeeded) (commands st).

Definition pruned_rows (st : Store) : list commandRow :=
  take (Z.to_nat (Z.of_nat (length (succeeded_rows st)) - historyLimit))
    (order_by seq_key (succeeded_rows st)).

Lemma pruned_ids_rows st : pruned_ids historyLimit st = map row_id (pruned_rows st).
Proof.
  unfold pruned_ids, pruned_rows, succeeded_rows. cbv zeta.
  destruct (_ <=? 0) eqn:B; [|done].
  replace (Z.to_nat _) with 0%nat by lia. done.
Qed.

Lemma take_In {A} n (l : list A) x : In x (take n l) -> In x l.
Proof. intros Hx. rewrite <- (take_drop n l). apply in_or_app. by left. Qed.

Lemma pruned_rows_In st r :
  In r (pruned_rows st) -> In r (commands st) /\ row_state r = Succeeded.
Proof.
  intros Hr%take_In%order_by_In. apply sql_where_In in Hr as [Hin Hs].
  split; [done|]. by apply bool_decide_eq_true in Hs.
Qed.

Lemma pruneTx_run st :
  pruneTx historyLimit st = (Ok (map row_id (pruned_rows st)),
                             delete_commands (map row_id (pruned_rows st)) st).
Proof. unfold pruneTx, tx_bind, tx_gets, tx_modify, tx_ret. by rewrite pruned_ids_rows. Qed.

Lemma quiet_prune st :
  unique_ids (commands st) -> quiet st (delete_commands (map row_id (pruned_rows st)) st).
Proof.
  intros Hu. apply evolves_delete; [done|]. intros r Hr.
  apply pruned_rows_In in Hr as [Hin Hs]. split; [done|by right].
Qed.

Lemma quiet_forget st ids : quiet st (with_inputs (forget ids) st).
Proof. by apply evolves_same. Qed.

Lemma removeArtifact_run {E} id st :
  removeArtifact (E := E) id st = (Ok tt, with_inputs (forget [id]) st).
Proof. done. Qed.

Lemma succeed_quiet env id check st res st' :
  unique_ids (commands st) -> (forall r, check r = Ok tt -> in_flight (row_state r) = true) ->
  succeed historyLimit env id check st = (res, st') -> quiet st st'.
Proof.
  intros Hu Hc Hr. unfold succeed in Hr. unfold tx_bind at 1 in Hr.
  destruct (transitionTx _ _ _ _) as [r1 s1] eqn:Ht.
  assert (quiet s1 st') as Hq.
  { destruct r1 as [[[c had] pruned]|e]; [|injection Hr as _ <-; auto with ledger].
    unfold tx_bind in Hr. destruct had; simpl in Hr;
      rewrite ForgetInputs_run in Hr; injection Hr as _ <-; by apply evolves_same. }
  eapply evolves_trans; [|exact Hq]. clear Hq Hr.
  apply transitionTx_cases in Ht as [->|(a & row & Hin & _ & Hb)]; [auto with ledger|].
  unfold tx_bind at 1, tx_lift in Hb. destruct (check row) as [[]|] eqn:Ck; [|discriminate].
  cbv zeta in Hb. unfold tx_bind, delete_payload, updateTx, tx_modify in Hb.
  rewrite pruneTx_run in Hb. injection Hb as _ <-.
  match goal with |- quiet _ (delete_commands _ ?s) => set (s2 := s) end.
  assert (quiet st s2) as Hq.
  { eapply evolves_trans; [by apply (evolves_same _ _ _ st (with_payloads
      (sql_delete (fun p => ceq p.1 (row_id (succeed_row (timestamp env) row)))) st))|].
    apply (quiet_update _ row); [done..|]. apply st_succeed. auto. }
  eapply evolves_trans; [exact Hq|]. apply quiet_prune. by apply Hq.
Qed.

Lemma running_check_in_flight r : running_check r = Ok tt -> in_flight (row_state r) = true.
Proof. unfold running_check. by destruct (row_state r). Qed.

Lemma lease_check_in_flight lease r : lease_check lease r = Ok tt -> in_flight (row_state r) = true.
Proof.
  unfold lease_check. destruct (lease_valid lease r); [|discriminate]. simpl.
  by destruct (in_flight (row_state r)).
Qed.

Lemma fail_quiet env id err prune check st res st' :
  unique_ids (commands st) -> (forall r, check r = Ok tt -> in_flight (row_state r) = true) ->
  fail historyLimit env id err prune check st = (res, st') -> quiet st st'.
Proof.
  intros Hu Hc Hr. unfold fail in Hr. unfold tx_bind at 1 in Hr.
  destruct (transitionTx _ _ _ _) as [r1 s1] eqn:Ht.
  assert (quiet s1 st') as Hq.
  { destruct r1 as [[[c ev] pruned]|e]; [|injection Hr as _ <-; auto with ledger].
    unfold tx_bind in Hr. rewrite ForgetInputs_run in Hr. injection Hr as _ <-. by apply evolves_same. }
  eapply evolves_trans; [|exact Hq]. clear Hq Hr.
  apply transitionTx_cases in Ht as [->|(a & row & Hin & _ & Hb)]; [auto with ledger|].
  unfold tx_bind at 1, tx_lift in Hb. destruct (check row) as [[]|] eqn:Ck; [|discriminate].
  destruct (fail_row (timestamp env) err row) as [row' ev'] eqn:F.
  assert (quiet st (update_row row' st)) as Hq.
  { eapply quiet_update; [done..|]. replace row' with (fst (fail_row (timestamp env) err row))
      by by rewrite F. apply st_fail. auto. }
  unfold tx_bind, updateTx, tx_modify in Hb. destruct prune.
  - rewrite pruneTx_run in Hb. injection Hb as _ <-.
    eapply evolves_trans; [exact Hq|]. apply quiet_prune. by apply Hq.
  - by injection Hb as _ <-.
Qed.

(** ** Authority and recovery *)

Lemma evolves_sql_update (R : relation commandRow) N D p f st :
  (forall r, p r = true -> mutable_only r (f r) /\ R r (f r)) ->
  evolves R N D st (with_commands (sql_update p f) st).
Proof.
  intros Hf. split; simpl.
  - apply unique_map, sql_update_map. intros r _ Hp. apply mutable_only_id, Hf, Hp.
  - intros r' (r & Hin & ->)%sql_update_In. exists r. split; [by left|].
    destruct (p r) eqn:E; [apply rtc_once, Hf, E|done].
  - intros r Hin. exists (if p r then f r else r). split.
    + destruct (p r) eqn:E; [apply rtc_once, Hf, E|done].
    + left. apply sql_update_In. eauto.
Qed.

Lemma FenceAuthority_quiet env epoch st res st' :
  FenceAuthority env epoch st = (res, st') -> quiet st st'.
Proof.
  unfold FenceAuthority. destruct (epoch =? 0); [intros [= _ <-]; auto with ledger|].
  intros [->|[a Hr]]%runTx_cases; [auto with ledger|]. injection Hr as _ <-. apply evolves_sql_update.
  intros r [_ Hp]%andb_true_iff. apply negb_true_iff in Hp.
  assert (settles r (fence_row (timestamp env) r)) as Hs by by apply st_fence.
  eauto using settles_mutable.
Qed.

(** Updating every row of a selection. *)
Lemma quiet_updates (p : commandRow -> bool) (f : Store -> commandRow -> commandRow) st :
  unique_ids (commands st) -> (forall s r, p r = true -> settles r (f s r)) ->
  quiet st (fold_left (fun s r => update_row (f s r) s) (sql_where p (commands st)) st).
Proof.
  intros Hu Hf. apply evolves_updates; [done| | |].
  - apply unique_NoDup. by apply unique_filter.
  - intros r Hr. by apply sql_where_In in Hr as [? _].
  - intros s r Hr. apply sql_where_In in Hr as [_ Hp]. eauto using settles_mutable.
Qed.

Lemma expireLeases_quiet env now st res st' :
  unique_ids (commands st) -> expireLeases env now st = (res, st') -> quiet st st'.
Proof.
  intros Hu [->|[a Hr]]%WithTx_cases; [auto with ledger|]. injection Hr as _ <-.
  apply (quiet_updates (lease_lapsed env now) (fun _ => expire_row now)); [done|].
  intros _ r [[Hp _]%andb_true_iff _]%andb_true_iff. by apply st_expire.
Qed.

Lemma Recover_quiet env st res st' :
  unique_ids (commands st) -> Recover env st = (res, st') -> quiet st st'.
Proof.
  intros Hu [->|[a Hr]]%WithTx_cases; [auto with ledger|]. injection Hr as _ <-.
  set (s1 := fold_left _ _ st).
  assert (quiet st s1) as Hq.
  { apply (quiet_updates (fun r => in_flight (row_state r)) (fun _ => recover_row (timestamp env)));
      [done|]. intros _ r Hp. by apply st_recover. }
  eapply evolves_trans; [exact Hq|].
  apply (quiet_updates interrupted_upload (fun s => recover_upload (timestamp env) s)).
  - by apply Hq.
  - intros s r Hp. by apply st_recover_upload.
Qed.

(** ** Submitting *)

Lemma supersedeTx_run input st :
  supersedeTx input st =
  (Ok (map command (superseded_rows input st),
       map row_id (List.filter artifact (superseded_rows input st))),
   delete_commands (map row_id (superseded_rows input st)) st).
Proof. done. Qed.

Lemma superseded_rows_In input st r :
  In r (superseded_rows input st) ->
  In r (commands st) /\ supersedable r = true /\ supersede_candidate input r = true.
Proof.
  unfold superseded_rows. intros [Hr Hs]%filter_In. apply order_by_In in Hr.
  by apply sql_where_In in Hr as [? ?].
Qed.

Lemma quiet_supersede input st :
  unique_ids (commands st) ->
  quiet st (delete_commands (map row_id (superseded_rows input st)) st).
Proof.
  intros Hu. apply evolves_delete; [done|]. intros r Hr.
  apply superseded_rows_In in Hr as (? & ? & _). split; [done|by left].
Qed.

(** What an insertion leaves: the row under the next sequence number. *)
Definition numbered (q : Z) (rec : commandRow) : commandRow :=
  mkRow q (artifact rec) (command rec) (idempotencyKey rec) (leaseID rec) (payloadDigest rec).

Lemma insertTx_ok rec payload st u st' :
  insertTx rec payload st = (Ok u, st') ->
  commands st' = commands st ++ [numbered (next_seq st) rec] /\ inputs st' = inputs st /\
  check_constraints rec = true /\ violates_unique same_unique_key rec (commands st) = false.
Proof.
  unfold insertTx, tx_bind, tx_get. destruct (violates_unique _ _ _) eqn:V; [discriminate|].
  destruct (check_constraints rec) eqn:C; cbn [negb]; [|discriminate].
  unfold tx_modify. destruct (payloadDigest rec =? "")%string; intros [= _ <-]; done.
Qed.

Lemma insert_quiet rec payload st u st' :
  fresh (numbered (next_seq st) rec) -> insertTx rec payload st = (Ok u, st') -> quiet st st'.
Proof.
  intros Hf (Hc & _ & _ & Hv)%insertTx_ok. eapply evolves_append; [exact Hc| |done].
  intros x Hx. pose proof (sql_exists_false _ _ x Hv Hx) as Hs.
  by apply orb_false_elim in Hs as [? _].
Qed.

(** A submission either finds its key taken and changes nothing, or supersedes,
    inserts and prunes. *)
Lemma submitTx_ok env input st sub cleanup st' :
  submitTx historyLimit env input st = (Ok (sub, cleanup), st') ->
  (exists c, idempotentTx input false st = (Ok (Some c), st) /\ st' = st /\
     sub = mkSubmission c false [] /\ cleanup = []) \/
  (exists rec st1 st2, idempotentTx input false st = (Ok None, st) /\
     newRecord env input false = Ok rec /\
     st1 = delete_commands (map row_id (superseded_rows input st)) st /\
     insertTx rec (in_Payload input) st1 = (Ok tt, st2) /\
     st' = delete_commands (map row_id (pruned_rows st2)) st2 /\
     sub = mkSubmission (command rec) true (map command (superseded_rows input st)) /\
     cleanup = map row_id (List.filter artifact (superseded_rows input st)) ++ map row_id (pruned_rows st2)).
Proof.
  unfold submitTx. unfold tx_bind at 1. intros Hr.
  assert (snd (idempotentTx input false st) = st) as Hst.
  { unfold idempotentTx, tx_bind, tx_gets. destruct (sql_first _ _); [|done].
    cbv zeta. by destruct (_ || _ || _ || _ || _). }
  destruct (idempotentTx input false st) as [[[c|]|e] s0] eqn:I; [| |discriminate]; simpl in Hst; subst s0.
  - injection Hr as <- <- <-. left. by exists c.
  - right. rewrite lift_bind in Hr. destruct (newRecord env input false) as [rec|] eqn:Nr; [|discriminate].
    unfold tx_bind at 1 in Hr. rewrite supersedeTx_run in Hr.
    unfold tx_bind at 1 in Hr.
    destruct (insertTx rec (in_Payload input) _) as [[[]|e] s2] eqn:Ins; [|discriminate].
    unfold tx_bind at 1 in Hr. rewrite pruneTx_run in Hr. injection Hr as <- <- <-.
    by exists rec, (delete_commands (map row_id (superseded_rows input st)) st), s2.
Qed.

Lemma submitTx_quiet env input st p st' :
  unique_ids (commands st) -> random_ok env -> validateInput input false = Ok tt ->
  submitTx historyLimit env input st = (Ok p, st') -> quiet st st'.
Proof.
  intros Hu Hrnd Hv. destruct p as [sub cleanup].
  intros [(c & _ & -> & _)|(rec & s1 & s2 & _ & Hn & -> & Hi & -> & _)]%submitTx_ok; auto with ledger.
  pose proof (insertTx_ok _ _ _ _ _ Hi) as (_ & _ & Hck & _).
  assert (quiet st s2) as Hq.
  { eapply evolves_trans; [by apply (quiet_supersede input)|]. eapply insert_quiet; [|done].
    exists env, input, false, rec, (next_seq (delete_commands (map row_id (superseded_rows input st)) st)).
    eauto 6. }
  eapply evolves_trans; [exact Hq|]. apply quiet_prune. by apply Hq.
Qed.

Lemma submit_quiet env env' input st res st' :
  unique_ids (commands st) -> random_ok env -> random_ok env' -> validateInput input false = Ok tt ->
  submit historyLimit env env' input st = (res, st') -> quiet st st'.
Proof.
  intros Hu Hr1 Hr2 Hv Hr. unfold submit in Hr.
  assert (forall e s r s', unique_ids (commands s) -> random_ok e ->
    WithTx (env_verdicts e) (submitTx historyLimit e input) s = (r, s') -> quiet s s') as Hok
    by (intros e s r s' Hus Hre [->|[p Hw]]%WithTx_cases; eauto using submitTx_quiet with ledger).
  assert (forall p s r s', finish p s = (r, s') -> commands s' = commands s) as Hfin.
  { intros p s r s' Hf. unfold finish, tx_bind in Hf. rewrite ForgetInputs_run in Hf.
    injection Hf as _ <-. done. }
  destruct (WithTx _ _ st) as [[p|e] s1] eqn:W1.
  - eapply evolves_trans; [by eapply (Hok env)|]. by eapply evolves_same, Hfin.
  - pose proof (Hok env _ _ _ Hu Hr1 W1) as Hq. destruct (IsDuplicate e); [|by injection Hr as _ <-].
    eapply evolves_trans; [exact Hq|]. destruct (WithTx _ _ s1) as [[p|e'] s2] eqn:W2.
    + eapply evolves_trans; [eapply (Hok env'); [by apply Hq|done..]|]. by eapply evolves_same, Hfin.
    + injection Hr as _ <-. eapply (Hok env'); [by apply Hq|done..].
Qed.

Lemma SubmitWithResult_quiet env env' input st res st' :
  unique_ids (commands st) -> random_ok env -> random_ok env' ->
  SubmitWithResult historyLimit env env' input st = (res, st') -> quiet st st'.
Proof.
  intros Hu Hr1 Hr2. unfold SubmitWithResult. rewrite lift_bind.
  destruct (validateInput input false) as [[]|e] eqn:V; [|intros [= _ <-]; auto with ledger].
  by apply submit_quiet.
Qed.

Lemma submitArtifact_begin_quiet env input st res st' :
  unique_ids (commands st) -> random_ok env -> validateInput input true = Ok tt ->
  submitArtifact_begin env input st = (res, st') -> quiet st st'.
Proof.
  intros Hu Hrnd Hv Hr. unfold submitArtifact_begin in Hr. unfold tx_bind at 1 in Hr.
  destruct (map_error _ _ _) as [r1 s1] eqn:M.
  assert (commands st' = commands s1) as Hc.
  { destruct r1 as [[[sub o] arts]|e]; [|by injection Hr as _ <-].
    unfold tx_bind in Hr. rewrite ForgetInputs_run in Hr. by injection Hr as _ <-. }
  eapply evolves_trans; [|by apply (evolves_same _ _ _ s1)].
  apply map_error_cases in M as [->|[a M]]; [auto with ledger|]. unfold tx_bind at 1 in M.
  destruct (idempotentTx input true st) as [[[c|]|e] s0] eqn:I; [| |discriminate].
  all: assert (s0 = st) as -> by
    (unfold idempotentTx, tx_bind, tx_gets in I; destruct (sql_first _ _) in I; cbv zeta in I;
     [destruct (_ || _ || _ || _ || _) in I|]; by inversion I).
  - injection M as _ <-. auto with ledger.
  - rewrite lift_bind in M. destruct (newRecord env input true) as [rec|] eqn:Nr; [|discriminate].
    cbv zeta in M. unfold tx_bind at 1 in M. rewrite supersedeTx_run in M. unfold tx_bind at 1 in M.
    destruct (insertTx _ (in_Payload input) _) as [[[]|e] s2] eqn:Ins; [|discriminate].
    injection M as _ <-.
    pose proof (insertTx_ok _ _ _ _ _ Ins) as (_ & _ & Hck & _).
    eapply evolves_trans; [by apply (quiet_supersede input)|]. eapply insert_quiet; [|exact Ins].
    exists env, input, true, rec, (next_seq (delete_commands (map row_id (superseded_rows input st)) st)).
    eauto 6.
Qed.

Lemma writeArtifact_quiet id limit body st res st' :
  writeArtifact id limit body st = (res, st') -> quiet st st'.
Proof.
  unfold writeArtifact. destruct (_ || _); [intros [= _ <-]; auto with ledger|].
  destruct body as [data|e]; [|intros [= _ <-]; auto with ledger].
  destruct (len data >? limit); intros [= _ <-]; by apply evolves_same.
Qed.

Lemma submitArtifact_finish_quiet env id limit err st res st' :
  unique_ids (commands st) ->
  (forall r, In r (commands st) -> by_id id r = true -> U r) ->
  submitArtifact_finish env id limit err st = (res, st') -> quiet st st'.
Proof.
  intros Hu HU Hr. unfold submitArtifact_finish in Hr. unfold tx_bind at 1 in Hr.
  destruct (map_error _ _ _) as [r1 s1] eqn:M.
  assert (commands st' = commands s1) as Hc.
  { destruct r1 as [o|e]; [|by injection Hr as _ <-]. destruct o, err; unfold tx_bind in Hr; cbn [removeArtifact tx_modify] in Hr;
      by injection Hr as _ <-. }
  eapply evolves_trans; [|by apply (evolves_same _ _ _ s1)].
  apply map_error_cases in M as [->|[a M]]; [auto with ledger|]. unfold tx_bind, lockRow, tx_gets in M.
  destruct (sql_first (by_id id) (commands st)) as [row|] eqn:F; [|injection M as _ <-; auto with ledger].
  apply sql_first_Some in F as [Hin Hid]. injection M as _ <-.
  eapply quiet_update; [done..|]. destruct err; constructor; auto.
Qed.

(** ** Scheduling *)

Lemma oldest_Some env p st row :
  oldest env p st = Some row ->
  In row (commands st) /\ p row = true /\ env_locked env (row_id row) = false /\
  forall r, In r (commands st) -> p r = true -> env_locked env (row_id r) = false ->
    lex_le (created_key row) (created_key r) = true.
Proof.
  unfold oldest. destruct (order_by created_key _) as [|x rest] eqn:O; [discriminate|].
  intros [= ->]. apply order_by_head in O as [Hin Hmin].
  apply sql_where_In in Hin as [Hin [Hp Hl]%andb_true_iff]. apply negb_true_iff in Hl.
  repeat (split; [done|]). intros r Hr Hpr Hlr. apply Hmin, sql_where_In.
  by rewrite Hpr, Hlr.
Qed.

(** The state a started command leaves: its row rewritten, its events cleared. *)
Definition started (row : commandRow) (st : Store) : Store :=
  update_row row (with_events (sql_delete (fun e => ceq (ev_CommandID e) (row_id row))) st).

Lemma payloadTx_state id st : snd (payloadTx id st) = st.
Proof.
  unfold payloadTx, tx_bind, tx_gets. destruct (sql_first _ _) as [p|]; [|done].
  by destruct (open_sealed _ _).
Qed.

(** The answer a committed call gives, or an error when it was lost. *)
Definition answered {A} (a : A) (res : result qerr A) : Prop := res = Ok a \/ exists e, res = Err e.

Lemma map_error_answered {A} (f : qerr -> qerr) vs (fn : tx Store qerr A) st r st' :
  map_error f (WithTx vs fn) st = (r, st') ->
  (st' = st /\ exists e, r = Err e) \/ exists a, answered a r /\ fn st = (Ok a, st').
Proof.
  unfold map_error, answered. destruct (WithTx vs fn st) as [[a|e] s] eqn:W; intros [= <- <-].
  - right. exists a. split; [by left|by eapply WithTx_ok].
  - apply WithTx_err in W as [->|[_ [a Ha]]]; [left|right]; eauto.
Qed.

Lemma ClaimDue_run env st res st' :
  ClaimDue env st = (res, st') ->
  (st' = st /\ forall rec, res <> Ok (Some rec)) \/
  exists row payload,
    (forall r, In r (commands st) -> row_state r <> Running) /\
    oldest env (runnable (timestamp env)) st = Some row /\
    answered (Some (mkRecord (artifact row) (command (claim_row (timestamp env) row)) payload)) res /\
    st' = started (claim_row (timestamp env) row) st.
Proof.
  intros [[-> [e ->]]|(o & Hans & Hr)]%map_error_answered; [by left|]. unfold tx_bind at 1, tx_gets at 1 in Hr.
  destruct (sql_exists _ (commands st)) eqn:B; [left; injection Hr as <- <-; split; [done|by destruct Hans as [->|[e ->]]]|].
  cbv zeta in Hr. unfold tx_bind at 1, tx_gets at 1 in Hr.
  destruct (oldest env _ st) as [row|] eqn:O; [|left; injection Hr as <- <-; split; [done|by destruct Hans as [->|[e ->]]]].
  right. unfold tx_bind, delete_events, updateTx, tx_modify in Hr.
  match type of Hr with context [payloadTx ?i ?s] => pose proof (payloadTx_state i s) as Hp;
    destruct (payloadTx i s) as [[payload|e] s1] end; [|discriminate].
  simpl in Hp. subst s1. injection Hr as <- <-. exists row, payload. split; [|done].
  intros r Hin Hs. pose proof (sql_exists_false _ _ r B Hin) as Hf. cbv beta in Hf.
  unfold state_eqb in Hf. by apply bool_decide_eq_false in Hf.
Qed.

Lemma LeaseDue_run env0 env server epoch ttl st res st' :
  LeaseDue env0 env server epoch ttl st = (res, st') ->
  (st' = st /\ forall l, res <> Ok (Some l)) \/
  exists st1 r1, expireLeases env0 (timestamp env0) st = (r1, st1) /\
  ((st' = st1 /\ forall l, res <> Ok (Some l)) \/
   exists row lease payload,
    newLeaseID (env_random env) = Ok lease /\
    TrimSpace server <> "" /\ epoch <> 0 /\ lease_duration_ok ttl = true /\
    (forall r, In r (commands st1) -> in_flight (row_state r) = true ->
       ceq (ServerID (command r)) (TrimSpace server) = false) /\
    oldest env (fun r => ceq (ServerID (command r)) (TrimSpace server) && runnable (timestamp env) r) st1
      = Some row /\
    answered (Some (mkLease lease (mkRecord (artifact row)
            (command (lease_row (timestamp env) epoch ttl lease row)) payload))) res /\
    st' = started (lease_row (timestamp env) epoch ttl lease row) st1).
Proof.
  unfold LeaseDue. cbv zeta. rewrite guard_bind. destruct (negb (_ || _)) eqn:G1.
  2:{ intros [= <- <-]. by left. }
  rewrite guard_bind. destruct (lease_duration_ok ttl) eqn:G2; [|intros [= <- <-]; by left].
  unfold tx_bind at 1. intros Hr.
  destruct (expireLeases env0 (timestamp env0) st) as [r1 st1] eqn:X. right. exists st1, r1.
  split; [done|]. destruct r1 as [u|e]; [|left; by injection Hr as <- <-].
  rewrite lift_bind in Hr. destruct (newLeaseID (env_random env)) as [lease|e] eqn:L;
    [|left; by injection Hr as <- <-].
  apply map_error_answered in Hr as [[-> [e ->]]|(o & Hans & Hr)]; [by left|]. unfold tx_bind at 1, tx_gets at 1 in Hr.
  destruct (sql_exists _ (commands st1)) eqn:B; [left; injection Hr as <- <-; split; [done|by destruct Hans as [->|[e ->]]]|].
  unfold tx_bind at 1, tx_gets at 1 in Hr.
  destruct (oldest env _ st1) as [row|] eqn:O; [|left; injection Hr as <- <-; split; [done|by destruct Hans as [->|[e ->]]]].
  right. unfold tx_bind, delete_events, updateTx, tx_modify in Hr.
  match type of Hr with context [payloadTx ?i ?s] => pose proof (payloadTx_state i s) as Hp;
    destruct (payloadTx i s) as [[payload|e] s1] end; [|discriminate].
  simpl in Hp. subst s1. injection Hr as <- <-. exists row, lease, payload.
  apply negb_true_iff, orb_false_elim in G1 as [G1 G1'].
  split; [done|]. split; [by apply String.eqb_neq|]. split; [lia|]. split; [done|]. split; [|done].
  intros r Hin Hs. pose proof (sql_exists_false _ _ r B Hin) as Hf. cbv beta in Hf.
  by rewrite Hs, andb_true_r in Hf.
Qed.

Lemma started_commands row st : commands (started row st) = commands (update_row row st).
Proof. done. Qed.

Lemma started_In st r row r' :
  unique_ids (commands st) -> In r (commands st) -> mutable_only r row ->
  In r' (commands (started row st)) <-> r' = row \/ (In r' (commands st) /\ r' <> r).
Proof. rewrite started_commands. apply update_row_In. Qed.

Lemma claim_evolves env st res st' N D :
  unique_ids (commands st) -> ClaimDue env st = (res, st') -> evolves claims N D st st'.
Proof.
  intros Hu [[-> _]|(row & p & _ & O & _ & ->)]%ClaimDue_run; auto with ledger.
  apply oldest_Some in O as (Hin & Hp & _).
  eapply evolves_trans; [by apply (evolves_same _ _ _ st (with_events
    (sql_delete (fun e => ceq (ev_CommandID e) (row_id (claim_row (timestamp env) row)))) st))|].
  apply (evolves_update _ _ _ _ row); [done|done|apply claims_mutable|]; by apply st_claim.
Qed.

Lemma lease_evolves env0 env server epoch ttl st res st' :
  unique_ids (commands st) -> 0 <= epoch ->
  LeaseDue env0 env server epoch ttl st = (res, st') ->
  exists st1, quiet st st1 /\ evolves leases fresh removable st1 st'.
Proof.
  intros Hu He [[-> _]|(st1 & r1 & X & Hr)]%LeaseDue_run; [eauto with ledger|].
  exists st1. pose proof (expireLeases_quiet _ _ _ _ _ Hu X) as Hq. split; [done|].
  destruct Hr as [[-> _]|(row & lease & p & _ & _ & Hn & _ & _ & O & _ & ->)]; [auto with ledger|].
  apply oldest_Some in O as (Hin & [_ Hp]%andb_true_iff & _).
  eapply evolves_trans; [by apply (evolves_same _ _ _ st1 (with_events (sql_delete (fun e =>
    ceq (ev_CommandID e) (row_id (lease_row (timestamp env) epoch ttl lease row)))) st1))|].
  apply (evolves_update _ _ _ _ row); [by apply Hq|done|apply leases_mutable|]; apply st_lease; (done || lia).
Qed.

(** ** Events and logs do not touch the commands. *)

Lemma transitionTx_commands {A} env id (fn : commandRow -> tx Store qerr A) st res st' :
  (forall row a s, fn row st = (Ok a, s) -> commands s = commands st) ->
  transitionTx env id fn st = (res, st') -> commands st' = commands st.
Proof.
  intros Hfn [->|(a & row & _ & _ & Hf)]%transitionTx_cases; eauto.
Qed.

Lemma AppendEvent_commands env id s ev st res st' :
  AppendEvent env id s ev st = (res, st') -> commands st' = commands st.
Proof.
  unfold AppendEvent. apply transitionTx_commands. intros row a s1 Hf.
  unfold tx_bind, tx_gets in Hf. destruct (_ >=? _); by injection Hf as _ <-.
Qed.

Lemma RetainOutput_commands env id log st res st' :
  RetainOutput env id log st = (res, st') -> commands st' = commands st.
Proof.
  unfold RetainOutput. destruct (TrimSpace log =? "")%string; [by intros [= _ <-]|].
  destruct (negb _); [by intros [= _ <-]|]. cbv zeta. apply transitionTx_commands.
  intros row a s1 Hf. by injection Hf as _ <-.
Qed.

End Ops.
