(* ===== verification/LedgerSteps.v ===== *)
(** * The ledger as a transition system

    [row_wf] is what every row of a reachable ledger satisfies.  A [call] is one
    invocation of an exported method of [Store] with what it reads from
    outside; [exec] runs it; [reachable] closes the empty ledger under every
    sequence of calls, which interleaves the two halves of an upload with
    everything else.  The second half of an upload does not look at the state its
    command is in; [reachable] keeps the identifiers whose upload ended too late,
    and what holds of their rows is the weaker [row_basic]. *)

From Stdlib Require Import ZArith Lia Bool Ascii String Sorting.
From stdpp Require Import base tactics list strings gmap relations.
From S2P Require Import Prelude GoStrings Sqlstore Diagnostics Ledger LedgerRows LedgerOps.

Local Open Scope string_scope.
Local Open Scope list_scope.
Local Open Scope bool_scope.
Local Open Scope Z_scope.

(** ** The messages of the ledger *)

Inductive ledger_message : string -> Prop :=
| msg_none : ledger_message ""
| msg_storing : ledger_message storing
| msg_expired_retry : ledger_message expired_retry
| msg_expired_uncertain : ledger_message expired_uncertain
| msg_failed c : ledger_message (failureNarrative c)
| msg_upload s : ledger_message (s ++ upload_suffix)%string
| msg_fenced : ledger_message fenced_message
| msg_restarted : ledger_message restarted
| msg_incomplete : ledger_message upload_incomplete.

#[local] Hint Constructors ledger_message : ledger.

(** The last [n] bytes, last first. *)
Definition last_bytes (n : nat) (s : string) : list ascii := take n (rev (bytes s)).

Lemma last_bytes_app n s t :
  (n <= String.length t)%nat -> last_bytes n (s ++ t) = last_bytes n t.
Proof.
  intros Hn. unfold last_bytes. rewrite bytes_app, rev_app_distr, take_app_le; [done|].
  by rewrite length_rev, length_bytes.
Qed.

Lemma append_long n s t : (n <= String.length t)%nat -> (n <= String.length (s ++ t))%nat.
Proof. rewrite <- !length_bytes, bytes_app, length_app. lia. Qed.

Lemma failureNarrative_not_storing c : failureNarrative c <> storing.
Proof.
  unfold failureNarrative. cbv zeta. intros E%(f_equal (last_bytes 8)).
  destruct (state_eqb (State c) RetryScheduled); rewrite !last_bytes_app in E
    by (repeat apply append_long; vm_compute; lia); vm_compute in E; discriminate E.
Qed.

Lemma upload_message_not_storing s : (s ++ upload_suffix)%string <> storing.
Proof.
  intros E%(f_equal (last_bytes 8)). rewrite last_bytes_app in E by (vm_compute; lia). vm_compute in E. discriminate E.
Qed.

(** ** Well-formed rows *)

Section Steps.
Context `{Collation} `{Platform} (historyLimit : Z).

(** The collation tells the upload marker from the other messages. *)
Definition marker_distinct : Prop :=
  forall s, ledger_message s -> ceq s storing = true -> s = storing.

(** A command whose input is being uploaded. *)
Definition pending (r : commandRow) : Prop :=
  row_state r = NeedsAttention /\ LastError (command r) = storing.

Definition live_states : list CommandState :=
  [Queued; Leased; Preparing; Running; RetryScheduled; Succeeded; NeedsAttention].

Record row_wf (r : commandRow) : Prop := {
  wf_id : commandIDPattern (row_id r) = true;
  wf_max : 1 <= MaxAttempts (command r) <= maxAttemptsLimit;
  wf_epoch : 1 <= AuthorityEpoch (command r);
  wf_attempt : 0 <= Attempt (command r) <= MaxAttempts (command r);
  wf_state : oneOfCommandState (row_state r) live_states = true;
  wf_queued : row_state r = Queued -> Attempt (command r) = 0;
  wf_retry : row_state r = RetryScheduled ->
             Attempt (command r) < MaxAttempts (command r) /\ AutoRetry (command r) = true /\
             NextAttemptAt (command r) <> None;
  wf_pending : pending r -> Attempt (command r) = 0;
  wf_flight : in_flight (row_state r) = true -> 1 <= Attempt (command r);
  wf_lease : LeaseExpiresAt (command r) <> None -> in_flight (row_state r) = true;
  wf_done : row_state r = Succeeded ->
            artifact r = false /\ payloadDigest r = "" /\ leaseID r = "" /\ FailureCode (command r) = "";
  wf_message : ledger_message (LastError (command r)) }.

(** What holds of a row even after a late upload queued or parked it again. *)
Record row_basic (r : commandRow) : Prop := {
  rb_id : commandIDPattern (row_id r) = true;
  rb_max : 1 <= MaxAttempts (command r) <= maxAttemptsLimit;
  rb_epoch : 1 <= AuthorityEpoch (command r);
  rb_state : oneOfCommandState (row_state r) live_states = true;
  rb_retry : row_state r = RetryScheduled ->
             Attempt (command r) < MaxAttempts (command r) /\ AutoRetry (command r) = true /\
             NextAttemptAt (command r) <> None;
  rb_done : row_state r = Succeeded ->
            artifact r = false /\ payloadDigest r = "" /\ leaseID r = "" /\ FailureCode (command r) = "" }.

Lemma in_flight_cases s : in_flight s = true -> s = Leased \/ s = Preparing \/ s = Running.
Proof. destruct s; try discriminate; auto. Qed.

Lemma runnable_cases now r :
  runnable now r = true -> row_state r = Queued \/ row_state r = RetryScheduled.
Proof. unfold runnable. destruct (row_state r); try discriminate; auto. Qed.

(** Solves the clauses of [row_wf] of a changed row. *)
Ltac wf_clause :=
  first [ done | lia | congruence | by eauto 2 with ledger
        | intros; first [ discriminate | lia | congruence ]
        | intros [? ?]; first [ discriminate | congruence ]
        | match goal with Hl : ?P -> in_flight _ = true |- ?P -> _ =>
            let Hx := fresh in intros Hx; apply Hl in Hx; subst; discriminate Hx end ].

Ltac wf_row r Hw :=
  destruct r as [q a [] k l d]; destruct Hw; unfold pending, row_state, row_id in *; simpl in *;
  split; unfold pending; row_eval; try wf_clause.

Lemma expire_wf now r : in_flight (row_state r) = true -> row_wf r -> row_wf (expire_row now r).
Proof.
  intros Hf Hw. unfold expire_row. cbv zeta. row_eval.
  destruct (_ && _) eqn:B; wf_row r Hw.
  intros _. apply andb_true_iff in B as [-> B]. repeat split; [lia|done].
Qed.

Lemma fail_wf now err r :
  in_flight (row_state r) = true -> row_wf r -> row_wf (fst (fail_row now err r)).
Proof.
  intros Hf Hw. unfold fail_row. cbv zeta.
  destruct (_ && _ && _) eqn:B; wf_row r Hw.
  - intros _. apply andb_true_iff in B as [[-> _]%andb_true_iff B]. repeat split; [lia|done].
  - intros [_ E]. by apply failureNarrative_not_storing in E.
Qed.

Lemma upload_failed_wf now limit err r :
  pending r -> row_wf r -> row_wf (with_command (upload_failed now limit err) r).
Proof.
  intros Hp Hw. pose proof (wf_pending _ Hw Hp) as Ha. destruct Hp as [Hs He]. wf_row r Hw.
Qed.

Lemma recover_upload_wf now st r :
  marker_distinct -> interrupted_upload r = true -> row_wf r -> row_wf (recover_upload now st r).
Proof.
  intros Hd Hi Hw. pose proof (Hd _ (wf_message _ Hw)) as He.
  unfold interrupted_upload in Hi. apply andb_true_iff in Hi as [[[Hs _]%andb_true_iff _]%andb_true_iff Hi].
  apply bool_decide_eq_true in Hs. specialize (He Hi).
  pose proof (wf_pending _ Hw (conj Hs He)) as Ha.
  unfold recover_upload. destruct (encryptedArtifactPresent _ _) as [[]|]; wf_row r Hw.
Qed.

Lemma leased_in_flight s : oneOfCommandState s [Leased; Preparing] = true -> in_flight s = true.
Proof. by destruct s. Qed.

Lemma settles_wf r r' : marker_distinct -> settles pending r r' -> row_wf r -> row_wf r'.
Proof.
  intros Hd Hs Hw. destruct Hs as [now Hf|now s Hs Hf|t Hf|now Hf|now err Hf|now Hf|now Hf
    |now st Hi|now epoch Hs He He'|now limit err Hp|now Hp].
  - by apply expire_wf.
  - pose proof (wf_flight _ Hw (leased_in_flight _ Hf)) as Ha. destruct s; try discriminate Hs; wf_row r Hw.
  - wf_row r Hw.
  - wf_row r Hw.
  - by apply fail_wf.
  - wf_row r Hw.
  - wf_row r Hw.
  - by apply recover_upload_wf.
  - wf_row r Hw.
  - by apply upload_failed_wf.
  - pose proof (wf_pending _ Hw Hp) as Ha. destruct Hp as [Hs He]. wf_row r Hw.
Qed.

(** The attempt counter of a command that is about to start does not wrap. *)
Lemma next_attempt now r :
  runnable now r = true -> row_wf r ->
  uint64_of (Attempt (command r) + 1) = Attempt (command r) + 1 /\
  1 <= Attempt (command r) + 1 <= MaxAttempts (command r).
Proof.
  intros Hr%runnable_cases Hw. pose proof (wf_attempt _ Hw). pose proof (wf_max _ Hw) as Hm.
  unfold maxAttemptsLimit in Hm. split; [apply uint64_small; unfold is_uint64, two64; lia|].
  destruct Hr as [Hr|Hr]; [rewrite (wf_queued _ Hw Hr) in *; lia|].
  pose proof (wf_retry _ Hw Hr) as [? _]. lia.
Qed.

Lemma claims_wf r r' : claims r r' -> row_wf r -> row_wf r'.
Proof.
  intros [now Hr] Hw. pose proof (next_attempt _ _ Hr Hw) as [Ha Hb].
  apply runnable_cases in Hr. wf_row r Hw.
Qed.

Lemma leases_wf r r' : leases r r' -> row_wf r -> row_wf r'.
Proof.
  intros [now epoch ttl lease Hr He] Hw. pose proof (next_attempt _ _ Hr Hw) as [Ha Hb].
  apply runnable_cases in Hr. wf_row r Hw.
Qed.

Lemma settles_basic U r r' : settles U r r' -> row_basic r -> row_basic r'.
Proof.
  intros Hs Hw. destruct Hs as [now Hf|now s Hs Hf|t Hf|now Hf|now err Hf|now Hf|now Hf
    |now st Hi|now epoch Hs He He'|now limit err Hp|now Hp].
  - unfold expire_row. cbv zeta. row_eval. destruct (_ && _) eqn:B; wf_row r Hw.
    intros _. apply andb_true_iff in B as [-> B]. repeat split; [lia|done].
  - destruct s; try discriminate Hs; wf_row r Hw.
  - wf_row r Hw.
  - wf_row r Hw.
  - unfold fail_row. cbv zeta. destruct (_ && _ && _) eqn:B; wf_row r Hw.
    intros _. apply andb_true_iff in B as [[-> _]%andb_true_iff B]. repeat split; [lia|done].
  - wf_row r Hw.
  - wf_row r Hw.
  - apply andb_true_iff in Hi as [[[Hs _]%andb_true_iff _]%andb_true_iff _]. apply bool_decide_eq_true in Hs.
    unfold recover_upload. destruct (encryptedArtifactPresent _ _) as [[]|]; wf_row r Hw.
  - wf_row r Hw.
  - wf_row r Hw.
  - wf_row r Hw.
Qed.

Lemma claims_basic r r' : claims r r' -> row_basic r -> row_basic r'.
Proof. intros [now Hr] Hw. wf_row r Hw. Qed.

Lemma leases_basic r r' : leases r r' -> row_basic r -> row_basic r'.
Proof. intros [now epoch ttl lease Hr He] Hw. wf_row r Hw. Qed.

Lemma wf_basic r : row_wf r -> row_basic r.
Proof. intros []. by split. Qed.

Lemma fresh_wf r : fresh r -> row_wf r.
Proof.
  intros (env & input & art & rec & q & Hrnd & _ & Hn & Hc & Hr).
  unfold newRecord, newID in Hn. unfold random_ok in Hrnd.
  destruct (env_random env) as [bs|]; [|discriminate]. destruct Hrnd as [Hl Hb].
  injection Hn as <-. unfold check_constraints in Hc. simpl in Hc.
  pose proof (commandID_matches bs Hl Hb) as Hid.
  destruct Hr as [-> | ->]; split; unfold pending, row_state, row_id, maxAttemptsLimit; simpl;
    first [ done | lia | intros; first [discriminate | lia | congruence ]
          | intros [? ?]; discriminate | constructor ].
Qed.

(** ** Calls *)

Inductive call :=
| CSubmit (env retry_env : Env) (input : SubmitInput)
| CUpload (env : Env) (input : SubmitInput)
| CWrite (id : string) (limit : Z) (body : result ExecError string)
| CUploaded (env : Env) (id : string) (limit : Z) (writeErr : option ExecError)
| CClaimDue (env : Env)
| CLeaseDue (env0 env : Env) (serverID : string) (epoch ttl : Z)
| CRetryNow (env : Env) (id : string) (epoch : Z)
| CAdvanceLease (env : Env) (id lease : string) (s : CommandState)
| CRenewLease (env : Env) (id lease : string) (ttl : Z)
| CComplete (env : Env) (id : string)
| CCompleteLease (env : Env) (id lease : string)
| CFail (env : Env) (id : string) (err : option ExecError)
| CFailLease (env : Env) (id lease : string) (err : option ExecError)
| CFenceAuthority (env : Env) (epoch : Z)
| CRecover (env : Env)
| CAppendEvent (env : Env) (id : string) (s : CommandState) (evidence : string)
| CRetainOutput (env : Env) (id log : string).

Definition exec (c : call) (st : Store) : Store :=
  match c with
  | CSubmit env env' input => snd (SubmitWithResult historyLimit env env' input st)
  | CUpload env input =>
      match validateInput input true with
      | Ok _ => snd (submitArtifact_begin env input st)
      | Err _ => st
      end
  | CWrite id limit body => snd (writeArtifact id limit body st)
  | CUploaded env id limit err => snd (submitArtifact_finish env id limit err st)
  | CClaimDue env => snd (ClaimDue env st)
  | CLeaseDue env0 env server epoch ttl => snd (LeaseDue env0 env server epoch ttl st)
  | CRetryNow env id epoch => snd (RetryNow env id epoch st)
  | CAdvanceLease env id lease s => snd (AdvanceLease env id lease s st)
  | CRenewLease env id lease ttl => snd (RenewLease env id lease ttl st)
  | CComplete env id => snd (Complete historyLimit env id st)
  | CCompleteLease env id lease => snd (CompleteLease historyLimit env id lease st)
  | CFail env id err => snd (Fail_ historyLimit env id err st)
  | CFailLease env id lease err => snd (FailLease historyLimit env id lease err st)
  | CFenceAuthority env epoch => snd (FenceAuthority env epoch st)
  | CRecover env => snd (Recover env st)
  | CAppendEvent env id s ev => snd (AppendEvent env id s ev st)
  | CRetainOutput env id log => snd (RetainOutput env id log st)
  end.

(** What the types of the code say of a call: a random source that answers
    delivers sixteen bytes, and epochs are unsigned. *)
Definition typed (c : call) : Prop :=
  match c with
  | CSubmit env env' _ => random_ok env /\ random_ok env'
  | CUpload env _ => random_ok env
  | CLeaseDue _ _ _ epoch _ | CRetryNow _ _ epoch => 0 <= epoch
  | _ => True
  end.

Definition empty_store : Store := mkStore [] 1 [] [] [] ∅.

Definition is_pending (r : commandRow) : bool :=
  state_eqb (row_state r) NeedsAttention && (LastError (command r) =? storing)%string.

(** The command whose upload this call ends although it no longer waits for it. *)
Definition late (c : call) (st : Store) : list string :=
  match c with
  | CUploaded _ id _ _ => if forallb (fun r => negb (by_id id r) || is_pending r) (commands st) then [] else [id]
  | _ => []
  end.

(** The ledgers that calls lead to, with the commands whose upload ended late. *)
Inductive reachable (allowed : call -> bool) : Store -> list string -> Prop :=
| reach_init : reachable allowed empty_store []
| reach_step st ids c :
    reachable allowed st ids -> allowed c = true -> typed c -> reachable allowed (exec c st) (late c st ++ ids).

Definition claims_only (c : call) : bool :=
  match c with CLeaseDue _ _ _ _ _ => false | _ => true end.
Definition leases_only (c : call) : bool :=
  match c with CClaimDue _ => false | _ => true end.

Definition starting (c : call) : bool :=
  match c with CClaimDue _ | CLeaseDue _ _ _ _ _ => true | _ => false end.

(** The rows whose upload the call ends: the one it names, whatever its state;
    unless the upload is late the row waits for it. *)
Definition upload_ends (c : call) (st : Store) (r : commandRow) : Prop :=
  match c with
  | CUploaded _ id _ _ => by_id id r = true /\ (late c st = [] -> pending r)
  | _ => False
  end.

Lemma upload_ends_all env id limit err st r :
  In r (commands st) -> by_id id r = true -> upload_ends (CUploaded env id limit err) st r.
Proof.
  intros Hin Hid. split; [done|]. unfold late. destruct (forallb _ _) eqn:F; [|done]. intros _.
  rewrite forallb_forall in F. specialize (F r Hin). rewrite Hid in F. simpl in F.
  apply andb_true_iff in F as [F1 F2]. split; [by apply bool_decide_eq_true in F1|by apply String.eqb_eq].
Qed.

(** A call that starts nothing moves rows along [settles] alone. *)
Lemma exec_quiet c st :
  unique_ids (commands st) -> typed c -> starting c = false ->
  evolves (settles (upload_ends c st)) fresh removable st (exec c st).
Proof.
  intros Hu Ha Hs. destruct c; simpl in Ha, Hs |- *; try discriminate Hs;
    try (match goal with |- evolves _ _ _ _ (snd ?m) => destruct m as [res st'] eqn:R; simpl end).
  - destruct Ha. eapply SubmitWithResult_quiet; [| | |exact R]; done.
  - destruct (validateInput input true) as [[]|] eqn:V; [|auto with ledger].
    destruct (submitArtifact_begin env input st) as [res st'] eqn:R. simpl.
    by eapply submitArtifact_begin_quiet.
  - by eapply writeArtifact_quiet.
  - eapply submitArtifact_finish_quiet; [done| |done]. apply upload_ends_all.
  - by eapply RetryNow_quiet.
  - by eapply AdvanceLease_quiet.
  - by eapply RenewLease_quiet.
  - eapply succeed_quiet; [done|apply running_check_in_flight|done].
  - eapply succeed_quiet; [done|apply lease_check_in_flight|done].
  - eapply fail_quiet; [done|apply running_check_in_flight|done].
  - eapply fail_quiet; [done|apply lease_check_in_flight|done].
  - by eapply FenceAuthority_quiet.
  - by eapply Recover_quiet.
  - apply evolves_same. by eapply AppendEvent_commands.
  - apply evolves_same. by eapply RetainOutput_commands.
Qed.

(** Any move of a row in a call. *)
Definition row_step (c : call) (st : Store) (r r' : commandRow) : Prop :=
  settles (upload_ends c st) r r' \/ claims r r' \/ leases r r'.

Lemma exec_evolves c st :
  unique_ids (commands st) -> typed c ->
  evolves (row_step c st) fresh removable st (exec c st).
Proof.
  intros Hu Ha. destruct (starting c) eqn:S.
  2:{ eapply evolves_mono; [| | |by apply exec_quiet]; try done. unfold row_step. auto. }
  destruct c; try discriminate S; simpl in *.
  - destruct (ClaimDue env st) as [res st'] eqn:R. simpl.
    eapply evolves_mono; [| | |by eapply claim_evolves]; try done. unfold row_step. auto.
  - destruct (LeaseDue _ _ _ _ _ st) as [res st'] eqn:R. simpl.
    eapply (lease_evolves (fun _ => False)) in R as (st1 & Hq & Hl); [|done|done].
    eapply evolves_trans; (eapply evolves_mono; [| | |done]); try done; unfold row_step; auto.
Qed.

Lemma row_step_id c st r r' : row_step c st r r' -> row_id r' = row_id r.
Proof.
  intros Hs. apply mutable_only_id.
  destruct Hs as [Hs|[Hs|Hs]]; [by eapply settles_mutable|by apply claims_mutable|by apply leases_mutable].
Qed.

Lemma rtc_row_step_id c st r r' : rtc (row_step c st) r r' -> row_id r' = row_id r.
Proof. induction 1 as [|r1 r2 r3 Hs _ IH]; [done|]. rewrite IH. by eapply row_step_id. Qed.

(** No late upload ended for the row. *)
Definition untouched (ids : list string) (r : commandRow) : Prop := Forall (fun id => by_id id r = false) ids.

Lemma untouched_pending c st r : untouched (late c st) r -> upload_ends c st r -> pending r.
Proof.
  intros Hn. destruct c; try done. intros [Hid Hp]. apply Hp. cbn [late] in *.
  destruct (forallb _ _); [done|]. apply Forall_cons in Hn as [Hn _]. congruence.
Qed.

Lemma settles_mono (U V : commandRow -> Prop) r r' : (U r -> V r) -> settles U r r' -> settles V r r'.
Proof. intros HUV Hs. destruct Hs; by constructor; auto. Qed.

Lemma row_step_wf c st r r' :
  marker_distinct -> untouched (late c st) r -> row_step c st r r' -> row_wf r -> row_wf r'.
Proof.
  intros Hd Hn [Hs|[Hs|Hs]]; [|by apply claims_wf|by apply leases_wf].
  apply settles_wf; [done|]. eapply settles_mono; [|done]. by apply untouched_pending.
Qed.

Lemma row_step_basic c st r r' : row_step c st r r' -> row_basic r -> row_basic r'.
Proof. intros [Hs|[Hs|Hs]]; [by eapply settles_basic|by apply claims_basic|by apply leases_basic]. Qed.

Definition ledger_wf (st : Store) (ids : list string) : Prop :=
  unique_ids (commands st) /\ forall r, In r (commands st) -> row_basic r /\ (untouched ids r -> row_wf r).

Lemma exec_wf c st ids :
  marker_distinct -> typed c -> ledger_wf st ids -> ledger_wf (exec c st) (late c st ++ ids).
Proof.
  intros Hd Ha [Hu Hw]. pose proof (exec_evolves c st Hu Ha) as He. split; [by apply He|].
  eapply evolves_forall; [exact He|..].
  - intros r Hf%fresh_wf. auto using wf_basic.
  - intros r r' Hs [Hb Hr]. split; [by eapply row_step_basic|]. intros Hn.
    assert (untouched (late c st ++ ids) r) as Hn'.
    { eapply Forall_impl; [exact Hn|]. unfold by_id. by rewrite (row_step_id _ _ _ _ Hs). }
    eapply row_step_wf; [done| |exact Hs|auto]. by apply Forall_app in Hn' as [? _].
  - intros r Hin. destruct (Hw r Hin) as [Hb Hr]. split; [done|]. intros [_ Hn]%Forall_app. auto.
Qed.

Lemma reachable_ledger_wf allowed st ids : marker_distinct -> reachable allowed st ids -> ledger_wf st ids.
Proof.
  intros Hd. induction 1 as [|st ids c Hst IH Hc Ha]; [split; [constructor|by intros r []]|].
  by apply exec_wf.
Qed.

End Steps.
