(* ===== verification/LedgerExclusion.v ===== *)
(** * Mutual exclusion and the lifecycle of a command

    Which rows are in flight after a call, and from there that the worker runs
    one command at a time and that an agent holds one lease at a time. *)

From Stdlib Require Import ZArith Lia Bool Ascii String Sorting.
From stdpp Require Import base tactics list strings gmap relations.
From S2P Require Import Prelude GoStrings Sqlstore Diagnostics Ledger LedgerRows LedgerOps LedgerSteps.

Local Open Scope string_scope.
Local Open Scope list_scope.
Local Open Scope bool_scope.
Local Open Scope Z_scope.

Section Exclusion.
Context `{Collation} `{Platform} (historyLimit : Z).

(** What a row in flight inherits from the row it comes from. *)
Definition inherits (r r' : commandRow) : Prop :=
  in_flight (row_state r') = true ->
  in_flight (row_state r) = true /\ row_id r' = row_id r /\
  ServerID (command r') = ServerID (command r) /\
  (row_state r = Running -> row_state r' = Running).

Lemma settles_inherits U r r' : settles U r r' -> inherits r r'.
Proof.
  intros Hs. unfold inherits. destruct Hs as [now Hf|now s Hs Hf|t Hf|now Hf|now err Hf|now Hf|now Hf
    |now st Hi|now epoch Hs He He'|now limit err Hp|now Hp]; try (intros; discriminate).
  - unfold expire_row. cbv zeta. row_eval. destruct (_ && _); intros; discriminate.
  - intros _. split; [by apply leased_in_flight|]. repeat split.
    destruct (row_state r); (discriminate Hf || discriminate).
  - intros _. by repeat split.
  - unfold fail_row. cbv zeta. destruct (_ && _ && _); row_eval; intros; discriminate.
  - unfold recover_upload. destruct (encryptedArtifactPresent _ _) as [[]|]; row_eval; try discriminate.
    all: apply andb_true_iff in Hi as [[[Hs _]%andb_true_iff _]%andb_true_iff _];
      apply bool_decide_eq_true in Hs; unfold row_state in Hs; destruct r as [? ? [] ? ? ?]; simpl in *;
      subst; intros; discriminate.
Qed.

Lemma rtc_inherits U r r' : rtc (settles U) r r' -> inherits r r'.
Proof.
  induction 1 as [r|r1 r2 r3 Hs _ IH]; [by intros ?|].
  intros Hf. destruct (IH Hf) as (Hf2 & Hi2 & Hs2 & Hr2).
  destruct (settles_inherits _ _ _ Hs Hf2) as (Hf1 & Hi1 & Hs1 & Hr1).
  repeat split; [done|congruence..|auto].
Qed.

Lemma fresh_not_in_flight r : fresh r -> in_flight (row_state r) = false.
Proof.
  intros (env & input & art & rec & q & _ & _ & Hn & _ & Hr).
  unfold newRecord in Hn. destruct (newID _); [|discriminate]. injection Hn as <-.
  by destruct Hr as [-> | ->].
Qed.

Lemma quiet_in_flight U D st st' r' :
  evolves (settles U) fresh D st st' -> In r' (commands st') -> in_flight (row_state r') = true ->
  exists r, In r (commands st) /\ inherits r r'.
Proof.
  intros [_ b _] Hin Hf. apply b in Hin as (r & [Hr|Hr] & Hs); apply rtc_inherits in Hs.
  - by exists r.
  - apply Hs in Hf as [Hf _]. by rewrite fresh_not_in_flight in Hf.
Qed.

(** At most one row in flight among those of a class. *)
Definition exclusive (same : commandRow -> commandRow -> Prop) (st : Store) : Prop :=
  forall r1 r2, In r1 (commands st) -> In r2 (commands st) ->
    in_flight (row_state r1) = true -> in_flight (row_state r2) = true ->
    same r1 r2 -> r1 = r2.

Definition same_server (r1 r2 : commandRow) : Prop :=
  ceq (ServerID (command r1)) (ServerID (command r2)) = true.

Definition any_server (r1 r2 : commandRow) : Prop := True.

Definition flight_is_running (st : Store) : Prop :=
  forall r, In r (commands st) -> in_flight (row_state r) = true -> row_state r = Running.

Lemma quiet_exclusive U D same st st' :
  (forall r1 r2 r1' r2', inherits r1 r1' -> inherits r2 r2' ->
     in_flight (row_state r1') = true -> in_flight (row_state r2') = true ->
     same r1' r2' -> same r1 r2) ->
  unique_ids (commands st) -> evolves (settles U) fresh D st st' ->
  exclusive same st -> exclusive same st'.
Proof.
  intros Hsame Hu He Hx r1' r2' H1 H2 F1 F2 Hs.
  destruct (quiet_in_flight _ _ _ _ _ He H1 F1) as (r1 & Hr1 & I1).
  destruct (quiet_in_flight _ _ _ _ _ He H2 F2) as (r2 & Hr2 & I2).
  destruct (I1 F1) as (G1 & E1 & _). destruct (I2 F2) as (G2 & E2 & _).
  assert (r1 = r2) as -> by (apply Hx; eauto).
  eapply unique_eq; [by apply He|done|done|]. rewrite E1, E2. apply ceq_refl.
Qed.

Lemma quiet_running U D st st' :
  evolves (settles U) fresh D st st' -> flight_is_running st -> flight_is_running st'.
Proof.
  intros He Hr r' Hin Hf. destruct (quiet_in_flight _ _ _ _ _ He Hin Hf) as (r & Hir & I).
  destruct (I Hf) as (G & _ & _ & K). auto.
Qed.

Lemma inherits_same_server r1 r2 r1' r2' :
  inherits r1 r1' -> inherits r2 r2' ->
  in_flight (row_state r1') = true -> in_flight (row_state r2') = true ->
  same_server r1' r2' -> same_server r1 r2.
Proof.
  unfold same_server. intros I1 I2 F1 F2.
  destruct (I1 F1) as (_ & _ & -> & _). by destruct (I2 F2) as (_ & _ & -> & _).
Qed.

(** Claiming keeps at most one row in flight. *)
Lemma claim_exclusive env st :
  unique_ids (commands st) -> flight_is_running st -> exclusive any_server st ->
  flight_is_running (snd (ClaimDue env st)) /\ exclusive any_server (snd (ClaimDue env st)).
Proof.
  intros Hu Hr Hx. destruct (ClaimDue env st) as [res st'] eqn:R. simpl.
  apply ClaimDue_run in R as [[-> _]|(row & p & Hn & O & _ & ->)]; [done|].
  apply oldest_Some in O as (Hin & Hrun & _).
  assert (mutable_only row (claim_row (timestamp env) row)) as Hm
    by by apply claims_mutable, st_claim.
  assert (forall r, In r (commands st) -> in_flight (row_state r) = false) as Hidle.
  { intros r Hir. destruct (in_flight (row_state r)) eqn:F; [|done].
    destruct (Hn r Hir (Hr r Hir F)). }
  assert (forall r', In r' (commands (started (claim_row (timestamp env) row) st)) ->
            in_flight (row_state r') = true -> r' = claim_row (timestamp env) row) as Hone.
  { intros r' Hir' F. apply (started_In st row) in Hir'; [|done..].
    destruct Hir' as [->|[Hir' _]]; [done|]. by rewrite Hidle in F. }
  split.
  - intros r' Hir' F. by rewrite (Hone r').
  - intros r1 r2 H1 H2 F1 F2 _. by rewrite (Hone r1), (Hone r2).
Qed.

(** Leasing keeps at most one row in flight for each server. *)
Lemma lease_exclusive env0 env server epoch ttl st :
  unique_ids (commands st) -> 0 <= epoch -> exclusive same_server st ->
  exclusive same_server (snd (LeaseDue env0 env server epoch ttl st)).
Proof.
  intros Hu He Hx. destruct (LeaseDue _ _ _ _ _ st) as [res st'] eqn:R. simpl.
  apply LeaseDue_run in R as [[-> _]|(st1 & r1 & X & R)]; [done|].
  apply (expireLeases_quiet pending) in X; [|done].
  pose proof (quiet_exclusive _ _ _ _ _ inherits_same_server Hu X Hx) as Hx1.
  destruct R as [[-> _]|(row & lease & p & _ & _ & Hn & _ & Hidle & O & _ & ->)]; [done|].
  apply oldest_Some in O as (Hin & [Hsrv Hrun]%andb_true_iff & _).
  assert (mutable_only row (lease_row (timestamp env) epoch ttl lease row)) as Hm
    by (apply leases_mutable, st_lease; [done|lia]).
  assert (unique_ids (commands st1)) as Hu1 by by apply X.
  assert (forall r, In r (commands st1) -> in_flight (row_state r) = true ->
            same_server r row \/ same_server row r -> False) as Hfree.
  { unfold same_server. intros r Hir F Hs. specialize (Hidle r Hir F).
    destruct Hs as [Hs|Hs]; [|apply ceq_sym in Hs].
    all: by rewrite (ceq_trans _ _ _ Hs Hsrv) in Hidle. }
  intros a b Ha Hb Fa Fb Hs.
  apply (started_In st1 row) in Ha, Hb; [|done..].
  destruct Ha as [->|[Ha _]], Hb as [->|[Hb _]]; [done| | |by apply Hx1].
  - destruct (Hfree b Hb Fb). by right.
  - destruct (Hfree a Ha Fa). by left.
Qed.

Lemma exec_claim_exclusive c st :
  claims_only c = true -> typed c -> unique_ids (commands st) ->
  flight_is_running st -> exclusive any_server st ->
  flight_is_running (exec historyLimit c st) /\ exclusive any_server (exec historyLimit c st).
Proof.
  intros Hc Ha Hu Hr Hx. destruct (starting c) eqn:S.
  - destruct c; try discriminate. by apply claim_exclusive.
  - pose proof (exec_quiet historyLimit c st Hu Ha S) as He. split; [by eapply quiet_running|].
    by eapply quiet_exclusive.
Qed.

Lemma exec_lease_exclusive c st :
  leases_only c = true -> typed c -> unique_ids (commands st) ->
  exclusive same_server st -> exclusive same_server (exec historyLimit c st).
Proof.
  intros Hc Ha Hu Hx. destruct (starting c) eqn:S.
  - destruct c; try discriminate. by apply lease_exclusive.
  - eapply quiet_exclusive; [apply inherits_same_server|done|by apply exec_quiet|done].
Qed.

Lemma reachable_unique allowed st ids : reachable historyLimit allowed st ids -> unique_ids (commands st).
Proof.
  induction 1 as [|st ids c Hst IH Hc Ha]; [constructor|]. by apply (exec_evolves historyLimit c st).
Qed.

Lemma empty_exclusive same : exclusive same empty_store.
Proof. intros r1 r2 []. Qed.

Lemma reachable_claim_exclusive st ids :
  reachable historyLimit claims_only st ids -> flight_is_running st /\ exclusive any_server st.
Proof.
  induction 1 as [|st ids c Hst [IH1 IH2] Hc Ha]; [split; [by intros r []|apply empty_exclusive]|].
  apply exec_claim_exclusive; try done. by eapply reachable_unique.
Qed.

Lemma reachable_lease_exclusive st ids :
  reachable historyLimit leases_only st ids -> exclusive same_server st.
Proof.
  induction 1 as [|st ids c Hst IH Hc Ha]; [apply empty_exclusive|].
  apply exec_lease_exclusive; try done. by eapply reachable_unique.
Qed.

End Exclusion.
