(* ===== verification/LedgerFacts.v ===== *)
(** * Behaviour of the single operations of the ledger

    Lemmas on what a submission, a claim, a settlement, a fence and a recovery
    leave behind; LedgerTheorems.v states the properties. *)

From Stdlib Require Import ZArith Lia Bool Ascii String Sorting.
From stdpp Require Import base tactics list strings gmap relations.
From S2P Require Import Prelude GoStrings Sqlstore Diagnostics Ledger LedgerRows LedgerOps LedgerSteps.

Local Open Scope string_scope.
Local Open Scope list_scope.
Local Open Scope bool_scope.
Local Open Scope Z_scope.

Section Facts.
Context `{Collation} `{Platform} (historyLimit : Z).

(** ** Submissions *)

Definition key_matches (input : SubmitInput) (r : commandRow) : bool :=
  ceq (Actor (command r)) (TrimSpace (in_Actor input))
  && ceq (idempotencyKey r) (TrimSpace (in_IdempotencyKey input)).

Lemma idempotentTx_none input art st st' :
  idempotentTx input art st = (Ok None, st') ->
  st' = st /\ forall r, In r (commands st) -> key_matches input r = false.
Proof.
  unfold idempotentTx, tx_bind, tx_gets. destruct (sql_first _ _) as [row|] eqn:F.
  - cbv zeta. destruct (_ || _ || _ || _ || _); discriminate.
  - intros [= <-]. split; [done|]. intros r Hr. by apply (sql_first_None _ _ r F).
Qed.

(** The transaction of a successful submission, and the file removals after it. *)
Lemma SubmitWithResult_ok env env' input st sub st' :
  SubmitWithResult historyLimit env env' input st = (Ok sub, st') ->
  validateInput input false = Ok tt /\
  exists e cleanup s, (e = env \/ e = env') /\
    submitTx historyLimit e input st = (Ok (sub, cleanup), s) /\
    st' = with_inputs (forget cleanup) s.
Proof.
  unfold SubmitWithResult. rewrite lift_bind.
  destruct (validateInput input false) as [[]|]; [|discriminate]. intros Hr. split; [done|].
  assert (forall p s r s', finish p s = (Ok r, s') -> fst p = r /\ s' = with_inputs (forget (snd p)) s) as Hf.
  { intros [sb cl] s r s' Hf. unfold finish, tx_bind in Hf. rewrite ForgetInputs_run in Hf.
    by injection Hf as <- <-. }
  unfold submit in Hr. destruct (WithTx _ _ st) as [[[sb cl]|e] s1] eqn:W1.
  - apply Hf in Hr as [<- ->]. apply WithTx_ok in W1. exists env, cl, s1. auto.
  - destruct (IsDuplicate e) eqn:D; [|discriminate].
    apply WithTx_rolled_back in W1 as ->; [|by apply duplicate_not_lost]. destruct (WithTx _ _ st) as [[[sb cl]|e'] s2] eqn:W2; [|discriminate].
    apply Hf in Hr as [<- ->]. apply WithTx_ok in W2. exists env', cl, s2. auto.
Qed.

(** The ledger after a submission that inserted a row. *)
Record submitted (input : SubmitInput) (st st' : Store) (sub : Submission) (new : commandRow) : Prop := {
  sb_in : In new (commands st');
  sb_command : command new = sub_Command sub;
  sb_new : forall r, In r (commands st') -> r = new \/ In r (commands st);
  sb_super : forall r, In r (commands st') -> r <> new -> ~ In r (superseded_rows input st);
  sb_lost : forall r, In r (commands st) -> ~ In r (commands st') ->
    In r (superseded_rows input st) \/ row_state r = Succeeded;
  sb_list : sub_Superseded sub = map command (superseded_rows input st);
  sb_fields : exists q e rec, newRecord e input false = Ok rec /\ new = numbered q rec }.

Lemma newRecord_state env input art rec : newRecord env input art = Ok rec -> row_state rec = Queued.
Proof. unfold newRecord. destruct (newID _); [|discriminate]. by intros [= <-]. Qed.

Lemma not_in_deleted st rows r :
  In r rows -> ~ In r (commands (delete_commands (map row_id rows) st)).
Proof.
  intros Hr [_ Hd]%delete_commands_In. specialize (Hd (row_id r) (in_map _ _ _ Hr)).
  unfold by_id in Hd. by rewrite ceq_refl in Hd.
Qed.

Lemma submitTx_submitted env input st sub cleanup st' :
  unique_ids (commands st) -> submitTx historyLimit env input st = (Ok (sub, cleanup), st') ->
  sub_Created sub = true -> exists new, submitted input st st' sub new.
Proof.
  intros Hu Hs Hc. apply submitTx_ok in Hs as [(c & _ & _ & -> & _)|
    (rec & s1 & s2 & _ & Hn & E1 & Hi & -> & -> & _)]; [discriminate Hc|].
  pose proof (insertTx_ok _ _ _ _ _ Hi) as (Hc2 & _ & _ & Hv).
  set (new := numbered (next_seq s1) rec) in *.
  assert (row_state new = Queued) as Hq by by apply newRecord_state in Hn.
  assert (unique_ids (commands s1)) as Hu1 by (rewrite E1; by apply delete_commands_unique).
  assert (unique_ids (commands s2)) as Hu2.
  { rewrite Hc2. apply unique_snoc; [done|]. intros x Hx.
    by apply (sql_exists_false _ _ x Hv), orb_false_elim in Hx as [? _]. }
  assert (forall r, In r (commands s2) <-> r = new \/ In r (commands s1)) as Hin2.
  { intros r. rewrite Hc2, in_app_iff. simpl. split; [intros [?|[?|[]]]|intros [?|?]]; auto. }
  exists new. split.
  - assert (~ In new (pruned_rows historyLimit s2)) as Hnp.
    { intros [_ Hp]%pruned_rows_In. congruence. }
    destruct (in_dec (fun a b => decide (a = b)) new
      (commands (delete_commands (map row_id (pruned_rows historyLimit s2)) s2))) as [|Hno]; [done|].
    destruct Hnp. eapply deleted_row; [exact Hu2| |apply Hin2; by left|done].
    intros x Hx. by apply pruned_rows_In in Hx as [? _].
  - done.
  - intros r [Hr _]%delete_commands_In. apply Hin2 in Hr as [->|Hr]; [by left|right].
    rewrite E1 in Hr. by apply delete_commands_In in Hr as [? _].
  - intros r [Hr _]%delete_commands_In Hne. apply Hin2 in Hr as [->|Hr]; [done|].
    rewrite E1 in Hr. intros Hsup. by eapply not_in_deleted.
  - intros r Hr Hno.
    destruct (in_dec (fun a b => decide (a = b)) r (commands s1)) as [Hr1|Hr1].
    + right. apply (pruned_rows_In historyLimit s2). eapply deleted_row; [exact Hu2| | |done].
      * intros x Hx. by apply pruned_rows_In in Hx as [? _].
      * apply Hin2. by right.
    + left. rewrite E1 in Hr1. eapply deleted_row; [exact Hu| |done|exact Hr1].
      intros x Hx. by apply superseded_rows_In in Hx as [? _].
  - done.
  - by exists (next_seq s1), env, rec.
Qed.

Lemma SubmitWithResult_submitted env env' input st sub st' :
  unique_ids (commands st) -> SubmitWithResult historyLimit env env' input st = (Ok sub, st') ->
  sub_Created sub = true -> exists new, submitted input st st' sub new.
Proof.
  intros Hu Hs Hc. apply SubmitWithResult_ok in Hs as (_ & e & cl & s & _ & Hs & ->).
  destruct (submitTx_submitted _ _ _ _ _ _ Hu Hs Hc) as [new [? ? ? ? ? ? ?]]. by exists new.
Qed.

Lemma digest_nonempty payload : json_Valid payload = true -> digest payload <> "".
Proof.
  intros Hj. unfold digest. destruct (payload =? "")%string eqn:E.
  - apply String.eqb_eq in E as ->. by rewrite json_Valid_empty in Hj.
  - intros E2. pose proof (sha256_hex_length payload) as Hl. by rewrite E2 in Hl.
Qed.

Lemma validateInput_json input art : validateInput input art = Ok tt -> json_Valid (in_Payload input) = true.
Proof.
  unfold validateInput. cbv zeta. destruct (_ || _ || _ || _); [discriminate|].
  destruct (_ || negb _) eqn:B; [discriminate|]. intros _.
  by apply orb_false_elim in B as [_ B%negb_false_iff].
Qed.

(** The row of a submission answers for it: the same input finds the row,
    agrees with it and gets its command back. *)
Lemma idempotentTx_hit input st new :
  json_Valid (in_Payload input) = true ->
  (exists q e rec, newRecord e input false = Ok rec /\ new = numbered q rec) ->
  In new (commands st) -> (forall r, In r (commands st) -> key_matches input r = true -> r = new) ->
  idempotentTx input false st = (Ok (Some (command new)), st).
Proof.
  intros Hj (q & e & rec & Hn & ->) Hin Hu. unfold newRecord in Hn.
  destruct (newID (env_random e)) as [id|]; [|discriminate]. injection Hn as <-.
  unfold idempotentTx, tx_bind, tx_gets.
  erewrite (sql_first_unique _ _ (numbered q _)); [|exact Hin|simpl; by rewrite !ceq_refl|exact Hu].
  unfold numbered. row_eval. rewrite !String.eqb_refl. cbn [Bool.eqb negb orb].
  assert ((digest (in_Payload input) =? "")%string = false) as ->
    by by apply String.eqb_neq, digest_nonempty.
  done.
Qed.

(** ** Pruning *)

Lemma succeeded_rows_In st r :
  In r (succeeded_rows st) <-> In r (commands st) /\ row_state r = Succeeded.
Proof. unfold succeeded_rows. rewrite sql_where_In. unfold state_eqb. by rewrite bool_decide_eq_true. Qed.

Lemma NoDup_take {A} n (l : list A) : NoDup l -> NoDup (take n l).
Proof. intros Hl. rewrite <- (take_drop n l) in Hl. by apply NoDup_app in Hl as (? & _). Qed.

(** What survives a pruning is the rest of the ordered finished rows. *)
Lemma pruned_split st :
  unique_ids (commands st) ->
  let st' := delete_commands (map row_id (pruned_rows historyLimit st)) st in
  succeeded_rows st' ≡ₚ
  drop (Z.to_nat (Z.of_nat (length (succeeded_rows st)) - historyLimit))
    (order_by seq_key (succeeded_rows st)).
Proof.
  intros Hu st'. set (n := Z.to_nat _). set (l := order_by seq_key (succeeded_rows st)).
  assert (NoDup l) as Hnd.
  { unfold l. rewrite order_by_perm. apply unique_NoDup. by apply unique_filter. }
  assert (NoDup (take n l ++ drop n l)) as Hnd' by by rewrite take_drop.
  apply NoDup_app in Hnd' as (_ & Hdis & Hnd2).
  apply NoDup_Permutation; [|done|].
  { apply unique_NoDup, unique_filter. by apply delete_commands_unique. }
  intros r. rewrite !list_elem_of_In. rewrite succeeded_rows_In. split.
  - intros [[Hin Hd]%delete_commands_In Hs].
    assert (In r l) as Hl by by apply order_by_In, succeeded_rows_In.
    rewrite <- (take_drop n l) in Hl. apply in_app_or in Hl as [Hl|Hl]; [|done].
    specialize (Hd (row_id r) (in_map _ _ _ Hl)). unfold by_id in Hd. by rewrite ceq_refl in Hd.
  - intros Hr. assert (In r l) as Hl by (rewrite <- (take_drop n l); apply in_or_app; by right).
    apply order_by_In, succeeded_rows_In in Hl as [Hin Hs]. split; [|done].
    destruct (in_dec (fun a b => decide (a = b)) r (commands st')) as [|Hno]; [done|].
    apply deleted_row in Hno; [|done| |done].
    + destruct (Hdis r); by apply list_elem_of_In.
    + intros x Hx. by apply pruned_rows_In in Hx as [? _].
Qed.

Lemma pruned_older st r k :
  unique_ids (commands st) -> In r (succeeded_rows st) ->
  ~ In r (commands (delete_commands (map row_id (pruned_rows historyLimit st)) st)) ->
  In k (drop (Z.to_nat (Z.of_nat (length (succeeded_rows st)) - historyLimit))
          (order_by seq_key (succeeded_rows st))) ->
  seq r <= seq k.
Proof.
  intros Hu Hr Hno Hk. apply succeeded_rows_In in Hr as [Hin _].
  apply deleted_row in Hno; [|done| |done].
  2:{ intros x Hx. by apply pruned_rows_In in Hx as [? _]. }
  pose proof (sorted_take_drop _ _ _ _ _ (order_by_sorted seq_key _) Hno Hk) as Hle.
  unfold key_le, lex_le, seq_key in Hle. simpl in Hle. lia.
Qed.

(** The row a submission inserts was not in the ledger before. *)
Lemma submitted_new_not_old env env' input st sub st' :
  unique_ids (commands st) -> SubmitWithResult historyLimit env env' input st = (Ok sub, st') ->
  sub_Created sub = true -> forall new, submitted input st st' sub new ->
  In new (commands st) -> False.
Proof.
  intros Hu Hs Hc new Hsub Hold.
  apply SubmitWithResult_ok in Hs as (_ & e & cl & s & _ & Hs & ->).
  apply submitTx_ok in Hs as [(c & _ & _ & -> & _)|(rec & s1 & s2 & Hi & Hn & _ & _ & _ & -> & _)];
    [discriminate Hc|].
  apply idempotentTx_none in Hi as [_ Hi]. specialize (Hi new Hold).
  destruct (sb_fields _ _ _ _ _ Hsub) as (q & e' & rec' & Hn' & ->).
  unfold newRecord in Hn'. destruct (newID _); [|discriminate]. injection Hn' as <-.
  unfold key_matches in Hi. simpl in Hi. by rewrite !ceq_refl in Hi.
Qed.

(** ** Scheduling *)

Definition payload_readable (st : Store) (r : commandRow) : Prop :=
  exists p, payloadTx (row_id r) st = (Ok p, st).

Lemma payloadTx_started st row row' :
  row_id row' = row_id row -> payload_readable st row ->
  exists p, payloadTx (row_id row') (started row' st) = (Ok p, started row' st).
Proof.
  intros -> [p Hp]. unfold payloadTx, tx_bind, tx_gets in *. simpl.
  destruct (sql_first _ (command_payloads st)) as [q|]; [|eauto].
  destruct (open_sealed _ _); [eauto|discriminate].
Qed.

Lemma oldest_None env p st r :
  oldest env p st = None -> In r (commands st) -> p r && negb (env_locked env (row_id r)) = false.
Proof.
  unfold oldest. destruct (order_by created_key _) as [|x rest] eqn:O; [|discriminate].
  intros _ Hr. destruct (p r && negb (env_locked env (row_id r))) eqn:E; [|done].
  assert (In r (order_by created_key (sql_where (fun r => p r && negb (env_locked env (row_id r)))
            (commands st)))) as Hin by by apply order_by_In, sql_where_In.
  by rewrite O in Hin.
Qed.

(** With no fault and readable payloads, an idle ledger with due work starts it. *)
Lemma ClaimDue_starts env st r :
  env_verdicts env = [] -> (forall x, In x (commands st) -> row_state x <> Running) ->
  (forall x, In x (commands st) -> payload_readable st x) ->
  In r (commands st) -> runnable (timestamp env) r = true -> env_locked env (row_id r) = false ->
  exists rec st', ClaimDue env st = (Ok (Some rec), st').
Proof.
  intros Hv Hidle Hpay Hr Hrun Hl. unfold ClaimDue. rewrite Hv.
  destruct (oldest env (runnable (timestamp env)) st) as [row|] eqn:O.
  2:{ pose proof (oldest_None _ _ _ r O Hr) as Hno. by rewrite Hrun, Hl in Hno. }
  pose proof (oldest_Some _ _ _ _ O) as (Hin & _).
  destruct (payloadTx_started st row (claim_row (timestamp env) row) eq_refl (Hpay row Hin)) as [p Hp].
  exists (mkRecord (artifact row) (command (claim_row (timestamp env) row)) p), (started (claim_row (timestamp env) row) st).
  unfold map_error. erewrite WithTx_commits; [done|].
  unfold tx_bind at 1, tx_gets at 1.
  assert (sql_exists (fun r => state_eqb (row_state r) Running) (commands st) = false) as ->.
  { destruct (sql_exists _ _) eqn:E; [|done]. apply sql_exists_true in E as (x & Hx & Hs).
    apply bool_decide_eq_true in Hs. by destruct (Hidle x Hx). }
  cbv zeta. unfold tx_bind at 1, tx_gets at 1. rewrite O.
  unfold tx_bind, delete_events, updateTx, tx_modify. unfold started in Hp. by rewrite Hp.
Qed.

(** ** Fencing *)

(** After a fence every row of an older epoch is finished. *)
Lemma fenced_rows env e st st' :
  FenceAuthority env e st = (Ok tt, st') ->
  forall r, In r (commands st') -> AuthorityEpoch (command r) < e -> terminalCommandState (row_state r) = true.
Proof.
  unfold FenceAuthority. destruct (e =? 0); [discriminate|]. intros Hr%runTx_ok. injection Hr as <-. simpl.
  intros r' (r & Hin & ->)%sql_update_In. destruct (fenced_by e r) eqn:F; [done|].
  unfold fenced_by in F. intros Hlt. apply andb_false_iff in F as [F|F]; [lia|]. by apply negb_false_iff in F.
Qed.

Lemma fenced_claims env e st st' claim rec st2 :
  FenceAuthority env e st = (Ok tt, st') -> ClaimDue claim st' = (Ok (Some rec), st2) ->
  e <= AuthorityEpoch (rec_Command rec).
Proof.
  intros Hf Hc. apply ClaimDue_run in Hc as [[_ Hno]|(row & p & _ & O & Hans & _)]; [by destruct (Hno rec)|].
  destruct Hans as [[= ->]|[e' [=]]].
  apply oldest_Some in O as (Hin & Hrun & _). simpl.
  destruct (Z_lt_le_dec (AuthorityEpoch (command row)) e) as [Hlt|]; [|done].
  apply runnable_cases in Hrun. pose proof (fenced_rows _ _ _ _ Hf row Hin Hlt) as Ht.
  destruct Hrun as [E|E]; by rewrite E in Ht.
Qed.

(** ** Leases *)

Lemma transition_refused env id fn st :
  (forall r, In r (commands st) -> by_id id r = true -> exists e, fn r st = Err e) ->
  exists e, transition env id fn st = (Err e, st).
Proof.
  intros Hf. destruct (transition env id fn st) as [r' st'] eqn:T.
  assert (st' = st) as ->.
  { apply transition_cases in T as [->|(r & row & Hin & Hid & Hok & _)]; [done|].
    destruct (Hf r Hin Hid) as [e He]. congruence. }
  destruct r' as [c|e]; [|by exists e]. apply transition_ok in T as (r & row & Hin & Hid & Hok & _).
  destruct (Hf r Hin Hid) as [e He]. congruence.
Qed.

(** No row under an id carries the lease. *)
Definition lease_dead (id lease : string) (st : Store) : Prop :=
  forall r, In r (commands st) -> by_id id r = true -> lease_valid lease r = false.

Lemma transitionTx_refused {A} env id (fn : commandRow -> tx Store qerr A) st :
  (forall r, In r (commands st) -> by_id id r = true -> forall a s, fn r st <> (Ok a, s)) ->
  exists e, transitionTx env id fn st = (Err e, st).
Proof.
  intros Hf. destruct (transitionTx env id fn st) as [[a|e] st'] eqn:T.
  - apply transitionTx_ok in T as (r & Hin & Hid & Hok). by destruct (Hf r Hin Hid a st').
  - exists e. apply transitionTx_cases in T as [->|(a & r & Hin & Hid & Hok)]; [done|]. by destruct (Hf r Hin Hid a st').
Qed.

Lemma dead_lease_complete env id lease st :
  lease_dead id lease st -> exists e, CompleteLease historyLimit env id lease st = (Err e, st).
Proof.
  intros Hd. unfold CompleteLease, succeed. unfold tx_bind at 1.
  match goal with |- context [transitionTx env id ?fn st] =>
    destruct (transitionTx_refused env id fn st) as [e ->]; [|eauto] end.
  intros r Hr Hid a s. unfold tx_bind at 1, tx_lift, lease_check. by rewrite (Hd r Hr Hid).
Qed.

Lemma dead_lease_fail env id lease err st :
  lease_dead id lease st -> exists e, FailLease historyLimit env id lease err st = (Err e, st).
Proof.
  intros Hd. unfold FailLease, fail. unfold tx_bind at 1.
  match goal with |- context [transitionTx env id ?fn st] =>
    destruct (transitionTx_refused env id fn st) as [e ->]; [|eauto] end.
  intros r Hr Hid a s. unfold tx_bind at 1, tx_lift, lease_check. by rewrite (Hd r Hr Hid).
Qed.

Lemma dead_lease_advance env id lease s st :
  lease_dead id lease st -> exists e, AdvanceLease env id lease s st = (Err e, st).
Proof.
  intros Hd. unfold AdvanceLease. rewrite guard_bind. destruct (oneOfCommandState s _); [|eauto].
  apply transition_refused. intros r Hr Hid. rewrite (Hd r Hr Hid). simpl. eauto.
Qed.

Lemma dead_lease_renew env id lease ttl st :
  lease_dead id lease st -> exists e, RenewLease env id lease ttl st = (Err e, st).
Proof.
  intros Hd. unfold RenewLease. rewrite guard_bind. destruct (lease_duration_ok ttl); [|eauto].
  apply transition_refused. intros r Hr Hid. unfold lease_check. rewrite (Hd r Hr Hid). simpl. eauto.
Qed.

(** A row rewritten without a lease leaves no live lease under its id. *)
Lemma update_kills_lease id lease st r row :
  unique_ids (commands st) -> In r (commands st) -> mutable_only r row -> by_id id r = true ->
  leaseID row = "" -> lease_dead id lease (update_row row st).
Proof.
  intros Hu Hr Hm Hid Hl x Hx Hidx. apply (update_row_In st r) in Hx; [|done..].
  unfold lease_valid. destruct Hx as [->|[Hx Hne]]; [by rewrite Hl|].
  destruct Hne. unfold by_id in *. eapply unique_eq; [done..|].
  rewrite ceq_sym_eq in Hid. by eapply ceq_trans.
Qed.

Lemma lease_dead_delete id lease ids st : lease_dead id lease st -> lease_dead id lease (delete_commands ids st).
Proof. intros Hd r [Hr _]%delete_commands_In. auto. Qed.

Lemma lease_check_valid lease r : lease_check lease r = Ok tt ->
  leaseID r = lease /\ lease <> "" /\ in_flight (row_state r) = true.
Proof.
  unfold lease_check, lease_valid, subtleStringMismatch. destruct (leaseID r =? "")%string eqn:E1; [discriminate|].
  destruct (leaseID r =? lease)%string eqn:E2; [|discriminate].
  destruct (in_flight (row_state r)); [|discriminate]. intros _.
  apply String.eqb_eq in E2 as <-. by apply String.eqb_neq in E1.
Qed.

(** The row and the ledger of a successful settlement. *)
Lemma succeed_ok env id check st c st' :
  succeed historyLimit env id check st = (Ok c, st') ->
  exists r s2 ids, In r (commands st) /\ by_id id r = true /\ check r = Ok tt /\
    c = command (succeed_row (timestamp env) r) /\
    s2 = update_row (succeed_row (timestamp env) r)
           (with_payloads (sql_delete (fun p => ceq (fst p) (row_id r))) st) /\
    st' = with_inputs (fun fs => forget ids (if artifact r then forget [id] fs else fs))
            (delete_commands (map row_id (pruned_rows historyLimit s2)) s2).
Proof.
  intros Hr. unfold succeed in Hr. unfold tx_bind at 1 in Hr.
  destruct (transitionTx _ _ _ _) as [[[[c' had] pruned]|e] s1] eqn:Ht; [|discriminate].
  apply transitionTx_ok in Ht as (row & Hin & Hid & Hb).
  unfold tx_bind at 1, tx_lift in Hb. destruct (check row) as [[]|] eqn:Ck; [|discriminate].
  cbv zeta in Hb. unfold tx_bind, delete_payload, updateTx, tx_modify in Hb.
  rewrite pruneTx_run in Hb. injection Hb as <- <- <- <-.
  unfold tx_bind in Hr. destruct (artifact row) eqn:A; simpl in Hr;
    rewrite ForgetInputs_run in Hr; injection Hr as <- <-;
    exists row; eexists; exists (map row_id (pruned_rows historyLimit (update_row (succeed_row (timestamp env) row)
           (with_payloads (sql_delete (fun p => ceq (fst p) (row_id row))) st))));
    rewrite A; by repeat split.
Qed.

(** ** Recovery *)

Lemma update_row_inputs row st : inputs (update_row row st) = inputs st.
Proof. done. Qed.

(** A row after updating each row of a list: rewritten, or not of the list. *)
Lemma updates_In (f : Store -> commandRow -> commandRow) rows st r' :
  unique_ids (commands st) -> NoDup rows -> (forall r, In r rows -> In r (commands st)) ->
  (forall s r, In r rows -> mutable_only r (f s r)) ->
  In r' (commands (fold_left (fun s r => update_row (f s r) s) rows st)) ->
  (exists r s, In r rows /\ inputs s = inputs st /\ r' = f s r) \/ (In r' (commands st) /\ ~ In r' rows).
Proof.
  revert st. induction rows as [|x rows IH]; intros st Hu Hnd Hsub Hm Hin; simpl in Hin; [right; auto|].
  inversion Hnd as [|? ? Hx Hnd']; subst. rewrite list_elem_of_In in Hx.
  assert (In x (commands st)) as Hxin by (apply Hsub; by left).
  assert (mutable_only x (f st x)) as Hmx by (apply Hm; by left).
  apply IH in Hin; [|by apply update_row_unique|done| |intros; apply Hm; by right].
  - destruct Hin as [(r & s & Hr & Hi & ->)|[Hin Hno]].
    + left. exists r, s. repeat split; [by right|done].
    + apply (update_row_In st x) in Hin; [|done..]. destruct Hin as [->|[Hin Hne]].
      * left. exists x, st. repeat split. by left.
      * right. split; [done|]. intros [E|Hr]; congruence.
  - intros r Hr. apply (update_row_In st x); [done..|]. right. split; [apply Hsub; by right|].
    by intros ->.
Qed.

Lemma updates_inputs (f : Store -> commandRow -> commandRow) rows st :
  inputs (fold_left (fun s r => update_row (f s r) s) rows st) = inputs st.
Proof. revert st. induction rows as [|x rows IH]; intros st; simpl; [done|]. by rewrite IH. Qed.

Lemma where_updates_In (p : commandRow -> bool) (f : Store -> commandRow -> commandRow) st r' :
  unique_ids (commands st) -> (forall s r, p r = true -> mutable_only r (f s r)) ->
  In r' (commands (fold_left (fun s r => update_row (f s r) s) (sql_where p (commands st)) st)) ->
  (exists r s, In r (commands st) /\ p r = true /\ inputs s = inputs st /\ r' = f s r) \/
  (In r' (commands st) /\ p r' = false).
Proof.
  intros Hu Hm Hin. apply updates_In in Hin.
  - destruct Hin as [(r & s & Hr & Hi & ->)|[Hin Hno]].
    + left. apply sql_where_In in Hr as [? ?]. exists r, s. auto.
    + right. split; [done|]. destruct (p r') eqn:E; [|done]. destruct Hno. by apply sql_where_In.
  - done.
  - apply unique_NoDup. by apply unique_filter.
  - intros r Hr. by apply sql_where_In in Hr as [? _].
  - intros s r Hr. apply Hm. by apply sql_where_In in Hr as [_ ?].
Qed.

(** Each row after a recovery: an interrupted upload resolved, a command that
    was in flight parked, or a row the recovery does not concern. *)
Lemma Recover_rows env st st' r' :
  unique_ids (commands st) -> Recover env st = (Ok tt, st') -> In r' (commands st') ->
  (exists r s, interrupted_upload r = true /\ inputs s = inputs st /\ r' = recover_upload (timestamp env) s r) \/
  (exists r, In r (commands st) /\ in_flight (row_state r) = true /\ r' = recover_row (timestamp env) r) \/
  (In r' (commands st) /\ in_flight (row_state r') = false /\ interrupted_upload r' = false).
Proof.
  intros Hu Hr Hin. apply WithTx_ok in Hr. injection Hr as <-.
  assert (unique_ids (commands (fold_left (fun s r => update_row (recover_row (timestamp env) r) s)
    (sql_where (fun r => in_flight (row_state r)) (commands st)) st))) as Hu1.
  { apply (quiet_updates (fun _ => False) (fun r => in_flight (row_state r))
      (fun _ => recover_row (timestamp env))); [done| |done]. intros _ r Hp. by apply st_recover. }
  apply where_updates_In in Hin; [|done|].
  2:{ intros s r Hp. eapply (settles_mutable (fun _ => False)). by apply st_recover_upload. }
  rewrite (updates_inputs (fun _ => recover_row (timestamp env))) in Hin.
  destruct Hin as [(r & s & _ & Hp & Hi & ->)|[Hin Hp]]; [left; eauto|right].
  apply (where_updates_In _ (fun _ => recover_row (timestamp env))) in Hin; [|done|].
  2:{ intros s r Hf. eapply (settles_mutable (fun _ => False)). by apply st_recover. }
  destruct Hin as [(r & s & Hr & Hf & _ & ->)|[Hin Hf]]; [left; eauto|right; auto].
Qed.

(** ** Failures *)

Lemma fail_ok env id err prune check st c ev st' :
  fail historyLimit env id err prune check st = (Ok (c, ev), st') ->
  exists r, In r (commands st) /\ by_id id r = true /\ check r = Ok tt /\
    c = command (fst (fail_row (timestamp env) err r)) /\ ev = snd (fail_row (timestamp env) err r) /\
    exists ids ids', st' = with_inputs (forget ids')
      (delete_commands ids (update_row (fst (fail_row (timestamp env) err r)) st)).
Proof.
  intros Hr. unfold fail in Hr. unfold tx_bind at 1 in Hr.
  destruct (transitionTx _ _ _ _) as [[[[c' ev'] pruned]|e] s1] eqn:Ht; [|discriminate].
  unfold tx_bind in Hr. rewrite ForgetInputs_run in Hr. injection Hr as <- <- <-.
  apply transitionTx_ok in Ht as (row & Hin & Hid & Hb). exists row. repeat (split; [done|]).
  unfold tx_bind at 1, tx_lift in Hb. destruct (check row) as [[]|] eqn:Ck; [|discriminate].
  split; [done|].
  destruct (fail_row (timestamp env) err row) as [row' ev1] eqn:F.
  unfold tx_bind, updateTx, tx_modify in Hb. destruct prune.
  - rewrite pruneTx_run in Hb. injection Hb as <- <- <- <-. repeat (split; [done|]). eauto.
  - injection Hb as <- <- <- <-. repeat (split; [done|]). by exists [], [].
Qed.

Lemma backoff_value a : 1 <= a -> backoff a = second * 2 ^ Z.min a 5.
Proof.
  intros Ha. unfold backoff. destruct (a >? 5) eqn:E.
  - replace (Z.min a 5) with 5 by lia. done.
  - replace (Z.min a 5) with a by lia. rewrite Z.shiftl_1_l, int64_small; [done|].
    unfold is_int64, two63. assert (0 <= 2 ^ a <= 2 ^ 5); [|lia].
    split; [lia|]. apply Z.pow_le_mono_r; lia.
Qed.

Lemma backoff_grows a :
  (1 <= a <= 5 -> backoff a = second * 2 ^ a) /\ (5 < a -> second * 2 ^ 5 <= backoff a).
Proof. split; intros Ha; rewrite backoff_value by lia; [by rewrite Z.min_l by lia|by rewrite Z.min_r by lia]. Qed.

Lemma backoff_bounds a : 1 <= a -> 2 * second <= backoff a <= 32 * second.
Proof.
  intros Ha. rewrite backoff_value by done. unfold second.
  assert (2 ^ 1 <= 2 ^ Z.min a 5 <= 2 ^ 5); [|lia].
  split; apply Z.pow_le_mono_r; lia.
Qed.

(** ** Files, payloads and logs *)

Lemma delete_commands_payloads ids st p :
  In p (command_payloads (delete_commands ids st)) -> In p (command_payloads st).
Proof.
  unfold delete_commands. revert st. induction ids as [|id ids IH]; intros st; simpl; [done|].
  intros Hp%IH. simpl in Hp. by apply sql_delete_In in Hp as [? _].
Qed.

Lemma forget_None ids fs (k : string) : fs !! k = None -> forget ids fs !! k = None.
Proof.
  unfold forget. revert fs. induction ids as [|id ids IH]; intros fs Hk; simpl; [done|].
  apply IH. by rewrite !lookup_delete_None, Hk; auto.
Qed.

Lemma paths_differ id : legacyArtifactPath id <> artifactPath id.
Proof.
  intros E%(f_equal (fun s => length (bytes s))). unfold legacyArtifactPath, artifactPath in E.
  rewrite !bytes_app, !length_app in E. simpl in E. lia.
Qed.

Lemma stored_output_found purpose text rid id (t : list (string * Sealed)) :
  (forall k, ceq k rid = ceq k id) -> (exists p, In p t /\ ceq (fst p) rid = true) ->
  exists k, sql_first (fun p => ceq (fst p) id)
    (sql_update (fun p => ceq (fst p) rid) (fun p => (fst p, seal purpose text)) t)
  = Some (k, seal purpose text).
Proof.
  intros Hk (p & Hp & Hpk). destruct (sql_first _ _) as [q|] eqn:F.
  - apply sql_first_Some in F as [Hin Hq]. apply sql_update_In in Hin as (q0 & _ & ->).
    destruct (ceq (fst q0) rid) eqn:E; [eauto|]. by rewrite <- Hk, E in Hq.
  - apply (sql_first_None _ _ (fst p, seal purpose text)) in F.
    + simpl in F. by rewrite <- Hk, Hpk in F.
    + apply sql_update_In. exists p. by rewrite Hpk.
Qed.

Lemma substring_len n m s : (String.length (String.substring n m s) <= m)%nat.
Proof.
  revert n m. induction s as [|c s IH]; intros [|n] [|m]; simpl; try lia.
  - specialize (IH 0%nat m). lia.
  - apply IH.
  - apply IH.
Qed.

Lemma bounded_log_short log : len log <= MaxOutputBytes -> bounded_log log = log.
Proof. intros Hl. unfold bounded_log. by replace (len log >? MaxOutputBytes) with false by lia. Qed.

Lemma bounded_log_len log : len (bounded_log log) <= MaxOutputBytes + 21.
Proof.
  unfold bounded_log. destruct (len log >? MaxOutputBytes) eqn:E; [|lia]. cbv zeta. unfold len.
  rewrite <- length_bytes, !bytes_app, !length_app, !length_bytes.
  pose proof (substring_len 0 (Z.to_nat (MaxOutputBytes / 4)) log).
  pose proof (substring_len (Z.to_nat (len log - (MaxOutputBytes - MaxOutputBytes / 4)))
    (Z.to_nat (MaxOutputBytes - MaxOutputBytes / 4)) log).
  unfold MaxOutputBytes, len in *.
  change (262144 / 4) with 65536 in *. simpl String.length.
  lia.
Qed.

(** ** Uploads *)

Lemma submitArtifact_begin_ok env input st sub o st1 :
  unique_ids (commands st) -> random_ok env -> validateInput input true = Ok tt ->
  submitArtifact_begin env input st = (Ok (sub, o), st1) ->
  unique_ids (commands st1) /\
  ((o = None /\ sub_Created sub = false) \/
   exists rec q, o = Some rec /\ In (numbered q rec) (commands st1) /\ artifact rec = true /\
     commandIDPattern (row_id rec) = true).
Proof.
  intros Hu Hrnd Hv Hb.
  pose proof (submitArtifact_begin_quiet (fun _ => False) env input st _ st1 Hu Hrnd Hv Hb) as Hq.
  split; [by apply Hq|]. unfold submitArtifact_begin in Hb. unfold tx_bind at 1 in Hb.
  destruct (map_error _ _ _) as [[[[sub' o'] arts]|e] s1] eqn:M; [|discriminate].
  unfold tx_bind in Hb. rewrite ForgetInputs_run in Hb. injection Hb as <- <- <-.
  apply map_error_ok, WithTx_ok in M. unfold tx_bind at 1 in M.
  destruct (idempotentTx input true st) as [[[c|]|e] s0]; [left|right|discriminate].
  - by injection M as <- <- _ _.
  - rewrite lift_bind in M. destruct (newRecord env input true) as [rec|] eqn:Nr; [|discriminate].
    cbv zeta in M. unfold tx_bind at 1 in M. rewrite supersedeTx_run in M. unfold tx_bind at 1 in M.
    destruct (insertTx _ (in_Payload input) _) as [[[]|e] s2] eqn:Ins; [|discriminate].
    injection M as _ <- _ <-. apply insertTx_ok in Ins as (Hc & _).
    eexists _, _. split; [done|]. split; [simpl; rewrite Hc; apply in_or_app; right; by left|].
    unfold newRecord, newID in Nr. unfold random_ok in Hrnd.
    destruct (env_random env) as [bs|]; [|discriminate]. injection Nr as <-. destruct Hrnd.
    split; [done|]. by apply commandID_matches.
Qed.

Lemma writeArtifact_stored id limit data st st' :
  writeArtifact id limit (Ok data) st = (Ok None, st') ->
  st' = with_inputs (insert (artifactPath id) (mkFile true (seal (artifactPurpose id) data))) st.
Proof.
  unfold writeArtifact. destruct (_ || _); [discriminate|].
  destruct (len data >? limit); [discriminate|]. by intros [= <-].
Qed.

Lemma submitArtifact_finish_ok env id limit st c st' :
  submitArtifact_finish env id limit None st = (Ok c, st') ->
  exists row, In row (commands st) /\ by_id id row = true /\
    c = upload_stored (timestamp env) (command row) /\
    st' = update_row (with_command (upload_stored (timestamp env)) row) st.
Proof.
  intros Hf. unfold submitArtifact_finish in Hf. unfold tx_bind at 1 in Hf.
  destruct (map_error _ _ _) as [[[c'|]|e] s1] eqn:M; [|discriminate|discriminate].
  injection Hf as <- <-. apply map_error_ok, WithTx_ok in M. unfold tx_bind, lockRow, tx_gets in M.
  destruct (sql_first (by_id id) (commands st)) as [row|] eqn:F; [|discriminate].
  apply sql_first_Some in F as [Hin Hid]. injection M as <- <-. by exists row.
Qed.

(** ** Progress events *)

Definition events_of (id : string) (st : Store) : list CommandEvent :=
  sql_where (fun e => ceq (ev_CommandID e) id) (command_events st).

(** The events of a command are numbered from one without gaps. *)
Definition numbered_events (id : string) (st : Store) : Prop :=
  map ev_Sequence (events_of id st) = seqZ 1 (Z.of_nat (length (events_of id st))) /\
  Z.of_nat (length (events_of id st)) <= MaxCommandEvents.

Lemma bounded_evidence_len evidence : len (bounded_evidence evidence) <= 963.
Proof.
  unfold bounded_evidence. cbv zeta. set (s := TrimSpace evidence). unfold maxEvidenceRunes, len.
  destruct (_ >? _) eqn:E.
  - unfold string_of_runes. rewrite <- length_bytes, bytes_app, bytes_of_bytes, length_app, length_bytes.
    pose proof (concat_widths (take (Z.to_nat 240) (runes s))) as Hc.
    rewrite length_take in Hc. simpl String.length.
    assert (length (concat (take (Z.to_nat 240) (runes s))) <= 4 * (Z.to_nat 240 `min` length (runes s)))%nat; [|lia].
    apply Hc. intros r Hr. apply take_In in Hr. by eapply runes_aux_widths.
  - pose proof (runes_aux_bytes (String.length s) (bytes s)) as Hb. rewrite length_bytes in Hb.
    unfold runes in E. lia.
Qed.

End Facts.
