(* ===== verification/LedgerTheorems.v ===== *)
(** * Properties of the command ledger *)

From Stdlib Require Import ZArith Lia Bool Ascii String Sorting.
From stdpp Require Import base tactics list strings gmap relations.
From S2P Require Import Prelude GoStrings Sqlstore Diagnostics Ledger LedgerRows LedgerOps LedgerSteps LedgerExclusion LedgerFacts.

Local Open Scope string_scope.
Local Open Scope list_scope.
Local Open Scope bool_scope.
Local Open Scope Z_scope.

Section Properties.
Context `{Collation} `{Platform} (historyLimit : Z).

(** ** Every reachable ledger *)

(** C37. Whatever sequence of calls the ledger has served, ids are unique and
    each row has a valid id, a limit of one to eight attempts, an authority epoch
    of at least one, one of the seven states the ledger uses, a scheduled retry
    only if it opted in, has attempts left and a next attempt, and nothing but
    the outcome once it succeeded.  A row whose upload did not end late, that is
    after its command had stopped waiting for it, is moreover well formed: no
    more attempts used than the limit, none while queued and at least one in
    flight, and a lease deadline only in flight.  Assumed is that the collation
    tells the upload marker from the ledger's other messages. *)
Theorem reachable_rows_wf  (allowed : call -> bool) (st : Store) (late_uploads : list string) :
  marker_distinct -> reachable historyLimit allowed st late_uploads ->
  unique_ids (commands st) /\
  forall r, In r (commands st) -> row_basic r /\ (untouched late_uploads r -> row_wf r).
Proof. intros Hd Hr. by eapply reachable_ledger_wf. Qed.

(** C1. One command is in flight at a time: in a ledger whose commands are
    started by [ClaimDue] at most one command is leased, preparing or running,
    whatever submissions, uploads that end early or late, failures, retries,
    fences, recoveries, prunings and lost acknowledgements happened in between.
    This is about the ledger: an upload that ends late takes a running command
    out of flight there while its execution goes on. *)
Theorem one_command_at_a_time  (st : Store) (late_uploads : list string) (r1 r2 : commandRow) :
  reachable historyLimit claims_only st late_uploads ->
  In r1 (commands st) -> In r2 (commands st) ->
  in_flight (row_state r1) = true -> in_flight (row_state r2) = true -> r1 = r2.
Proof. intros [_ Hx]%reachable_claim_exclusive ? ? ? ?. by apply Hx. Qed.

(** C2. An agent holds one lease at a time: in a ledger whose commands are
    started by [LeaseDue] at most one command of each server is leased, preparing
    or running, whatever other calls are interleaved, uploads that end late and
    lost acknowledgements included. *)
Theorem one_lease_per_server  (st : Store) (late_uploads : list string) (r1 r2 : commandRow) :
  reachable historyLimit leases_only st late_uploads ->
  In r1 (commands st) -> In r2 (commands st) ->
  in_flight (row_state r1) = true -> in_flight (row_state r2) = true ->
  ceq (ServerID (command r1)) (ServerID (command r2)) = true -> r1 = r2.
Proof. intros Hx%reachable_lease_exclusive ? ? ? ? ?. by apply Hx. Qed.

(** C3. The transactional code refines a state machine per command: after any
    call, whatever it reports, each row is a row from before moved along the
    lifecycle ([row_step]: claim, lease, expire, advance, renew, succeed, fail,
    fence, recover, retry, and the end of an upload) or a fresh submission, and
    each row from before is still there, moved along the lifecycle, unless it
    ended superseded before it started or succeeded and pruned.  No call loses a
    command in any other state.  The end of an upload moves only the command it
    names, and that one in whatever state it is: it queues or parks a command
    that already runs or has finished just as one that waits for it. *)
Theorem ledger_refines_lifecycle  (allowed : call -> bool)
    (st : Store) (late_uploads : list string) (c : call) :
  reachable historyLimit allowed st late_uploads -> typed c ->
  (forall r', In r' (commands (exec historyLimit c st)) ->
     exists r, (In r (commands st) \/ fresh r) /\ rtc (row_step c st) r r') /\
  (forall r, In r (commands st) ->
     exists r', rtc (row_step c st) r r' /\ row_id r' = row_id r /\
       (In r' (commands (exec historyLimit c st)) \/ supersedable r' = true \/ row_state r' = Succeeded)).
Proof.
  intros Hr Ha. pose proof (exec_evolves historyLimit c st (reachable_unique _ _ _ _ Hr) Ha) as He.
  split; [apply He|]. intros r Hin. destruct (ev_forth _ _ _ _ _ He r Hin) as (r' & Hs & Hd).
  exists r'. repeat split; [done| |done]. by eapply rtc_row_step_id.
Qed.

(** ** Submitting *)

(** A lost response is safe to repeat: submitting the same input again, right
    after a submission that was accepted, returns the command already created,
    reports it as not created and leaves the whole ledger as it is. *)
Theorem resubmission_is_idempotent (env env' again again' : Env) (input : SubmitInput)
    (st st' : Store) (sub : Submission) :
  unique_ids (commands st) ->
  SubmitWithResult historyLimit env env' input st = (Ok sub, st') -> sub_Created sub = true ->
  env_verdicts again = [] ->
  SubmitWithResult historyLimit again again' input st' =
    (Ok (mkSubmission (sub_Command sub) false []), st').
Proof.
  intros Hu Hs Hc Hv. pose proof Hs as (Hval & e & cl & s & _ & Hs' & ->)%SubmitWithResult_ok.
  destruct (submitTx_submitted _ _ _ _ _ _ _ Hu Hs' Hc) as [new Hsub].
  assert (forall r, In r (commands st) -> key_matches input r = false) as Hnone.
  { apply submitTx_ok in Hs' as [(c & _ & _ & -> & _)|(rec & s1 & s2 & Hi & _)]; [discriminate Hc|].
    by apply idempotentTx_none in Hi as [_ ?]. }
  unfold SubmitWithResult. rewrite lift_bind, Hval. unfold submit. rewrite Hv.
  assert (submitTx historyLimit again input (with_inputs (forget cl) s) =
    (Ok (mkSubmission (sub_Command sub) false [], []), with_inputs (forget cl) s)) as Hrun.
  { unfold submitTx. unfold tx_bind at 1. rewrite (idempotentTx_hit input _ new).
    - by rewrite (sb_command _ _ _ _ _ Hsub).
    - by eapply validateInput_json.
    - apply Hsub.
    - apply Hsub.
    - intros r Hr Hm. destruct (sb_new _ _ _ _ _ Hsub r Hr) as [->|Hin]; [done|].
      by rewrite Hnone in Hm. }
  rewrite WithTx_clean, Hrun. unfold finish, tx_bind. rewrite ForgetInputs_run. simpl.
  by destruct s.
Qed.

(** The newest request wins and nothing else is lost: a submission that
    creates a command replaces exactly the unstarted commands for the same
    action, server and target, which it reports; the only other rows it may
    remove are succeeded ones beyond the history limit; and the new command is
    then the only one for its action, server and target still to be started. *)
Theorem submission_supersedes_unstarted (env env' : Env) (input : SubmitInput) (st st' : Store)
    (sub : Submission) :
  unique_ids (commands st) ->
  SubmitWithResult historyLimit env env' input st = (Ok sub, st') -> sub_Created sub = true ->
  exists new, In new (commands st') /\ command new = sub_Command sub /\ row_state new = Queued /\
    (forall r, In r (commands st) -> supersedable r = true -> supersede_candidate input r = true ->
       In (command r) (sub_Superseded sub) /\ ~ In r (commands st')) /\
    (forall r, In r (commands st) -> ~ In r (commands st') ->
       (supersedable r = true /\ supersede_candidate input r = true) \/ row_state r = Succeeded) /\
    (forall r, In r (commands st') -> supersedable r = true -> supersede_candidate input r = true -> r = new).
Proof.
  intros Hu Hs Hc. pose proof (SubmitWithResult_submitted _ _ _ _ _ _ _ Hu Hs Hc) as [new Hsub].
  pose proof (submitted_new_not_old _ _ _ _ _ _ _ Hu Hs Hc new Hsub) as Hnotold.
  exists new. destruct Hsub as [Hin Hcmd Hnew Hsuper Hlost Hlist (q & e & rec & Hn & E)].
  assert (forall r, In r (commands st) -> supersedable r = true -> supersede_candidate input r = true ->
            In r (superseded_rows input st)) as Hsel.
  { intros r Hr Hs1 Hc1. unfold superseded_rows. rewrite filter_In. split; [|done].
    by apply order_by_In, sql_where_In. }
  repeat split; try done.
  - rewrite E. by apply newRecord_state in Hn.
  - rewrite Hlist. apply in_map. auto.
  - intros Hr'. apply (Hsuper r); auto. by intros ->.
  - intros r Hr Hno. destruct (Hlost r Hr Hno) as [Hsr|Hsr]; [left|by right].
    by apply superseded_rows_In in Hsr as (_ & ? & ?).
  - intros r Hr Hs1 Hc1. destruct (decide (r = new)) as [|Hne]; [done|].
    destruct (Hnew r Hr) as [|Hold]; [done|]. destruct (Hsuper r Hr Hne). auto.
Qed.

(** ** History *)

(** Pruning keeps exactly the newest finished commands: afterwards at most
    [historyLimit] of them remain (all of them when there were fewer), every one
    that was removed is older than every one that was kept, and no row in any
    other state is touched. *)
Theorem prune_keeps_newest (st : Store) :
  unique_ids (commands st) -> 0 <= historyLimit ->
  let st' := snd (pruneTx historyLimit st) in
  Z.of_nat (length (succeeded_rows st')) = Z.min (Z.of_nat (length (succeeded_rows st))) historyLimit /\
  (forall r k, In r (succeeded_rows st) -> ~ In r (commands st') -> In k (succeeded_rows st') -> seq r <= seq k) /\
  (forall r, row_state r <> Succeeded -> In r (commands st') <-> In r (commands st)).
Proof.
  intros Hu Hl. rewrite pruneTx_run. simpl. pose proof (pruned_split historyLimit st Hu) as Hp. simpl in Hp.
  split; [|split].
  - rewrite Hp, length_drop, (order_by_perm seq_key). lia.
  - intros r k Hr Hno Hk. rewrite <- list_elem_of_In, Hp, list_elem_of_In in Hk.
    apply (pruned_older historyLimit st r k Hu Hr Hno Hk).
  - intros r Hs. rewrite delete_commands_In. split; [by intros [? _]|]. intros Hr. split; [done|].
    intros id (x & <- & Hx)%in_map_iff. unfold by_id.
    destruct (ceq (row_id r) (row_id x)) eqn:E; [|done].
    apply pruned_rows_In in Hx as [Hxin Hxs]. destruct Hs.
    by rewrite (unique_eq _ r x Hu Hr Hxin E).
Qed.

(** ** Scheduling *)

(** The scheduler is fair and work-conserving: what [ClaimDue] starts is a due
    command that no other due, unlocked command precedes in creation order, it
    starts it as running with one more attempt and only when nothing is running,
    and whenever nothing is running and some due command is unlocked and
    readable it does start one. *)
Theorem ClaimDue_oldest_due_first (env : Env) (st : Store) :
  (forall rec st', ClaimDue env st = (Ok (Some rec), st') ->
     exists row, In row (commands st) /\ runnable (timestamp env) row = true /\
       (forall r, In r (commands st) -> row_state r <> Running) /\
       (forall r, In r (commands st) -> runnable (timestamp env) r = true -> env_locked env (row_id r) = false ->
          lex_le (created_key row) (created_key r) = true) /\
       rec_Command rec = command (claim_row (timestamp env) row) /\
       State (rec_Command rec) = Running /\ Attempt (rec_Command rec) = uint64_of (Attempt (command row) + 1) /\
       st' = started (claim_row (timestamp env) row) st) /\
  (forall r, env_verdicts env = [] -> (forall x, In x (commands st) -> row_state x <> Running) ->
     (forall x, In x (commands st) -> payload_readable st x) ->
     In r (commands st) -> runnable (timestamp env) r = true -> env_locked env (row_id r) = false ->
     exists rec st', ClaimDue env st = (Ok (Some rec), st')).
Proof.
  split.
  - intros rec st' Hc. apply ClaimDue_run in Hc as [[_ Hno]|(row & p & Hn & O & Hans & ->)];
      [by destruct (Hno rec)|]. destruct Hans as [[= ->]|[e [=]]].
    apply oldest_Some in O as (Hin & Hr & _ & Hmin). exists row. by repeat split.
  - intros r. apply ClaimDue_starts.
Qed.

(** ** Leases *)

(** A lease is a capability that settles at most once: completing or failing
    a leased command needs the lease its row carries while in flight, and once
    either has succeeded every further use of that lease, to advance, renew,
    complete or fail, is refused and changes nothing. *)
Theorem lease_settles_once (env : Env) (id lease : string) (st st' : Store) :
  unique_ids (commands st) ->
  (exists c, CompleteLease historyLimit env id lease st = (Ok c, st')) \/
  (exists err c ev, FailLease historyLimit env id lease err st = (Ok (c, ev), st')) ->
  (exists r, In r (commands st) /\ by_id id r = true /\ leaseID r = lease /\ lease <> "" /\
     in_flight (row_state r) = true) /\
  forall later ttl s err,
    (exists e, CompleteLease historyLimit later id lease st' = (Err e, st')) /\
    (exists e, FailLease historyLimit later id lease err st' = (Err e, st')) /\
    (exists e, AdvanceLease later id lease s st' = (Err e, st')) /\
    (exists e, RenewLease later id lease ttl st' = (Err e, st')).
Proof.
  intros Hu Hs.
  assert ((exists r, In r (commands st) /\ by_id id r = true /\ lease_check lease r = Ok tt) /\
          lease_dead id lease st') as [(r & Hin & Hid & (Hl & Hn & Hf)%lease_check_valid) Hd].
  { destruct Hs as [[c Hs]|(err & c & ev & Hs)].
    - apply succeed_ok in Hs as (r & s2 & ids & Hin & Hid & Hck & _ & -> & ->). split; [by exists r|].
      intros x Hx. simpl in Hx. revert x Hx. apply lease_dead_delete.
      apply (update_kills_lease _ _ _ r); [exact Hu|exact Hin| |exact Hid|reflexivity].
      apply (settles_mutable (fun _ => False)), st_succeed. by eapply lease_check_in_flight.
    - apply fail_ok in Hs as (r & Hin & Hid & Hck & _ & _ & ids & ids' & ->). split; [by exists r|].
      intros x Hx. simpl in Hx. revert x Hx. apply lease_dead_delete.
      apply (update_kills_lease _ _ _ r); [exact Hu|exact Hin| |exact Hid|].
      + apply (settles_mutable (fun _ => False)), st_fail. by eapply lease_check_in_flight.
      + unfold fail_row. by destruct (_ && _ && _). }
  split; [by exists r|]. intros later ttl s err.
  auto using dead_lease_complete, dead_lease_fail, dead_lease_advance, dead_lease_renew.
Qed.

(** ** Authority and recovery *)


(** After a restart nothing is in flight and nothing is guessed: every command
    that was leased, preparing or running is parked for attention as interrupted
    with its lease gone, an interrupted upload is queued exactly when its
    complete sealed input is on disk, and every other row is untouched. *)
Theorem recover_parks_interrupted_work (env : Env) (st st' : Store) :
  unique_ids (commands st) -> Recover env st = (Ok tt, st') ->
  (forall r', In r' (commands st') -> in_flight (row_state r') = false) /\
  (forall r', In r' (commands st') ->
     In r' (commands st) \/
     (row_state r' = NeedsAttention /\ FailureCode (command r') = "execution_interrupted" /\
        leaseID r' = "" /\ LeaseExpiresAt (command r') = None /\ NextAttemptAt (command r') = None) \/
     (exists r, interrupted_upload r = true /\ row_id r' = row_id r /\
        row_state r' = match protectedArtifactFile (artifactPath (row_id r)) (inputs st) with
                       | Ok true => Queued | _ => NeedsAttention end)).
Proof.
  intros Hu Hr.
  assert (forall r s, interrupted_upload r = true -> inputs s = inputs st ->
    row_state (recover_upload (timestamp env) s r) =
    match protectedArtifactFile (artifactPath (row_id r)) (inputs st) with
    | Ok true => Queued | _ => NeedsAttention end) as Hup.
  { intros r s Hi Hs. unfold recover_upload, encryptedArtifactPresent. rewrite Hs.
    apply andb_true_iff in Hi as [[[Hi _]%andb_true_iff _]%andb_true_iff _].
    apply bool_decide_eq_true in Hi.
    by destruct (protectedArtifactFile _ _) as [[]|]; simpl. }
  split; intros r' Hin;
    destruct (Recover_rows _ _ _ _ Hu Hr Hin) as [(r & s & Hi & Hs & ->)|[(r & Hir & Hf & ->)|(Hir & Hf & _)]];
    try done.
  - rewrite (Hup r s Hi Hs). by destruct (protectedArtifactFile _ _) as [[]|].
  - right; right. exists r. split; [done|]. split; [|by apply Hup].
    unfold recover_upload. by destruct (encryptedArtifactPresent _ _) as [[]|].
  - right; left. repeat split.
  - by left.
Qed.

(** ** Settling *)


(** Success leaves nothing but the outcome: once [Complete] has succeeded, the
    command's sealed payload is gone, its input files are gone, and its row, if
    it is still kept, is succeeded without an artifact, a payload digest or a
    lease. *)
Theorem completion_forgets_the_input (env : Env) (id : string) (st st' : Store) (c : Command) :
  unique_ids (commands st) -> Complete historyLimit env id st = (Ok c, st') ->
  exists r, In r (commands st) /\ by_id id r = true /\ row_state r = Running /\
    (forall p, In p (command_payloads st') -> ceq (fst p) (row_id r) = false) /\
    (artifact r = true -> inputs st' !! artifactPath id = None /\ inputs st' !! legacyArtifactPath id = None) /\
    (forall r', In r' (commands st') -> by_id id r' = true ->
       row_state r' = Succeeded /\ artifact r' = false /\ payloadDigest r' = "" /\ leaseID r' = "").
Proof.
  intros Hu Hc. apply succeed_ok in Hc as (r & s2 & ids & Hin & Hid & Hck & _ & E & ->).
  exists r. split; [done|]. split; [done|]. split; [by unfold running_check in Hck; destruct (row_state r)|].
  split; [|split].
  - intros p Hp. simpl in Hp. apply delete_commands_payloads in Hp. rewrite E in Hp. simpl in Hp.
    by apply sql_delete_In in Hp as [_ ?].
  - intros ->. simpl. rewrite delete_commands_inputs, E. simpl.
    split; apply forget_None; [rewrite lookup_delete_ne by apply paths_differ|]; apply lookup_delete_eq.
  - intros r' Hr' Hid'. simpl in Hr'. apply delete_commands_In in Hr' as [Hr' _]. rewrite E in Hr'.
    apply (update_row_In _ r) in Hr'; [|done|done|].
    + destruct Hr' as [->|[Hr' Hne]]; [done|]. destruct Hne. unfold by_id in *.
      eapply unique_eq; [exact Hu|done|done|]. rewrite ceq_sym_eq in Hid. by eapply ceq_trans.
    + apply (settles_mutable (fun _ => False)), st_succeed. by apply running_check_in_flight.
Qed.

(** ** Logs *)

(** A retained log reads back: when [RetainOutput] has stored a log, [Output]
    returns it, cut to its head and tail with a mark between them when it is
    over the limit, so that no stored log exceeds 256 KiB by more than that
    mark, and a log within the limit comes back byte for byte. *)
Theorem retained_output_reads_back (env : Env) (id log : string) (st st' : Store) :
  TrimSpace log <> "" -> RetainOutput env id log st = (Ok tt, st') ->
  Output id st' = (Ok (bounded_log log), st') /\
  len (bounded_log log) <= MaxOutputBytes + 21 /\
  (len log <= MaxOutputBytes -> bounded_log log = log).
Proof.
  intros Hne Hr. split; [|split; [apply bounded_log_len|by apply bounded_log_short]].
  unfold RetainOutput in Hr. destruct (TrimSpace log =? "")%string eqn:E;
    [by apply String.eqb_eq in E|].
  destruct (commandIDPattern (TrimSpace id)) eqn:P; [|discriminate]. cbn [negb] in Hr. cbv zeta in Hr.
  apply transitionTx_ok in Hr as (row & Hin & Hid & Hr). injection Hr as <-.
  unfold Output. rewrite P. cbn [negb]. unfold tx_bind, tx_gets. simpl.
  assert (forall k, ceq k (row_id row) = ceq k id) as Hk.
  { intros k. rewrite !(ceq_sym_eq k). apply ceq_congr_l. exact Hid. }
  destruct (sql_exists _ (command_outputs st)) eqn:X.
  - apply sql_exists_true in X as (p & Hp & Hpk).
    destruct (stored_output_found (outputPurpose id) (bounded_log log) (row_id row) id (command_outputs st)) as [q Hq];
      [done|eauto|]. rewrite Hq. unfold open_sealed. simpl. by rewrite String.eqb_refl.
  - rewrite (sql_first_unique _ _ (row_id row, seal (outputPurpose id) (bounded_log log))).
    + unfold open_sealed. simpl. by rewrite String.eqb_refl.
    + apply in_or_app. right. by left.
    + simpl. by rewrite <- Hk, ceq_refl.
    + intros x [Hx|[<-|[]]]%in_app_or Hxk; [|done].
      apply (sql_exists_false _ _ x X) in Hx. cbv beta in Hx. rewrite Hk in Hx. congruence.
Qed.

(** ** Uploads and progress *)

(** An accepted upload is complete: when [SubmitArtifactWithResult] creates a
    command, the command is queued and [Artifact] returns exactly the bytes that
    were uploaded. *)
Theorem uploaded_artifact_reads_back (env env' : Env) (input : SubmitInput) (data : string)
    (st st' : Store) (sub : Submission) :
  unique_ids (commands st) -> random_ok env ->
  SubmitArtifactWithResult env env' input (Some (Ok data)) st = (Ok sub, st') -> sub_Created sub = true ->
  State (sub_Command sub) = Queued /\ LastError (sub_Command sub) = "" /\
  Artifact (ID (sub_Command sub)) st' = (Ok data, st').
Proof.
  intros Hu Hrnd Hs Hc. unfold SubmitArtifactWithResult in Hs. rewrite lift_bind in Hs.
  destruct (validateInput input true) as [[]|] eqn:V; [|discriminate]. unfold tx_bind at 1 in Hs.
  destruct (submitArtifact_begin env input st) as [[[sub0 o]|] s1] eqn:B; [|discriminate].
  destruct (submitArtifact_begin_ok _ _ _ _ _ _ Hu Hrnd V B)
    as [Hu1 [[-> Hcr]|(rec & q & -> & Hin & Hart & Hpat)]].
  { injection Hs as <- <-. congruence. }
  unfold tx_bind at 1 in Hs. destruct (writeArtifact _ _ _ s1) as [[[werr|]|] s2] eqn:W; [| |discriminate].
  { unfold tx_bind, submitArtifact_finish in Hs. unfold tx_bind in Hs.
    destruct (map_error _ _ _) as [[[]|] ?]; discriminate. }
  apply writeArtifact_stored in W as ->. unfold tx_bind at 1 in Hs.
  destruct (submitArtifact_finish _ _ _ _ _) as [[c|] s3] eqn:Fn; [|discriminate].
  injection Hs as <- <-. apply submitArtifact_finish_ok in Fn as (row & Hr & Hid & -> & ->).
  simpl in Hr. assert (row = numbered q rec) as ->.
  { apply (unique_eq (commands s1)); [done..|]. exact Hid. }
  set (row' := with_command (upload_stored (timestamp env')) (numbered q rec)).
  set (s2 := with_inputs _ s1).
  assert (row_id row' = row_id rec) as Eid by done.
  assert (unique_ids (commands s2)) as Hu2 by done.
  assert (sql_first (by_id (row_id rec)) (commands (update_row row' s2)) = Some row') as Hfind.
  { apply sql_first_unique.
    - apply (update_row_In s2 (numbered q rec)); [done|done|done|by left].
    - unfold by_id. by rewrite Eid, ceq_refl.
    - intros x Hx Hxid. apply (unique_eq (commands (update_row row' s2))); [by apply update_row_unique|done| |done].
      apply (update_row_In s2 (numbered q rec)); [done|done|done|by left]. }
  repeat (split; [done|]). simpl sub_Command. change (ID (upload_stored _ _)) with (row_id rec).
  unfold Artifact, Get. rewrite (commandID_trim _ Hpat), Hpat. cbn [negb].
  unfold tx_bind, lockRow, tx_gets, tx_ret. rewrite Hfind.
  change (ID (command row')) with (row_id rec). rewrite Hfind.
  change (artifact row') with (artifact rec). rewrite Hart. cbn [negb].
  unfold encryptedArtifactPresent, protectedArtifactFile. simpl inputs. rewrite lookup_insert_eq.
  cbn [owner_only contents]. unfold open_sealed. simpl. by rewrite String.eqb_refl.
Qed.

(** The progress trail of an attempt is bounded and gap-free: starting a
    command clears its events, an appended event gets the next number, the
    sixty-fifth is dropped, every evidence text fits its column, and the trails
    of other commands are not touched. *)
Theorem progress_events_bounded (env : Env) (id evidence : string) (s : CommandState) (st st' : Store) :
  AppendEvent env id s evidence st = (Ok tt, st') ->
  exists row, In row (commands st) /\ by_id id row = true /\
    (numbered_events (row_id row) st -> numbered_events (row_id row) st') /\
    (forall other, ceq other (row_id row) = false -> events_of other st' = events_of other st) /\
    (forall e, In e (events_of (row_id row) st') -> In e (events_of (row_id row) st) \/ len (ev_Evidence e) <= 1024) /\
    (forall fresh_row, row_id fresh_row = row_id row -> events_of (row_id row) (started fresh_row st') = []).
Proof.
  intros Ha. apply transitionTx_ok in Ha as (row & Hin & Hid & Hf). exists row. split; [done|]. split; [done|].
  unfold tx_bind, tx_gets in Hf.
  assert (forall fr s0, row_id fr = row_id row -> events_of (row_id row) (started fr s0) = []) as Hclear.
  { intros fr s0 Hfr. unfold events_of, started, sql_where. simpl. rewrite Hfr. apply filter_delete_nil. }
  destruct (_ >=? _) eqn:B; injection Hf as <-; [repeat split; auto; apply H1|].
  fold (sql_count (fun e => ceq (ev_CommandID e) (row_id row)) (command_events st)) in B.
  assert (sql_count (fun e => ceq (ev_CommandID e) (row_id row)) (command_events st) =
          Z.of_nat (length (events_of (row_id row) st))) as Hcount by done.
  rewrite Hcount in *.
  set (ev := mkEvent _ _ _ _ _).
  assert (events_of (row_id row) (with_events (fun t => t ++ [ev]) st) = events_of (row_id row) st ++ [ev]) as Hev.
  { unfold events_of, sql_where. simpl. rewrite List.filter_app. simpl. by rewrite ceq_refl. }
  repeat split.
  - rewrite Hev, map_app, length_app. destruct H1 as [-> _]. simpl.
    rewrite Nat2Z.inj_add, seqZ_app by lia. f_equal. simpl. unfold seqZ. simpl. f_equal. lia.
  - rewrite Hev, length_app. simpl. lia.
  - intros other Ho. unfold events_of, sql_where. simpl. rewrite List.filter_app. simpl.
    by rewrite ceq_sym_eq, Ho, app_nil_r.
  - rewrite Hev. intros e [He|[<-|[]]]%in_app_or; [by left|right]. simpl.
    pose proof (bounded_evidence_len evidence). lia.
  - auto.
Qed.

End Properties.
