(* ===== verification/Worker.v ===== *)
(** * internal/queue/worker.go: the loop that executes commands

    One turn of [Worker.Run] is [turn]: it checks the context and
    [CanExecute], claims, executes and settles one command.  What the turn
    meets outside the ledger (the context, the executor, the clock and the
    database at each store call) is its [World].  The executor is a parameter:
    a function from the claimed record to its error. *)

From Stdlib Require Import ZArith Lia Bool Ascii String Sorting.
From stdpp Require Import base tactics list strings gmap relations.
From S2P Require Import Prelude GoStrings Sqlstore Diagnostics Ledger LedgerRows LedgerOps LedgerSteps LedgerExclusion LedgerFacts.

Local Open Scope string_scope.
Local Open Scope list_scope.
Local Open Scope bool_scope.
Local Open Scope Z_scope.
Local Open Scope tx_scope.

Definition defaultStoreRetryAttempts : Z := 5.
Definition defaultExecutionTimeout : Z := 10 * minute.

(** The tries of one store operation: what each reads from outside, and whether
    the worker's context ended while it waited for the next. *)
Definition Tries : Type := nat -> Env * bool.

Record World := mkWorld {
  ctx_ended : bool;                          (* ctx.Err() at the top of the loop *)
  CanExecute : option bool;                  (* nil, or what it answers *)
  claim_tries : Tries;
  Execute : Record_ -> option ExecError;
  ExecutionTimeout : option (Command -> Z);
  execution_ended : bool;                    (* cancelled or past the deadline *)
  settle_tries : Tries }.

Inductive Event := EvRunning | EvSucceeded | EvFailed (e : FailEvent).

(** How a turn ends when it does not stop the worker with an error. *)
Inductive outcome :=
| Stopped                                    (* the context ended *)
| Waited                                     (* not allowed to execute, or nothing due *)
| Executed (record : Record_) (timeout : Z) (trace : list (Command * Event)).

Section Worker.
Context `{Collation} `{Platform} (historyLimit : Z).
Context (StoreRetryAttempts : Z).

Definition retry_attempts : nat :=
  Z.to_nat (if StoreRetryAttempts <=? 0 then defaultStoreRetryAttempts else StoreRetryAttempts).

(** The remaining attempts of [storeRetry], the first of them numbered [k]. *)
Fixpoint retries {A : Type} (left k : nat) (tries : Tries) (run : Env -> tx Store qerr A) : tx Store qerr A :=
  fun st =>
  match run (fst (tries k)) st with
  | (Ok a, st') => (Ok a, st')
  | (Err e, st') =>
      match left with
      | O => (Err e, st')
      | S left' => if snd (tries k) then (Err e, st') else retries left' (S k) tries run st'
      end
  end.

Definition storeRetry {A : Type} (tries : Tries) (run : Env -> tx Store qerr A) : tx Store qerr A :=
  retries (pred retry_attempts) 0 tries run.

Definition timeout_of (w : World) (c : Command) : Z :=
  match ExecutionTimeout w with
  | Some f => if f c >? 0 then f c else defaultExecutionTimeout
  | None => defaultExecutionTimeout
  end.

(** The error a turn settles with: an execution whose context ended is a
    permanent failure, whatever the executor returned. *)
Definition execution_error (w : World) (record : Record_) : option ExecError :=
  if execution_ended w
  then PermanentError (errors_New "command execution ended before completion")
  else Execute w record.

(** The execution of a claimed record and the transition that settles it. *)
Definition settle (w : World) (record : Record_) : tx Store qerr outcome :=
  let id := ID (rec_Command record) in
  let timeout := timeout_of w (rec_Command record) in
  match execution_error w record with
  | None =>
      c <- storeRetry (settle_tries w) (fun env => Complete historyLimit env id) ;;
      tx_ret (Executed record timeout [(rec_Command record, EvRunning); (c, EvSucceeded)])
  | Some e =>
      out <- storeRetry (settle_tries w) (fun env => Fail_ historyLimit env id (Some e)) ;;
      tx_ret (Executed record timeout [(rec_Command record, EvRunning); (fst out, EvFailed (snd out))])
  end.

Definition claim_and_settle (w : World) : tx Store qerr outcome :=
  claimed <- storeRetry (claim_tries w) ClaimDue ;;
  match claimed with
  | None => tx_ret Waited
  | Some record => settle w record
  end.

Definition turn (w : World) : tx Store qerr outcome :=
  if ctx_ended w then tx_ret Stopped
  else match CanExecute w with
       | Some false => tx_ret Waited
       | _ => claim_and_settle w
       end.

(** [Run]: turns until the context ends or a store operation fails for good. *)
Fixpoint Run (ws : list World) : tx Store qerr (list outcome) :=
  match ws with
  | [] => tx_ret []
  | w :: rest =>
      o <- turn w ;;
      match o with
      | Stopped => tx_ret [Stopped]
      | _ => os <- Run rest ;; tx_ret (o :: os)
      end
  end.

(** ** Lemmas *)

(** Retrying an operation that leaves the ledger alone when it fails is the one
    run that ended it. *)
Lemma retries_run {A} left k tries (run : Env -> tx Store qerr A) st r st' :
  (forall n s e s', run (fst (tries n)) s = (Err e, s') -> s' = s) ->
  retries left k tries run st = (r, st') -> exists env, run env st = (r, st').
Proof.
  intros Hrun. revert k st. induction left as [|left IH]; intros k st; simpl;
    destruct (run (fst (tries k)) st) as [[a|e] s1] eqn:R; try (intros [= <- <-]; by eexists).
  destruct (snd (tries k)); [intros [= <- <-]; by eexists|].
  rewrite (Hrun _ _ _ _ R). apply IH.
Qed.

(** No acknowledgement is lost in these tries. *)
Definition tries_acknowledged (tries : Tries) : Prop := forall n, acknowledged (env_verdicts (fst (tries n))).

Lemma ClaimDue_err env st e st' : acknowledged (env_verdicts env) -> ClaimDue env st = (Err e, st') -> st' = st.
Proof. intros Hv (e' & Hr & _)%map_error_err. by eapply WithTx_err_acknowledged. Qed.

Lemma Complete_err env id st e st' :
  acknowledged (env_verdicts env) -> Complete historyLimit env id st = (Err e, st') -> st' = st.
Proof.
  intros Hv. unfold Complete, succeed. unfold tx_bind at 1.
  destruct (transitionTx _ _ _ _) as [[[[c had] pruned]|e'] s1] eqn:T.
  - unfold tx_bind. destruct had; simpl; rewrite ForgetInputs_run; discriminate.
  - intros [= _ <-]. by eapply transitionTx_err_acknowledged.
Qed.

Lemma Fail_err env id err st e st' :
  acknowledged (env_verdicts env) -> Fail_ historyLimit env id err st = (Err e, st') -> st' = st.
Proof.
  intros Hv. unfold Fail_, fail. unfold tx_bind at 1.
  destruct (transitionTx _ _ _ _) as [[[[c ev] pruned]|e'] s1] eqn:T.
  - unfold tx_bind. rewrite ForgetInputs_run. discriminate.
  - intros [= _ <-]. by eapply transitionTx_err_acknowledged.
Qed.

(** Among the rows of a ledger where nothing ran before a claim, settling the
    claimed row leaves nothing running. *)
Definition idle (st : Store) : Prop := forall r, In r (commands st) -> row_state r <> Running.

Lemma settle_idle env st row id row' ids :
  unique_ids (commands st) -> idle st -> In row (commands st) -> runnable (timestamp env) row = true ->
  let s1 := started (claim_row (timestamp env) row) st in
  forall r, In r (commands s1) -> by_id id r = true -> row_state r = Running ->
  mutable_only r row' -> row_state row' <> Running ->
  forall s2, commands s2 = commands s1 -> idle (delete_commands ids (update_row row' s2)).
Proof.
  intros Hu Hidle Hin Hrun s1 r Hr Hid Hrr Hm Hnr s2 Hs2 x [Hx _]%delete_commands_In.
  assert (mutable_only row (claim_row (timestamp env) row)) as Hmc by by apply claims_mutable, st_claim.
  assert (unique_ids (commands s1)) as Hu1 by (unfold s1; rewrite started_commands; by apply update_row_unique).
  assert (forall y, In y (commands s1) -> row_state y = Running -> y = claim_row (timestamp env) row) as Hone.
  { intros y Hy Hyr. apply (started_In st row) in Hy; [|done..].
    destruct Hy as [->|[Hy _]]; [done|]. by destruct (Hidle y Hy). }
  assert (unique_ids (commands s2)) as Hu2 by by rewrite Hs2.
  assert (In r (commands s2)) as Hr2 by by rewrite Hs2.
  apply (update_row_In s2 r) in Hx; [|done..]. destruct Hx as [->|[Hx Hne]]; [done|].
  intros Hxr. destruct Hne. rewrite Hs2 in Hx. by rewrite (Hone x Hx Hxr), (Hone r Hr Hrr).
Qed.

Lemma running_check_ok r : running_check r = Ok tt -> row_state r = Running.
Proof. unfold running_check. by destruct (row_state r). Qed.

(** The claimed row is the only one its id finds. *)
Lemma claimed_row env st row r :
  unique_ids (commands st) -> In row (commands st) -> runnable (timestamp env) row = true ->
  let s1 := started (claim_row (timestamp env) row) st in
  In r (commands s1) -> by_id (row_id row) r = true -> r = claim_row (timestamp env) row.
Proof.
  intros Hu Hin Hrun s1 Hr Hid.
  assert (mutable_only row (claim_row (timestamp env) row)) as Hm by by apply claims_mutable, st_claim.
  apply (unique_eq (commands s1)); [unfold s1; rewrite started_commands; by apply update_row_unique|done| |exact Hid].
  apply (started_In st row); auto.
Qed.

Lemma Complete_turn env st row env2 c st' :
  unique_ids (commands st) -> idle st -> In row (commands st) -> runnable (timestamp env) row = true ->
  Complete historyLimit env2 (row_id row) (started (claim_row (timestamp env) row) st) = (Ok c, st') ->
  idle st' /\ ID c = row_id row /\ State c = Succeeded.
Proof.
  intros Hu Hidle Hin Hrun Hc.
  apply succeed_ok in Hc as (r & s2 & ids & Hr & Hid & Hck & -> & -> & ->).
  pose proof (claimed_row _ _ _ _ Hu Hin Hrun Hr Hid) as E.
  split; [|by rewrite E]. apply (settle_idle env st row (row_id row) _ _ Hu Hidle Hin Hrun r Hr Hid).
  - by apply running_check_ok.
  - apply (settles_mutable (fun _ => False)), st_succeed. by apply running_check_in_flight.
  - done.
  - done.
Qed.

Lemma Fail_turn env st row env2 err c ev st' :
  unique_ids (commands st) -> idle st -> In row (commands st) -> runnable (timestamp env) row = true ->
  Fail_ historyLimit env2 (row_id row) err (started (claim_row (timestamp env) row) st) = (Ok (c, ev), st') ->
  idle st' /\ ID c = row_id row /\
  ((State c = NeedsAttention /\ ev = EventNeedsAttention) \/ (State c = RetryScheduled /\ ev = EventRetryScheduled)) /\
  (isPermanent err = true -> State c = NeedsAttention /\ NextAttemptAt c = None).
Proof.
  intros Hu Hidle Hin Hrun Hf.
  apply fail_ok in Hf as (r & Hr & Hid & Hck & -> & -> & ids & ids' & ->).
  pose proof (claimed_row _ _ _ _ Hu Hin Hrun Hr Hid) as E.
  assert (row_state (fst (fail_row (timestamp env2) err r)) <> Running /\
    ID (command (fst (fail_row (timestamp env2) err r))) = row_id r) as [Hnr Hidr].
  { unfold fail_row. cbv zeta. by destruct (_ && _ && _); row_eval. }
  split; [|split; [by rewrite Hidr, E|]].
  - apply (settle_idle env st row (row_id row) _ _ Hu Hidle Hin Hrun r Hr Hid); [by apply running_check_ok| |done|done].
    apply (settles_mutable (fun _ => False)), st_fail. by apply running_check_in_flight.
  - unfold fail_row. cbv zeta. destruct (isPermanent err) eqn:P.
    + rewrite andb_false_r. row_eval. auto.
    + destruct (_ && _ && _); row_eval; (split; [auto|discriminate]).
Qed.

Lemma timeout_positive w c : 0 < timeout_of w c.
Proof.
  unfold timeout_of, defaultExecutionTimeout, minute, second.
  destruct (ExecutionTimeout w) as [f|]; [|lia]. destruct (f c >? 0) eqn:E; lia.
Qed.

(** The part of a turn after the gate. *)
Lemma claim_turn (tries : Tries) (k : option Record_ -> tx Store qerr outcome) st o st' :
  tries_acknowledged tries -> tx_bind (storeRetry tries ClaimDue) k st = (Ok o, st') ->
  (k None st = (Ok o, st')) \/
  exists env row p, idle st /\ In row (commands st) /\ runnable (timestamp env) row = true /\
    k (Some (mkRecord (artifact row) (command (claim_row (timestamp env) row)) p))
      (started (claim_row (timestamp env) row) st) = (Ok o, st').
Proof.
  intros Hv. unfold tx_bind. destruct (storeRetry tries ClaimDue st) as [[claimed|] s1] eqn:R; [|discriminate].
  apply retries_run in R as [env R]; [|intros; by eapply ClaimDue_err]. intros Hk.
  apply ClaimDue_run in R as [[-> Hno]|(row & p & Hn & O & [[= ->]|[e [=]]] & ->)].
  - destruct claimed as [rec|]; [by destruct (Hno rec)|by left].
  - right. apply oldest_Some in O as (Hin & Hrun & _). by exists env, row, p.
Qed.

(** What a turn reports of the command it executed. *)
Definition turn_report (w : World) (o : outcome) (st st' : Store) : Prop :=
  match o with
  | Stopped | Waited => st' = st
  | Executed record timeout trace =>
      ctx_ended w = false /\ CanExecute w <> Some false /\ 0 < timeout /\
      State (rec_Command record) = Running /\
      exists c ev, trace = [(rec_Command record, EvRunning); (c, ev)] /\
        ID c = ID (rec_Command record) /\
        (if execution_ended w || match Execute w record with None => false | Some _ => true end
         then (State c = NeedsAttention /\ ev = EvFailed EventNeedsAttention) \/
              (State c = RetryScheduled /\ ev = EvFailed EventRetryScheduled)
         else State c = Succeeded /\ ev = EvSucceeded) /\
        (execution_ended w = true -> State c = NeedsAttention /\ NextAttemptAt c = None)
  end.

(** The store acknowledges what it commits for this turn. *)
Definition turn_acknowledged (w : World) : Prop :=
  tries_acknowledged (claim_tries w) /\ tries_acknowledged (settle_tries w).

Lemma turn_spec (w : World) (st st' : Store) (o : outcome) :
  turn_acknowledged w -> unique_ids (commands st) -> idle st -> turn w st = (Ok o, st') ->
  idle st' /\ turn_report w o st st'.
Proof.
  intros [Hvc Hvs] Hu Hidle Ht. unfold turn_report. unfold turn in Ht.
  destruct (ctx_ended w) eqn:Cx; [by injection Ht as <- <-|].
  assert ((o = Waited /\ st' = st) \/ (CanExecute w <> Some false /\ claim_and_settle w st = (Ok o, st')))
    as [[-> ->]|[Hcan Hcs]]; [|done|].
  { destruct (CanExecute w) as [[]|]; [by right|left; by injection Ht as <- <-|by right]. }
  apply claim_turn in Hcs as [Hw|(env & row & p & _ & Hin & Hrun & Hs)]; [by injection Hw as <- <-| |done].
  set (record := mkRecord _ _ _) in *. unfold settle in Hs. cbv zeta in Hs.
  pose proof (timeout_positive w (rec_Command record)) as Hto.
  unfold execution_error in Hs.
  assert (match (if execution_ended w then PermanentError (errors_New "command execution ended before completion")
                 else Execute w record) with
          | None => execution_ended w = false /\ Execute w record = None
          | Some e => execution_ended w || match Execute w record with None => false | Some _ => true end = true /\
                      (execution_ended w = true -> isPermanent (Some e) = true)
          end) as Hcase.
  { destruct (execution_ended w); [done|]. by destruct (Execute w record). }
  destruct (if execution_ended w then _ else _) as [e|] in Hs, Hcase.
  - destruct Hcase as [Hcase Hperm]. unfold tx_bind in Hs.
    destruct (storeRetry _ _ _) as [[[c ev]|] s2] eqn:R; [|discriminate]. injection Hs as <- <-.
    apply retries_run in R as [env2 R]; [|intros; eapply Fail_err; [apply Hvs|done]].
    destruct (Fail_turn _ _ _ _ _ _ _ _ Hu Hidle Hin Hrun R) as (Hi & Hid & Hst & Hp).
    split; [done|]. repeat (split; [done|]). exists c, (EvFailed ev). split; [done|]. split; [done|].
    rewrite Hcase. split; [|auto]. destruct Hst as [[-> ->]|[-> ->]]; auto.
  - destruct Hcase as [Hce Hcx]. unfold tx_bind in Hs.
    destruct (storeRetry _ _ _) as [[c|] s2] eqn:R; [|discriminate]. injection Hs as <- <-.
    apply retries_run in R as [env2 R]; [|intros; eapply Complete_err; [apply Hvs|done]].
    destruct (Complete_turn _ _ _ _ _ _ Hu Hidle Hin Hrun R) as (Hi & Hid & Hst).
    split; [done|]. repeat (split; [done|]). exists c, EvSucceeded. rewrite Hce, Hcx. by repeat split.
Qed.

Lemma turn_idle w st o st' :
  turn_acknowledged w -> unique_ids (commands st) -> idle st -> turn w st = (Ok o, st') -> idle st'.
Proof. intros Hv Hu Hi Ht. by destruct (turn_spec _ _ _ _ Hv Hu Hi Ht). Qed.

(** One turn of the worker settles what it starts.  On a ledger where nothing
    is running, and as long as no acknowledgement of the store is lost, a turn
    that reports an executed command has run exactly the command it claimed, reported it as running, and left nothing running: the
    command succeeded when the executor returned no error before its context
    ended; otherwise it failed, and when the context had ended (a shutdown or a
    deadline, so that the outcome is unknown) it is parked for attention and
    not scheduled again.  A turn that is not allowed to execute, or whose
    context has ended, leaves the ledger alone. *)
Theorem worker_turn_settles (w : World) (st st' : Store) (o : outcome) :
  turn_acknowledged w -> unique_ids (commands st) -> idle st -> turn w st = (Ok o, st') ->
  idle st' /\
  match o with
  | Stopped | Waited => st' = st
  | Executed record timeout trace =>
      ctx_ended w = false /\ CanExecute w <> Some false /\ 0 < timeout /\
      State (rec_Command record) = Running /\
      exists c ev, trace = [(rec_Command record, EvRunning); (c, ev)] /\
        ID c = ID (rec_Command record) /\
        (if execution_ended w || match Execute w record with None => false | Some _ => true end
         then (State c = NeedsAttention /\ ev = EvFailed EventNeedsAttention) \/
              (State c = RetryScheduled /\ ev = EvFailed EventRetryScheduled)
         else State c = Succeeded /\ ev = EvSucceeded) /\
        (execution_ended w = true -> State c = NeedsAttention /\ NextAttemptAt c = None)
  end.
Proof. intros Hv Hu Hi Ht. exact (turn_spec _ _ _ _ Hv Hu Hi Ht). Qed.

Lemma retries_unique {A} left k tries (run : Env -> tx Store qerr A) st r st' :
  (forall env s r s', unique_ids (commands s) -> run env s = (r, s') -> unique_ids (commands s')) ->
  unique_ids (commands st) -> retries left k tries run st = (r, st') -> unique_ids (commands st').
Proof.
  intros Hrun. revert k st. induction left as [|left IH]; intros k st Hu; simpl;
    destruct (run (fst (tries k)) st) as [[a|e] s1] eqn:R; pose proof (Hrun _ _ _ _ Hu R);
    try (by intros [= <- <-]).
  destruct (snd (tries k)); [by intros [= <- <-]|by apply IH].
Qed.

Lemma turn_unique w st r st' :
  unique_ids (commands st) -> turn w st = (r, st') -> unique_ids (commands st').
Proof.
  intros Hu Ht. unfold turn in Ht. destruct (ctx_ended w); [by injection Ht as _ <-|].
  assert (st' = st \/ claim_and_settle w st = (r, st')) as [->|Hcs]; [|done|].
  { destruct (CanExecute w) as [[]|]; [by right|left; by injection Ht as _ <-|by right]. }
  unfold claim_and_settle, tx_bind in Hcs.
  destruct (storeRetry _ ClaimDue st) as [o s1] eqn:R.
  assert (unique_ids (commands s1)) as Hu1.
  { eapply retries_unique; [|exact Hu|exact R]. intros env s r0 s' Hs Hc.
    by apply (claim_evolves env s r0 s' (fun _ => False) (fun _ => False)). }
  destruct o as [[record|]|e]; [|by injection Hcs as _ <-..].
  unfold settle in Hcs. cbv zeta in Hcs. unfold tx_bind in Hcs.
  destruct (execution_error w record) as [e|].
  all: destruct (storeRetry _ _ s1) as [o2 s2] eqn:R2;
    assert (unique_ids (commands s2)) as Hu2; [|destruct o2; by injection Hcs as _ <-].
  - eapply retries_unique; [|exact Hu1|exact R2]. intros env s r0 s' Hs Hc. unfold Fail_ in Hc.
    pose proof (fail_quiet historyLimit (fun _ => False) _ _ _ _ _ _ _ _ Hs running_check_in_flight Hc) as [Hq _ _].
    exact (Hq Hs).
  - eapply retries_unique; [|exact Hu1|exact R2]. intros env s r0 s' Hs Hc. unfold Complete in Hc.
    pose proof (succeed_quiet historyLimit (fun _ => False) _ _ _ _ _ _ Hs running_check_in_flight Hc) as [Hq _ _].
    exact (Hq Hs).
Qed.

(** However many turns the worker takes, it never leaves a command running
    behind: a run that reports no store error, and in which no acknowledgement
    was lost, ends with an idle ledger. *)
Theorem worker_run_leaves_nothing_running (ws : list World) (st st' : Store) (os : list outcome) :
  Forall turn_acknowledged ws -> unique_ids (commands st) -> idle st -> Run ws st = (Ok os, st') ->
  unique_ids (commands st') /\ idle st' /\ (length os <= length ws)%nat.
Proof.
  intros Hvs. revert st os. induction Hvs as [|w ws Hv _ IH]; intros st os Hu Hi Hr; simpl in Hr; [by injection Hr as <- <-|].
  unfold tx_bind at 1 in Hr. destruct (turn w st) as [[o|] s1] eqn:T; [|discriminate].
  pose proof (turn_unique _ _ _ _ Hu T) as Hu1. pose proof (turn_idle _ _ _ _ Hv Hu Hi T) as Hi1.
  assert ((os = [Stopped] /\ st' = s1) \/ exists os', Run ws s1 = (Ok os', st') /\ os = o :: os') as
    [[-> ->]|(os' & Hrest & ->)].
  { destruct o; [left; by injection Hr as <- <-|right..]; unfold tx_bind in Hr;
      (destruct (Run ws s1) as [[os'|] s2]; [|discriminate]); injection Hr as <- <-; eauto. }
  - split; [done|]. split; [done|]. simpl. lia.
  - destruct (IH _ _ Hu1 Hi1 Hrest) as (? & ? & ?). split; [done|]. split; [done|]. simpl. lia.
Qed.

End Worker.
