(* ===== verification/LedgerRuns.v ===== *)
(** * Concrete runs of the ledger

    Witnesses: the hypotheses of the properties of LedgerTheorems.v hold of
    ledgers computed by running the model. *)

From Stdlib Require Import ZArith Lia Bool Ascii String Sorting.
From stdpp Require Import base tactics list strings gmap relations.
From S2P Require Import Prelude GoStrings Sqlstore Diagnostics Ledger LedgerRows LedgerOps LedgerSteps LedgerExclusion LedgerFacts LedgerTheorems Worker.

Local Open Scope string_scope.
Local Open Scope list_scope.
Local Open Scope bool_scope.
Local Open Scope Z_scope.

(** ** A concrete ledger

    Bytes compare as bytes, the digest of a payload is the payload cut or
    filled to sixty-four characters, and every non-empty payload is JSON. *)

Definition pad64 (p : string) : string :=
  of_bytes (take 64 (bytes p ++ replicate 64 (chr 48))).

Definition demo_platform : Platform.
Proof.
  refine {| sha256_hex := pad64; json_Valid p := negb (p =? "")%string |}; [|done].
  intros p. unfold pad64. rewrite <- length_bytes, bytes_of_bytes, length_take, length_app, length_replicate.
  lia.
Defined.

#[local] Existing Instance binary_collation.
#[local] Existing Instance demo_platform.

(** The [n]-th call, at second [n], with its own random bytes. *)
Definition at_ (n : Z) : Env := mkEnv (n * second) [] (fun _ => false) (Some (replicate 16 (n mod 256))).

Definition request (key server target : string) : SubmitInput :=
  mkInput "service.deploy" "alice" 1 true "" key 1000 3 "{}" "req-1" server target.

Definition id_of (n : Z) : string := "cmd-" ++ EncodeToString (replicate 16 (n mod 256)).
Definition lease_of (n : Z) : string := "lease-" ++ EncodeToString (replicate 16 (n mod 256)).

Definition demo_calls : list call :=
  [CSubmit (at_ 1) (at_ 1) (request "k1" "web-1" "api"); CSubmit (at_ 2) (at_ 2) (request "k2" "web-2" "db");
   CClaimDue (at_ 3)].

Definition run (cs : list call) (st : Store) : Store := fold_left (fun st c => exec 100 c st) cs st.

Definition demo : Store := run demo_calls empty_store.

Lemma at_random_ok n : random_ok (at_ n).
Proof.
  unfold random_ok, at_. simpl. split; [done|]. pose proof (Z.mod_pos_bound n 256 ltac:(lia)).
  repeat constructor; lia.
Qed.

Lemma binary_marker : marker_distinct.
Proof. intros s _ Heq. by apply String.eqb_eq. Qed.

Lemma run_reachable allowed cs st :
  Forall (fun c => allowed c = true /\ typed c) cs ->
  forall ids, reachable 100 allowed st ids -> exists ids', reachable 100 allowed (run cs st) ids'.
Proof.
  intros Hc. revert st. induction Hc as [|c cs [Hal Had] _ IH]; intros st ids Hst; [eauto|].
  unfold run. simpl. eapply IH. by apply reach_step.
Qed.

(** Calls none of which ends an upload. *)
Definition ends_no_upload (c : call) : bool := match c with CUploaded _ _ _ _ => false | _ => true end.

Lemma run_reachable_in_time allowed cs st ids :
  Forall (fun c => allowed c = true /\ typed c) cs -> forallb ends_no_upload cs = true ->
  reachable 100 allowed st ids -> reachable 100 allowed (run cs st) ids.
Proof.
  intros Hc. revert st. induction Hc as [|c cs [Hal Had] _ IH]; intros st Hu Hst; [done|].
  simpl in Hu. apply andb_true_iff in Hu as [Hc1 Hu]. unfold run. simpl. apply IH; [done|].
  assert (late c st = []) as Hl by by destruct c. replace ids with (late c st ++ ids) by by rewrite Hl. by apply reach_step.
Qed.

Ltac run_calls :=
  apply run_reachable_in_time; [|reflexivity|apply reach_init];
  repeat (apply Forall_cons; split; [split; [done|simpl; auto using at_random_ok; try lia]|]);
  apply Forall_nil; done.

Lemma demo_reachable : reachable 100 claims_only demo [].
Proof. unfold demo, demo_calls. run_calls. Qed.

Lemma reachable_rows_wf_witness : unique_ids (commands demo) /\ forall r, In r (commands demo) -> row_wf r.
Proof.
  destruct (reachable_rows_wf 100 claims_only demo [] binary_marker demo_reachable) as [Hu Hr].
  split; [exact Hu|]. intros r Hin. apply (Hr r Hin). apply Forall_nil. exact I.
Defined.

Lemma one_command_at_a_time_witness :
  Forall (fun r => row_id r = id_of 1 -> row_state r = Running /\
    forall r', In r' (commands demo) -> in_flight (row_state r') = true -> r = r') (commands demo).
Proof.
  apply Forall_forall. intros r Hin%list_elem_of_In Hid.
  assert (row_state r = Running) as Hs.
  { revert Hin Hid. vm_compute. intros [<-|[<-|[]]]; done. }
  split; [done|]. intros r' Hin' Hf.
  refine (one_command_at_a_time 100 demo [] r r' demo_reachable Hin Hin' _ Hf). rewrite Hs. reflexivity.
Defined.

Definition lease_calls : list call :=
  [CSubmit (at_ 1) (at_ 1) (request "k1" "web-1" "api"); CSubmit (at_ 2) (at_ 2) (request "k2" "web-1" "db");
   CLeaseDue (at_ 3) (at_ 3) "web-1" 1 (30 * second); CLeaseDue (at_ 4) (at_ 4) "web-1" 1 (30 * second)].

Definition leased : Store := run lease_calls empty_store.

Lemma leased_reachable : reachable 100 leases_only leased [].
Proof. unfold leased, lease_calls. run_calls. Qed.


Lemma one_lease_per_server_witness :
  sql_count (fun r => in_flight (row_state r)) (commands leased) = 1 /\
  forall r1 r2, In r1 (commands leased) -> In r2 (commands leased) ->
    in_flight (row_state r1) = true -> in_flight (row_state r2) = true ->
    ServerID (command r1) = ServerID (command r2) -> r1 = r2.
Proof.
  split; [vm_compute; reflexivity|]. intros r1 r2 H1 H2 F1 F2 E.
  apply (one_lease_per_server 100 leased [] r1 r2 leased_reachable H1 H2 F1 F2). rewrite E. apply ceq_refl.
Defined.

Lemma ledger_refines_lifecycle_witness :
  exists r', row_id r' = id_of 1 /\ row_state r' = Succeeded /\
  exists r, (In r (commands demo) \/ fresh r) /\ rtc (row_step (CComplete (at_ 4) (id_of 1)) demo) r r'.
Proof.
  set (c := CComplete (at_ 4) (id_of 1)).
  destruct (ledger_refines_lifecycle 100 claims_only demo [] c demo_reachable I) as [Hb _].
  assert (exists r', List.nth_error (commands (exec 100 c demo)) 0 = Some r' /\
            row_id r' = id_of 1 /\ row_state r' = Succeeded) as (r' & Hn & Hid & Hs)
    by (vm_compute; eexists; repeat split).
  exists r'. split; [exact Hid|]. split; [exact Hs|]. apply Hb. exact (nth_error_In _ _ Hn).
Defined.

(** ** Submissions *)

Definition first_request : SubmitInput := request "k1" "web-1" "api".
Definition second_request : SubmitInput := request "k2" "web-1" "api".

(** Runs a call to a concrete result. *)
Ltac computed := vm_compute; reflexivity.

Definition once : Store := run [CSubmit (at_ 1) (at_ 1) first_request] empty_store.

Lemma empty_unique : unique_ids (commands empty_store).
Proof. constructor. Qed.

Lemma run_unique cs :
  Forall typed cs -> unique_ids (commands (run cs empty_store)).
Proof.
  intros Hc. destruct (run_reachable (fun _ => true) cs empty_store) with (ids := @nil string) as [ids Hr].
  - eapply Forall_impl; [exact Hc|]. by intros c Ha.
  - apply reach_init.
  - by eapply reachable_unique.
Qed.

Ltac unique_run :=
  apply run_unique;
  repeat (apply Forall_cons; split; [simpl; auto using at_random_ok; try lia|]);
  apply Forall_nil; done.

Lemma once_unique : unique_ids (commands once).
Proof. unfold once. unique_run. Qed.

Lemma resubmission_is_idempotent_witness :
  fst (SubmitWithResult 100 (at_ 2) (at_ 2) first_request once) =
  Ok (mkSubmission (command (List.nth 0 (commands once) (mkRow 0 false (mkCommand "" "" 0 0 false "" 0 "" "" "" None "" None 0 None "" "" "" "" Queued "" 0) "" "" ""))) false []).
Proof.
  destruct (SubmitWithResult 100 (at_ 1) (at_ 1) first_request empty_store) as [[sub|e] st'] eqn:R;
    [|vm_compute in R; discriminate R].
  assert (st' = once) as Hst by (vm_compute in R |- *; injection R as _ <-; reflexivity).
  assert (sub_Created sub = true) as Hc by (vm_compute in R; injection R as <- _; reflexivity).
  pose proof (resubmission_is_idempotent 100 (at_ 1) (at_ 1) (at_ 2) (at_ 2) first_request empty_store st' sub
    empty_unique R Hc eq_refl) as Hi.
  rewrite Hst in Hi. rewrite Hi. cbn [fst]. f_equal. f_equal.
  vm_compute in R |- *. injection R as <- _. reflexivity.
Defined.

Lemma submission_supersedes_unstarted_witness :
  exists new, In new (commands (snd (SubmitWithResult 100 (at_ 2) (at_ 2) second_request once))) /\
    row_state new = Queued /\ row_id new = id_of 2 /\
    forall r, In r (commands once) -> supersedable r = true -> supersede_candidate second_request r = true ->
      ~ In r (commands (snd (SubmitWithResult 100 (at_ 2) (at_ 2) second_request once))).
Proof.
  destruct (SubmitWithResult 100 (at_ 2) (at_ 2) second_request once) as [[sub|e] st'] eqn:R;
    [|vm_compute in R; discriminate R].
  assert (sub_Created sub = true /\ ID (sub_Command sub) = id_of 2) as [Hc Hid]
    by (vm_compute in R; injection R as <- _; split; reflexivity).
  destruct (submission_supersedes_unstarted 100 (at_ 2) (at_ 2) second_request once st' sub once_unique R Hc)
    as (new & Hin & Hcmd & Hq & Hsup & _).
  exists new. split; [exact Hin|]. split; [exact Hq|]. split; [unfold row_id; rewrite Hcmd; exact Hid|].
  intros r Hr H1 H2. exact (proj2 (Hsup r Hr H1 H2)).
Defined.

(** ** History *)

(** Two finished commands and one queued. *)
Definition finished : Store :=
  run [CSubmit (at_ 1) (at_ 1) (request "k1" "web-1" "api"); CClaimDue (at_ 2); CComplete (at_ 3) (id_of 1);
       CSubmit (at_ 4) (at_ 4) (request "k4" "web-1" "db"); CClaimDue (at_ 5); CComplete (at_ 6) (id_of 4);
       CSubmit (at_ 7) (at_ 7) (request "k7" "web-1" "api")] empty_store.

Lemma finished_unique : unique_ids (commands finished).
Proof. unfold finished. unique_run. Qed.

Lemma prune_keeps_newest_witness :
  length (succeeded_rows finished) = 2%nat /\
  Z.of_nat (length (succeeded_rows (snd (pruneTx 1 finished)))) = 1.
Proof.
  split; [computed|]. pose proof (prune_keeps_newest 1 finished finished_unique ltac:(lia)) as [Hn _].
  rewrite Hn. computed.
Defined.

(** ** Leases *)

Lemma leased_unique : unique_ids (commands leased).
Proof. unfold leased, lease_calls. unique_run. Qed.

Lemma lease_settles_once_witness :
  let st' := snd (CompleteLease 100 (at_ 5) (id_of 1) (lease_of 3) leased) in
  exists e, FailLease 100 (at_ 6) (id_of 1) (lease_of 3) None st' = (Err e, st').
Proof.
  destruct (CompleteLease 100 (at_ 5) (id_of 1) (lease_of 3) leased) as [[c|e] st'] eqn:R;
    [|vm_compute in R; discriminate R].
  destruct (lease_settles_once 100 (at_ 5) (id_of 1) (lease_of 3) leased st' leased_unique
    (or_introl (ex_intro _ c R))) as [_ Hdead].
  exact (proj1 (proj2 (Hdead (at_ 6) 0 Running None))).
Defined.

(** ** Authority and recovery *)


Lemma demo_unique : unique_ids (commands demo).
Proof. apply (reachable_unique 100 claims_only demo []), demo_reachable. Qed.

Lemma recover_parks_interrupted_work_witness :
  let st' := snd (Recover (at_ 5) demo) in
  (exists r, In r (commands demo) /\ row_state r = Running) /\
  forall r', In r' (commands st') -> in_flight (row_state r') = false.
Proof.
  assert (Recover (at_ 5) demo = (Ok tt, snd (Recover (at_ 5) demo))) as R by computed.
  split.
  - vm_compute. eexists. split; [left; reflexivity|reflexivity].
  - exact (proj1 (recover_parks_interrupted_work (at_ 5) demo _ demo_unique R)).
Defined.

(** ** Settling *)


Lemma completion_forgets_the_input_witness :
  length (command_payloads demo) = 2%nat /\
  forall p, In p (command_payloads (snd (Complete 100 (at_ 5) (id_of 1) demo))) -> fst p <> id_of 1.
Proof.
  split; [computed|].
  destruct (Complete 100 (at_ 5) (id_of 1) demo) as [[c|e] st'] eqn:R; [|vm_compute in R; discriminate R].
  destruct (completion_forgets_the_input 100 (at_ 5) (id_of 1) demo st' c demo_unique R)
    as (r & _ & Hid & _ & Hp & _).
  apply String.eqb_eq in Hid. intros p Hin E. pose proof (Hp p Hin) as Hf.
  rewrite E, Hid in Hf. rewrite ceq_refl in Hf. discriminate Hf.
Defined.

(** ** Logs, uploads and progress *)

Lemma retained_output_reads_back_witness :
  fst (Output (id_of 1) (snd (RetainOutput (at_ 5) (id_of 1) "step 1 ok" demo))) = Ok "step 1 ok".
Proof.
  assert (RetainOutput (at_ 5) (id_of 1) "step 1 ok" demo =
    (Ok tt, snd (RetainOutput (at_ 5) (id_of 1) "step 1 ok" demo))) as R by computed.
  destruct (retained_output_reads_back (at_ 5) (id_of 1) "step 1 ok" demo _ ltac:(vm_compute; discriminate) R)
    as (Ho & _ & Hs).
  rewrite Ho, Hs; [reflexivity|vm_compute; discriminate].
Defined.

Lemma uploaded_artifact_reads_back_witness :
  fst (Artifact (id_of 4) (snd (SubmitArtifactWithResult (at_ 4) (at_ 5) (request "k4" "web-1" "image")
    (Some (Ok "tarball")) demo))) = Ok "tarball".
Proof.
  destruct (SubmitArtifactWithResult (at_ 4) (at_ 5) (request "k4" "web-1" "image") (Some (Ok "tarball")) demo)
    as [[sub|e] st'] eqn:R; [|vm_compute in R; discriminate R].
  assert (sub_Created sub = true /\ ID (sub_Command sub) = id_of 4) as [Hc Hid]
    by (vm_compute in R; injection R as <- _; split; reflexivity).
  destruct (uploaded_artifact_reads_back (at_ 4) (at_ 5) (request "k4" "web-1" "image") "tarball" demo st' sub
    demo_unique (at_random_ok 4) R Hc) as (_ & _ & Ha).
  rewrite Hid in Ha. cbn [snd]. rewrite Ha. reflexivity.
Defined.

Lemma progress_events_bounded_witness :
  exists row, In row (commands demo) /\ row_id row = id_of 1 /\
    numbered_events (row_id row) (snd (AppendEvent (at_ 5) (id_of 1) Running "pulling image" demo)).
Proof.
  assert (AppendEvent (at_ 5) (id_of 1) Running "pulling image" demo =
    (Ok tt, snd (AppendEvent (at_ 5) (id_of 1) Running "pulling image" demo))) as R by computed.
  destruct (progress_events_bounded (at_ 5) (id_of 1) "pulling image" Running demo _ R)
    as (row & Hin & Hid & Hnum & _).
  exists row. apply String.eqb_eq in Hid. split; [exact Hin|]. split; [exact Hid|].
  apply Hnum. rewrite Hid. split; [vm_compute; reflexivity|vm_compute; discriminate].
Defined.

(** ** A worker on the ledger *)

Definition steady (n : Z) : Tries := fun _ => (at_ n, false).

Definition failing (n : Z) : World :=
  mkWorld false None (steady n) (fun _ => errors_New "boom") None false (steady (n + 1)).
Definition working (n : Z) : World :=
  mkWorld false (Some true) (steady n) (fun _ => None) (Some (fun _ => minute)) false (steady (n + 1)).
Definition shutting_down (n : Z) : World :=
  mkWorld false None (steady n) (fun _ => None) None true (steady (n + 1)).
Definition ended : World := mkWorld true None (steady 0) (fun _ => None) None false (steady 0).

Definition two_queued : Store := run (take 2 demo_calls) empty_store.

Lemma two_queued_ok : unique_ids (commands two_queued) /\ idle two_queued.
Proof.
  split; [|vm_compute; intros r [<-|[<-|[]]]; discriminate].
  apply (reachable_ledger_wf 100 claims_only _ []); [apply binary_marker|].
  unfold two_queued, demo_calls. cbn [take]. run_calls.
Qed.

Lemma shutting_down_acknowledged n : turn_acknowledged (shutting_down n).
Proof. split; intros k; constructor. Qed.

Lemma worker_turn_settles_witness :
  exists record timeout trace st', turn 100 5 (shutting_down 3) two_queued = (Ok (Executed record timeout trace), st') /\
    idle st' /\ exists c ev, trace = [(rec_Command record, EvRunning); (c, ev)] /\
    State c = NeedsAttention /\ NextAttemptAt c = None.
Proof.
  destruct (turn 100 5 (shutting_down 3) two_queued) as [[[| |record timeout trace]|e] st'] eqn:T;
    [exfalso; vm_compute in T; discriminate T..| |exfalso; vm_compute in T; discriminate T].
  destruct (worker_turn_settles 100 5 (shutting_down 3) two_queued st' _ (shutting_down_acknowledged 3) (proj1 two_queued_ok)
    (proj2 two_queued_ok) T) as (Hi & _ & _ & _ & _ & c & ev & Ht & _ & _ & Hp).
  exists record, timeout, trace, st'. split; [reflexivity|]. split; [exact Hi|].
  exists c, ev. split; [exact Ht|]. apply Hp. reflexivity.
Defined.

Lemma worker_run_leaves_nothing_running_witness :
  exists os st', Run 100 5 [failing 3; working 5; working 40; ended] two_queued = (Ok os, st') /\
    length os = 4%nat /\ idle st'.
Proof.
  destruct (Run 100 5 [failing 3; working 5; working 40; ended] two_queued) as [[os|e] st'] eqn:R;
    [|exfalso; vm_compute in R; discriminate R].
  assert (Forall turn_acknowledged [failing 3; working 5; working 40; ended]) as Hv
    by (repeat constructor; intros n; constructor).
  destruct (worker_run_leaves_nothing_running 100 5 _ two_queued st' os Hv (proj1 two_queued_ok)
    (proj2 two_queued_ok) R) as (_ & Hi & _).
  exists os, st'. split; [reflexivity|]. split; [|exact Hi].
  apply (f_equal fst) in R. vm_compute in R. injection R as <-. reflexivity.
Defined.

(** ** What the runs show about the code *)

(** A fence leaves the lease of the work it parks in the row, a retry keeps it,
    and [ClaimDue] then runs the command with it: the agent of the fenced epoch
    can still settle the command the new authority is running. *)
Definition fenced_calls : list call :=
  [CSubmit (at_ 1) (at_ 1) first_request; CLeaseDue (at_ 2) (at_ 2) "web-1" 1 (30 * second);
   CFenceAuthority (at_ 3) 2; CRetryNow (at_ 4) (id_of 1) 2; CClaimDue (at_ 5)].

Theorem fenced_lease_still_settles :
  let st := run fenced_calls empty_store in
  (exists r, In r (commands st) /\ row_state r = Running /\ AuthorityEpoch (command r) = 2 /\
     leaseID r = lease_of 2) /\
  exists c, fst (CompleteLease 100 (at_ 6) (id_of 1) (lease_of 2) st) = Ok c /\ State c = Succeeded.
Proof.
  split; [|vm_compute; eexists; split; reflexivity].
  vm_compute. eexists. split; [left; reflexivity|]. repeat split; reflexivity.
Qed.

(** The key of a command that has succeeded no longer answers: the payload
    digest is cleared on success, so the same request is refused as a conflict. *)
Theorem resubmission_after_success_conflicts :
  let st := run [CSubmit (at_ 1) (at_ 1) first_request; CClaimDue (at_ 2); CComplete (at_ 3) (id_of 1)]
              empty_store in
  fst (SubmitWithResult 100 (at_ 4) (at_ 4) first_request st) = Err ErrIdempotencyConflict.
Proof. computed. Qed.

(** The second half of an upload queues its row whatever state it is in by
    then: an operator's retry and a claim between the write and that
    transaction leave a running command queued again, to be run twice. *)
Definition upload_race : list call :=
  [CUpload (at_ 1) first_request; CWrite (id_of 1) 1000 (Ok "tarball");
   CRetryNow (at_ 2) (id_of 1) 1; CClaimDue (at_ 3); CUploaded (at_ 4) (id_of 1) 1000 None; CClaimDue (at_ 5)].

Theorem upload_race_starts_twice :
  map (fun r => (row_state r, Attempt (command r))) (commands (run (take 4 upload_race) empty_store)) = [(Running, 1)] /\
  map (fun r => (row_state r, Attempt (command r))) (commands (run (take 5 upload_race) empty_store)) = [(Queued, 1)] /\
  map (fun r => (row_state r, Attempt (command r))) (commands (run upload_race empty_store)) = [(Running, 2)].
Proof. split; [|split]; computed. Qed.

(** A command whose input is being uploaded counts as finished for a fence: the
    end of the upload queues it under the old epoch, and it is started. *)
Theorem upload_crosses_the_fence :
  let st := run [CUpload (at_ 1) first_request; CWrite (id_of 1) 1000 (Ok "tarball"); CFenceAuthority (at_ 2) 2;
                 CUploaded (at_ 3) (id_of 1) 1000 None; CClaimDue (at_ 4)] empty_store in
  map (fun r => (row_state r, AuthorityEpoch (command r))) (commands st) = [(Running, 1)].
Proof. computed. Qed.

(** A claim whose acknowledgement is lost: the worker asks again, finds a
    command running, its own, and waits; so does every later turn. *)
Definition unacknowledged_at (n : Z) : Env :=
  mkEnv (n * second) [mkVerdict Unacknowledged false] (fun _ => false) (env_random (at_ n)).

Definition losing (n : Z) : World :=
  mkWorld false None (fun k => (if (k =? 0)%nat then unacknowledged_at n else at_ n, false)) (fun _ => None) None false (steady (n + 1)).

Theorem lost_claim_blocks_the_worker :
  let '(o, st) := Run 100 5 [losing 3; working 5; working 600] two_queued in
  o = Ok [Waited; Waited; Waited] /\
  map (fun r => (row_id r, row_state r)) (commands st) = [(id_of 1, Running); (id_of 2, Queued)].
Proof. vm_compute. split; reflexivity. Qed.

(** The longest automatic delay is thirty-two seconds. *)
Theorem backoff_is_capped (attempt : Z) : 5 <= attempt -> backoff attempt = 32 * second.
Proof. intros Ha. rewrite backoff_value by lia. by replace (Z.min attempt 5) with 5 by lia. Qed.
