(* ===== verification/CoreTopology.v ===== *)
(** * internal/coretopology/store.go: which control plane is in charge

    Several core processes, each with its own [Config], share the three
    topology tables.  Every change runs in a transaction that locks the
    authority row, so the processes are a sequence of operations on one
    [CoreDB].  Go's [net/url] parser, the port lookup and the loopback test of
    [net/netip] are parameters ([NetLib]). *)

From Stdlib Require Import ZArith Lia Bool Ascii String.
From stdpp Require Import base tactics list strings.
From S2P Require Import Prelude GoStrings Sqlstore.

Local Open Scope string_scope.
Local Open Scope list_scope.
Local Open Scope bool_scope.
Local Open Scope Z_scope.
Local Open Scope tx_scope.

(** ** Data *)

Definition CoreRoleActive : string := "active".
Definition CoreRoleStandby : string := "standby".
Definition CoreReplicaAwaitingRestore : string := "awaiting_restore".
Definition CoreReplicaVerified : string := "verified".
Definition CoreHandoffPrepared : string := "prepared".
Definition CoreHandoffFenced : string := "fenced".

Record CoreMember := mkMember {
  AgentServerID : string; Endpoint : string; MemberID : string; LastCheckpointAt : option Z;
  MemberName : string; ReplicaState : string; Role : string }.

Record CoreHandoff := mkHandoff {
  FencedAt : option Z; FromID : string; PreparedAt : Z; HandoffState : string; ToID : string }.

Record stateFile := mkState {
  ActiveID : string; Epoch : Z; Handoff : option CoreHandoff; Members : list CoreMember; Version : Z }.

Record Config := mkConfig { cfg_Endpoint : string; cfg_ID : string; cfg_Mode : string; cfg_Name : string }.

Record ReplicaInput := mkReplica {
  rep_AgentServerID : string; rep_Endpoint : string; rep_ID : string; rep_Name : string }.

Record CoreTopology := mkTopology {
  top_ActiveID : string; top_Epoch : Z; top_ControlEnabled : bool; top_Handoff : option CoreHandoff;
  top_LocalID : string; top_LocalRole : string; top_Members : list CoreMember }.

(** The three tables; a member row carries its [position]. *)
Record CoreDB := mkDB {
  core_authority : option (option string * Z);
  core_members : list (CoreMember * Z);
  core_handoffs : option CoreHandoff }.

Inductive terr :=
| ErrStandby | ErrNotInitialised | ErrMemberExists | ErrStandbyNotFound | ErrNotVerified
| ErrHandoffInProgress | ErrNoPreparedHandoff | ErrLocalNotFound | ErrNotStandby | ErrHandoffRequired
| ErrInvalidState | ErrInvalidInput | ErrOpenAgain | ErrTopologyContext | ErrTopologyConnection
| ErrTopologyDB (c : Z).

#[export] Instance terr_server : ServerError terr.
Proof.
  refine {| server := ErrTopologyDB;
            server_code e := match e with ErrTopologyDB c => Some c | _ => None end;
            ctx_done := ErrTopologyContext; lost_connection := ErrTopologyConnection |}; done.
Defined.

Definition storeVersion : Z := 1.

(** The zero [time.Time], as nanoseconds since the Unix epoch. *)
Definition zero_time : Z := -62135596800 * second.

(** ** The network library *)

Record URL := mkURL {
  Scheme : string; Host : string; Hostname : string; Port : string; has_User : bool;
  RawQuery : string; Fragment : string; Path : string }.

Class NetLib := {
  url_Parse : string -> option URL;
  LookupPort_ok : string -> bool;          (* net.LookupPort("tcp", port) finds it *)
  ParseAddr_loopback : string -> bool }.   (* netip.ParseAddr succeeds on a loopback address *)

(** [strings.Trim(s, "[]")]. *)
Definition is_bracket (c : ascii) : bool := (code c =? 91) || (code c =? 93).

Fixpoint trim_left (l : list ascii) : list ascii :=
  match l with
  | [] => []
  | c :: rest => if is_bracket c then trim_left rest else l
  end.

Definition TrimBrackets (s : string) : string :=
  of_bytes (rev (trim_left (rev (trim_left (bytes s))))).

(** [strings.EqualFold(s, "localhost")]: ASCII letters, and U+017F for an s. *)
Definition fold_rune (r : list ascii) : list ascii :=
  match map code r with
  | [b] => if between 65 90 b then [chr (b + 32)] else r
  | [197; 191] => [chr 115]
  | _ => r
  end.

Definition is_localhost (s : string) : bool :=
  (string_of_runes (map fold_rune (runes s)) =? "localhost")%string.

(** [^core-[a-z0-9](?:[a-z0-9-]{0,61}[a-z0-9])?$] *)
Definition lower_alnum (c : ascii) : bool := between 97 122 (code c) || between 48 57 (code c).

Definition validCoreID (id : string) : bool :=
  HasPrefix id "core-" &&
  match drop 5 (bytes id) with
  | [] => false
  | c :: rest =>
      lower_alnum c && (Z.of_nat (length rest) <=? 62)
      && forallb (fun x => lower_alnum x || (code x =? 45)) rest
      && match rev rest with [] => true | l :: _ => lower_alnum l end
  end.

Section Topology.
Context `{NetLib} `{Collation}.

Definition loopbackHost (host : string) : bool :=
  let host := TrimBrackets (TrimSpace host) in
  if is_localhost host then true else ParseAddr_loopback host.

Definition normalizeEndpoint (value : string) (optional : bool) : result terr string :=
  let value := TrimSpace value in
  if (value =? "")%string && optional then Ok ""
  else match url_Parse value with
  | None => Err ErrInvalidInput
  | Some u =>
      if (Scheme u =? "")%string || (Hostname u =? "")%string || has_User u
         || negb (RawQuery u =? "")%string || negb (Fragment u =? "")%string
         || (negb (Path u =? "")%string && negb (Path u =? "/")%string)
      then Err ErrInvalidInput
      else if negb (Scheme u =? "https")%string
              && negb ((Scheme u =? "http")%string && loopbackHost (Hostname u))
      then Err ErrInvalidInput
      else if negb (Port u =? "")%string && negb (LookupPort_ok (Port u))
      then Err ErrInvalidInput
      else Ok (Scheme u ++ "://" ++ Host u)%string
  end.

Definition normalizeConfig (input : Config) : result terr Config :=
  let id := TrimSpace (cfg_ID input) in
  let id := if (id =? "")%string then "core-local" else id in
  let name := TrimSpace (cfg_Name input) in
  let name := if (name =? "")%string then "SwarmOps control plane" else name in
  if negb (validCoreID id) then Err ErrInvalidInput
  else if (len name >? 96) || has_control name then Err ErrInvalidInput
  else
    let mode := if (cfg_Mode input =? "")%string then CoreRoleActive else cfg_Mode input in
    if negb (mode =? CoreRoleActive)%string && negb (mode =? CoreRoleStandby)%string then Err ErrInvalidInput
    else match normalizeEndpoint (cfg_Endpoint input) true with
         | Err e => Err e
         | Ok endpoint => Ok (mkConfig endpoint id mode name)
         end.

Definition normalizeReplica (input : ReplicaInput) : result terr CoreMember :=
  let id := TrimSpace (rep_ID input) in
  if negb (validCoreID id) then Err ErrInvalidInput
  else
    let name := TrimSpace (rep_Name input) in
    if (len name =? 0) || (len name >? 96) || has_control name then Err ErrInvalidInput
    else match normalizeEndpoint (rep_Endpoint input) false with
    | Err e => Err e
    | Ok endpoint =>
        let agent := TrimSpace (rep_AgentServerID input) in
        if (len agent >? 64) || has_control agent then Err ErrInvalidInput
        else Ok (mkMember agent endpoint id None name CoreReplicaAwaitingRestore CoreRoleStandby)
    end.

Definition newLocalMember (config : Config) : CoreMember :=
  let state := if (cfg_Mode config =? CoreRoleActive)%string then CoreReplicaVerified
               else CoreReplicaAwaitingRestore in
  mkMember "" (cfg_Endpoint config) (cfg_ID config) None (cfg_Name config) state (cfg_Mode config).

(** ** [validateState] *)

Definition member_valid (activeID : string) (seen : list string) (m : CoreMember) : bool :=
  validCoreID (MemberID m) && negb (existsb (String.eqb (MemberID m)) seen)
  && match normalizeEndpoint (Endpoint m) true with Ok _ => true | Err _ => false end
  && ((Role m =? CoreRoleActive)%string || (Role m =? CoreRoleStandby)%string)
  && ((ReplicaState m =? CoreReplicaAwaitingRestore)%string || (ReplicaState m =? CoreReplicaVerified)%string)
  && (negb (Role m =? CoreRoleActive)%string || (activeID =? MemberID m)%string).

Fixpoint members_valid (activeID : string) (seen : list string) (ms : list CoreMember) : bool :=
  match ms with
  | [] => true
  | m :: rest => member_valid activeID seen m && members_valid activeID (MemberID m :: seen) rest
  end.

Definition is_active (m : CoreMember) : bool := (Role m =? CoreRoleActive)%string.

Definition activeCount (ms : list CoreMember) : Z := sql_count is_active ms.

Definition seen_id (ms : list CoreMember) (id : string) : bool := existsb (fun m => (MemberID m =? id)%string) ms.

Definition handoff_valid (ms : list CoreMember) (h : CoreHandoff) : bool :=
  seen_id ms (FromID h) && seen_id ms (ToID h) && negb (FromID h =? ToID h)%string
  && ((HandoffState h =? CoreHandoffPrepared)%string || (HandoffState h =? CoreHandoffFenced)%string)
  && negb (PreparedAt h =? zero_time)
  && negb ((HandoffState h =? CoreHandoffFenced)%string
           && match FencedAt h with None => true | Some _ => false end).

Definition validateState (s : stateFile) : result terr unit :=
  if negb (Version s =? storeVersion) || (Z.of_nat (length (Members s)) =? 0) then Err ErrInvalidState
  else if negb (members_valid (ActiveID s) [] (Members s)) then Err ErrInvalidState
  else if negb (ActiveID s =? "")%string && negb (seen_id (Members s) (ActiveID s)) then Err ErrInvalidState
  else if (ActiveID s =? "")%string && negb (activeCount (Members s) =? 0) then Err ErrInvalidState
  else if negb (ActiveID s =? "")%string && negb (activeCount (Members s) =? 1) then Err ErrInvalidState
  else match Handoff s with
       | None => Ok tt
       | Some h => if handoff_valid (Members s) h then Ok tt else Err ErrInvalidState
       end.

(** ** Reading and writing the tables *)

Definition nullable (value : string) : option string := if (value =? "")%string then None else Some value.
Definition of_null (value : option string) : string := match value with None => "" | Some v => v end.

Definition loadState (db : CoreDB) : option stateFile :=
  match core_authority db with
  | None => None
  | Some (active, epoch) =>
      Some (mkState (of_null active) epoch (core_handoffs db)
              (map fst (order_by (fun row => (snd row, 0)) (core_members db))) storeVersion)
  end.

Definition member_row_ok (m : CoreMember) : bool :=
  (ceq (Role m) CoreRoleActive || ceq (Role m) CoreRoleStandby)
  && (ceq (ReplicaState m) CoreReplicaAwaitingRestore || ceq (ReplicaState m) CoreReplicaVerified).

(** Each [INSERT INTO core_members], with its primary key and its checks. *)
Fixpoint insert_members (position : Z) (ms : list CoreMember) : tx CoreDB terr unit :=
  match ms with
  | [] => tx_ret tt
  | m :: rest =>
      db <- tx_get ;;
      if sql_exists (fun row => ceq (MemberID (fst row)) (MemberID m)) (core_members db)
      then tx_fail (ErrTopologyDB ErrDuplicateEntry)
      else if negb (member_row_ok m) then tx_fail (ErrTopologyDB ErrCheckViolation)
      else
        tx_modify (fun db => mkDB (core_authority db) (core_members db ++ [(m, position)]) (core_handoffs db)) ;;;
        insert_members (position + 1) rest
  end.

Definition ErrForeignKeyViolation : Z := 1452.

Definition handoff_row_ok (h : CoreHandoff) : bool :=
  (ceq (HandoffState h) CoreHandoffPrepared || ceq (HandoffState h) CoreHandoffFenced)
  && negb (ceq (FromID h) (ToID h))
  && (negb (ceq (HandoffState h) CoreHandoffFenced) || match FencedAt h with None => false | Some _ => true end).

Definition insert_handoff (h : CoreHandoff) : tx CoreDB terr unit :=
  db <- tx_get ;;
  if negb (handoff_row_ok h) then tx_fail (ErrTopologyDB ErrCheckViolation)
  else if negb (sql_exists (fun row => ceq (MemberID (fst row)) (FromID h)) (core_members db)
                && sql_exists (fun row => ceq (MemberID (fst row)) (ToID h)) (core_members db))
  then tx_fail (ErrTopologyDB ErrForeignKeyViolation)
  else tx_modify (fun db => mkDB (core_authority db) (core_members db) (Some h)).

Definition writeState (s : stateFile) (create : bool) : tx CoreDB terr unit :=
  db <- tx_get ;;
  (match core_authority db, create with
   | Some _, true => tx_fail (ErrTopologyDB ErrDuplicateEntry)
   | None, false => tx_ret tt
   | _, _ => if Epoch s <? 1 then tx_fail (ErrTopologyDB ErrCheckViolation)
             else tx_modify (fun db => mkDB (Some (nullable (ActiveID s), Epoch s))
                                         (core_members db) (core_handoffs db))
   end) ;;;
  tx_modify (fun db => mkDB (core_authority db) [] None) ;;;
  insert_members 0 (Members s) ;;;
  match Handoff s with
  | None => tx_ret tt
  | Some h => insert_handoff h
  end.

(** ** Decisions on a loaded state *)

Fixpoint index_of (id : string) (ms : list CoreMember) (i : nat) : option nat :=
  match ms with
  | [] => None
  | m :: rest => if (MemberID m =? id)%string then Some i else index_of id rest (S i)
  end.

Definition memberIndexLocked (s : stateFile) (id : string) : option nat := index_of id (Members s) 0.

Definition hasMemberLocked (s : stateFile) (id : string) : bool :=
  match memberIndexLocked s id with Some _ => true | None => false end.

Definition member_at (s : stateFile) (i : nat) : CoreMember :=
  nth i (Members s) (mkMember "" "" "" None "" "" "").

Definition localRoleLocked (config : Config) (s : stateFile) : string :=
  match memberIndexLocked s (cfg_ID config) with
  | Some i => Role (member_at s i)
  | None => CoreRoleStandby
  end.

Definition canManageLocked (config : Config) (s : stateFile) : bool :=
  (ActiveID s =? cfg_ID config)%string && (localRoleLocked config s =? CoreRoleActive)%string.

Definition with_members (f : list CoreMember -> list CoreMember) (s : stateFile) : stateFile :=
  mkState (ActiveID s) (Epoch s) (Handoff s) (f (Members s)) (Version s).
Definition with_handoff (h : option CoreHandoff) (s : stateFile) : stateFile :=
  mkState (ActiveID s) (Epoch s) h (Members s) (Version s).
Definition with_active (id : string) (epoch : Z) (s : stateFile) : stateFile :=
  mkState id epoch (Handoff s) (Members s) (Version s).

Definition set_role (role : string) (m : CoreMember) : CoreMember :=
  mkMember (AgentServerID m) (Endpoint m) (MemberID m) (LastCheckpointAt m) (MemberName m) (ReplicaState m) role.
Definition set_verified (m : CoreMember) : CoreMember :=
  mkMember (AgentServerID m) (Endpoint m) (MemberID m) (LastCheckpointAt m) (MemberName m)
    CoreReplicaVerified (Role m).
Definition set_checkpoint (t : Z) (m : CoreMember) : CoreMember :=
  mkMember (AgentServerID m) (Endpoint m) (MemberID m) (Some t) (MemberName m) (ReplicaState m) (Role m).

Definition update_at (i : nat) (f : CoreMember -> CoreMember) : stateFile -> stateFile :=
  with_members (fun ms => alter f i ms).

(** [statusLocked]: the active member first, then by name. *)
Definition member_before (a b : CoreMember) : bool :=
  if (Role a =? Role b)%string then String.ltb (MemberName a) (MemberName b)
  else (Role a =? CoreRoleActive)%string.

Fixpoint insert_member (x : CoreMember) (l : list CoreMember) : list CoreMember :=
  match l with
  | [] => [x]
  | y :: l' => if member_before y x then y :: insert_member x l' else x :: y :: l'
  end.

Definition statusLocked (config : Config) (s : stateFile) : CoreTopology :=
  mkTopology (ActiveID s) (Epoch s) (canManageLocked config s) (Handoff s) (cfg_ID config)
    (localRoleLocked config s) (fold_right insert_member [] (Members s)).

(** ** Operations *)

(** [transact]: one validated change of a freshly locked read. *)
Definition transact (vs : list verdict) (config : Config) (fn : stateFile -> result terr stateFile)
    : tx CoreDB terr CoreTopology :=
  WithTx vs
    (db <- tx_get ;;
     match loadState db with
     | None => tx_fail ErrNotInitialised
     | Some s =>
         s' <- tx_lift (fn s) ;;
         tx_lift (validateState s') ;;;
         writeState s' false ;;;
         tx_ret (statusLocked config s')
     end).

(** One run of the transaction of [Open]. *)
Definition open_tx (config : Config) : tx CoreDB terr stateFile :=
  db <- tx_get ;;
  match loadState db with
  | None =>
      let s := mkState (if (cfg_Mode config =? CoreRoleActive)%string then cfg_ID config else "") 1 None
                 [newLocalMember config] storeVersion in
      writeState s true ;;; tx_ret s
  | Some s =>
      tx_lift (validateState s) ;;;
      if hasMemberLocked s (cfg_ID config) then tx_ret s
      else
        let s' := with_members (fun ms => ms ++
          [mkMember "" (cfg_Endpoint config) (cfg_ID config) None (cfg_Name config)
             CoreReplicaAwaitingRestore CoreRoleStandby]) s in
        writeState s' false ;;; tx_ret s'
  end.

(** [Open] starts over when another core created the singleton first; each run
    of it has its own verdicts. *)
Fixpoint open_runs (runs : list (list verdict)) (config : Config) : tx CoreDB terr stateFile :=
  match runs with
  | [] => tx_fail ErrOpenAgain
  | vs :: rest => fun db =>
      match WithTx vs (open_tx config) db with
      | (Ok s, db') => (Ok s, db')
      | (Err e, db') => if IsDuplicate e then open_runs rest config db' else (Err e, db')
      end
  end.

Definition Open (runs : list (list verdict)) (config : Config) : tx CoreDB terr (Config * stateFile) :=
  config <- tx_lift (normalizeConfig config) ;;
  s <- open_runs runs config ;;
  tx_ret (config, s).

(** [refresh]: an unlocked read, which fails when the database is unreachable. *)
Definition refresh (readable : bool) (db : CoreDB) : option stateFile :=
  if readable then loadState db else None.

Definition CanManage (readable : bool) (config : Config) (db : CoreDB) : bool :=
  match refresh readable db with
  | None => false
  | Some s => canManageLocked config s
  end.

Definition AuthorityEpoch (readable : bool) (cached : stateFile) (db : CoreDB) : Z :=
  let s := match refresh readable db with None => cached | Some s => s end in
  if Epoch s =? 0 then 1 else Epoch s.

Definition Status (readable : bool) (config : Config) (cached : stateFile) (db : CoreDB) : CoreTopology :=
  match refresh readable db with
  | Some s => statusLocked config s
  | None =>
      let t := statusLocked config cached in
      mkTopology (top_ActiveID t) (top_Epoch t) false (top_Handoff t) (top_LocalID t) (top_LocalRole t) (top_Members t)
  end.

Definition add_replica (config : Config) (member : CoreMember) (s : stateFile) : result terr stateFile :=
  if negb (canManageLocked config s) then Err ErrStandby
  else if hasMemberLocked s (MemberID member) then Err ErrMemberExists
  else Ok (with_members (fun ms => ms ++ [member]) s).

Definition AddReplica (vs : list verdict) (config : Config) (input : ReplicaInput) : tx CoreDB terr CoreTopology :=
  member <- tx_lift (normalizeReplica input) ;;
  transact vs config (add_replica config member).

Definition verify_replica (now : Z) (config : Config) (id : string) (s : stateFile) : result terr stateFile :=
  if negb (canManageLocked config s) then Err ErrStandby
  else match memberIndexLocked s id with
  | None => Err ErrStandbyNotFound
  | Some i =>
      if negb (Role (member_at s i) =? CoreRoleStandby)%string then Err ErrStandbyNotFound
      else Ok (update_at i (fun m => set_checkpoint (timestamp_of now) (set_verified m)) s)
  end.

Definition VerifyReplica (vs : list verdict) (now : Z) (config : Config) (id : string)
    : tx CoreDB terr CoreTopology :=
  transact vs config (verify_replica now config id).

Definition prepare_handoff (now : Z) (config : Config) (targetID : string) (s : stateFile)
    : result terr stateFile :=
  if negb (canManageLocked config s) then Err ErrStandby
  else match memberIndexLocked s targetID with
  | None => Err ErrNotVerified
  | Some i =>
      if negb (Role (member_at s i) =? CoreRoleStandby)%string
         || negb (ReplicaState (member_at s i) =? CoreReplicaVerified)%string
      then Err ErrNotVerified
      else match Handoff s with
           | Some _ => Err ErrHandoffInProgress
           | None => Ok (with_handoff (Some (mkHandoff None (cfg_ID config) (timestamp_of now)
                                               CoreHandoffPrepared targetID)) s)
           end
  end.

Definition PrepareHandoff (vs : list verdict) (now : Z) (config : Config) (targetID : string)
    : tx CoreDB terr CoreTopology :=
  transact vs config (prepare_handoff now config targetID).

Definition fence_handoff (now : Z) (config : Config) (targetID : string) (s : stateFile)
    : result terr stateFile :=
  if negb (canManageLocked config s) then Err ErrStandby
  else match Handoff s with
  | None => Err ErrNoPreparedHandoff
  | Some h =>
      if negb (HandoffState h =? CoreHandoffPrepared)%string || negb (FromID h =? cfg_ID config)%string
         || negb (ToID h =? targetID)%string
      then Err ErrNoPreparedHandoff
      else match memberIndexLocked s (cfg_ID config) with
      | None => Err ErrLocalNotFound
      | Some i =>
          Ok (with_handoff (Some (mkHandoff (Some (timestamp_of now)) (FromID h) (PreparedAt h)
                                    CoreHandoffFenced (ToID h)))
                (update_at i (set_role CoreRoleStandby) (with_active "" (Epoch s) s)))
      end
  end.

Definition FenceForHandoff (vs : list verdict) (now : Z) (config : Config) (targetID : string)
    : tx CoreDB terr CoreTopology :=
  transact vs config (fence_handoff now config targetID).

Definition planned_for (config : Config) (s : stateFile) : bool :=
  match Handoff s with
  | None => false
  | Some h => (HandoffState h =? CoreHandoffFenced)%string && (ToID h =? cfg_ID config)%string
  end.

Definition promote_local (config : Config) (emergency : bool) (s : stateFile) : result terr stateFile :=
  match memberIndexLocked s (cfg_ID config) with
  | None => Err ErrNotStandby
  | Some localIndex =>
      if negb (Role (member_at s localIndex) =? CoreRoleStandby)%string then Err ErrNotStandby
      else if negb (planned_for config s) && negb emergency then Err ErrHandoffRequired
      else
        let s1 := match memberIndexLocked s (ActiveID s) with
                  | Some i => update_at i (set_role CoreRoleStandby) s
                  | None => s
                  end in
        let s2 := with_active (cfg_ID config) (uint64_of (Epoch s + 1)) s1 in
        Ok (with_handoff None
              (update_at localIndex (fun m => set_verified (set_role CoreRoleActive m)) s2))
  end.

Definition PromoteLocal (vs : list verdict) (config : Config) (emergency : bool) : tx CoreDB terr CoreTopology :=
  transact vs config (promote_local config emergency).

End Topology.
