(* ===== verification/CoreAuthority.v ===== *)
(** * Who may act: properties of the core topology

    [topology_ok] is what every committed topology satisfies; [authority_step]
    is the abstract protocol, in which the authority is held by one core or by
    nobody and each new holder starts a new epoch; every operation of
    CoreTopology.v refines it. *)

From Stdlib Require Import ZArith Lia Bool Ascii String Sorting.
From stdpp Require Import base tactics list strings.
From S2P Require Import Prelude GoStrings Sqlstore CoreTopology.

Local Open Scope string_scope.
Local Open Scope list_scope.
Local Open Scope bool_scope.
Local Open Scope Z_scope.

Section Authority.
Context `{NetLib} `{Collation}.

(** ** Well-formed topologies *)

Record topology_ok (s : stateFile) : Prop := {
  ok_version : Version s = storeVersion;
  ok_epoch : 1 <= Epoch s;
  ok_members : Members s <> [];
  ok_nodup : NoDup (map MemberID (Members s));
  ok_ids : forall m, In m (Members s) -> validCoreID (MemberID m) = true;
  ok_roles : forall m, In m (Members s) -> Role m = CoreRoleActive \/ Role m = CoreRoleStandby;
  ok_replicas : forall m, In m (Members s) ->
    ReplicaState m = CoreReplicaAwaitingRestore \/ ReplicaState m = CoreReplicaVerified;
  ok_active : forall m, In m (Members s) -> Role m = CoreRoleActive -> MemberID m = ActiveID s;
  ok_holder : ActiveID s <> "" ->
    exists m, In m (Members s) /\ MemberID m = ActiveID s /\ Role m = CoreRoleActive;
  ok_handoff : forall h, Handoff s = Some h ->
    In (FromID h) (map MemberID (Members s)) /\ In (ToID h) (map MemberID (Members s)) /\ FromID h <> ToID h }.

Lemma eqb_true a b : (a =? b)%string = true <-> a = b.
Proof. apply String.eqb_eq. Qed.

Lemma eqb_false a b : (a =? b)%string = false <-> a <> b.
Proof. apply String.eqb_neq. Qed.

Lemma valid_core_nonempty id : validCoreID id = true -> id <> "".
Proof. by intros Hv ->. Qed.

Lemma seen_id_In ms id : seen_id ms id = true <-> In id (map MemberID ms).
Proof.
  unfold seen_id. rewrite existsb_exists, in_map_iff.
  split; intros (m & H1 & H2); exists m; rewrite eqb_true in *; auto.
Qed.

Lemma members_valid_spec active seen ms :
  members_valid active seen ms = true ->
  NoDup (map MemberID ms) /\
  (forall m, In m ms -> validCoreID (MemberID m) = true /\ ~ In (MemberID m) seen /\
     (Role m = CoreRoleActive \/ Role m = CoreRoleStandby) /\
     (ReplicaState m = CoreReplicaAwaitingRestore \/ ReplicaState m = CoreReplicaVerified) /\
     (Role m = CoreRoleActive -> MemberID m = active)).
Proof.
  revert seen. induction ms as [|m ms IH]; intros seen Hv; [split; [constructor|by intros m []]|].
  simpl in Hv. apply andb_true_iff in Hv as [Hm Hrest]. apply IH in Hrest as [Hnd Hall].
  unfold member_valid in Hm. rewrite !andb_true_iff, !orb_true_iff, !eqb_true in Hm.
  destruct Hm as (((((Hid & Hs) & _) & Hr) & Hrs) & Ha). split.
  - simpl. constructor; [|done]. rewrite list_elem_of_In, in_map_iff. intros (x & Hx & Hin).
    destruct (Hall x Hin) as (_ & Hno & _). destruct Hno. by left.
  - intros x [<-|Hin].
    + repeat split; try done.
      * apply negb_true_iff in Hs. intros Hin.
        assert (existsb (String.eqb (MemberID m)) seen = true) as Hx; [|congruence].
        apply existsb_exists. exists (MemberID m). by rewrite String.eqb_refl.
      * intros Hact. destruct Ha as [Ha|Ha]; [|done]. apply negb_true_iff, eqb_false in Ha. congruence.
    + destruct (Hall x Hin) as (? & Hno & ?). repeat split; try tauto. intros Hx. apply Hno. by right.
Qed.

Lemma activeCount_pos ms : 0 < activeCount ms -> exists m, In m ms /\ Role m = CoreRoleActive.
Proof.
  unfold activeCount, sql_count, sql_where. intros Hc.
  destruct (List.filter is_active ms) as [|m l] eqn:F; [simpl in Hc; lia|].
  assert (In m (List.filter is_active ms)) as Hin by (rewrite F; by left).
  apply filter_In in Hin as [Hin Ha]. exists m. by apply eqb_true in Ha.
Qed.

(** What passing [validateState] means. *)
Lemma validateState_ok s : validateState s = Ok tt -> 1 <= Epoch s -> topology_ok s.
Proof.
  unfold validateState. intros Hv He.
  destruct (negb (Version s =? storeVersion) || _) eqn:B1; [discriminate|].
  destruct (members_valid (ActiveID s) [] (Members s)) eqn:B2; [|discriminate]. cbn [negb] in Hv.
  destruct (negb (ActiveID s =? "")%string && negb (seen_id (Members s) (ActiveID s))) eqn:B3; [discriminate|].
  destruct ((ActiveID s =? "")%string && negb (activeCount (Members s) =? 0)) eqn:B4; [discriminate|].
  destruct (negb (ActiveID s =? "")%string && negb (activeCount (Members s) =? 1)) eqn:B5; [discriminate|].
  apply orb_false_elim in B1 as [B1 B1']. apply members_valid_spec in B2 as [Hnd Hall].
  split.
  - apply negb_false_iff in B1. lia.
  - done.
  - intros E. by rewrite E in B1'.
  - done.
  - intros m Hm. by apply Hall.
  - intros m Hm. by apply Hall.
  - intros m Hm. by apply Hall.
  - intros m Hm. by apply Hall.
  - intros Hne. apply eqb_false in Hne. rewrite Hne in B5. cbn [negb andb] in B5.
    destruct (activeCount_pos (Members s)) as (m & Hm & Hr); [lia|].
    exists m. repeat split; [done| |done]. by apply Hall.
  - intros h Hh. rewrite Hh in Hv. unfold handoff_valid in Hv.
    destruct (seen_id (Members s) (FromID h)) eqn:S1; [|discriminate].
    destruct (seen_id (Members s) (ToID h)) eqn:S2; [|discriminate].
    destruct (FromID h =? ToID h)%string eqn:S3; [discriminate|].
    apply seen_id_In in S1, S2. by apply eqb_false in S3.
Qed.

(** ** Reading back what was written *)

Fixpoint positioned (p : Z) (ms : list CoreMember) : list (CoreMember * Z) :=
  match ms with [] => [] | m :: rest => (m, p) :: positioned (p + 1) rest end.

Lemma positioned_fst p ms : map fst (positioned p ms) = ms.
Proof. revert p. induction ms as [|m ms IH]; intros p; simpl; [done|]. by rewrite IH. Qed.

Lemma positioned_ge p ms row : In row (positioned p ms) -> p <= snd row.
Proof.
  revert p. induction ms as [|m ms IH]; intros p; simpl; [done|].
  intros [<-|Hin]; [simpl; lia|]. specialize (IH _ Hin). lia.
Qed.

Lemma positioned_sorted p ms :
  StronglySorted (key_le (fun row : CoreMember * Z => (snd row, 0))) (positioned p ms).
Proof.
  revert p. induction ms as [|m ms IH]; intros p; simpl; constructor; [apply IH|].
  apply Forall_forall. intros row Hrow%list_elem_of_In%positioned_ge.
  unfold key_le, lex_le. simpl. lia.
Qed.

Lemma insert_members_ok p ms db u db' :
  insert_members p ms db = (Ok u, db') ->
  db' = mkDB (core_authority db) (core_members db ++ positioned p ms) (core_handoffs db).
Proof.
  revert p db. induction ms as [|m ms IH]; intros p db; simpl.
  - intros [= _ <-]. rewrite app_nil_r. by destruct db.
  - unfold tx_bind at 1, tx_get. destruct (sql_exists _ _); [discriminate|].
    destruct (member_row_ok m); cbn [negb]; [|discriminate].
    unfold tx_bind, tx_modify. intros Hi%IH. rewrite Hi. simpl. by rewrite <- app_assoc.
Qed.

Lemma insert_handoff_ok h db u db' :
  insert_handoff h db = (Ok u, db') -> db' = mkDB (core_authority db) (core_members db) (Some h).
Proof.
  unfold insert_handoff, tx_bind, tx_get. destruct (negb (handoff_row_ok h)); [discriminate|].
  destruct (negb _); [discriminate|]. by intros [= _ <-].
Qed.

Lemma writeState_ok s create db u db' :
  writeState s create db = (Ok u, db') -> (create = true \/ core_authority db <> None) ->
  db' = mkDB (Some (nullable (ActiveID s), Epoch s)) (positioned 0 (Members s)) (Handoff s) /\ 1 <= Epoch s.
Proof.
  intros Hw Hc. unfold writeState in Hw. unfold tx_bind at 1, tx_get in Hw.
  assert (exists db1, core_authority db1 = Some (nullable (ActiveID s), Epoch s) /\ 1 <= Epoch s /\
    (tx_bind (tx_modify (fun db => mkDB (core_authority db) [] None)) (fun _ =>
     tx_bind (insert_members 0 (Members s)) (fun _ =>
     match Handoff s with None => tx_ret tt | Some h => insert_handoff h end))) db1 = (Ok u, db'))
    as (db1 & Ha & He & Hr).
  { unfold tx_bind at 1 in Hw. destruct (core_authority db) as [[a e]|] eqn:A, create; try discriminate Hw.
    - destruct (Epoch s <? 1) eqn:E; [discriminate|]. simpl in Hw. eexists. split; [|split; [|exact Hw]]; [done|lia].
    - destruct (Epoch s <? 1) eqn:E; [discriminate|]. simpl in Hw. eexists. split; [|split; [|exact Hw]]; [done|lia].
    - by destruct Hc. }
  split; [|done]. unfold tx_bind at 1, tx_modify in Hr. unfold tx_bind at 1 in Hr.
  destruct (insert_members 0 (Members s) _) as [[[]|] db2] eqn:I; [|discriminate].
  apply insert_members_ok in I. simpl in I. subst db2.
  destruct (Handoff s) as [h|].
  - apply insert_handoff_ok in Hr. simpl in Hr. by rewrite Ha in Hr.
  - injection Hr as _ <-. by rewrite Ha.
Qed.

Lemma of_null_nullable v : of_null (nullable v) = v.
Proof. unfold nullable. destruct (v =? "")%string eqn:E; [|done]. by apply eqb_true in E. Qed.

(** A committed state is what the next read returns. *)
Lemma written_state_reads_back s create db u db' :
  writeState s create db = (Ok u, db') -> (create = true \/ core_authority db <> None) ->
  Version s = storeVersion -> loadState db' = Some s /\ 1 <= Epoch s.
Proof.
  intros Hw Hc Hv. apply writeState_ok in Hw as [-> He]; [|done]. split; [|done].
  unfold loadState. simpl. rewrite order_by_id by apply positioned_sorted.
  rewrite positioned_fst, of_null_nullable, <- Hv. by destruct s.
Qed.

(** A committed change: what was read, what the change made of it, and that the
    result is valid and reads back. *)
Lemma transact_ok vs config fn db t db' :
  transact vs config fn db = (Ok t, db') ->
  exists s s', loadState db = Some s /\ fn s = Ok s' /\ topology_ok s' /\ loadState db' = Some s' /\
    t = statusLocked config s'.
Proof.
  intros Ht%WithTx_ok. unfold tx_bind at 1, tx_get in Ht.
  destruct (loadState db) as [s|] eqn:L; [|discriminate].
  rewrite lift_bind in Ht. destruct (fn s) as [s'|] eqn:F; [|discriminate].
  rewrite lift_bind in Ht. destruct (validateState s') as [[]|] eqn:V; [|discriminate].
  unfold tx_bind in Ht. destruct (writeState s' false db) as [[[]|] db1] eqn:W; [|discriminate].
  injection Ht as <- <-.
  assert (core_authority db <> None) as Ha by (unfold loadState in L; by destruct (core_authority db)).
  assert (Version s' = storeVersion) as Hv.
  { unfold validateState in V. destruct (Version s' =? storeVersion) eqn:E; [lia|discriminate V]. }
  destruct (written_state_reads_back _ _ _ _ _ W (or_intror Ha) Hv) as [Hl He].
  exists s, s'. repeat (split; [done|]). split; [by apply validateState_ok|done].
Qed.

(** Whatever is reported, the change was rolled back or committed. *)
Lemma transact_cases vs config fn db r db' :
  transact vs config fn db = (r, db') ->
  db' = db \/ exists s s', loadState db = Some s /\ fn s = Ok s' /\ topology_ok s' /\ loadState db' = Some s'.
Proof.
  intros [->|[t Ht]]%WithTx_cases; [by left|right].
  destruct (transact_ok [] config fn db t db') as (s & s' & ? & ? & ? & ? & _); [by apply WithTx_commits|].
  by exists s, s'.
Qed.

(** ** The abstract protocol *)

Definition authority (s : stateFile) : string * Z := (ActiveID s, Epoch s).

(** What one step of the core [me] may do to the holder and the epoch. *)
Inductive authority_step (me : string) : string * Z -> string * Z -> Prop :=
| auth_keep a : authority_step me a a
| auth_release e : authority_step me (me, e) ("", e)
| auth_take holder e : holder <> me -> authority_step me (holder, e) (me, uint64_of (e + 1)).

Lemma index_of_spec id ms i j :
  index_of id ms i = Some j -> exists m, nth_error ms (j - i) = Some m /\ MemberID m = id /\ (i <= j)%nat.
Proof.
  revert i. induction ms as [|m ms IH]; intros i; simpl; [discriminate|].
  destruct (MemberID m =? id)%string eqn:E.
  - intros [= <-]. exists m. rewrite Nat.sub_diag. by apply eqb_true in E.
  - intros Hi. apply IH in Hi as (m' & Hn & Hid & Hle). exists m'.
    replace (j - i)%nat with (S (j - S i)) by lia. split; [done|]. split; [done|lia].
Qed.

Lemma memberIndex_spec s id i :
  memberIndexLocked s id = Some i ->
  nth_error (Members s) i = Some (member_at s i) /\ In (member_at s i) (Members s) /\ MemberID (member_at s i) = id.
Proof.
  intros (m & Hn & Hid & _)%index_of_spec. rewrite Nat.sub_0_r in Hn.
  assert (member_at s i = m) as -> by by apply nth_error_nth. split; [done|].
  split; [by eapply nth_error_In|done].
Qed.

Lemma index_of_None id ms i : index_of id ms i = None -> ~ In id (map MemberID ms).
Proof.
  revert i. induction ms as [|m ms IH]; intros i; simpl; [tauto|].
  destruct (MemberID m =? id)%string eqn:E; [discriminate|]. apply eqb_false in E.
  intros Hi [Hm|Hin]; [done|]. by apply (IH (S i)).
Qed.

(** The id of a member determines it. *)
Lemma member_unique s m m' :
  topology_ok s -> In m (Members s) -> In m' (Members s) -> MemberID m = MemberID m' -> m = m'.
Proof.
  intros Hok Hm Hm' Hid. pose proof (ok_nodup _ Hok) as Hnd. revert Hm Hm' Hnd.
  generalize (Members s) as ms. induction ms as [|x ms IH]; [done|].
  simpl. intros [->|Hm] [->|Hm'] Hnd; inversion Hnd as [|? ? Hno Hnd']; subst; auto.
  - destruct Hno. apply list_elem_of_In, in_map_iff. by exists m'.
  - destruct Hno. apply list_elem_of_In, in_map_iff. by exists m.
Qed.

Lemma canManage_active config s : canManageLocked config s = true -> ActiveID s = cfg_ID config.
Proof. unfold canManageLocked. intros [Ha _]%andb_true_iff. by apply eqb_true in Ha. Qed.

Lemma promote_local_takes config emergency s s' :
  topology_ok s -> promote_local config emergency s = Ok s' ->
  ActiveID s <> cfg_ID config /\ ActiveID s' = cfg_ID config /\ Epoch s' = uint64_of (Epoch s + 1) /\
  (emergency = true \/ planned_for config s = true).
Proof.
  intros Hok. unfold promote_local. destruct (memberIndexLocked s (cfg_ID config)) as [i|] eqn:I; [|discriminate].
  apply memberIndex_spec in I as (_ & Hin & Hid).
  destruct (negb (Role (member_at s i) =? CoreRoleStandby)%string) eqn:R; [discriminate|].
  apply negb_false_iff, eqb_true in R.
  destruct (negb (planned_for config s) && negb emergency) eqn:P; [discriminate|]. intros [= <-].
  split; [|split; [done|split]].
  - intros Ha. assert (MemberID (member_at s i) = ActiveID s) as Hm by congruence.
    destruct (ok_holder _ Hok) as (m & Hmin & Hmid & Hmr).
    + rewrite <- Hm. by apply valid_core_nonempty, (ok_ids _ Hok).
    + assert (m = member_at s i) as -> by (apply (member_unique s); [done..|congruence]).
      rewrite R in Hmr. discriminate Hmr.
  - by destruct (memberIndexLocked s (ActiveID s)).
  - apply andb_false_iff in P as [P|P]; apply negb_false_iff in P; auto.
Qed.

(** ** Calls *)

Inductive core_call :=
| COpen (runs : list (list verdict)) (config : Config)
| CAddReplica (vs : list verdict) (config : Config) (input : ReplicaInput)
| CVerifyReplica (vs : list verdict) (now : Z) (config : Config) (id : string)
| CPrepareHandoff (vs : list verdict) (now : Z) (config : Config) (target : string)
| CFenceForHandoff (vs : list verdict) (now : Z) (config : Config) (target : string)
| CPromoteLocal (vs : list verdict) (config : Config) (emergency : bool).

Definition core_exec (c : core_call) (db : CoreDB) : CoreDB :=
  match c with
  | COpen runs config => snd (Open runs config db)
  | CAddReplica vs config input => snd (AddReplica vs config input db)
  | CVerifyReplica vs now config id => snd (VerifyReplica vs now config id db)
  | CPrepareHandoff vs now config target => snd (PrepareHandoff vs now config target db)
  | CFenceForHandoff vs now config target => snd (FenceForHandoff vs now config target db)
  | CPromoteLocal vs config emergency => snd (PromoteLocal vs config emergency db)
  end.

(** The core that makes a call. *)
Definition caller (c : core_call) : string :=
  match c with
  | COpen _ config | CAddReplica _ config _ | CVerifyReplica _ _ config _ | CPrepareHandoff _ _ config _
  | CFenceForHandoff _ _ config _ | CPromoteLocal _ config _ => cfg_ID config
  end.

Definition core_run (cs : list core_call) (db : CoreDB) : CoreDB := fold_left (fun db c => core_exec c db) cs db.

Definition empty_core : CoreDB := mkDB None [] None.

Definition core_ok (db : CoreDB) : Prop := forall s, loadState db = Some s -> topology_ok s.

(** How a call changes the topology: not at all, or to a valid one along the
    protocol, or from nothing to the first one. *)
Definition core_evolves (me : string) (db db' : CoreDB) : Prop :=
  loadState db' = loadState db \/
  (exists s s', loadState db = Some s /\ loadState db' = Some s' /\ topology_ok s' /\
     authority_step me (authority s) (authority s')) \/
  (loadState db = None /\ exists s', loadState db' = Some s' /\ topology_ok s' /\ Epoch s' = 1).

Lemma transact_evolves me vs config fn db r db' :
  core_ok db ->
  (forall s s', topology_ok s -> fn s = Ok s' -> authority_step me (authority s) (authority s')) ->
  transact vs config fn db = (r, db') -> core_evolves me db db'.
Proof.
  intros Hok Hfn [->|(s & s' & Hl & Hf & Hok' & Hl')]%transact_cases; [by left|].
  right. left. exists s, s'. eauto 6.
Qed.

Lemma normalizeConfig_ok c c' :
  normalizeConfig c = Ok c' ->
  validCoreID (cfg_ID c') = true /\ (cfg_Mode c' = CoreRoleActive \/ cfg_Mode c' = CoreRoleStandby).
Proof.
  unfold normalizeConfig. cbv zeta. destruct (negb (validCoreID _)) eqn:V; [discriminate|].
  destruct (_ || has_control _); [discriminate|].
  destruct (negb _ && negb _) eqn:M; [discriminate|]. destruct (normalizeEndpoint _ _); [|discriminate].
  intros [= <-]. simpl. apply negb_false_iff in V. split; [done|].
  apply andb_false_iff in M as [M|M]; apply negb_false_iff, eqb_true in M; auto.
Qed.

Lemma first_topology_ok config :
  validCoreID (cfg_ID config) = true -> cfg_Mode config = CoreRoleActive \/ cfg_Mode config = CoreRoleStandby ->
  topology_ok (mkState (if (cfg_Mode config =? CoreRoleActive)%string then cfg_ID config else "") 1 None
                 [newLocalMember config] storeVersion).
Proof.
  intros Hv Hm. unfold newLocalMember. split; simpl; [done|lia|done|apply NoDup_singleton|..].
  - by intros m [<-|[]].
  - by intros m [<-|[]].
  - intros m [<-|[]]. simpl. destruct (_ =? _)%string; auto.
  - intros m [<-|[]]. simpl. intros ->. done.
  - destruct (cfg_Mode config =? CoreRoleActive)%string eqn:E; [|done]. apply eqb_true in E.
    intros _. eexists. split; [by left|]. done.
  - done.
Qed.

Lemma open_appended_ok s m :
  topology_ok s -> validCoreID (MemberID m) = true -> ~ In (MemberID m) (map MemberID (Members s)) ->
  Role m = CoreRoleStandby -> ReplicaState m = CoreReplicaAwaitingRestore ->
  topology_ok (with_members (fun ms => ms ++ [m]) s).
Proof.
  intros [] Hv Hno Hr Hrs. split; simpl; try done.
  - by destruct (Members s).
  - rewrite map_app. apply NoDup_app. split; [done|]. simpl. split.
    + intros x Hx Hin. apply list_elem_of_singleton in Hin as ->. apply Hno. by apply list_elem_of_In.
    + apply NoDup_singleton.
  - intros x [Hx|[<-|[]]]%in_app_or; auto.
  - intros x [Hx|[<-|[]]]%in_app_or; auto.
  - intros x [Hx|[<-|[]]]%in_app_or; auto.
  - intros x [Hx|[<-|[]]]%in_app_or Ha; auto. rewrite Hr in Ha. discriminate Ha.
  - intros Hne. destruct (ok_holder0 Hne) as (x & Hx & ?). exists x. split; [apply in_or_app; by left|done].
  - intros h Hh. destruct (ok_handoff0 h Hh) as (H1 & H2 & H3).
    rewrite map_app. repeat split; [apply in_or_app; by left|apply in_or_app; by left|done].
Qed.

Lemma open_tx_evolves me config db s db' :
  core_ok db -> validCoreID (cfg_ID config) = true ->
  cfg_Mode config = CoreRoleActive \/ cfg_Mode config = CoreRoleStandby ->
  open_tx config db = (Ok s, db') -> core_evolves me db db'.
Proof.
  intros Hok Hv Hm Ho. unfold open_tx in Ho. unfold tx_bind at 1, tx_get in Ho.
  destruct (loadState db) as [s0|] eqn:L.
  - rewrite lift_bind in Ho. destruct (validateState s0) as [[]|]; [|discriminate].
    destruct (hasMemberLocked s0 (cfg_ID config)) eqn:M; [injection Ho as _ <-; by left|].
    cbv zeta in Ho. unfold tx_bind in Ho.
    destruct (writeState _ false db) as [[[]|] db1] eqn:W; [|discriminate]. injection Ho as _ <-.
    pose proof (Hok s0 L) as Hok0.
    assert (core_authority db <> None) as Ha by (unfold loadState in L; by destruct (core_authority db)).
    eapply written_state_reads_back in W as [Hl _]; [|by right|apply Hok0].
    right. left. exists s0. eexists. split; [done|]. split; [exact Hl|]. split; [|apply auth_keep].
    apply open_appended_ok; [done|done| |done|done].
    unfold hasMemberLocked in M. destruct (memberIndexLocked s0 (cfg_ID config)) eqn:I; [discriminate|].
    by apply index_of_None in I.
  - cbv zeta in Ho. unfold tx_bind in Ho.
    destruct (writeState _ true db) as [[[]|] db1] eqn:W; [|discriminate]. injection Ho as _ <-.
    eapply written_state_reads_back in W as [Hl _]; [|by left|done].
    right. right. split; [done|]. eexists. split; [exact Hl|]. split; [by apply first_topology_ok|done].
Qed.

Lemma open_runs_evolves me runs config db r db' :
  core_ok db -> validCoreID (cfg_ID config) = true ->
  cfg_Mode config = CoreRoleActive \/ cfg_Mode config = CoreRoleStandby ->
  open_runs runs config db = (r, db') -> core_evolves me db db'.
Proof.
  intros Hok Hv Hm. revert db Hok. induction runs as [|vs runs IH]; intros db Hok; simpl.
  - intros [= _ <-]. by left.
  - destruct (WithTx vs (open_tx config) db) as [[s|e] db1] eqn:W.
    + intros [= _ <-]. apply WithTx_ok in W. by eapply open_tx_evolves.
    + destruct (IsDuplicate e) eqn:D.
      * apply WithTx_rolled_back in W as ->; [by apply IH|by apply duplicate_not_lost].
      * intros [= _ <-]. apply WithTx_cases in W as [->|[s W]]; [by left|by eapply open_tx_evolves].
Qed.

Ltac keeps_authority :=
  let H := fresh in intros H;
  repeat match type of H with
         | (if ?b then _ else _) = _ => destruct b; try discriminate H
         | (match ?o with _ => _ end) = _ => destruct o; try discriminate H
         end; injection H as <-; apply auth_keep.

Lemma core_exec_evolves c db : core_ok db -> core_evolves (caller c) db (core_exec c db).
Proof.
  intros Hok. destruct c; simpl.
  - unfold Open. rewrite lift_bind. destruct (normalizeConfig config) as [c'|] eqn:N; [|by left].
    apply normalizeConfig_ok in N as [Hv Hm]. unfold tx_bind.
    destruct (open_runs runs c' db) as [[s|e] db1] eqn:R; simpl; by eapply open_runs_evolves.
  - unfold AddReplica. rewrite lift_bind. destruct (normalizeReplica input); [|by left].
    destruct (transact _ _ _ db) as [r db1] eqn:T. eapply transact_evolves; [done| |exact T].
    intros s s' _. unfold add_replica. keeps_authority.
  - destruct (VerifyReplica _ _ _ _ db) as [r db1] eqn:T. eapply transact_evolves; [done| |exact T].
    intros s s' _. unfold verify_replica. keeps_authority.
  - destruct (PrepareHandoff _ _ _ _ db) as [r db1] eqn:T. eapply transact_evolves; [done| |exact T].
    intros s s' _. unfold prepare_handoff. keeps_authority.
  - destruct (FenceForHandoff _ _ _ _ db) as [r db1] eqn:T. eapply transact_evolves; [done| |exact T].
    intros s s' _. unfold fence_handoff. destruct (canManageLocked config s) eqn:C; [|discriminate].
    cbn [negb]. destruct (Handoff s) as [h|]; [|discriminate]. destruct (_ || _ || _); [discriminate|].
    destruct (memberIndexLocked s _); [|discriminate]. intros [= <-].
    apply canManage_active in C. unfold authority. rewrite C. apply auth_release.
  - destruct (PromoteLocal _ _ _ db) as [r db1] eqn:T. eapply transact_evolves; [done| |exact T].
    intros s s' Hs Hp. apply promote_local_takes in Hp as (Hne & Ha & He & _); [|done].
    unfold authority. rewrite Ha, He. by apply auth_take.
Qed.

Lemma core_evolves_ok me db db' : core_ok db -> core_evolves me db db' -> core_ok db'.
Proof.
  intros Hok [E|[(s & s' & _ & Hl & Hs & _)|(_ & s' & Hl & Hs & _)]] x Hx.
  - apply Hok. congruence.
  - congruence.
  - congruence.
Qed.

Lemma core_run_ok cs db : core_ok db -> core_ok (core_run cs db).
Proof.
  revert db. induction cs as [|c cs IH]; intros db Hok; [done|].
  apply IH. eapply core_evolves_ok; [done|by apply core_exec_evolves].
Qed.

Lemma empty_core_ok : core_ok empty_core.
Proof. by intros s Hs. Qed.

(** ** Promotion goes through *)

Lemma alter_ids (f : CoreMember -> CoreMember) i ms :
  (forall m, MemberID (f m) = MemberID m) -> map MemberID (alter f i ms) = map MemberID ms.
Proof.
  intros Hf. revert i. induction ms as [|m ms IH]; intros [|i]; simpl; [done|done|by rewrite Hf|].
  f_equal. apply IH.
Qed.

(** The members after one of them was changed in columns other than its id. *)
Lemma alter_In (f : CoreMember -> CoreMember) i ms x m' :
  (forall m, MemberID (f m) = MemberID m) -> NoDup (map MemberID ms) -> nth_error ms i = Some x ->
  In m' (alter f i ms) <-> m' = f x \/ (In m' ms /\ MemberID m' <> MemberID x).
Proof.
  intros Hf. revert i. induction ms as [|m ms IH]; intros i Hnd Hi; [by destruct i|].
  simpl in Hnd. inversion Hnd as [|? ? Hno Hnd']; subst. rewrite list_elem_of_In in Hno.
  destruct i as [|i]; simpl in Hi |- *.
  - injection Hi as ->. split.
    + intros [<-|Hin]; [by left|right]. split; [by right|]. intros E. destruct Hno.
      rewrite <- E. by apply in_map.
    + intros [->|[[<-|Hin] Hne]]; [by left|done|by right].
  - assert (In (MemberID x) (map MemberID ms)) as Hx by (apply in_map; by eapply nth_error_In).
    change (In m' (m :: alter f i ms) <-> m' = f x \/ In m' (m :: ms) /\ MemberID m' <> MemberID x).
    split.
    + intros [<-|Hin]; [right; split; [by left|congruence]|].
      apply IH in Hin as [->|[Hin Hne]]; [by left|right; split; [by right|done]|done|done].
    + intros [->|[[<-|Hin] Hne]]; [right; apply IH; auto|by left|right; apply IH; auto].
Qed.

Lemma members_valid_intro active seen ms :
  NoDup (map MemberID ms) -> (forall m, In m ms -> ~ In (MemberID m) seen) ->
  (forall m, In m ms -> validCoreID (MemberID m) = true /\
     (exists e, normalizeEndpoint (Endpoint m) true = Ok e) /\
     (Role m = CoreRoleActive \/ Role m = CoreRoleStandby) /\
     (ReplicaState m = CoreReplicaAwaitingRestore \/ ReplicaState m = CoreReplicaVerified) /\
     (Role m = CoreRoleActive -> MemberID m = active)) ->
  members_valid active seen ms = true.
Proof.
  revert seen. induction ms as [|m ms IH]; intros seen Hnd Hs Hall; [done|].
  simpl in Hnd. inversion Hnd as [|? ? Hno Hnd']; subst. rewrite list_elem_of_In in Hno.
  simpl. apply andb_true_iff. split.
  - destruct (Hall m (or_introl eq_refl)) as (Hv & (e & He) & Hr & Hrs & Ha).
    unfold member_valid. rewrite Hv, He. rewrite !andb_true_iff, !orb_true_iff, !eqb_true.
    repeat split; auto.
    + apply negb_true_iff. destruct (existsb (String.eqb (MemberID m)) seen) eqn:X; [|done].
      apply existsb_exists in X as (y & Hy & Hy'). apply eqb_true in Hy' as <-.
      by destruct (Hs m (or_introl eq_refl)).
    + destruct (Role m =? CoreRoleActive)%string eqn:E; [right|by left].
      symmetry. apply Ha. by apply eqb_true in E.
  - apply IH; [done| |intros x Hx; apply Hall; by right].
    intros x Hx [E|Hin]; [|by apply (Hs x (or_intror Hx))].
    apply Hno. rewrite E. by apply in_map.
Qed.

Lemma NoDup_map_filter (p : CoreMember -> bool) ms :
  NoDup (map MemberID ms) -> NoDup (map MemberID (List.filter p ms)).
Proof.
  induction ms as [|m ms IH]; simpl; intros Hnd; [done|]. inversion Hnd as [|? ? Hno Hnd']; subst.
  destruct (p m); [|by apply IH]. simpl. constructor; [|by apply IH].
  rewrite list_elem_of_In in *. intros Hin. apply Hno.
  apply in_map_iff in Hin as (x & <- & Hx). apply filter_In in Hx as [Hx _]. by apply in_map.
Qed.

Lemma activeCount_one ms a m :
  NoDup (map MemberID ms) -> (forall x, In x ms -> Role x = CoreRoleActive -> MemberID x = a) ->
  In m ms -> Role m = CoreRoleActive -> activeCount ms = 1.
Proof.
  intros Hnd Ha Hm Hr. unfold activeCount, sql_count, sql_where.
  pose proof (NoDup_map_filter is_active ms Hnd) as Hf.
  assert (forall x, In x (List.filter is_active ms) -> MemberID x = a) as Hall.
  { intros x [Hx Hax]%filter_In. apply Ha; [done|]. by apply eqb_true in Hax. }
  assert (In m (List.filter is_active ms)) as Hin.
  { apply filter_In. split; [done|]. unfold is_active. by rewrite Hr. }
  destruct (List.filter is_active ms) as [|x [|y l]]; [done|done|].
  simpl in Hf. inversion Hf as [|? ? Hno _]; subst. destruct Hno.
  rewrite (Hall x (or_introl eq_refl)), (Hall y (or_intror (or_introl eq_refl))). by left.
Qed.

(** Primary keys of the member rows, as the database compares them. *)
Definition ids_distinct (ms : list CoreMember) : Prop :=
  ForallOrdPairs (fun a b => ceq a b = false) (map MemberID ms).

Lemma insert_members_succeeds p ms db :
  ids_distinct ms ->
  (forall row m, In row (core_members db) -> In m ms -> ceq (MemberID (fst row)) (MemberID m) = false) ->
  (forall m, In m ms -> member_row_ok m = true) ->
  insert_members p ms db =
  (Ok tt, mkDB (core_authority db) (core_members db ++ positioned p ms) (core_handoffs db)).
Proof.
  revert p db. induction ms as [|m ms IH]; intros p db Hd Hrows Hok; simpl.
  - rewrite app_nil_r. by destruct db.
  - unfold tx_bind at 1, tx_get.
    assert (sql_exists (fun row => ceq (MemberID row.1) (MemberID m)) (core_members db) = false) as ->.
    { destruct (sql_exists _ _) eqn:E; [|done]. apply sql_exists_true in E as (row & Hr & He).
      rewrite (Hrows row m Hr (or_introl eq_refl)) in He. done. }
    rewrite (Hok m (or_introl eq_refl)). cbn [negb]. unfold tx_bind, tx_modify.
    unfold ids_distinct in Hd. simpl in Hd. inversion Hd as [|? ? Hall Hd']; subst.
    rewrite IH; simpl; [by rewrite <- app_assoc|done| |intros x Hx; apply Hok; by right].
    intros row x [Hr|[<-|[]]]%in_app_or Hx; [apply Hrows; [done|by right]|].
    rewrite Forall_forall in Hall. simpl. apply Hall, list_elem_of_In. by apply in_map.
Qed.

Lemma member_row_valid m :
  Role m = CoreRoleActive \/ Role m = CoreRoleStandby ->
  ReplicaState m = CoreReplicaAwaitingRestore \/ ReplicaState m = CoreReplicaVerified ->
  member_row_ok m = true.
Proof.
  unfold member_row_ok. intros [->| ->] [->| ->]; rewrite !ceq_refl; by rewrite ?orb_true_r.
Qed.

(** The members a promotion writes. *)
Lemma promoted_members config emergency s s' :
  topology_ok s -> promote_local config emergency s = Ok s' ->
  map MemberID (Members s') = map MemberID (Members s) /\
  (exists y, In y (Members s') /\ MemberID y = cfg_ID config /\ Role y = CoreRoleActive) /\
  forall m', In m' (Members s') ->
    (exists x, In x (Members s) /\ MemberID m' = MemberID x /\ Endpoint m' = Endpoint x) /\
    ((MemberID m' = cfg_ID config /\ Role m' = CoreRoleActive /\ ReplicaState m' = CoreReplicaVerified) \/
     (exists x, In x (Members s) /\ ReplicaState m' = ReplicaState x /\ Role m' = CoreRoleStandby)).
Proof.
  intros Hok. unfold promote_local. destruct (memberIndexLocked s (cfg_ID config)) as [i|] eqn:I; [|discriminate].
  destruct (memberIndex_spec _ _ _ I) as (Hni & Hini & Hidi).
  destruct (negb _) eqn:R; [discriminate|]. apply negb_false_iff, eqb_true in R.
  destruct (_ && _); [discriminate|]. intros [= <-]. cbn [Members with_handoff update_at with_active with_members].
  set (s1 := match memberIndexLocked s (ActiveID s) with Some _ => _ | None => s end).
  set (promoted := fun m => set_verified (set_role CoreRoleActive m)).
  assert (map MemberID (Members s1) = map MemberID (Members s)) as Hids1.
  { unfold s1. destruct (memberIndexLocked s (ActiveID s)); [by apply alter_ids|done]. }
  assert (forall m', In m' (Members s1) -> Role m' = CoreRoleStandby /\
            exists x, In x (Members s) /\ MemberID m' = MemberID x /\ Endpoint m' = Endpoint x /\
              ReplicaState m' = ReplicaState x) as Hs1.
  { unfold s1. intros m'. destruct (memberIndexLocked s (ActiveID s)) as [j|] eqn:J.
    - destruct (memberIndex_spec _ _ _ J) as (Hnj & Hinj & Hidj). simpl.
      rewrite (alter_In _ j _ (member_at s j)); [|done|apply Hok|done].
      intros [->|[Hin Hne]]; [split; [done|]; by exists (member_at s j)|]. split; [|by exists m'].
      destruct (ok_roles _ Hok m' Hin) as [Hr|Hr]; [|done].
      by rewrite (ok_active _ Hok m' Hin Hr), Hidj in Hne.
    - intros Hin. split; [|by exists m']. destruct (ok_roles _ Hok m' Hin) as [Hr|Hr]; [|done].
      apply index_of_None in J. destruct J. rewrite <- (ok_active _ Hok m' Hin Hr). by apply in_map. }
  assert (exists y, nth_error (Members s1) i = Some y /\ MemberID y = cfg_ID config) as (y & Hy & Hyid).
  { assert (nth_error (map MemberID (Members s1)) i = Some (cfg_ID config)) as Hn.
    { rewrite Hids1, nth_error_map, Hni. simpl. by rewrite Hidi. }
    rewrite nth_error_map in Hn. destruct (nth_error (Members s1) i) as [y|]; [|discriminate].
    injection Hn as Hn. by exists y. }
  assert (NoDup (map MemberID (Members s1))) as Hnd1 by (rewrite Hids1; apply Hok).
  assert (forall m', In m' (alter promoted i (Members s1)) <->
            m' = promoted y \/ In m' (Members s1) /\ MemberID m' <> MemberID y) as Halt
    by (intros m'; by apply alter_In).
  split; [by rewrite alter_ids|]. split; [exists (promoted y); split; [apply Halt; by left|done]|].
  assert (In y (Members s1)) as Hyin by by eapply nth_error_In.
  intros m' [->|[Hin _]]%Halt.
  - destruct (Hs1 y Hyin) as (_ & x & Hx & E1 & E2 & _). split; [by exists x|]. by left.
  - destruct (Hs1 m' Hin) as (Hr & x & Hx & E1 & E2 & E3). split; [by exists x|]. right. by exists x.
Qed.

Lemma endpoints_ok s :
  validateState s = Ok tt -> forall m, In m (Members s) -> exists e, normalizeEndpoint (Endpoint m) true = Ok e.
Proof.
  unfold validateState. destruct (_ || _); [discriminate|].
  destruct (members_valid (ActiveID s) [] (Members s)) eqn:B; [|discriminate]. intros _.
  revert B. generalize (@nil string) as seen. induction (Members s) as [|x ms IH]; intros seen B m; [done|].
  simpl in B. apply andb_true_iff in B as [Hx Hrest]. intros [<-|Hm]; [|by eapply IH].
  unfold member_valid in Hx. destruct (normalizeEndpoint (Endpoint x) true) as [e|] eqn:E; [eauto|].
  rewrite !andb_true_iff in Hx. by destruct Hx as (((((_ & _) & Hf) & _) & _) & _).
Qed.

(** The promoted state passes the validation it is committed through. *)
Lemma promoted_valid config emergency s s' :
  validateState s = Ok tt -> topology_ok s -> promote_local config emergency s = Ok s' ->
  validateState s' = Ok tt.
Proof.
  intros Hv Hok Hp. pose proof (promoted_members _ _ _ _ Hok Hp) as (Hids & (y & Hy & Hyid & Hyr) & Hmem).
  pose proof (promote_local_takes _ _ _ _ Hok Hp) as (_ & Ha & _ & _).
  assert (NoDup (map MemberID (Members s'))) as Hnd by (rewrite Hids; apply Hok).
  assert (forall m, In m (Members s') -> Role m = CoreRoleActive -> MemberID m = cfg_ID config) as Hact.
  { intros m Hm Hr. destruct (Hmem m Hm) as [_ [(? & _)|(x & _ & _ & Hr')]]; [done|]. by rewrite Hr' in Hr. }
  assert (Version s' = storeVersion /\ Handoff s' = None) as [Hver Hh].
  { unfold promote_local in Hp. destruct (memberIndexLocked s (cfg_ID config)); [|discriminate].
    destruct (negb _); [discriminate|]. destruct (_ && _); [discriminate|]. injection Hp as <-. simpl.
    split; [|done]. destruct (memberIndexLocked s (ActiveID s)); apply Hok. }
  unfold validateState. rewrite Hver, Ha, Hh. simpl Z.eqb. cbn [negb orb].
  replace (Z.of_nat (length (Members s')) =? 0) with false by (destruct (Members s'); [done|simpl; lia]).
  rewrite members_valid_intro; [|done|tauto|].
  - cbn [negb]. assert (seen_id (Members s') (cfg_ID config) = true) as ->.
    { apply seen_id_In. rewrite <- Hyid. by apply in_map. }
    rewrite (activeCount_one _ _ y Hnd Hact Hy Hyr).
    assert ((cfg_ID config =? "")%string = false) as ->; [|done].
    apply eqb_false, valid_core_nonempty. destruct (Hmem y Hy) as [(x & Hx & E & _) _].
    rewrite <- Hyid, E. by apply (ok_ids _ Hok).
  - intros m Hm. destruct (Hmem m Hm) as [(x & Hx & E1 & E2) Hrole].
    rewrite E1, E2. split; [by apply (ok_ids _ Hok)|]. split; [by apply (endpoints_ok s)|].
    rewrite <- E1.
    destruct Hrole as [(Hid & -> & ->)|(z & Hz & -> & ->)]; [by auto|].
    split; [by right|]. split; [by apply (ok_replicas _ Hok)|done].
Qed.

Lemma promote_local_succeeds config emergency s m :
  In m (Members s) -> MemberID m = cfg_ID config -> topology_ok s -> Role m = CoreRoleStandby ->
  emergency = true \/ planned_for config s = true -> exists s', promote_local config emergency s = Ok s'.
Proof.
  intros Hm Hid Hok Hr He. unfold promote_local.
  destruct (memberIndexLocked s (cfg_ID config)) as [i|] eqn:I.
  - destruct (memberIndex_spec _ _ _ I) as (_ & Hin & Hidi).
    assert (member_at s i = m) as -> by (apply (member_unique s); [done..|congruence]).
    rewrite Hr. cbn [negb]. simpl (negb (_ =? _)%string).
    destruct He as [-> | ->]; [rewrite andb_false_r|]; eauto.
  - apply index_of_None in I. destruct I. rewrite <- Hid. by apply in_map.
Qed.

Lemma promoted_no_handoff config emergency s s' :
  promote_local config emergency s = Ok s' -> Handoff s' = None.
Proof.
  unfold promote_local. destruct (memberIndexLocked s (cfg_ID config)); [|discriminate].
  destruct (negb _); [discriminate|]. destruct (_ && _); [discriminate|]. by intros [= <-].
Qed.

Lemma writeState_succeeds s db :
  core_authority db <> None -> 1 <= Epoch s -> ids_distinct (Members s) -> topology_ok s -> Handoff s = None ->
  writeState s false db =
  (Ok tt, mkDB (Some (nullable (ActiveID s), Epoch s)) (positioned 0 (Members s)) None).
Proof.
  intros Ha He Hd Hok Hh. unfold writeState. unfold tx_bind at 1, tx_get.
  destruct (core_authority db) as [p|] eqn:A; [|done].
  replace (Epoch s <? 1) with false by lia.
  unfold tx_bind at 1, tx_modify at 1. unfold tx_bind at 1, tx_modify at 1. simpl.
  unfold tx_bind at 1. rewrite insert_members_succeeds; [by rewrite Hh|done|done|].
  intros m Hm. apply member_row_valid; [by apply (ok_roles _ Hok)|by apply (ok_replicas _ Hok)].
Qed.

Lemma active_can_manage config s y :
  topology_ok s -> ActiveID s = cfg_ID config -> In y (Members s) -> MemberID y = cfg_ID config ->
  Role y = CoreRoleActive -> canManageLocked config s = true.
Proof.
  intros Hok Ha Hy Hid Hr. unfold canManageLocked, localRoleLocked. rewrite Ha, String.eqb_refl. simpl.
  destruct (memberIndexLocked s (cfg_ID config)) as [i|] eqn:I.
  - destruct (memberIndex_spec _ _ _ I) as (_ & Hin & Hidi).
    assert (member_at s i = y) as -> by (apply (member_unique s); [done..|congruence]). by rewrite Hr.
  - apply index_of_None in I. destruct I. rewrite <- Hid. by apply in_map.
Qed.

End Authority.
