(* ===== verification/CoreTheorems.v ===== *)
(** * Properties of the core topology *)

From Stdlib Require Import ZArith Lia Bool Ascii String Sorting.
From stdpp Require Import base tactics list strings.
From S2P Require Import Prelude GoStrings Sqlstore CoreTopology CoreAuthority.

Local Open Scope string_scope.
Local Open Scope list_scope.
Local Open Scope bool_scope.
Local Open Scope Z_scope.

Section CoreProperties.
Context `{NetLib} `{Collation}.

Lemma canManage_role config s :
  topology_ok s -> canManageLocked config s = true ->
  exists m, In m (Members s) /\ MemberID m = cfg_ID config /\ Role m = CoreRoleActive.
Proof.
  intros Hok Hc. unfold canManageLocked, localRoleLocked in Hc. apply andb_true_iff in Hc as [_ Hr].
  destruct (memberIndexLocked s (cfg_ID config)) as [i|] eqn:I; [|discriminate Hr].
  destruct (memberIndex_spec _ _ _ I) as (_ & Hin & Hid). apply eqb_true in Hr. by exists (member_at s i).
Qed.

Lemma CanManage_state r config db :
  CanManage r config db = true -> exists s, loadState db = Some s /\ canManageLocked config s = true.
Proof. unfold CanManage, refresh. destruct r; [|discriminate]. destruct (loadState db); [eauto|discriminate]. Qed.

(** Along a run the epoch never falls, and within an epoch the authority can
    only be given up. *)
Lemma run_authority cs db s s' :
  core_ok db -> loadState db = Some s -> loadState (core_run cs db) = Some s' ->
  Epoch s + Z.of_nat (length cs) < two64 ->
  Epoch s <= Epoch s' <= Epoch s + Z.of_nat (length cs) /\
  (Epoch s' = Epoch s -> ActiveID s' = ActiveID s \/ ActiveID s' = "").
Proof.
  revert db s. induction cs as [|c cs IH]; intros db s Hok Hl Hl' Hb.
  - simpl in Hl'. assert (s' = s) as -> by congruence. simpl. split; [lia|auto].
  - simpl in Hl'. pose proof (core_exec_evolves c db Hok) as He.
    assert (exists s1, loadState (core_exec c db) = Some s1 /\ authority_step (caller c) (authority s) (authority s1))
      as (s1 & Hl1 & Hst).
    { destruct He as [E|[(x & s1 & Hx & Hl1 & _ & Hst)|(E & _)]]; [|..].
      - exists s. rewrite E. split; [done|apply auth_keep].
      - assert (x = s) as -> by congruence. by exists s1.
      - congruence. }
    pose proof (ok_epoch _ (Hok s Hl)) as Hep.
    assert (Epoch s <= Epoch s1 <= Epoch s + 1 /\
            (Epoch s1 = Epoch s -> ActiveID s1 = ActiveID s \/ ActiveID s1 = "")) as [Hle Heq].
    { cbn [length] in Hb. unfold authority in Hst. inversion Hst as [a E1 E2|e E1 E2|h e Hne E1 E2].
      - split; [lia|auto].
      - split; [lia|auto].
      - rewrite uint64_small by (unfold is_uint64; lia). split; [lia|]. lia. }
    cbn [length] in Hb.
    destruct (IH (core_exec c db) s1) as [Hle2 Heq2]; [|done|done|lia|].
    + eapply core_evolves_ok; [done|exact He].
    + cbn [length]. split; [lia|]. intros Hfin. assert (Epoch s1 = Epoch s) as E1 by lia.
      destruct Heq2 as [-> | ->]; [lia| |by right]. auto.
Qed.

(** C5. No split brain: whatever sequence of openings, registrations, handoffs and
    promotions the cores sharing a database have made, at most one member is
    active, it is the declared one, and two processes that both consider
    themselves in charge are the same member; a process that cannot read the
    database never considers itself in charge. *)
Theorem one_core_in_charge (cs : list core_call) (c1 c2 : Config) (r1 r2 : bool) :
  let db := core_run cs empty_core in
  (CanManage r1 c1 db = true -> CanManage r2 c2 db = true -> cfg_ID c1 = cfg_ID c2 /\ r1 = true) /\
  (forall s, loadState db = Some s ->
     (forall m m', In m (Members s) -> In m' (Members s) -> Role m = CoreRoleActive -> Role m' = CoreRoleActive -> m = m') /\
     (ActiveID s <> "" -> exists m, In m (Members s) /\ MemberID m = ActiveID s /\ Role m = CoreRoleActive)).
Proof.
  intros db. pose proof (core_run_ok cs _ empty_core_ok) as Hok. fold db in Hok. split.
  - intros H1 H2. assert (r1 = true) as -> by (unfold CanManage, refresh in H1; by destruct r1).
    apply CanManage_state in H1 as (s & Hl & H1), H2 as (s2 & Hl2 & H2).
    assert (s2 = s) as -> by congruence. apply canManage_active in H1, H2. split; [congruence|done].
  - intros s Hl. specialize (Hok s Hl). split; [|apply Hok].
    intros m m' Hm Hm' Hr Hr'. apply (member_unique s); [done..|].
    by rewrite (ok_active _ Hok m Hm Hr), (ok_active _ Hok m' Hm' Hr').
Qed.

(** C27. Every operation of every core refines the authority protocol: a call
    leaves the holder and the epoch alone, or the holder releases the authority,
    or the calling core, which did not hold it, takes it and opens the next
    epoch; the first opening of an empty database starts epoch one. *)
Theorem topology_refines_authority (cs : list core_call) (c : core_call) :
  let db := core_run cs empty_core in
  let db' := core_exec c db in
  match loadState db, loadState db' with
  | None, None => True
  | None, Some s' => Epoch s' = 1 /\ topology_ok s'
  | Some s, Some s' => authority_step (caller c) (authority s) (authority s') /\ topology_ok s'
  | Some _, None => False
  end.
Proof.
  intros db db'. pose proof (core_run_ok cs _ empty_core_ok) as Hok. fold db in Hok.
  unfold db'.
  destruct (core_exec_evolves c db Hok) as [E|[(s & s' & Hl & Hl' & Hs' & Hst)|(Hl & s' & Hl' & Hs' & He)]].
  - rewrite E. destruct (loadState db) as [s|] eqn:L; [|done]. split; [apply auth_keep|by apply Hok].
  - by rewrite Hl, Hl'.
  - by rewrite Hl, Hl'.
Qed.

(** Two different cores never act under the same authority epoch: if one core
    is in charge of a database and, after any further calls by any cores,
    another one is, the epoch has strictly grown in between, as long as the
    64-bit counter has room for the calls. *)
Theorem each_holder_has_its_own_epoch (cs more : list core_call) (c1 c2 : Config) (s1 s2 : stateFile) :
  let db1 := core_run cs empty_core in
  let db2 := core_run more db1 in
  loadState db1 = Some s1 -> loadState db2 = Some s2 ->
  CanManage true c1 db1 = true -> CanManage true c2 db2 = true -> cfg_ID c1 <> cfg_ID c2 ->
  Epoch s1 + Z.of_nat (length more) < two64 ->
  Epoch s1 < Epoch s2.
Proof.
  intros db1 db2 L1 L2 H1 H2 Hne Hb. pose proof (core_run_ok cs _ empty_core_ok) as Hok. fold db1 in Hok.
  destruct (run_authority more db1 s1 s2 Hok L1 L2 Hb) as [Hle Heq].
  apply CanManage_state in H1 as (x & Hx & H1), H2 as (y & Hy & H2).
  assert (x = s1) as -> by congruence. assert (y = s2) as -> by congruence.
  destruct (Z.eq_dec (Epoch s2) (Epoch s1)) as [E|]; [|lia]. exfalso.
  pose proof (canManage_active _ _ H1) as A1. pose proof (canManage_active _ _ H2) as A2.
  destruct (Heq E) as [E2|E2]; [congruence|].
  assert (topology_ok s2) as Hok2 by (apply (core_run_ok more db1 Hok); done).
  destruct (canManage_role _ _ Hok2 H2) as (m & Hm & Hid & _).
  apply (valid_core_nonempty (cfg_ID c2)); [rewrite <- Hid; by apply (ok_ids _ Hok2)|congruence].
Qed.

(** A fenced handoff leaves exactly one way forward: once [FenceForHandoff]
    has committed nobody is in charge any more, and the only core whose planned
    promotion is accepted is the target of the handoff. *)
Theorem fenced_handoff_excludes_others (cs : list core_call) (vs vs' : list verdict) (now : Z)
    (config other : Config) (target : string) (t : CoreTopology) (db' : CoreDB) :
  let db := core_run cs empty_core in
  FenceForHandoff vs now config target db = (Ok t, db') ->
  CanManage true config db = true /\
  (forall r c, CanManage r c db' = false) /\
  (cfg_ID other <> target -> exists e, PromoteLocal vs' other false db' = (Err e, db')).
Proof.
  intros db Hf. pose proof (core_run_ok cs _ empty_core_ok) as Hok. fold db in Hok.
  apply transact_ok in Hf as (s & s' & Hl & Hfn & Hs' & Hl' & _).
  unfold fence_handoff in Hfn. destruct (canManageLocked config s) eqn:C; [|discriminate]. cbn [negb] in Hfn.
  destruct (Handoff s) as [h|] eqn:Hh; [|discriminate].
  destruct (_ || _ || negb (ToID h =? target)%string) eqn:B; [discriminate|].
  destruct (memberIndexLocked s (cfg_ID config)) as [i|]; [|discriminate]. injection Hfn as <-.
  apply orb_false_elim in B as [_ B]. apply negb_false_iff, eqb_true in B.
  split; [unfold CanManage, refresh; by rewrite Hl|]. split.
  - intros r c. destruct (CanManage r c db') eqn:M; [|done]. apply CanManage_state in M as (x & Hx & M).
    rewrite Hl' in Hx. injection Hx as <-. pose proof (canManage_active _ _ M) as A. simpl in A.
    destruct (canManage_role _ _ Hs' M) as (m & Hm & Hid & _).
    destruct (valid_core_nonempty (cfg_ID c)); [rewrite <- Hid; by apply (ok_ids _ Hs')|done].
  - intros Hne. assert (forall x x', loadState db' = Some x -> promote_local other false x <> Ok x') as Hno.
    { intros x x' Hx Hp. rewrite Hl' in Hx. injection Hx as <-. apply promote_local_takes in Hp as (_ & _ & _ & [?|Hp]); [done| |done].
      unfold planned_for in Hp. simpl in Hp. apply eqb_true in Hp. congruence. }
    destruct (PromoteLocal vs' other false db') as [r db2] eqn:P.
    assert (db2 = db') as ->.
    { apply transact_cases in P as [->|(x & x' & Hx & Hp & _)]; [done|]. by destruct (Hno x x'). }
    destruct r as [t'|e]; [|by exists e].
    apply transact_ok in P as (x & x' & Hx & Hp & _). by destruct (Hno x x').
Qed.

(** Promotion is never wedged: a registered standby that opens a valid
    topology can always be promoted, by emergency or by a handoff fenced for it;
    it then is the only core in charge, in the next epoch, and the pending
    handoff is gone. *)
Theorem standby_promotion_succeeds (config : Config) (emergency : bool) (db : CoreDB) (s : stateFile) (m : CoreMember) :
  loadState db = Some s -> validateState s = Ok tt -> ids_distinct (Members s) ->
  1 <= Epoch s -> Epoch s + 1 < two64 ->
  In m (Members s) -> MemberID m = cfg_ID config -> Role m = CoreRoleStandby ->
  emergency = true \/ planned_for config s = true ->
  exists t db', PromoteLocal [] config emergency db = (Ok t, db') /\
    top_ControlEnabled t = true /\ top_ActiveID t = cfg_ID config /\ top_Epoch t = Epoch s + 1 /\
    top_Handoff t = None /\
    forall c, CanManage true c db' = true <-> cfg_ID c = cfg_ID config.
Proof.
  intros Hl Hv Hd He Hb Hm Hid Hr Hem. pose proof (validateState_ok s Hv He) as Hok.
  destruct (promote_local_succeeds config emergency s m Hm Hid Hok Hr Hem) as [s' Hp].
  pose proof (promoted_valid _ _ _ _ Hv Hok Hp) as Hv'.
  pose proof (promote_local_takes _ _ _ _ Hok Hp) as (_ & Ha & Hep & _).
  rewrite uint64_small in Hep by (unfold is_uint64; lia).
  pose proof (validateState_ok s' Hv' ltac:(lia)) as Hok'.
  pose proof (promoted_members _ _ _ _ Hok Hp) as (Hids & (y & Hy & Hyid & Hyr) & Hmem).
  assert (Handoff s' = None) as Hh by by apply (promoted_no_handoff _ _ _ _ Hp).
  assert (writeState s' false db = (Ok tt, mkDB (Some (nullable (ActiveID s'), Epoch s'))
            (positioned 0 (Members s')) None)) as Hw.
  { apply writeState_succeeds; [unfold loadState in Hl; by destruct (core_authority db)|lia| |done|done].
    unfold ids_distinct. by rewrite Hids. }
  assert (transact [] config (promote_local config emergency) db =
            (Ok (statusLocked config s'), mkDB (Some (nullable (ActiveID s'), Epoch s'))
               (positioned 0 (Members s')) None)) as Ht.
  { apply WithTx_commits. unfold tx_bind at 1, tx_get. rewrite Hl, lift_bind, Hp, lift_bind, Hv'.
    unfold tx_bind. by rewrite Hw. }
  apply transact_ok in Ht as Ht'. destruct Ht' as (x & x' & Hx & Hpx & _ & Hl' & _).
  assert (x = s) as -> by congruence. assert (x' = s') as -> by congruence.
  assert (canManageLocked config s' = true) as Hcan by (eapply active_can_manage; eauto).
  eexists _, _. split; [exact Ht|]. simpl. repeat (split; [done|]).
  intros c. unfold CanManage, refresh. rewrite Hl'. split.
  - intros Hc%canManage_active. congruence.
  - intros E. eapply active_can_manage; eauto; congruence.
Qed.

End CoreProperties.

(** ** Concrete runs of the core topology

    Two cores share a database: the first opens it and registers the second,
    which is verified, promoted by a fenced handoff or by emergency. *)

(** A network library that reads every endpoint as the host of one URL. *)
Definition demo_net : NetLib :=
  {| url_Parse v := Some (mkURL "https" "core.example" "core.example" "" false "" "" "");
     LookupPort_ok _ := true; ParseAddr_loopback _ := false |}.

#[local] Existing Instance binary_collation.
#[local] Existing Instance demo_net.

Definition core_a : Config := mkConfig "" "core-a" "active" "first".
Definition core_b : Config := mkConfig "" "core-b" "standby" "second".
Definition core_c : Config := mkConfig "" "core-c" "standby" "third".

Definition registered : list core_call :=
  [COpen [[]] core_a; CAddReplica [] core_a (mkReplica "" "https://core.example" "core-b" "second");
   COpen [[]] core_c; CVerifyReplica [] second core_a "core-b"].
Definition prepared : list core_call := registered ++ [CPrepareHandoff [] (2 * second) core_a "core-b"].
Definition handed_over : list core_call :=
  [CPrepareHandoff [] (2 * second) core_a "core-b"; CFenceForHandoff [] (3 * second) core_a "core-b";
   CPromoteLocal [] core_b false].

(** What the tables of a run load as. *)
Definition loaded (cs : list core_call) : stateFile :=
  match loadState (core_run cs empty_core) with Some s => s | None => mkState "" 0 None [] 0 end.

Lemma one_core_in_charge_witness :
  CanManage true core_a (core_run registered empty_core) = true /\
  forall r c, CanManage r c (core_run registered empty_core) = true -> "core-a" = cfg_ID c.
Proof.
  split; [vm_compute; reflexivity|]. intros r c Hc.
  refine (proj1 (proj1 (one_core_in_charge registered core_a c true r) _ Hc)). vm_compute. reflexivity.
Defined.

Lemma each_holder_has_its_own_epoch_witness :
  Epoch (loaded registered) < Epoch (loaded (registered ++ handed_over)) /\
  ActiveID (loaded (registered ++ handed_over)) = "core-b".
Proof.
  split; [|vm_compute; reflexivity].
  refine (each_holder_has_its_own_epoch registered handed_over core_a core_b _ _ _ _ _ _ _ _).
  - vm_compute. reflexivity.
  - vm_compute. reflexivity.
  - vm_compute. reflexivity.
  - vm_compute. reflexivity.
  - discriminate.
  - vm_compute. reflexivity.
Defined.

Lemma fenced_handoff_excludes_others_witness :
  exists t db', FenceForHandoff [] (3 * second) core_a "core-b" (core_run prepared empty_core) = (Ok t, db') /\
    (forall r c, CanManage r c db' = false) /\
    exists e, PromoteLocal [] core_c false db' = (Err e, db').
Proof.
  destruct (FenceForHandoff [] (3 * second) core_a "core-b" (core_run prepared empty_core)) as [[t|e] db'] eqn:F;
    [|exfalso; vm_compute in F; discriminate F].
  destruct (fenced_handoff_excludes_others prepared [] [] (3 * second) core_a core_c "core-b" t db' F)
    as (_ & Hno & Hother).
  exists t, db'. split; [reflexivity|]. split; [exact Hno|]. apply Hother. discriminate.
Defined.

Lemma standby_promotion_succeeds_witness :
  exists t db', PromoteLocal [] core_b true (core_run registered empty_core) = (Ok t, db') /\
    top_ActiveID t = "core-b" /\ top_Epoch t = 2 /\ CanManage true core_b db' = true.
Proof.
  destruct (standby_promotion_succeeds core_b true (core_run registered empty_core) (loaded registered)
    (nth 1 (Members (loaded registered)) (newLocalMember core_b))) as (t & db' & P & _ & Ha & He & _ & Hc).
  - vm_compute. reflexivity.
  - vm_compute. reflexivity.
  - vm_compute. repeat (first [reflexivity|constructor]).
  - vm_compute. discriminate.
  - vm_compute. reflexivity.
  - vm_compute. auto.
  - vm_compute. reflexivity.
  - vm_compute. reflexivity.
  - left. reflexivity.
  - exists t, db'. split; [exact P|]. split; [exact Ha|]. split; [exact He|]. apply Hc. reflexivity.
Defined.
