(* ===== verification/AgentPull.v ===== *)
(** * internal/agentpull: the outbound transport between Core and an agent

    The [Broker] is Core's in-memory rendezvous: commands are enqueued as
    requests, an agent polls for them in order and answers them.  Its methods
    run under one mutex; each definition below is one locked section, so that
    any interleaving of the methods is a sequence of them.  A [*pending] object
    is shared between the queue and the waiting map: objects live in [heap],
    addressed by the sequence number they are created with.  The client half
    keeps a durable cursor and authority epoch.  Go's URI parser is a parameter
    ([UriLib]); so is the agent's local handler. *)

From Stdlib Require Import ZArith Lia Bool Ascii String.
From stdpp Require Import base tactics list strings gmap.
From S2P Require Import Prelude GoStrings.

Local Open Scope string_scope.
Local Open Scope list_scope.
Local Open Scope bool_scope.
Local Open Scope Z_scope.

(** ** protocol.go *)

Definition ProtocolVersion : Z := 1.
Definition MaxBodyBytes : Z := 67108864.
Definition MaxResponseBytes : Z := 4194304.

Record PollRequest := mkPoll { pr_AgentID : string; pr_AuthorityEpoch : Z; pr_Cursor : Z; pr_Protocol : Z }.

Record Request := mkRequest {
  rq_AuthorityEpoch : Z; rq_Body : string; rq_CreatedAt : Z; rq_ExpiresAt : Z;
  rq_Header : list (string * string); rq_ID : string; rq_Method : string; rq_Path : string; rq_Sequence : Z }.

Record Response := mkResponse {
  rs_Body : string; rs_Header : list (string * string); rs_RequestID : string; rs_Sequence : Z; rs_StatusCode : Z }.

Inductive perr :=
| ErrNotCatalogued | ErrPathInvalid | ErrIdentityRequired | ErrProtocol | ErrNewerAuthority | ErrStaleAuthority
| ErrPollEnded | ErrResponseIdentity | ErrResponseInvalid | ErrNoActiveLease | ErrReadBody | ErrBodyTooLarge
| ErrRequestID | ErrDeadline | ErrCallerEnded.

(** What [url.ParseRequestURI] makes of a request URI. *)
Record RequestURI := mkURI { uri_IsAbs : bool; uri_Host : string; uri_Path : string }.

Class UriLib := {
  ParseRequestURI : string -> option RequestURI;
  NewRequest_ok : string -> string -> bool }.   (* http.NewRequest accepts the method and path *)

Definition exact_paths : list string :=
  ["/v1/status"; "/v1/diagnostics"; "/v1/snapshot"; "/v1/metrics"; "/v1/metrics/query"; "/v1/swarm/join-token";
   "/v1/provisioning"; "/v1/provisioning/status"; "/v1/agent/update"; "/v1/commands"; "/v1/logs/query";
   "/v1/logs/status"].

Definition path_prefixes : list string := ["/v1/routing/"; "/v1/traefik/"; "/v1/engine/"].

Definition catalogued (path : string) : bool :=
  existsb (String.eqb path) exact_paths || existsb (HasPrefix path) path_prefixes.

Definition validateRequest `{UriLib} (method requestURI : string) : result perr unit :=
  if negb (method =? "GET")%string && negb (method =? "POST")%string then Err ErrNotCatalogued
  else match ParseRequestURI requestURI with
       | None => Err ErrPathInvalid
       | Some u => if uri_IsAbs u || negb (uri_Host u =? "")%string then Err ErrPathInvalid
                   else if catalogued (uri_Path u) then Ok tt else Err ErrNotCatalogued
       end.

(** ** broker.go: state *)

Definition defaultLease : Z := 35 * second.

Inductive answer := Answered (r : Response) | Failed (e : perr).

(** A [pending] object; [outcome] is the content of its one-place channel. *)
Record pending := mkPending {
  request : Request; outcome : option answer; delivered : bool; redelivered : bool }.

Record agentState := mkAgent {
  cursor : Z; next : Z; queue : list Z; waiting : gmap string Z; heap : gmap Z pending }.

Record Broker := mkBroker { epoch : Z; agents : gmap string agentState }.

Definition NewBroker (authorityEpoch : Z) : Broker :=
  mkBroker (if authorityEpoch =? 0 then 1 else authorityEpoch) ∅.

(** [SetAuthorityEpoch]: the compare-and-swap loop ends with the larger epoch. *)
Definition SetAuthorityEpoch (e : Z) (b : Broker) : Broker :=
  if (e >? 0) && (e >? epoch b) then mkBroker e (agents b) else b.

Definition new_agent : agentState := mkAgent 0 0 [] ∅ ∅.

(** [stateLocked] creates the state of an unknown agent. *)
Definition stateLocked (agentID : string) (b : Broker) : agentState :=
  match agents b !! agentID with Some s => s | None => new_agent end.

Definition with_agent (agentID : string) (s : agentState) (b : Broker) : Broker :=
  mkBroker (epoch b) (<[agentID := s]> (agents b)).

Definition with_heap (f : gmap Z pending -> gmap Z pending) (s : agentState) : agentState :=
  mkAgent (cursor s) (next s) (queue s) (waiting s) (f (heap s)).
Definition with_queue (q : list Z) (s : agentState) : agentState :=
  mkAgent (cursor s) (next s) q (waiting s) (heap s).
Definition without_waiting (id : string) (s : agentState) : agentState :=
  mkAgent (cursor s) (next s) (queue s) (delete id (waiting s)) (heap s).

Definition send (a : answer) (p : pending) : pending := mkPending (request p) (Some a) (delivered p) (redelivered p).
Definition mark_delivered (p : pending) : pending := mkPending (request p) (outcome p) true (redelivered p).
Definition mark_redelivered (p : pending) : pending := mkPending (request p) (outcome p) (delivered p) true.

(** ** broker.go: polling *)

(** [sortedWaiting]: the addresses of the waiting objects, oldest first. *)
Definition sortedWaiting (s : agentState) : list Z :=
  map snd (order_by (fun e => (snd e, 0)) (map_to_list (waiting s))).

(** The first section of the loop body: the cursor an agent polls with. *)
Definition note_cursor (c : Z) (s : agentState) : agentState :=
  mkAgent (Z.max (cursor s) c) (Z.max (next s) c) (queue s) (waiting s) (heap s).

Definition expire_waiting (a : Z) (p : pending) (s : agentState) : agentState :=
  with_heap (<[a := send (Failed ErrDeadline) p]>) (without_waiting (rq_ID (request p)) s).

(** Redelivery: the oldest in-flight request the agent has not acknowledged. *)
Fixpoint redeliver (now c : Z) (items : list Z) (s : agentState) : option Request * agentState :=
  match items with
  | [] => (None, s)
  | a :: rest =>
      match heap s !! a with
      | None => redeliver now c rest s
      | Some p =>
          if negb (delivered p) || redelivered p || (rq_Sequence (request p) <=? c)
          then redeliver now c rest s
          else if now >? rq_ExpiresAt (request p) then redeliver now c rest (expire_waiting a p s)
          else (Some (request p), with_heap (<[a := mark_redelivered p]>) s)
      end
  end.

(** First delivery: the head of the queue, dropping what has expired. *)
Fixpoint deliver (now : Z) (items : list Z) (s : agentState) : option Request * agentState :=
  match items with
  | [] => (None, with_queue [] s)
  | a :: rest =>
      match heap s !! a with
      | None => deliver now rest s
      | Some p =>
          if now >? rq_ExpiresAt (request p) then deliver now rest (expire_waiting a p s)
          else (Some (request p), with_heap (<[a := mark_delivered p]>) (with_queue rest s))
      end
  end.

(** One locked turn of the polling loop. *)
Definition poll_turn (now c : Z) (s : agentState) : option Request * agentState :=
  let s := note_cursor c s in
  match redeliver now c (sortedWaiting s) s with
  | (Some r, s') => (Some r, s')
  | (None, s') => deliver now (queue s') s'
  end.

(** The checks before the loop. *)
Definition poll_check (input : PollRequest) (b : Broker) : result perr unit :=
  if (TrimSpace (pr_AgentID input) =? "")%string then Err ErrIdentityRequired
  else if negb (pr_Protocol input =? ProtocolVersion) then Err ErrProtocol
  else if pr_AuthorityEpoch input >? epoch b then Err ErrNewerAuthority
  else if negb (pr_AuthorityEpoch input =? 0) && (pr_AuthorityEpoch input <? epoch b) then Err ErrStaleAuthority
  else Ok tt.

(** [Poll], one turn of its loop: a request, or [Ok None] when it goes on
    waiting for the agent's queue to change or its context to end. *)
Definition Poll (now : Z) (input : PollRequest) (b : Broker) : result perr (option Request) * Broker :=
  match poll_check input b with
  | Err e => (Err e, b)
  | Ok _ =>
      let '(r, s) := poll_turn now (pr_Cursor input) (stateLocked (pr_AgentID input) b) in
      (Ok r, with_agent (pr_AgentID input) s b)
  end.

(** ** broker.go: answering and enqueueing *)

Definition Respond (agentID : string) (response : Response) (b : Broker) : result perr unit * Broker :=
  if (TrimSpace agentID =? "")%string || (TrimSpace (rs_RequestID response) =? "")%string
  then (Err ErrResponseIdentity, b)
  else if (rs_StatusCode response <? 100) || (rs_StatusCode response >? 599)
          || (len (rs_Body response) >? MaxResponseBytes)
  then (Err ErrResponseInvalid, b)
  else
    let s := stateLocked agentID b in
    let b := with_agent agentID s b in
    match waiting s !! rs_RequestID response with
    | None => (Err ErrNoActiveLease, b)
    | Some a =>
        match heap s !! a with
        | None => (Err ErrNoActiveLease, b)
        | Some p =>
            if negb (rq_Sequence (request p) =? rs_Sequence response) then (Err ErrNoActiveLease, b)
            else
              let s := without_waiting (rs_RequestID response) s in
              let s := mkAgent (Z.max (cursor s) (rs_Sequence response)) (next s) (queue s) (waiting s)
                         (<[a := send (Answered response) p]> (heap s)) in
              (Ok tt, with_agent agentID s b)
        end
    end.

(** [safeRequestHeaders]: [header] is [http.Header.Get]. *)
Definition safeHeaders (names : list string) (header : string -> string) : list (string * string) :=
  flat_map (fun n => let v := TrimSpace (header n) in if negb (v =? "")%string then [(n, v)] else []) names.

Definition safeRequestHeaders : (string -> string) -> list (string * string) :=
  safeHeaders ["Content-Type"; "Accept"].

Record HTTPRequest := mkHTTP {
  h_Method : string; h_RequestURI : string; h_Header : string -> string;
  h_Body : option (result unit string); h_Deadline : option Z }.

(** [randomID]. *)
Definition randomID (random : option (list Z)) : result perr string :=
  match random with None => Err ErrRequestID | Some bs => Ok (EncodeToString bs) end.

(** [enqueue] up to its wait for an answer. *)
Definition enqueue `{UriLib} (now : Z) (random : option (list Z)) (agentID : string) (h : HTTPRequest) (b : Broker)
    : result perr Request * Broker :=
  match validateRequest (h_Method h) (h_RequestURI h) with
  | Err e => (Err e, b)
  | Ok _ =>
      match match h_Body h with None => Ok "" | Some r => r end with
      | Err _ => (Err ErrReadBody, b)
      | Ok body =>
          if len body >? MaxBodyBytes then (Err ErrBodyTooLarge, b)
          else match randomID random with
          | Err e => (Err e, b)
          | Ok id =>
              let deadline := now + defaultLease in
              let deadline := match h_Deadline h with
                              | Some d => if d <? deadline then d else deadline
                              | None => deadline
                              end in
              let s := stateLocked agentID b in
              let sequence := uint64_of (next s + 1) in
              let r := mkRequest (epoch b) body now deadline (safeRequestHeaders (h_Header h)) id
                         (h_Method h) (h_RequestURI h) sequence in
              let s := mkAgent (cursor s) sequence (queue s ++ [sequence]) (<[id := sequence]> (waiting s))
                         (<[sequence := mkPending r None false false]> (heap s)) in
              (Ok r, with_agent agentID s b)
          end
      end
  end.

Fixpoint remove_first (p : Z -> bool) (l : list Z) : list Z :=
  match l with
  | [] => []
  | x :: rest => if p x then rest else x :: remove_first p rest
  end.

(** [remove]: the caller of [enqueue] stopped waiting. *)
Definition remove (agentID id : string) (b : Broker) : Broker :=
  match agents b !! agentID with
  | None => b
  | Some s =>
      let named a := match heap s !! a with Some p => (rq_ID (request p) =? id)%string | None => false end in
      with_agent agentID (with_queue (remove_first named (queue s)) (without_waiting id s)) b
  end.

(** ** client.go *)

Record clientState := mkClient { c_AuthorityEpoch : Z; c_Cursor : Z }.

(** The client and its state file, and the requests its handler has served. *)
Record Client := mkC { state : clientState; file : option clientState; served : list Request }.

(** What a poll brings back from Core. *)
Inductive PollReply :=
| ReplyError                          (* transport failure, bad status or bad body *)
| ReplyNoContent (epoch : option Z)   (* 204 with the epoch header, if it parses *)
| ReplyConflict (epoch : option Z)    (* 409 *)
| ReplyRequest (r : Request).         (* 200 *)

Record Cycle := mkCycle {
  cy_reply : PollReply;
  cy_now : Z;
  cy_saved : nat -> bool;             (* whether each [saveState] of the cycle reached the disk *)
  cy_acked : bool }.                  (* Core acknowledged the response with 204 *)

Definition with_client_epoch (e : Z) (c : Client) : Client :=
  mkC (mkClient e (c_Cursor (state c))) (file c) (served c).
Definition with_cursor (s : Z) (c : Client) : Client :=
  mkC (mkClient (c_AuthorityEpoch (state c)) s) (file c) (served c).

Definition saveState (ok : bool) (c : Client) : bool * Client :=
  (ok, if ok then mkC (state c) (Some (state c)) (served c) else c).

(** What the local handler wrote to its recorder. *)
Record Recorded := mkRecorded { rec_Body : string; rec_Header : string -> string; rec_StatusCode : Z }.

Definition safeResponseHeaders : (string -> string) -> list (string * string) :=
  safeHeaders ["Content-Type"; "Docker-Content-Digest"].

Definition quoted (s : string) : string := String (chr 34) (s ++ String (chr 34) "").
Definition json_error (text : string) : string := ("{" ++ quoted "error" ++ ":" ++ quoted text ++ "}")%string.
Definition json_header : list (string * string) := [("Content-Type", "application/json")].

(** The handler runs only a catalogued, current, unexpired request. *)
Definition dispatches `{UriLib} (now : Z) (r : Request) (c : Client) : bool :=
  match validateRequest (rq_Method r) (rq_Path r) with
  | Err _ => false
  | Ok _ => (rq_AuthorityEpoch r =? c_AuthorityEpoch (state c)) && negb (now >? rq_ExpiresAt r)
  end.

Definition dispatch `{UriLib} (now : Z) (handler : Request -> Recorded) (r : Request) (c : Client) : Response * Client :=
  if negb (dispatches now r c)
  then (mkResponse (json_error "catalog request was rejected") json_header (rq_ID r) (rq_Sequence r) 422, c)
  else if negb (NewRequest_ok (rq_Method r) (rq_Path r))
  then (mkResponse "" [] (rq_ID r) (rq_Sequence r) 400, c)
  else
    let out := handler r in
    let c := mkC (state c) (file c) (served c ++ [r]) in
    if len (rec_Body out) >? MaxResponseBytes
    then (mkResponse (json_error "agent response exceeded its safety boundary") json_header
            (rq_ID r) (rq_Sequence r) 502, c)
    else (mkResponse (rec_Body out) (safeResponseHeaders (rec_Header out)) (rq_ID r) (rq_Sequence r)
            (rec_StatusCode out), c).

Definition cycle `{UriLib} (handler : Request -> Recorded) (cy : Cycle) (c : Client) : bool * Client :=
  match cy_reply cy with
  | ReplyError => (false, c)
  | ReplyNoContent e =>
      match e with
      | Some v => if v >? c_AuthorityEpoch (state c) then saveState (cy_saved cy 0) (with_client_epoch v c) else (true, c)
      | None => (true, c)
      end
  | ReplyConflict e =>
      match e with
      | Some v => if v >? c_AuthorityEpoch (state c) then saveState (cy_saved cy 0) (with_client_epoch v c) else (false, c)
      | None => (false, c)
      end
  | ReplyRequest r =>
      if rq_AuthorityEpoch r <? c_AuthorityEpoch (state c) then (false, c)
      else
        let '(ok, c) := if rq_AuthorityEpoch r >? c_AuthorityEpoch (state c)
                        then saveState (cy_saved cy 0) (with_client_epoch (rq_AuthorityEpoch r) c)
                        else (true, c) in
        if negb ok then (false, c)
        else if rq_Sequence r <=? c_Cursor (state c) then (false, c)
        else
          let '(_, c) := dispatch (cy_now cy) handler r c in
          if negb (cy_acked cy) then (false, c)
          else saveState (cy_saved cy 1) (with_cursor (rq_Sequence r) c)
  end.

(** A restart reads the state file back. *)
Definition restart (c : Client) : Client :=
  mkC (match file c with Some s => s | None => mkClient 0 0 end) (file c) (served c).

(** ** api/http/agent_pull.go: Core's two endpoints *)

(** [agentPoll] for an authenticated agent: [ended] says that the long poll ran
    out, [attached] that the server profile accepted the reported status. *)
Definition agentPoll (now : Z) (agentID : string) (attached ended : bool) (input : PollRequest) (b : Broker)
    : PollReply * Broker :=
  if negb (pr_AgentID input =? agentID)%string then (ReplyError, b)
  else if negb attached then (ReplyError, b)
  else match Poll now input b with
       | (Ok (Some r), b') => (ReplyRequest r, b')
       | (Ok None, b') => if ended then (ReplyNoContent (Some (epoch b')), b') else (ReplyError, b')
       | (Err ErrStaleAuthority, b') => (ReplyConflict (Some (epoch b')), b')
       | (Err _, b') => (ReplyError, b')
       end.

(** [agentResponse]: whether the response was acknowledged with 204. *)
Definition agentResponse (agentID : string) (response : Response) (b : Broker) : bool * Broker :=
  match Respond agentID response b with
  | (Ok _, b') => (true, b')
  | (Err _, b') => (false, b')
  end.
