(* ===== verification/AgentDelivery.v ===== *)
(** * Delivery guarantees of the agent transport *)

From Stdlib Require Import ZArith Lia Bool Ascii String Sorting.
From stdpp Require Import base tactics list strings gmap.
From S2P Require Import Prelude GoStrings AgentPull.

Local Open Scope string_scope.
Local Open Scope list_scope.
Local Open Scope bool_scope.
Local Open Scope Z_scope.

(** ** Invariant of one agent's state *)

Record agent_inv (s : agentState) : Prop := {
  inv_address : forall a p, heap s !! a = Some p -> rq_Sequence (request p) = a /\ a <= next s;
  inv_queue : forall a, In a (queue s) ->
    exists p, heap s !! a = Some p /\ delivered p = false /\ redelivered p = false;
  inv_sorted : StronglySorted Z.lt (queue s);
  inv_waiting : forall id a, waiting s !! id = Some a -> exists p, heap s !! a = Some p /\ rq_ID (request p) = id;
  inv_flags : forall a p, heap s !! a = Some p -> redelivered p = true -> delivered p = true }.

Lemma new_agent_inv : agent_inv new_agent.
Proof. split; simpl; try done; intros; try (by rewrite lookup_empty in *); constructor. Qed.

(** How often an object has been handed to its agent. *)
Definition handed (p : pending) : nat := (if delivered p then 1 else 0) + (if redelivered p then 1 else 0).

Definition hand_outs (s : agentState) (a : Z) : nat :=
  match heap s !! a with Some p => handed p | None => 0%nat end.

(** The heap of [s'] is that of [s] up to answers sent. *)
Definition same_flags (s s' : agentState) : Prop :=
  forall a, match heap s !! a, heap s' !! a with
            | None, None => True
            | Some p, Some p' => request p' = request p /\ delivered p' = delivered p /\ redelivered p' = redelivered p
            | _, _ => False
            end.

Lemma same_flags_heap s s' : heap s' = heap s -> same_flags s s'.
Proof. intros E a. rewrite E. by destruct (heap s !! a). Qed.

Lemma same_flags_refl s : same_flags s s.
Proof. by apply same_flags_heap. Qed.

Lemma same_flags_hand_outs s s' a : same_flags s s' -> hand_outs s' a = hand_outs s a.
Proof.
  intros Hf. specialize (Hf a). unfold hand_outs, handed.
  destruct (heap s !! a), (heap s' !! a); try done. by destruct Hf as (_ & -> & ->).
Qed.

Lemma note_cursor_inv c s : agent_inv s -> agent_inv (note_cursor c s).
Proof.
  intros []. split; simpl; try done. intros a p Hp. destruct (inv_address0 a p Hp). split; [done|lia].
Qed.

(** Rewriting one object in anything but its request. *)
Lemma touch_inv a p p' s :
  agent_inv s -> heap s !! a = Some p -> request p' = request p ->
  (redelivered p' = true -> delivered p' = true) ->
  (In a (queue s) -> delivered p' = false /\ redelivered p' = false) ->
  agent_inv (with_heap (<[a := p']>) s).
Proof.
  intros [] Hp Hr Hf Hq. split; simpl; try done.
  - intros b q Hb. apply lookup_insert_Some in Hb as [[<- <-]|[Hne Hb]]; [|by apply inv_address0].
    rewrite Hr. by apply inv_address0.
  - intros b Hb. destruct (decide (b = a)) as [->|Hne].
    + exists p'. rewrite lookup_insert_eq. split; [done|auto].
    + rewrite lookup_insert_ne by done. by apply inv_queue0.
  - intros id b Hb. apply inv_waiting0 in Hb as (q & Hq' & Hid). destruct (decide (b = a)) as [->|Hne].
    + exists p'. rewrite lookup_insert_eq. split; [done|]. congruence.
    + rewrite lookup_insert_ne by done. eauto.
  - intros b q Hb. apply lookup_insert_Some in Hb as [[<- <-]|[Hne Hb]]; [done|by apply (inv_flags0 b)].
Qed.

Lemma without_waiting_inv id s : agent_inv s -> agent_inv (without_waiting id s).
Proof.
  intros []. split; simpl; try done.
  intros i a Hi. apply lookup_delete_Some in Hi as [_ Hi]. by apply inv_waiting0.
Qed.

Lemma expire_inv a p s :
  agent_inv s -> heap s !! a = Some p ->
  agent_inv (expire_waiting a p s) /\ same_flags s (expire_waiting a p s) /\ queue (expire_waiting a p s) = queue s.
Proof.
  intros Hi Hp. split; [|split; [|done]].
  - unfold expire_waiting. eapply touch_inv; [by apply without_waiting_inv|exact Hp|done| |].
    + apply (inv_flags _ Hi a p Hp).
    + intros Hq. apply (inv_queue _ Hi) in Hq as (q & Hq & ? & ?). simpl. split; congruence.
  - intros b. simpl. destruct (decide (b = a)) as [->|Hne].
    + by rewrite Hp, lookup_insert_eq.
    + rewrite lookup_insert_ne by done. by destruct (heap s !! b).
Qed.

Lemma same_flags_trans s1 s2 s3 : same_flags s1 s2 -> same_flags s2 s3 -> same_flags s1 s3.
Proof.
  intros H1 H2 a. specialize (H1 a). specialize (H2 a).
  destruct (heap s1 !! a), (heap s2 !! a), (heap s3 !! a); try done.
  destruct H1 as (E1 & E2 & E3), H2 as (F1 & F2 & F3). repeat split; congruence.
Qed.

(** What handing out the object at [a] does, besides answers sent. *)
Record hands_out (s s' : agentState) (r : Request) : Prop := {
  ho_inv : agent_inv s';
  ho_seq : exists p, heap s !! rq_Sequence r = Some p /\ request p = r;
  ho_once : hand_outs s' (rq_Sequence r) = S (hand_outs s (rq_Sequence r));
  ho_bound : (hand_outs s (rq_Sequence r) < 2)%nat;
  ho_others : forall b, b <> rq_Sequence r -> hand_outs s' b = hand_outs s b }.

Lemma hands_out_after s s1 s' r : same_flags s s1 -> hands_out s1 s' r -> hands_out s s' r.
Proof.
  intros Hf [h1 (p' & h2 & h2') h3 h4 h5]. split; [done| | | |].
  - pose proof (Hf (rq_Sequence r)) as Hfr. rewrite h2 in Hfr.
    destruct (heap s !! rq_Sequence r) as [p0|]; [|done]. exists p0. split; [done|].
    destruct Hfr as (E & _). congruence.
  - by rewrite h3, (same_flags_hand_outs _ _ _ Hf).
  - by rewrite <- (same_flags_hand_outs _ _ _ Hf).
  - intros b Hb. by rewrite h5, (same_flags_hand_outs _ _ _ Hf).
Qed.

(** Handing out one object: a flag of it is set. *)
Lemma hands_out_touch s s0 a p p' :
  agent_inv (with_heap (<[a := p']>) s0) -> heap s0 = heap s -> heap s !! a = Some p ->
  rq_Sequence (request p) = a -> handed p' = S (handed p) -> (handed p < 2)%nat ->
  hands_out s (with_heap (<[a := p']>) s0) (request p).
Proof.
  intros Hi E Hp Ha Hh Hb. split; [done|by exists p; rewrite Ha|..]; rewrite Ha; unfold hand_outs; simpl; rewrite ?E.
  - by rewrite lookup_insert_eq, Hp.
  - by rewrite Hp.
  - intros b Hne. by rewrite lookup_insert_ne.
Qed.

Lemma redeliver_spec now c items s :
  agent_inv s ->
  match redeliver now c items s with
  | (Some r, s') => hands_out s s' r /\ c < rq_Sequence r /\ hand_outs s (rq_Sequence r) = 1%nat /\ queue s' = queue s
  | (None, s') => agent_inv s' /\ same_flags s s' /\ queue s' = queue s
  end.
Proof.
  revert s. induction items as [|a items IH]; intros s Hi; simpl; [split; [done|split; [apply same_flags_refl|done]]|].
  destruct (heap s !! a) as [p|] eqn:Hp; [|by apply IH].
  destruct (negb (delivered p) || redelivered p || (rq_Sequence (request p) <=? c)) eqn:B; [by apply IH|].
  apply orb_false_elim in B as [[B1 B2]%orb_false_elim B3]. apply negb_false_iff in B1.
  destruct (inv_address _ Hi a p Hp) as [Ha Hle].
  assert (~ In a (queue s)) as Hnq.
  { intros Hq. apply (inv_queue _ Hi) in Hq as (q & Hq & Hd & _). congruence. }
  destruct (now >? rq_ExpiresAt (request p)).
  - destruct (expire_inv a p s Hi Hp) as (Hi' & Hf & Hq). specialize (IH _ Hi').
    destruct (redeliver now c items (expire_waiting a p s)) as [[r|] s'].
    + destruct IH as (Hho & Hc & Hd & Hq'). split; [by eapply hands_out_after|]. split; [done|].
      split; [by rewrite <- (same_flags_hand_outs _ _ _ Hf)|congruence].
    + destruct IH as (Hi2 & Hf2 & Hq2). split; [done|]. split; [by eapply same_flags_trans|congruence].
  - split; [|split; [lia|split; [unfold hand_outs, handed; by rewrite Ha, Hp, B1, B2|done]]].
    apply hands_out_touch; [|done|done|done|unfold handed; simpl; by rewrite B1, B2|unfold handed; rewrite B1, B2; lia].
    eapply touch_inv; [done|exact Hp|done|by simpl|done].
Qed.

Lemma with_queue_inv pre q s : agent_inv s -> queue s = pre ++ q -> agent_inv (with_queue q s).
Proof.
  intros [] Hq. split; simpl; try done.
  - intros a Ha. apply inv_queue0. rewrite Hq. apply in_or_app. by right.
  - rewrite Hq in inv_sorted0. clear -inv_sorted0. induction pre as [|x pre IH]; [done|].
    inversion inv_sorted0; subst. auto.
Qed.

Lemma sorted_head_lt pre a rest :
  StronglySorted Z.lt (pre ++ a :: rest) -> forall b, In b rest -> a < b.
Proof.
  induction pre as [|x pre IH]; intros Hs b Hb; inversion Hs as [|? ? Hs' Hall]; subst; [|by apply IH].
  rewrite Forall_forall in Hall. apply Hall. by apply list_elem_of_In.
Qed.

Lemma deliver_spec now items pre s :
  agent_inv s -> queue s = pre ++ items ->
  match deliver now items s with
  | (Some r, s') => hands_out s s' r /\ hand_outs s (rq_Sequence r) = 0%nat /\
                    (forall b, In b (queue s') -> rq_Sequence r < b)
  | (None, s') => agent_inv s' /\ same_flags s s' /\ queue s' = []
  end.
Proof.
  revert pre s. induction items as [|a items IH]; intros pre s Hi Hq; simpl.
  - split; [by apply (with_queue_inv pre)|]. split; [by apply same_flags_heap|done].
  - assert (In a (queue s)) as Ha by (rewrite Hq; apply in_or_app; right; by left).
    destruct (inv_queue _ Hi a Ha) as (p & Hp & Hd & Hr). rewrite Hp.
    destruct (inv_address _ Hi a p Hp) as [Hadr Hle].
    destruct (now >? rq_ExpiresAt (request p)).
    + destruct (expire_inv a p s Hi Hp) as (Hi' & Hf & Hq').
      specialize (IH (pre ++ [a]) _ Hi'). rewrite Hq', <- app_assoc in IH. specialize (IH Hq).
      destruct (deliver now items (expire_waiting a p s)) as [[r|] s'].
      * destruct IH as (Hho & H0 & Hlt). split; [by eapply hands_out_after|].
        split; [by rewrite <- (same_flags_hand_outs _ _ _ Hf)|done].
      * destruct IH as (? & ? & ?). split; [done|]. split; [by eapply same_flags_trans|done].
    + pose proof (inv_sorted _ Hi) as Hs. rewrite Hq in Hs.
      pose proof (sorted_head_lt _ _ _ Hs) as Hlt.
      split; [|split; [unfold hand_outs, handed; by rewrite Hadr, Hp, Hd, Hr|by rewrite Hadr]].
      apply hands_out_touch; [|done|done|done|unfold handed; simpl; by rewrite Hd, Hr|unfold handed; rewrite Hd; destruct (redelivered p); lia].
      eapply touch_inv; [|exact Hp|done|done|].
      * apply (with_queue_inv (pre ++ [a])); [done|]. by rewrite <- app_assoc.
      * simpl. intros Hin. specialize (Hlt a Hin). lia.
Qed.

(** One locked turn of a poll. *)
Lemma poll_turn_spec now c s :
  agent_inv s ->
  match poll_turn now c s with
  | (Some r, s') => hands_out s s' r /\
      ((hand_outs s (rq_Sequence r) = 1%nat /\ c < rq_Sequence r) \/
       (hand_outs s (rq_Sequence r) = 0%nat /\ forall b, In b (queue s') -> rq_Sequence r < b))
  | (None, s') => agent_inv s' /\ same_flags s s' /\ queue s' = []
  end.
Proof.
  intros Hi. unfold poll_turn. cbv zeta.
  pose proof (note_cursor_inv c s Hi) as Hi1. set (s1 := note_cursor c s) in *.
  assert (same_flags s s1) as Hf1 by by apply same_flags_heap.
  pose proof (redeliver_spec now c (sortedWaiting s1) s1 Hi1) as Hrd.
  destruct (redeliver now c (sortedWaiting s1) s1) as [[r|] s2].
  - destruct Hrd as (Hho & Hc & H1 & _). split; [exact (hands_out_after _ _ _ _ Hf1 Hho)|]. left. done.
  - destruct Hrd as (Hi2 & Hf2 & _).
    assert (same_flags s s2) as Hf by exact (same_flags_trans _ _ _ Hf1 Hf2).
    pose proof (deliver_spec now (queue s2) [] s2 Hi2 eq_refl) as Hdl.
    destruct (deliver now (queue s2) s2) as [[r|] s3].
    + destruct Hdl as (Hho & H0 & Hlt). split; [exact (hands_out_after _ _ _ _ Hf Hho)|]. right.
      split; [by rewrite <- (same_flags_hand_outs _ _ _ Hf)|done].
    + destruct Hdl as (? & Hf3 & ?). split; [done|]. split; [exact (same_flags_trans _ _ _ Hf Hf3)|done].
Qed.

(** ** The other operations *)

Lemma respond_inv agentID resp b r b' :
  agent_inv (stateLocked agentID b) -> Respond agentID resp b = (r, b') ->
  agent_inv (stateLocked agentID b') /\ same_flags (stateLocked agentID b) (stateLocked agentID b') /\
  (forall other, other <> agentID -> agents b' !! other = agents b !! other).
Proof.
  intros Hi Hr. unfold Respond in Hr.
  assert (forall s, stateLocked agentID (with_agent agentID s b) = s) as Hget
    by (intros s; unfold stateLocked, with_agent; simpl; by rewrite lookup_insert_eq).
  destruct (_ || _); [injection Hr as _ <-; auto using same_flags_refl|].
  destruct (_ || _ || _); [injection Hr as _ <-; auto using same_flags_refl|]. cbv zeta in Hr.
  set (s := stateLocked agentID b) in *.
  assert (agent_inv (stateLocked agentID (with_agent agentID s b)) /\
          same_flags s (stateLocked agentID (with_agent agentID s b)) /\
          (forall other, other <> agentID -> agents (with_agent agentID s b) !! other = agents b !! other)) as Hsame.
  { rewrite Hget. split; [exact Hi|]. split; [apply same_flags_refl|]. intros o Ho. simpl. by rewrite lookup_insert_ne. }
  destruct (waiting s !! rs_RequestID resp) as [a|] eqn:W; [|injection Hr as _ <-; exact Hsame].
  destruct (heap s !! a) as [p|] eqn:Hp; [|injection Hr as _ <-; exact Hsame].
  destruct (negb _); [injection Hr as _ <-; exact Hsame|]. injection Hr as _ <-.
  unfold stateLocked, with_agent. simpl. rewrite lookup_insert_eq. split; [|split].
  - assert (agent_inv (with_heap (<[a := send (Answered resp) p]>) (without_waiting (rs_RequestID resp) s))) as Hx.
    { eapply touch_inv; [by apply without_waiting_inv|exact Hp|done|apply (inv_flags _ Hi a p Hp)|].
      intros Hq. apply (inv_queue _ Hi) in Hq as (q & Hq & ? & ?). simpl. split; congruence. }
    destruct Hx. by split.
  - intros x. simpl. destruct (decide (x = a)) as [->|Hne].
    + by rewrite Hp, lookup_insert_eq.
    + rewrite lookup_insert_ne by done. by destruct (heap s !! x).
  - intros o Ho. by rewrite !lookup_insert_ne.
Qed.

Lemma sorted_snoc (l : list Z) n :
  StronglySorted Z.lt l -> (forall x, In x l -> x < n) -> StronglySorted Z.lt (l ++ [n]).
Proof.
  induction 1 as [|y l Hs IH Hall]; intros Hx; simpl; [repeat constructor|].
  constructor; [apply IH; intros; apply Hx; by right|].
  apply Forall_app. split; [done|]. constructor; [|done]. apply Hx. by left.
Qed.

(** The state a new request is put in. *)
Definition enqueued (s : agentState) (id : string) (r : Request) : agentState :=
  mkAgent (cursor s) (rq_Sequence r) (queue s ++ [rq_Sequence r]) (<[id := rq_Sequence r]> (waiting s))
    (<[rq_Sequence r := mkPending r None false false]> (heap s)).

Lemma enqueued_inv s id r :
  agent_inv s -> rq_ID r = id -> rq_Sequence r = next s + 1 ->
  agent_inv (enqueued s id r) /\ forall a, hand_outs (enqueued s id r) a = hand_outs s a.
Proof.
  intros Hi Hid Hseq.
  assert (heap s !! rq_Sequence r = None) as Hnone.
  { destruct (heap s !! rq_Sequence r) as [p|] eqn:Hp; [|done]. destruct (inv_address _ Hi _ _ Hp). lia. }
  destruct Hi. split.
  - split; simpl.
    + intros a p Hp. apply lookup_insert_Some in Hp as [[<- <-]|[Hne Hp]]; [simpl; lia|].
      destruct (inv_address0 a p Hp). split; [done|lia].
    + intros a [Ha|[<-|[]]]%in_app_or.
      * destruct (inv_queue0 a Ha) as (p & Hp & Hd). exists p. rewrite lookup_insert_ne; [done|]. intros E.
        rewrite E in Hnone. congruence.
      * rewrite lookup_insert_eq. by eexists.
    + apply sorted_snoc; [done|]. intros x Hx. destruct (inv_queue0 x Hx) as (p & Hp & _).
      destruct (inv_address0 x p Hp). lia.
    + intros i a Ha. apply lookup_insert_Some in Ha as [[<- <-]|[Hne Ha]].
      * rewrite lookup_insert_eq. by eexists.
      * destruct (inv_waiting0 i a Ha) as (p & Hp & Hpi). exists p. rewrite lookup_insert_ne; [done|].
        intros E. rewrite E in Hnone. congruence.
    + intros a p Hp. apply lookup_insert_Some in Hp as [[<- <-]|[Hne Hp]]; [done|by apply (inv_flags0 a)].
  - intros a. unfold hand_outs. simpl. destruct (decide (a = rq_Sequence r)) as [->|Hne].
    + by rewrite lookup_insert_eq, Hnone.
    + by rewrite lookup_insert_ne.
Qed.

Lemma remove_first_In p l x : In x (remove_first p l) -> In x l.
Proof. induction l as [|y l IH]; simpl; [done|]. destruct (p y); [auto|]. intros [<-|Hx]; auto. Qed.

Lemma remove_first_sorted p l : StronglySorted Z.lt l -> StronglySorted Z.lt (remove_first p l).
Proof.
  induction 1 as [|y l Hs IH Hall]; simpl; [constructor|]. destruct (p y); [done|]. constructor; [done|].
  rewrite Forall_forall in Hall |- *. intros x Hx%list_elem_of_In%remove_first_In. by apply Hall, list_elem_of_In.
Qed.

Lemma remove_inv p id s :
  agent_inv s -> agent_inv (with_queue (remove_first p (queue s)) (without_waiting id s)).
Proof.
  intros Hi. apply (without_waiting_inv id) in Hi. destruct Hi. split; simpl; try done.
  - intros a Ha%remove_first_In. by apply inv_queue0.
  - by apply remove_first_sorted.
Qed.

(** ** Runs of the broker *)

Inductive broker_call :=
| BPoll (now : Z) (input : PollRequest)
| BRespond (agentID : string) (response : Response)
| BEnqueue (now : Z) (random : option (list Z)) (agentID : string) (h : HTTPRequest)
| BRemove (agentID id : string)
| BSetAuthorityEpoch (e : Z).

Section Runs.
Context `{UriLib}.

(** The broker with a record of what was handed to whom. *)
Definition System : Type := Broker * list (string * Z).

Definition broker_exec (c : broker_call) (st : System) : System :=
  let '(b, log) := st in
  match c with
  | BPoll now input =>
      match Poll now input b with
      | (Ok (Some r), b') => (b', log ++ [(pr_AgentID input, rq_Sequence r)])
      | (_, b') => (b', log)
      end
  | BRespond agentID response => (snd (Respond agentID response b), log)
  | BEnqueue now random agentID h => (snd (enqueue now random agentID h b), log)
  | BRemove agentID id => (remove agentID id b, log)
  | BSetAuthorityEpoch e => (SetAuthorityEpoch e b, log)
  end.

(** The 64-bit sequence counter of the agent has room. *)
Definition broker_admissible (c : broker_call) (st : System) : Prop :=
  match c with
  | BEnqueue _ _ agentID _ => 0 <= next (stateLocked agentID (fst st)) /\ next (stateLocked agentID (fst st)) + 1 < two64
  | _ => True
  end.

Inductive broker_reachable (e : Z) : System -> Prop :=
| broker_init : broker_reachable e (NewBroker e, [])
| broker_step st c : broker_reachable e st -> broker_admissible c st -> broker_reachable e (broker_exec c st).

Definition times (log : list (string * Z)) (x : string * Z) : nat :=
  length (List.filter (fun y => bool_decide (y = x)) log).

Record system_inv (st : System) : Prop := {
  sys_agents : forall id, agent_inv (stateLocked id (fst st));
  sys_log : forall id a, times (snd st) (id, a) = hand_outs (stateLocked id (fst st)) a }.

Lemma stateLocked_with id s b other :
  stateLocked other (with_agent id s b) = if decide (other = id) then s else stateLocked other b.
Proof.
  unfold stateLocked, with_agent. simpl. destruct (decide (other = id)) as [->|Hne].
  - by rewrite lookup_insert_eq.
  - by rewrite lookup_insert_ne.
Qed.

Lemma times_snoc log x y : times (log ++ [x]) y = (times log y + if decide (x = y) then 1 else 0)%nat.
Proof.
  unfold times. rewrite List.filter_app, length_app. simpl. case_bool_decide; destruct (decide (x = y)); done.
Qed.

(** Replacing one agent's state by one with the same hand-outs. *)
Lemma replace_inv id s b b' log :
  system_inv (b, log) -> agent_inv s -> (forall a, hand_outs s a = hand_outs (stateLocked id b) a) ->
  (forall other, stateLocked other b' = if decide (other = id) then s else stateLocked other b) ->
  system_inv (b', log).
Proof.
  intros [Ha Hl] Hs Hh Hb. split; simpl in *.
  - intros other. rewrite Hb. destruct (decide (other = id)); [done|apply Ha].
  - intros other a. rewrite Hb, Hl. destruct (decide (other = id)) as [->|]; [by rewrite Hh|done].
Qed.

Lemma broker_exec_inv c st : broker_admissible c st -> system_inv st -> system_inv (broker_exec c st).
Proof.
  destruct st as [b log]. intros Hadm Hi. pose proof (sys_agents _ Hi) as Ha. simpl in Ha.
  destruct c as [now input|id resp|now rnd id h|id rid|e]; simpl.
  - unfold Poll. destruct (poll_check input b) as [[]|]; [|done].
    pose proof (poll_turn_spec now (pr_Cursor input) _ (Ha (pr_AgentID input))) as Hp.
    destruct (poll_turn now (pr_Cursor input) (stateLocked (pr_AgentID input) b)) as [[r|] s].
    + destruct Hp as [[h1 _ h3 _ h5] _]. split; simpl.
      * intros other. rewrite stateLocked_with. destruct (decide _); [done|apply Ha].
      * intros other a. rewrite times_snoc, stateLocked_with. pose proof (sys_log _ Hi other a) as Hl. simpl in Hl.
        rewrite Hl. destruct (decide (other = pr_AgentID input)) as [->|Hne].
        -- destruct (decide ((pr_AgentID input, rq_Sequence r) = (pr_AgentID input, a))) as [[= E]|Hn]; [subst a|].
           ++ rewrite h3. lia.
           ++ rewrite h5 by congruence. lia.
        -- destruct (decide _) as [[= E _]|]; [congruence|lia].
    + destruct Hp as (h1 & h2 & _). eapply replace_inv; [exact Hi|exact h1| |apply stateLocked_with].
      intros a. by apply same_flags_hand_outs.
  - destruct (Respond id resp b) as [r b'] eqn:R. simpl.
    destruct (respond_inv _ _ _ _ _ (Ha id) R) as (h1 & h2 & h3).
    eapply replace_inv; [exact Hi|exact h1|intros a; by apply same_flags_hand_outs|].
    intros other. destruct (decide (other = id)) as [->|Hne]; [done|]. unfold stateLocked. by rewrite h3.
  - unfold enqueue. destruct (validateRequest _ _) as [[]|]; [|done].
    destruct (match h_Body h with None => _ | Some r => r end) as [body|]; [|done].
    destruct (len body >? MaxBodyBytes); [done|]. destruct (randomID rnd) as [rid|]; [|done]. cbv zeta. simpl.
    simpl in Hadm. rewrite uint64_small by (unfold is_uint64; lia).
    match goal with |- context [mkPending ?req None false false] =>
      destruct (enqueued_inv (stateLocked id b) rid req (Ha id) eq_refl eq_refl) as [h1 h2] end.
    eapply replace_inv; [exact Hi|exact h1|exact h2|apply stateLocked_with].
  - unfold remove. destruct (agents b !! id) as [s|] eqn:E; [|done].
    assert (stateLocked id b = s) as Es by (unfold stateLocked; by rewrite E).
    eapply replace_inv; [exact Hi| | |apply stateLocked_with].
    + apply remove_inv. rewrite <- Es. apply Ha.
    + intros a. by rewrite Es.
  - unfold SetAuthorityEpoch. destruct (_ && _); [|done]. eapply (replace_inv "" (stateLocked "" b)); [exact Hi|apply Ha|done|].
    intros other. unfold stateLocked. simpl. by destruct (decide (other = "")) as [->|].
Qed.

Lemma broker_reachable_inv e st : broker_reachable e st -> system_inv st.
Proof.
  induction 1 as [|st c Hst IH Hadm]; [|by apply broker_exec_inv].
  split; simpl; intros; unfold stateLocked; simpl; rewrite lookup_empty; [apply new_agent_inv|done].
Qed.

End Runs.
