(* ===== verification/AgentTheorems.v ===== *)
(** * Properties of the agent transport *)

From Stdlib Require Import ZArith Lia Bool Ascii String Sorting.
From stdpp Require Import base tactics list strings gmap.
From S2P Require Import Prelude GoStrings AgentPull AgentDelivery.

Local Open Scope string_scope.
Local Open Scope list_scope.
Local Open Scope bool_scope.
Local Open Scope Z_scope.

Section AgentProperties.
Context `{UriLib}.

(** ** Broker *)

Lemma handed_le p : (handed p <= 2)%nat.
Proof. unfold handed. destruct (delivered p), (redelivered p); lia. Qed.

(** C28. A request reaches its agent at most twice: in any interleaving of polls,
    responses, enqueueings, abandoned calls and authority changes, the broker
    hands out each request of each agent at most two times in all. *)
Theorem request_delivered_at_most_twice (e : Z) (st : System) (agentID : string) (sequence : Z) :
  broker_reachable e st -> (times (snd st) (agentID, sequence) <= 2)%nat.
Proof.
  intros Hr%broker_reachable_inv. rewrite (sys_log _ Hr). unfold hand_outs.
  destruct (heap _ !! sequence) as [p|]; [apply handed_le|lia].
Qed.

(** What a poll may hand out: only to an agent that has accepted the current
    authority epoch (or none yet), only a request enqueued for that agent, and
    either for the first time, ahead of everything still queued, or for the
    second and last time, when the agent's cursor shows it was not
    acknowledged. *)
Theorem poll_hands_out_in_order (e now : Z) (b b' : Broker) (log : list (string * Z)) (input : PollRequest)
    (r : Request) :
  broker_reachable e (b, log) -> Poll now input b = (Ok (Some r), b') ->
  let s := stateLocked (pr_AgentID input) b in
  (pr_AuthorityEpoch input = 0 \/ pr_AuthorityEpoch input = epoch b) /\
  (exists p, heap s !! rq_Sequence r = Some p /\ request p = r) /\
  ((times log (pr_AgentID input, rq_Sequence r) = 0%nat /\
    forall a, In a (queue (stateLocked (pr_AgentID input) b')) -> rq_Sequence r < a) \/
   (times log (pr_AgentID input, rq_Sequence r) = 1%nat /\ pr_Cursor input < rq_Sequence r)).
Proof.
  intros Hr Hp s. pose proof (broker_reachable_inv _ _ Hr) as Hi.
  pose proof (sys_log _ Hi (pr_AgentID input) (rq_Sequence r)) as Hlog. simpl in Hlog.
  unfold Poll in Hp. destruct (poll_check input b) as [[]|] eqn:C; [|discriminate].
  pose proof (poll_turn_spec now (pr_Cursor input) s (sys_agents _ Hi (pr_AgentID input))) as Ht.
  fold s in Hp, Hlog. destruct (poll_turn now (pr_Cursor input) s) as [o s'] eqn:T.
  injection Hp as -> <-. destruct Ht as [Hho Hcase]. split; [|split].
  - unfold poll_check in C. destruct (_ =? "")%string; [discriminate|]. destruct (negb _); [discriminate|].
    destruct (_ >? _) eqn:G1; [discriminate|]. destruct (_ && _) eqn:G2; [discriminate|].
    apply andb_false_iff in G2 as [G2|G2]; [apply negb_false_iff in G2; lia|lia].
  - apply Hho.
  - rewrite Hlog, stateLocked_with. destruct (decide _) as [_|]; [|done].
    destruct Hcase as [[H1 Hc]|[H0 Hlt]]; [right|left]; done.
Qed.

(** ** Client *)

Inductive client_event := ECycle (cy : Cycle) | ERestart.

Definition client_exec (handler : Request -> Recorded) (ev : client_event) (c : Client) : Client :=
  match ev with
  | ECycle cy => snd (cycle handler cy c)
  | ERestart => restart c
  end.

Definition client_run (handler : Request -> Recorded) (evs : list client_event) (c : Client) : Client :=
  fold_left (fun c ev => client_exec handler ev c) evs c.

(** Every write of the state file reaches the disk. *)
Definition disk_ok (ev : client_event) : Prop :=
  match ev with ECycle cy => forall n, cy_saved cy n = true | ERestart => True end.

(** The memory of the client is what its file would restore. *)
Definition durable (c : Client) : Prop :=
  state c = match file c with Some s => s | None => mkClient 0 0 end.

(** The requests [news] a client in state [c] may serve. *)
Definition serves_current (c : Client) (news : list Request) : Prop :=
  Forall (fun r => c_AuthorityEpoch (state c) <= rq_AuthorityEpoch r /\ c_Cursor (state c) < rq_Sequence r /\
            validateRequest (rq_Method r) (rq_Path r) = Ok tt) news.

Record client_step (c c' : Client) : Prop := {
  cs_durable : durable c';
  cs_epoch : c_AuthorityEpoch (state c) <= c_AuthorityEpoch (state c');
  cs_cursor : c_Cursor (state c) <= c_Cursor (state c');
  cs_served : exists news, served c' = served c ++ news /\ serves_current c news }.

Lemma client_step_refl c : durable c -> client_step c c.
Proof. intros Hd. split; [done|lia|lia|]. exists []. rewrite app_nil_r. split; [done|constructor]. Qed.

Lemma saved_step c c1 :
  durable c -> c_AuthorityEpoch (state c) <= c_AuthorityEpoch (state c1) ->
  c_Cursor (state c) <= c_Cursor (state c1) ->
  (exists news, served c1 = served c ++ news /\ serves_current c news) ->
  client_step c (snd (saveState true c1)).
Proof. intros Hd He Hc Hs. by split. Qed.

Lemma dispatch_served handler now r c :
  exists news, served (snd (dispatch now handler r c)) = served c ++ news /\
    state (snd (dispatch now handler r c)) = state c /\ file (snd (dispatch now handler r c)) = file c /\
    (news = [] \/ (news = [r] /\ dispatches now r c = true)).
Proof.
  unfold dispatch. destruct (dispatches now r c) eqn:D; cbn [negb].
  - destruct (NewRequest_ok _ _); cbn [negb]; [|exists []; rewrite app_nil_r; by repeat split; left].
    cbv zeta. exists [r]. destruct (len _ >? _); simpl; by repeat split; right.
  - exists []. rewrite app_nil_r. by repeat split; left.
Qed.

Lemma dispatches_valid now r c :
  dispatches now r c = true ->
  validateRequest (rq_Method r) (rq_Path r) = Ok tt /\ rq_AuthorityEpoch r = c_AuthorityEpoch (state c).
Proof.
  unfold dispatches. destruct (validateRequest _ _) as [[]|]; [|discriminate].
  intros [He _]%andb_true_iff. split; [done|lia].
Qed.

(** Accepting a request: the epoch is taken over, the handler may run once. *)
Lemma request_step handler now r c :
  durable c -> c_AuthorityEpoch (state c) = rq_AuthorityEpoch r -> c_Cursor (state c) < rq_Sequence r ->
  client_step c (snd (dispatch now handler r c)) /\
  state (snd (dispatch now handler r c)) = state c.
Proof.
  intros Hd He Hc. destruct (dispatch_served handler now r c) as (news & Hs & Est & Efl & Hn). split; [|done].
  split; rewrite ?Est; [unfold durable; by rewrite Est, Efl|lia|lia|].
  exists news. split; [done|]. destruct Hn as [->|[-> Hv]]; [constructor|].
  apply dispatches_valid in Hv as [Hv _]. repeat constructor; [lia|lia|done].
Qed.

Lemma client_step_trans c1 c2 c3 : client_step c1 c2 -> client_step c2 c3 -> client_step c1 c3.
Proof.
  intros [d1 e1 k1 (n1 & s1 & f1)] [d2 e2 k2 (n2 & s2 & f2)]. split; [done|lia|lia|].
  exists (n1 ++ n2). split; [by rewrite s2, s1, <- app_assoc|]. apply Forall_app. split; [done|].
  eapply Forall_impl; [exact f2|]. simpl. intros r (? & ? & ?). repeat split; [lia|lia|done].
Qed.

(** A cycle, and what it leaves when it reports success on a request. *)
Lemma cycle_step handler cy c :
  durable c -> (forall n, cy_saved cy n = true) ->
  client_step c (snd (cycle handler cy c)) /\
  (forall r, cy_reply cy = ReplyRequest r -> fst (cycle handler cy c) = true ->
     c_Cursor (state (snd (cycle handler cy c))) = rq_Sequence r).
Proof.
  intros Hd Hsv. unfold cycle. destruct (cy_reply cy) as [|e|e|r].
  - split; [by apply client_step_refl|done].
  - split; [|by intros]. destruct e as [v|]; [|by apply client_step_refl].
    destruct (v >? c_AuthorityEpoch (state c)) eqn:G; [|by apply client_step_refl].
    rewrite Hsv. apply saved_step; [done|simpl; lia|simpl; lia|]. exists []. rewrite app_nil_r. split; [done|constructor].
  - split; [|by intros]. destruct e as [v|]; [|by apply client_step_refl].
    destruct (v >? c_AuthorityEpoch (state c)) eqn:G; [|by apply client_step_refl].
    rewrite Hsv. apply saved_step; [done|simpl; lia|simpl; lia|]. exists []. rewrite app_nil_r. split; [done|constructor].
  - destruct (rq_AuthorityEpoch r <? c_AuthorityEpoch (state c)) eqn:G1; [split; [by apply client_step_refl|done]|].
    set (acc := if rq_AuthorityEpoch r >? c_AuthorityEpoch (state c)
                then saveState (cy_saved cy 0) (with_client_epoch (rq_AuthorityEpoch r) c) else (true, c)).
    assert (exists c1, acc = (true, c1) /\ client_step c c1 /\ c_AuthorityEpoch (state c1) = rq_AuthorityEpoch r)
      as (c1 & -> & Hs1 & He1).
    { unfold acc. destruct (rq_AuthorityEpoch r >? c_AuthorityEpoch (state c)) eqn:G.
      - rewrite Hsv. eexists. split; [reflexivity|]. split; [|done].
        apply (saved_step c (with_client_epoch (rq_AuthorityEpoch r) c)); [done|simpl; lia|simpl; lia|].
        exists []. rewrite app_nil_r. split; [done|constructor].
      - exists c. split; [done|]. split; [by apply client_step_refl|lia]. }
    cbn [negb]. destruct (rq_Sequence r <=? c_Cursor (state c1)) eqn:G2; [split; [done|by intros]|].
    destruct (request_step handler (cy_now cy) r c1) as [Hs2 Est]; [apply Hs1|done|lia|].
    destruct (dispatch (cy_now cy) handler r c1) as [resp c2]. simpl in Hs2, Est.
    destruct (cy_acked cy); cbn [negb]; [|split; [by eapply client_step_trans|by intros]].
    rewrite Hsv. split; [|by intros ? [= <-]].
    eapply client_step_trans; [exact Hs1|]. destruct Hs2 as [d2 e2 k2 s2].
    apply (saved_step c1 (with_cursor (rq_Sequence r) c2)); [apply Hs1|simpl; lia|simpl; lia|exact s2].
Qed.

Lemma client_run_step handler evs c :
  durable c -> Forall disk_ok evs -> client_step c (client_run handler evs c).
Proof.
  intros Hd Hok. revert c Hd. induction Hok as [|ev evs Hev _ IH]; intros c Hd; [by apply client_step_refl|].
  assert (client_step c (client_exec handler ev c)) as Hs.
  { destruct ev as [cy|]; [by apply cycle_step|]. simpl. unfold restart.
    split; simpl; [done|rewrite Hd; lia|rewrite Hd; lia|].
    exists []. rewrite app_nil_r. split; [done|constructor]. }
  eapply client_step_trans; [exact Hs|]. apply IH, Hs.
Qed.

(** Whatever Core sends it, and across restarts, an agent whose state file is
    written faithfully never goes back: the authority epoch it accepts and its
    cursor never fall, and everything it executes from some moment on is in the
    catalogue, was issued under an epoch at least as new as the one accepted by
    then, and follows the cursor; once a request was acknowledged it is
    therefore never executed again. *)
Theorem agent_never_goes_back (handler : Request -> Recorded) (before after : list client_event) (cy : Cycle)
    (r : Request) (c : Client) :
  durable c -> Forall disk_ok before -> Forall disk_ok after -> (forall n, cy_saved cy n = true) ->
  let c1 := client_run handler before c in
  let c2 := snd (cycle handler cy c1) in
  let c3 := client_run handler after c2 in
  c_AuthorityEpoch (state c1) <= c_AuthorityEpoch (state c2) <= c_AuthorityEpoch (state c3) /\
  c_Cursor (state c1) <= c_Cursor (state c2) <= c_Cursor (state c3) /\
  (exists news, served c3 = served c2 ++ news /\ serves_current c2 news) /\
  (cy_reply cy = ReplyRequest r -> fst (cycle handler cy c1) = true ->
   exists news, served c3 = served c2 ++ news /\ Forall (fun x => rq_Sequence r < rq_Sequence x) news).
Proof.
  intros Hd Hb Ha Hcy c1 c2 c3.
  assert (client_step c c1) as S1 by by apply client_run_step.
  destruct (cycle_step handler cy c1 (cs_durable _ _ S1) Hcy) as [S2 Hack]. fold c2 in S2, Hack.
  assert (client_step c2 c3) as S3 by (apply client_run_step; [apply S2|done]).
  destruct S2 as [_ e2 k2 _], S3 as [_ e3 k3 (news & Hn & Hf)].
  split; [lia|]. split; [lia|]. split; [eauto|]. intros Hrep Hok. exists news. split; [done|].
  eapply Forall_impl; [exact Hf|]. simpl. rewrite (Hack r Hrep Hok). tauto.
Qed.

End AgentProperties.

(** ** Concrete runs *)

(** A URI parser that accepts an absolute path as it is. *)
Definition demo_uri : UriLib :=
  {| ParseRequestURI u := if HasPrefix u "/" then Some (mkURI false "" u) else None;
     NewRequest_ok _ _ := true |}.

#[local] Existing Instance demo_uri.

Definition demo_http : HTTPRequest := mkHTTP "POST" "/v1/commands" (fun _ => "") (Some (Ok "{}")) None.

Definition demo_poll (cursor : Z) : PollRequest := mkPoll "agent-1" 1 cursor 1.

Definition demo_system : System :=
  fold_left (fun st c => broker_exec c st)
    [BEnqueue 0 (Some (replicate 16 7)) "agent-1" demo_http; BPoll 1 (demo_poll 0); BPoll 2 (demo_poll 0);
     BPoll 3 (demo_poll 0)] (NewBroker 1, []).

Lemma demo_system_reachable : broker_reachable 1 demo_system.
Proof.
  unfold demo_system. cbn [fold_left].
  repeat (apply broker_step; [|first [exact I|vm_compute; split; [discriminate|reflexivity]]]). apply broker_init.
Qed.

Lemma request_delivered_at_most_twice_witness : (times (snd demo_system) ("agent-1", 1%Z) <= 2)%nat.
Proof. apply (request_delivered_at_most_twice 1 demo_system). apply demo_system_reachable. Defined.

Definition queued_system : System := broker_exec (BEnqueue 0 (Some (replicate 16 7)) "agent-1" demo_http) (NewBroker 1, []).

Lemma queued_reachable : broker_reachable 1 (fst queued_system, snd queued_system).
Proof.
  apply (broker_step 1 (NewBroker 1, []) (BEnqueue 0 (Some (replicate 16 7)) "agent-1" demo_http));
    [apply broker_init|]. vm_compute. split; [discriminate|reflexivity].
Qed.

Lemma poll_hands_out_in_order_witness :
  exists r b', Poll 1 (demo_poll 0) (fst queued_system) = (Ok (Some r), b') /\ rq_Sequence r = 1 /\
    (pr_AuthorityEpoch (demo_poll 0) = 0 \/ pr_AuthorityEpoch (demo_poll 0) = epoch (fst queued_system)).
Proof.
  destruct (Poll 1 (demo_poll 0) (fst queued_system)) as [[[r|]|e] b'] eqn:P;
    [|vm_compute in P; discriminate P|vm_compute in P; discriminate P].
  destruct (poll_hands_out_in_order 1 1 (fst queued_system) b' (snd queued_system) (demo_poll 0) r
    queued_reachable P) as (Ha & _).
  exists r, b'. split; [reflexivity|]. split; [|exact Ha].
  vm_compute in P. injection P as <- _. reflexivity.
Defined.

Definition demo_request : Request := mkRequest 1 "{}" 0 (35 * second) [] "r1" "POST" "/v1/commands" 1.
Definition demo_handler (r : Request) : Recorded := mkRecorded "ok" (fun _ => "") 200.
Definition acked : Cycle := mkCycle (ReplyRequest demo_request) 1 (fun _ => true) true.
Definition ack_lost : Cycle := mkCycle (ReplyRequest demo_request) 1 (fun _ => true) false.
Definition new_client : Client := mkC (mkClient 0 0) None [].

Lemma agent_never_goes_back_witness :
  let c2 := snd (cycle demo_handler acked new_client) in
  let c3 := client_run demo_handler [ERestart; ECycle acked] c2 in
  served c2 = [demo_request] /\
  exists news, served c3 = served c2 ++ news /\ Forall (fun x => 1 < rq_Sequence x) news.
Proof.
  split; [vm_compute; reflexivity|].
  destruct (agent_never_goes_back demo_handler [] [ERestart; ECycle acked] acked demo_request new_client
    eq_refl (Forall_nil_2 _) ltac:(repeat constructor; intros; reflexivity) ltac:(intros; reflexivity))
    as (_ & _ & _ & Hack).
  exact (Hack eq_refl ltac:(vm_compute; reflexivity)).
Defined.

(** ** What the runs show about the code *)

(** The agent moves its cursor only after Core has acknowledged the response.
    When the handler ran and that acknowledgement was lost, the next poll still
    shows the old cursor, the broker takes the request for one that never
    arrived and hands it out again, and the agent executes it a second time. *)
Theorem lost_acknowledgement_executes_twice :
  let st := fst queued_system in
  let poll c b := Poll 1 (mkPoll "agent-1" (c_AuthorityEpoch (state c)) (c_Cursor (state c)) 1) b in
  exists r c1 b1 b2,
    poll new_client st = (Ok (Some r), b1) /\
    snd (cycle demo_handler (mkCycle (ReplyRequest r) 1 (fun _ => true) false) new_client) = c1 /\
    served c1 = [r] /\
    poll c1 b1 = (Ok (Some r), b2) /\
    served (snd (cycle demo_handler (mkCycle (ReplyRequest r) 1 (fun _ => true) true) c1)) = [r; r].
Proof. vm_compute. do 4 eexists. repeat split; reflexivity. Qed.

(** A request enqueued on a fresh broker before the agent's first poll keeps a
    sequence number below the agent's durable cursor: it is handed out, refused
    by the agent as a repetition, and not handed out again. *)
Theorem early_request_is_refused :
  let c := mkC (mkClient 1 57) (Some (mkClient 1 57)) [] in
  exists r b1 b2,
    Poll 1 (demo_poll 57) (fst queued_system) = (Ok (Some r), b1) /\
    fst (cycle demo_handler (mkCycle (ReplyRequest r) 1 (fun _ => true) true) c) = false /\
    served (snd (cycle demo_handler (mkCycle (ReplyRequest r) 1 (fun _ => true) true) c)) = [] /\
    Poll 2 (demo_poll 57) b1 = (Ok None, b2).
Proof. vm_compute. do 3 eexists. repeat split; reflexivity. Qed.
