(* ===== verification/AgentRegistry.v ===== *)
(** * internal/agentpull/registry.go: who may connect as an agent

    The registry owns the private certificate authority and the one-time grants
    by which a machine becomes an agent: enrollment tokens handed out by an
    operator, and standalone claims an agent starts and an operator approves.
    Every change is one transaction on the [AgentDB] tables under the lock of
    the [agent_ca] row, so several controller processes are a sequence of
    operations.  The X.509, PEM and SHA-256 code of the Go library is the
    parameter [RegistryLib].  Column widths are not modelled. *)

From Stdlib Require Import ZArith Lia Bool Ascii String.
From stdpp Require Import base tactics list strings.
From S2P Require Import Prelude GoStrings Sqlstore Ledger AgentPull.

Local Open Scope string_scope.
Local Open Scope list_scope.
Local Open Scope bool_scope.
Local Open Scope Z_scope.
Local Open Scope tx_scope.

(** ** Data *)

Definition enrollmentTTL : Z := 15 * minute.
Definition clientCertTTL : Z := 30 * 24 * hour.
Definition caKeyPurpose : string := Purpose "agent_ca" "private_key_sealed" "1".

Record EnrollmentToken := mkToken { tk_Code : string; tk_ExpiresAt : Z; tk_Name : string }.

Record EnrollInput := mkEnroll { ei_CSR : string; ei_Code : string; ei_NodeName : string; ei_Protocol : Z }.

Record Enrollment := mkEnrollment {
  en_AgentID : string; en_AuthorityEpoch : Z; en_CACertificate : string; en_Certificate : string; en_ExpiresAt : Z }.

Record ClaimTicket := mkTicket { ct_ClaimID : string; ct_ClaimSecret : string; ct_Code : string; ct_ExpiresAt : Z }.

Record ClaimApproval := mkApproval { ca_AgentID : string; ca_Name : string; ca_ExpiresAt : Z }.

Record tokenRecord := mkTokenRecord { tr_Digest : string; tr_ExpiresAt : Z; tr_Name : string }.
Record agentRecord := mkAgentRecord { ar_ID : string; ar_Name : string; ar_ExpiresAt : Z }.
Record claimRecord := mkClaimRecord {
  cr_CSR : string; cr_CodeDigest : string; cr_Enrollment : option Enrollment; cr_ExpiresAt : Z; cr_ID : string;
  cr_Name : string; cr_SecretDigest : string }.

Record registryState := mkRegistryState {
  rs_Agents : list agentRecord; rs_CACertPEM : string; rs_CAKeyPEM : string; rs_Claims : list claimRecord;
  rs_Tokens : list tokenRecord }.

(** The registry tables; a claim row carries its [position]. *)
Record AgentDB := mkAgentDB {
  agent_ca : option (string * Sealed); agents_table : list agentRecord;
  agent_enrollment_tokens : list tokenRecord; agent_claims : list (claimRecord * Z) }.

(** One controller process: the epoch it hands out and the CA it signs with. *)
Record Registry := mkRegistry { authorityEpoch : Z; ca : string; caKey : string }.

Inductive rerr :=
| ErrProtocolIncompatible | ErrCSRInvalid | ErrKeyType | ErrAgentName | ErrRandom | ErrClaimCode | errClaimPending
| ErrClaimInvalid | ErrCodeInvalid | ErrNotEnrolled | ErrIssue | ErrRegistryMissing | ErrSealedKey | ErrCAMaterial
| ErrCertificateRequired | ErrOpenRegistryAgain | ErrRegistryContext | ErrRegistryConnection
| ErrRegistryDB (c : Z).

#[export] Instance rerr_server : ServerError rerr.
Proof.
  refine {| server := ErrRegistryDB;
            server_code e := match e with ErrRegistryDB c => Some c | _ => None end;
            ctx_done := ErrRegistryContext; lost_connection := ErrRegistryConnection |}; done.
Defined.

(** ** The Go library *)

Inductive PublicKey := KeyP256 | KeyOtherCurve | KeyOtherType.
Record PemBlock := mkPem { pem_Type : string; pem_Bytes : string }.
Record CertificateRequest := mkCSR { csr_SignatureOK : bool; csr_PublicKey : PublicKey; csr_Raw : string }.

Definition is_ascii (c : ascii) : bool := code c <? 128.
Definition ascii_upper (c : ascii) : ascii := if between 97 122 (code c) then chr (code c - 32) else c.

Class RegistryLib := {
  pem_Decode : string -> option PemBlock;
  ParseCertificateRequest : string -> option CertificateRequest;
  (* x509.CreateCertificate and its PEM encoding: serial, identity, name, validity, CA, key, request *)
  CreateCertificate : Z -> string -> string -> Z * Z -> string -> string -> CertificateRequest -> option string;
  CA_parses : string -> string -> bool;
  digest : string -> string;
  ToUpper : string -> string;
  ToUpper_ascii : forall s, forallb is_ascii (bytes s) = true ->
    ToUpper s = of_bytes (map ascii_upper (bytes s)) }.

(** What a call reads from outside: the clock before the transaction, in it and
    at the issue of a certificate, random bytes by draw, the certificate serial, the verdicts of the server.
    A transaction that is run again draws again; these are the draws of the run
    that decides. *)
Record RegEnv := mkRegEnv {
  re_now : Z; re_tx_now : Z; re_issue_now : Z; re_random : nat -> option (list Z); re_serial : option Z;
  re_verdicts : list verdict }.

Section Registry.
Context `{Collation} `{RegistryLib}.

Definition parseCSR (value : string) : result rerr CertificateRequest :=
  match pem_Decode value with
  | None => Err ErrCSRInvalid
  | Some block =>
      if negb (pem_Type block =? "CERTIFICATE REQUEST")%string then Err ErrCSRInvalid
      else match ParseCertificateRequest (pem_Bytes block) with
      | None => Err ErrCSRInvalid
      | Some csr =>
          if negb (csr_SignatureOK csr) then Err ErrCSRInvalid
          else match csr_PublicKey csr with
               | KeyP256 => Ok csr
               | _ => Err ErrKeyType
               end
      end
  end.

(** [strings.ContainsAny(name, "\r\n\x00")]. *)
Definition contains_break (name : string) : bool :=
  existsb (fun c => (code c =? 13) || (code c =? 10) || (code c =? 0)) (bytes name).

Definition random_hex (env : RegEnv) (draw : nat) : result rerr string :=
  match re_random env draw with None => Err ErrRandom | Some bs => Ok (EncodeToString bs) end.

(** ** Claim codes *)

Definition alphabet : list ascii := bytes "ABCDEFGHJKLMNPQRSTUVWXYZ23456789".

Definition code_characters (data : list Z) : list ascii :=
  map (fun v => nth (Z.to_nat (Z.land v 31)) alphabet (chr 65)) data.

Definition humanClaimCode (random : option (list Z)) : result rerr string :=
  match random with
  | None => Err ErrRandom
  | Some data =>
      let cs := code_characters data in
      Ok (of_bytes (take 4 cs) ++ "-" ++ of_bytes (take 4 (drop 4 cs)) ++ "-" ++ of_bytes (take 4 (drop 8 cs))
          ++ "-" ++ of_bytes (take 4 (drop 12 cs)))%string
  end.

Definition is_separator (c : ascii) : bool := (code c =? 45) || (code c =? 32).

Definition normalizeClaimCode (value : string) : string :=
  ToUpper (of_bytes (List.filter (fun c => negb (is_separator c)) (bytes (TrimSpace value)))).

(** ** The tables *)

(** Insertion by a total preorder, for [ORDER BY] on text columns: the ordered
    columns hold lower-case hexadecimal, on which the collation follows bytes. *)
Fixpoint insert_row {A : Type} (le : A -> A -> bool) (x : A) (l : list A) : list A :=
  match l with
  | [] => [x]
  | y :: l' => if le x y then x :: y :: l' else y :: insert_row le x l'
  end.

Definition order_rows {A : Type} (le : A -> A -> bool) (l : list A) : list A := fold_right (insert_row le) [] l.

Definition agent_le (a b : agentRecord) : bool := String.leb (ar_ID a) (ar_ID b).
Definition token_le (a b : tokenRecord) : bool :=
  (tr_ExpiresAt a <? tr_ExpiresAt b)
  || ((tr_ExpiresAt a =? tr_ExpiresAt b) && String.leb (tr_Digest a) (tr_Digest b)).

(** The enrollment columns of a claim: the certificate authority is not stored. *)
Definition with_authority (cert : string) (c : claimRecord) : claimRecord :=
  mkClaimRecord (cr_CSR c) (cr_CodeDigest c)
    (option_map (fun e => mkEnrollment (en_AgentID e) (uint64_of (en_AuthorityEpoch e)) cert (en_Certificate e)
       (en_ExpiresAt e)) (cr_Enrollment c))
    (cr_ExpiresAt c) (cr_ID c) (cr_Name c) (cr_SecretDigest c).

Definition loadRegistry (db : AgentDB) : result rerr (option registryState) :=
  match agent_ca db with
  | None => Ok None
  | Some (cert, sealed) =>
      match open_sealed caKeyPurpose sealed with
      | None => Err ErrSealedKey
      | Some key =>
          Ok (Some (mkRegistryState (order_rows agent_le (agents_table db)) cert key
                (map (fun row => with_authority cert (fst row))
                   (order_by (fun row => (snd row, 0)) (agent_claims db)))
                (order_rows token_le (agent_enrollment_tokens db))))
      end
  end.

Definition ErrOutOfRange : Z := 1264.

(** One [INSERT] per row: a primary or unique key, and a value in range. *)
Fixpoint insert_rows {R : Type} (dup : R -> R -> bool) (fits : R -> bool) (rows table : list R) : result rerr (list R) :=
  match rows with
  | [] => Ok table
  | r :: rest =>
      if existsb (dup r) table then Err (ErrRegistryDB ErrDuplicateEntry)
      else if negb (fits r) then Err (ErrRegistryDB ErrOutOfRange)
      else insert_rows dup fits rest (table ++ [r])
  end.

Definition same_agent (a b : agentRecord) : bool := ceq (ar_ID a) (ar_ID b).
Definition same_token (a b : tokenRecord) : bool := ceq (tr_Digest a) (tr_Digest b).
Definition same_claim (a b : claimRecord * Z) : bool :=
  ceq (cr_ID (fst a)) (cr_ID (fst b)) || ceq (cr_CodeDigest (fst a)) (cr_CodeDigest (fst b)).

(** [enrollment_authority_epoch] takes an [int64] and refuses a negative one. *)
Definition epoch_fits (row : claimRecord * Z) : bool :=
  match cr_Enrollment (fst row) with
  | None => true
  | Some e => 0 <=? int64_of (en_AuthorityEpoch e)
  end.

Fixpoint with_positions (position : Z) (cs : list claimRecord) : list (claimRecord * Z) :=
  match cs with
  | [] => []
  | c :: rest => (c, position) :: with_positions (position + 1) rest
  end.

Definition writeRegistry (s : registryState) (create : bool) : tx AgentDB rerr unit :=
  db <- tx_get ;;
  (if create
   then match agent_ca db with
        | Some _ => tx_fail (ErrRegistryDB ErrDuplicateEntry)
        | None => tx_modify (fun db => mkAgentDB (Some (rs_CACertPEM s, seal caKeyPurpose (rs_CAKeyPEM s)))
                               (agents_table db) (agent_enrollment_tokens db) (agent_claims db))
        end
   else tx_ret tt) ;;;
  agents <- tx_lift (insert_rows same_agent (fun _ => true) (rs_Agents s) []) ;;
  tokens <- tx_lift (insert_rows same_token (fun _ => true) (rs_Tokens s) []) ;;
  claims <- tx_lift (insert_rows same_claim epoch_fits (with_positions 0 (rs_Claims s)) []) ;;
  tx_modify (fun db => mkAgentDB (agent_ca db) agents tokens claims).

(** [transact]: one change of a freshly locked read. *)
Definition transact {A : Type} (vs : list verdict) (fn : registryState -> result rerr (A * registryState))
    : tx AgentDB rerr A :=
  WithTx vs
    (db <- tx_get ;;
     loaded <- tx_lift (loadRegistry db) ;;
     match loaded with
     | None => tx_fail ErrRegistryMissing
     | Some s =>
         out <- tx_lift (fn s) ;;
         writeRegistry (snd out) false ;;;
         tx_ret (fst out)
     end).

(** ** Opening *)

(** [generated] is what [initialize] draws: the PEM of a certificate and key. *)
Definition open_registry_tx (generated : option (string * string)) : tx AgentDB rerr registryState :=
  db <- tx_get ;;
  loaded <- tx_lift (loadRegistry db) ;;
  match loaded with
  | Some s => tx_ret s
  | None =>
      match generated with
      | None => tx_fail ErrRandom
      | Some (cert, key) =>
          let s := mkRegistryState [] cert key [] [] in
          writeRegistry s true ;;; tx_ret s
      end
  end.

Fixpoint open_registry_runs (runs : list (list verdict * option (string * string))) : tx AgentDB rerr registryState :=
  match runs with
  | [] => tx_fail ErrOpenRegistryAgain
  | (vs, generated) :: rest => fun db =>
      match WithTx vs (open_registry_tx generated) db with
      | (Ok s, db') => (Ok s, db')
      | (Err e, db') => if IsDuplicate e then open_registry_runs rest db' else (Err e, db')
      end
  end.

Definition OpenRegistry (runs : list (list verdict * option (string * string))) (epoch : Z) : tx AgentDB rerr Registry :=
  s <- open_registry_runs runs ;;
  if CA_parses (rs_CACertPEM s) (rs_CAKeyPEM s)
  then tx_ret (mkRegistry (if epoch =? 0 then 1 else epoch) (rs_CACertPEM s) (rs_CAKeyPEM s))
  else tx_fail ErrCAMaterial.

Definition SetRegistryEpoch (epoch : Z) (r : Registry) : Registry :=
  if epoch =? 0 then r
  else if epoch >? authorityEpoch r then mkRegistry epoch (ca r) (caKey r) else r.

(** ** Grants *)

Definition pruneLocked (now : Z) (s : registryState) : registryState :=
  mkRegistryState (rs_Agents s) (rs_CACertPEM s) (rs_CAKeyPEM s)
    (List.filter (fun c => now <? cr_ExpiresAt c) (rs_Claims s))
    (List.filter (fun t => now <? tr_ExpiresAt t) (rs_Tokens s)).

Definition with_agents (f : list agentRecord -> list agentRecord) (s : registryState) : registryState :=
  mkRegistryState (f (rs_Agents s)) (rs_CACertPEM s) (rs_CAKeyPEM s) (rs_Claims s) (rs_Tokens s).
Definition with_claims (f : list claimRecord -> list claimRecord) (s : registryState) : registryState :=
  mkRegistryState (rs_Agents s) (rs_CACertPEM s) (rs_CAKeyPEM s) (f (rs_Claims s)) (rs_Tokens s).
Definition with_tokens (f : list tokenRecord -> list tokenRecord) (s : registryState) : registryState :=
  mkRegistryState (rs_Agents s) (rs_CACertPEM s) (rs_CAKeyPEM s) (rs_Claims s) (f (rs_Tokens s)).

(** The first element that satisfies a condition, with what precedes and
    follows it: Go's loops with an index. *)
Fixpoint find_at {A : Type} (p : A -> bool) (before l : list A) : option (list A * A * list A) :=
  match l with
  | [] => None
  | x :: rest => if p x then Some (before, x, rest) else find_at p (before ++ [x]) rest
  end.

Definition issueLocked (r : Registry) (env : RegEnv) (agentID name : string) (csr : CertificateRequest)
    : result rerr (string * Z) :=
  match re_serial env with
  | None => Err ErrRandom
  | Some serial =>
      let expires := timestamp_of (re_issue_now env + clientCertTTL) in
      match CreateCertificate serial agentID name (re_issue_now env - minute, expires) (ca r) (caKey r) csr with
      | None => Err ErrIssue
      | Some certificate => Ok (certificate, expires)
      end
  end.

Definition bad_name (name : string) : bool := (name =? "")%string || (len name >? 96) || contains_break name.

Definition CreateEnrollment (env : RegEnv) (name : string) : tx AgentDB rerr EnrollmentToken :=
  let name := TrimSpace name in
  if (len name >? 96) || contains_break name then tx_fail ErrAgentName
  else
    code <- tx_lift (random_hex env 0) ;;
    let expires := timestamp_of (re_now env + enrollmentTTL) in
    transact (re_verdicts env) (fun s =>
      Ok (tt, with_tokens (fun ts => ts ++ [mkTokenRecord (digest code) expires name])
                (pruneLocked (re_tx_now env) s))) ;;;
    tx_ret (mkToken code expires name).

Definition enroll (r : Registry) (env : RegEnv) (input : EnrollInput) (csr : CertificateRequest) (s : registryState)
    : result rerr (Enrollment * registryState) :=
  let now := re_tx_now env in
  let s := pruneLocked now s in
  let wanted := digest (TrimSpace (ei_Code input)) in
  match find_at (fun t => (tr_Digest t =? wanted)%string && (now <? tr_ExpiresAt t)) [] (rs_Tokens s) with
  | None => Err ErrCodeInvalid
  | Some (before, token, after) =>
      let name := if negb (tr_Name token =? "")%string then tr_Name token else TrimSpace (ei_NodeName input) in
      if bad_name name then Err ErrAgentName
      else match random_hex env 0 with
      | Err e => Err e
      | Ok agentID =>
          match issueLocked r env agentID name csr with
          | Err e => Err e
          | Ok (certificate, expiresAt) =>
              let s := with_tokens (fun _ => before ++ after) s in
              let s := with_agents (fun l => l ++ [mkAgentRecord agentID name expiresAt]) s in
              Ok (mkEnrollment agentID (authorityEpoch r) (rs_CACertPEM s) certificate expiresAt, s)
          end
      end
  end.

Definition Enroll (r : Registry) (env : RegEnv) (input : EnrollInput) : tx AgentDB rerr Enrollment :=
  if negb (ei_Protocol input =? ProtocolVersion) then tx_fail ErrProtocolIncompatible
  else
    csr <- tx_lift (parseCSR (ei_CSR input)) ;;
    transact (re_verdicts env) (enroll r env input csr).

Definition renew (r : Registry) (env : RegEnv) (agentID : string) (csr : CertificateRequest) (s : registryState)
    : result rerr (Enrollment * registryState) :=
  match find_at (fun a => (ar_ID a =? agentID)%string) [] (rs_Agents s) with
  | None => Err ErrNotEnrolled
  | Some (before, agent, after) =>
      match issueLocked r env agentID (ar_Name agent) csr with
      | Err e => Err e
      | Ok (certificate, expiresAt) =>
          let s := with_agents (fun _ => before ++ mkAgentRecord (ar_ID agent) (ar_Name agent) expiresAt :: after) s in
          Ok (mkEnrollment agentID (authorityEpoch r) (rs_CACertPEM s) certificate expiresAt, s)
      end
  end.

Definition Renew (r : Registry) (env : RegEnv) (agentID csrPEM : string) : tx AgentDB rerr Enrollment :=
  csr <- tx_lift (parseCSR csrPEM) ;;
  transact (re_verdicts env) (renew r env agentID csr).

(** ** Standalone claims *)

Definition StartClaim (env : RegEnv) (input : EnrollInput) : tx AgentDB rerr ClaimTicket :=
  if negb (ei_Protocol input =? ProtocolVersion) then tx_fail ErrProtocolIncompatible
  else
    tx_lift (parseCSR (ei_CSR input)) ;;;
    let name := TrimSpace (ei_NodeName input) in
    if bad_name name then tx_fail ErrAgentName
    else
      claimID <- tx_lift (random_hex env 0) ;;
      secret <- tx_lift (random_hex env 1) ;;
      code <- tx_lift (humanClaimCode (re_random env 2)) ;;
      let expires := timestamp_of (re_now env + enrollmentTTL) in
      transact (re_verdicts env) (fun s =>
        Ok (tt, with_claims (fun cs => cs ++
                  [mkClaimRecord (ei_CSR input) (digest (normalizeClaimCode code)) None expires claimID name
                     (digest secret)])
                  (pruneLocked (re_tx_now env) s))) ;;;
      tx_ret (mkTicket claimID secret code expires).

Definition set_enrollment (e : Enrollment) (c : claimRecord) : claimRecord :=
  mkClaimRecord (cr_CSR c) (cr_CodeDigest c) (Some e) (cr_ExpiresAt c) (cr_ID c) (cr_Name c) (cr_SecretDigest c).

Definition approve (r : Registry) (env : RegEnv) (code : string) (s : registryState)
    : result rerr (ClaimApproval * registryState) :=
  let now := re_tx_now env in
  let s := pruneLocked now s in
  let wanted := digest (normalizeClaimCode code) in
  match find_at (fun c => (cr_CodeDigest c =? wanted)%string && (now <? cr_ExpiresAt c)) [] (rs_Claims s) with
  | None => Err ErrClaimCode
  | Some (before, claim, after) =>
      match cr_Enrollment claim with
      | Some e => Ok (mkApproval (en_AgentID e) (cr_Name claim) (en_ExpiresAt e), s)
      | None =>
          match parseCSR (cr_CSR claim) with
          | Err e => Err e
          | Ok csr =>
              match random_hex env 0 with
              | Err e => Err e
              | Ok agentID =>
                  match issueLocked r env agentID (cr_Name claim) csr with
                  | Err e => Err e
                  | Ok (certificate, expiresAt) =>
                      let e := mkEnrollment agentID (authorityEpoch r) (rs_CACertPEM s) certificate expiresAt in
                      let s := with_claims (fun _ => before ++ set_enrollment e claim :: after) s in
                      let s := with_agents (fun l => l ++ [mkAgentRecord agentID (cr_Name claim) expiresAt]) s in
                      Ok (mkApproval agentID (cr_Name claim) expiresAt, s)
                  end
              end
          end
      end
  end.

Definition ApproveClaim (r : Registry) (env : RegEnv) (code : string) : tx AgentDB rerr ClaimApproval :=
  transact (re_verdicts env) (approve r env code).

Definition redeem (env : RegEnv) (claimID secret : string) (s : registryState)
    : result rerr (Enrollment * registryState) :=
  let s := pruneLocked (re_tx_now env) s in
  match find_at (fun c => (cr_ID c =? TrimSpace claimID)%string
                          && (cr_SecretDigest c =? digest (TrimSpace secret))%string) [] (rs_Claims s) with
  | None => Err ErrClaimInvalid
  | Some (before, claim, after) =>
      match cr_Enrollment claim with
      | None => Err errClaimPending
      | Some e => Ok (e, with_claims (fun _ => before ++ after) s)
      end
  end.

(** [RedeemClaim]: [Ok None] while the claim awaits approval. *)
Definition RedeemClaim (env : RegEnv) (claimID secret : string) : tx AgentDB rerr (option Enrollment) :=
  fun db =>
  match transact (re_verdicts env) (redeem env claimID secret) db with
  | (Ok e, db') => (Ok (Some e), db')
  | (Err errClaimPending, db') => (Ok None, db')
  | (Err e, db') => (Err e, db')
  end.

(** ** Identity of a request *)

Definition hasAgent (reachable : bool) (agentID : string) (db : AgentDB) : bool :=
  reachable && sql_exists (fun a => ceq (ar_ID a) agentID) (agents_table db).

(** [commonName] is the subject of the verified leaf certificate, if there is
    a verified chain. *)
Definition AgentID (reachable : bool) (commonName : option string) (db : AgentDB) : result rerr string :=
  match commonName with
  | None => Err ErrCertificateRequired
  | Some cn =>
      let agentID := TrimSpace cn in
      if (agentID =? "")%string || negb (hasAgent reachable agentID db) then Err ErrNotEnrolled else Ok agentID
  end.

End Registry.
