(* ===== verification/AgentGrants.v ===== *)
(** * Properties of the agent registry

    Identities enter the registry only through grants, a grant is spent once,
    and an approved claim always leads to a working identity. *)

From Stdlib Require Import ZArith Lia Bool Ascii String.
From stdpp Require Import base tactics list strings.
From S2P Require Import Prelude GoStrings Sqlstore Ledger AgentPull AgentRegistry.

Local Open Scope string_scope.
Local Open Scope list_scope.
Local Open Scope bool_scope.
Local Open Scope Z_scope.

(** ** Lists and tables *)

Lemma find_at_Some {A : Type} (p : A -> bool) before l b x a :
  find_at p before l = Some (b, x, a) -> before ++ l = b ++ x :: a /\ p x = true.
Proof.
  revert before. induction l as [|y l IH]; intros before; simpl; [discriminate|].
  destruct (p y) eqn:P; [by intros [= <- <- <-]|]. intros [E Hp]%IH. by rewrite <- app_assoc in E.
Qed.

Lemma find_at_None {A : Type} (p : A -> bool) before l x : find_at p before l = None -> In x l -> p x = false.
Proof.
  revert before. induction l as [|y l IH]; intros before; simpl; [done|].
  destruct (p y) eqn:P; [discriminate|]. intros E [->|Hin]; [done|by eapply IH].
Qed.

Lemma find_at_only {A : Type} (p : A -> bool) before b x a :
  (forall y, In y b -> p y = false) -> p x = true ->
  find_at p before (b ++ x :: a) = Some (before ++ b, x, a).
Proof.
  revert before. induction b as [|y b IH]; intros before Hb Hx; simpl.
  - by rewrite Hx, app_nil_r.
  - rewrite (Hb y) by by left. rewrite IH; [|intros z Hz; apply Hb; by right|done]. by rewrite <- app_assoc.
Qed.

Lemma insert_row_perm {A : Type} (le : A -> A -> bool) x l : insert_row le x l ≡ₚ x :: l.
Proof.
  induction l as [|y l IH]; simpl; [done|]. destruct (le x y); [done|]. rewrite IH. apply Permutation_swap.
Qed.

Lemma order_rows_perm {A : Type} (le : A -> A -> bool) l : order_rows le l ≡ₚ l.
Proof.
  induction l as [|x l IH]; [done|]. unfold order_rows in *. cbn [fold_right]. by rewrite insert_row_perm, IH.
Qed.

(** No two rows of a list share a key. *)
Definition keyed {R : Type} (dup : R -> R -> bool) (l : list R) : Prop :=
  ForallOrdPairs (fun a b => dup b a = false) l.

Section Keys.
Context {R : Type} (dup : R -> R -> bool) (Hsym : forall a b, dup a b = dup b a).

Lemma insert_rows_ok fits rows table t :
  insert_rows dup fits rows table = Ok t ->
  t = table ++ rows /\ keyed dup rows /\ (forall r, In r rows -> fits r = true).
Proof.
  revert table. induction rows as [|r rows IH]; intros table; simpl.
  - intros [= <-]. rewrite app_nil_r. split; [done|]. split; [constructor|done].
  - destruct (existsb (dup r) table) eqn:D; [discriminate|].
    destruct (fits r) eqn:F; cbn [negb]; [|discriminate]. intros Hi.
    assert (forall x, In x rows -> forall y, In y (table ++ [r]) -> dup x y = false) as Hnew.
    { clear -Hi. revert Hi. generalize (table ++ [r]). induction rows as [|z rows IHr]; intros tb Hi x Hx y Hy; [done|].
      simpl in Hi. destruct (existsb (dup z) tb) eqn:Z; [discriminate|]. destruct (fits z); [|discriminate].
      destruct Hx as [->|Hx]; [|apply (IHr _ Hi x Hx); apply in_or_app; by left].
      destruct (dup x y) eqn:Dx; [|done]. rewrite <- Z. symmetry. apply existsb_exists. eauto. }
    apply IH in Hi as (-> & Hk & Hf). split; [by rewrite <- app_assoc|]. split.
    + constructor; [|done]. apply Forall_forall. intros x Hx. apply Hnew; [by apply list_elem_of_In|].
      apply in_or_app. right. by left.
    + intros x [->|Hx]; auto.
Qed.

Lemma insert_rows_succeeds fits rows table :
  keyed dup (table ++ rows) -> (forall r, In r rows -> fits r = true) ->
  insert_rows dup fits rows table = Ok (table ++ rows).
Proof.
  revert table. induction rows as [|r rows IH]; intros table Hk Hf; simpl; [by rewrite app_nil_r|].
  assert (existsb (dup r) table = false) as ->.
  { destruct (existsb (dup r) table) eqn:E; [|done]. apply existsb_exists in E as (y & Hy & Hd).
    clear -Hk Hy Hd. exfalso. induction table as [|z table IHt]; [done|]. simpl in Hk.
    inversion Hk as [|? ? Hall Hk']; subst. destruct Hy as [->|Hy]; [|auto].
    rewrite Forall_forall in Hall. specialize (Hall r). rewrite Hall in Hd; [done|].
    apply list_elem_of_In, in_or_app. right. by left. }
  rewrite (Hf r) by by left. cbn [negb]. rewrite IH; [by rewrite <- app_assoc|by rewrite <- app_assoc|].
  intros x Hx. apply Hf. by right.
Qed.

Lemma keyed_perm l l' : l ≡ₚ l' -> keyed dup l -> keyed dup l'.
Proof.
  unfold keyed. induction 1 as [|x l l' Hp IH|x y l|l l' l'' _ IH1 _ IH2]; intros Hk; [done| | |auto].
  - inversion Hk as [|? ? Hall Hk']; subst. constructor; [by rewrite <- Hp|auto].
  - inversion Hk as [|? ? Hall Hk']; subst. inversion Hk' as [|? ? Hall' Hk'']; subst.
    inversion Hall as [|? ? Hxy Hall'']; subst. constructor; [|by constructor].
    constructor; [by rewrite Hsym|done].
Qed.

Lemma keyed_sublist l l' : sublist l' l -> keyed dup l -> keyed dup l'.
Proof.
  unfold keyed. induction 1 as [|x l' l Hs IH|x l' l Hs IH]; intros Hk; [done| |].
  - inversion Hk as [|? ? Hall Hk']; subst. constructor; [|auto].
    apply Forall_forall. intros y Hy. rewrite Forall_forall in Hall. apply Hall.
    by eapply elem_of_sublist.
  - inversion Hk; subst. auto.
Qed.

Lemma keyed_snoc l x : keyed dup l -> (forall y, In y l -> dup x y = false) -> keyed dup (l ++ [x]).
Proof.
  unfold keyed. induction 1 as [|y l Hall _ IH]; intros Hx; simpl; [repeat constructor|].
  constructor; [|apply IH; intros z Hz; apply Hx; by right].
  apply Forall_app. split; [done|]. constructor; [|constructor]. apply Hx. by left.
Qed.

Lemma keyed_map {Q : Type} (dupQ : Q -> Q -> bool) (f : R -> Q) l :
  (forall a b, dupQ (f a) (f b) = dup a b) -> keyed dup l -> keyed dupQ (map f l).
Proof.
  intros Hf. unfold keyed. induction 1 as [|y l Hall _ IH]; simpl; constructor; [|done].
  apply Forall_forall. intros q Hq. apply list_elem_of_In, in_map_iff in Hq as (z & <- & Hz).
  rewrite Hf. rewrite Forall_forall in Hall. by apply Hall, list_elem_of_In.
Qed.

Lemma keyed_eq l x y : (forall a, dup a a = true) -> keyed dup l -> In x l -> In y l -> dup x y = true -> x = y.
Proof.
  intros Hr. unfold keyed. induction 1 as [|z l Hall _ IH]; intros Hx Hy Hd; [done|].
  rewrite Forall_forall in Hall.
  destruct Hx as [->|Hx], Hy as [->|Hy]; [done| | |auto].
  - rewrite Hsym, (Hall y) in Hd; [done|by apply list_elem_of_In].
  - rewrite (Hall x) in Hd; [done|by apply list_elem_of_In].
Qed.

End Keys.

Lemma filter_sublist {A : Type} (p : A -> bool) l : sublist (List.filter p l) l.
Proof. induction l as [|x l IH]; simpl; [constructor|]. destruct (p x); by constructor. Qed.

Lemma with_positions_fst p cs : map fst (with_positions p cs) = cs.
Proof. revert p. induction cs as [|c cs IH]; intros p; simpl; [done|]. by rewrite IH. Qed.

Lemma with_positions_map p f cs :
  map (fun row => (f (fst row), snd row)) (with_positions p cs) = with_positions p (map f cs).
Proof. revert p. induction cs as [|c cs IH]; intros p; simpl; [done|]. by rewrite IH. Qed.

Lemma with_positions_ordered p cs : order_by (fun row => (snd row, 0)) (with_positions p cs) = with_positions p cs.
Proof.
  revert p. induction cs as [|c cs IH]; intros p; [done|]. cbn [with_positions]. unfold order_by in *.
  cbn [fold_right]. rewrite IH. destruct cs as [|d cs]; [done|]. cbn [with_positions insert_by].
  unfold lex_le. cbn [fst snd]. by replace (p <? p + 1) with true by lia.
Qed.

Lemma int64_uint64 z : int64_of (uint64_of z) = int64_of z.
Proof. unfold int64_of, uint64_of, two64, two63. by rewrite Zplus_mod_idemp_l. Qed.

Section Grants.
Context `{Collation} `{RegistryLib}.

Lemma same_agent_sym a b : same_agent a b = same_agent b a.
Proof. apply ceq_sym_eq. Qed.

Lemma same_token_sym a b : same_token a b = same_token b a.
Proof. apply ceq_sym_eq. Qed.

Lemma same_claim_sym a b : same_claim a b = same_claim b a.
Proof. unfold same_claim. by rewrite (ceq_sym_eq (cr_ID _)), (ceq_sym_eq (cr_CodeDigest _)). Qed.

Lemma same_claim_refl a : same_claim a a = true.
Proof. unfold same_claim. by rewrite ceq_refl. Qed.

(** ** The state of the tables *)

Record registry_ok (db : AgentDB) : Prop := {
  ro_agents : keyed same_agent (agents_table db);
  ro_tokens : keyed same_token (agent_enrollment_tokens db);
  ro_claims : keyed same_claim (agent_claims db);
  ro_positions : agent_claims db = with_positions 0 (map fst (agent_claims db));
  ro_fits : forall row, In row (agent_claims db) -> epoch_fits row = true;
  ro_enrolled : forall c e, In c (map fst (agent_claims db)) -> cr_Enrollment c = Some e ->
    In (en_AgentID e) (map ar_ID (agents_table db));
  ro_missing : agent_ca db = None -> agents_table db = [] }.

Definition empty_registry : AgentDB := mkAgentDB None [] [] [].

Lemma empty_registry_ok : registry_ok empty_registry.
Proof. split; simpl; try constructor; done. Qed.

Lemma loadRegistry_Some db s :
  registry_ok db -> loadRegistry db = Ok (Some s) ->
  rs_Agents s ≡ₚ agents_table db /\ rs_Tokens s ≡ₚ agent_enrollment_tokens db /\
  exists sealed, agent_ca db = Some (rs_CACertPEM s, sealed) /\ open_sealed caKeyPurpose sealed = Some (rs_CAKeyPEM s) /\
    rs_Claims s = map (with_authority (rs_CACertPEM s)) (map fst (agent_claims db)).
Proof.
  intros Hok. unfold loadRegistry. destruct (agent_ca db) as [[cert sealed]|]; [|discriminate].
  destruct (open_sealed _ _) as [key|] eqn:O; [|discriminate]. intros [= <-]. simpl.
  split; [apply order_rows_perm|]. split; [apply order_rows_perm|]. exists sealed. split; [done|]. split; [done|].
  pose proof (with_positions_ordered 0 (map fst (agent_claims db))) as E. rewrite <- (ro_positions _ Hok) in E.
  by rewrite E, map_map.
Qed.

Lemma writeRegistry_ok s db u db' :
  writeRegistry s false db = (Ok u, db') ->
  db' = mkAgentDB (agent_ca db) (rs_Agents s) (rs_Tokens s) (with_positions 0 (rs_Claims s)) /\
  keyed same_agent (rs_Agents s) /\ keyed same_token (rs_Tokens s) /\
  keyed same_claim (with_positions 0 (rs_Claims s)) /\
  (forall row, In row (with_positions 0 (rs_Claims s)) -> epoch_fits row = true).
Proof.
  unfold writeRegistry. unfold tx_bind at 1, tx_get. unfold tx_bind at 1, tx_ret. rewrite lift_bind.
  destruct (insert_rows same_agent _ _ _) as [ags|] eqn:A; [|discriminate]. rewrite lift_bind.
  destruct (insert_rows same_token _ _ _) as [tks|] eqn:T; [|discriminate]. rewrite lift_bind.
  destruct (insert_rows same_claim _ _ _) as [cls|] eqn:C; [|discriminate].
  intros [= <- <-]. apply insert_rows_ok in A as (-> & ? & _). apply insert_rows_ok in T as (-> & ? & _).
  by apply insert_rows_ok in C as (-> & ? & ?).
Qed.

Lemma insert_rows_err {R} dup fits (rows table : list R) e :
  insert_rows dup fits rows table = Err e -> exists c, e = ErrRegistryDB c.
Proof.
  revert table. induction rows as [|r rows IH]; intros table; simpl; [discriminate|].
  destruct (existsb _ _); [intros [= <-]; eauto|]. destruct (negb _); [intros [= <-]; eauto|]. apply IH.
Qed.

Lemma writeRegistry_err s db e db' : writeRegistry s false db = (Err e, db') -> exists c, e = ErrRegistryDB c.
Proof.
  unfold writeRegistry. unfold tx_bind at 1, tx_get. unfold tx_bind at 1, tx_ret. rewrite lift_bind.
  destruct (insert_rows same_agent _ _ _) as [ags|] eqn:A; [|intros [= -> _]; by apply insert_rows_err in A].
  rewrite lift_bind.
  destruct (insert_rows same_token _ _ _) as [tks|] eqn:T; [|intros [= -> _]; by apply insert_rows_err in T].
  rewrite lift_bind.
  destruct (insert_rows same_claim _ _ _) as [cls|] eqn:C; [discriminate|intros [= -> _]; by apply insert_rows_err in C].
Qed.

Lemma writeRegistry_succeeds s db :
  keyed same_agent (rs_Agents s) -> keyed same_token (rs_Tokens s) ->
  keyed same_claim (with_positions 0 (rs_Claims s)) ->
  (forall row, In row (with_positions 0 (rs_Claims s)) -> epoch_fits row = true) ->
  writeRegistry s false db =
    (Ok tt, mkAgentDB (agent_ca db) (rs_Agents s) (rs_Tokens s) (with_positions 0 (rs_Claims s))).
Proof.
  intros Ha Ht Hc Hf. unfold writeRegistry. unfold tx_bind at 1, tx_get. unfold tx_bind at 1, tx_ret. rewrite lift_bind.
  rewrite insert_rows_succeeds by done. rewrite lift_bind, insert_rows_succeeds by done.
  by rewrite lift_bind, insert_rows_succeeds.
Qed.

Lemma registry_transact_ok {A} vs (fn : registryState -> result rerr (A * registryState)) db a db' :
  transact vs fn db = (Ok a, db') ->
  exists s s', loadRegistry db = Ok (Some s) /\ fn s = Ok (a, s') /\ writeRegistry s' false db = (Ok tt, db').
Proof.
  intros Ht%WithTx_ok. unfold tx_bind at 1, tx_get in Ht. rewrite lift_bind in Ht.
  destruct (loadRegistry db) as [[s|]|] eqn:L; [|discriminate..]. rewrite lift_bind in Ht.
  destruct (fn s) as [[a' s']|] eqn:F; [|discriminate]. unfold tx_bind in Ht. cbn [fst snd] in Ht.
  destruct (writeRegistry s' false db) as [[[]|] db1] eqn:W; [|discriminate]. injection Ht as <- <-.
  by exists s, s'.
Qed.

Lemma transact_runs {A} (fn : registryState -> result rerr (A * registryState)) db s a s' db' :
  loadRegistry db = Ok (Some s) -> fn s = Ok (a, s') -> writeRegistry s' false db = (Ok tt, db') ->
  transact [] fn db = (Ok a, db').
Proof.
  intros L F W. apply WithTx_commits. unfold tx_bind at 1, tx_get. rewrite lift_bind, L, lift_bind, F.
  unfold tx_bind. cbn [fst snd]. by rewrite W.
Qed.

(** Whatever is reported, the change was rolled back or committed. *)
Lemma registry_transact_cases {A} vs (fn : registryState -> result rerr (A * registryState)) db r db' :
  transact vs fn db = (r, db') ->
  db' = db \/ exists a s s', loadRegistry db = Ok (Some s) /\ fn s = Ok (a, s') /\ writeRegistry s' false db = (Ok tt, db').
Proof.
  intros [->|[a Ht]]%WithTx_cases; [by left|right]. exists a. apply (registry_transact_ok []). by apply WithTx_commits.
Qed.

(** The enrollments of a state belong to enrolled agents. *)
Definition enrolled (s : registryState) : Prop :=
  forall c e, In c (rs_Claims s) -> cr_Enrollment c = Some e -> In (en_AgentID e) (map ar_ID (rs_Agents s)).

Lemma load_enrolled db s : registry_ok db -> loadRegistry db = Ok (Some s) -> enrolled s.
Proof.
  intros Hok L. destruct (loadRegistry_Some _ _ Hok L) as (Ha & _ & _ & _ & _ & Hc).
  intros c e Hin He. rewrite Hc in Hin. apply in_map_iff in Hin as (c0 & <- & Hin). simpl in He.
  destruct (cr_Enrollment c0) as [e0|] eqn:E0; [|discriminate]. injection He as <-. simpl.
  pose proof (ro_enrolled _ Hok _ _ Hin E0) as Hid. apply list_elem_of_In. rewrite Ha.
  by apply list_elem_of_In.
Qed.

Lemma write_registry_ok s db db' :
  enrolled s -> agent_ca db <> None -> writeRegistry s false db = (Ok tt, db') -> registry_ok db'.
Proof.
  intros He Hca (-> & ? & ? & ? & ?)%writeRegistry_ok. split; simpl; [done..| | | |].
  - by rewrite with_positions_fst.
  - done.
  - rewrite with_positions_fst. done.
  - done.
Qed.

Lemma loaded_ca db s : loadRegistry db = Ok (Some s) -> agent_ca db <> None.
Proof. unfold loadRegistry. by destruct (agent_ca db). Qed.

(** ** Calls *)

Inductive reg_call :=
| ROpen (runs : list (list verdict * option (string * string))) (epoch : Z)
| RCreate (env : RegEnv) (name : string)
| REnroll (r : Registry) (env : RegEnv) (input : EnrollInput)
| RRenew (r : Registry) (env : RegEnv) (agentID csrPEM : string)
| RStart (env : RegEnv) (input : EnrollInput)
| RApprove (r : Registry) (env : RegEnv) (code : string)
| RRedeem (env : RegEnv) (claimID secret : string).

Definition reg_exec (c : reg_call) (db : AgentDB) : AgentDB :=
  match c with
  | ROpen runs epoch => snd (OpenRegistry runs epoch db)
  | RCreate env name => snd (CreateEnrollment env name db)
  | REnroll r env input => snd (Enroll r env input db)
  | RRenew r env agentID csrPEM => snd (Renew r env agentID csrPEM db)
  | RStart env input => snd (StartClaim env input db)
  | RApprove r env code => snd (ApproveClaim r env code db)
  | RRedeem env claimID secret => snd (RedeemClaim env claimID secret db)
  end.

Definition reg_run (cs : list reg_call) (db : AgentDB) : AgentDB := fold_left (fun db c => reg_exec c db) cs db.

(** What a committed call made of the state it loaded. *)
Definition state_step (c : reg_call) (s s' : registryState) : Prop :=
  match c with
  | ROpen _ _ => False
  | RCreate env name => exists code expires, random_hex env 0 = Ok code /\
      s' = with_tokens (fun ts => ts ++ [mkTokenRecord (digest code) expires (TrimSpace name)]) (pruneLocked (re_tx_now env) s)
  | REnroll r env input => exists csr e, enroll r env input csr s = Ok (e, s')
  | RRenew r env agentID _ => exists csr e, renew r env agentID csr s = Ok (e, s')
  | RStart env input => exists claim, random_hex env 0 = Ok (cr_ID claim) /\ cr_Enrollment claim = None /\
      s' = with_claims (fun cs => cs ++ [claim]) (pruneLocked (re_tx_now env) s)
  | RApprove r env code => exists a, approve r env code s = Ok (a, s')
  | RRedeem env claimID secret => exists e, redeem env claimID secret s = Ok (e, s')
  end.

Definition reg_stepped (c : reg_call) (db db' : AgentDB) : Prop :=
  exists s s', loadRegistry db = Ok (Some s) /\ state_step c s s' /\ writeRegistry s' false db = (Ok tt, db').

Lemma transact_stepped {A} c vs (fn : registryState -> result rerr (A * registryState)) db r db' :
  (forall s a s', fn s = Ok (a, s') -> state_step c s s') ->
  transact vs fn db = (r, db') -> db' = db \/ reg_stepped c db db'.
Proof.
  intros Hfn [->|(a & s & s' & L & F & W)]%registry_transact_cases; [by left|]. right. exists s, s'. eauto.
Qed.

Lemma Create_exec env name db : reg_exec (RCreate env name) db = db \/
  reg_stepped (RCreate env name) db (reg_exec (RCreate env name) db).
Proof.
  cbn [reg_exec]. unfold CreateEnrollment. cbv zeta. destruct (_ || _); [by left|]. rewrite lift_bind.
  destruct (random_hex env 0) as [code|] eqn:R; [|by left]. unfold tx_bind.
  destruct (transact _ _ db) as [o db1] eqn:T. apply (transact_stepped (RCreate env name)) in T.
  - by destruct o.
  - intros s a s' [= _ <-]. simpl. eauto.
Qed.

Lemma Enroll_exec r env input db : reg_exec (REnroll r env input) db = db \/
  reg_stepped (REnroll r env input) db (reg_exec (REnroll r env input) db).
Proof.
  cbn [reg_exec]. unfold Enroll. destruct (negb _); [by left|]. rewrite lift_bind.
  destruct (parseCSR _) as [csr|]; [|by left].
  destruct (transact _ _ db) as [o db1] eqn:T. apply (transact_stepped (REnroll r env input)) in T; [done|].
  intros s a s' E. simpl. eauto.
Qed.

Lemma Renew_exec r env agentID csrPEM db : reg_exec (RRenew r env agentID csrPEM) db = db \/
  reg_stepped (RRenew r env agentID csrPEM) db (reg_exec (RRenew r env agentID csrPEM) db).
Proof.
  cbn [reg_exec]. unfold Renew. rewrite lift_bind. destruct (parseCSR _) as [csr|]; [|by left].
  destruct (transact _ _ db) as [o db1] eqn:T. apply (transact_stepped (RRenew r env agentID csrPEM)) in T; [done|].
  intros s a s' E. simpl. eauto.
Qed.

Lemma Start_exec env input db : reg_exec (RStart env input) db = db \/
  reg_stepped (RStart env input) db (reg_exec (RStart env input) db).
Proof.
  cbn [reg_exec]. unfold StartClaim. destruct (negb _); [by left|]. rewrite lift_bind.
  destruct (parseCSR _); [|by left]. cbv zeta. destruct (bad_name _); [by left|]. rewrite lift_bind.
  destruct (random_hex env 0) as [id|] eqn:R; [|by left]. rewrite lift_bind.
  destruct (random_hex env 1); [|by left]. rewrite lift_bind. destruct (humanClaimCode _); [|by left].
  unfold tx_bind. destruct (transact _ _ db) as [o db1] eqn:T. apply (transact_stepped (RStart env input)) in T.
  - by destruct o.
  - intros s b s' [= _ <-]. simpl. eexists. split; [|split; [|reflexivity]]; done.
Qed.

Lemma Approve_exec r env code db : reg_exec (RApprove r env code) db = db \/
  reg_stepped (RApprove r env code) db (reg_exec (RApprove r env code) db).
Proof.
  cbn [reg_exec]. unfold ApproveClaim. destruct (transact _ _ db) as [o db1] eqn:T.
  apply (transact_stepped (RApprove r env code)) in T; [done|]. intros s a s' E. simpl. eauto.
Qed.

Lemma Redeem_exec env claimID secret db : reg_exec (RRedeem env claimID secret) db = db \/
  reg_stepped (RRedeem env claimID secret) db (reg_exec (RRedeem env claimID secret) db).
Proof.
  cbn [reg_exec]. unfold RedeemClaim. destruct (transact _ _ db) as [o db1] eqn:T.
  apply (transact_stepped (RRedeem env claimID secret)) in T.
  - by destruct o as [|[]].
  - intros s a s' E. simpl. eauto.
Qed.

(** Opening writes only the first time, and then an empty registry. *)
Lemma open_runs_exec runs db r db' :
  open_registry_runs runs db = (r, db') ->
  db' = db \/ (agent_ca db = None /\ agents_table db' = [] /\ agent_enrollment_tokens db' = [] /\ agent_claims db' = []).
Proof.
  revert db. induction runs as [|[vs generated] runs IH]; intros db; simpl; [intros [= _ <-]; by left|].
  destruct (WithTx vs _ db) as [r1 db1] eqn:W.
  assert (db1 = db \/ (agent_ca db = None /\ agents_table db1 = [] /\ agent_enrollment_tokens db1 = [] /\ agent_claims db1 = [])) as Hdb.
  { apply WithTx_cases in W as [->|[s W]]; [by left|]. unfold open_registry_tx in W. unfold tx_bind at 1, tx_get in W.
    rewrite lift_bind in W. unfold loadRegistry in W. destruct (agent_ca db) as [[cert sealed]|] eqn:C.
    + destruct (open_sealed _ _); [|discriminate]. injection W as _ <-. by left.
    + destruct generated as [[cert key]|]; [|discriminate]. right. split; [done|].
      unfold tx_bind at 1, writeRegistry in W. unfold tx_bind at 1, tx_get in W. rewrite C in W.
      by injection W as _ <-. }
  destruct r1 as [s|e]; [by intros [= _ <-]|]. destruct (IsDuplicate e) eqn:D; [|by intros [= _ <-]].
  apply WithTx_rolled_back in W as ->; [apply IH|by apply duplicate_not_lost].
Qed.

Lemma Open_exec runs epoch db :
  reg_exec (ROpen runs epoch) db = db \/
  (agent_ca db = None /\ agents_table (reg_exec (ROpen runs epoch) db) = [] /\
   agent_enrollment_tokens (reg_exec (ROpen runs epoch) db) = [] /\ agent_claims (reg_exec (ROpen runs epoch) db) = []).
Proof.
  cbn [reg_exec]. unfold OpenRegistry, tx_bind. destruct (open_registry_runs runs db) as [[s|e] db1] eqn:R;
    apply open_runs_exec in R; [|done]. by destruct (CA_parses _ _).
Qed.

Lemma reg_exec_cases c db :
  reg_exec c db = db \/ reg_stepped c db (reg_exec c db) \/
  (agent_ca db = None /\ agents_table (reg_exec c db) = [] /\ agent_enrollment_tokens (reg_exec c db) = [] /\
   agent_claims (reg_exec c db) = []).
Proof.
  destruct c as [runs e|env name|r env input|r env agentID csr|env input|r env code|env id secret].
  - destruct (Open_exec runs e db); auto.
  - destruct (Create_exec env name db); auto.
  - destruct (Enroll_exec r env input db); auto.
  - destruct (Renew_exec r env agentID csr db); auto.
  - destruct (Start_exec env input db); auto.
  - destruct (Approve_exec r env code db); auto.
  - destruct (Redeem_exec env id secret db); auto.
Qed.

(** ** What a call may change *)

(** The live grant that a call presents. *)
Definition grant (c : reg_call) (s : registryState) : Prop :=
  match c with
  | REnroll _ env input => exists t, In t (rs_Tokens s) /\ tr_Digest t = digest (TrimSpace (ei_Code input)) /\
      re_tx_now env < tr_ExpiresAt t
  | RApprove _ env code => exists cl, In cl (rs_Claims s) /\ cr_CodeDigest cl = digest (normalizeClaimCode code) /\
      re_tx_now env < cr_ExpiresAt cl /\ cr_Enrollment cl = None
  | _ => False
  end.

(** A call that hands out an enrollment code with this digest. *)
Definition creates (d : string) (c : reg_call) : Prop :=
  match c with RCreate env _ => exists code, random_hex env 0 = Ok code /\ digest code = d | _ => False end.

(** A call that starts a claim with this identifier. *)
Definition starts (id : string) (c : reg_call) : Prop :=
  match c with RStart env _ => random_hex env 0 = Ok id | _ => False end.

Record step_facts (c : reg_call) (s s' : registryState) : Prop := {
  sf_agents : exists new, map ar_ID (rs_Agents s') = map ar_ID (rs_Agents s) ++ new /\
    (new = [] \/ (exists id, new = [id]) /\ grant c s);
  sf_tokens : forall t, In t (rs_Tokens s') -> In t (rs_Tokens s) \/ creates (tr_Digest t) c;
  sf_claims : forall x, In x (rs_Claims s') -> (exists y, In y (rs_Claims s) /\ cr_ID y = cr_ID x) \/ starts (cr_ID x) c;
  sf_enrolled : enrolled s -> enrolled s' }.

Lemma prune_claims now s c : In c (rs_Claims (pruneLocked now s)) -> In c (rs_Claims s).
Proof. simpl. by intros [? _]%filter_In. Qed.

Lemma prune_tokens now s t : In t (rs_Tokens (pruneLocked now s)) -> In t (rs_Tokens s).
Proof. simpl. by intros [? _]%filter_In. Qed.

(** A state that keeps the agents and drops grants. *)
Lemma shrink_facts c s s' :
  map ar_ID (rs_Agents s') = map ar_ID (rs_Agents s) ->
  (forall t, In t (rs_Tokens s') -> In t (rs_Tokens s)) -> (forall x, In x (rs_Claims s') -> In x (rs_Claims s)) ->
  step_facts c s s'.
Proof.
  intros Ha Ht Hc. split; [exists []; rewrite app_nil_r; auto|auto|eauto|].
  intros He x e Hin Hx. rewrite Ha. eauto.
Qed.

Lemma enroll_ok r env input csr s e s' :
  enroll r env input csr s = Ok (e, s') ->
  grant (REnroll r env input) s /\ en_AuthorityEpoch e = authorityEpoch r /\
  (exists name, rs_Agents s' = rs_Agents s ++ [mkAgentRecord (en_AgentID e) name (en_ExpiresAt e)]) /\
  rs_Claims s' = rs_Claims (pruneLocked (re_tx_now env) s) /\
  exists before t after, rs_Tokens (pruneLocked (re_tx_now env) s) = before ++ t :: after /\
    rs_Tokens s' = before ++ after /\ tr_Digest t = digest (TrimSpace (ei_Code input)).
Proof.
  unfold enroll. cbv zeta. destruct (find_at _ _ _) as [[[before t] after]|] eqn:F; [|discriminate].
  destruct (bad_name _); [discriminate|]. destruct (random_hex env 0) as [id|]; [|discriminate].
  destruct (issueLocked _ _ _ _ _) as [[cert exp]|]; [|discriminate]. intros [= <- <-].
  apply find_at_Some in F as [E [Hd Hlive]%andb_true_iff]. apply String.eqb_eq in Hd. cbn [app] in E.
  split; [|split; [done|split; [by eexists|split; [done|by exists before, t, after]]]].
  exists t. split; [|split; [done|lia]]. apply (prune_tokens (re_tx_now env)). rewrite E.
  apply in_or_app. right. by left.
Qed.

Lemma renew_ok r env id csr s e s' :
  renew r env id csr s = Ok (e, s') ->
  map ar_ID (rs_Agents s') = map ar_ID (rs_Agents s) /\ In id (map ar_ID (rs_Agents s)) /\
  rs_Tokens s' = rs_Tokens s /\ rs_Claims s' = rs_Claims s.
Proof.
  unfold renew. destruct (find_at _ _ _) as [[[before a] after]|] eqn:F; [|discriminate].
  destruct (issueLocked _ _ _ _ _) as [[cert exp]|]; [|discriminate]. intros [= <- <-].
  apply find_at_Some in F as [E Hid%String.eqb_eq]. cbn [app] in E. rewrite E. simpl. rewrite !map_app. simpl.
  split; [done|]. split; [|done]. rewrite <- Hid. apply in_or_app. right. by left.
Qed.

Lemma approve_ok r env code s a s' :
  approve r env code s = Ok (a, s') ->
  exists before cl after, rs_Claims (pruneLocked (re_tx_now env) s) = before ++ cl :: after /\
    cr_CodeDigest cl = digest (normalizeClaimCode code) /\ re_tx_now env < cr_ExpiresAt cl /\
    rs_Tokens s' = rs_Tokens (pruneLocked (re_tx_now env) s) /\
    match cr_Enrollment cl with
    | Some e => s' = pruneLocked (re_tx_now env) s
    | None => exists e name, en_AuthorityEpoch e = authorityEpoch r /\ ca_AgentID a = en_AgentID e /\
        rs_Claims s' = before ++ set_enrollment e cl :: after /\
        rs_Agents s' = rs_Agents s ++ [mkAgentRecord (en_AgentID e) name (en_ExpiresAt e)]
    end.
Proof.
  unfold approve. cbv zeta. destruct (find_at _ _ _) as [[[before cl] after]|] eqn:F; [|discriminate].
  apply find_at_Some in F as [E [Hd Hlive]%andb_true_iff]. apply String.eqb_eq in Hd. cbn [app] in E.
  intros Ha. exists before, cl, after. split; [done|]. split; [done|]. split; [lia|].
  destruct (cr_Enrollment cl) as [e|]; [by injection Ha as _ <-|].
  destruct (parseCSR _) as [csr|]; [|discriminate]. destruct (random_hex env 0) as [id|]; [|discriminate].
  destruct (issueLocked _ _ _ _ _) as [[cert exp]|]; [|discriminate]. injection Ha as <- <-. simpl.
  split; [done|]. eexists (mkEnrollment _ _ _ _ _), _. simpl. done.
Qed.

Lemma redeem_ok env id secret s e s' :
  redeem env id secret s = Ok (e, s') ->
  exists before cl after, rs_Claims (pruneLocked (re_tx_now env) s) = before ++ cl :: after /\
    cr_ID cl = TrimSpace id /\ cr_SecretDigest cl = digest (TrimSpace secret) /\ cr_Enrollment cl = Some e /\
    rs_Claims s' = before ++ after /\ rs_Agents s' = rs_Agents s /\
    rs_Tokens s' = rs_Tokens (pruneLocked (re_tx_now env) s).
Proof.
  unfold redeem. cbv zeta. destruct (find_at _ _ _) as [[[before cl] after]|] eqn:F; [|discriminate].
  apply find_at_Some in F as [E [Hi Hs]%andb_true_iff]. apply String.eqb_eq in Hi, Hs. cbn [app] in E.
  destruct (cr_Enrollment cl) as [e0|] eqn:Ee; [|discriminate]. intros [= <- <-].
  by exists before, cl, after.
Qed.

Lemma create_facts env name s s' : state_step (RCreate env name) s s' -> step_facts (RCreate env name) s s'.
Proof.
  intros (code & exp & R & ->). split; simpl.
  - exists []. rewrite app_nil_r. auto.
  - intros t [Ht|[<-|[]]]%in_app_or; [left; by apply (prune_tokens (re_tx_now env))|right; eauto].
  - intros x Hx. left. exists x. split; [by apply (prune_claims (re_tx_now env))|done].
  - intros He x e Hx. apply He. by apply (prune_claims (re_tx_now env)).
Qed.

Lemma enroll_facts r env input s s' : state_step (REnroll r env input) s s' -> step_facts (REnroll r env input) s s'.
Proof.
  intros (csr & e & (Hg & _ & (name & Ha) & Hc & b & t & a & E & Ht & _)%enroll_ok). split.
  - exists [en_AgentID e]. rewrite Ha, map_app. split; [done|]. right. eauto.
  - intros x Hx. left. apply (prune_tokens (re_tx_now env)). rewrite E. rewrite Ht in Hx.
    apply in_app_or in Hx as [?|?]; apply in_or_app; simpl; auto.
  - intros x Hx. left. exists x. rewrite Hc in Hx. split; [by apply (prune_claims (re_tx_now env))|done].
  - intros He x e' Hx Hxe. rewrite Hc in Hx. apply prune_claims in Hx. rewrite Ha, map_app. apply in_or_app. left. eauto.
Qed.

Lemma start_facts env input s s' : state_step (RStart env input) s s' -> step_facts (RStart env input) s s'.
Proof.
  intros (claim & R & Hn & ->). split; simpl.
  - exists []. rewrite app_nil_r. auto.
  - intros t Ht. left. by apply (prune_tokens (re_tx_now env)).
  - intros x [Hx|[<-|[]]]%in_app_or; [left|by right]. exists x. split; [by apply (prune_claims (re_tx_now env))|done].
  - intros He x e [Hx|[<-|[]]]%in_app_or; [|congruence]. apply He. by apply (prune_claims (re_tx_now env)).
Qed.

Lemma approve_facts r env code s s' : state_step (RApprove r env code) s s' -> step_facts (RApprove r env code) s s'.
Proof.
  intros (a & (b & cl & af & E & Hd & Hl & Ht & Hcase)%approve_ok).
  assert (In cl (rs_Claims s)) as Hcl.
  { apply (prune_claims (re_tx_now env)). rewrite E. apply in_or_app. right. by left. }
  destruct (cr_Enrollment cl) as [e0|] eqn:Ee.
  { subst s'. apply shrink_facts; [done|intros t; apply prune_tokens|intros x; apply prune_claims]. }
  destruct Hcase as (e & name & _ & _ & Hc & Ha).
  assert (forall x, In x (rs_Claims s') -> In x (rs_Claims s) \/ x = set_enrollment e cl) as Hx.
  { intros x. rewrite Hc. intros Hin. assert (In x (b ++ cl :: af) \/ x = set_enrollment e cl) as [Hin'|]; [|left|by right].
    - apply in_app_or in Hin as [?|[?|?]]; [left|by right|left]; apply in_or_app; simpl; auto.
    - apply (prune_claims (re_tx_now env)). by rewrite E. }
  split.
  - exists [en_AgentID e]. rewrite Ha, map_app. split; [done|]. right. split; [eauto|]. exists cl. eauto.
  - intros t. rewrite Ht. intros Hin. left. by apply (prune_tokens (re_tx_now env)).
  - intros x Hin. left. destruct (Hx x Hin) as [?| ->]; eauto.
  - intros He x e' Hin Hxe. rewrite Ha, map_app. apply in_or_app.
    destruct (Hx x Hin) as [Hold| ->]; [left; eauto|right]. injection Hxe as <-. by left.
Qed.

Lemma redeem_facts env id secret s s' : state_step (RRedeem env id secret) s s' -> step_facts (RRedeem env id secret) s s'.
Proof.
  intros (e & (b & cl & af & E & _ & _ & _ & Hc & Ha & Ht)%redeem_ok). apply shrink_facts; [by rewrite Ha| |].
  - intros t. rewrite Ht. apply prune_tokens.
  - intros x. rewrite Hc. intros Hin. apply (prune_claims (re_tx_now env)). rewrite E.
    apply in_app_or in Hin as [?|?]; apply in_or_app; simpl; auto.
Qed.

Lemma state_step_facts c s s' : state_step c s s' -> step_facts c s s'.
Proof.
  destruct c as [runs e|env name|r env input|r env agentID csr|env input|r env code|env id secret].
  - done.
  - apply create_facts.
  - apply enroll_facts.
  - intros (csr' & e & (Ha & _ & Ht & Hc)%renew_ok). apply shrink_facts; [done|by rewrite Ht|by rewrite Hc].
  - apply start_facts.
  - apply approve_facts.
  - apply redeem_facts.
Qed.

(** The grant a call presents to the tables: its live token or claim. *)
Definition granted (c : reg_call) (db : AgentDB) : Prop :=
  match c with
  | REnroll _ env input => exists t, In t (agent_enrollment_tokens db) /\
      tr_Digest t = digest (TrimSpace (ei_Code input)) /\ re_tx_now env < tr_ExpiresAt t
  | RApprove _ env code => exists cl, In cl (map fst (agent_claims db)) /\
      cr_CodeDigest cl = digest (normalizeClaimCode code) /\ re_tx_now env < cr_ExpiresAt cl /\ cr_Enrollment cl = None
  | _ => False
  end.

Lemma loaded_claim db s x :
  registry_ok db -> loadRegistry db = Ok (Some s) -> In x (rs_Claims s) ->
  exists y, In y (map fst (agent_claims db)) /\ x = with_authority (rs_CACertPEM s) y.
Proof.
  intros Hok L Hx. destruct (loadRegistry_Some _ _ Hok L) as (_ & _ & _ & _ & _ & Hc). rewrite Hc in Hx.
  apply in_map_iff in Hx as (y & <- & Hy). eauto.
Qed.

Lemma loaded_token db s t :
  registry_ok db -> loadRegistry db = Ok (Some s) -> In t (rs_Tokens s) <-> In t (agent_enrollment_tokens db).
Proof.
  intros Hok L. destruct (loadRegistry_Some _ _ Hok L) as (_ & Ht & _).
  rewrite <- !list_elem_of_In. by rewrite Ht.
Qed.

Lemma loaded_grant c db s : registry_ok db -> loadRegistry db = Ok (Some s) -> grant c s -> granted c db.
Proof.
  intros Hok L. destruct c as [| |r env input| | |r env code|]; simpl; try done.
  - intros (t & Ht & ?). exists t. by rewrite <- (loaded_token db s).
  - intros (cl & Hcl & Hd & Hl & He). destruct (loaded_claim db s cl Hok L Hcl) as (y & Hy & ->). simpl in *.
    exists y. split; [done|]. split; [done|]. split; [done|]. by destruct (cr_Enrollment y).
Qed.

Record db_facts (c : reg_call) (db db' : AgentDB) : Prop := {
  df_ok : registry_ok db';
  df_agents : exists new, map ar_ID (agents_table db') ≡ₚ map ar_ID (agents_table db) ++ new /\
    (new = [] \/ (exists id, new = [id]) /\ granted c db);
  df_tokens : forall t, In t (agent_enrollment_tokens db') -> In t (agent_enrollment_tokens db) \/ creates (tr_Digest t) c;
  df_claims : forall x, In x (map fst (agent_claims db')) ->
    (exists y, In y (map fst (agent_claims db)) /\ cr_ID y = cr_ID x) \/ starts (cr_ID x) c }.

Lemma stepped_facts c db db' : registry_ok db -> reg_stepped c db db' -> db_facts c db db'.
Proof.
  intros Hok (s & s' & L & Hs & W). pose proof (state_step_facts _ _ _ Hs) as [Ha Ht Hc He].
  destruct (loadRegistry_Some _ _ Hok L) as (Hag & _).
  destruct (writeRegistry_ok _ _ _ _ W) as (Edb & _). split.
  - eapply write_registry_ok; [apply He; by eapply load_enrolled|by eapply loaded_ca|exact W].
  - destruct Ha as (new & En & Hn). exists new. subst db'. simpl. rewrite En, Hag. split; [done|].
    destruct Hn as [->|[? Hg]]; [by left|]. right. split; [done|]. by eapply loaded_grant.
  - subst db'. simpl. intros t Hin. destruct (Ht t Hin) as [Hin'|]; [left|by right]. by apply (loaded_token db s).
  - subst db'. simpl. rewrite with_positions_fst. intros x Hin. destruct (Hc x Hin) as [(y & Hy & E)|]; [left|by right].
    destruct (loaded_claim db s y Hok L Hy) as (z & Hz & ->). eauto.
Qed.

Lemma reg_exec_facts c db : registry_ok db -> db_facts c db (reg_exec c db).
Proof.
  intros Hok. destruct (reg_exec_cases c db) as [->|[Hs|(Hca & Ha & Ht & Hc)]].
  - split; [done|exists []; rewrite app_nil_r; auto|auto|eauto].
  - by apply stepped_facts.
  - split.
    + split; rewrite ?Ha, ?Ht, ?Hc; simpl; try constructor; done.
    + exists []. rewrite Ha, (ro_missing _ Hok Hca). auto.
    + rewrite Ht. done.
    + rewrite Hc. done.
Qed.

Lemma reg_run_ok cs db : registry_ok db -> registry_ok (reg_run cs db).
Proof.
  revert db. induction cs as [|c cs IH]; intros db Hok; [done|]. simpl. apply IH. by apply reg_exec_facts.
Qed.

(** A digest or claim that is gone stays gone unless it is handed out anew. *)
Lemma run_token_gone d cs db :
  registry_ok db -> (forall t, In t (agent_enrollment_tokens db) -> tr_Digest t <> d) ->
  Forall (fun c => ~ creates d c) cs ->
  forall t, In t (agent_enrollment_tokens (reg_run cs db)) -> tr_Digest t <> d.
Proof.
  intros Hok Hno Hcs. revert db Hok Hno. induction Hcs as [|c cs Hc _ IH]; intros db Hok Hno; [done|].
  simpl. pose proof (reg_exec_facts c db Hok) as Hf. apply IH; [apply Hf|].
  intros t Ht E. destruct (df_tokens _ _ _ Hf t Ht) as [Hin|Hcr]; [by eapply Hno|]. apply Hc. by rewrite <- E.
Qed.

Lemma run_claim_gone id cs db :
  registry_ok db -> (forall x, In x (map fst (agent_claims db)) -> cr_ID x <> id) ->
  Forall (fun c => ~ starts id c) cs ->
  forall x, In x (map fst (agent_claims (reg_run cs db))) -> cr_ID x <> id.
Proof.
  intros Hok Hno Hcs. revert db Hok Hno. induction Hcs as [|c cs Hc _ IH]; intros db Hok Hno; [done|].
  simpl. pose proof (reg_exec_facts c db Hok) as Hf. apply IH; [apply Hf|].
  intros x Hx E. destruct (df_claims _ _ _ Hf x Hx) as [(y & Hy & Ey)|Hst]; [apply (Hno y Hy); congruence|].
  apply Hc. by rewrite <- E.
Qed.

Lemma Enroll_ok r env input db e db' :
  Enroll r env input db = (Ok e, db') ->
  exists csr s s', loadRegistry db = Ok (Some s) /\ enroll r env input csr s = Ok (e, s') /\
    writeRegistry s' false db = (Ok tt, db').
Proof.
  unfold Enroll. destruct (negb _); [discriminate|]. rewrite lift_bind. destruct (parseCSR _) as [csr|]; [|discriminate].
  intros (s & s' & ?)%registry_transact_ok. eauto.
Qed.

Lemma Redeem_ok env id secret db e db' :
  RedeemClaim env id secret db = (Ok (Some e), db') ->
  exists s s', loadRegistry db = Ok (Some s) /\ redeem env id secret s = Ok (e, s') /\
    writeRegistry s' false db = (Ok tt, db').
Proof.
  unfold RedeemClaim. destruct (transact _ _ db) as [[e'|[]] db1] eqn:T; try discriminate.
  intros [= <- <-]. by apply registry_transact_ok in T.
Qed.

Lemma redeem_pending env id secret s :
  redeem env id secret s = Err errClaimPending -> exists cl, In cl (rs_Claims s) /\ cr_ID cl = TrimSpace id.
Proof.
  unfold redeem. cbv zeta. destruct (find_at _ _ _) as [[[before cl] after]|] eqn:F; [|discriminate].
  intros _. apply find_at_Some in F as [E [Hi _]%andb_true_iff]. apply String.eqb_eq in Hi. cbn [app] in E.
  exists cl. split; [|done]. apply (prune_claims (re_tx_now env)). rewrite E. apply in_or_app. right. by left.
Qed.

(** The pending answer can only come from the redemption itself. *)
Lemma transact_pending env id secret db db' :
  transact (re_verdicts env) (redeem env id secret) db = (Err errClaimPending, db') ->
  exists s, loadRegistry db = Ok (Some s) /\ exists cl, In cl (rs_Claims s) /\ cr_ID cl = TrimSpace id.
Proof.
  intros [(s1 & Hf)|[|[|[c ?]]]]%WithTx_err_origin; [|done..]. unfold tx_bind at 1, tx_get in Hf. rewrite lift_bind in Hf.
  destruct (loadRegistry db) as [[s|]|e] eqn:L.
  - rewrite lift_bind in Hf. exists s. split; [done|]. destruct (redeem env id secret s) as [[e s']|e] eqn:R.
    + exfalso. unfold tx_bind in Hf. cbn [fst snd] in Hf.
      destruct (writeRegistry s' false db) as [[[]|e1] db1] eqn:W; [discriminate|]. injection Hf as -> _.
      apply writeRegistry_err in W as [c Hc]. discriminate.
    + injection Hf as -> _. by apply redeem_pending in R.
  - discriminate.
  - exfalso. injection Hf as -> _. unfold loadRegistry in L. destruct (agent_ca db) as [[? ?]|]; [|discriminate].
    by destruct (open_sealed _ _).
Qed.

(** Claims as the database compares them, without their positions. *)
Definition same_grant (c d : claimRecord) : bool := same_claim (c, 0) (d, 0).

Lemma same_grant_sym c d : same_grant c d = same_grant d c.
Proof. apply same_claim_sym. Qed.

Lemma keyed_positions p cs : keyed same_grant cs -> keyed same_claim (with_positions p cs).
Proof.
  unfold keyed. intros Hk. revert p. induction Hk as [|c cs Hall _ IH]; intros p; simpl; constructor; [|apply IH].
  apply Forall_forall. intros row Hrow. rewrite Forall_forall in Hall. apply list_elem_of_In in Hrow.
  apply (in_map fst) in Hrow. rewrite with_positions_fst in Hrow. apply list_elem_of_In in Hrow.
  exact (Hall _ Hrow).
Qed.

Lemma load_claims_keyed db s :
  registry_ok db -> loadRegistry db = Ok (Some s) ->
  keyed same_grant (rs_Claims s) /\ (forall c, In c (rs_Claims s) -> epoch_fits (c, 0) = true).
Proof.
  intros Hok L. destruct (loadRegistry_Some _ _ Hok L) as (_ & _ & _ & _ & _ & ->). rewrite map_map. split.
  - apply (keyed_map same_claim); [done|apply Hok].
  - intros c Hc. apply in_map_iff in Hc as (row & <- & Hrow). pose proof (ro_fits _ Hok row Hrow) as Hf.
    unfold epoch_fits in *. simpl. destruct (cr_Enrollment (fst row)) as [e|]; [|done]. simpl. by rewrite int64_uint64.
Qed.

Lemma load_keyed db s :
  registry_ok db -> loadRegistry db = Ok (Some s) -> keyed same_agent (rs_Agents s) /\ keyed same_token (rs_Tokens s).
Proof.
  intros Hok L. destruct (loadRegistry_Some _ _ Hok L) as (Ha & Ht & _).
  split; (eapply keyed_perm; [|symmetry; eassumption|apply Hok]); [apply same_agent_sym|apply same_token_sym].
Qed.

Lemma write_runs s db :
  keyed same_agent (rs_Agents s) -> keyed same_token (rs_Tokens s) -> keyed same_grant (rs_Claims s) ->
  (forall c, In c (rs_Claims s) -> epoch_fits (c, 0) = true) ->
  writeRegistry s false db =
    (Ok tt, mkAgentDB (agent_ca db) (rs_Agents s) (rs_Tokens s) (with_positions 0 (rs_Claims s))).
Proof.
  intros Ha Ht Hc Hf. apply writeRegistry_succeeds; [done|done|by apply keyed_positions|].
  intros row Hrow. apply (in_map fst) in Hrow. rewrite with_positions_fst in Hrow. exact (Hf _ Hrow).
Qed.

(** In a keyed state the spent token was the only one with its digest. *)
Lemma enroll_spends r env input csr s e s' t :
  keyed same_token (rs_Tokens s) -> enroll r env input csr s = Ok (e, s') -> In t (rs_Tokens s') ->
  tr_Digest t <> digest (TrimSpace (ei_Code input)).
Proof.
  intros Hk (_ & _ & _ & _ & b & x & a & E & Hs' & Hx)%enroll_ok Hin Hd.
  assert (keyed same_token (b ++ x :: a)) as Hk' by (rewrite <- E; eapply keyed_sublist; [|exact Hk]; apply filter_sublist).
  apply (keyed_perm _ same_token_sym _ (x :: b ++ a)) in Hk'; [|by rewrite Permutation_middle].
  inversion Hk' as [|? ? Hall _]; subst. rewrite Forall_forall in Hall. rewrite Hs' in Hin.
  apply list_elem_of_In, Hall in Hin. unfold same_token in Hin. by rewrite Hd, Hx, ceq_refl in Hin.
Qed.

Lemma redeem_spends env id secret db s e s' x :
  registry_ok db -> loadRegistry db = Ok (Some s) -> redeem env id secret s = Ok (e, s') -> In x (rs_Claims s') ->
  cr_ID x <> TrimSpace id.
Proof.
  intros Hok L (b & cl & a & E & Hid & _ & _ & Hs' & _)%redeem_ok Hin Hx.
  assert (keyed same_grant (b ++ cl :: a)) as Hk2.
  { rewrite <- E. eapply keyed_sublist; [|exact (proj1 (load_claims_keyed _ _ Hok L))]. apply filter_sublist. }
  apply (keyed_perm _ same_grant_sym _ (cl :: b ++ a)) in Hk2; [|by rewrite Permutation_middle].
  inversion Hk2 as [|? ? Hall _]; subst. rewrite Forall_forall in Hall. rewrite Hs' in Hin.
  apply list_elem_of_In, Hall in Hin. unfold same_grant, same_claim in Hin. cbn [fst] in Hin. by rewrite Hid, Hx, ceq_refl in Hin.
Qed.

(** ** Theorems *)

(** C32. Identities come only from grants: whatever the controllers sharing the
    registry have done, a call keeps every enrolled identity, adds at most one,
    and adds one only as an enrollment that presented a live one-time code or
    as the first approval of a live claim; identities are pairwise distinct,
    and every approved claim waiting for its agent names an enrolled one. *)
Theorem identities_come_from_grants (cs : list reg_call) (c : reg_call) :
  let db := reg_run cs empty_registry in
  let db' := reg_exec c db in
  (exists new, map ar_ID (agents_table db') ≡ₚ map ar_ID (agents_table db) ++ new /\
     (new = [] \/ (exists id, new = [id]) /\ granted c db)) /\
  keyed same_agent (agents_table db') /\
  (forall cl e, In cl (map fst (agent_claims db')) -> cr_Enrollment cl = Some e ->
     In (en_AgentID e) (map ar_ID (agents_table db'))).
Proof.
  intros db db'. destruct (reg_exec_facts c db (reg_run_ok cs _ empty_registry_ok)) as [Hok Ha _ _].
  split; [exact Ha|]. split; apply Hok.
Qed.

(** An enrollment code is spent exactly once: an enrollment that succeeded
    presented a token that was in the table and had not expired, and was issued
    under the registry's epoch; after it, and after any further calls by any
    controller that do not hand out a code with the same digest, no enrollment
    with that code succeeds. *)
Theorem enrollment_code_spent_once (before after : list reg_call) (r r2 : Registry) (env env2 : RegEnv)
    (input input2 : EnrollInput) (e : Enrollment) (db' : AgentDB) :
  let db := reg_run before empty_registry in
  let d := digest (TrimSpace (ei_Code input)) in
  Enroll r env input db = (Ok e, db') ->
  Forall (fun c => ~ creates d c) after -> digest (TrimSpace (ei_Code input2)) = d ->
  (exists t, In t (agent_enrollment_tokens db) /\ tr_Digest t = d /\ re_tx_now env < tr_ExpiresAt t) /\
  en_AuthorityEpoch e = authorityEpoch r /\
  exists err, Enroll r2 env2 input2 (reg_run after db') = (Err err, reg_run after db').
Proof.
  intros db d HE Hafter Hd. pose proof (reg_run_ok before _ empty_registry_ok) as Hok. fold db in Hok.
  apply Enroll_ok in HE as (csr & s & s' & L & En & W). pose proof (enroll_ok _ _ _ _ _ _ _ En) as (Hg & Hep & _).
  split; [exact (loaded_grant (REnroll r env input) db s Hok L Hg)|]. split; [done|].
  assert (registry_ok db') as Hok'.
  { eapply stepped_facts; [exact Hok|]. exists s, s'. split; [done|]. split; [|done].
    exact (ex_intro _ csr (ex_intro _ e En) : state_step (REnroll r env input) s s'). }
  assert (keyed same_token (rs_Tokens s)) as Hk.
  { destruct (loadRegistry_Some _ _ Hok L) as (_ & Hp & _). eapply keyed_perm; [apply same_token_sym|by symmetry|apply Hok]. }
  assert (forall t, In t (agent_enrollment_tokens (reg_run after db')) -> tr_Digest t <> d) as Hgone.
  { apply run_token_gone; [done| |done]. apply writeRegistry_ok in W as (-> & _). simpl. intros t.
    by apply (enroll_spends _ _ _ _ _ _ _ _ Hk En). }
  assert (forall csr2 s2 s2' e2, loadRegistry (reg_run after db') = Ok (Some s2) -> enroll r2 env2 input2 csr2 s2 <> Ok (e2, s2')) as Hno.
  { intros csr2 s2 s2' e2 L2 En2. apply enroll_ok in En2 as ((t & Ht & Htd & _) & _). apply (Hgone t); [|by rewrite Htd].
    by apply (loaded_token _ s2); [apply reg_run_ok|..]. }
  destruct (Enroll r2 env2 input2 (reg_run after db')) as [[e2|err] db2] eqn:E2.
  - exfalso. apply Enroll_ok in E2 as (csr2 & s2 & s2' & L2 & En2 & _). by apply (Hno csr2 s2 s2' e2).
  - exists err. f_equal. unfold Enroll in E2. destruct (negb _); [by injection E2 as _ <-|].
    rewrite lift_bind in E2. destruct (parseCSR _) as [csr2|]; [|by injection E2 as _ <-].
    apply registry_transact_cases in E2 as [->|(e2 & s2 & s2' & L2 & En2 & _)]; [done|]. by destruct (Hno csr2 s2 s2' e2).
Qed.

(** An approved claim is redeemed exactly once and yields an enrolled identity:
    once [RedeemClaim] has returned an enrollment, the enrolled agents hold its
    identity, and no later redemption of that claim identifier, after any
    further calls that do not start a claim with the same identifier, returns
    anything but an error. *)
Theorem claim_redeemed_once (before after : list reg_call) (env env2 : RegEnv) (claimID secret secret2 : string)
    (e : Enrollment) (db' : AgentDB) :
  let db := reg_run before empty_registry in
  RedeemClaim env claimID secret db = (Ok (Some e), db') ->
  Forall (fun c => ~ starts (TrimSpace claimID) c) after ->
  In (en_AgentID e) (map ar_ID (agents_table db')) /\
  exists err, RedeemClaim env2 claimID secret2 (reg_run after db') = (Err err, reg_run after db').
Proof.
  intros db HR Hafter. pose proof (reg_run_ok before _ empty_registry_ok) as Hok. fold db in Hok.
  apply Redeem_ok in HR as (s & s' & L & Re & W).
  pose proof (redeem_ok _ _ _ _ _ _ Re) as (b & cl & a & E & _ & _ & He & _ & Ha & _).
  pose proof (load_enrolled _ _ Hok L) as Hen.
  assert (registry_ok db') as Hok'.
  { eapply stepped_facts; [exact Hok|]. exists s, s'. split; [done|]. split; [|done].
    exact (ex_intro _ e Re : state_step (RRedeem env claimID secret) s s'). }
  assert (forall x, In x (map fst (agent_claims (reg_run after db'))) -> cr_ID x <> TrimSpace claimID) as Hgone.
  { apply run_claim_gone; [done| |done]. apply writeRegistry_ok in W as (-> & _). simpl. rewrite with_positions_fst.
    intros x Hx. by apply (redeem_spends _ _ _ _ _ _ _ _ Hok L Re). }
  split.
  { apply writeRegistry_ok in W as (-> & _). simpl. rewrite Ha. eapply Hen; [|exact He].
    apply (prune_claims (re_tx_now env)). rewrite E. apply in_or_app. right. by left. }
  assert (forall s2 s2' e2, loadRegistry (reg_run after db') = Ok (Some s2) -> redeem env2 claimID secret2 s2 <> Ok (e2, s2')) as Hno.
  { intros s2 s2' e2 L2 Re2. apply redeem_ok in Re2 as (b2 & cl2 & a2 & E2 & Hid2 & _).
    assert (In cl2 (rs_Claims s2)) as Hin.
    { apply (prune_claims (re_tx_now env2)). rewrite E2. apply in_or_app. right. by left. }
    destruct (loaded_claim _ s2 cl2 (reg_run_ok _ _ Hok') L2 Hin) as (y & Hy & Ey).
    apply (Hgone y Hy). by rewrite <- Hid2, Ey. }
  unfold RedeemClaim. destruct (transact _ _ (reg_run after db')) as [[e2|err] db2] eqn:T.
  - exfalso. apply registry_transact_ok in T as (s2 & s2' & L2 & Re2 & _). by apply (Hno s2 s2' e2).
  - assert (err <> errClaimPending) as Hne.
    { intros ->. apply transact_pending in T as (s2 & L2 & cl2 & Hin & Hid).
      destruct (loaded_claim _ s2 cl2 (reg_run_ok _ _ Hok') L2 Hin) as (y & Hy & Ey).
      apply (Hgone y Hy). by rewrite <- Hid, Ey. }
    assert (db2 = reg_run after db') as ->.
    { apply registry_transact_cases in T as [->|(e2 & s2 & s2' & L2 & Re2 & _)]; [done|]. by destruct (Hno s2 s2' e2). }
    exists err. by destruct err.
Qed.

End Grants.
