(* ===== verification/AgentClaims.v ===== *)
(** * The standalone claim from start to identity

    An agent starts a claim, an operator types its code, the agent redeems it:
    the flow always succeeds within the lifetime of the claim.  The file ends
    with concrete runs of the registry. *)

From Stdlib Require Import ZArith Lia Bool Ascii String.
From stdpp Require Import base tactics list strings.
From S2P Require Import Prelude GoStrings Sqlstore Ledger AgentPull AgentRegistry AgentGrants.

Local Open Scope string_scope.
Local Open Scope list_scope.
Local Open Scope bool_scope.
Local Open Scope Z_scope.

Section Claims.
Context `{Collation} `{RegistryLib}.

(** The claim a ticket was issued for. *)
Definition claim_of (input : EnrollInput) (t : ClaimTicket) : claimRecord :=
  mkClaimRecord (ei_CSR input) (digest (normalizeClaimCode (ct_Code t))) None (ct_ExpiresAt t) (ct_ClaimID t)
    (TrimSpace (ei_NodeName input)) (digest (ct_ClaimSecret t)).

Lemma Start_ok env input db t db1 :
  StartClaim env input db = (Ok t, db1) ->
  random_hex env 0 = Ok (ct_ClaimID t) /\ random_hex env 1 = Ok (ct_ClaimSecret t) /\
  exists s, loadRegistry db = Ok (Some s) /\
    writeRegistry (with_claims (fun cs => cs ++ [claim_of input t]) (pruneLocked (re_tx_now env) s)) false db = (Ok tt, db1).
Proof.
  unfold StartClaim. destruct (negb _); [discriminate|]. rewrite lift_bind. destruct (parseCSR _); [|discriminate].
  cbv zeta. destruct (bad_name _); [discriminate|]. rewrite lift_bind.
  destruct (random_hex env 0) as [id|]; [|discriminate]. rewrite lift_bind.
  destruct (random_hex env 1) as [secret|]; [|discriminate]. rewrite lift_bind.
  destruct (humanClaimCode _) as [code|]; [|discriminate]. unfold tx_bind.
  destruct (transact _ _ db) as [[[]|] db2] eqn:T; [|discriminate]. intros [= <- <-].
  apply registry_transact_ok in T as (s & s' & L & [= <-] & W). by split; [|split; [|exists s]].
Qed.

(** The last claim of a state is found by its code and by its identifier. *)
Definition last_claim (s : registryState) (cl : claimRecord) : Prop :=
  exists cs, rs_Claims s = cs ++ [cl] /\ keyed same_grant (rs_Claims s).

Lemma keyed_last cs cl x : keyed same_grant (cs ++ [cl]) -> In x cs -> same_grant cl x = false.
Proof.
  unfold keyed. induction cs as [|y cs IH]; simpl; [done|]. intros Hk [->|Hin]; inversion Hk as [|? ? Hall Hk']; subst.
  - rewrite Forall_forall in Hall. apply Hall, list_elem_of_In, in_or_app. right. by left.
  - by apply IH.
Qed.

Lemma last_by_code cs cl x : keyed same_grant (cs ++ [cl]) -> In x cs -> (cr_CodeDigest x =? cr_CodeDigest cl)%string = false.
Proof.
  intros Hk Hin. pose proof (keyed_last _ _ _ Hk Hin) as Hd. apply orb_false_elim in Hd as [_ Hd]. simpl in Hd.
  apply String.eqb_neq. intros E. by rewrite E, ceq_refl in Hd.
Qed.

Lemma last_by_id cs cl x : keyed same_grant (cs ++ [cl]) -> In x cs -> (cr_ID x =? cr_ID cl)%string = false.
Proof.
  intros Hk Hin. pose proof (keyed_last _ _ _ Hk Hin) as Hd. apply orb_false_elim in Hd as [Hd _]. simpl in Hd.
  apply String.eqb_neq. intros E. by rewrite E, ceq_refl in Hd.
Qed.

Lemma prune_last now s cs cl :
  rs_Claims s = cs ++ [cl] -> now < cr_ExpiresAt cl ->
  rs_Claims (pruneLocked now s) = List.filter (fun c => now <? cr_ExpiresAt c) cs ++ [cl].
Proof.
  intros E Hl. simpl. rewrite E, List.filter_app. cbn [List.filter].
  by replace (now <? cr_ExpiresAt cl) with true by lia.
Qed.

Lemma sublist_snoc {A : Type} (l l' : list A) x : sublist l l' -> sublist (l ++ [x]) (l' ++ [x]).
Proof. intros Hs. by apply sublist_app. Qed.

Lemma approve_runs r env code s cs cl csr agentID cert exp :
  rs_Claims s = cs ++ [cl] -> keyed same_grant (rs_Claims s) -> cr_Enrollment cl = None ->
  cr_CodeDigest cl = digest (normalizeClaimCode code) -> re_tx_now env < cr_ExpiresAt cl ->
  parseCSR (cr_CSR cl) = Ok csr -> random_hex env 0 = Ok agentID ->
  issueLocked r env agentID (cr_Name cl) csr = Ok (cert, exp) ->
  approve r env code s = Ok (mkApproval agentID (cr_Name cl) exp,
    mkRegistryState (rs_Agents s ++ [mkAgentRecord agentID (cr_Name cl) exp]) (rs_CACertPEM s) (rs_CAKeyPEM s)
      (List.filter (fun c => re_tx_now env <? cr_ExpiresAt c) cs
       ++ [set_enrollment (mkEnrollment agentID (authorityEpoch r) (rs_CACertPEM s) cert exp) cl])
      (rs_Tokens (pruneLocked (re_tx_now env) s))).
Proof.
  intros Ecs Hk En Hd Hl Hcsr Hr Hi. unfold approve. cbv zeta. rewrite (prune_last _ _ _ _ Ecs Hl).
  rewrite Ecs in Hk. rewrite find_at_only.
  - rewrite En, Hcsr, Hr, Hi. done.
  - intros x [Hx _]%filter_In. rewrite <- Hd, (last_by_code _ _ _ Hk Hx). done.
  - rewrite Hd, String.eqb_refl. cbn [andb]. lia.
Qed.

Lemma redeem_runs env id secret s cs cl e :
  rs_Claims s = cs ++ [cl] -> keyed same_grant (rs_Claims s) -> cr_Enrollment cl = Some e ->
  cr_ID cl = TrimSpace id -> cr_SecretDigest cl = digest (TrimSpace secret) -> re_tx_now env < cr_ExpiresAt cl ->
  redeem env id secret s = Ok (e,
    mkRegistryState (rs_Agents s) (rs_CACertPEM s) (rs_CAKeyPEM s)
      (List.filter (fun c => re_tx_now env <? cr_ExpiresAt c) cs) (rs_Tokens (pruneLocked (re_tx_now env) s))).
Proof.
  intros Ecs Hk En Hid Hs Hl. unfold redeem. cbv zeta. rewrite (prune_last _ _ _ _ Ecs Hl).
  rewrite Ecs in Hk. rewrite find_at_only.
  - rewrite En. unfold with_claims. simpl. by rewrite app_nil_r.
  - intros x [Hx _]%filter_In. rewrite <- Hid, (last_by_id _ _ _ Hk Hx). done.
  - rewrite Hid, Hs, !String.eqb_refl. done.
Qed.

Lemma load_after s db s' :
  loadRegistry db = Ok (Some s) ->
  let db' := mkAgentDB (agent_ca db) (rs_Agents s') (rs_Tokens s') (with_positions 0 (rs_Claims s')) in
  exists s1, loadRegistry db' = Ok (Some s1) /\ rs_Claims s1 = map (with_authority (rs_CACertPEM s)) (rs_Claims s') /\
    rs_CACertPEM s1 = rs_CACertPEM s /\ rs_Agents s1 ≡ₚ rs_Agents s' /\ rs_Tokens s1 ≡ₚ rs_Tokens s'.
Proof.
  intros L db'. unfold db', loadRegistry in *. cbn [agent_ca agents_table agent_enrollment_tokens agent_claims].
  destruct (agent_ca db) as [[cert sealed]|]; [|discriminate]. destruct (open_sealed _ _) as [k|]; [|discriminate].
  injection L as <-. simpl. eexists. split; [reflexivity|]. simpl.
  rewrite with_positions_ordered. split; [by rewrite <- (map_map fst), with_positions_fst|].
  split; [done|]. split; apply order_rows_perm.
Qed.

Lemma hex_trim env n id :
  (forall k bs, re_random env k = Some bs -> Forall (fun b => 0 <= b < 256) bs) -> random_hex env n = Ok id -> TrimSpace id = id.
Proof.
  intros Hb. unfold random_hex. destruct (re_random env n) as [bs|] eqn:R; [|discriminate]. intros [= <-].
  apply TrimSpace_printable. apply forallb_forall. intros c Hc.
  pose proof (encode_is_hex bs (Hb _ _ R)) as Hh. rewrite forallb_forall in Hh. unfold EncodeToString in Hc. rewrite bytes_of_bytes in Hc. specialize (Hh c Hc).
  unfold is_hex, printable, between in *. lia.
Qed.

(** A claim as it is read back. *)
Lemma with_authority_grant cert c d : same_grant (with_authority cert c) (with_authority cert d) = same_grant c d.
Proof. done. Qed.

Lemma ApproveClaim_runs r env code db s cs cl csr agentID cert exp :
  registry_ok db -> loadRegistry db = Ok (Some s) -> re_verdicts env = [] ->
  rs_Claims s = cs ++ [cl] -> cr_Enrollment cl = None -> cr_CodeDigest cl = digest (normalizeClaimCode code) ->
  re_tx_now env < cr_ExpiresAt cl -> parseCSR (cr_CSR cl) = Ok csr -> random_hex env 0 = Ok agentID ->
  issueLocked r env agentID (cr_Name cl) csr = Ok (cert, exp) ->
  hasAgent true agentID db = false -> 0 <= authorityEpoch r < two63 ->
  let s' := mkRegistryState (rs_Agents s ++ [mkAgentRecord agentID (cr_Name cl) exp]) (rs_CACertPEM s) (rs_CAKeyPEM s)
      (List.filter (fun c => re_tx_now env <? cr_ExpiresAt c) cs
       ++ [set_enrollment (mkEnrollment agentID (authorityEpoch r) (rs_CACertPEM s) cert exp) cl])
      (rs_Tokens (pruneLocked (re_tx_now env) s)) in
  let db' := mkAgentDB (agent_ca db) (rs_Agents s') (rs_Tokens s') (with_positions 0 (rs_Claims s')) in
  ApproveClaim r env code db = (Ok (mkApproval agentID (cr_Name cl) exp), db') /\ registry_ok db'.
Proof.
  intros Hok L Hv Ecs En Hd Hl Hcsr Hr Hi Hfresh Hep s' db'.
  destruct (load_claims_keyed _ _ Hok L) as [Hk Hf]. destruct (load_keyed _ _ Hok L) as [Hka Hkt].
  pose proof (approve_runs r env code s cs cl csr agentID cert exp Ecs Hk En Hd Hl Hcsr Hr Hi) as Ha. fold s' in Ha.
  assert (writeRegistry s' false db = (Ok tt, db')) as W.
  { apply write_runs.
    - apply keyed_snoc; [done|]. intros y Hy. unfold same_agent. rewrite ceq_sym_eq. cbn [ar_ID].
      apply (sql_exists_false (fun a => ceq (ar_ID a) agentID) (agents_table db)); [exact Hfresh|].
      destruct (loadRegistry_Some _ _ Hok L) as (Hp & _). apply list_elem_of_In. rewrite <- Hp. by apply list_elem_of_In.
    - eapply keyed_sublist; [|exact Hkt]. apply filter_sublist.
    - cbn [rs_Claims s']. rewrite Ecs in Hk. 
      assert (keyed same_grant (List.filter (fun c => re_tx_now env <? cr_ExpiresAt c) cs ++ [cl])) as Hk2
        by (eapply keyed_sublist; [|exact Hk]; apply sublist_snoc, filter_sublist).
      apply keyed_snoc; [eapply keyed_sublist; [|exact Hk2]; apply sublist_inserts_r; reflexivity|].
      intros y Hy. exact (keyed_last _ _ _ Hk2 Hy).
    - cbn [rs_Claims s']. intros c [[Hc _]%filter_In|[<-|[]]]%in_app_or; [apply Hf; rewrite Ecs; apply in_or_app; by left|].
      unfold epoch_fits. simpl. rewrite int64_small by (unfold is_int64, two63 in *; lia). lia. }
  split; [unfold ApproveClaim; rewrite Hv; by eapply transact_runs|].
  eapply stepped_facts; [exact Hok|]. exists s, s'. split; [done|]. split; [|exact W].
  exact (ex_intro _ _ Ha : state_step (RApprove r env code) s s').
Qed.

Lemma RedeemClaim_runs env id secret db s cs cl e :
  registry_ok db -> loadRegistry db = Ok (Some s) -> re_verdicts env = [] ->
  rs_Claims s = cs ++ [cl] -> cr_Enrollment cl = Some e -> cr_ID cl = TrimSpace id ->
  cr_SecretDigest cl = digest (TrimSpace secret) -> re_tx_now env < cr_ExpiresAt cl ->
  exists db', RedeemClaim env id secret db = (Ok (Some e), db') /\ agents_table db' = rs_Agents s.
Proof.
  intros Hok L Hv Ecs En Hid Hs Hl.
  destruct (load_claims_keyed _ _ Hok L) as [Hk Hf]. destruct (load_keyed _ _ Hok L) as [Hka Hkt].
  pose proof (redeem_runs env id secret s cs cl e Ecs Hk En Hid Hs Hl) as Hr.
  set (s' := mkRegistryState _ _ _ _ _) in Hr.
  assert (writeRegistry s' false db = (Ok tt, mkAgentDB (agent_ca db) (rs_Agents s') (rs_Tokens s')
            (with_positions 0 (rs_Claims s')))) as W.
  { apply write_runs; [done| | |].
    - eapply keyed_sublist; [|exact Hkt]. apply filter_sublist.
    - eapply keyed_sublist; [|exact Hk]. rewrite Ecs. apply sublist_inserts_r, filter_sublist.
    - intros c [Hc _]%filter_In. apply Hf. rewrite Ecs. apply in_or_app. by left. }
  eexists. split; [|]. { unfold RedeemClaim. rewrite Hv. by rewrite (transact_runs _ _ _ _ _ _ L Hr W). }
  done.
Qed.

(** The standalone enrollment never gets stuck: once an agent has started a
    claim, an operator who types its code in any form with the same normal form,
    before it expires, approves it, given that a certificate can be issued for
    a fresh identity; the agent that then presents its ticket before it expires
    receives the enrollment with that certificate and the controller's epoch,
    and is recognised as enrolled. *)
Theorem claim_flow_enrolls (before : list reg_call) (env env2 env3 : RegEnv) (input : EnrollInput) (r : Registry)
    (typed : string) (t : ClaimTicket) (db1 : AgentDB) (csr : CertificateRequest) (agentID cert : string) (exp : Z) :
  StartClaim env input (reg_run before empty_registry) = (Ok t, db1) ->
  (forall k bs, re_random env k = Some bs -> Forall (fun b => 0 <= b < 256) bs) ->
  normalizeClaimCode typed = normalizeClaimCode (ct_Code t) ->
  re_tx_now env2 < ct_ExpiresAt t -> re_tx_now env3 < ct_ExpiresAt t ->
  re_verdicts env2 = [] -> re_verdicts env3 = [] ->
  parseCSR (ei_CSR input) = Ok csr -> random_hex env2 0 = Ok agentID -> hasAgent true agentID db1 = false ->
  issueLocked r env2 agentID (TrimSpace (ei_NodeName input)) csr = Ok (cert, exp) ->
  0 <= authorityEpoch r < two63 ->
  exists a db2 e db3,
    ApproveClaim r env2 typed db1 = (Ok a, db2) /\ ca_AgentID a = agentID /\
    RedeemClaim env3 (ct_ClaimID t) (ct_ClaimSecret t) db2 = (Ok (Some e), db3) /\
    en_AgentID e = agentID /\ en_Certificate e = cert /\ en_AuthorityEpoch e = authorityEpoch r /\
    hasAgent true agentID db3 = true.
Proof.
  intros HS Hb Htyped H2 H3 Hv2 Hv3 Hcsr Hr Hfresh Hi Hep.
  pose proof (reg_run_ok before _ empty_registry_ok) as Hok0.
  destruct (Start_ok _ _ _ _ _ HS) as (Hid & Hsec & s0 & L0 & W0).
  assert (registry_ok db1) as Hok1.
  { pose proof (reg_exec_facts (RStart env input) _ Hok0) as [Hk _ _ _]. simpl in Hk. by rewrite HS in Hk. }
  destruct (writeRegistry_ok _ _ _ _ W0) as (Edb1 & _).
  destruct (load_after s0 _ (with_claims (fun cs => cs ++ [claim_of input t]) (pruneLocked (re_tx_now env) s0)) L0)
    as (s1 & L1 & C1 & Ca1 & _). rewrite <- Edb1 in L1. cbn [with_claims rs_Claims] in C1. rewrite map_app in C1.
  cbn [map] in C1.
  destruct (ApproveClaim_runs r env2 typed db1 s1 _ _ csr agentID cert exp Hok1 L1 Hv2 C1 eq_refl) as [A Hok2];
    [by rewrite Htyped|done|done|done|done|done|done|].
  eexists _, _. cbv zeta in A, Hok2.
  match type of Hok2 with registry_ok (mkAgentDB _ (rs_Agents ?x) _ _) => set (s2 := x) in * end.
  match type of Hok2 with registry_ok ?d => set (db2 := d) in * end.
  destruct (load_after s1 db1 s2 L1) as (s3 & L3 & C3 & Ca3 & Hag & _). fold db2 in L3.
  cbn [s2 rs_Claims] in C3. rewrite map_app in C3. cbn [map] in C3.
  destruct (RedeemClaim_runs env3 (ct_ClaimID t) (ct_ClaimSecret t) db2 s3 _ _
    (mkEnrollment agentID (uint64_of (authorityEpoch r)) (rs_CACertPEM s1) cert exp) Hok2 L3 Hv3 C3) as (db3 & R & Ea).
  - done.
  - symmetry. by eapply hex_trim.
  - simpl. by rewrite (hex_trim env 1).
  - done.
  - eexists _, db3. split; [exact A|]. split; [done|]. split; [exact R|]. split; [done|]. split; [done|].
    split; [apply uint64_small; unfold is_uint64, two63, two64 in *; lia|].
    unfold hasAgent. rewrite Ea. cbn [andb]. apply sql_exists_true. exists (mkAgentRecord agentID (TrimSpace (ei_NodeName input)) exp).
    split; [|apply ceq_refl]. apply list_elem_of_In. rewrite Hag. apply list_elem_of_In. cbn [s2 rs_Agents].
    apply in_or_app. right. by left.
Qed.

End Claims.

(** ** Concrete runs *)

Definition upper (s : string) : string := of_bytes (map ascii_upper (bytes s)).

(** A library in which every request parses and the digest of a text is the
    text itself. *)
Definition demo_registry : RegistryLib :=
  {| pem_Decode v := Some (mkPem "CERTIFICATE REQUEST" v);
     ParseCertificateRequest b := Some (mkCSR true KeyP256 b);
     CreateCertificate serial id name validity ca key csr := Some ("certificate of " ++ id)%string;
     CA_parses _ _ := true; digest s := s; ToUpper := upper; ToUpper_ascii _ _ := eq_refl |}.

#[local] Existing Instance binary_collation.
#[local] Existing Instance demo_registry.

(** The environment of a call at second [n]. *)
Definition moment (n : Z) : RegEnv :=
  mkRegEnv (n * second) (n * second) (n * second) (fun k => Some (replicate 16 (n + 32 * Z.of_nat k))) (Some n) [].

Definition controller : Registry := mkRegistry 1 "ca" "key".
Definition open_call : reg_call := ROpen [([], Some ("ca", "key"))] 1.
Definition issued_code : string := EncodeToString (replicate 16 1).
Definition presents (code : string) : EnrollInput := mkEnroll "csr" code "web-1" 1.

Definition with_token : list reg_call := [open_call; RCreate (moment 1) "web-1"].

Lemma enrollment_code_spent_once_witness :
  exists e db', Enroll controller (moment 2) (presents issued_code) (reg_run with_token empty_registry) = (Ok e, db') /\
    en_AuthorityEpoch e = 1 /\
    exists err, Enroll controller (moment 4) (presents issued_code) (reg_run [RCreate (moment 3) "web-2"] db') =
                (Err err, reg_run [RCreate (moment 3) "web-2"] db').
Proof.
  destruct (Enroll controller (moment 2) (presents issued_code) (reg_run with_token empty_registry)) as [[e|] db'] eqn:E;
    [|exfalso; vm_compute in E; discriminate E].
  destruct (enrollment_code_spent_once with_token [RCreate (moment 3) "web-2"] controller controller (moment 2) (moment 4)
    (presents issued_code) (presents issued_code) e db' E) as (_ & He & Hno).
  - constructor; [|constructor]. intros (code & Hc & Hd). vm_compute in Hc. injection Hc as <-. vm_compute in Hd. discriminate Hd.
  - reflexivity.
  - exists e, db'. split; [reflexivity|]. split; [exact He|exact Hno].
Defined.

(** The operator types the code in lower case, with spaces for the hyphens. *)
Definition typed_code : string := " bbbb bbbb bbbb bbbb".

Definition start_moment : RegEnv :=
  mkRegEnv second second second (fun k => Some (replicate 16 (match k with O => 1 | S O => 33 | _ => 65 end))) (Some 1) [].

Definition started_claim : result rerr ClaimTicket * AgentDB :=
  StartClaim start_moment (presents "") (reg_run [open_call] empty_registry).

Lemma claim_flow_enrolls_witness :
  exists t db1 a db2 e db3, started_claim = (Ok t, db1) /\ ct_Code t = "BBBB-BBBB-BBBB-BBBB" /\
    ApproveClaim controller (moment 5) typed_code db1 = (Ok a, db2) /\
    RedeemClaim (moment 6) (ct_ClaimID t) (ct_ClaimSecret t) db2 = (Ok (Some e), db3) /\
    en_AgentID e = EncodeToString (replicate 16 5).
Proof.
  unfold started_claim.
  destruct (StartClaim start_moment (presents "") (reg_run [open_call] empty_registry)) as [[t|] db1] eqn:S;
    [|exfalso; vm_compute in S; discriminate S].
  assert (t = mkTicket (EncodeToString (replicate 16 1)) (EncodeToString (replicate 16 33)) "BBBB-BBBB-BBBB-BBBB"
            (901 * second)) as Et by (vm_compute in S; injection S as <- _; reflexivity).
  assert (hasAgent true (EncodeToString (replicate 16 5)) db1 = false) as Hf
    by (vm_compute in S; injection S as _ <-; vm_compute; reflexivity).
  destruct (claim_flow_enrolls [open_call] start_moment (moment 5) (moment 6) (presents "") controller typed_code t db1
    (mkCSR true KeyP256 "csr") (EncodeToString (replicate 16 5))
    ("certificate of " ++ EncodeToString (replicate 16 5))%string (2592005 * second) S)
    as (a & db2 & e & db3 & A & _ & R & He & _).
  - intros k bs [= <-]. destruct k as [|[|k]]; repeat constructor; lia.
  - rewrite Et. vm_compute. reflexivity.
  - rewrite Et. reflexivity.
  - rewrite Et. reflexivity.
  - reflexivity.
  - reflexivity.
  - reflexivity.
  - reflexivity.
  - exact Hf.
  - vm_compute. reflexivity.
  - vm_compute. split; [discriminate|reflexivity].
  - exists t, db1, a, db2, e, db3. split; [reflexivity|]. split; [rewrite Et; reflexivity|]. split; [exact A|].
    split; [exact R|exact He].
Defined.

Definition approved : list reg_call :=
  [open_call; RStart start_moment (presents ""); RApprove controller (moment 5) typed_code].

Lemma claim_redeemed_once_witness :
  exists e db', RedeemClaim (moment 6) (EncodeToString (replicate 16 1)) (EncodeToString (replicate 16 33))
      (reg_run approved empty_registry) = (Ok (Some e), db') /\
    In (en_AgentID e) (map ar_ID (agents_table db')) /\
    exists err, RedeemClaim (moment 7) (EncodeToString (replicate 16 1)) (EncodeToString (replicate 16 33))
      (reg_run [RStart (moment 7) (presents "")] db') = (Err err, reg_run [RStart (moment 7) (presents "")] db').
Proof.
  destruct (RedeemClaim (moment 6) (EncodeToString (replicate 16 1)) (EncodeToString (replicate 16 33))
      (reg_run approved empty_registry)) as [[[e|]|] db'] eqn:R; [|exfalso; vm_compute in R; discriminate R..].
  destruct (claim_redeemed_once approved [RStart (moment 7) (presents "")] (moment 6) (moment 7)
    (EncodeToString (replicate 16 1)) (EncodeToString (replicate 16 33)) (EncodeToString (replicate 16 33)) e db' R)
    as [Hin Hno].
  - constructor; [|constructor]. intros Hs. vm_compute in Hs. discriminate Hs.
  - exists e, db'. split; [reflexivity|]. split; [exact Hin|exact Hno].
Defined.
