(* ===== verification/Promotion.v ===== *)
(** * api/http/core.go: promoting a standby

    [corePromote] joins the three components that carry the authority epoch:
    it fences the command ledger, promotes this core in the topology, and hands
    the new epoch to the agent broker and the agent registry.  The ledger and
    the topology are shared with the other cores; broker and registry belong to
    this process.  The handler holds no lock across its steps: between any two of
    them the rest of the system runs, as a list of calls to the four components,
    and each step can fail with the earlier ones done. *)

From Stdlib Require Import ZArith Lia Bool Ascii String.
From stdpp Require Import base tactics list strings gmap.
From S2P Require Import Prelude GoStrings Sqlstore Diagnostics Ledger LedgerRows LedgerOps LedgerSteps LedgerFacts CoreTopology CoreAuthority CoreTheorems AgentPull AgentDelivery AgentRegistry.

Local Open Scope string_scope.
Local Open Scope list_scope.
Local Open Scope bool_scope.
Local Open Scope Z_scope.

(** One core process and the database it shares. *)
Record Control := mkControl {
  ledger : Store; topology : CoreDB; agentBroker : Broker; agentRegistry : Registry }.

Definition with_ledger (l : Store) (c : Control) : Control := mkControl l (topology c) (agentBroker c) (agentRegistry c).
Definition with_topology (t : CoreDB) (c : Control) : Control := mkControl (ledger c) t (agentBroker c) (agentRegistry c).
Definition with_broker (f : Broker -> Broker) (c : Control) : Control :=
  mkControl (ledger c) (topology c) (f (agentBroker c)) (agentRegistry c).
Definition with_registry (f : Registry -> Registry) (c : Control) : Control :=
  mkControl (ledger c) (topology c) (agentBroker c) (f (agentRegistry c)).

Record PromoteInput := mkPromote { Confirmation : string; PrimaryConfirmedStopped : bool }.

(** What other requests and the other cores do meanwhile. *)
Inductive other_call :=
| OLedger (historyLimit : Z) (c : call)
| OCore (c : core_call)
| OBroker (c : broker_call)
| ORegistryEpoch (e : Z).

(** What the handler meets: the identity it was configured with, the last
    topology it read, how its reads and writes of the database go, and what
    happens before each of its six steps. *)
Record PromoteEnv := mkPromoteEnv {
  pe_CoreID : string; pe_config : Config; pe_cached : stateFile; pe_status_readable : bool;
  pe_epoch_readable : bool; pe_fence : Env; pe_verdicts : list verdict;
  pe_before_status : list other_call; pe_before_epoch : list other_call; pe_before_fence : list other_call;
  pe_before_promote : list other_call; pe_before_broker : list other_call; pe_before_registry : list other_call }.

Inductive promote_error := ErrConfirmation | ErrPrimaryNotStopped | ErrFence (e : qerr) | ErrPromote (e : terr).

Section Promotion.
Context `{NetLib} `{Collation} `{Platform} `{UriLib}.

Definition other_exec (o : other_call) (c : Control) : Control :=
  match o with
  | OLedger limit l => with_ledger (exec limit l (ledger c)) c
  | OCore t => with_topology (core_exec t (topology c)) c
  | OBroker b => with_broker (fun br => fst (broker_exec b (br, []))) c
  | ORegistryEpoch e => with_registry (SetRegistryEpoch e) c
  end.

Definition others (os : list other_call) (c : Control) : Control := fold_left (fun c o => other_exec o c) os c.

(** A planned handoff: fenced, and for this core. *)
Definition planned (env : PromoteEnv) (db : CoreDB) : bool :=
  match top_Handoff (Status (pe_status_readable env) (pe_config env) (pe_cached env) db) with
  | Some h => (HandoffState h =? "fenced")%string && (ToID h =? pe_CoreID env)%string
  | None => false
  end.

Definition nextEpoch (env : PromoteEnv) (db : CoreDB) : Z :=
  uint64_of (CoreTopology.AuthorityEpoch (pe_epoch_readable env) (pe_cached env) db + 1).

Definition corePromote (env : PromoteEnv) (input : PromoteInput) (c : Control)
    : result promote_error CoreTopology * Control :=
  if negb (Confirmation input =? "PROMOTE_CORE:" ++ pe_CoreID env)%string then (Err ErrConfirmation, c)
  else
    let c := others (pe_before_status env) c in
    let planned := planned env (topology c) in
    if negb planned && negb (PrimaryConfirmedStopped input) then (Err ErrPrimaryNotStopped, c)
    else
      let c := others (pe_before_epoch env) c in
      let nextEpoch := nextEpoch env (topology c) in
      let c := others (pe_before_fence env) c in
      match FenceAuthority (pe_fence env) nextEpoch (ledger c) with
      | (Err e, l) => (Err (ErrFence e), with_ledger l c)
      | (Ok _, l) =>
          let c := others (pe_before_promote env) (with_ledger l c) in
          match PromoteLocal (pe_verdicts env) (pe_config env) (negb planned) (topology c) with
          | (Err e, t) => (Err (ErrPromote e), with_topology t c)
          | (Ok top, t) =>
              let c := others (pe_before_broker env) (with_topology t c) in
              let c := with_broker (SetAuthorityEpoch (top_Epoch top)) c in
              let c := others (pe_before_registry env) c in
              (Ok top, with_registry (SetRegistryEpoch (top_Epoch top)) c)
          end
      end.

(** ** Lemmas *)














End Promotion.

(** ** Concrete runs *)

#[local] Existing Instance binary_collation.

Definition one_url : NetLib :=
  {| url_Parse v := Some (mkURL "https" "core.example" "core.example" "" false "" "" "");
     LookupPort_ok _ := true; ParseAddr_loopback _ := false |}.

#[local] Existing Instance one_url.

Definition plain_platform : Platform.
Proof.
  refine {| sha256_hex p := of_bytes (repeat (chr 48) 64); json_Valid p := negb (p =? "")%string |}; [|done].
  intros p. by rewrite <- length_bytes, bytes_of_bytes.
Defined.

#[local] Existing Instance plain_platform.

Definition no_uris : UriLib := {| ParseRequestURI := fun _ => None; NewRequest_ok := fun _ _ => false |}.

#[local] Existing Instance no_uris.

Definition first_core : Config := mkConfig "" "core-a" "active" "first".
Definition second_core : Config := mkConfig "" "core-b" "standby" "second".

Definition two_cores : CoreDB := core_run [COpen [[]] first_core; COpen [[]] second_core] empty_core.

Definition two_cores_state : stateFile :=
  match loadState two_cores with Some s => s | None => mkState "" 0 None [] 0 end.

(** A queued command of epoch one. *)
Definition queued_row : commandRow :=
  mkRow 1 false (mkCommand "service.deploy" "alice" 0 1 true "" 0 "" "" "cmd-1" None "" None 3 None "" "req" "" "web-1"
    Queued "api" 0) "k1" "" "".

Definition shared : Control :=
  mkControl (with_commands (fun _ => [queued_row]) empty_store) two_cores (NewBroker 1) (mkRegistry 1 "ca" "key").

Definition promote_env (config : Config) : PromoteEnv :=
  mkPromoteEnv (cfg_ID config) config two_cores_state true true (mkEnv second [] (fun _ => false) None) [] [] [] [] [] [] [].

Definition emergency (config : Config) : PromoteInput := mkPromote ("PROMOTE_CORE:" ++ cfg_ID config) true.



(** A promotion is refused by the topology only after the ledger was fenced: on
    the core that already is active, the request answers with an error and its
    own queued work has been parked for attention. *)
Theorem refused_promotion_parks_work :
  exists e c', corePromote (promote_env first_core) (emergency first_core) shared = (Err (ErrPromote e), c') /\
    CanManage true first_core (topology c') = true /\
    map row_state (commands (ledger shared)) = [Queued] /\
    map row_state (commands (ledger c')) = [NeedsAttention].
Proof. vm_compute. do 2 eexists. repeat split; reflexivity. Qed.

(** When this core cannot read the topology for a moment, it fences with the
    epoch it read last: the promotion that follows opens a later epoch, and work
    accepted in between is not fenced. *)
Theorem stale_epoch_leaves_work_unfenced :
  let later := core_run [CPromoteLocal [] second_core true; CPromoteLocal [] first_core true] two_cores in
  let queued_later := mkRow 2 false (set_epoch 3 (command queued_row)) "k2" "" "" in
  let c := mkControl (with_commands (fun _ => [queued_later]) empty_store) later (NewBroker 1) (mkRegistry 1 "ca" "key") in
  let env := mkPromoteEnv "core-b" second_core two_cores_state true false (mkEnv second [] (fun _ => false) None) [] [] [] [] [] [] [] in
  exists top c', corePromote env (emergency second_core) c = (Ok top, c') /\ top_Epoch top = 4 /\
    map (fun r => (Ledger.AuthorityEpoch (command r), row_state r)) (commands (ledger c')) = [(3, Queued)].
Proof. vm_compute. do 2 eexists. repeat split; reflexivity. Qed.

(** Work that comes in between the fence and the promotion is not fenced: a
    command the old primary accepts there stays queued under the old epoch. *)
Definition late_submission : other_call :=
  OLedger 100 (CSubmit (mkEnv second [] (fun _ => false) (Some (repeat 7 16))) (mkEnv second [] (fun _ => false) None)
    (mkInput "service.deploy" "alice" 1 true "" "k9" 1000 3 "{}" "req-9" "web-9" "api")).

Theorem submission_between_fence_and_promotion :
  let env := mkPromoteEnv "core-b" second_core two_cores_state true true (mkEnv second [] (fun _ => false) None) []
               [] [] [] [late_submission] [] [] in
  exists top c', corePromote env (emergency second_core) shared = (Ok top, c') /\ top_Epoch top = 2 /\
    map (fun r => (Ledger.AuthorityEpoch (command r), row_state r)) (commands (ledger c')) = [(1, NeedsAttention); (1, Queued)].
Proof. vm_compute. do 2 eexists. repeat split; reflexivity. Qed.
