(* ===== verification/GoTime.v ===== *)
(** * The calendar of Go's [time] package

    The UTC calendar functions the commerce layer uses: [Year], [Month], [Day],
    [time.Date] and [AddDate] with their normalisation of months and days, and
    the layouts of [Format].  An instant is nanoseconds since the Unix epoch; a
    month is counted as [12 * year + month - 1]. *)

From Stdlib Require Import ZArith Lia Bool Ascii String.
From stdpp Require Import base tactics list strings.
From S2P Require Import Prelude GoStrings.

Local Open Scope Z_scope.

(** ** Days and months *)

Definition leap (y : Z) : bool := (y mod 4 =? 0) && (negb (y mod 100 =? 0) || (y mod 400 =? 0)).

(** Days from 0001-01-01 to the first day of a year of the proleptic Gregorian
    calendar, and from there to 1970-01-01. *)
Definition days_before_year (y : Z) : Z := 365 * (y - 1) + (y - 1) / 4 - (y - 1) / 100 + (y - 1) / 400.
Definition unix_days : Z := 719162.

(** Days before the month [m] (0 to 11) of a year. *)
Definition days_before_month (leap : bool) (m : Z) : Z :=
  let d := if leap then 1 else 0 in
  if m <? 1 then 0 else if m <? 2 then 31 else if m <? 3 then 59 + d else if m <? 4 then 90 + d
  else if m <? 5 then 120 + d else if m <? 6 then 151 + d else if m <? 7 then 181 + d else if m <? 8 then 212 + d
  else if m <? 9 then 243 + d else if m <? 10 then 273 + d else if m <? 11 then 304 + d else 334 + d.

(** The Unix day on which month [k] starts. *)
Definition month_first (k : Z) : Z :=
  days_before_year (k / 12) + days_before_month (leap (k / 12)) (k mod 12) - unix_days.

(** The year of a day counted from 0001-01-01: an estimate, corrected. *)
Definition year_of (n : Z) : Z :=
  let y := n * 400 / 146097 + 1 in
  if n <? days_before_year y then y - 1 else if days_before_year (y + 1) <=? n then y + 1 else y.

Definition month_of_yday (leap : bool) (n : Z) : Z :=
  let before m := n <? days_before_month leap m in
  if before 1 then 0 else if before 2 then 1 else if before 3 then 2 else if before 4 then 3
  else if before 5 then 4 else if before 6 then 5 else if before 7 then 6 else if before 8 then 7
  else if before 9 then 8 else if before 10 then 9 else if before 11 then 10 else 11.

(** The month a Unix day belongs to. *)
Definition month_of (z : Z) : Z :=
  let n := z + unix_days in
  let y := year_of n in
  12 * y + month_of_yday (leap y) (n - days_before_year y).

(** ** The functions of the package *)

Definition day_of (t : Z) : Z := t / day.

Definition Year (t : Z) : Z := month_of (day_of t) / 12.
Definition Month (t : Z) : Z := month_of (day_of t) mod 12 + 1.
Definition Day (t : Z) : Z := day_of t - month_first (month_of (day_of t)) + 1.

(** [time.Date(year, month, d, 0, 0, 0, 0, time.UTC)]: months and days outside
    their ranges carry over. *)
Definition Date (year month d : Z) : Z := (month_first (12 * year + (month - 1)) + (d - 1)) * day.

Definition AddDate (t years months days : Z) : Z :=
  Date (Year t + years) (Month t + months) (Day t + days) + t mod day.

(** [time.Date(t.Year(), t.Month(), 1, ...)]. *)
Definition month_start (t : Z) : Z := Date (Year t) (Month t) 1.

(** ** Layouts *)

Fixpoint pad (width : nat) (n : Z) (acc : string) : string :=
  match width with
  | O => acc
  | S w => pad w (n / 10) (String (chr (48 + n mod 10)) acc)
  end.

(** [%0<width>d] of a number that is not negative. *)
Definition zero_padded (width : nat) (n : Z) : string :=
  if n <? 10 ^ Z.of_nat width then pad width n "" else decimal n.

Definition Hour (t : Z) : Z := (t mod day) / hour.

Local Open Scope string_scope.

Definition format_200601 (t : Z) : string := zero_padded 4 (Year t) ++ pad 2 (Month t) "".
Definition format_2006010215 (t : Z) : string := format_200601 t ++ pad 2 (Day t) "" ++ pad 2 (Hour t) "".
Definition format_hour (t : Z) : string :=
  zero_padded 4 (Year t) ++ "-" ++ pad 2 (Month t) "" ++ "-" ++ pad 2 (Day t) "" ++ " " ++ pad 2 (Hour t) "" ++ ":00".

Definition month_names : list string :=
  ["January"; "February"; "March"; "April"; "May"; "June"; "July"; "August"; "September"; "October"; "November";
   "December"]%list.
Definition format_January_2006 (t : Z) : string :=
  nth (Z.to_nat (Month t - 1)) month_names "" ++ " " ++ zero_padded 4 (Year t).

Local Close Scope string_scope.

(** ** Lemmas *)

Lemma year_bounds n : days_before_year (year_of n) <= n < days_before_year (year_of n + 1).
Proof.
  unfold year_of. cbv zeta. set (y := n * 400 / 146097 + 1).
  assert (days_before_year (y - 1) <= n < days_before_year (y + 2)) as Hy.
  { unfold days_before_year, y. Z.to_euclidean_division_equations. lia. }
  destruct (n <? days_before_year y) eqn:E1; [replace (y - 1 + 1) with y by lia; lia|].
  destruct (days_before_year (y + 1) <=? n) eqn:E2; [replace (y + 1 + 1) with (y + 2) by lia; lia|lia].
Qed.

Lemma leap_cases y :
  days_before_year (y + 1) = days_before_year y + (if leap y then 366 else 365).
Proof.
  unfold days_before_year, leap. replace (y + 1 - 1) with y by lia.
  destruct (y mod 4 =? 0) eqn:A, (y mod 100 =? 0) eqn:B, (y mod 400 =? 0) eqn:C; cbn [andb orb negb];
    Z.to_euclidean_division_equations; lia.
Qed.

Lemma month_of_yday_bounds (l : bool) n :
  0 <= n < (if l then 366 else 365) ->
  0 <= month_of_yday l n < 12 /\ days_before_month l (month_of_yday l n) <= n /\
  (month_of_yday l n < 11 -> n < days_before_month l (month_of_yday l n + 1)).
Proof.
  intros Hn. unfold month_of_yday. cbv zeta. destruct l.
  all: repeat match goal with
    | |- context [Z.ltb ?x ?e] =>
        let v := eval vm_compute in e in change e with v; destruct (Z.ltb_spec x v)
    end.
  all: match goal with |- context [days_before_month ?l ?m <= _] =>
         let v := eval vm_compute in (days_before_month l m) in
         let w := eval vm_compute in (days_before_month l (m + 1)) in
         change (days_before_month l m) with v; change (days_before_month l (m + 1)) with w
       end; split_and!; lia.
Qed.

Lemma month_first_next k :
  month_first (k + 1) - month_first k =
    (if k mod 12 =? 11 then (if leap (k / 12) then 366 else 365) - days_before_month (leap (k / 12)) 11
     else days_before_month (leap (k / 12)) (k mod 12 + 1) - days_before_month (leap (k / 12)) (k mod 12)).
Proof.
  unfold month_first. pose proof (Z.mod_pos_bound k 12 ltac:(lia)) as Hm. pose proof (Z.div_mod k 12 ltac:(lia)) as Hk.
  destruct (k mod 12 =? 11) eqn:E.
  - assert ((k + 1) / 12 = k / 12 + 1 /\ (k + 1) mod 12 = 0) as [-> ->] by (Z.to_euclidean_division_equations; lia).
    rewrite leap_cases. replace (k mod 12) with 11 by lia.
    change (days_before_month (leap (k / 12 + 1)) 0) with 0. lia.
  - assert ((k + 1) / 12 = k / 12 /\ (k + 1) mod 12 = k mod 12 + 1) as [-> ->] by (Z.to_euclidean_division_equations; lia).
    lia.
Qed.

(** A month has between 28 and 31 days. *)
Lemma month_length k : 28 <= month_first (k + 1) - month_first k <= 31.
Proof.
  pose proof (month_first_next k) as E. pose proof (Z.mod_pos_bound k 12 ltac:(lia)) as Hm.
  revert E. generalize (month_first (k + 1) - month_first k) as d. intros d E.
  assert (k mod 12 = 0 \/ k mod 12 = 1 \/ k mod 12 = 2 \/ k mod 12 = 3 \/ k mod 12 = 4 \/ k mod 12 = 5 \/
          k mod 12 = 6 \/ k mod 12 = 7 \/ k mod 12 = 8 \/ k mod 12 = 9 \/ k mod 12 = 10 \/ k mod 12 = 11) as Hc by lia.
  destruct (leap (k / 12)), Hc as [Hc|[Hc|[Hc|[Hc|[Hc|[Hc|[Hc|[Hc|[Hc|[Hc|[Hc|Hc]]]]]]]]]]];
    rewrite Hc in E; vm_compute in E; lia.
Qed.

Lemma month_first_mono j k : j < k -> month_first j < month_first k.
Proof.
  intros Hjk. replace k with (j + Z.of_nat (S (Z.to_nat (k - j - 1)))) by lia.
  generalize (Z.to_nat (k - j - 1)) as n. induction n as [|n IH].
  - change (Z.of_nat 1) with 1. pose proof (month_length j). lia.
  - replace (j + Z.of_nat (S (S n))) with (j + Z.of_nat (S n) + 1) by lia.
    pose proof (month_length (j + Z.of_nat (S n))). lia.
Qed.

(** The calendar is right: a day lies within the month it is assigned to, and
    in no other. *)
Lemma month_of_bounds z : month_first (month_of z) <= z < month_first (month_of z + 1).
Proof.
  unfold month_of. cbv zeta. set (n := z + unix_days). set (y := year_of n).
  pose proof (year_bounds n) as Hy. fold y in Hy. rewrite leap_cases in Hy.
  destruct (month_of_yday_bounds (leap y) (n - days_before_year y)) as (Hm & Hlo & Hhi); [lia|].
  set (m := month_of_yday _ _) in *.
  assert ((12 * y + m) / 12 = y /\ (12 * y + m) mod 12 = m) as [Ed Em] by (Z.to_euclidean_division_equations; lia).
  pose proof (month_first_next (12 * y + m)) as Hn. unfold month_first in *. rewrite Ed, Em in *.
  destruct (m =? 11) eqn:E11; [replace m with 11 in * by lia|]; lia.
Qed.

Lemma month_of_unique k z : month_first k <= z < month_first (k + 1) -> month_of z = k.
Proof.
  intros Hk. pose proof (month_of_bounds z) as Hz.
  destruct (Z.lt_trichotomy (month_of z) k) as [Hlt|[|Hgt]]; [|done|].
  - assert (month_of z + 1 < k \/ month_of z + 1 = k) as [Hl| <-] by lia; [|lia].
    pose proof (month_first_mono _ _ Hl). lia.
  - assert (k + 1 < month_of z \/ k + 1 = month_of z) as [Hl|El] by lia; [pose proof (month_first_mono _ _ Hl); lia|].
    rewrite <- El in Hz. lia.
Qed.

Lemma month_of_first k : month_of (month_first k) = k.
Proof. apply month_of_unique. pose proof (month_length k). lia. Qed.

(** ** The start of a month *)

Lemma month_start_first t : month_start t = month_first (month_of (day_of t)) * day.
Proof.
  unfold month_start, Date, Year, Month. pose proof (Z.div_mod (month_of (day_of t)) 12 ltac:(lia)).
  replace (12 * _ + _) with (month_of (day_of t)) by lia. lia.
Qed.

Lemma day_of_days z : day_of (z * day) = z.
Proof. unfold day_of, day, hour, minute, second. rewrite Z.div_mul; lia. Qed.

Lemma next_month t : AddDate (month_start t) 0 1 0 = month_first (month_of (day_of t) + 1) * day.
Proof.
  rewrite month_start_first. set (k := month_of (day_of t)). unfold AddDate, Date, Year, Month, Day.
  rewrite day_of_days, month_of_first. replace (month_first k * day mod day) with 0
    by (unfold day, hour, minute, second; rewrite Z.mod_mul; lia).
  pose proof (Z.div_mod k 12 ltac:(lia)). replace (12 * _ + _) with (k + 1) by lia. lia.
Qed.

(** [in_month t u]: [u] lies in the calendar month of [t]. *)
Definition in_month (t u : Z) : bool := (month_start t <=? u) && (u <? AddDate (month_start t) 0 1 0).

Lemma in_month_iff t u : in_month t u = true <-> month_of (day_of u) = month_of (day_of t).
Proof.
  unfold in_month. rewrite next_month, month_start_first. set (k := month_of (day_of t)).
  assert (0 < day) as Hd by (unfold day, hour, minute, second; lia).
  pose proof (Z.div_mod u day ltac:(lia)) as Hu. pose proof (Z.mod_pos_bound u day Hd) as Hm. fold (day_of u) in Hu.
  rewrite andb_true_iff, Z.leb_le, Z.ltb_lt. split.
  - intros [H1 H2]. apply month_of_unique. nia.
  - intros E. pose proof (month_of_bounds (day_of u)) as Hb. rewrite E in Hb. nia.
Qed.

Lemma in_month_refl t : in_month t t = true.
Proof. by apply in_month_iff. Qed.

(** Months are the classes of an equivalence: two windows agree or are disjoint. *)
Lemma in_month_same t u v : in_month t u = true -> in_month u v = in_month t v.
Proof.
  intros Hu. apply in_month_iff in Hu. unfold in_month. by rewrite !next_month, !month_start_first, Hu.
Qed.

Lemma in_month_sym t u : in_month t u = in_month u t.
Proof. apply eq_true_iff_eq. rewrite !in_month_iff. split; congruence. Qed.

(** ** Examples *)

Example first_of_2026 : (Year 1767225600000000000, Month 1767225600000000000, Day 1767225600000000000) = (2026, 1, 1).
Proof. vm_compute. reflexivity. Qed.

Example leap_day : Date 2024 2 29 + day = Date 2024 3 1 /\ Date 2023 2 29 = Date 2023 3 1.
Proof. vm_compute. split; reflexivity. Qed.

(** A month back from 31 March is the 31st of February: 3 March. *)
Example february_31 : AddDate (Date 2026 3 31) 0 (-1) 0 = Date 2026 3 3.
Proof. vm_compute. reflexivity. Qed.
