(* ===== verification/Cloud.v ===== *)
(** * internal/cloud: the commerce layer, data, wallet and orders

    Customers hold a prepaid wallet, order hosting plans and are billed by the
    hour.  [Cloud] is the state of the commerce tables together with the command
    queue that lives in the same database: [ConfirmOrder] charges the wallet and
    queues the deployment in one transaction.  The queue is the interface
    [CommandQueue]; the ledger of Ledger.v implements it (CloudRuns.v).  The
    rules for an application (internal/ops) are the interface
    [ApplicationRules].  Foreign keys hold by construction of the callers and
    are not modelled; column widths are where the code can exceed them. *)

From Stdlib Require Import ZArith Lia Bool Ascii String.
From stdpp Require Import base tactics list strings.
From S2P Require Import Prelude GoStrings GoTime Sqlstore Ledger.

Local Open Scope string_scope.
Local Open Scope list_scope.
Local Open Scope bool_scope.
Local Open Scope Z_scope.
Local Open Scope tx_scope.

(** ** Data *)

Inductive Role := RoleCustomer | RoleAdmin.
Inductive Kind := KindTopUp | KindOrderCharge | KindUsage | KindRefund | KindAdjustment.
Inductive OrderStatus := OrderPending | OrderRejected | OrderCancelled | OrderProvisioning | OrderActive | OrderFailed.
Inductive ProjectStatus := ProjectProvisioning | ProjectActive | ProjectSuspended | ProjectFailed | ProjectDeleted.

#[export] Instance Role_eq_dec : EqDecision Role. Proof. solve_decision. Defined.
#[export] Instance Kind_eq_dec : EqDecision Kind. Proof. solve_decision. Defined.
#[export] Instance OrderStatus_eq_dec : EqDecision OrderStatus. Proof. solve_decision. Defined.
#[export] Instance ProjectStatus_eq_dec : EqDecision ProjectStatus. Proof. solve_decision. Defined.

Record User := mkUser { us_ID : Z; us_Email : string; us_FullName : string; us_Role : Role }.

Record Options := mkOptions { ReserveHours : Z; TaxRateBP : Z; MinTopUpRial : Z; MaxTopUpRial : Z }.

Record walletRow := mkWallet { w_User : Z; w_Balance : Z; w_Updated : Z }.

(** A ledger row; the empty key stands for SQL [NULL]. *)
Record Transaction := mkTransaction {
  t_ID : Z; t_User : Z; t_Kind : Kind; t_Amount : Z; t_BalanceAfter : Z; t_ReferenceType : string; t_ReferenceID : Z;
  t_Description : string; t_Key : string; t_CreatedBy : Z; t_CreatedAt : Z }.

Record Plan := mkPlan {
  pl_ID : Z; pl_Code : string; pl_Name : string; pl_CPUMillicores : Z; pl_MemoryMiB : Z; pl_Hourly : Z; pl_Monthly : Z;
  pl_Active : bool }.

Record OrderInput := mkOrderInput { oi_AppName : string; oi_Image : string; oi_Note : string; oi_PlanCode : string; oi_Port : Z }.

Record orderRow := mkOrder {
  o_ID : Z; o_User : Z; o_Status : OrderStatus; o_Note : string; o_Upfront : Z; o_Reviewer : option Z; o_Reason : string;
  o_PlacedAt : Z; o_ReviewedAt : option Z; o_UpdatedAt : Z }.

Record itemRow := mkItem {
  i_ID : Z; i_Order : Z; i_Plan : Z; i_AppName : string; i_Image : string; i_Port : Z; i_Hourly : Z; i_Monthly : Z }.

Record projectRow := mkProject {
  p_ID : Z; p_User : Z; p_Item : Z; p_Plan : Z; p_AppName : string; p_Status : ProjectStatus; p_Server : string;
  p_Command : option string; p_Hourly : Z; p_Monthly : Z; p_CreatedAt : Z; p_ActivatedAt : option Z;
  p_SuspendedAt : option Z; p_ResumedAt : option Z; p_UpdatedAt : Z }.

Record usageRow := mkUsage {
  u_ID : Z; u_Project : Z; u_Period : Z; u_Amount : Z; u_Transaction : option Z; u_Invoice : option Z; u_CreatedAt : Z }.

Record invoiceRow := mkInvoice {
  v_ID : Z; v_Number : string; v_User : Z; v_Start : Z; v_End : Z; v_Subtotal : Z; v_TaxRateBP : Z; v_Tax : Z; v_Total : Z;
  v_IssuedAt : Z }.

Record lineRow := mkLine {
  l_ID : Z; l_Invoice : Z; l_Project : Z; l_Description : string; l_Hours : Z; l_Amount : Z }.

(** The AUTO_INCREMENT counters. *)
Record Counters := mkCounters { n_txn : Z; n_order : Z; n_item : Z; n_project : Z; n_usage : Z; n_invoice : Z; n_line : Z; n_user : Z }.

Record Cloud (Q : Type) := mkCloud {
  wallets : list walletRow; transactions : list Transaction; plans : list Plan; orders : list orderRow;
  items : list itemRow; projects : list projectRow; usage : list usageRow; invoices : list invoiceRow;
  lines : list lineRow; applications : list string; users : list User; counters : Counters; queue : Q }.

Arguments mkCloud {Q} _ _ _ _ _ _ _ _ _ _ _ _ _.
Arguments wallets {Q} _. Arguments transactions {Q} _. Arguments plans {Q} _. Arguments orders {Q} _.
Arguments items {Q} _. Arguments projects {Q} _. Arguments usage {Q} _. Arguments invoices {Q} _.
Arguments lines {Q} _. Arguments applications {Q} _. Arguments users {Q} _. Arguments counters {Q} _. Arguments queue {Q} _.

(** The errors of the package. *)
Inductive cerr :=
| NotFound | Forbidden | Conflict | InsufficientFunds | FundsError (balance required : Z) | Invalid (field : string)
| CannotPay | NoRows | ScanError | ProvisionerError | QueueError (e : qerr) | CloudContext | CloudConnection | CloudDB (c : Z).

#[export] Instance cerr_server : ServerError cerr.
Proof.
  refine {| server := CloudDB;
            server_code e := match e with CloudDB c => Some c | QueueError e => server_code e | _ => None end;
            ctx_done := CloudContext; lost_connection := CloudConnection |}; done.
Defined.

(** [errors.Is(err, ErrInsufficientFunds)]. *)
Definition is_insufficient (e : cerr) : bool :=
  match e with InsufficientFunds | FundsError _ _ => true | _ => false end.

(** A sum the driver reads into an [int64]. *)
Definition scan_int64 (z : Z) : result cerr Z :=
  if (- two63 <=? z) && (z <? two63) then Ok z else Err ScanError.

(** ** Interfaces *)

(** The command ledger, as the commerce layer uses it: enqueueing inside its own
    transaction, and removing input files after the commit. *)
Class CommandQueue (Q : Type) := {
  QueueEnv : Type;
  queue_SubmitInTx : QueueEnv -> SubmitInput -> tx Q qerr (Submission * list string);
  queue_ForgetInputs : list string -> Q -> Q;
  queue_ok : Q -> Prop;
  queue_holds : Q -> Command -> Prop;
  queue_accepts : forall env input q sub ids q',
    queue_ok q -> queue_SubmitInTx env input q = (Ok (sub, ids), q') ->
    queue_ok q' /\ queue_holds q' (sub_Command sub) /\ Action (sub_Command sub) = TrimSpace (in_Action input) /\
    ServerID (sub_Command sub) = TrimSpace (in_ServerID input) /\ Target (sub_Command sub) = TrimSpace (in_Target input);
  queue_forgets : forall ids q, queue_ok q ->
    queue_ok (queue_ForgetInputs ids q) /\ forall c, queue_holds q c -> queue_holds (queue_ForgetInputs ids q) c }.

(** A validated application: its normal form and the payload that deploys it. *)
Record AppSpec := mkSpec { sp_Name : string; sp_Image : string; sp_Port : Z; sp_Payload : string }.

Class ApplicationRules := {
  ToLower : string -> string;
  (* ApplicationSpec{...}.Normalize().Validate(): CPU in millicores, memory, name, image, port *)
  validate_application : Z -> Z -> string -> string -> Z -> option AppSpec }.

(** What a call reads from outside: the clock when it starts and at each balance
    change, the server's verdicts, the queue's own environment, and how its
    reads outside a transaction fail, by number. *)
Record CloudEnv (Q : Type) `{CommandQueue Q} := mkCloudEnv {
  c_now : Z; c_apply_now : Z; c_verdicts : list verdict; c_queue : QueueEnv; c_reads : nat -> option cerr }.

Arguments mkCloudEnv {Q _} _ _ _ _ _. Arguments c_reads {Q _} _ _.
Arguments c_now {Q _} _. Arguments c_apply_now {Q _} _. Arguments c_verdicts {Q _} _. Arguments c_queue {Q _} _.

(** ** Table updates *)

Section Tables.
Context {Q : Type}.
Implicit Types db : Cloud Q.

Definition with_wallets (f : list walletRow -> list walletRow) db : Cloud Q :=
  mkCloud (f (wallets db)) (transactions db) (plans db) (orders db) (items db) (projects db) (usage db) (invoices db)
    (lines db) (applications db) (users db) (counters db) (queue db).
Definition with_transactions (f : list Transaction -> list Transaction) db : Cloud Q :=
  mkCloud (wallets db) (f (transactions db)) (plans db) (orders db) (items db) (projects db) (usage db) (invoices db)
    (lines db) (applications db) (users db) (counters db) (queue db).
Definition with_plans (f : list Plan -> list Plan) db : Cloud Q :=
  mkCloud (wallets db) (transactions db) (f (plans db)) (orders db) (items db) (projects db) (usage db) (invoices db)
    (lines db) (applications db) (users db) (counters db) (queue db).
Definition with_orders (f : list orderRow -> list orderRow) db : Cloud Q :=
  mkCloud (wallets db) (transactions db) (plans db) (f (orders db)) (items db) (projects db) (usage db) (invoices db)
    (lines db) (applications db) (users db) (counters db) (queue db).
Definition with_items (f : list itemRow -> list itemRow) db : Cloud Q :=
  mkCloud (wallets db) (transactions db) (plans db) (orders db) (f (items db)) (projects db) (usage db) (invoices db)
    (lines db) (applications db) (users db) (counters db) (queue db).
Definition with_projects (f : list projectRow -> list projectRow) db : Cloud Q :=
  mkCloud (wallets db) (transactions db) (plans db) (orders db) (items db) (f (projects db)) (usage db) (invoices db)
    (lines db) (applications db) (users db) (counters db) (queue db).
Definition with_usage (f : list usageRow -> list usageRow) db : Cloud Q :=
  mkCloud (wallets db) (transactions db) (plans db) (orders db) (items db) (projects db) (f (usage db)) (invoices db)
    (lines db) (applications db) (users db) (counters db) (queue db).
Definition with_invoices (f : list invoiceRow -> list invoiceRow) db : Cloud Q :=
  mkCloud (wallets db) (transactions db) (plans db) (orders db) (items db) (projects db) (usage db) (f (invoices db))
    (lines db) (applications db) (users db) (counters db) (queue db).
Definition with_lines (f : list lineRow -> list lineRow) db : Cloud Q :=
  mkCloud (wallets db) (transactions db) (plans db) (orders db) (items db) (projects db) (usage db) (invoices db)
    (f (lines db)) (applications db) (users db) (counters db) (queue db).
Definition with_users (f : list User -> list User) db : Cloud Q :=
  mkCloud (wallets db) (transactions db) (plans db) (orders db) (items db) (projects db) (usage db) (invoices db)
    (lines db) (applications db) (f (users db)) (counters db) (queue db).
Definition with_counters (f : Counters -> Counters) db : Cloud Q :=
  mkCloud (wallets db) (transactions db) (plans db) (orders db) (items db) (projects db) (usage db) (invoices db)
    (lines db) (applications db) (users db) (f (counters db)) (queue db).
Definition with_cloud_queue (q : Q) db : Cloud Q :=
  mkCloud (wallets db) (transactions db) (plans db) (orders db) (items db) (projects db) (usage db) (invoices db)
    (lines db) (applications db) (users db) (counters db) q.

End Tables.

Definition next_txn (c : Counters) : Counters :=
  mkCounters (n_txn c + 1) (n_order c) (n_item c) (n_project c) (n_usage c) (n_invoice c) (n_line c) (n_user c).
Definition next_order (c : Counters) : Counters :=
  mkCounters (n_txn c) (n_order c + 1) (n_item c) (n_project c) (n_usage c) (n_invoice c) (n_line c) (n_user c).
Definition next_item (c : Counters) : Counters :=
  mkCounters (n_txn c) (n_order c) (n_item c + 1) (n_project c) (n_usage c) (n_invoice c) (n_line c) (n_user c).
Definition next_project (c : Counters) : Counters :=
  mkCounters (n_txn c) (n_order c) (n_item c) (n_project c + 1) (n_usage c) (n_invoice c) (n_line c) (n_user c).
Definition next_usage (c : Counters) : Counters :=
  mkCounters (n_txn c) (n_order c) (n_item c) (n_project c) (n_usage c + 1) (n_invoice c) (n_line c) (n_user c).
Definition next_invoice (c : Counters) : Counters :=
  mkCounters (n_txn c) (n_order c) (n_item c) (n_project c) (n_usage c) (n_invoice c + 1) (n_line c) (n_user c).
Definition next_line (c : Counters) : Counters :=
  mkCounters (n_txn c) (n_order c) (n_item c) (n_project c) (n_usage c) (n_invoice c) (n_line c + 1) (n_user c).
Definition next_user (c : Counters) : Counters :=
  mkCounters (n_txn c) (n_order c) (n_item c) (n_project c) (n_usage c) (n_invoice c) (n_line c) (n_user c + 1).

Definition ErrDataTooLong : Z := 1406.

(** ** wallet.go *)

Record ledgerEntry := mkEntry {
  e_amount : Z; e_createdBy : Z; e_description : string; e_idempotencyKey : string; e_kind : Kind; e_referenceID : Z;
  e_referenceType : string; e_userID : Z }.

Section Wallet.
Context {Q : Type} `{Collation}.

Definition wallet_of (userID : Z) (db : Cloud Q) : option walletRow :=
  sql_first (fun w => w_User w =? userID) (wallets db).

Definition with_key (userID : Z) (key : string) (t : Transaction) : bool :=
  (t_User t =? userID) && negb (t_Key t =? "")%string && ceq (t_Key t) key.

Definition transactionByKey (userID : Z) (key : string) (db : Cloud Q) : option Transaction :=
  sql_first (with_key userID key) (transactions db).

(** [INSERT INTO wallet_transactions]: the unique key, the widths and the
    checks. *)
Definition insert_transaction (t : Transaction) : tx (Cloud Q) cerr unit :=
  db <- tx_get ;;
  if (RuneCount (t_Description t) >? 255) || (RuneCount (t_Key t) >? 128) then tx_fail (CloudDB ErrDataTooLong)
  else if (t_Amount t =? 0) || (t_BalanceAfter t <? 0) then tx_fail (CloudDB ErrCheckViolation)
  else if negb (t_Key t =? "")%string && sql_exists (with_key (t_User t) (t_Key t)) (transactions db)
  then tx_fail (CloudDB ErrDuplicateEntry)
  else tx_modify (fun db => with_counters next_txn (with_transactions (fun l => l ++ [t]) db)).

(** [UPDATE wallets SET balance_rial = ?, updated_at = ? WHERE user_id = ?]. *)
Definition set_balance (userID next now : Z) : tx (Cloud Q) cerr unit :=
  if next <? 0 then tx_fail (CloudDB ErrCheckViolation)
  else tx_modify (with_wallets (sql_update (fun w => w_User w =? userID) (fun w => mkWallet (w_User w) next now))).

(** A violated check constraint is reported as a wallet that cannot pay. *)
Definition or_insufficient {A : Type} (m : tx (Cloud Q) cerr A) : tx (Cloud Q) cerr A :=
  fun db => match m db with
            | (Err e, db') => (Err (if IsCheckViolation e then InsufficientFunds else e), db')
            | r => r
            end.

Definition applyTx (now : Z) (entry : ledgerEntry) : tx (Cloud Q) cerr Transaction :=
  if e_amount entry =? 0 then tx_fail (Invalid "amount")
  else
    db <- tx_get ;;
    match wallet_of (e_userID entry) db with
    | None => tx_fail NotFound
    | Some w =>
        let existing := if negb (e_idempotencyKey entry =? "")%string
                        then transactionByKey (e_userID entry) (e_idempotencyKey entry) db else None in
        match existing with
        | Some t =>
            if negb (bool_decide (t_Kind t = e_kind entry)) || negb (t_Amount t =? e_amount entry)
            then tx_fail Conflict else tx_ret t
        | None =>
            let next := int64_of (w_Balance w + e_amount entry) in
            if next <? 0 then tx_fail InsufficientFunds
            else
              let t := mkTransaction (n_txn (counters db) + 1) (e_userID entry) (e_kind entry) (e_amount entry) next
                         (e_referenceType entry) (e_referenceID entry) (e_description entry) (e_idempotencyKey entry)
                         (e_createdBy entry) (timestamp_of now) in
              or_insufficient (insert_transaction t) ;;;
              or_insufficient (set_balance (e_userID entry) next (timestamp_of now)) ;;;
              tx_ret t
        end
    end.

(** [LedgerConsistent]; the sum is exact, as MySQL computes it. *)
Definition LedgerConsistent (userID : Z) (db : Cloud Q) : option bool :=
  option_map (fun w => w_Balance w =? sql_sum (fun t => t_User t =? userID) t_Amount (transactions db)) (wallet_of userID db).

Definition Adjust (now : Z) (vs : list verdict) (admin : User) (userID amount : Z) (reason idempotencyKey : string)
    : tx (Cloud Q) cerr Transaction :=
  if negb (bool_decide (us_Role admin = RoleAdmin)) then tx_fail Forbidden
  else
    let reason := TrimSpace reason in
    if (len reason <? 5) || (len reason >? 255) then tx_fail (Invalid "reason")
    else WithTx vs (applyTx now (mkEntry amount (us_ID admin) ("Adjustment: " ++ reason)%string (TrimSpace idempotencyKey)
                                   KindAdjustment 0 "" userID)).

(** [Register]: [email] is the normalised address and [hash] the outcome of
    hashing the password. *)
Definition Register (now : Z) (vs : list verdict) (email : option string) (fullName password : string) (hash : bool)
    : tx (Cloud Q) cerr User :=
  match email with
  | None => tx_fail (Invalid "email")
  | Some email =>
      let fullName := TrimSpace fullName in
      if (RuneCount fullName <? 2) || (RuneCount fullName >? 120) then tx_fail (Invalid "fullName")
      else if (RuneCount password <? 10) || (len password >? 72) then tx_fail (Invalid "password")
      else if negb hash then tx_fail (Invalid "hash")
      else WithTx vs
        (db <- tx_get ;;
         if sql_exists (fun u => ceq (us_Email u) email) (users db) then tx_fail Conflict
         else
           let id := n_user (counters db) + 1 in
           let user := mkUser id email fullName RoleCustomer in
           if sql_exists (fun w => w_User w =? id) (wallets db) then tx_fail (CloudDB ErrDuplicateEntry)
           else
             tx_modify (fun db => with_counters next_user (with_users (fun l => l ++ [user])
               (with_wallets (fun l => l ++ [mkWallet id 0 (timestamp_of now)]) db))) ;;;
             tx_ret user)
  end.

End Wallet.
