(* ===== verification/CloudOps.v ===== *)
(** * internal/cloud: orders, billing and invoices

    orders.go, billing.go, invoices.go and the billing loop of
    cmd/api/cloud_billing.go over the tables of Cloud.v. *)

From Stdlib Require Import ZArith Lia Bool Ascii String.
From stdpp Require Import base tactics list strings.
From S2P Require Import Prelude GoStrings GoTime Sqlstore Ledger Cloud.

Local Open Scope string_scope.
Local Open Scope list_scope.
Local Open Scope bool_scope.
Local Open Scope Z_scope.
Local Open Scope tx_scope.

Definition DeployAction : string := "application.deploy".

(** Row updates. *)
Definition set_order (status : OrderStatus) (now : Z) (o : orderRow) : orderRow :=
  mkOrder (o_ID o) (o_User o) status (o_Note o) (o_Upfront o) (o_Reviewer o) (o_Reason o) (o_PlacedAt o) (o_ReviewedAt o) now.
Definition set_project (status : ProjectStatus) (now : Z) (p : projectRow) : projectRow :=
  mkProject (p_ID p) (p_User p) (p_Item p) (p_Plan p) (p_AppName p) status (p_Server p) (p_Command p) (p_Hourly p) (p_Monthly p)
    (p_CreatedAt p) (p_ActivatedAt p) (p_SuspendedAt p) (p_ResumedAt p) now.
Definition set_activated (now : Z) (p : projectRow) : projectRow :=
  mkProject (p_ID p) (p_User p) (p_Item p) (p_Plan p) (p_AppName p) (p_Status p) (p_Server p) (p_Command p) (p_Hourly p) (p_Monthly p)
    (p_CreatedAt p) (Some now) (p_SuspendedAt p) (p_ResumedAt p) (p_UpdatedAt p).
Definition set_suspended (at_ : option Z) (p : projectRow) : projectRow :=
  mkProject (p_ID p) (p_User p) (p_Item p) (p_Plan p) (p_AppName p) (p_Status p) (p_Server p) (p_Command p) (p_Hourly p) (p_Monthly p)
    (p_CreatedAt p) (p_ActivatedAt p) at_ (p_ResumedAt p) (p_UpdatedAt p).
Definition set_resumed (now : Z) (p : projectRow) : projectRow :=
  mkProject (p_ID p) (p_User p) (p_Item p) (p_Plan p) (p_AppName p) (p_Status p) (p_Server p) (p_Command p) (p_Hourly p) (p_Monthly p)
    (p_CreatedAt p) (p_ActivatedAt p) (p_SuspendedAt p) (Some now) (p_UpdatedAt p).
Definition set_command_id (id : string) (p : projectRow) : projectRow :=
  mkProject (p_ID p) (p_User p) (p_Item p) (p_Plan p) (p_AppName p) (p_Status p) (p_Server p) (Some id) (p_Hourly p) (p_Monthly p)
    (p_CreatedAt p) (p_ActivatedAt p) (p_SuspendedAt p) (p_ResumedAt p) (p_UpdatedAt p).

Definition order_is (id : Z) (o : orderRow) : bool := o_ID o =? id.
Definition project_is (id : Z) (p : projectRow) : bool := p_ID p =? id.
Definition has_status (s : ProjectStatus) (p : projectRow) : bool := bool_decide (p_Status p = s).

Section Orders.
Context {Q : Type} `{Collation} `{CommandQueue Q} `{ApplicationRules} (options : Options).

(** ** orders.go *)

Definition ApplicationSpec (cpu memory : Z) (appName image : string) (port : Z) : result cerr AppSpec :=
  match validate_application cpu memory (ToLower (TrimSpace appName)) (TrimSpace image) port with
  | None => Err (Invalid "application")
  | Some spec => Ok spec
  end.

(** A read outside a transaction that finds one row or none. *)
Definition read_one {A : Type} (env : CloudEnv Q) (n : nat) (find : Cloud Q -> option A) : tx (Cloud Q) cerr A :=
  fun db => match c_reads env n with
            | Some e => (Err e, db)
            | None => match find db with Some a => (Ok a, db) | None => (Err NotFound, db) end
            end.

Definition Order (env : CloudEnv Q) (n : nat) (orderID : Z) : tx (Cloud Q) cerr orderRow :=
  read_one env n (fun db => sql_first (order_is orderID) (orders db)).

Definition Project (env : CloudEnv Q) (n : nat) (projectID : Z) : tx (Cloud Q) cerr projectRow :=
  read_one env n (fun db => sql_first (project_is projectID) (projects db)).

Definition PlanByCode (code : string) (db : Cloud Q) : option Plan :=
  sql_first (fun p => (pl_Code p =? TrimSpace code)%string) (plans db).

Definition in_flight_order (o : orderRow) : bool :=
  match o_Status o with OrderPending | OrderProvisioning | OrderActive => true | _ => false end.

Definition nameAvailableTx (name : string) : tx (Cloud Q) cerr unit :=
  db <- tx_get ;;
  let taken :=
    sql_count (fun p => ceq (p_AppName p) name && negb (has_status ProjectDeleted p)) (projects db)
    + sql_count (fun i => ceq (i_AppName i) name &&
        sql_exists (fun o => order_is (i_Order i) o && in_flight_order o) (orders db)) (items db)
    + sql_count (fun a => ceq a name) (applications db) in
  if taken >? 0 then tx_fail Conflict else tx_ret tt.

(** [PlaceOrder]: reads the plan, inserts order and item, and reads the order
    back. *)
Definition PlaceOrder (env : CloudEnv Q) (userID : Z) (input : OrderInput) : tx (Cloud Q) cerr orderRow :=
  db <- tx_get ;;
  match c_reads env 0, PlanByCode (oi_PlanCode input) db with
  | Some e, _ => tx_fail e
  | None, None => tx_fail (Invalid "planCode")
  | None, Some plan =>
      if negb (pl_Active plan) then tx_fail (Invalid "planCode")
      else
        spec <- tx_lift (ApplicationSpec (pl_CPUMillicores plan) (pl_MemoryMiB plan) (oi_AppName input) (oi_Image input)
                           (oi_Port input)) ;;
        let note := TrimSpace (oi_Note input) in
        if RuneCount note >? 500 then tx_fail (Invalid "note")
        else
          let now := timestamp_of (c_now env) in
          orderID <- WithTx (c_verdicts env)
            (nameAvailableTx (sp_Name spec) ;;;
             db <- tx_get ;;
             let orderID := n_order (counters db) + 1 in
             tx_modify (fun db => with_counters next_order (with_orders (fun l => l ++
               [mkOrder orderID userID OrderPending note 0 None "" now None now]) db)) ;;;
             if sp_Port spec <=? 0 then tx_fail (CloudDB ErrCheckViolation)
             else
               tx_modify (fun db => with_counters next_item (with_items (fun l => l ++
                 [mkItem (n_item (counters db) + 1) orderID (pl_ID plan) (sp_Name spec) (sp_Image spec) (sp_Port spec)
                    (pl_Hourly plan) (pl_Monthly plan)]) db)) ;;;
               tx_ret orderID) ;;
          Order env 1 orderID
  end.

(** An order as its customer may read it. *)
Definition CustomerOrder (userID orderID : Z) (db : Cloud Q) : option orderRow :=
  match sql_first (order_is orderID) (orders db) with
  | Some o => if o_User o =? userID then Some o else None
  | None => None
  end.

Definition CancelOrder (env : CloudEnv Q) (userID orderID : Z) : tx (Cloud Q) cerr orderRow :=
  WithTx (c_verdicts env)
    (db <- tx_get ;;
     match sql_first (order_is orderID) (orders db) with
     | None => tx_fail NotFound
     | Some o =>
         if negb (o_User o =? userID) then tx_fail NotFound
         else if negb (bool_decide (o_Status o = OrderPending)) then tx_fail Conflict
         else tx_modify (with_orders (sql_update (order_is orderID) (set_order OrderCancelled (timestamp_of (c_now env)))))
     end) ;;;
  Order env 0 orderID.

Definition lockPendingOrder (orderID : Z) : tx (Cloud Q) cerr Z :=
  db <- tx_get ;;
  match sql_first (order_is orderID) (orders db) with
  | None => tx_fail NotFound
  | Some o => if negb (bool_decide (o_Status o = OrderPending)) then tx_fail Conflict else tx_ret (o_User o)
  end.

Definition review_order (status : OrderStatus) (reviewer : Z) (reason : string) (now : Z) (o : orderRow) : orderRow :=
  mkOrder (o_ID o) (o_User o) status (o_Note o) (o_Upfront o) (Some reviewer) reason (o_PlacedAt o) (Some now) now.

Definition RejectOrder (env : CloudEnv Q) (reviewer : User) (orderID : Z) (reason : string) : tx (Cloud Q) cerr orderRow :=
  if negb (bool_decide (us_Role reviewer = RoleAdmin)) then tx_fail Forbidden
  else
    let reason := TrimSpace reason in
    if (RuneCount reason <? 5) || (RuneCount reason >? 500) then tx_fail (Invalid "reason")
    else WithTx (c_verdicts env)
      (lockPendingOrder orderID ;;;
       tx_modify (with_orders (sql_update (order_is orderID)
         (review_order OrderRejected (us_ID reviewer) reason (timestamp_of (c_now env)))))) ;;;
      Order env 0 orderID.

Record ProvisionTarget := mkTarget { pt_AuthorityEpoch : Z; pt_RequestID : string; pt_ServerID : string }.

(** A statement of the command ledger inside this transaction. *)
Definition in_queue {A : Type} (m : tx Q qerr A) : tx (Cloud Q) cerr A :=
  fun db => match m (queue db) with
            | (Ok a, q) => (Ok a, with_cloud_queue q db)
            | (Err e, q) => (Err (QueueError e), with_cloud_queue q db)
            end.

(** [INSERT INTO projects ... SELECT ... FROM order_items], with its unique
    keys on the application name and on the order item. *)
Definition insert_project (p : projectRow) : tx (Cloud Q) cerr unit :=
  db <- tx_get ;;
  if sql_exists (fun x => ceq (p_AppName x) (p_AppName p)) (projects db) then tx_fail Conflict
  else if sql_exists (fun x => p_Item x =? p_Item p) (projects db) then tx_fail (CloudDB ErrDuplicateEntry)
  else tx_modify (fun db => with_counters next_project (with_projects (fun l => l ++ [p]) db)).

(** [INSERT INTO usage_records], with its unique key on project and hour. *)
Definition insert_usage (u : usageRow) : tx (Cloud Q) cerr unit :=
  db <- tx_get ;;
  if sql_exists (fun x => (u_Project x =? u_Project u) && (u_Period x =? u_Period u)) (usage db)
  then tx_fail (CloudDB ErrDuplicateEntry)
  else tx_modify (fun db => with_counters next_usage (with_usage (fun l => l ++ [u]) db)).

Definition deploy_input (reviewer : User) (target : ProvisionTarget) (serverID : string) (orderID : Z) (spec : AppSpec)
    : SubmitInput :=
  mkInput DeployAction (us_FullName reviewer) (pt_AuthorityEpoch target) true "default"
    ("cloud-order-" ++ decimal orderID)%string 0 3 (sp_Payload spec) (pt_RequestID target) serverID
    ("application/" ++ sp_Name spec)%string.

Definition confirm_order (reviewer : Z) (upfront now : Z) (o : orderRow) : orderRow :=
  mkOrder (o_ID o) (o_User o) OrderProvisioning (o_Note o) upfront (Some reviewer) (o_Reason o) (o_PlacedAt o) (Some now) now.

(** The transaction of [ConfirmOrder]. *)
Definition confirm_tx (env : CloudEnv Q) (reviewer : User) (orderID : Z) (target : ProvisionTarget) (serverID : string)
    : tx (Cloud Q) cerr (Z * Command * list string) :=
  userID <- lockPendingOrder orderID ;;
  db <- tx_get ;;
  match head (order_by (fun i => (i_ID i, 0)) (sql_where (fun i => i_Order i =? orderID) (items db))) with
  | None => tx_fail NoRows
  | Some item =>
      match sql_first (fun p => pl_ID p =? i_Plan item) (plans db) with
      | None => tx_fail NoRows
      | Some plan =>
          spec <- tx_lift (ApplicationSpec (pl_CPUMillicores plan) (pl_MemoryMiB plan) (i_AppName item) (i_Image item)
                             (i_Port item)) ;;
          match wallet_of userID db with
          | None => tx_fail NoRows
          | Some w =>
              let hourly := i_Hourly item in
              let required := int64_of (hourly * ReserveHours options) in
              if w_Balance w <? required then tx_fail (FundsError (w_Balance w) required)
              else
                let now := timestamp_of (c_now env) in
                charge <- applyTx (c_apply_now env)
                  (mkEntry (int64_of (- hourly)) 0 ("First hour of " ++ i_AppName item)%string
                     ("order-charge-" ++ decimal orderID)%string KindOrderCharge orderID "order" userID) ;;
                db <- tx_get ;;
                let projectID := n_project (counters db) + 1 in
                insert_project (mkProject projectID userID (i_ID item) (i_Plan item) (i_AppName item) ProjectProvisioning
                  serverID None (i_Hourly item) (i_Monthly item) now None None None now) ;;;
                insert_usage (mkUsage (n_usage (counters db) + 1) projectID (truncate hour now) hourly (Some (t_ID charge))
                  None now) ;;;
                submitted <- in_queue (queue_SubmitInTx (c_queue env) (deploy_input reviewer target serverID orderID spec)) ;;
                let command := sub_Command (fst submitted) in
                tx_modify (with_projects (sql_update (project_is projectID) (set_command_id (ID command)))) ;;;
                tx_modify (with_orders (sql_update (order_is orderID) (confirm_order (us_ID reviewer) hourly now))) ;;;
                tx_ret (projectID, command, snd submitted)
          end
      end
  end.

(** [ConfirmOrder]: after the commit it forgets the input files of superseded
    commands and reads the order and the project back; either read can fail. *)
Definition ConfirmOrder (env : CloudEnv Q) (reviewer : User) (orderID : Z) (target : ProvisionTarget)
    : tx (Cloud Q) cerr (orderRow * projectRow * Command) :=
  if negb (bool_decide (us_Role reviewer = RoleAdmin)) then tx_fail Forbidden
  else
    let serverID := TrimSpace (pt_ServerID target) in
    if (serverID =? "")%string then tx_fail (Invalid "serverId")
    else
      out <- WithTx (c_verdicts env) (confirm_tx env reviewer orderID target serverID) ;;
      let '(projectID, command, cleanup) := out in
      tx_modify (fun db => with_cloud_queue (queue_ForgetInputs cleanup (queue db)) db) ;;;
      order <- Order env 0 orderID ;;
      project <- Project env 1 projectID ;;
      tx_ret (order, project, command).

(** The outcome of a deployment command, as [OnCommandTransition] reads it. *)
Definition outcome_of (c : Command) : option bool :=
  if negb (Action c =? DeployAction)%string || negb (HasPrefix (Target c) "application/") then None
  else match State c with
       | Succeeded => Some true
       | NeedsAttention | Failed | Cancelled => Some false
       | _ => None
       end.

Definition order_charges (userID orderID : Z) (db : Cloud Q) : Z :=
  - sql_sum (fun t => (t_User t =? userID) && ceq (t_ReferenceType t) "order" && (t_ReferenceID t =? orderID)
                      && bool_decide (t_Kind t = KindOrderCharge)) t_Amount (transactions db).

Definition settle_order (status : OrderStatus) (now : Z) (o : orderRow) : orderRow :=
  if bool_decide (o_Status o = OrderProvisioning) then set_order status now o else o.

(** [p.command_id = ?]. *)
Definition deployed_by (commandID : string) (p : projectRow) : bool :=
  match p_Command p with Some id => ceq id commandID | None => false end.

(** [project_id = ? AND invoice_id IS NULL]. *)
Definition uninvoiced_of (projectID : Z) (u : usageRow) : bool :=
  (u_Project u =? projectID) && match u_Invoice u with None => true | Some _ => false end.

Definition transition_tx (env : CloudEnv Q) (commandID : string) (succeeded : bool) : tx (Cloud Q) cerr unit :=
  db <- tx_get ;;
  match sql_first (deployed_by commandID) (projects db) with
  | None => tx_ret tt
  | Some p =>
      match sql_first (fun i => i_ID i =? p_Item p) (items db) with
      | None => tx_ret tt
      | Some item =>
          if negb (has_status ProjectProvisioning p) then tx_ret tt
          else
            let now := timestamp_of (c_now env) in
            let orderID := i_Order item in
            if succeeded
            then
              tx_modify (with_projects (sql_update (project_is (p_ID p))
                (fun x => set_activated now (set_project ProjectActive now x)))) ;;;
              tx_modify (with_orders (sql_update (order_is orderID) (settle_order OrderActive now)))
            else
              tx_modify (with_projects (sql_update (project_is (p_ID p)) (set_project ProjectFailed now))) ;;;
              tx_modify (with_orders (sql_update (order_is orderID) (settle_order OrderFailed now))) ;;;
              tx_modify (with_usage (sql_delete (uninvoiced_of (p_ID p)))) ;;;
              db <- tx_get ;;
              charged <- tx_lift (scan_int64 (order_charges (p_User p) orderID db)) ;;
              if charged <=? 0 then tx_ret tt
              else
                applyTx (c_apply_now env)
                  (mkEntry charged 0 "Refund: the deployment did not succeed"
                     ("order-refund-" ++ decimal orderID)%string KindRefund orderID "order" (p_User p)) ;;;
                tx_ret tt
      end
  end.

Definition OnCommandTransition (env : CloudEnv Q) (c : Command) : tx (Cloud Q) cerr unit :=
  match outcome_of c with
  | None => tx_ret tt
  | Some succeeded => WithTx (c_verdicts env) (transition_tx env (ID c) succeeded)
  end.

(** ** billing.go *)

Definition maxHoursPerRun : nat := 72.

(** What the provisioner does to the queue when it stops or restarts a
    project, and whether it reports success; [None] when there is none. *)
Definition Provisioner : Type := option (projectRow -> Q -> bool * Q).

(** What a run meets: the clock, and for each project and hour the environment
    of its transactions, for each project whether its status update reaches the
    database. *)
Record BillingEnv := mkBilling {
  b_now : Z; b_env : Z -> Z -> CloudEnv Q; b_update : Z -> option Z; b_suspend : Provisioner; b_resume : Provisioner }.

(** An insert whose duplicate is not an error: whether it inserted. *)
Definition unless_duplicate (m : tx (Cloud Q) cerr unit) : tx (Cloud Q) cerr bool :=
  fun db => match m db with
            | (Ok _, db') => (Ok true, db')
            | (Err e, db') => if IsDuplicate e then (Ok false, db') else (Err e, db')
            end.

Definition or_cannot_pay {A : Type} (m : tx (Cloud Q) cerr A) : tx (Cloud Q) cerr A :=
  fun db => match m db with
            | (Err e, db') => (Err (if is_insufficient e then CannotPay else e), db')
            | r => r
            end.

Definition usage_key (projectID h : Z) : string := ("usage-" ++ decimal projectID ++ "-" ++ format_2006010215 h)%string.

Definition set_transaction (id : Z) (u : usageRow) : usageRow :=
  mkUsage (u_ID u) (u_Project u) (u_Period u) (u_Amount u) (Some id) (u_Invoice u) (u_CreatedAt u).

Definition chargeHour_tx (env : CloudEnv Q) (p : projectRow) (h : Z) : tx (Cloud Q) cerr (option Z) :=
  db <- tx_get ;;
  match sql_first (project_is (p_ID p)) (projects db) with
  | None => tx_fail NoRows
  | Some current =>
      if negb (has_status ProjectActive current) then tx_ret None
      else
        monthToDate <- tx_lift (scan_int64
          (sql_sum (fun u => (u_Project u =? p_ID p) && in_month h (u_Period u)) u_Amount (usage db))) ;;
        let amount := Z.min (p_Hourly p) (Z.max 0 (int64_of (p_Monthly p - monthToDate))) in
        let usageID := n_usage (counters db) + 1 in
        inserted <- unless_duplicate (insert_usage (mkUsage usageID (p_ID p) h amount None None (timestamp_of (c_now env)))) ;;
        if negb inserted then tx_ret None
        else if amount >? 0
        then
          charge <- or_cannot_pay (applyTx (c_apply_now env)
            (mkEntry (int64_of (- amount)) 0 (p_AppName p ++ ", " ++ format_hour h ++ " UTC")%string
               (usage_key (p_ID p) h) KindUsage (p_ID p) "project" (p_User p))) ;;
          tx_modify (with_usage (sql_update (fun u => u_ID u =? usageID) (set_transaction (t_ID charge)))) ;;;
          tx_ret (Some amount)
        else tx_ret (Some amount)
  end.

Definition chargeHour (env : CloudEnv Q) (p : projectRow) (h : Z) : tx (Cloud Q) cerr (option Z) :=
  WithTx (c_verdicts env) (chargeHour_tx env p h).

(** A plain statement on one project, then the provisioner; [Ok false] when the
    status had already changed. *)
Definition switch_project (code : option Z) (provisioner : Provisioner) (id : Z) (from : ProjectStatus)
    (f : projectRow -> projectRow) : tx (Cloud Q) cerr bool :=
  fun db =>
  match code with
  | Some c => (Err (CloudDB c), db)
  | None =>
      match sql_first (fun p => project_is id p && has_status from p) (projects db) with
      | None => (Ok false, db)
      | Some p =>
          let db := with_projects (sql_update (fun x => project_is id x && has_status from x) f) db in
          match provisioner with
          | None => (Ok true, db)
          | Some act => let '(ok, q) := act (f p) (queue db) in
                        (if ok then Ok true else Err ProvisionerError, with_cloud_queue q db)
          end
      end
  end.

Definition suspend (benv : BillingEnv) (now : Z) (id : Z) : tx (Cloud Q) cerr bool :=
  switch_project (b_update benv id) (b_suspend benv) id ProjectActive
    (fun p => set_suspended (Some now) (set_project ProjectSuspended now p)).

(** [SELECT ... FROM projects WHERE status = 'active' ORDER BY id]. *)
Definition billableProjects (db : Cloud Q) : list projectRow :=
  order_by (fun p => (p_ID p, 0)) (sql_where (has_status ProjectActive) (projects db)).

(** [MAX(period_start)] of a project's usage. *)
Definition lastBilled (id : Z) (db : Cloud Q) : option Z :=
  fold_right (fun u acc => match acc with Some m => Some (Z.max (u_Period u) m) | None => Some (u_Period u) end) None
    (sql_where (fun u => u_Project u =? id) (usage db)).

Definition first_hour (p : projectRow) (last : option Z) : Z :=
  let start := match last with Some l => l + hour | None => truncate hour (p_CreatedAt p) end in
  match p_ResumedAt p with
  | Some r => if truncate hour r >? start then truncate hour r else start
  | None => start
  end.

Record BillingResult := mkResult { ChargedHours : Z; ChargedRial : Z; Suspended_ : Z; FirstError : option cerr }.

Definition note_error (e : cerr) (r : BillingResult) : BillingResult :=
  mkResult (ChargedHours r) (ChargedRial r) (Suspended_ r) (match FirstError r with None => Some e | old => old end).

(** The hours of one project: at most [left] of them, up to the current hour. *)
Fixpoint bill_hours (benv : BillingEnv) (current : Z) (p : projectRow) (left : nat) (h : Z) (r : BillingResult) (db : Cloud Q)
    : BillingResult * Cloud Q :=
  match left with
  | O => (r, db)
  | S left' =>
      if h >? current then (r, db)
      else match chargeHour (b_env benv (p_ID p) h) p h db with
      | (Ok None, db') => bill_hours benv current p left' (h + hour) r db'
      | (Ok (Some amount), db') =>
          bill_hours benv current p left' (h + hour)
            (mkResult (ChargedHours r + 1) (int64_of (ChargedRial r + amount)) (Suspended_ r) (FirstError r)) db'
      | (Err CannotPay, db') =>
          let '(out, db'') := suspend benv (timestamp_of (c_now (b_env benv (p_ID p) h))) (p_ID p) db' in
          let r := match out with Ok _ => r | Err e => note_error e r end in
          (mkResult (ChargedHours r) (ChargedRial r) (Suspended_ r + 1) (FirstError r), db'')
      | (Err e, db') => (note_error e r, db')
      end
  end.

Fixpoint bill_projects (benv : BillingEnv) (current : Z) (ps : list (projectRow * option Z)) (r : BillingResult) (db : Cloud Q)
    : BillingResult * Cloud Q :=
  match ps with
  | [] => (r, db)
  | (p, last) :: rest =>
      let '(r, db) := bill_hours benv current p maxHoursPerRun (first_hour p last) r db in
      bill_projects benv current rest r db
  end.

Definition RunBilling (benv : BillingEnv) (db : Cloud Q) : BillingResult * Cloud Q :=
  let current := truncate hour (timestamp_of (b_now benv)) in
  bill_projects benv current (map (fun p => (p, lastBilled (p_ID p) db)) (billableProjects db)) (mkResult 0 0 0 None) db.

Fixpoint resume_projects (benv : BillingEnv) (balance : Z) (ps : list projectRow) (resumed : Z) : tx (Cloud Q) cerr Z :=
  match ps with
  | [] => tx_ret resumed
  | p :: rest =>
      if balance <? int64_of (p_Hourly p * ReserveHours options) then resume_projects benv balance rest resumed
      else
        let now := timestamp_of (b_now benv) in
        done <- switch_project (b_update benv (p_ID p)) (b_resume benv) (p_ID p) ProjectSuspended
          (fun p => set_resumed now (set_suspended None (set_project ProjectActive now p))) ;;
        resume_projects benv balance rest (if (done : bool) then resumed + 1 else resumed)
  end.

Definition ResumeFundedProjects (benv : BillingEnv) (userID : Z) : tx (Cloud Q) cerr Z :=
  db <- tx_get ;;
  match order_by (fun p => (p_ID p, 0))
          (sql_where (fun p => (p_User p =? userID) && has_status ProjectSuspended p) (projects db)) with
  | [] => tx_ret 0
  | ps => match wallet_of userID db with
          | None => tx_fail NotFound
          | Some w => resume_projects benv (w_Balance w) ps 0
          end
  end.

(** [TopUp]: the transaction, and how resuming the suspended projects went. *)
Definition TopUp (env : CloudEnv Q) (benv : BillingEnv) (userID amount : Z) (idempotencyKey : string)
    : tx (Cloud Q) cerr (Transaction * result cerr Z) :=
  if (amount <? MinTopUpRial options) || (amount >? MaxTopUpRial options) then tx_fail (Invalid "amountRial")
  else
    let key := TrimSpace idempotencyKey in
    if (key =? "")%string || (len key >? 128) then tx_fail (Invalid "idempotencyKey")
    else
      t <- WithTx (c_verdicts env) (applyTx (c_apply_now env) (mkEntry amount 0 "Wallet top-up" key KindTopUp 0 "" userID)) ;;
      fun db => let '(r, db') := ResumeFundedProjects benv userID db in (Ok (t, r), db').

(** ** invoices.go *)

Definition claimable (userID start stop : Z) (db : Cloud Q) (u : usageRow) : bool :=
  match u_Invoice u with
  | Some _ => false
  | None => (start <=? u_Period u) && (u_Period u <? stop)
            && sql_exists (fun p => (p_ID p =? u_Project u) && (p_User p =? userID)) (projects db)
  end.

(** One line per project, in order of its number. *)
Definition invoice_lines (start : Z) (rows : list usageRow) (db : Cloud Q) : list (projectRow * Z * Z) :=
  let ps := order_by (fun p => (p_ID p, 0))
              (sql_where (fun p => sql_exists (fun u => u_Project u =? p_ID p) rows) (projects db)) in
  map (fun p => (p, sql_count (fun u => u_Project u =? p_ID p) rows, sql_sum (fun u => u_Project u =? p_ID p) u_Amount rows)) ps.

Definition plan_name (id : Z) (db : Cloud Q) : string :=
  match sql_first (fun p => pl_ID p =? id) (plans db) with Some p => pl_Name p | None => "" end.

Fixpoint insert_lines (invoiceID start : Z) (ls : list (projectRow * Z * Z)) : tx (Cloud Q) cerr unit :=
  match ls with
  | [] => tx_ret tt
  | (p, hours, amount) :: rest =>
      tx_modify (fun db => with_counters next_line (with_lines (fun l => l ++
        [mkLine (n_line (counters db) + 1) invoiceID (p_ID p)
           (p_AppName p ++ " on the " ++ plan_name (p_Plan p) db ++ " plan, " ++ format_January_2006 start)%string hours amount]) db)) ;;;
      insert_lines invoiceID start rest
  end.

Definition set_invoice (id : Z) (u : usageRow) : usageRow :=
  mkUsage (u_ID u) (u_Project u) (u_Period u) (u_Amount u) (u_Transaction u) (Some id) (u_CreatedAt u).

Definition contained_tax (total : Z) : Z := Z.quot (int64_of (total * TaxRateBP options)) (10000 + TaxRateBP options).

Definition issueInvoice_tx (now userID start stop periodEnd : Z) : tx (Cloud Q) cerr bool :=
  db <- tx_get ;;
  if sql_exists (fun v => (v_User v =? userID) && (v_Start v =? start) && (v_End v =? periodEnd)) (invoices db)
  then tx_ret false
  else
    let rows := sql_where (claimable userID start stop db) (usage db) in
    match rows with
    | [] => tx_ret false
    | _ =>
        let ls := invoice_lines start rows db in
        let total := fold_left (fun acc l => int64_of (acc + snd l)) ls 0 in
        let tax := contained_tax total in
        let subtotal := int64_of (total - tax) in
        let invoiceID := n_invoice (counters db) + 1 in
        let number := ("INV-" ++ format_200601 start ++ "-" ++ zero_padded 6 invoiceID)%string in
        if existsb (fun l => snd l >=? two63) ls then tx_fail ScanError
        else if (total <? 0) || (subtotal <? 0) || (tax <? 0) then tx_fail (CloudDB 1264)
        else if negb (total =? subtotal + tax) then tx_fail (CloudDB ErrCheckViolation)
        else if sql_exists (fun v => ceq (v_Number v) number) (invoices db) then tx_fail (CloudDB ErrDuplicateEntry)
        else
          tx_modify (fun db => with_counters next_invoice (with_invoices (fun l => l ++
            [mkInvoice invoiceID number userID start periodEnd subtotal (TaxRateBP options) tax total (timestamp_of now)]) db)) ;;;
          insert_lines invoiceID start ls ;;;
          tx_modify (with_usage (sql_update (claimable userID start stop db)
            (set_invoice invoiceID))) ;;;
          tx_ret true
    end.

(** [SELECT DISTINCT p.user_id ... ORDER BY p.user_id]. *)
Definition uninvoiced_customers (start stop : Z) (db : Cloud Q) : list Z :=
  fold_right (fun id acc => if existsb (Z.eqb id) acc then acc else id :: acc) []
    (order_by (fun id => (id, 0))
       (flat_map (fun u => match u_Invoice u with
                           | Some _ => []
                           | None => if (start <=? u_Period u) && (u_Period u <? stop)
                                     then match sql_first (project_is (u_Project u)) (projects db) with
                                          | Some p => [p_User p] | None => [] end
                                     else []
                           end) (usage db))).

Fixpoint issue_all (env : Z -> CloudEnv Q) (start stop periodEnd : Z) (customers : list Z) (issued : Z) : tx (Cloud Q) cerr Z :=
  match customers with
  | [] => tx_ret issued
  | userID :: rest =>
      created <- WithTx (c_verdicts (env userID)) (issueInvoice_tx (c_now (env userID)) userID start stop periodEnd) ;;
      issue_all env start stop periodEnd rest (if (created : bool) then issued + 1 else issued)
  end.

Definition IssueInvoices (env : Z -> CloudEnv Q) (month : Z) : tx (Cloud Q) cerr Z :=
  let start := month_start month in
  let stop := AddDate start 0 1 0 in
  let periodEnd := AddDate stop 0 0 (-1) in
  db <- tx_get ;;
  issue_all env start stop periodEnd (uninvoiced_customers start stop db) 0.

(** Reads change nothing. *)
Lemma read_one_state {A : Type} env n (find : Cloud Q -> option A) db : snd (read_one env n find db) = db.
Proof. unfold read_one. destruct (c_reads env n); [done|]. by destruct (find db). Qed.

Lemma read_one_ok {A : Type} env n (find : Cloud Q -> option A) db a db' :
  read_one env n find db = (Ok a, db') -> find db = Some a.
Proof. unfold read_one. destruct (c_reads env n); [discriminate|]. destruct (find db); [by intros [= -> _]|discriminate]. Qed.

Lemma read_one_err {A : Type} env n (find : Cloud Q -> option A) db e db' :
  find db <> None -> read_one env n find db = (Err e, db') -> c_reads env n = Some e.
Proof. unfold read_one. intros Hf. destruct (c_reads env n); [by intros [= -> _]|]. by destruct (find db). Qed.

Lemma then_read {A B : Type} (m : tx (Cloud Q) cerr A) env n (find : A -> Cloud Q -> option B) db :
  snd (tx_bind m (fun a => read_one env n (find a)) db) = snd (m db).
Proof. unfold tx_bind. destruct (m db) as [[a|e] db1]; [|done]. apply read_one_state. Qed.

Lemma confirm_reads (f : Cloud Q -> Cloud Q) env orderID projectID (c : Command) db :
  snd ((tx_modify f ;;; order <- Order env 0 orderID ;; project <- Project env 1 projectID ;; tx_ret (order, project, c)) db) = f db.
Proof.
  unfold tx_bind, tx_modify, Order, Project. pose proof (read_one_state env 0 (fun db => sql_first (order_is orderID) (orders db)) (f db)) as Hr1.
  destruct (read_one env 0 _ (f db)) as [[o|e] d1]; cbn [snd] in Hr1; subst d1; [|done].
  pose proof (read_one_state env 1 (fun db => sql_first (project_is projectID) (projects db)) (f db)) as Hr2.
  by destruct (read_one env 1 _ (f db)) as [[p|e] d2].
Qed.

(** ** cmd/api/cloud_billing.go: one pass of the billing loop *)

Definition billing_pass (active : bool) (benv : BillingEnv) (env : Z -> CloudEnv Q) (now : Z) (db : Cloud Q) : Cloud Q :=
  if active
  then let '(_, db) := RunBilling benv db in
       snd (IssueInvoices env (AddDate now 0 (-1) 0) db)
  else db.

End Orders.
