(* ===== verification/CloudWallet.v ===== *)
(** * Properties of the wallet

    The ledger is append-only, every balance is the sum of its ledger and no
    balance leaves the range the column allows, whatever sequence of operations
    the commerce layer has run. *)

From Stdlib Require Import ZArith Lia Bool Ascii String.
From stdpp Require Import base tactics list strings.
From S2P Require Import Prelude GoStrings GoTime Sqlstore Ledger Cloud CloudOps.

Local Open Scope string_scope.
Local Open Scope list_scope.
Local Open Scope bool_scope.
Local Open Scope Z_scope.

Definition of_user (userID : Z) (t : Transaction) : bool := t_User t =? userID.

(** What the commerce tables promise about money. *)
Record money_ok {Q : Type} (db : Cloud Q) : Prop := {
  m_wallets : NoDup (map w_User (wallets db));
  m_balances : forall w, In w (wallets db) ->
    0 <= w_Balance w < two63 /\ w_Balance w = sql_sum (of_user (w_User w)) t_Amount (transactions db);
  m_owners : forall t, In t (transactions db) -> In (t_User t) (map w_User (wallets db));
  m_ids : forall t, In t (transactions db) -> 1 <= t_ID t <= n_txn (counters db);
  m_counter : 0 <= n_txn (counters db);
  m_users : forall w, In w (wallets db) -> w_User w <= n_user (counters db) }.

(** Operations that leave the money alone: same wallets and ledger, and the
    counters of both. *)
Definition same_money {Q : Type} (db db' : Cloud Q) : Prop :=
  wallets db' = wallets db /\ transactions db' = transactions db /\
  n_txn (counters db') = n_txn (counters db) /\ n_user (counters db') = n_user (counters db).

Section Wallet.
Context {Q : Type} `{Collation}.
Implicit Types db : Cloud Q.

Lemma same_money_ok db db' : same_money db db' -> money_ok db -> money_ok db'.
Proof. intros (Hw & Ht & Hn & Hu) [? ? ? ? ? ?]. split; rewrite ?Hw, ?Ht, ?Hn, ?Hu; done. Qed.

Lemma wallet_of_Some userID db w : wallet_of userID db = Some w -> In w (wallets db) /\ w_User w = userID.
Proof. intros [Hin E]%sql_first_Some. split; [done|lia]. Qed.

Lemma wallet_unique db w w' :
  NoDup (map w_User (wallets db)) -> In w (wallets db) -> In w' (wallets db) -> w_User w = w_User w' -> w = w'.
Proof.
  revert w w'. induction (wallets db) as [|x l IH]; simpl; [done|]. intros w w' Hnd Hw Hw' E.
  inversion Hnd as [|? ? Hx Hl]; subst. destruct Hw as [->|Hw], Hw' as [->|Hw']; [done| | |by apply IH].
  - destruct Hx. rewrite E. apply list_elem_of_In. by apply in_map.
  - destruct Hx. rewrite <- E. apply list_elem_of_In. by apply in_map.
Qed.

(** What a balance change does: it returns an earlier row with the same key, or
    appends one row and moves one balance by exactly its amount. *)
Inductive applied (entry : ledgerEntry) (db : Cloud Q) : Transaction -> Cloud Q -> Prop :=
| replayed t :
    e_idempotencyKey entry <> "" -> transactionByKey (e_userID entry) (e_idempotencyKey entry) db = Some t ->
    t_Kind t = e_kind entry -> t_Amount t = e_amount entry -> applied entry db t db
| fresh_entry w next now :
    wallet_of (e_userID entry) db = Some w -> e_amount entry <> 0 -> next = int64_of (w_Balance w + e_amount entry) ->
    0 <= next ->
    (e_idempotencyKey entry = "" \/ transactionByKey (e_userID entry) (e_idempotencyKey entry) db = None) ->
    let t := mkTransaction (n_txn (counters db) + 1) (e_userID entry) (e_kind entry) (e_amount entry) next
               (e_referenceType entry) (e_referenceID entry) (e_description entry) (e_idempotencyKey entry)
               (e_createdBy entry) now in
    applied entry db t
      (with_wallets (sql_update (fun w => w_User w =? e_userID entry) (fun w => mkWallet (w_User w) next now))
         (with_counters next_txn (with_transactions (fun l => l ++ [t]) db))).

Lemma applyTx_ok now entry db t db' : applyTx now entry db = (Ok t, db') -> applied entry db t db'.
Proof.
  unfold applyTx. destruct (e_amount entry =? 0) eqn:A; [discriminate|]. unfold tx_bind at 1, tx_get.
  destruct (wallet_of _ db) as [w|] eqn:W; [|discriminate].
  destruct (if negb _ then _ else None) as [old|] eqn:X.
  - destruct (negb (_ =? "")%string) eqn:K; [|discriminate].
    destruct (negb (bool_decide _) || _) eqn:C; [discriminate|]. intros [= <- <-].
    apply orb_false_elim in C as [Ck Ca]. apply negb_false_iff in Ck, Ca. apply bool_decide_eq_true in Ck.
    apply replayed; [|done|done|lia]. apply negb_true_iff, String.eqb_neq in K. done.
  - cbv zeta. set (next := int64_of _). destruct (next <? 0) eqn:N; [discriminate|].
    set (row := mkTransaction _ _ _ _ _ _ _ _ _ _ _). unfold tx_bind, or_insufficient, insert_transaction.
    unfold tx_bind at 1, tx_get. destruct (_ || (RuneCount (t_Key row) >? 128)); [discriminate|].
    destruct (_ || (t_BalanceAfter row <? 0)); [discriminate|].
    destruct (negb (t_Key row =? "")%string && _) eqn:D; [discriminate|]. cbn [tx_modify]. unfold tx_modify.
    unfold set_balance. rewrite N. intros [= <- <-].
    apply (fresh_entry entry db w next (timestamp_of now)); [done|lia|done|lia|].
    destruct (negb (e_idempotencyKey entry =? "")%string) eqn:K; [by right|left].
    apply negb_false_iff in K. by apply String.eqb_eq in K.
Qed.

(** No wrap-around: a balance that stays non-negative moved by exactly the
    amount. *)
Lemma next_exact b a : 0 <= b < two63 -> is_int64 a -> 0 <= int64_of (b + a) -> int64_of (b + a) = b + a.
Proof.
  intros Hb Ha Hn. destruct (Z_lt_dec (b + a) two63) as [Hlt|Hge]; [apply int64_small; unfold is_int64, two63 in *; lia|].
  pose proof (int64_overflow b a). unfold is_int64 in *. lia.
Qed.

Lemma sum_of_user_snoc u l t :
  sql_sum (of_user u) t_Amount (l ++ [t]) = sql_sum (of_user u) t_Amount l + (if t_User t =? u then t_Amount t else 0).
Proof. rewrite sql_sum_app, sql_sum_cons. unfold of_user. change (sql_sum _ _ []) with 0. lia. Qed.

Lemma applied_money entry db t db' :
  money_ok db -> is_int64 (e_amount entry) -> applied entry db t db' -> money_ok db'.
Proof.
  intros Hok Ha [|w next now Hw Hz En Hn Hk row]; [done|].
  destruct (wallet_of_Some _ _ _ Hw) as [Hin Hu]. destruct (m_balances _ Hok w Hin) as [Hb Hs].
  assert (next = w_Balance w + e_amount entry) as Ex by (subst next; by apply next_exact).
  pose proof (int64_range (w_Balance w + e_amount entry)) as Hr. rewrite <- En in Hr. unfold is_int64 in Hr.
  assert (map w_User (sql_update (fun x => w_User x =? e_userID entry) (fun x => mkWallet (w_User x) next now) (wallets db))
    = map w_User (wallets db)) as Em by (apply sql_update_map; done).
  split; cbn [wallets transactions counters with_wallets with_counters with_transactions n_txn n_user next_txn].
  - rewrite Em. apply Hok.
  - intros x (x0 & Hx0 & ->)%sql_update_In. rewrite sum_of_user_snoc. cbn [t_User t_Amount row].
    destruct (w_User x0 =? e_userID entry) eqn:Eu.
    + assert (x0 = w) as -> by (apply (wallet_unique db); [apply Hok|done|done|lia]). simpl.
      rewrite Hu, Z.eqb_refl. rewrite Hu in Hs. split; [lia|lia].
    + destruct (m_balances _ Hok x0 Hx0) as [Hb0 Hs0]. replace (e_userID entry =? w_User x0) with false by lia. lia.
  - rewrite Em. intros x [Hx|[<-|[]]]%in_app_or; [by apply Hok|]. cbn [t_User row]. rewrite <- Hu. by apply in_map.
  - intros x [Hx|[<-|[]]]%in_app_or; [pose proof (m_ids _ Hok x Hx); lia|]. cbn [t_ID row].
    pose proof (m_counter _ Hok). lia.
  - pose proof (m_counter _ Hok). lia.
  - intros x (x0 & Hx0 & ->)%sql_update_In. pose proof (m_users _ Hok x0 Hx0). destruct (_ =? _); done.
Qed.

Lemma applied_appends entry db t db' :
  applied entry db t db' -> transactions db' = transactions db \/ transactions db' = transactions db ++ [t].
Proof. intros [|]; auto. Qed.

(** ** Transaction bodies keep the money in order *)

Lemma applyTx_money now entry : is_int64 (e_amount entry) -> txinv money_ok (applyTx (Q := Q) now entry).
Proof. intros Ha db t db' Hok Hr. eapply applied_money; [done|done|by eapply applyTx_ok]. Qed.

Lemma txinv_fails_map {A} (P : Cloud Q -> Prop) (m : tx (Cloud Q) cerr A) (f : cerr -> cerr) :
  txinv P m -> txinv P (fun db => match m db with (Err e, db') => (Err (f e), db') | r => r end).
Proof. intros Hm db a db' HP. destruct (m db) as [[x|e] db1] eqn:M; [intros [= <- <-]; by eapply Hm|discriminate]. Qed.

Lemma unless_duplicate_inv (P : Cloud Q -> Prop) (m : tx (Cloud Q) cerr unit) :
  txinv P m -> (forall db e db', m db = (Err e, db') -> db' = db) -> txinv P (unless_duplicate m).
Proof.
  intros Hm Hs db a db' HP. unfold unless_duplicate. destruct (m db) as [[x|e] db1] eqn:M.
  - intros [= <- <-]. by eapply Hm.
  - rewrite (Hs _ _ _ M). destruct (IsDuplicate e); [by intros [= <- <-]|discriminate].
Qed.

Lemma insert_usage_err u db e db' : insert_usage (Q := Q) u db = (Err e, db') -> db' = db.
Proof. unfold insert_usage, tx_bind, tx_get. destruct (sql_exists _ _); [by intros [= _ <-]|discriminate]. Qed.

End Wallet.

(** Walks through a transaction body; [leaf] closes the statements. *)
Ltac tx_walk leaf :=
  repeat match goal with
  | |- txinv _ (tx_bind _ _) => apply txinv_bind; [|intros ?]
  | |- txinv _ (tx_ret _) => apply txinv_ret
  | |- txinv _ (tx_fail _) => apply txinv_fail
  | |- txinv _ tx_get => apply txinv_get
  | |- txinv _ (tx_lift _) => apply txinv_lift
  | |- txinv _ (if ?b then _ else _) => destruct b
  | |- txinv _ (match ?o with _ => _ end) => destruct o
  | |- txinv _ (let _ := _ in _) => cbv zeta
  | |- txinv _ (or_insufficient _) => apply txinv_fails_map
  | |- txinv _ (or_cannot_pay _) => apply (txinv_fails_map _ _ (fun e => if is_insufficient e then CannotPay else e))
  | _ => leaf
  end.

(** The rows a registration adds. *)
Definition registered {Q : Type} (id now : Z) (user : User) (db : Cloud Q) : Cloud Q :=
  with_counters next_user (with_users (fun l => l ++ [user]) (with_wallets (fun l => l ++ [mkWallet id 0 now]) db)).

(** A property of the tables that follows the money: it survives every change
    of other tables, every balance change and every registration. *)
Class FollowsMoney {Q : Type} `{Collation} (P : Cloud Q -> Prop) : Prop := {
  fm_same : forall db db', same_money db db' -> P db -> P db';
  fm_apply : forall now entry, is_int64 (e_amount entry) -> txinv P (applyTx now entry);
  fm_register : forall id now user db, id = n_user (counters db) + 1 ->
    sql_exists (fun w => w_User w =? id) (wallets db) = false -> P db -> P (registered id now user db) }.

Lemma modify_money {Q : Type} `{Collation} (P : Cloud Q -> Prop) `{!FollowsMoney P} (f : Cloud Q -> Cloud Q) :
  (forall db, same_money db (f db)) -> txinv P (tx_modify (E := cerr) f).
Proof. intros Hf. apply txinv_modify. intros db. by apply fm_same. Qed.

Ltac money_leaf := first [apply modify_money; [assumption|intros; repeat split] | apply fm_apply].

Section Money.
Context {Q : Type} `{Collation} `{CommandQueue Q} `{ApplicationRules} (options : Options).
Context (P : Cloud Q -> Prop) `{!FollowsMoney P}.

Lemma in_queue_money {A} (m : tx Q qerr A) : txinv P (in_queue (Q := Q) m).
Proof.
  intros db a db' Hok. unfold in_queue. destruct (m (queue db)) as [[x|e] q]; [|discriminate].
  intros [= <- <-]. eapply fm_same; [|exact Hok]. by repeat split.
Qed.

Lemma insert_usage_money u : txinv P (insert_usage (Q := Q) u).
Proof. unfold insert_usage. tx_walk money_leaf. Qed.

Lemma insert_project_money p : txinv P (insert_project (Q := Q) p).
Proof. unfold insert_project. tx_walk money_leaf. Qed.

Lemma lockPendingOrder_money id : txinv P (lockPendingOrder (Q := Q) id).
Proof. unfold lockPendingOrder. tx_walk money_leaf. Qed.

Lemma confirm_money env reviewer orderID target serverID :
  txinv P (confirm_tx (Q := Q) options env reviewer orderID target serverID).
Proof.
  unfold confirm_tx. tx_walk ltac:(first [apply lockPendingOrder_money | apply insert_project_money
    | apply insert_usage_money | apply in_queue_money | money_leaf]). apply int64_range.
Qed.

Lemma transition_money env id succeeded : txinv P (transition_tx (Q := Q) env id succeeded).
Proof.
  unfold transition_tx. apply txinv_bind; [apply txinv_get|]. intros db0.
  destruct (sql_first _ (projects db0)) as [p|]; [|apply txinv_ret].
  destruct (sql_first _ (items db0)) as [item|]; [|apply txinv_ret].
  destruct (negb _); [apply txinv_ret|]. cbv zeta. destruct succeeded; [tx_walk money_leaf|].
  do 3 (apply txinv_bind; [apply modify_money; [done|intros; by repeat split]|intros _]).
  apply txinv_bind; [apply txinv_get|]. intros db.
  intros db1 a db2 Hok. rewrite lift_bind. unfold scan_int64. destruct (_ && _) eqn:F; [|discriminate].
  destruct (_ <=? 0); [by intros [= _ <-]|]. unfold tx_bind.
  destruct (applyTx _ _ db1) as [[t|] db3] eqn:A; [|discriminate]. intros [= _ <-].
  eapply fm_apply; [|exact Hok|exact A]. unfold is_int64. cbn [e_amount]. lia.
Qed.

Lemma chargeHour_money env p h : txinv P (chargeHour_tx (Q := Q) env p h).
Proof.
  unfold chargeHour_tx. tx_walk ltac:(first [apply unless_duplicate_inv; [apply insert_usage_money|apply insert_usage_err]
    | money_leaf]). apply int64_range.
Qed.

Lemma insert_lines_money id start ls : txinv P (insert_lines (Q := Q) id start ls).
Proof. induction ls as [|[[p hours] amount] ls IH]; simpl; tx_walk ltac:(first [apply IH|money_leaf]). Qed.

Lemma issueInvoice_money now u start stop pe : txinv P (issueInvoice_tx (Q := Q) options now u start stop pe).
Proof. unfold issueInvoice_tx. tx_walk ltac:(first [apply insert_lines_money|money_leaf]). Qed.

Lemma WithTx_money {A} vs (fn : tx (Cloud Q) cerr A) : txinv P fn -> forall db, P db -> P (snd (WithTx vs fn db)).
Proof. intros Hf db Hok. destruct (WithTx vs fn db) as [r db'] eqn:W. by eapply WithTx_inv. Qed.

Lemma switch_money code prov id from f db : P db -> P (snd (switch_project (Q := Q) code prov id from f db)).
Proof.
  intros Hok. unfold switch_project. destruct code; [done|]. destruct (sql_first _ _) as [p|]; [|done]. cbv zeta.
  destruct prov as [act|]; [destruct (act _ _) as [ok q]|]; simpl; (eapply fm_same; [|exact Hok]); by repeat split.
Qed.

Lemma bill_hours_money benv current p left h r db :
  P db -> P (snd (bill_hours (Q := Q) benv current p left h r db)).
Proof.
  revert h r db. induction left as [|left IH]; intros h r db Hok; simpl; [done|]. destruct (h >? current); [done|].
  pose proof (WithTx_money (c_verdicts (b_env benv (p_ID p) h)) _ (chargeHour_money (b_env benv (p_ID p) h) p h) db Hok) as Hc.
  unfold chargeHour. destruct (WithTx _ _ db) as [[[amount|]|e] db1]; cbn [snd] in Hc; [by apply IH|by apply IH|].
  destruct e; try done.
  pose proof (switch_money (b_update benv (p_ID p)) (b_suspend benv) (p_ID p) ProjectActive
    (fun x => set_suspended (Some (timestamp_of (c_now (b_env benv (p_ID p) h))))
       (set_project ProjectSuspended (timestamp_of (c_now (b_env benv (p_ID p) h))) x)) db1 Hc) as Hs.
  unfold suspend. by destruct (switch_project _ _ _ _ _ db1) as [out db2].
Qed.

Lemma bill_projects_money benv current ps r db :
  P db -> P (snd (bill_projects (Q := Q) benv current ps r db)).
Proof.
  revert r db. induction ps as [|[p last] ps IH]; intros r db Hok; [done|]. cbn [bill_projects].
  pose proof (bill_hours_money benv current p maxHoursPerRun (first_hour p last) r db Hok) as Hb.
  destruct (bill_hours _ _ _ _ _ _ _) as [r1 db1]. by apply IH.
Qed.

Lemma resume_money benv balance ps n db :
  P db -> P (snd (resume_projects (Q := Q) options benv balance ps n db)).
Proof.
  revert n db. induction ps as [|p ps IH]; intros n db Hok; simpl; [done|]. destruct (balance <? _); [by apply IH|].
  unfold tx_bind.
  pose proof (switch_money (b_update benv (p_ID p)) (b_resume benv) (p_ID p) ProjectSuspended
    (fun x => set_resumed (timestamp_of (b_now benv)) (set_suspended None (set_project ProjectActive (timestamp_of (b_now benv)) x)))
    db Hok) as Hs.
  destruct (switch_project _ _ _ _ _ db) as [[b|e] db1]; [by apply IH|done].
Qed.

Lemma ResumeFunded_money benv u db : P db -> P (snd (ResumeFundedProjects (Q := Q) options benv u db)).
Proof.
  intros Hok. unfold ResumeFundedProjects, tx_bind, tx_get. destruct (order_by _ _); [done|].
  destruct (wallet_of u db); [by apply resume_money|done].
Qed.

Lemma issue_all_money env start stop pe us n db :
  P db -> P (snd (issue_all (Q := Q) options env start stop pe us n db)).
Proof.
  revert n db. induction us as [|u us IH]; intros n db Hok; simpl; [done|]. unfold tx_bind.
  pose proof (WithTx_money (c_verdicts (env u)) _ (issueInvoice_money (c_now (env u)) u start stop pe) db Hok) as Hi.
  destruct (WithTx _ _ db) as [[b|e] db1]; [by apply IH|done].
Qed.

Lemma register_money now email name password hash vs db :
  P db -> P (snd (Register (Q := Q) now vs email name password hash db)).
Proof.
  intros Hok. unfold Register. destruct email as [email|]; [|done]. cbv zeta. destruct (_ || _); [done|].
  destruct (_ || _); [done|]. destruct (negb hash); [done|]. apply WithTx_money; [|done].
  intros d a d' Hd. rewrite get_bind. destruct (sql_exists (fun u => ceq _ _) _); [discriminate|].
  cbv zeta. destruct (sql_exists _ _) eqn:X; [discriminate|]. intros [= _ <-].
  by apply (fm_register (n_user (counters d) + 1) (timestamp_of now)).
Qed.

(** ** Every call *)

Inductive cloud_call :=
| KRegister (now : Z) (vs : list verdict) (email : option string) (name password : string) (hash : bool)
| KTopUp (env : CloudEnv Q) (benv : BillingEnv) (user amount : Z) (key : string)
| KAdjust (now : Z) (vs : list verdict) (admin : User) (user amount : Z) (reason key : string)
| KPlaceOrder (env : CloudEnv Q) (user : Z) (input : OrderInput)
| KCancelOrder (env : CloudEnv Q) (user order : Z)
| KRejectOrder (env : CloudEnv Q) (reviewer : User) (order : Z) (reason : string)
| KConfirmOrder (env : CloudEnv Q) (reviewer : User) (order : Z) (target : ProvisionTarget)
| KTransition (env : CloudEnv Q) (command : Command)
| KRunBilling (benv : BillingEnv)
| KIssueInvoices (env : Z -> CloudEnv Q) (month : Z)
| KQueue (q : Q).     (* the command ledger moves on its own *)

Definition cloud_exec (c : cloud_call) (db : Cloud Q) : Cloud Q :=
  match c with
  | KRegister now vs email name password hash => snd (Register now vs email name password hash db)
  | KTopUp env benv user amount key => snd (TopUp options env benv user amount key db)
  | KAdjust now vs admin user amount reason key => snd (Adjust now vs admin user amount reason key db)
  | KPlaceOrder env user input => snd (PlaceOrder env user input db)
  | KCancelOrder env user order => snd (CancelOrder env user order db)
  | KRejectOrder env reviewer order reason => snd (RejectOrder env reviewer order reason db)
  | KConfirmOrder env reviewer order target => snd (ConfirmOrder options env reviewer order target db)
  | KTransition env command => snd (OnCommandTransition env command db)
  | KRunBilling benv => snd (RunBilling benv db)
  | KIssueInvoices env month => snd (IssueInvoices options env month db)
  | KQueue q => with_cloud_queue q db
  end.

(** Amounts of a call are [int64] values, as their Go type says. *)
Definition int64_call (c : cloud_call) : Prop :=
  match c with KTopUp _ _ _ amount _ | KAdjust _ _ _ _ amount _ _ => is_int64 amount | _ => True end.

Definition cloud_run (cs : list cloud_call) (db : Cloud Q) : Cloud Q := fold_left (fun db c => cloud_exec c db) cs db.

Lemma TopUp_money env benv u amount key db :
  is_int64 amount -> P db -> P (snd (TopUp (Q := Q) options env benv u amount key db)).
Proof.
  intros Ha Hok. unfold TopUp. destruct (_ || _); [done|]. cbv zeta. destruct (_ || _); [done|]. unfold tx_bind.
  pose proof (WithTx_money (c_verdicts env) _ (fm_apply (c_apply_now env)
    (mkEntry amount 0 "Wallet top-up" (TrimSpace key) KindTopUp 0 "" u) Ha) db Hok) as Hm.
  destruct (WithTx _ _ db) as [[t|e] db1]; [|done]. cbn [snd] in Hm.
  pose proof (ResumeFunded_money benv u db1 Hm) as Hr. by destruct (ResumeFundedProjects _ _ _ db1).
Qed.

Lemma PlaceOrder_money env u input db : P db -> P (snd (PlaceOrder (Q := Q) env u input db)).
Proof.
  intros Hok. unfold PlaceOrder. rewrite get_bind. destruct (c_reads env 0); [done|]. destruct (PlanByCode _ _) as [plan|]; [|done].
  destruct (negb _); [done|]. rewrite lift_bind. destruct (ApplicationSpec _ _ _ _ _) as [spec|]; [|done].
  cbv zeta. destruct (_ >? 500); [done|]. unfold Order. rewrite then_read. apply WithTx_money; [|done].
  unfold nameAvailableTx. tx_walk money_leaf.
Qed.

Lemma ConfirmOrder_money env reviewer o target db :
  P db -> P (snd (ConfirmOrder (Q := Q) options env reviewer o target db)).
Proof.
  intros Hok. unfold ConfirmOrder. destruct (negb _); [done|]. cbv zeta. destruct (_ =? "")%string; [done|]. unfold tx_bind at 1.
  pose proof (WithTx_money (c_verdicts env) _ (confirm_money env reviewer o target (TrimSpace (pt_ServerID target))) db Hok) as Hm.
  destruct (WithTx _ _ db) as [[[[pid c] ids]|e] db1]; [|done]. rewrite confirm_reads. eapply fm_same; [|exact Hm]. by repeat split.
Qed.

Lemma cloud_exec_money c db : int64_call c -> P db -> P (cloud_exec c db).
Proof.
  intros Hi Hok. destruct c; cbn [cloud_exec].
  - by apply register_money.
  - by apply TopUp_money.
  - unfold Adjust. destruct (negb _); [done|]. cbv zeta. destruct (_ || _); [done|]. apply WithTx_money; [by apply fm_apply|done].
  - by apply PlaceOrder_money.
  - unfold CancelOrder, Order. rewrite then_read. apply WithTx_money; [|done]. tx_walk money_leaf.
  - unfold RejectOrder. destruct (negb _); [done|]. cbv zeta. destruct (_ || _); [done|]. unfold Order. rewrite then_read. apply WithTx_money; [|done].
    tx_walk ltac:(first [apply lockPendingOrder_money|money_leaf]).
  - by apply ConfirmOrder_money.
  - unfold OnCommandTransition. destruct (outcome_of _); [|done]. apply WithTx_money; [apply transition_money|done].
  - unfold RunBilling. by apply bill_projects_money.
  - unfold IssueInvoices. unfold tx_bind, tx_get. by apply issue_all_money.
  - eapply fm_same; [|exact Hok]. by repeat split.
Qed.

Lemma cloud_run_money cs db : Forall int64_call cs -> P db -> P (cloud_run cs db).
Proof.
  intros Hc. revert db. induction Hc as [|c cs Hi _ IH]; intros db Hok; [done|]. simpl. by apply IH, cloud_exec_money.
Qed.

End Money.

(** ** The instances *)

Section Instances.
Context {Q : Type} `{Collation}.

Lemma register_ok id now user (db : Cloud Q) :
  id = n_user (counters db) + 1 -> money_ok db -> money_ok (registered id now user db).
Proof.
  intros -> Hd.
  assert (~ In (n_user (counters db) + 1) (map w_User (wallets db))) as Hnew.
  { intros (w & E & Hw)%in_map_iff. pose proof (m_users _ Hd w Hw). lia. }
  split; simpl.
  - rewrite map_app. apply NoDup_app. split; [apply Hd|]. split; [|apply NoDup_singleton].
    intros x Hx ->%list_elem_of_singleton. simpl in Hx. apply Hnew. by apply list_elem_of_In.
  - intros w [Hw|[<-|[]]]%in_app_or; [by apply Hd|]. simpl. split; [unfold two63; lia|]. symmetry.
    rewrite (sql_sum_ext _ (fun _ => false) _ t_Amount).
    + clear. induction (transactions db) as [|t l IH]; [done|]. rewrite sql_sum_cons. lia.
    + intros t Ht. unfold of_user. destruct (t_User t =? _) eqn:E; [|done]. destruct Hnew.
      replace (n_user (counters db) + 1) with (t_User t) by lia. by apply (m_owners _ Hd).
    + done.
  - intros t Ht. rewrite map_app. apply in_or_app. left. by apply (m_owners _ Hd).
  - apply Hd.
  - apply Hd.
  - intros w [Hw|[<-|[]]]%in_app_or; [pose proof (m_users _ Hd w Hw); lia|simpl; lia].
Qed.

#[export] Instance money_follows : FollowsMoney (Q := Q) money_ok.
Proof.
  split.
  - intros db db'. apply same_money_ok.
  - intros now entry. apply applyTx_money.
  - intros id now user db E _. by apply register_ok.
Qed.

(** The ledger so far is a prefix of the ledger. *)
Definition extends (old : list Transaction) (db : Cloud Q) : Prop := exists news, transactions db = old ++ news.

#[export] Instance ledger_follows old : FollowsMoney (extends old).
Proof.
  split.
  - intros db db' (_ & E & _) [news En]. exists news. congruence.
  - intros now entry _ db t db' [news En] Ha%applyTx_ok%applied_appends.
    unfold extends. destruct Ha as [->| ->]; [by exists news|]. exists (news ++ [t]). by rewrite En, app_assoc.
  - intros id now user db _ _ [news En]. by exists news.
Qed.

(** Resuming projects moves no money. *)

Context `{CommandQueue Q} (options : Options).

Lemma switch_same code prov id from f (db : Cloud Q) : same_money db (snd (switch_project code prov id from f db)).
Proof.
  unfold switch_project. destruct code; [by repeat split|]. destruct (sql_first _ _) as [p|]; [|by repeat split]. cbv zeta.
  destruct prov as [act|]; [destruct (act _ _) as [ok q]|]; by repeat split.
Qed.

Lemma same_money_trans (a b c : Cloud Q) : same_money a b -> same_money b c -> same_money a c.
Proof. intros (? & ? & ? & ?) (? & ? & ? & ?). repeat split; congruence. Qed.

Lemma resume_same benv balance ps n (db : Cloud Q) : same_money db (snd (resume_projects options benv balance ps n db)).
Proof.
  revert n db. induction ps as [|p ps IH]; intros n db; simpl; [by repeat split|]. destruct (balance <? _); [apply IH|].
  unfold tx_bind. pose proof (switch_same (b_update benv (p_ID p)) (b_resume benv) (p_ID p) ProjectSuspended
    (fun x => set_resumed (timestamp_of (b_now benv)) (set_suspended None (set_project ProjectActive (timestamp_of (b_now benv)) x)))
    db) as Hs.
  destruct (switch_project _ _ _ _ _ db) as [[b|e] db1]; [|done]. eapply same_money_trans; [exact Hs|apply IH].
Qed.

Lemma ResumeFunded_same benv u (db : Cloud Q) :
  let db' := snd (ResumeFundedProjects options benv u db) in transactions db' = transactions db /\ wallets db' = wallets db.
Proof.
  cbv zeta. unfold ResumeFundedProjects. rewrite get_bind. destruct (order_by _ _) as [|p ps]; [done|].
  destruct (wallet_of u db) as [w|]; [|done]. pose proof (resume_same benv (w_Balance w) (p :: ps) 0 db) as (? & ? & _). done.
Qed.

End Instances.

(** ** Theorems *)

Definition no_rows : Counters := mkCounters 0 0 0 0 0 0 0 0.

(** A database with a catalogue and nothing sold yet. *)
Definition opening {Q : Type} (catalogue : list Plan) (apps : list string) (q : Q) : Cloud Q :=
  mkCloud [] [] catalogue [] [] [] [] [] [] apps [] no_rows q.

Lemma opening_money {Q : Type} catalogue apps (q : Q) : money_ok (opening catalogue apps q).
Proof. split; simpl; try done; constructor. Qed.

Section WalletTheorems.
Context {Q : Type} `{Collation} `{CommandQueue Q} `{ApplicationRules} (options : Options).

(** C4. Money is never lost or made up: after any sequence of registrations,
    top-ups, corrections, orders, confirmations, deployment outcomes, billing
    and invoice runs, every wallet holds exactly the sum of its ledger, within
    the range of its column and never below zero, so the consistency report of
    the admin panel is always positive; and whatever a call does, it only
    appends to the ledger. *)
Theorem balance_is_ledger_sum (catalogue : list Plan) (apps : list string) (q : Q) (cs : list cloud_call) (c : cloud_call) :
  Forall int64_call cs -> int64_call c ->
  let db := cloud_run options cs (opening catalogue apps q) in
  let db' := cloud_exec options c db in
  (forall w, In w (wallets db') -> 0 <= w_Balance w < two63 /\ LedgerConsistent (w_User w) db' = Some true) /\
  exists news, transactions db' = transactions db ++ news.
Proof.
  intros Hcs Hc db db'.
  assert (money_ok db) as Hok by (apply cloud_run_money; [apply _|done|apply opening_money]).
  assert (money_ok db') as Hok' by (apply cloud_exec_money; [apply _|done|done]).
  split.
  - intros w Hw. destruct (m_balances _ Hok' w Hw) as [Hb Hs]. split; [done|]. unfold LedgerConsistent.
    assert (wallet_of (w_User w) db' = Some w) as ->.
    { apply sql_first_unique; [done|lia|]. intros x Hx Ex. apply (wallet_unique db'); [apply Hok'|done|done|lia]. }
    simpl. f_equal. unfold of_user in Hs. lia.
  - clear Hok Hok'. clearbody db. subst db'.
    assert (Hx : extends (transactions db) (cloud_exec options c db)); [|exact Hx].
    apply cloud_exec_money; [apply _|done|]. exists []. by rewrite app_nil_r.
Qed.

End WalletTheorems.
