(* ===== verification/CloudOrders.v ===== *)
(** * Properties of orders and payments

    Confirming an order is a transactional outbox: the charge, the project and
    the queued deployment appear together or not at all; the outcome of the
    deployment settles the order once; a repeated top-up credits once. *)

From Stdlib Require Import ZArith Lia Bool Ascii String.
From stdpp Require Import base tactics list strings.
From S2P Require Import Prelude GoStrings GoTime Sqlstore Ledger Cloud CloudOps CloudWallet.

Local Open Scope string_scope.
Local Open Scope list_scope.
Local Open Scope bool_scope.
Local Open Scope Z_scope.

Section Orders.
Context {Q : Type} `{Collation} `{CommandQueue Q} `{ApplicationRules} (options : Options).
Implicit Types db : Cloud Q.

(** ** Single statements *)

Lemma lockPendingOrder_ok id db u db' :
  lockPendingOrder id db = (Ok u, db') ->
  db' = db /\ exists o, In o (orders db) /\ o_ID o = id /\ o_Status o = OrderPending /\ o_User o = u.
Proof.
  unfold lockPendingOrder. rewrite get_bind. destruct (sql_first _ _) as [o|] eqn:F; [|discriminate].
  apply sql_first_Some in F as [Hin Hid]. unfold order_is in Hid.
  destruct (bool_decide (o_Status o = OrderPending)) eqn:S; cbn [negb]; [|discriminate]. intros [= <- <-].
  apply bool_decide_eq_true in S. split; [done|]. exists o. split; [done|]. split; [lia|done].
Qed.

Lemma insert_project_ok p db u db' :
  insert_project p db = (Ok u, db') ->
  db' = with_counters next_project (with_projects (fun l => l ++ [p]) db) /\
  (forall x, In x (projects db) -> p_Item x <> p_Item p).
Proof.
  unfold insert_project. rewrite get_bind.
  destruct (sql_exists (fun x => ceq (p_AppName x) (p_AppName p)) (projects db)); [discriminate|].
  destruct (sql_exists (fun x => p_Item x =? p_Item p) (projects db)) eqn:X; [discriminate|]. intros [= _ <-]. split; [done|].
  intros x Hx E. pose proof (sql_exists_false _ _ x X Hx) as Y. cbv beta in Y. lia.
Qed.

Lemma insert_usage_ok u db x db' :
  insert_usage (Q := Q) u db = (Ok x, db') ->
  db' = with_counters next_usage (with_usage (fun l => l ++ [u]) db) /\
  (forall v, In v (usage db) -> (u_Project v, u_Period v) <> (u_Project u, u_Period u)).
Proof.
  unfold insert_usage. rewrite get_bind. destruct (sql_exists _ _) eqn:X; [discriminate|]. intros [= _ <-].
  split; [done|]. intros v Hv [= E1 E2]. pose proof (sql_exists_false _ _ v X Hv) as Y. cbv beta in Y. lia.
Qed.

Lemma in_queue_ok {A} (m : tx Q qerr A) db a db' :
  in_queue m db = (Ok a, db') -> exists q, m (queue db) = (Ok a, q) /\ db' = with_cloud_queue q db.
Proof. unfold in_queue. destruct (m (queue db)) as [[x|e] q]; [|discriminate]. intros [= <- <-]. eauto. Qed.

(** A balance change touches nothing but the wallet and its ledger. *)
Lemma applied_rest entry db t db' :
  applied entry db t db' ->
  orders db' = orders db /\ items db' = items db /\ plans db' = plans db /\ projects db' = projects db /\ usage db' = usage db /\
  invoices db' = invoices db /\ queue db' = queue db /\
  (n_project (counters db'), n_usage (counters db')) = (n_project (counters db), n_usage (counters db)).
Proof. by intros [|]. Qed.

Lemma applied_row entry db t db' :
  applied entry db t db' ->
  In t (transactions db') /\ t_Kind t = e_kind entry /\ t_Amount t = e_amount entry /\ t_User t = e_userID entry.
Proof.
  intros [x Hk Hf Hki Ham|w next now Hw Hz En Hn Hk row].
  - unfold transactionByKey in Hf. apply sql_first_Some in Hf as [Hin Hb]. split; [done|]. split; [done|]. split; [done|].
    unfold with_key in Hb. lia.
  - split; [|done]. simpl. apply in_or_app. right. by left.
Qed.

(** Without an earlier row under the key, the change is applied to the balance. *)
Lemma applied_fresh entry db t db' w :
  money_ok db -> is_int64 (e_amount entry) -> applied entry db t db' -> wallet_of (e_userID entry) db = Some w ->
  transactionByKey (e_userID entry) (e_idempotencyKey entry) db = None ->
  transactions db' = transactions db ++ [t] /\
  option_map w_Balance (wallet_of (e_userID entry) db') = Some (w_Balance w + e_amount entry).
Proof.
  intros Hok Ha Happ Hw Hnone. pose proof (applied_money _ _ _ _ Hok Ha Happ) as Hok'.
  destruct Happ as [x Hk Hf|w0 next now Hw0 Hz En Hn Hk row]; [congruence|].
  assert (w0 = w) as -> by congruence. split; [done|].
  destruct (wallet_of_Some _ _ _ Hw) as [Hin Hu]. destruct (m_balances _ Hok w Hin) as [Hb _].
  assert (wallet_of (e_userID entry) (with_wallets (sql_update (fun w => w_User w =? e_userID entry)
      (fun w => mkWallet (w_User w) next now)) (with_counters next_txn (with_transactions (fun l => l ++ [row]) db)))
    = Some (mkWallet (w_User w) next now)) as ->.
  { apply sql_first_unique.
    - apply sql_update_In. exists w. split; [done|]. by replace (w_User w =? e_userID entry) with true by lia.
    - simpl. lia.
    - intros x Hx Ex. apply (wallet_unique _ _ _ (m_wallets _ Hok') Hx); [|simpl; lia].
      apply sql_update_In. exists w. split; [done|]. by replace (w_User w =? e_userID entry) with true by lia. }
  simpl. f_equal. rewrite En. apply next_exact; [done|done|]. by rewrite <- En.
Qed.

(** ** Confirmation *)

(** What a confirmed order has become. *)
Record confirmed (orderID : Z) (reviewer : User) (target : ProvisionTarget) (db : Cloud Q) (pid : Z) (c : Command)
    (db' : Cloud Q) : Prop := {
  cf_order : exists o item charge w,
    In o (orders db) /\ o_ID o = orderID /\ o_Status o = OrderPending /\ In item (items db) /\ i_Order item = orderID /\
    wallet_of (o_User o) db = Some w /\ int64_of (i_Hourly item * ReserveHours options) <= w_Balance w /\
    (exists o', In o' (orders db') /\ o_ID o' = orderID /\ o_Status o' = OrderProvisioning /\ o_Upfront o' = i_Hourly item) /\
    (exists p, In p (projects db') /\ p_ID p = pid /\ p_User p = o_User o /\ p_Status p = ProjectProvisioning /\
       p_Command p = Some (ID c) /\ p_Item p = i_ID item /\ p_Hourly p = i_Hourly item /\ p_Monthly p = i_Monthly item) /\
    (exists u, In u (usage db') /\ u_Project u = pid /\ u_Amount u = i_Hourly item /\ u_Transaction u = Some (t_ID charge)) /\
    In charge (transactions db') /\ t_Kind charge = KindOrderCharge /\ t_User charge = o_User o /\
    t_Amount charge = int64_of (- i_Hourly item) /\
    (transactionByKey (o_User o) ("order-charge-" ++ decimal orderID) db = None ->
       transactions db' = transactions db ++ [charge] /\
       option_map w_Balance (wallet_of (o_User o) db') = Some (w_Balance w + int64_of (- i_Hourly item)));
  cf_queue : queue_holds (queue db') c /\ Action c = DeployAction /\ ServerID c = TrimSpace (TrimSpace (pt_ServerID target)) }.

Lemma confirm_ok env reviewer orderID target server db pid c ids db' :
  confirm_tx options env reviewer orderID target server db = (Ok (pid, c, ids), db') ->
  exists o item charge w db1 spec sub q,
    In o (orders db) /\ o_ID o = orderID /\ o_Status o = OrderPending /\ In item (items db) /\ i_Order item = orderID /\
    wallet_of (o_User o) db = Some w /\ int64_of (i_Hourly item * ReserveHours options) <= w_Balance w /\
    applied (mkEntry (int64_of (- i_Hourly item)) 0 ("First hour of " ++ i_AppName item)%string
      ("order-charge-" ++ decimal orderID)%string KindOrderCharge orderID "order" (o_User o)) db charge db1 /\
    pid = n_project (counters db1) + 1 /\ c = sub_Command sub /\
    queue_SubmitInTx (c_queue env) (deploy_input reviewer target server orderID spec) (queue db1) = (Ok (sub, ids), q) /\
    let now := timestamp_of (c_now env) in
    let p := mkProject pid (o_User o) (i_ID item) (i_Plan item) (i_AppName item) ProjectProvisioning server None
               (i_Hourly item) (i_Monthly item) now None None None now in
    let u := mkUsage (n_usage (counters db1) + 1) pid (truncate hour now) (i_Hourly item) (Some (t_ID charge)) None now in
    orders db' = sql_update (order_is orderID) (confirm_order (us_ID reviewer) (i_Hourly item) now) (orders db1) /\
    projects db' = sql_update (project_is pid) (set_command_id (ID c)) (projects db1 ++ [p]) /\
    usage db' = usage db1 ++ [u] /\ wallets db' = wallets db1 /\ transactions db' = transactions db1 /\ queue db' = q /\
    items db' = items db1 /\ plans db' = plans db1 /\ n_project (counters db') = n_project (counters db1) + 1 /\
    (forall v, In v (usage db1) -> (u_Project v, u_Period v) <> (u_Project u, u_Period u)).
Proof.
  unfold confirm_tx. unfold tx_bind at 1. destruct (lockPendingOrder orderID db) as [[u|] db0] eqn:L; [|discriminate].
  apply lockPendingOrder_ok in L as (-> & o & Ho & Hid & Hst & <-). rewrite get_bind.
  destruct (head _) as [item|] eqn:Hit; [|discriminate]. destruct (sql_first _ (plans db)) as [plan|]; [|discriminate].
  rewrite lift_bind. destruct (ApplicationSpec _ _ _ _ _) as [spec|] eqn:Sp; [|discriminate].
  destruct (wallet_of (o_User o) db) as [w|] eqn:W; [|discriminate]. cbv zeta.
  destruct (w_Balance w <? _) eqn:B; [discriminate|]. unfold tx_bind at 1.
  destruct (applyTx _ _ db) as [[charge|] db1] eqn:A; [|discriminate]. apply applyTx_ok in A. rewrite get_bind.
  unfold tx_bind at 1. destruct (insert_project _ db1) as [[[]|] db2] eqn:IP; [|discriminate].
  apply insert_project_ok in IP as [-> _]. unfold tx_bind at 1.
  destruct (insert_usage _ _) as [[[]|] db3] eqn:IU; [|discriminate]. apply insert_usage_ok in IU as [-> Huniq].
  unfold tx_bind at 1. destruct (in_queue _ _) as [[[sub forget]|] db4] eqn:IQ; [|discriminate].
  apply in_queue_ok in IQ as (q & Sub & ->). intros [= <- <- <- <-].
  assert (In item (items db) /\ i_Order item = orderID) as [Hitem Hord].
  { destruct (order_by _ _) as [|x rest] eqn:O; [discriminate|]. injection Hit as <-. apply order_by_head in O as [Hin _].
    apply sql_where_In in Hin as [Hin E]. split; [done|lia]. }
  exists o, item, charge, w, db1, spec, sub, q.
  split; [done|]. split; [done|]. split; [done|]. split; [done|]. split; [done|]. split; [done|]. split; [lia|].
  split; [exact A|]. split; [done|]. split; [done|]. split; [exact Sub|]. simpl. done.
Qed.

(** The whole of a confirmation: who made it, and what it left. *)
Definition confirmation (orderID : Z) (reviewer : User) (target : ProvisionTarget) (db : Cloud Q) (pid : Z) (c : Command)
    (db' : Cloud Q) : Prop :=
  us_Role reviewer = RoleAdmin /\ money_ok db' /\ queue_ok (queue db') /\ confirmed orderID reviewer target db pid c db'.

Lemma confirm_tx_confirmed env reviewer orderID target db pid c ids db1 :
  money_ok db -> queue_ok (queue db) -> us_Role reviewer = RoleAdmin ->
  confirm_tx options env reviewer orderID target (TrimSpace (pt_ServerID target)) db = (Ok (pid, c, ids), db1) ->
  confirmation orderID reviewer target db pid c db1.
Proof.
  intros Hok Hq R W. pose proof (confirm_money options money_ok _ _ _ _ _ _ _ _ Hok W) as Hok1.
  destruct (confirm_ok _ _ _ _ _ _ _ _ _ _ W) as (o & item & charge & w & db0 & spec & sub & q & Ho & Hid & Hst & Hit &
    Hord & Hw & Hres & Happ & Epid & Ec & Sub & Eo & Ep & Eu & Ew & Et & Eq & _).
  destruct (applied_rest _ _ _ _ Happ) as (Ro & Ri & Rp & Rpr & Ru & Rv & Rq & Rn).
  rewrite Rq in Sub. destruct (queue_accepts _ _ _ _ _ _ Hq Sub) as (Hq' & Hh & Hac & Hsv & _).
  split; [done|]. split; [done|]. rewrite Eq. split; [done|]. split.
  - exists o, item, charge, w. do 7 (split; [done|]). split; [|split; [|split]].
    + exists (confirm_order (us_ID reviewer) (i_Hourly item) (timestamp_of (c_now env)) o). split; [|done]. rewrite Eo, Ro.
      apply sql_update_In. exists o. split; [done|]. unfold order_is. by rewrite Hid, Z.eqb_refl.
    + eexists. split; [rewrite Ep; apply sql_update_In; eexists; split; [apply in_or_app; right; left; reflexivity|reflexivity]|].
      unfold project_is. cbn [p_ID]. rewrite Z.eqb_refl. by rewrite Ec.
    + eexists. split; [rewrite Eu; apply in_or_app; right; left; reflexivity|]. done.
    + destruct (applied_row _ _ _ _ Happ) as (Hin & Hki & Ham & Hus). rewrite Et.
      split; [done|]. split; [done|]. split; [done|]. split; [done|]. intros Hnone.
      destruct (applied_fresh _ _ _ _ w Hok (int64_range (- i_Hourly item) : is_int64 (e_amount (mkEntry _ _ _ _ _ _ _ _)))
        Happ Hw Hnone) as [Htx Hbal]. split; [done|].
      unfold wallet_of in *. simpl in *. by rewrite Ew.
  - rewrite Eq, Ec. split; [done|]. by rewrite Hac, Hsv.
Qed.

(** Removing input files of superseded commands keeps it. *)
Lemma confirmation_forgets orderID reviewer target db pid c ids db1 :
  confirmation orderID reviewer target db pid c db1 ->
  confirmation orderID reviewer target db pid c (with_cloud_queue (queue_ForgetInputs ids (queue db1)) db1).
Proof.
  intros (R & Hok & Hq & [Ho (Hh & Ha & Hs)]). destruct (queue_forgets ids _ Hq) as [Hq' Hh'].
  split; [done|]. split; [eapply fm_same; [|exact Hok]; by repeat split|]. split; [done|].
  split; [exact Ho|]. split; [by apply Hh'|done].
Qed.

Lemma sql_first_exists {A : Type} (p : A -> bool) l x : In x l -> p x = true -> sql_first p l <> None.
Proof. intros Hin Hp Hn. pose proof (sql_first_None _ _ x Hn Hin). congruence. Qed.

Lemma confirmation_readable orderID reviewer target db pid c db1 :
  confirmation orderID reviewer target db pid c db1 ->
  sql_first (order_is orderID) (orders db1) <> None /\ sql_first (project_is pid) (projects db1) <> None.
Proof.
  intros (_ & _ & _ & [(o & item & charge & w & _ & _ & _ & _ & _ & _ & _ & (o' & Ho & Hid & _) & (p & Hp & Hpid & _) & _) _]).
  split; eapply sql_first_exists; [exact Ho|unfold order_is; lia|exact Hp|unfold project_is; lia].
Qed.

(** C6. Paying and deploying are one step.  Whatever confirming an order reports,
    every table and the command queue are exactly as they were, or it was made
    by an administrator on a pending order whose wallet held the reserve, and
    the order, its project, the usage record of the first hour, the ledger row
    of its charge and the queued deployment command all exist, refer to each
    other, and the wallet has paid exactly the first hour (unless the ledger
    already held this order's charge).  A success is always the latter and
    returns that order and that project.  An error is the former, except that the
    connection may be lost while committing, and that reading the order or the
    project back may fail after the commit. *)
Theorem confirmation_is_an_outbox (env : CloudEnv Q) (reviewer : User) (orderID : Z) (target : ProvisionTarget)
    (db db' : Cloud Q) (r : result cerr (orderRow * projectRow * Command)) :
  money_ok db -> queue_ok (queue db) ->
  ConfirmOrder options env reviewer orderID target db = (r, db') ->
  match r with
  | Ok (order, project, c) => o_ID order = orderID /\ confirmation orderID reviewer target db (p_ID project) c db'
  | Err e =>
      db' = db \/
      (e = CloudConnection \/ c_reads env 0 = Some e \/ c_reads env 1 = Some e) /\
      exists pid c, confirmation orderID reviewer target db pid c db'
  end.
Proof.
  intros Hok Hq Hc. unfold ConfirmOrder in Hc.
  destruct (bool_decide (us_Role reviewer = RoleAdmin)) eqn:R; cbn [negb] in Hc; [|injection Hc as <- <-; by left].
  apply bool_decide_eq_true in R. cbv zeta in Hc. destruct (_ =? "")%string; [injection Hc as <- <-; by left|].
  unfold tx_bind at 1 in Hc. destruct (WithTx _ _ db) as [[[[pid c] ids]|e] db1] eqn:W.
  2:{ injection Hc as <- <-. apply WithTx_err in W as [->|[-> [[[pid c] ids] W]]]; [by left|right].
      split; [by left|]. exists pid, c. by eapply confirm_tx_confirmed. }
  apply WithTx_ok in W. pose proof (confirm_tx_confirmed _ _ _ _ _ _ _ _ _ Hok Hq R W) as Hall.
  apply (confirmation_forgets _ _ _ _ _ _ ids) in Hall. pose proof (confirmation_readable _ _ _ _ _ _ _ Hall) as [Fo Fp].
  unfold tx_bind, tx_modify, Order, Project in Hc. set (db2 := with_cloud_queue _ db1) in *.
  pose proof (read_one_state env 0 (fun db => sql_first (order_is orderID) (orders db)) db2) as Hs1.
  destruct (read_one env 0 _ db2) as [[o|e] d1] eqn:R1; cbn [snd] in Hs1; subst d1.
  2:{ injection Hc as <- <-. right. apply read_one_err in R1; [|exact Fo]. split; [auto|by exists pid, c]. }
  pose proof (read_one_state env 1 (fun db => sql_first (project_is pid) (projects db)) db2) as Hs2.
  destruct (read_one env 1 _ db2) as [[pr|e] d2] eqn:R2; cbn [snd] in Hs2; subst d2; injection Hc as <- <-.
  - apply read_one_ok in R1, R2. apply sql_first_Some in R1 as [_ R1], R2 as [_ R2]. unfold order_is in R1. unfold project_is in R2.
    split; [lia|]. by replace (p_ID pr) with pid by lia.
  - right. apply read_one_err in R2; [|exact Fp]. split; [auto|by exists pid, c].
Qed.

(** ** Top-ups *)

Lemma find_app_some {A : Type} (p : A -> bool) l l' x : sql_first p l = Some x -> sql_first p (l ++ l') = Some x.
Proof. unfold sql_first. induction l as [|y l IH]; simpl; [done|]. destruct (p y); auto. Qed.

Lemma find_app_none {A : Type} (p : A -> bool) l l' : sql_first p l = None -> sql_first p (l ++ l') = sql_first p l'.
Proof. unfold sql_first. induction l as [|y l IH]; simpl; [done|]. destruct (p y); [discriminate|auto]. Qed.

(** After a keyed change its row is what the key finds. *)
Lemma applied_key entry db t db' :
  e_idempotencyKey entry <> "" -> applied entry db t db' ->
  transactionByKey (e_userID entry) (e_idempotencyKey entry) db' = Some t.
Proof.
  intros Hne [x _ Hf|w next now Hw Hz En Hn Hk row]; [done|]. destruct Hk as [|Hk]; [done|].
  unfold transactionByKey in *. simpl. rewrite find_app_none by done. unfold sql_first. simpl. unfold with_key. cbn [t_User t_Key row].
  by rewrite Z.eqb_refl, (proj2 (String.eqb_neq _ _) Hne), ceq_refl.
Qed.

(** A key that is taken changes nothing any more. *)
Lemma applyTx_taken now entry db t r db' :
  e_idempotencyKey entry <> "" -> transactionByKey (e_userID entry) (e_idempotencyKey entry) db = Some t ->
  applyTx now entry db = (r, db') -> db' = db /\ (forall t', r = Ok t' -> t' = t /\ e_amount entry = t_Amount t).
Proof.
  intros Hne Hf. unfold applyTx. destruct (_ =? 0); [by intros [= <- <-]|]. rewrite get_bind.
  destruct (wallet_of _ db) as [w|]; [|by intros [= <- <-]].
  rewrite (proj2 (String.eqb_neq _ _) Hne). cbn [negb]. rewrite Hf.
  destruct (_ || negb (t_Amount t =? _)) eqn:C; [by intros [= <- <-]|]. intros [= <- <-]. split; [done|].
  intros t' [= <-]. apply orb_false_elim in C as [_ C%negb_false_iff]. split; [done|lia].
Qed.

Lemma WithTx_taken vs now entry db t r db' :
  e_idempotencyKey entry <> "" -> transactionByKey (e_userID entry) (e_idempotencyKey entry) db = Some t ->
  WithTx vs (applyTx now entry) db = (r, db') -> db' = db /\ (forall t', r = Ok t' -> t' = t /\ e_amount entry = t_Amount t).
Proof.
  intros Hne Hf W. destruct r as [x|e].
  - apply WithTx_ok in W. by eapply applyTx_taken.
  - split; [|done]. apply WithTx_cases in W as [->|[x W]]; [done|]. by eapply applyTx_taken in W as [-> _].
Qed.

(** A payment callback may be repeated: once a top-up has succeeded, any later
    top-up of that wallet with the same key, whatever else has happened in
    between and whatever amount it names, leaves every wallet and the ledger
    unchanged, and succeeds only by returning the original ledger row. *)
Theorem topup_credits_once (env env2 : CloudEnv Q) (benv benv2 : BillingEnv) (user amount amount2 : Z) (key key2 : string)
    (t : Transaction) (resumed : result cerr Z) (between : list cloud_call) (db db1 db3 : Cloud Q)
    (out : result cerr (Transaction * result cerr Z)) :
  Forall int64_call between ->
  TopUp options env benv user amount key db = (Ok (t, resumed), db1) ->
  let db2 := cloud_run options between db1 in
  TrimSpace key2 = TrimSpace key -> TopUp options env2 benv2 user amount2 key2 db2 = (out, db3) ->
  transactions db3 = transactions db2 /\ wallets db3 = wallets db2 /\
  (forall t' r', out = Ok (t', r') -> t' = t /\ amount2 = t_Amount t).
Proof.
  intros Hb Hfst db2 Hkey Hsnd. unfold TopUp in Hfst. destruct (_ || _) in Hfst; [discriminate|]. cbv zeta in Hfst.
  destruct (TrimSpace key =? "")%string eqn:K; [discriminate|]. apply String.eqb_neq in K. cbn [orb] in Hfst.
  destruct (_ >? 128) in Hfst; [discriminate|]. unfold tx_bind in Hfst.
  destruct (WithTx _ _ db) as [[t1|] d1] eqn:W; [|discriminate]. apply WithTx_ok, applyTx_ok in W.
  apply applied_key in W; [|done]. cbn [e_userID e_idempotencyKey] in W.
  destruct (ResumeFundedProjects options benv user d1) as [rr d2] eqn:R. injection Hfst as -> _ <-.
  assert (transactionByKey user (TrimSpace key) db2 = Some t) as Hf.
  { unfold transactionByKey in *. assert (extends (transactions d1) db2) as [news ->]; [|by apply find_app_some].
    apply cloud_run_money; [apply _|done|]. pose proof (ResumeFunded_money options (extends (transactions d1)) benv user d1) as Hr.
    rewrite R in Hr. apply Hr. exists []. by rewrite app_nil_r. }
  unfold TopUp in Hsnd. destruct (_ || _) in Hsnd; [by injection Hsnd as <- <-|]. cbv zeta in Hsnd. rewrite Hkey in Hsnd.
  destruct (_ || _) in Hsnd; [by injection Hsnd as <- <-|]. unfold tx_bind in Hsnd.
  destruct (WithTx _ _ db2) as [o d3] eqn:W2. apply (WithTx_taken _ _ _ _ t) in W2 as [-> Ho]; [|done..].
  destruct o as [t2|e]; [|by injection Hsnd as <- <-]. destruct (Ho t2 eq_refl) as [-> Ha].
  destruct (ResumeFundedProjects options benv2 user db2) as [rr2 d4] eqn:R2. injection Hsnd as <- <-.
  assert (transactions d4 = transactions db2 /\ wallets d4 = wallets db2) as [-> ->].
  { pose proof (ResumeFunded_same options benv2 user db2) as Hs. by rewrite R2 in Hs. }
  split; [done|]. split; [done|]. intros t' r' [= <- <-]. done.
Qed.

(** ** Deployment outcomes *)

Lemma sql_first_update {A : Type} (p q : A -> bool) (f : A -> A) l :
  (forall x, p (f x) = p x) ->
  sql_first p (sql_update q f l) = option_map (fun x => if q x then f x else x) (sql_first p l).
Proof.
  intros Hf. unfold sql_first, sql_update. induction l as [|x l IH]; simpl; [done|].
  assert (p (if q x then f x else x) = p x) as -> by (destruct (q x); [apply Hf|done]). by destruct (p x).
Qed.

(** The status a finished deployment leaves its project in. *)
Definition settled_status (succeeded : bool) : ProjectStatus := if succeeded then ProjectActive else ProjectFailed.

Lemma transition_projects env id (b : bool) db p item u db1 :
  sql_first (deployed_by id) (projects db) = Some p -> sql_first (fun i => i_ID i =? p_Item p) (items db) = Some item ->
  p_Status p = ProjectProvisioning -> transition_tx env id b db = (Ok u, db1) ->
  let now := timestamp_of (c_now env) in
  projects db1 = sql_update (project_is (p_ID p))
    (if b then fun x => set_activated now (set_project ProjectActive now x) else set_project ProjectFailed now) (projects db) /\
  if b then transactions db1 = transactions db /\ wallets db1 = wallets db /\ usage db1 = usage db
  else usage db1 = sql_delete (uninvoiced_of (p_ID p)) (usage db) /\
    let charged := order_charges (p_User p) (i_Order item) db in
    (charged <= 0 /\ transactions db1 = transactions db /\ wallets db1 = wallets db) \/
    (0 < charged < two63 /\ exists t d d', same_money db d /\ same_money db1 d' /\
       applied (mkEntry charged 0 "Refund: the deployment did not succeed" ("order-refund-" ++ decimal (i_Order item))%string
         KindRefund (i_Order item) "order" (p_User p)) d t d').
Proof.
  intros Hp Hi Hs. unfold transition_tx. rewrite get_bind, Hp, Hi. unfold has_status. rewrite Hs. cbn [negb bool_decide].
  rewrite bool_decide_eq_true_2 by done. cbn [negb]. cbv zeta. destruct b; [by intros [= _ <-]|].
  unfold tx_bind at 1 2 3, tx_modify. rewrite get_bind, lift_bind. set (d0 := with_usage _ _).
  change (order_charges (p_User p) (i_Order item) d0) with (order_charges (p_User p) (i_Order item) db).
  unfold scan_int64. set (charged := order_charges _ _ db). destruct (_ && _) eqn:F; [|discriminate].
  destruct (charged <=? 0) eqn:C; [intros [= _ <-]; split; [done|]; split; [done|]; left; split; [lia|done]|].
  unfold tx_bind. destruct (applyTx _ _ d0) as [[t|] d1] eqn:A; [|discriminate]. intros [= _ <-].
  apply applyTx_ok in A. destruct (applied_rest _ _ _ _ A) as (_ & _ & _ & Rp & Ru & _). rewrite Rp, Ru.
  split; [done|]. split; [done|]. right. split; [lia|]. exists t, d0, d1. by repeat split.
Qed.

Lemma settled_first env id (b : bool) db p :
  sql_first (deployed_by id) (projects db) = Some p ->
  let now := timestamp_of (c_now (Q := Q) env) in
  exists p1, sql_first (deployed_by id) (sql_update (project_is (p_ID p))
      (if b then fun x => set_activated now (set_project ProjectActive now x) else set_project ProjectFailed now) (projects db))
    = Some p1 /\ p_ID p1 = p_ID p /\ p_Status p1 = settled_status b.
Proof.
  intros Hp now. rewrite sql_first_update by (by destruct b). rewrite Hp. simpl. eexists. split; [reflexivity|].
  unfold project_is. rewrite Z.eqb_refl. by destruct b.
Qed.

(** A deployment outcome settles an order once.  When the deployment of a
    provisioning project ends, the project becomes active or failed
    accordingly; success moves no money; failure removes exactly the uninvoiced
    usage of the project and returns what the order was charged, as a refund to
    its owner; and any further report about the same command, successful or
    not, changes nothing. *)
Theorem deployment_outcome_settles_once (env env2 : CloudEnv Q) (c c2 : Command) (b : bool) (p : projectRow) (item : itemRow)
    (db db1 : Cloud Q) :
  money_ok db -> outcome_of c = Some b ->
  sql_first (deployed_by (ID c)) (projects db) = Some p -> sql_first (fun i => i_ID i =? p_Item p) (items db) = Some item ->
  p_Status p = ProjectProvisioning -> OnCommandTransition env c db = (Ok tt, db1) ->
  let charged := order_charges (p_User p) (i_Order item) db in
  (exists p1, In p1 (projects db1) /\ p_ID p1 = p_ID p /\ p_Status p1 = settled_status b) /\
  (b = true -> transactions db1 = transactions db /\ wallets db1 = wallets db /\ usage db1 = usage db) /\
  (b = false -> usage db1 = sql_delete (uninvoiced_of (p_ID p)) (usage db) /\
     (charged <= 0 -> transactions db1 = transactions db /\ wallets db1 = wallets db) /\
     (0 < charged -> exists t, In t (transactions db1) /\ t_Kind t = KindRefund /\ t_Amount t = charged /\ t_User t = p_User p /\
        forall w, wallet_of (p_User p) db = Some w ->
          transactionByKey (p_User p) ("order-refund-" ++ decimal (i_Order item)) db = None ->
          option_map w_Balance (wallet_of (p_User p) db1) = Some (w_Balance w + charged))) /\
  (ID c2 = ID c -> snd (OnCommandTransition env2 c2 db1) = db1).
Proof.
  intros Hok Ho Hp Hi Hs Ht charged. unfold OnCommandTransition in Ht. rewrite Ho in Ht. apply WithTx_ok in Ht.
  pose proof (transition_projects _ _ _ _ _ _ _ _ Hp Hi Hs Ht) as [Epr Hrest]. cbv zeta in Epr, Hrest.
  destruct (settled_first env (ID c) b db p Hp) as (p1 & Hp1 & Hid & Hst). cbv zeta in Hp1. rewrite <- Epr in Hp1.
  split; [exists p1; split; [by apply sql_first_Some in Hp1 as [? _]|done]|]. split; [|split].
  - intros ->. exact Hrest.
  - intros ->. destruct Hrest as [Hu Hr]. split; [done|]. fold charged in Hr. split.
    + intros Hle. destruct Hr as [(_ & ? & ?)|[? _]]; [done|lia].
    + intros Hgt. destruct Hr as [[? _]|(Hr & t & d & d' & Sd & (Sw' & St' & _) & A)]; [lia|].
      pose proof Sd as (Sw & St & _).
      exists t. destruct (applied_row _ _ _ _ A) as (Hin & ? & ? & ?). rewrite <- St'. do 4 (split; [done|]).
      intros w Hw Hnone. unfold wallet_of, transactionByKey in *. rewrite <- Sw'. rewrite <- Sw in Hw. rewrite <- St in Hnone.
      refine (proj2 (applied_fresh _ d t d' w _ _ A Hw Hnone)); [|unfold is_int64; cbn [e_amount]; unfold two63 in *; lia].
      eapply same_money_ok; [|exact Hok]. done.
  - intros Eid. unfold OnCommandTransition. destruct (outcome_of c2) as [b2|]; [|done].
    destruct (WithTx _ _ db1) as [r2 db2] eqn:W2.
    apply WithTx_cases in W2 as [->|[u W2]]; [done|]. unfold transition_tx in W2. rewrite get_bind, Eid, Hp1 in W2.
    destruct (sql_first _ (items db1)); [|by injection W2 as _ <-]. unfold has_status in W2.
    rewrite bool_decide_eq_false_2 in W2 by (rewrite Hst; by destruct b). by injection W2 as _ <-.
Qed.

End Orders.
