(* ===== verification/CloudBilling.v ===== *)
(** * Properties of billing and invoices

    Each hour of a project is billed at most once, a month never costs more than
    the plan's monthly price, and an invoice states exactly what was charged. *)

From Stdlib Require Import ZArith Lia Bool Ascii String.
From stdpp Require Import base tactics list strings.
From S2P Require Import Prelude GoStrings GoTime Sqlstore Ledger Cloud CloudOps CloudWallet CloudOrders.

Local Open Scope string_scope.
Local Open Scope list_scope.
Local Open Scope bool_scope.
Local Open Scope Z_scope.

(** ** What billing reads of the tables *)

Definition usage_view (u : usageRow) : Z * Z * Z := (u_Project u, u_Period u, u_Amount u).
Definition project_view (p : projectRow) : Z * Z * Z := (p_ID p, p_Hourly p, p_Monthly p).
Definition item_view (i : itemRow) : Z * Z := (i_Hourly i, i_Monthly i).
Definition plan_view (p : Plan) : Z * Z := (pl_Hourly p, pl_Monthly p).

Definition priced (v : Z * Z) : Prop := 0 < fst v <= snd v /\ snd v < two63.

(** The charges of a project in the month of [t]. *)
Definition month_usage (id t : Z) (us : list (Z * Z * Z)) : Z :=
  sql_sum (fun v => (fst (fst v) =? id) && in_month t (snd (fst v))) snd us.

Lemma sql_sum_map {A B : Type} (g : A -> B) (p : B -> bool) (f : B -> Z) l :
  sql_sum p f (map g l) = sql_sum (fun x => p (g x)) (fun x => f (g x)) l.
Proof. induction l as [|x l IH]; [done|]. simpl map. by rewrite !sql_sum_cons, IH. Qed.

Record billing_ok {Q : Type} (db : Cloud Q) : Prop := {
  bo_hours : NoDup (map fst (map usage_view (usage db)));
  bo_amounts : forall v, In v (map usage_view (usage db)) -> 0 <= snd v /\ fst (fst v) <= n_project (counters db);
  bo_projects : NoDup (map fst (map fst (map project_view (projects db))));
  bo_prices : forall v, In v (map project_view (projects db)) ->
    priced (snd (fst v), snd v) /\ fst (fst v) <= n_project (counters db);
  bo_cap : forall v, In v (map project_view (projects db)) -> forall t,
    month_usage (fst (fst v)) t (map usage_view (usage db)) <= snd v;
  bo_items : forall v, In v (map item_view (items db)) -> priced v;
  bo_plans : forall v, In v (map plan_view (plans db)) -> priced v }.

Definition same_billing {Q : Type} (db db' : Cloud Q) : Prop :=
  map usage_view (usage db') = map usage_view (usage db) /\ map project_view (projects db') = map project_view (projects db) /\
  map item_view (items db') = map item_view (items db) /\ map plan_view (plans db') = map plan_view (plans db) /\
  n_project (counters db') = n_project (counters db).

Lemma month_usage_snoc id t us v :
  month_usage id t (us ++ [v]) = month_usage id t us + (if (fst (fst v) =? id) && in_month t (snd (fst v)) then snd v else 0).
Proof. unfold month_usage. rewrite sql_sum_app, sql_sum_cons. change (sql_sum _ _ []) with 0. lia. Qed.

Lemma month_usage_le id t us us' :
  sublist us us' -> (forall v, In v us' -> 0 <= snd v) -> month_usage id t us <= month_usage id t us'.
Proof.
  unfold month_usage. induction 1 as [|x us us' Hs IH|x us us' Hs IH]; intros Hn; [done| |].
  - rewrite !sql_sum_cons. pose proof (IH (fun v Hv => Hn v (or_intror Hv))). lia.
  - rewrite sql_sum_cons. pose proof (IH (fun v Hv => Hn v (or_intror Hv))). pose proof (Hn x (or_introl eq_refl)).
    destruct (_ && _); lia.
Qed.

Lemma filter_sublist_of {A : Type} (p : A -> bool) l : sublist (List.filter p l) l.
Proof. induction l as [|x l IH]; simpl; [constructor|]. destruct (p x); by constructor. Qed.

(** Nothing is billed to a project that does not exist yet. *)
Lemma month_usage_none id t us : (forall v, In v us -> fst (fst v) <> id) -> month_usage id t us = 0.
Proof.
  unfold month_usage. induction us as [|v us IH]; intros Hn; [done|]. rewrite sql_sum_cons, IH by (intros; apply Hn; by right).
  replace (fst (fst v) =? id) with false; [done|]. symmetry. apply Z.eqb_neq, Hn. by left.
Qed.

(** The charges of a month depend only on the month. *)
Lemma month_usage_month id t h us : in_month t h = true -> month_usage id t us = month_usage id h us.
Proof. intros Hm. apply sql_sum_ext; [|done]. intros v _. by rewrite (in_month_same t h). Qed.

Section Billing.
Context {Q : Type} `{Collation} `{CommandQueue Q} `{ApplicationRules} (options : Options).
Implicit Types db : Cloud Q.

Lemma same_billing_ok db db' : same_billing db db' -> billing_ok db -> billing_ok db'.
Proof. intros (Hu & Hp & Hi & Hl & Hn) [? ? ? ? ? ? ?]. split; rewrite ?Hu, ?Hp, ?Hi, ?Hl, ?Hn; done. Qed.

Lemma same_billing_refl db : same_billing db db.
Proof. by repeat split. Qed.

Lemma applied_billing entry db t db' : applied entry db t db' -> same_billing db db'.
Proof. by intros [|]. Qed.

Lemma applyTx_billing now entry : txinv billing_ok (applyTx (Q := Q) now entry).
Proof. intros db t db' Hok Ha%applyTx_ok%applied_billing. by eapply same_billing_ok. Qed.

Lemma modify_billing (f : Cloud Q -> Cloud Q) : (forall db, same_billing db (f db)) -> txinv billing_ok (tx_modify (E := cerr) f).
Proof. intros Hf. apply txinv_modify. intros db. by apply same_billing_ok. Qed.

(** One more billed hour. *)
Lemma add_usage_ok db u p :
  billing_ok db -> In (u_Project u, fst p, snd p) (map project_view (projects db)) ->
  (forall v, In v (usage db) -> (u_Project v, u_Period v) <> (u_Project u, u_Period u)) ->
  0 <= u_Amount u -> u_Amount u <= Z.max 0 (snd p - month_usage (u_Project u) (u_Period u) (map usage_view (usage db))) ->
  forall db', map usage_view (usage db') = map usage_view (usage db ++ [u]) -> map project_view (projects db') = map project_view (projects db) ->
    map item_view (items db') = map item_view (items db) -> map plan_view (plans db') = map plan_view (plans db) ->
    n_project (counters db') = n_project (counters db) -> billing_ok db'.
Proof.
  intros Hok Hp Hnew Hnn Hmax db' Eu Ep Ei El En. rewrite map_app in Eu. simpl in Eu.
  split; rewrite ?Eu, ?Ep, ?Ei, ?El, ?En; [| |apply Hok|apply Hok| |apply Hok|apply Hok].
  - rewrite map_app. apply NoDup_app. split; [apply Hok|]. split; [|apply NoDup_singleton].
    intros x Hx ->%list_elem_of_singleton. apply list_elem_of_In, in_map_iff in Hx as (v & Ev & Hv).
    apply in_map_iff in Hv as (v0 & <- & Hv0). by apply (Hnew v0).
  - intros v [Hv|[<-|[]]]%in_app_or; [by apply Hok|]. simpl. split; [done|]. by apply (bo_prices _ Hok) in Hp as [_ ?].
  - intros v Hv t. rewrite month_usage_snoc. simpl. pose proof (bo_cap _ Hok v Hv t) as Hc.
    destruct ((u_Project u =? fst (fst v)) && in_month t (u_Period u)) eqn:B; [|lia].
    apply andb_true_iff in B as [Eid Hm]. apply Z.eqb_eq in Eid.
    assert (v = (u_Project u, fst p, snd p)) as ->.
    { clear -Hok Hv Hp Eid. pose proof (bo_projects _ Hok) as Hnd. revert Hnd Hv Hp. generalize (map project_view (projects db)).
      intros l. induction l as [|x l IH]; simpl; [done|]. intros Hnd Hv Hp. inversion Hnd as [|? ? Hx Hl]; subst.
      destruct Hv as [->|Hv], Hp as [Ep|Hp]; [done| | |by apply IH].
      - destruct Hx. rewrite <- Eid. apply list_elem_of_In. rewrite map_map. exact (in_map (fun v => fst (fst v)) _ _ Hp).
      - destruct Hx. rewrite Ep. simpl. rewrite Eid. apply list_elem_of_In. rewrite map_map. exact (in_map (fun v => fst (fst v)) _ _ Hv). }
    simpl in *. rewrite (month_usage_month _ t (u_Period u)) in * by done. lia.
Qed.

(** ** The operations *)

Definition known (p : projectRow) (db : Cloud Q) : Prop := In (project_view p) (map project_view (projects db)).

Lemma month_to_date id h db :
  sql_sum (fun u => (u_Project u =? id) && in_month h (u_Period u)) u_Amount (usage db) =
  month_usage id h (map usage_view (usage db)).
Proof. unfold month_usage. by rewrite sql_sum_map. Qed.

(** What billing one hour does: nothing, or one usage row that the month still
    had room for. *)
Lemma chargeHour_cases env p h db r db' :
  billing_ok db -> known p db -> chargeHour (Q := Q) env p h db = (r, db') ->
  db' = db \/
  exists u, (forall v, In v (usage db) -> (u_Project v, u_Period v) <> (u_Project u, u_Period u)) /\
    u_Project u = p_ID p /\ u_Period u = h /\
    u_Amount u = Z.min (p_Hourly p) (Z.max 0 (p_Monthly p - month_usage (p_ID p) h (map usage_view (usage db)))) /\
    (r = Ok (Some (u_Amount u)) \/ r = Err lost_connection) /\
    map usage_view (usage db') = map usage_view (usage db ++ [u]) /\ projects db' = projects db /\ items db' = items db /\
    plans db' = plans db /\ n_project (counters db') = n_project (counters db).
Proof.
  intros Hok Hk Hc.
  assert (db' = db \/ exists o, (r = Ok o \/ r = Err lost_connection) /\ chargeHour_tx env p h db = (Ok o, db')) as [->|(o & Hans & Hc')];
    [|by left|].
  { destruct r as [o|e]; [right; exists o; split; [by left|by eapply WithTx_ok]|].
    apply WithTx_err in Hc as [->|[-> [o Ho]]]; [by left|right; eauto]. }
  clear Hc. rename Hc' into Hc. unfold chargeHour_tx in Hc. rewrite get_bind in Hc.
  destruct (sql_first _ _) as [cur|]; [|discriminate]. destruct (negb _); [injection Hc as _ <-; by left|].
  rewrite lift_bind, month_to_date in Hc. unfold scan_int64 in Hc.
  set (mtd := month_usage _ _ _) in *. destruct ((- two63 <=? mtd) && (mtd <? two63)) eqn:F; [|discriminate].
  apply (bo_prices _ Hok) in Hk as [[[Hh Hhm] Hm] _]. simpl in Hh, Hhm, Hm.
  assert (0 <= mtd) as Hnn by (apply sql_sum_nonneg; intros v Hv _; by apply (bo_amounts _ Hok)).
  rewrite int64_small in Hc by (unfold is_int64, two63 in *; lia).
  cbv zeta in Hc. set (amount := Z.min _ _) in *. set (u := mkUsage (n_usage (counters db) + 1) (p_ID p) h amount None None _) in *.
  unfold tx_bind at 1, unless_duplicate in Hc. destruct (insert_usage u db) as [[[]|e] db1] eqn:IU.
  2:{ apply insert_usage_err in IU as ->. destruct (IsDuplicate e); [injection Hc as _ <-; by left|discriminate]. }
  apply insert_usage_ok in IU as [-> Hnew]. cbn [negb] in Hc. right. exists u. split; [done|]. do 3 (split; [done|]).
  destruct (amount >? 0) eqn:G; [|injection Hc as <- <-; by split].
  unfold tx_bind at 1, or_cannot_pay in Hc. destruct (applyTx _ _ _) as [[t|] db2] eqn:A; [|discriminate].
  apply applyTx_ok, applied_rest in A as (_ & Ai & Al & Ap & Au & _ & _ & An). injection Hc as <- <-. simpl in *.
  split; [done|]. split; [rewrite sql_update_map by done; by rewrite Au|]. do 3 (split; [done|]). by injection An.
Qed.

(** A step of a billing run: the invariant is kept, and so are the projects'
    numbers and prices. *)
Definition billing_step (db db' : Cloud Q) : Prop :=
  (billing_ok db -> billing_ok db') /\ map project_view (projects db') = map project_view (projects db).

Lemma billing_step_refl db : billing_step db db.
Proof. done. Qed.

Lemma billing_step_trans db1 db2 db3 : billing_step db1 db2 -> billing_step db2 db3 -> billing_step db1 db3.
Proof. intros [H1' E1] [H2' E2]. split; [auto|congruence]. Qed.

Lemma same_billing_step db db' : same_billing db db' -> billing_step db db'.
Proof. intros Hs. split; [by apply same_billing_ok|apply Hs]. Qed.

Lemma chargeHour_step env p h db : billing_ok db -> known p db -> billing_step db (snd (chargeHour (Q := Q) env p h db)).
Proof.
  intros Hok Hk. destruct (chargeHour env p h db) as [r db'] eqn:C. simpl.
  destruct (chargeHour_cases _ _ _ _ _ _ Hok Hk C) as [->|(u & Hnew & Hp & Hh & Ha & _ & Eu & Ep & Ei & El & En)];
    [apply billing_step_refl|]. split; [|by rewrite Ep]. intros _.
  pose proof (bo_prices _ Hok _ Hk) as [[[Hhp _] _] _]. simpl in Hhp.
  apply (add_usage_ok db u (p_Hourly p, p_Monthly p)); rewrite ?Ep, ?Ei, ?El; try done.
  - simpl. rewrite Hp. exact Hk.
  - lia.
  - simpl. rewrite Ha, Hp, Hh. lia.
Qed.

Lemma switch_billing code prov id from f db :
  (forall p, project_view (f p) = project_view p) -> same_billing db (snd (switch_project (Q := Q) code prov id from f db)).
Proof.
  intros Hf. unfold switch_project. destruct code; [apply same_billing_refl|].
  destruct (sql_first _ _) as [p|]; [|apply same_billing_refl]. cbv zeta.
  destruct prov as [act|]; [destruct (act _ _) as [ok q]|]; repeat split; simpl; by rewrite sql_update_map.
Qed.

Lemma known_step p db db' : billing_step db db' -> known p db -> known p db'.
Proof. unfold known. intros [_ ->]. done. Qed.

Lemma bill_hours_step benv current p left h r db :
  billing_ok db -> known p db -> billing_step db (snd (bill_hours (Q := Q) benv current p left h r db)).
Proof.
  revert h r db. induction left as [|left IH]; intros h r db Hok Hk; simpl; [apply billing_step_refl|].
  destruct (h >? current); [apply billing_step_refl|].
  pose proof (chargeHour_step (b_env benv (p_ID p) h) p h db Hok Hk) as Hc.
  destruct (chargeHour _ _ _ db) as [[[amount|]|e] db1]; cbn [snd] in Hc.
  - eapply billing_step_trans; [exact Hc|]. apply IH; [by apply Hc|by eapply known_step].
  - eapply billing_step_trans; [exact Hc|]. apply IH; [by apply Hc|by eapply known_step].
  - destruct e; try exact Hc.
    pose proof (switch_billing (b_update benv (p_ID p)) (b_suspend benv) (p_ID p) ProjectActive
      (fun x => set_suspended (Some (timestamp_of (c_now (b_env benv (p_ID p) h))))
         (set_project ProjectSuspended (timestamp_of (c_now (b_env benv (p_ID p) h))) x)) db1 (fun _ => eq_refl)) as Hs.
    unfold suspend. destruct (switch_project _ _ _ _ _ db1) as [out db2]. simpl.
    eapply billing_step_trans; [exact Hc|]. by apply same_billing_step.
Qed.

Lemma bill_projects_step benv current ps r db :
  billing_ok db -> Forall (fun pl => known (fst pl) db) ps -> billing_step db (snd (bill_projects (Q := Q) benv current ps r db)).
Proof.
  revert r db. induction ps as [|[p last] ps IH]; intros r db Hok Hk; [apply billing_step_refl|]. cbn [bill_projects].
  inversion Hk as [|? ? Hp Hps]; subst.
  pose proof (bill_hours_step benv current p maxHoursPerRun (first_hour p last) r db Hok Hp) as Hb.
  destruct (bill_hours _ _ _ _ _ _ _) as [r1 db1]. cbn [snd] in Hb. eapply billing_step_trans; [exact Hb|].
  apply IH; [by apply Hb|]. eapply Forall_impl; [exact Hps|]. intros x. by apply known_step.
Qed.

Lemma RunBilling_step benv db : billing_ok db -> billing_step db (snd (RunBilling (Q := Q) benv db)).
Proof.
  intros Hok. unfold RunBilling. apply bill_projects_step; [done|]. apply Forall_forall. intros x Hx.
  apply list_elem_of_In, in_map_iff in Hx as (p & <- & Hp). unfold billableProjects in Hp.
  apply order_by_In, sql_where_In in Hp as [Hp _]. by apply in_map.
Qed.

Lemma resume_billing benv balance ps n db : billing_step db (snd (resume_projects (Q := Q) options benv balance ps n db)).
Proof.
  revert n db. induction ps as [|p ps IH]; intros n db; simpl; [apply billing_step_refl|]. destruct (balance <? _); [apply IH|].
  unfold tx_bind. pose proof (switch_billing (b_update benv (p_ID p)) (b_resume benv) (p_ID p) ProjectSuspended
    (fun x => set_resumed (timestamp_of (b_now benv)) (set_suspended None (set_project ProjectActive (timestamp_of (b_now benv)) x)))
    db (fun _ => eq_refl)) as Hs%same_billing_step.
  destruct (switch_project _ _ _ _ _ db) as [[b|e] db1]; [|done]. eapply billing_step_trans; [exact Hs|apply IH].
Qed.

Lemma add_project_ok db p :
  billing_ok db -> p_ID p = n_project (counters db) + 1 -> priced (p_Hourly p, p_Monthly p) ->
  billing_ok (with_counters next_project (with_projects (fun l => l ++ [p]) db)).
Proof.
  intros Hok Hid Hpr. split; simpl; rewrite ?map_app; simpl.
  - apply Hok.
  - intros v Hv. pose proof (bo_amounts _ Hok v Hv). lia.
  - apply NoDup_app. split; [apply Hok|]. split; [|apply NoDup_singleton].
    intros x Hx ->%list_elem_of_singleton. apply list_elem_of_In in Hx. rewrite map_map in Hx.
    apply in_map_iff in Hx as (v & Ev & Hv). pose proof (bo_prices _ Hok v Hv). simpl in Ev. lia.
  - intros v [Hv|[<-|[]]]%in_app_or; [pose proof (bo_prices _ Hok v Hv) as [? ?]; split; [done|lia]|]. split; [done|]. simpl. lia.
  - intros v [Hv|[<-|[]]]%in_app_or t; [by apply (bo_cap _ Hok)|]. simpl. rewrite month_usage_none.
    + unfold priced in Hpr. simpl in Hpr. lia.
    + intros u Hu E. pose proof (bo_amounts _ Hok u Hu). lia.
  - apply Hok.
  - apply Hok.
Qed.

Lemma confirm_billing env reviewer orderID target server :
  txinv billing_ok (confirm_tx (Q := Q) options env reviewer orderID target server).
Proof.
  intros db [[pid c] ids] db' Hok W.
  destruct (confirm_ok _ _ _ _ _ _ _ _ _ _ _ W) as (o & item & charge & w & db1 & spec & sub & q & Ho & Hid & Hst & Hit &
    Hord & Hw & Hres & Happ & Epid & Ec & Sub & Eo & Ep & Eu & Ew & Et & Eq & Ei & El & En & Hnew).
  pose proof (same_billing_ok _ _ (applied_billing _ _ _ _ Happ) Hok) as Hok1.
  assert (priced (i_Hourly item, i_Monthly item)) as Hpr by (apply (bo_items _ Hok); exact (in_map item_view _ _ Hit)).
  set (p := mkProject _ _ _ _ _ _ _ _ _ _ _ _ _ _ _) in Ep. set (u := mkUsage _ _ _ _ _ _ _) in Eu, Hnew.
  pose proof (add_project_ok db1 p Hok1 Epid Hpr) as Hok2.
  apply (add_usage_ok _ u (i_Hourly item, i_Monthly item) Hok2); simpl.
  - rewrite map_app. apply in_or_app. right. by left.
  - exact Hnew.
  - destruct Hpr as [[Hh _] _]. simpl in Hh. lia.
  - rewrite month_usage_none; [destruct Hpr as [[Hh Hm] _]; simpl in *; lia|].
    intros v Hv E. pose proof (bo_amounts _ Hok1 v Hv). lia.
  - by rewrite Eu.
  - rewrite Ep. by rewrite sql_update_map.
  - by rewrite Ei.
  - by rewrite El.
  - done.
Qed.

Lemma shrink_usage_ok db db' :
  sublist (map usage_view (usage db')) (map usage_view (usage db)) -> map project_view (projects db') = map project_view (projects db) ->
  map item_view (items db') = map item_view (items db) -> map plan_view (plans db') = map plan_view (plans db) ->
  n_project (counters db') = n_project (counters db) -> billing_ok db -> billing_ok db'.
Proof.
  intros Hs Ep Ei El En Hok.
  assert (forall v, In v (map usage_view (usage db')) -> In v (map usage_view (usage db))) as Hin.
  { intros v Hv. apply list_elem_of_In. eapply elem_of_sublist; [|exact Hs]. by apply list_elem_of_In. }
  split; rewrite ?Ep, ?Ei, ?El, ?En; [| |apply Hok|apply Hok| |apply Hok|apply Hok].
  - eapply sublist_NoDup; [apply Hok|]. by apply (fmap_sublist fst).
  - intros v Hv. by apply (bo_amounts _ Hok), Hin.
  - intros v Hv t. etransitivity; [|by apply (bo_cap _ Hok)]. apply month_usage_le; [done|].
    intros x Hx. by apply (bo_amounts _ Hok).
Qed.

Lemma delete_usage_billing (p : usageRow -> bool) : txinv billing_ok (tx_modify (E := cerr) (S := Cloud Q) (with_usage (sql_delete p))).
Proof.
  apply txinv_modify. intros db. apply shrink_usage_ok; [|done..]. simpl. apply (fmap_sublist usage_view), filter_sublist_of.
Qed.

Lemma transition_billing env id succeeded : txinv billing_ok (transition_tx (Q := Q) env id succeeded).
Proof.
  unfold transition_tx. tx_walk ltac:(first [apply applyTx_billing|apply delete_usage_billing|
    apply modify_billing; intros; repeat split; simpl; rewrite ?sql_update_map by done; done]).
Qed.

Lemma insert_lines_billing id start ls : txinv billing_ok (insert_lines (Q := Q) id start ls).
Proof.
  induction ls as [|[[p hours] amount] ls IH]; simpl; tx_walk ltac:(first [apply IH|apply modify_billing; intros; by repeat split]).
Qed.

Lemma issueInvoice_billing now u start stop pe : txinv billing_ok (issueInvoice_tx (Q := Q) options now u start stop pe).
Proof.
  unfold issueInvoice_tx. tx_walk ltac:(first [apply insert_lines_billing|
    apply modify_billing; intros; repeat split; simpl; rewrite ?sql_update_map by done; done]).
Qed.

Lemma WithTx_billing {A} vs (fn : tx (Cloud Q) cerr A) :
  txinv billing_ok fn -> forall db, billing_ok db -> billing_ok (snd (WithTx vs fn db)).
Proof. intros Hf db Hok. destruct (WithTx vs fn db) as [r db'] eqn:W. by eapply WithTx_inv. Qed.

Lemma issue_all_billing env start stop pe us n db :
  billing_ok db -> billing_ok (snd (issue_all (Q := Q) options env start stop pe us n db)).
Proof.
  revert n db. induction us as [|u us IH]; intros n db Hok; simpl; [done|]. unfold tx_bind.
  pose proof (WithTx_billing (c_verdicts (env u)) _ (issueInvoice_billing (c_now (env u)) u start stop pe) db Hok) as Hi.
  destruct (WithTx _ _ db) as [[b|e] db1]; [by apply IH|done].
Qed.

Lemma PlaceOrder_billing env u input db : billing_ok db -> billing_ok (snd (PlaceOrder (Q := Q) env u input db)).
Proof.
  intros Hok. unfold PlaceOrder. rewrite get_bind. destruct (c_reads env 0); [done|]. destruct (PlanByCode _ _) as [plan|] eqn:Pl; [|done].
  destruct (negb _); [done|]. rewrite lift_bind. destruct (ApplicationSpec _ _ _ _ _) as [spec|]; [|done].
  cbv zeta. destruct (_ >? 500); [done|]. unfold PlanByCode in Pl. apply sql_first_Some in Pl as [Hpl _].
  assert (priced (pl_Hourly plan, pl_Monthly plan)) as Hpr by (apply (bo_plans _ Hok); exact (in_map plan_view _ _ Hpl)).
  unfold Order. rewrite then_read. apply WithTx_billing; [|done]. unfold nameAvailableTx. tx_walk ltac:(idtac; first [
    apply modify_billing; intros; by repeat split|
    apply txinv_modify; intros d Hd; split; simpl; rewrite ?map_app; try apply Hd;
    intros v [Hv|[<-|[]]]%in_app_or; [by apply (bo_items _ Hd)|exact Hpr]]).
Qed.

Lemma cloud_exec_billing c db : billing_ok db -> billing_ok (cloud_exec options c db).
Proof.
  intros Hok. destruct c as [now vs email name pw hash|env benv u amount key|now vs admin u amount reason key|env u input|env u order|
    env reviewer order reason|env reviewer order target|env command|benv|env month|q]; cbn [cloud_exec].
  - unfold Register. destruct email; [|done]. cbv zeta. destruct (_ || _); [done|]. destruct (_ || _); [done|].
    destruct (negb hash); [done|]. apply WithTx_billing; [|done]. tx_walk ltac:(apply modify_billing; intros; by repeat split).
  - unfold TopUp. destruct (_ || _); [done|]. cbv zeta. destruct (_ || _); [done|]. unfold tx_bind.
    pose proof (WithTx_billing (c_verdicts env) _ (applyTx_billing (c_apply_now env)
      (mkEntry amount 0 "Wallet top-up" (TrimSpace key) KindTopUp 0 "" u)) db Hok) as Hm.
    destruct (WithTx _ _ db) as [[t|e] db1]; [|done]. cbn [snd] in Hm. unfold ResumeFundedProjects. rewrite get_bind.
    destruct (order_by _ _) as [|p ps]; [done|]. destruct (wallet_of u db1) as [w|]; [|done].
    pose proof (resume_billing benv (w_Balance w) (p :: ps) 0 db1) as [Hr _]. destruct (resume_projects _ _ _ _ _ db1). by apply Hr.
  - unfold Adjust. destruct (negb _); [done|]. cbv zeta. destruct (_ || _); [done|]. apply WithTx_billing; [apply applyTx_billing|done].
  - by apply PlaceOrder_billing.
  - unfold CancelOrder, Order. rewrite then_read. apply WithTx_billing; [|done]. tx_walk ltac:(apply modify_billing; intros; by repeat split).
  - unfold RejectOrder. destruct (negb _); [done|]. cbv zeta. destruct (_ || _); [done|]. unfold Order. rewrite then_read. apply WithTx_billing; [|done].
    unfold lockPendingOrder. tx_walk ltac:(apply modify_billing; intros; by repeat split).
  - unfold ConfirmOrder. destruct (negb _); [done|]. cbv zeta. destruct (_ =? "")%string; [done|]. unfold tx_bind at 1.
    pose proof (WithTx_billing (c_verdicts env) _ (confirm_billing env reviewer order target (TrimSpace (pt_ServerID target))) db Hok) as Hm.
    destruct (WithTx _ _ db) as [[[[pid c] ids]|e] db1]; [|done]. rewrite confirm_reads. eapply same_billing_ok; [|exact Hm]. by repeat split.
  - unfold OnCommandTransition. destruct (outcome_of _); [|done]. apply WithTx_billing; [apply transition_billing|done].
  - by apply RunBilling_step.
  - unfold IssueInvoices. rewrite get_bind. by apply issue_all_billing.
  - eapply same_billing_ok; [|exact Hok]. by repeat split.
Qed.

Lemma cloud_run_billing cs db : billing_ok db -> billing_ok (cloud_run options cs db).
Proof. revert db. induction cs as [|c cs IH]; intros db Hok; [done|]. simpl. by apply IH, cloud_exec_billing. Qed.

Lemma opening_billing catalogue apps (q : Q) :
  (forall v, In v (map plan_view catalogue) -> priced v) -> billing_ok (opening catalogue apps q).
Proof. intros Hc. split; simpl; try done; constructor. Qed.

Lemma charged_hour_repeats env p h u db :
  billing_ok db -> In p (projects db) -> In u (usage db) -> u_Project u = p_ID p -> u_Period u = h ->
  snd (chargeHour (Q := Q) env p h db) = db.
Proof.
  intros Hok Hp Hu E1 E2. destruct (chargeHour env p h db) as [r db'] eqn:C. simpl.
  destruct (chargeHour_cases _ _ _ _ _ _ Hok (in_map project_view _ _ Hp) C) as [->|(v & Hnew & Hv & Hh & _)]; [done|].
  destruct (Hnew u Hu). congruence.
Qed.

End Billing.

Section BillingTheorems.
Context {Q : Type} `{Collation} `{CommandQueue Q} `{ApplicationRules} (options : Options).

(** C33. Hosting never costs more than the plan says.  From a catalogue whose
    plans have a positive hourly price and a monthly price of at least one hour,
    after any sequence of calls no hour of a project is recorded twice; for
    every project and every calendar month the recorded charges stay within the
    project's monthly price; and billing an hour that is already recorded, as
    an overlapping or restarted run does, changes nothing. *)
Theorem monthly_cap_holds (catalogue : list Plan) (apps : list string) (q : Q) (cs : list cloud_call) :
  (forall p, In p catalogue -> 0 < pl_Hourly p <= pl_Monthly p /\ pl_Monthly p < two63) ->
  let db := cloud_run options cs (opening catalogue apps q) in
  NoDup (map (fun u => (u_Project u, u_Period u)) (usage db)) /\
  (forall p t, In p (projects db) ->
     sql_sum (fun u => (u_Project u =? p_ID p) && in_month t (u_Period u)) u_Amount (usage db) <= p_Monthly p) /\
  (forall env p u, In p (projects db) -> In u (usage db) -> u_Project u = p_ID p ->
     snd (chargeHour (Q := Q) env p (u_Period u) db) = db).
Proof.
  intros Hcat db. assert (billing_ok db) as Hok.
  { apply cloud_run_billing, opening_billing. intros v (p & <- & Hp)%in_map_iff. by apply Hcat. }
  split; [|split].
  - pose proof (bo_hours _ Hok) as Hh. by rewrite map_map in Hh.
  - intros p t Hp. rewrite month_to_date. exact (bo_cap _ Hok _ (in_map project_view _ _ Hp) t).
  - intros env p u Hp Hu Eu. by eapply charged_hour_repeats.
Qed.

End BillingTheorems.
