(* ===== verification/CloudInvoices.v ===== *)
(** * Properties of invoices

    An invoice states exactly what was charged: its total is the sum of the usage
    it claimed and of its lines, it contains its tax, and no usage is on two
    invoices.  What is on an invoice is never touched again. *)

From Stdlib Require Import ZArith Lia Bool Ascii String.
From stdpp Require Import base tactics list strings.
From S2P Require Import Prelude GoStrings GoTime Sqlstore Ledger Cloud CloudOps CloudWallet CloudOrders CloudBilling.

Local Open Scope string_scope.
Local Open Scope list_scope.
Local Open Scope bool_scope.
Local Open Scope Z_scope.

(** ** Sums *)

Lemma int64_add_l a b : int64_of (int64_of a + b) = int64_of (a + b).
Proof.
  unfold int64_of. replace ((a + two63) mod two64 - two63 + b + two63) with ((a + two63) mod two64 + b) by lia.
  rewrite Z.add_mod_idemp_l by done. by replace (a + two63 + b) with (a + b + two63) by lia.
Qed.

Lemma fold_int64 {A : Type} (f : A -> Z) l acc :
  fold_left (fun acc x => int64_of (acc + f x)) l (int64_of acc) = int64_of (acc + sql_sum (fun _ => true) f l).
Proof.
  revert acc. induction l as [|x l IH]; intros acc; simpl fold_left; [by rewrite Z.add_0_r|].
  rewrite int64_add_l, IH, sql_sum_cons. f_equal. lia.
Qed.

Lemma sql_sum_zero {A : Type} (p : A -> bool) f l : (forall x, In x l -> p x = false) -> sql_sum p f l = 0.
Proof.
  intros Hf. induction l as [|x l IH]; [done|]. rewrite sql_sum_cons, (Hf x) by (by left). rewrite IH; [done|]. intros y Hy. apply Hf. by right.
Qed.

(** What each key of [ps] contributes adds up, when the keys are distinct and
    cover the rows. *)
Lemma sum_by_key {A B : Type} (key : A -> Z) (owner : B -> Z) (f : B -> Z) ps rows :
  NoDup (map key ps) -> (forall r, In r rows -> In (owner r) (map key ps)) ->
  sql_sum (fun _ => true) (fun p => sql_sum (fun r => owner r =? key p) f rows) ps = sql_sum (fun _ => true) f rows.
Proof.
  intros Hnd. induction rows as [|r rows IH]; intros Hc.
  - clear. induction ps as [|p ps IH]; [done|]. rewrite sql_sum_cons, IH. done.
  - rewrite (sql_sum_cons _ _ rows), <- IH by (intros; apply Hc; by right). specialize (Hc r (or_introl eq_refl)). clear IH.
    induction ps as [|p ps IHp]; [done|]. simpl in Hnd. inversion Hnd as [|? ? Hp Hps]; subst. rewrite !(sql_sum_cons (fun _ : A => true)).
    rewrite !(sql_sum_cons _ f). destruct Hc as [E|Hc].
    + rewrite E, Z.eqb_refl.
      assert (sql_sum (fun _ => true) (fun p0 => sql_sum (fun r0 => owner r0 =? key p0) f (r :: rows)) ps =
              sql_sum (fun _ => true) (fun p0 => sql_sum (fun r0 => owner r0 =? key p0) f rows) ps) as ->; [|lia].
      clear IHp Hps Hnd. induction ps as [|p' ps IH]; [done|]. rewrite !(sql_sum_cons (fun _ : A => true)), sql_sum_cons.
      rewrite IH by (intros Hx; apply Hp; by right). replace (owner r =? key p') with false; [lia|]. symmetry. apply Z.eqb_neq.
      intros E'. apply Hp. rewrite E, E'. by left.
    + rewrite IHp by done. replace (owner r =? key p) with false; [lia|]. symmetry. apply Z.eqb_neq. intros E. apply Hp.
      rewrite <- E. by apply list_elem_of_In.
Qed.

(** ** What is on invoices *)

Definition invoiced (u : usageRow) : bool := match u_Invoice u with Some _ => true | None => false end.
Definition on_invoice (id : Z) (u : usageRow) : bool := match u_Invoice u with Some i => i =? id | None => false end.

(** What an invoice says of a row: never the ledger row it points to. *)
Definition billed_view (u : usageRow) : option Z * Z * Z * Z := (u_Invoice u, u_Project u, u_Period u, u_Amount u).

Definition billed (us : list usageRow) : list (option Z * Z * Z * Z) := map billed_view (sql_where invoiced us).

Definition same_invoices {Q : Type} (db0 db : Cloud Q) : Prop :=
  invoices db = invoices db0 /\ lines db = lines db0 /\ n_invoice (counters db) = n_invoice (counters db0) /\
  billed (usage db) = billed (usage db0).

Definition last_day (start : Z) : Z := AddDate (AddDate start 0 1 0) 0 0 (-1).

Record invoices_ok {Q : Type} (bp : Z) (db : Cloud Q) : Prop := {
  io_ids : forall v, In v (invoices db) -> v_ID v <= n_invoice (counters db);
  io_lines : forall l, In l (lines db) -> l_Invoice l <= n_invoice (counters db);
  io_usage : forall u i, In u (usage db) -> u_Invoice u = Some i -> i <= n_invoice (counters db);
  io_period : NoDup (map (fun v => (v_User v, v_Start v)) (invoices db));
  io_last : forall v, In v (invoices db) -> v_End v = last_day (v_Start v);
  io_total : forall v, In v (invoices db) -> v_Total v = int64_of (sql_sum (on_invoice (v_ID v)) u_Amount (usage db));
  io_sum : forall v, In v (invoices db) -> v_Total v = int64_of (sql_sum (fun l => l_Invoice l =? v_ID v) l_Amount (lines db));
  io_tax : forall v, In v (invoices db) -> v_Total v = v_Subtotal v + v_Tax v /\ 0 <= v_Subtotal v /\ 0 <= v_Tax v /\
    v_Tax v = Z.quot (int64_of (v_Total v * bp)) (10000 + bp);
  io_rows : forall v u, In v (invoices db) -> In u (usage db) -> u_Invoice u = Some (v_ID v) ->
    v_Start v <= u_Period u < AddDate (v_Start v) 0 1 0 }.

Lemma billed_sum id us :
  sql_sum (on_invoice id) u_Amount us = sql_sum (fun v => match fst (fst (fst v)) with Some i => i =? id | None => false end) snd (billed us).
Proof.
  unfold billed. rewrite sql_sum_map. induction us as [|u us IH]; [done|]. rewrite sql_sum_cons, IH. unfold on_invoice. simpl.
  unfold invoiced. destruct (u_Invoice u) as [i|] eqn:E; [|done]. rewrite sql_sum_cons. simpl. by rewrite E.
Qed.

(** The hours an invoice covers and the lines it shows. *)
Definition covered (id : Z) (us : list usageRow) : list (option Z * Z * Z * Z) := map billed_view (sql_where (on_invoice id) us).
Definition lines_of (id : Z) (ls : list lineRow) : list lineRow := sql_where (fun l => l_Invoice l =? id) ls.

Lemma covered_billed id us :
  covered id us = List.filter (fun v => match fst (fst (fst v)) with Some i => i =? id | None => false end) (billed us).
Proof.
  unfold covered, billed, sql_where. induction us as [|u us IH]; [done|]. simpl. unfold on_invoice at 1, invoiced at 1.
  destruct (u_Invoice u) as [i|] eqn:E; [|exact IH]. simpl. rewrite E. destruct (i =? id); simpl; by rewrite IH.
Qed.

Lemma billed_In us u i : In u us -> u_Invoice u = Some i -> In (Some i, u_Project u, u_Period u, u_Amount u) (billed us).
Proof.
  intros Hu E. unfold billed. replace (Some i, u_Project u, u_Period u, u_Amount u) with (billed_view u) by (unfold billed_view; by rewrite E).
  apply in_map, sql_where_In. split; [done|]. unfold invoiced. by rewrite E.
Qed.

Lemma billed_In_inv us i p h a : In (Some i, p, h, a) (billed us) -> exists u, In u us /\ u_Invoice u = Some i /\ u_Period u = h.
Proof. unfold billed. intros (u & E & Hu)%in_map_iff. apply sql_where_In in Hu as [Hu _]. injection E as E1 _ E2 _. by exists u. Qed.

Section Invoices.
Context {Q : Type} `{Collation} `{CommandQueue Q} `{ApplicationRules} (options : Options).
Implicit Types db : Cloud Q.

Lemma same_invoices_refl db : same_invoices db db.
Proof. by repeat split. Qed.

Lemma same_invoices_trans db1 db2 db3 : same_invoices db1 db2 -> same_invoices db2 db3 -> same_invoices db1 db3.
Proof. intros (? & ? & ? & ?) (? & ? & ? & ?). repeat split; congruence. Qed.

Lemma same_invoices_ok bp db db' : same_invoices db db' -> invoices_ok bp db -> invoices_ok bp db'.
Proof.
  intros (Ei & El & En & Eb) Hok.
  assert (forall u i, In u (usage db') -> u_Invoice u = Some i -> exists u0, In u0 (usage db) /\ u_Invoice u0 = Some i /\ u_Period u0 = u_Period u) as Hr.
  { intros u i Hu E. eapply billed_In_inv. rewrite <- Eb. by apply billed_In. }
  split; rewrite ?Ei, ?El, ?En; try apply Hok.
  - intros u i Hu E. destruct (Hr u i Hu E) as (u0 & Hu0 & E0 & _). by apply (io_usage _ _ Hok u0).
  - intros v Hv. rewrite billed_sum, Eb, <- billed_sum. by apply (io_total _ _ Hok).
  - intros v u Hv Hu E. destruct (Hr u _ Hu E) as (u0 & Hu0 & E0 & <-). by apply (io_rows _ _ Hok).
Qed.

(** Operations that only touch what is not on an invoice. *)
Lemma modify_invoices db0 (f : Cloud Q -> Cloud Q) :
  (forall db, same_invoices db (f db)) -> txinv (same_invoices db0) (tx_modify (E := cerr) f).
Proof. intros Hf. apply txinv_modify. intros db Hs. by eapply same_invoices_trans. Qed.

Lemma applyTx_invoices db0 now entry : txinv (same_invoices db0) (applyTx (Q := Q) now entry).
Proof.
  intros db t db' Hs Ha%applyTx_ok. eapply same_invoices_trans; [exact Hs|].
  by destruct Ha.
Qed.

Lemma billed_update p f us : (forall u, billed_view (f u) = billed_view u) -> billed (sql_update p f us) = billed us.
Proof.
  intros Hf. unfold billed. induction us as [|u us IH]; [done|]. simpl.
  assert (forall u, invoiced (f u) = invoiced u) as Hi by (intros v; specialize (Hf v); injection Hf as E; unfold invoiced; by rewrite E).
  destruct (p u); rewrite ?Hi; destruct (invoiced u); simpl; rewrite ?Hf, IH; done.
Qed.

Lemma billed_delete id us : billed (sql_delete (uninvoiced_of id) us) = billed us.
Proof.
  unfold billed. induction us as [|u us IH]; [done|]. unfold sql_delete in *. simpl. unfold uninvoiced_of at 1, invoiced at 2.
  destruct (u_Invoice u) eqn:E; [rewrite andb_false_r|rewrite andb_true_r; by destruct (u_Project u =? id); simpl; unfold invoiced at 1; rewrite ?E].
  simpl. unfold invoiced at 1. rewrite E. simpl. by rewrite IH.
Qed.

Lemma insert_usage_invoices db0 u : u_Invoice u = None -> txinv (same_invoices db0) (insert_usage (Q := Q) u).
Proof.
  intros E db [] db' Hs Hi%insert_usage_ok. destruct Hi as [-> _]. eapply same_invoices_trans; [exact Hs|].
  repeat split. simpl. unfold billed, sql_where. rewrite List.filter_app. simpl. unfold invoiced at 2. by rewrite E, app_nil_r.
Qed.

Ltac same_leaf := first
  [ apply applyTx_invoices
  | apply insert_usage_invoices; reflexivity
  | apply unless_duplicate_inv; [apply insert_usage_invoices; reflexivity|apply insert_usage_err]
  | apply modify_invoices; intros; repeat split; simpl; rewrite ?billed_delete, ?billed_update by done; done ].

Lemma in_queue_invoices {A} db0 (m : tx Q qerr A) : txinv (same_invoices db0) (in_queue (Q := Q) m).
Proof.
  intros db a db' Hs. unfold in_queue. destruct (m (queue db)) as [[x|e] q]; [|discriminate].
  intros [= <- <-]. eapply same_invoices_trans; [exact Hs|]. by repeat split.
Qed.

Lemma confirm_invoices db0 env reviewer orderID target server :
  txinv (same_invoices db0) (confirm_tx (Q := Q) options env reviewer orderID target server).
Proof. unfold confirm_tx, lockPendingOrder, insert_project. tx_walk ltac:(first [apply in_queue_invoices|same_leaf]). Qed.

Lemma transition_invoices db0 env id succeeded : txinv (same_invoices db0) (transition_tx (Q := Q) env id succeeded).
Proof. unfold transition_tx. tx_walk same_leaf. Qed.

Lemma chargeHour_invoices db0 env p h : txinv (same_invoices db0) (chargeHour_tx (Q := Q) env p h).
Proof. unfold chargeHour_tx. tx_walk same_leaf. Qed.

Lemma WithTx_invoices {A} vs (fn : tx (Cloud Q) cerr A) db :
  txinv (same_invoices db) fn -> same_invoices db (snd (WithTx vs fn db)).
Proof. intros Hf. destruct (WithTx vs fn db) as [r db'] eqn:W. eapply WithTx_inv; [exact Hf|apply same_invoices_refl|exact W]. Qed.

Lemma switch_invoices code prov id from f db : same_invoices db (snd (switch_project (Q := Q) code prov id from f db)).
Proof.
  unfold switch_project. destruct code; [by repeat split|]. destruct (sql_first _ _) as [p|]; [|by repeat split]. cbv zeta.
  destruct prov as [act|]; [destruct (act _ _) as [ok q]|]; by repeat split.
Qed.

Lemma bill_hours_invoices benv current p left h r db : same_invoices db (snd (bill_hours (Q := Q) benv current p left h r db)).
Proof.
  revert h r db. induction left as [|left IH]; intros h r db; simpl; [apply same_invoices_refl|].
  destruct (h >? current); [apply same_invoices_refl|].
  pose proof (WithTx_invoices (c_verdicts (b_env benv (p_ID p) h)) _ db (chargeHour_invoices db (b_env benv (p_ID p) h) p h)) as Hc.
  unfold chargeHour. destruct (WithTx _ _ db) as [[[amount|]|e] db1]; cbn [snd] in Hc.
  1,2: by eapply same_invoices_trans; [exact Hc|apply IH].
  destruct e; try exact Hc.
  pose proof (switch_invoices (b_update benv (p_ID p)) (b_suspend benv) (p_ID p) ProjectActive
    (fun x => set_suspended (Some (timestamp_of (c_now (b_env benv (p_ID p) h))))
       (set_project ProjectSuspended (timestamp_of (c_now (b_env benv (p_ID p) h))) x)) db1) as Hs.
  unfold suspend. destruct (switch_project _ _ _ _ _ db1) as [out db2]. simpl. by eapply same_invoices_trans.
Qed.

Lemma bill_projects_invoices benv current ps r db : same_invoices db (snd (bill_projects (Q := Q) benv current ps r db)).
Proof.
  revert r db. induction ps as [|[p last] ps IH]; intros r db; [apply same_invoices_refl|]. cbn [bill_projects].
  pose proof (bill_hours_invoices benv current p maxHoursPerRun (first_hour p last) r db) as Hb.
  destruct (bill_hours _ _ _ _ _ _ _) as [r1 db1]. eapply same_invoices_trans; [exact Hb|apply IH].
Qed.

Lemma resume_invoices benv balance ps n db : same_invoices db (snd (resume_projects (Q := Q) options benv balance ps n db)).
Proof.
  revert n db. induction ps as [|p ps IH]; intros n db; simpl; [apply same_invoices_refl|]. destruct (balance <? _); [apply IH|].
  unfold tx_bind. pose proof (switch_invoices (b_update benv (p_ID p)) (b_resume benv) (p_ID p) ProjectSuspended
    (fun x => set_resumed (timestamp_of (b_now benv)) (set_suspended None (set_project ProjectActive (timestamp_of (b_now benv)) x)))
    db) as Hs.
  destruct (switch_project _ _ _ _ _ db) as [[b|e] db1]; [|done]. eapply same_invoices_trans; [exact Hs|apply IH].
Qed.

Lemma cloud_exec_same c db :
  (forall env month, c <> KIssueInvoices env month) -> same_invoices db (cloud_exec options c db).
Proof.
  intros Hc. destruct c as [now vs email name pw hash|env benv u amount key|now vs admin u amount reason key|env u input|env u order|
    env reviewer order reason|env reviewer order target|env command|benv|env month|q]; cbn [cloud_exec].
  - unfold Register. destruct email; [|done]. cbv zeta. destruct (_ || _); [done|]. destruct (_ || _); [done|].
    destruct (negb hash); [done|]. apply WithTx_invoices. tx_walk same_leaf.
  - unfold TopUp. destruct (_ || _); [done|]. cbv zeta. destruct (_ || _); [done|]. unfold tx_bind.
    pose proof (WithTx_invoices (c_verdicts env) _ db (applyTx_invoices db (c_apply_now env)
      (mkEntry amount 0 "Wallet top-up" (TrimSpace key) KindTopUp 0 "" u))) as Hm.
    destruct (WithTx _ _ db) as [[t|e] db1]; [|done]. cbn [snd] in Hm. unfold ResumeFundedProjects. rewrite get_bind.
    destruct (order_by _ _) as [|p ps]; [done|]. destruct (wallet_of u db1) as [w|]; [|done].
    pose proof (resume_invoices benv (w_Balance w) (p :: ps) 0 db1) as Hr. destruct (resume_projects _ _ _ _ _ db1).
    by eapply same_invoices_trans.
  - unfold Adjust. destruct (negb _); [done|]. cbv zeta. destruct (_ || _); [done|]. apply WithTx_invoices, applyTx_invoices.
  - unfold PlaceOrder. rewrite get_bind. destruct (c_reads env 0); [done|]. destruct (PlanByCode _ _); [|done]. destruct (negb _); [done|]. rewrite lift_bind.
    destruct (ApplicationSpec _ _ _ _ _); [|done]. cbv zeta. destruct (_ >? 500); [done|]. unfold Order. rewrite then_read. apply WithTx_invoices.
    unfold nameAvailableTx. tx_walk same_leaf.
  - unfold CancelOrder, Order. rewrite then_read. apply WithTx_invoices. tx_walk same_leaf.
  - unfold RejectOrder. destruct (negb _); [done|]. cbv zeta. destruct (_ || _); [done|]. unfold Order. rewrite then_read. apply WithTx_invoices.
    unfold lockPendingOrder. tx_walk same_leaf.
  - unfold ConfirmOrder. destruct (negb _); [done|]. cbv zeta. destruct (_ =? "")%string; [done|]. unfold tx_bind at 1.
    pose proof (WithTx_invoices (c_verdicts env) _ db (confirm_invoices db env reviewer order target (TrimSpace (pt_ServerID target)))) as Hm.
    destruct (WithTx _ _ db) as [[[[pid c] ids]|e] db1]; [|done]. rewrite confirm_reads. exact Hm.
  - unfold OnCommandTransition. destruct (outcome_of _); [|done]. apply WithTx_invoices, transition_invoices.
  - apply bill_projects_invoices.
  - by destruct (Hc env month).
  - by repeat split.
Qed.

(** ** Issuing *)

Lemma insert_lines_ok id start ls db :
  exists db' news, insert_lines (Q := Q) id start ls db = (Ok tt, db') /\ lines db' = lines db ++ news /\
    (forall l, In l news -> l_Invoice l = id) /\ sql_sum (fun _ => true) l_Amount news = sql_sum (fun _ => true) snd ls /\
    invoices db' = invoices db /\ usage db' = usage db /\ n_invoice (counters db') = n_invoice (counters db).
Proof.
  revert db. induction ls as [|[[p hours] amount] ls IH]; intros db; [by exists db, []; rewrite app_nil_r|].
  cbn [insert_lines]. unfold tx_bind at 1, tx_modify at 1.
  match goal with |- context [insert_lines id start ls ?d] => destruct (IH d) as (db' & news & E & El & Hn & Hs & Ei & Eu & En) end.
  simpl in El. rewrite <- app_assoc in El. eexists db', _. split; [exact E|]. split; [exact El|]. split; [|split; [|done]].
  - intros l [<-|Hl]; [done|by apply Hn].
  - change (?x :: news) with ([x] ++ news). cbn [app]. by rewrite !sql_sum_cons, Hs.
Qed.

Lemma claimable_free u start stop db x : claimable u start stop db x = true -> u_Invoice x = None.
Proof. unfold claimable. by destruct (u_Invoice x). Qed.

(** The lines of an invoice add up to the rows it claims. *)
Lemma lines_cover u start stop db :
  billing_ok db ->
  let rows := sql_where (claimable u start stop db) (usage db) in
  sql_sum (fun _ => true) snd (invoice_lines start rows db) = sql_sum (fun _ => true) u_Amount rows.
Proof.
  intros Hok rows. unfold invoice_lines. rewrite sql_sum_map. cbn [snd]. set (ps := order_by _ _).
  apply (sum_by_key p_ID u_Project u_Amount ps rows).
  - unfold ps. rewrite (order_by_perm (fun p => (p_ID p, 0))). pose proof (bo_projects _ Hok) as Hnd. rewrite !map_map in Hnd.
    eapply sublist_NoDup; [exact Hnd|]. apply (fmap_sublist p_ID), filter_sublist_of.
  - intros r Hr. pose proof Hr as [_ Hc]%sql_where_In. unfold claimable in Hc. destruct (u_Invoice r); [done|].
    apply andb_true_iff in Hc as [_ (p & Hp & E)%sql_exists_true]. apply andb_true_iff in E as [E _].
    replace (u_Project r) with (p_ID p) by lia. apply in_map, order_by_In, sql_where_In. split; [done|].
    apply sql_exists_true. exists r. split; [done|lia].
Qed.

(** The usage rows after a claim. *)
Lemma claimed_sum u start stop db id :
  (forall x i, In x (usage db) -> u_Invoice x = Some i -> i < id) ->
  let c := claimable u start stop db in
  sql_sum (on_invoice id) u_Amount (sql_update c (set_invoice id) (usage db)) = sql_sum (fun _ => true) u_Amount (sql_where c (usage db)) /\
  forall i, i < id -> sql_sum (on_invoice i) u_Amount (sql_update c (set_invoice id) (usage db)) = sql_sum (on_invoice i) u_Amount (usage db).
Proof.
  intros Hlt c. assert (forall x, c x = true -> u_Invoice x = None) as Hc by apply claimable_free. revert Hlt Hc. generalize c. clear c.
  generalize (usage db). intros us c Hlt Hc. induction us as [|x us IH]; [done|].
  destruct (IH (fun y i Hy => Hlt y i (or_intror Hy))) as [IH1 IH2]. simpl sql_update. simpl sql_where.
  pose proof (Hlt x) as Hx. specialize (Hc x). destruct (c x).
  - split; [|intros i Hi]; rewrite !sql_sum_cons; unfold on_invoice at 1; cbn [set_invoice u_Invoice u_Amount];
      [by rewrite Z.eqb_refl, IH1|]. rewrite IH2 by done. unfold on_invoice at 2. rewrite Hc by done.
    replace (id =? i) with false by lia. done.
  - split; [|intros i Hi]; rewrite !sql_sum_cons; [|by rewrite IH2]. unfold on_invoice at 1.
    destruct (u_Invoice x) as [i|]; [|done]. replace (i =? id) with false; [done|]. specialize (Hx i (or_introl eq_refl) eq_refl). lia.
Qed.

(** What issuing one invoice does. *)
Lemma issueInvoice_cases now u start stop pe db b db' :
  billing_ok db -> issueInvoice_tx (Q := Q) options now u start stop pe db = (Ok b, db') ->
  b = false /\ db' = db \/
  b = true /\ (forall v, In v (invoices db) -> (v_User v, v_Start v, v_End v) <> (u, start, pe)) /\
  exists v news, let id := n_invoice (counters db) + 1 in let c := claimable u start stop db in
    let charged := sql_sum (fun _ => true) u_Amount (sql_where c (usage db)) in
    (v_ID v, v_User v, v_Start v, v_End v) = (id, u, start, pe) /\ v_Total v = int64_of charged /\
    v_Total v = v_Subtotal v + v_Tax v /\ 0 <= v_Subtotal v /\ 0 <= v_Tax v /\ v_Tax v = contained_tax options (v_Total v) /\
    invoices db' = invoices db ++ [v] /\ n_invoice (counters db') = id /\
    lines db' = lines db ++ news /\ (forall l, In l news -> l_Invoice l = id) /\ sql_sum (fun _ => true) l_Amount news = charged /\
    usage db' = sql_update c (set_invoice id) (usage db).
Proof.
  intros Hok. unfold issueInvoice_tx. rewrite get_bind. destruct (sql_exists _ (invoices db)) eqn:X; [intros [= <- <-]; by left|].
  cbv zeta. destruct (sql_where _ (usage db)) as [|r rs] eqn:R; [intros [= <- <-]; by left|].
  set (ls := invoice_lines start (r :: rs) db). set (total := fold_left _ ls 0).
  destruct (existsb _ ls); [discriminate|]. destruct (_ || _) eqn:N; [discriminate|]. destruct (negb _) eqn:T; [discriminate|].
  destruct (sql_exists (fun v => ceq (v_Number v) _) (invoices db)); [discriminate|]. unfold tx_bind at 1, tx_modify at 1. set (db1 := with_counters _ _).
  destruct (insert_lines_ok (n_invoice (counters db) + 1) start ls db1) as (db2 & news & E & El & Hn & Hs & Ei & Eu & En).
  unfold tx_bind at 1. rewrite E. intros [= <- <-]. right. split; [done|]. split.
  - intros v Hv Ev. pose proof (sql_exists_false _ _ v X Hv) as Y. cbv beta in Y. injection Ev as E1 E2 E3. lia.
  - eexists _, news. cbv zeta. split; [|split; [|split; [|split; [|split; [|split; [|split; [simpl; rewrite Ei; reflexivity|]]]]]]].
    all: cbn [v_ID v_User v_Start v_End v_Total v_Subtotal v_Tax].
    + done.
    + unfold total. change 0 with (int64_of 0) at 1. rewrite fold_int64, Z.add_0_l. unfold ls. rewrite <- R, lines_cover; [done|exact Hok].
    + lia.
    + lia.
    + lia.
    + done.
    + simpl. rewrite En, El, Eu. split; [done|]. split; [done|]. split; [done|]. split; [|done].
      rewrite Hs. unfold ls. rewrite <- R. by rewrite lines_cover.
Qed.

Lemma claimed_usage u start stop db id x :
  In x (sql_update (claimable u start stop db) (set_invoice id) (usage db)) ->
  (In x (usage db) \/ u_Invoice x = Some id /\ start <= u_Period x < stop).
Proof.
  intros (y & Hy & ->)%sql_update_In. destruct (claimable u start stop db y) eqn:C; [|by left]. right. split; [done|].
  unfold claimable in C. destruct (u_Invoice y); [done|]. simpl. lia.
Qed.

Lemma issueInvoice_invoices now u start :
  txinv (fun db => billing_ok db /\ invoices_ok (TaxRateBP options) db)
    (issueInvoice_tx (Q := Q) options now u start (AddDate start 0 1 0) (last_day start)).
Proof.
  intros db b db' [Hb Hok] W. split; [by eapply issueInvoice_billing|].
  apply (issueInvoice_cases _ _ _ _ _ _ _ _ Hb) in W as [[_ ->]|(_ & Hnew & v & news & Ev & Et & Es & Ep & Ep' & Ex & Ei & En & El & Hn & Hs & Eu)]; [done|].
  set (id := n_invoice (counters db) + 1) in *. injection Ev as Eid Euser Est Een.
  assert (forall x i, In x (usage db) -> u_Invoice x = Some i -> i < id) as Hlt by (intros x i Hx E; pose proof (io_usage _ _ Hok x i Hx E); lia).
  destruct (claimed_sum u start (AddDate start 0 1 0) db id Hlt) as [S1 S2].
  split; rewrite ?Ei, ?En, ?El, ?Eu; cbv zeta in *.
  - intros w [Hw|[<-|[]]]%in_app_or; [pose proof (io_ids _ _ Hok w Hw); lia|lia].
  - intros l [Hl|Hl]%in_app_or; [pose proof (io_lines _ _ Hok l Hl); lia|rewrite (Hn l Hl); lia].
  - intros x i [Hx|[E _]]%claimed_usage Hi; [pose proof (Hlt x i Hx Hi); lia|]. rewrite E in Hi. injection Hi as <-. lia.
  - rewrite map_app. apply NoDup_app. split; [apply Hok|]. split; [|apply NoDup_singleton].
    intros k Hk ->%list_elem_of_singleton. apply list_elem_of_In, in_map_iff in Hk as (w & Ew & Hw). injection Ew as Eu1 Eu2.
    apply (Hnew w Hw). rewrite (io_last _ _ Hok w Hw), Eu1, Eu2, Euser, Est. done.
  - intros w [Hw|[<-|[]]]%in_app_or; [by apply (io_last _ _ Hok)|congruence].
  - intros w [Hw|[<-|[]]]%in_app_or; [|by rewrite Eid, S1]. rewrite S2; [by apply (io_total _ _ Hok)|].
    pose proof (io_ids _ _ Hok w Hw). lia.
  - intros w [Hw|[<-|[]]]%in_app_or; rewrite sql_sum_app.
    + rewrite (sql_sum_zero _ _ news), Z.add_0_r; [by apply (io_sum _ _ Hok)|]. intros l Hl. rewrite (Hn l Hl).
      pose proof (io_ids _ _ Hok w Hw). lia.
    + rewrite (sql_sum_zero _ _ (lines db)), Z.add_0_l, (sql_sum_ext _ (fun _ => true) _ l_Amount news), Hs; [done| |done|].
      * intros l Hl. rewrite (Hn l Hl). lia.
      * intros l Hl. pose proof (io_lines _ _ Hok l Hl). lia.
  - intros w [Hw|[<-|[]]]%in_app_or; [by apply (io_tax _ _ Hok)|done].
  - intros w x Hw Hx E. apply claimed_usage in Hx as [Hx|[E2 Hx]].
    + apply in_app_or in Hw as [Hw|[<-|[]]]; [by apply (io_rows _ _ Hok)|]. pose proof (Hlt x _ Hx E). lia.
    + apply in_app_or in Hw as [Hw|[<-|[]]]; [|by rewrite Est]. pose proof (io_ids _ _ Hok w Hw). rewrite E in E2. injection E2. lia.
Qed.

(** What is issued stays: later calls only add invoices. *)
Definition issued_kept db db' : Prop :=
  (exists more, invoices db' = invoices db ++ more) /\ n_invoice (counters db) <= n_invoice (counters db') /\
  forall id, id <= n_invoice (counters db) ->
    covered id (usage db') = covered id (usage db) /\ lines_of id (lines db') = lines_of id (lines db).

Lemma issued_kept_trans db1 db2 db3 : issued_kept db1 db2 -> issued_kept db2 db3 -> issued_kept db1 db3.
Proof.
  intros ([m1 E1] & L1 & K1) ([m2 E2] & L2 & K2). split; [exists (m1 ++ m2); by rewrite E2, E1, app_assoc|]. split; [lia|].
  intros id Hid. destruct (K1 id Hid) as [<- <-]. apply K2. lia.
Qed.

Lemma same_invoices_kept db db' : same_invoices db db' -> issued_kept db db'.
Proof.
  intros (Ei & El & En & Eb). split; [exists []; by rewrite Ei, app_nil_r|]. split; [lia|]. intros id _.
  by rewrite !covered_billed, Eb, El.
Qed.

Lemma issueInvoice_kept now u start stop pe db b db' :
  billing_ok db -> issueInvoice_tx (Q := Q) options now u start stop pe db = (Ok b, db') -> issued_kept db db'.
Proof.
  intros Hb W. apply (issueInvoice_cases _ _ _ _ _ _ _ _ Hb) in W as [[_ ->]|(_ & _ & v & news & _ & _ & _ & _ & _ & _ & Ei & En & El & Hn & _ & Eu)];
    [by apply same_invoices_kept, same_invoices_refl|].
  split; [by exists [v]|]. split; [lia|]. intros id Hid. rewrite Eu, El. split.
  - unfold covered. pose proof (claimable_free u start stop db) as Hc. revert Hc. generalize (claimable u start stop db).
    clear Eu. intros c Hc. induction (usage db) as [|x us IH]; [done|]. simpl. destruct (c x) eqn:C.
    + assert (on_invoice id (set_invoice (n_invoice (counters db) + 1) x) = false) as -> by (unfold on_invoice; simpl; lia).
      assert (on_invoice id x = false) as -> by (unfold on_invoice; by rewrite (Hc x C)). exact IH.
    + destruct (on_invoice id x); simpl; [f_equal|]; exact IH.
  - unfold lines_of, sql_where. rewrite List.filter_app. replace (List.filter _ news) with (@nil lineRow); [by rewrite app_nil_r|].
    clear - Hn Hid. induction news as [|l news IH]; [done|]. simpl. rewrite (Hn l (or_introl eq_refl)).
    replace (n_invoice (counters db) + 1 =? id) with false by lia. apply IH. intros x Hx. apply Hn. by right.
Qed.

Lemma issue_all_kept env start stop pe us n db :
  stop = AddDate start 0 1 0 -> pe = last_day start -> billing_ok db /\ invoices_ok (TaxRateBP options) db ->
  issued_kept db (snd (issue_all (Q := Q) options env start stop pe us n db)).
Proof.
  intros Est Epe. revert n db. induction us as [|u us IH]; intros n db Hok; simpl; [by apply same_invoices_kept, same_invoices_refl|]. unfold tx_bind.
  destruct (WithTx _ _ db) as [r db1] eqn:W.
  assert (issued_kept db db1) as Hk.
  { apply WithTx_cases in W as [->|[b W]]; [by apply same_invoices_kept, same_invoices_refl|].
    eapply issueInvoice_kept; [apply Hok|exact W]. }
  destruct r as [b|e]; [|exact Hk]. eapply issued_kept_trans; [exact Hk|]. apply IH.
  rewrite Est, Epe in W. exact (WithTx_inv _ _ _ _ _ _ (issueInvoice_invoices _ u start) Hok W).
Qed.

Lemma cloud_exec_kept c db :
  billing_ok db /\ invoices_ok (TaxRateBP options) db -> issued_kept db (cloud_exec options c db).
Proof.
  intros Hok. destruct c; try (apply same_invoices_kept; by apply cloud_exec_same). cbn [cloud_exec].
  unfold IssueInvoices. rewrite get_bind. apply issue_all_kept; [reflexivity|unfold last_day; reflexivity|exact Hok].
Qed.

Lemma issue_all_invoices env start stop pe us n db :
  stop = AddDate start 0 1 0 -> pe = last_day start -> billing_ok db /\ invoices_ok (TaxRateBP options) db ->
  invoices_ok (TaxRateBP options) (snd (issue_all (Q := Q) options env start stop pe us n db)).
Proof.
  intros Est Epe. revert n db. induction us as [|u us IH]; intros n db Hok; simpl; [apply Hok|]. unfold tx_bind.
  destruct (WithTx _ _ db) as [[b|e] db1] eqn:W.
  - apply IH. rewrite Est, Epe in W. exact (WithTx_inv _ _ _ _ _ _ (issueInvoice_invoices _ u start) Hok W).
  - rewrite Est, Epe in W. exact (proj2 (WithTx_inv _ _ _ _ _ _ (issueInvoice_invoices _ u start) Hok W)).
Qed.

Lemma cloud_exec_invoices c db :
  billing_ok db /\ invoices_ok (TaxRateBP options) db -> invoices_ok (TaxRateBP options) (cloud_exec options c db).
Proof.
  intros Hok. destruct c; try (eapply same_invoices_ok; [by apply cloud_exec_same|apply Hok]). cbn [cloud_exec].
  unfold IssueInvoices. rewrite get_bind. apply issue_all_invoices; [reflexivity|unfold last_day; reflexivity|exact Hok].
Qed.

Lemma cloud_run_invoices cs db :
  billing_ok db /\ invoices_ok (TaxRateBP options) db -> invoices_ok (TaxRateBP options) (cloud_run options cs db).
Proof.
  revert db. induction cs as [|c cs IH]; intros db Hok; [apply Hok|]. simpl. apply IH. split.
  - apply cloud_exec_billing, Hok.
  - by apply cloud_exec_invoices.
Qed.

Lemma opening_invoices bp catalogue apps (q : Q) : invoices_ok bp (opening catalogue apps q).
Proof. split; simpl; try done; constructor. Qed.

End Invoices.

Section InvoiceTheorems.
Context {Q : Type} `{Collation} `{CommandQueue Q} `{ApplicationRules} (options : Options).

(** C34. Invoices add up.  With a tax rate that is not negative, and from a
    catalogue whose plans have a positive hourly price and a monthly price of at
    least one hour, after any sequence of calls, a customer has at most one
    invoice per month; the total of an invoice is the sum of the usage rows that
    carry its number, all of its month, and the sum of its lines, in 64-bit
    arithmetic; it is the subtotal plus the tax, neither of them negative; and
    the tax is the share of a tax-inclusive total at the configured rate, rounded
    down, as long as the product fits 64 bits.  No later call, a deployment that
    fails, a billing run or another invoice run, changes an issued invoice, the
    hours and amounts it covers or its lines. *)
Theorem invoices_add_up (catalogue : list Plan) (apps : list string) (q : Q) (cs : list cloud_call) :
  (forall p, In p catalogue -> 0 < pl_Hourly p <= pl_Monthly p /\ pl_Monthly p < two63) -> 0 <= TaxRateBP options ->
  let db := cloud_run options cs (opening catalogue apps q) in
  NoDup (map (fun v => (v_User v, v_Start v)) (invoices db)) /\
  forall v, In v (invoices db) ->
    v_Total v = int64_of (sql_sum (on_invoice (v_ID v)) u_Amount (usage db)) /\
    v_Total v = int64_of (sql_sum (fun l => l_Invoice l =? v_ID v) l_Amount (lines db)) /\
    (forall u, In u (usage db) -> u_Invoice u = Some (v_ID v) -> v_Start v <= u_Period u < AddDate (v_Start v) 0 1 0) /\
    v_Total v = v_Subtotal v + v_Tax v /\ 0 <= v_Subtotal v /\ 0 <= v_Tax v /\
    (0 <= v_Total v * TaxRateBP options < two63 ->
       v_Tax v * (10000 + TaxRateBP options) <= v_Total v * TaxRateBP options < (v_Tax v + 1) * (10000 + TaxRateBP options)) /\
    (forall c, let db' := cloud_exec options c db in
       In v (invoices db') /\ covered (v_ID v) (usage db') = covered (v_ID v) (usage db) /\
       lines_of (v_ID v) (lines db') = lines_of (v_ID v) (lines db)).
Proof.
  intros Hcat Hbp db. assert (billing_ok db /\ invoices_ok (TaxRateBP options) db) as [Hb Hok].
  { assert (billing_ok (opening catalogue apps q)) as Ho.
    { apply opening_billing. intros v (p & <- & Hp)%in_map_iff. by apply Hcat. }
    split; [by apply cloud_run_billing|]. apply cloud_run_invoices. split; [done|apply opening_invoices]. }
  split; [apply Hok|]. intros v Hv. destruct (io_tax _ _ Hok v Hv) as (E1 & E2 & E2' & E3).
  split; [by apply (io_total _ _ Hok)|]. split; [by apply (io_sum _ _ Hok)|]. split; [by intros u; apply (io_rows _ _ Hok)|].
  do 3 (split; [done|]). split.
  - intros Hr. rewrite E3, int64_small by (unfold is_int64, two63 in *; lia).
    rewrite Z.quot_div_nonneg by lia. pose proof (Z.div_mod (v_Total v * TaxRateBP options) (10000 + TaxRateBP options)).
    pose proof (Z.mod_pos_bound (v_Total v * TaxRateBP options) (10000 + TaxRateBP options)). lia.
  - intros c db'. destruct (cloud_exec_kept options c db (conj Hb Hok)) as ([more E] & _ & Hk). unfold db'.
    split; [rewrite E; apply in_or_app; by left|]. apply Hk. by apply (io_ids _ _ Hok).
Qed.

End InvoiceTheorems.
