(* ===== verification/CloudQueue.v ===== *)
(** * The command ledger as the queue of the commerce layer

    [CommandQueue] is what confirming an order relies on; the ledger of Ledger.v
    provides it: what [SubmitInTx] returns is in the table, whether it was
    inserted or found under its idempotency key. *)

From Stdlib Require Import ZArith Lia Bool Ascii String.
From stdpp Require Import base tactics list strings gmap.
From S2P Require Import Prelude GoStrings Sqlstore Ledger LedgerRows LedgerOps LedgerFacts Cloud.

Local Open Scope string_scope.
Local Open Scope list_scope.
Local Open Scope bool_scope.
Local Open Scope Z_scope.

Section Queue.
Context `{Collation} `{Platform} (historyLimit : Z).

Definition ledger_holds (st : Store) (c : Command) : Prop := exists r, In r (commands st) /\ command r = c.

(** A key that was used before gives back a command for the same work. *)
Lemma idempotentTx_found input art st c st' :
  idempotentTx input art st = (Ok (Some c), st') ->
  st' = st /\ ledger_holds st c /\ Action c = TrimSpace (in_Action input) /\ ServerID c = TrimSpace (in_ServerID input) /\
  Target c = TrimSpace (in_Target input).
Proof.
  unfold idempotentTx, tx_bind, tx_gets. destruct (sql_first _ _) as [row|] eqn:F; [|discriminate]. cbv zeta.
  destruct (_ || _ || _ || _ || _) eqn:B; [discriminate|]. intros [= <- <-].
  apply sql_first_Some in F as [Hin _]. apply orb_false_elim in B as [B _]. apply orb_false_elim in B as [B Ht].
  apply orb_false_elim in B as [B Hs]. apply orb_false_elim in B as [_ Ha].
  apply negb_false_iff, String.eqb_eq in Ha, Hs, Ht. split; [done|]. split; [by exists row|done].
Qed.

Lemma submitTx_unique env input st sub cleanup st' :
  unique_ids (commands st) -> submitTx historyLimit env input st = (Ok (sub, cleanup), st') -> unique_ids (commands st').
Proof.
  intros Hu [(c & _ & -> & _)|(rec & s1 & s2 & _ & Hn & -> & Hi & -> & _)]%submitTx_ok; [done|].
  apply delete_commands_unique. pose proof (insertTx_ok _ _ _ _ _ Hi) as (-> & _ & _ & Hv). apply unique_snoc.
  - by apply delete_commands_unique.
  - intros x Hx. by apply (sql_exists_false _ _ x Hv), orb_false_elim in Hx as [? _].
Qed.

Lemma SubmitInTx_accepts env input st sub ids st' :
  unique_ids (commands st) -> SubmitInTx historyLimit env input st = (Ok (sub, ids), st') ->
  unique_ids (commands st') /\ ledger_holds st' (sub_Command sub) /\ Action (sub_Command sub) = TrimSpace (in_Action input) /\
  ServerID (sub_Command sub) = TrimSpace (in_ServerID input) /\ Target (sub_Command sub) = TrimSpace (in_Target input).
Proof.
  intros Hu. unfold SubmitInTx. rewrite lift_bind. destruct (validateInput input false) as [[]|]; [|discriminate]. intros Hs.
  split; [by eapply submitTx_unique|]. destruct (submitTx_ok _ _ _ _ _ _ _ Hs) as
    [(c & Hi & -> & -> & _)|(rec & s1 & s2 & _ & Hn & _ & _ & _ & E & _)].
  - by apply idempotentTx_found in Hi as [_ ?].
  - destruct (submitTx_submitted _ _ _ _ _ _ _ Hu Hs) as [new Hnew]; [by rewrite E|].
    split; [exists new; split; [apply Hnew|apply (sb_command _ _ _ _ _ Hnew)]|]. rewrite E. simpl. unfold newRecord in Hn.
    destruct (newID _); [|discriminate]. by injection Hn as <-.
Qed.

Definition ledger_queue : CommandQueue Store.
Proof.
  refine {| QueueEnv := Env; queue_SubmitInTx := SubmitInTx historyLimit;
            queue_ForgetInputs ids st := snd (ForgetInputs (E := qerr) ids st);
            queue_ok st := unique_ids (commands st); queue_holds := ledger_holds |}.
  - intros env input q sub ids q' Hu. by apply SubmitInTx_accepts.
  - intros ids q Hu. by rewrite ForgetInputs_run.
Defined.

End Queue.
