(* ===== verification/CloudRuns.v ===== *)
(** * Concrete runs of the commerce layer

    A shop whose queue is the command ledger: the hypotheses of the properties
    of the commerce layer hold of databases computed by running it, and four
    runs show behaviour its comments do not promise. *)

From Stdlib Require Import ZArith Lia Bool Ascii String.
From stdpp Require Import base tactics list strings gmap.
From S2P Require Import Prelude GoStrings GoTime Sqlstore Ledger LedgerRows LedgerOps LedgerSteps LedgerRuns Cloud CloudOps CloudWallet CloudOrders CloudBilling CloudInvoices CloudQueue.

Local Open Scope string_scope.
Local Open Scope list_scope.
Local Open Scope bool_scope.
Local Open Scope Z_scope.

#[local] Existing Instance binary_collation.
#[local] Existing Instance demo_platform.

#[local] Instance shop_queue : CommandQueue Store := ledger_queue 100.

(** Names are taken as they are, and every image deploys. *)
#[local] Instance shop_rules : ApplicationRules :=
  {| ToLower s := s; validate_application _ _ name image port := Some (mkSpec name image port "{}") |}.

Definition shop_options : Options := mkOptions 24 900 100000 1000000000.
Definition plan_of (monthly : Z) : Plan := mkPlan 1 "small" "Small" 500 512 1000 monthly true.
Definition admin : User := mkUser 9 "ops@example.org" "Operator" RoleAdmin.

(** A call at instant [t]; [n] numbers its random bytes. *)
Definition call_at (t n : Z) : CloudEnv Store := mkCloudEnv t t [] (mkEnv t [] (fun _ => false) (Some (replicate 16 (n mod 256)))) (fun _ => None).
Definition billing_at (t : Z) : BillingEnv (Q := Store) := mkBilling t (fun p h => call_at t p) (fun _ => None) None None.

(** Noon on 30 March 2026, UTC. *)
Definition noon : Z := Date 2026 3 30 + 12 * hour.

Definition order_one : OrderInput := mkOrderInput "shop" "registry/shop:1" "" "small" 8080.
Definition web_1 : ProvisionTarget := mkTarget 1 "req-7" "web-1".

Definition opening_calls : list (cloud_call (Q := Store)) :=
  [KRegister noon [] (Some "ada@example.org") "Ada" "correct horse" true;
   KTopUp (call_at noon 1) (billing_at noon) 1 100000 "pay-1";
   KPlaceOrder (call_at noon 2) 1 order_one].

(** The deployment command of the order, as the ledger reports it in a state. *)
Definition deployment (s : CommandState) : Command :=
  mkCommand "application.deploy" "Operator" 1 1 true "default" noon "" "" (id_of 3) None "" None 3 None "web-1" "req-7" "" "web-1" s
    "application/shop" noon.

Definition shop (monthly : Z) (cs : list cloud_call) : Cloud Store :=
  cloud_run shop_options cs (opening [plan_of monthly] [] empty_store).

Definition confirm_one : cloud_call (Q := Store) := KConfirmOrder (call_at noon 3) admin 1 web_1.
Definition deployed : cloud_call (Q := Store) := KTransition (call_at noon 4) (deployment Succeeded).
Definition live_calls : list cloud_call := opening_calls ++ [confirm_one; deployed].

Lemma plan_priced monthly p :
  1000 <= monthly < two63 -> In p [plan_of monthly] -> 0 < pl_Hourly p <= pl_Monthly p /\ pl_Monthly p < two63.
Proof. intros Hm [<-|[]]. simpl. lia. Qed.

Ltac int64_calls := repeat (apply Forall_cons; split; [done|]); apply Forall_nil; done.

(** ** The properties at concrete runs *)

Lemma balance_is_ledger_sum_witness :
  map w_Balance (wallets (cloud_exec shop_options confirm_one (shop 3000 opening_calls))) = [99000] /\
  exists news, transactions (cloud_exec shop_options confirm_one (shop 3000 opening_calls)) =
    transactions (shop 3000 opening_calls) ++ news.
Proof.
  split; [vm_compute; reflexivity|].
  refine (proj2 (balance_is_ledger_sum shop_options [plan_of 3000] [] empty_store opening_calls confirm_one _ _)).
  - unfold opening_calls. int64_calls.
  - exact I.
Defined.

Lemma ordered_money : money_ok (shop 3000 opening_calls).
Proof. unfold shop. apply cloud_run_money; [apply _| |apply opening_money]. unfold opening_calls. int64_calls. Qed.

Lemma confirmation_is_an_outbox_witness :
  exists o p c db', ConfirmOrder shop_options (call_at noon 3) admin 1 web_1 (shop 3000 opening_calls) = (Ok (o, p, c), db') /\
    confirmation shop_options 1 admin web_1 (shop 3000 opening_calls) (p_ID p) c db'.
Proof.
  destruct (ConfirmOrder shop_options (call_at noon 3) admin 1 web_1 (shop 3000 opening_calls)) as [[[[o p] c]|e] db'] eqn:C.
  2:{ exfalso. revert C. vm_compute. discriminate. }
  exists o, p, c, db'. split; [reflexivity|].
  refine (proj2 (confirmation_is_an_outbox shop_options (call_at noon 3) admin 1 web_1 (shop 3000 opening_calls) db'
    (Ok (o, p, c)) ordered_money _ C)).
  replace (queue (shop 3000 opening_calls)) with empty_store by (vm_compute; reflexivity). constructor.
Defined.

(** The customer pays again with the same key after the order was confirmed. *)
Lemma topup_credits_once_witness :
  let paid := shop 3000 [KRegister noon [] (Some "ada@example.org") "Ada" "correct horse" true] in
  exists t r db1, TopUp shop_options (call_at noon 1) (billing_at noon) 1 100000 "pay-1" paid = (Ok (t, r), db1) /\
    let db2 := cloud_run shop_options [KPlaceOrder (call_at noon 2) 1 order_one; confirm_one] db1 in
    transactions (snd (TopUp shop_options (call_at noon 5) (billing_at noon) 1 100000 " pay-1" db2)) = transactions db2.
Proof.
  intros paid. destruct (TopUp shop_options (call_at noon 1) (billing_at noon) 1 100000 "pay-1" paid) as [[[t r]|e] db1] eqn:T.
  2:{ exfalso. revert T. vm_compute. discriminate. }
  exists t, r, db1. split; [reflexivity|]. intros db2.
  destruct (TopUp shop_options (call_at noon 5) (billing_at noon) 1 100000 " pay-1" db2) as [out db3] eqn:T2.
  refine (proj1 (topup_credits_once shop_options (call_at noon 1) (call_at noon 5) (billing_at noon) (billing_at noon) 1 100000 100000
    "pay-1" " pay-1" t r [KPlaceOrder (call_at noon 2) 1 order_one; confirm_one] paid db1 db3 out _ T _ T2)).
  - int64_calls.
  - vm_compute. reflexivity.
Defined.

Definition confirmed_calls : list cloud_call := opening_calls ++ [confirm_one].

Lemma confirmed_money : money_ok (shop 3000 confirmed_calls).
Proof. unfold shop. apply cloud_run_money; [apply _| |apply opening_money]. unfold confirmed_calls, opening_calls. int64_calls. Qed.

(** The deployment fails; the ledger reports it twice. *)
Lemma deployment_outcome_settles_once_witness :
  let failed := OnCommandTransition (call_at noon 4) (deployment Failed) (shop 3000 confirmed_calls) in
  fst failed = Ok tt /\ map w_Balance (wallets (snd failed)) = [100000] /\
  snd (OnCommandTransition (call_at noon 5) (deployment Succeeded) (snd failed)) = snd failed.
Proof.
  destruct (OnCommandTransition (call_at noon 4) (deployment Failed) (shop 3000 confirmed_calls)) as [[[]|e] db1] eqn:T.
  2:{ exfalso. revert T. vm_compute. discriminate. }
  split; [reflexivity|]. split; [change db1 with (snd (@Ok cerr unit tt, db1)); rewrite <- T; vm_compute; reflexivity|].
  destruct (sql_first (deployed_by (ID (deployment Failed))) (projects (shop 3000 confirmed_calls))) as [p|] eqn:P.
  2:{ exfalso. revert P. vm_compute. discriminate. }
  destruct (sql_first (fun i => i_ID i =? p_Item p) (items (shop 3000 confirmed_calls))) as [i|] eqn:I.
  2:{ exfalso. revert P I. vm_compute. intros [= <-]. discriminate. }
  refine (proj2 (proj2 (proj2 (deployment_outcome_settles_once (call_at noon 4) (call_at noon 5) (deployment Failed) (deployment Succeeded)
    false p i (shop 3000 confirmed_calls) db1 confirmed_money _ P I _ T))) _).
  - reflexivity.
  - revert P. vm_compute. intros [= <-]. reflexivity.
  - reflexivity.
Defined.

(** Four hours on a plan whose month costs three. *)
Definition billed_calls : list cloud_call := live_calls ++ [KRunBilling (billing_at (noon + 3 * hour))].

Lemma monthly_cap_holds_witness :
  map u_Amount (usage (shop 3000 billed_calls)) = [1000; 1000; 1000; 0] /\
  forall p t, In p (projects (shop 3000 billed_calls)) ->
    sql_sum (fun u => (u_Project u =? p_ID p) && in_month t (u_Period u)) u_Amount (usage (shop 3000 billed_calls)) <= p_Monthly p.
Proof.
  split; [vm_compute; reflexivity|].
  refine (proj1 (proj2 (monthly_cap_holds shop_options [plan_of 3000] [] empty_store billed_calls _))).
  intros p. apply plan_priced. unfold two63. lia.
Defined.

Definition invoiced_calls : list cloud_call := billed_calls ++ [KIssueInvoices (fun u => call_at (noon + 2 * day) u) noon].

Lemma invoices_add_up_witness :
  map (fun v => (v_Subtotal v, v_Tax v, v_Total v)) (invoices (shop 3000 invoiced_calls)) = [(2753, 247, 3000)] /\
  NoDup (map (fun v => (v_User v, v_Start v)) (invoices (shop 3000 invoiced_calls))).
Proof.
  split; [vm_compute; reflexivity|].
  refine (proj1 (invoices_add_up shop_options [plan_of 3000] [] empty_store invoiced_calls _ _)).
  - intros p. apply plan_priced. unfold two63. lia.
  - simpl. lia.
Defined.

(** ** What the comments do not say *)

(** A top-up whose key is the one billing will use for the next hour: from then
    on every billing run reports a conflict for the project at that hour and
    bills nothing more, while the project stays active. *)
Theorem topup_key_stops_billing :
  let db := shop 600000 (live_calls ++ [KTopUp (call_at noon 6) (billing_at noon) 1 100000 (usage_key 1 (noon + hour))]) in
  let '(r1, db1) := RunBilling (billing_at (noon + 3 * hour)) db in
  let '(r2, db2) := RunBilling (billing_at (noon + 30 * day)) db1 in
  FirstError r1 = Some Conflict /\ FirstError r2 = Some Conflict /\ ChargedHours r1 + ChargedHours r2 = 0 /\
  map u_Period (usage db2) = [noon] /\ map p_Status (projects db2) = [ProjectActive].
Proof. vm_compute. repeat split. Qed.

(** A pass of the billing loop at ten o'clock on 31 March names 3 March as a day
    of last month, and invoices March before it is over; the hours of the rest
    of the day never get on an invoice, although the passes of April ask for
    March again. *)
Theorem month_end_pass_invoices_early :
  let pass t db := billing_pass shop_options true (billing_at t) (fun u => call_at t u) t db in
  let morning := pass (noon + 22 * hour) (shop 600000 live_calls) in
  let later := pass (noon + 15 * day) (pass (noon + 35 * hour) morning) in
  map (fun v => (v_Start v, v_Total v)) (invoices morning) = [(Date 2026 3 1, 23000)] /\
  invoices later = invoices morning /\
  sql_count (fun u => in_month noon (u_Period u)) (usage later) = 36 /\
  sql_sum (fun u => in_month noon (u_Period u) && negb (invoiced u)) u_Amount (usage later) = 13000.
Proof. vm_compute. repeat split. Qed.

(** A deployment that needs attention is refunded; when the operator retries the
    command and it succeeds, the application runs and nothing is charged for it,
    then or later. *)
Theorem retried_deployment_is_free :
  let db := shop 600000 (confirmed_calls ++
    [KTransition (call_at noon 4) (deployment NeedsAttention); KTransition (call_at noon 5) (deployment Succeeded);
     KRunBilling (billing_at (noon + 5 * hour))]) in
  map p_Status (projects db) = [ProjectFailed] /\ map o_Status (orders db) = [OrderFailed] /\ usage db = [] /\
  map w_Balance (wallets db) = [100000].
Proof. vm_compute. repeat split. Qed.

(** A correction whose reason is within its limit of 255 bytes fails in the
    database: the description adds a prefix to it. *)
Theorem long_reason_is_refused_late :
  let reason := of_bytes (replicate 250 (chr 97)) in
  len reason <= 255 /\
  fst (Adjust noon [] admin 1 500 reason "fix-1" (shop 3000 opening_calls)) = Err (CloudDB ErrDataTooLong).
Proof. vm_compute. split; [discriminate|reflexivity]. Qed.
