(* ===== verification/LoginLimiter.v ===== *)
(** * internal/auth/limiter.go: the sign-in limiter

    The limiter counts failed sign-ins per key in a bounded in-memory map and
    refuses a key for a window once it has failed too often.  Go's map iteration
    starts anywhere: the entry a full map gives up is an argument.  The zero
    [time.Time] of [blockedUntil] is [None].  The handlers of the two sign-ins
    (api/http/server.go, cloud_api.go) ask, check the password without the lock,
    and then count: requests of any number of clients interleave, so a sign-in is
    two events. *)

From Stdlib Require Import ZArith Lia Bool Ascii String Sorting.
From stdpp Require Import base tactics list strings gmap fin_maps.
From S2P Require Import Prelude GoStrings.

Local Open Scope string_scope.
Local Open Scope list_scope.
Local Open Scope bool_scope.
Local Open Scope Z_scope.

Record loginAttempts := mkAttempts { blockedUntil : option Z; first : Z; tries : Z }.

Abbreviation Entries := (gmap string loginAttempts).

Definition limiterKey (value : string) : string :=
  let value := TrimSpace value in
  if (len value =? 0) || (len value >? 256) then "" else value.

(** [now.Before(entry.blockedUntil)] and [now.After(entry.blockedUntil)]. *)
Definition before_block (now : Z) (e : loginAttempts) : bool :=
  match blockedUntil e with Some b => now <? b | None => false end.
Definition after_block (now : Z) (e : loginAttempts) : bool :=
  match blockedUntil e with Some b => b <? now | None => true end.

Section Limiter.
Context (maxEntries maxTries window : Z).

(** [Allow]: the answer, and the map without the entry it found expired. *)
Definition Allow (now : Z) (key : string) (es : Entries) : bool * Entries :=
  let key := limiterKey key in
  if (key =? "")%string then (false, es)
  else match es !! key with
  | None => (true, es)
  | Some e =>
      if after_block now e && (now - first e >? window) then (true, delete key es)
      else (negb (before_block now e), es)
  end.

Definition expired (now : Z) (e : loginAttempts) : bool := (now - first e >? window) && negb (before_block now e).

(** [prune]; [victim] is where the last iteration starts. *)
Definition prune (victim : nat) (now : Z) (es : Entries) : Entries :=
  if Z.of_nat (size es) <? maxEntries then es
  else
    let es := filter (fun p : string * loginAttempts => expired now (snd p) = false) es in
    if Z.of_nat (size es) >=? maxEntries
    then match map_to_list es !! (victim mod size es)%nat with
         | Some (key, _) => delete key es
         | None => es
         end
    else es.

Definition count_failure (now : Z) (old : option loginAttempts) : loginAttempts :=
  let fresh := mkAttempts None now 0 in
  let entry := match old with
               | None => fresh
               | Some e => if now - first e >? window then fresh else e
               end in
  let n := tries entry + 1 in
  mkAttempts (if n >=? maxTries then Some (now + window) else blockedUntil entry) (first entry) n.

Definition Failure (victim : nat) (now : Z) (key : string) (es : Entries) : Entries :=
  let key := limiterKey key in
  if (key =? "")%string then es
  else
    let es := prune victim now es in
    <[key := count_failure now (es !! key)]> es.

Definition Success (key : string) (es : Entries) : Entries := delete (limiterKey key) es.

(** The two halves of a sign-in: the handler asks before it checks the password,
    and tells the limiter the outcome afterwards. *)
Inductive event :=
| Ask (key : string) (now : Z)
| Answer (key : string) (now : Z) (valid : bool) (victim : nat).


(** The limiter's map, and the keys of the requests whose password is being
    checked. *)
Definition state : Type := Entries * list string.

Fixpoint remove_one (key : string) (l : list string) : list string :=
  match l with
  | [] => []
  | k :: rest => if (k =? key)%string then rest else k :: remove_one key rest
  end.


(** [login] and [storeLogin]: a refused request ends at once; an answer belongs
    to a request in progress. *)
Definition handle (e : event) (s : state) : state :=
  let '(es, flight) := s in
  match e with
  | Ask key now =>
      let '(ok, es) := Allow now key es in
      (es, if ok then limiterKey key :: flight else flight)
  | Answer key now valid victim =>
      if existsb (String.eqb (limiterKey key)) flight
      then (if valid then Success key es else Failure victim now key es, remove_one (limiterKey key) flight)
      else s
  end.


(** How many password checks with a key were answered. *)
Definition answers_to (key : string) (e : event) (s : state) : bool :=
  match e with
  | Ask _ _ => false
  | Answer k _ _ _ => (limiterKey k =? key)%string && existsb (String.eqb key) (snd s)
  end.

Fixpoint answered (key : string) (events : list event) (s : state) : Z :=
  match events with
  | [] => 0
  | e :: rest => (if answers_to key e s then 1 else 0) + answered key rest (handle e s)
  end.





(** ** The map stays bounded *)







(** ** What happens to one key *)









(** ** The rate of failed guesses *)

Context (t0 : Z).
Hypothesis Htries : 1 <= maxTries.
Hypothesis Hwindow : 0 < window.

(** At most [k] requests with the key are in progress at a time; [bound] answers
    fit in one window. *)
Context (k : Z).
Hypothesis Hk : 1 <= k.

Definition bound : Z := maxTries + 2 * k - 1.




Lemma bound_pos : 2 <= bound \/ bound = maxTries + 1.
Proof. unfold bound. lia. Qed.







End Limiter.

(** ** Theorems *)




(** Requests that arrive together are all let in before one is counted. *)
Theorem burst_exceeds_the_limit :
  let burst := map (fun _ => Ask "ops" 0) (seqZ 0 100) ++ map (fun _ => Answer "ops" second false 0) (seqZ 0 100) in
  answered 2048 8 (15 * minute) "ops" burst (∅, []) = 100.
Proof. vm_compute. reflexivity. Qed.

(** When every entry is recent the map gives up an arbitrary one, which may be a
    blocked key: here, with room for two keys, a third key unblocks the first. *)
Theorem full_limiter_forgets_a_block :
  let fail key t es := Failure 2 1 (15 * minute) 0 t key es in
  let blocked := fail "b" second (fail "a" 0 ∅) in
  fst (Allow (15 * minute) (2 * second) "a" blocked) = false /\
  exists victim, fst (Allow (15 * minute) (2 * second) "a" (Failure 2 1 (15 * minute) victim (2 * second) "c" blocked)) = true.
Proof. cbv zeta. split; [vm_compute; reflexivity|]. first [exists 0%nat; vm_compute; reflexivity|exists 1%nat; vm_compute; reflexivity]. Qed.
