(* ===== verification/GoText.v ===== *)
(** * More of Go's [strings], [regexp], [sort] and [net]

    The text functions of the routing code (src/internal/ops).  Case mapping of
    ASCII is defined; the mapping of the other letters is Unicode's table, a
    parameter ([CaseTable]) with no law.  Regular expressions of the form
    [^[first][rest]{0,n}$] are [pattern]. *)

From Stdlib Require Import ZArith Lia Bool Ascii String.
From stdpp Require Import base tactics list strings sorting.
From S2P Require Import Prelude GoStrings.

Local Open Scope string_scope.
Local Open Scope list_scope.
Local Open Scope bool_scope.
Local Open Scope Z_scope.

(** ** Case mapping *)

(** What [unicode.ToLower] and [unicode.ToUpper] do to a letter outside ASCII,
    given by its encoding. *)
Class CaseTable := { lower_wide : list ascii -> list ascii; upper_wide : list ascii -> list ascii }.

Definition lower_ascii (c : ascii) : ascii := if between 65 90 (code c) then chr (code c + 32) else c.
Definition upper_ascii (c : ascii) : ascii := if between 97 122 (code c) then chr (code c - 32) else c.

Definition is_ascii (c : ascii) : bool := code c <? 128.

Section CaseMapping.
Context `{CaseTable}.

Definition map_case (narrow : ascii -> ascii) (wide : list ascii -> list ascii) (s : string) : string :=
  if forallb is_ascii (bytes s) then of_bytes (map narrow (bytes s))
  else string_of_runes (map (fun r => match r with [c] => [narrow c] | _ => wide r end) (runes s)).

Definition ToLower (s : string) : string := map_case lower_ascii lower_wide s.
Definition ToUpper (s : string) : string := map_case upper_ascii upper_wide s.

End CaseMapping.

(** A table that leaves the other letters alone; it instantiates the parameter
    in concrete runs, whose text is ASCII. *)
Definition plain_case : CaseTable := {| lower_wide := fun r => r; upper_wide := fun r => r |}.

(** ** Prefixes, suffixes and separators *)

Definition TrimPrefix (s p : string) : string :=
  if HasPrefix s p then of_bytes (drop (String.length p) (bytes s)) else s.

Definition TrimSuffix (s p : string) : string :=
  if HasSuffix s p then of_bytes (take (String.length s - String.length p) (bytes s)) else s.

Fixpoint drop_char (c : ascii) (l : list ascii) : list ascii :=
  match l with
  | x :: l' => if Ascii.eqb x c then drop_char c l' else l
  | [] => []
  end.

(** [strings.Trim(s, cutset)] for a cutset of one character. *)
Definition TrimChar (c : ascii) (s : string) : string :=
  of_bytes (rev (drop_char c (rev (drop_char c (bytes s))))).

Fixpoint split_bytes (c : ascii) (acc l : list ascii) : list (list ascii) :=
  match l with
  | [] => [rev acc]
  | x :: l' => if Ascii.eqb x c then rev acc :: split_bytes c [] l' else split_bytes c (x :: acc) l'
  end.

(** [strings.Split(s, sep)] for a separator of one character. *)
Definition SplitChar (c : ascii) (s : string) : list string := map of_bytes (split_bytes c [] (bytes s)).

Definition ContainsAny (s chars : string) : bool :=
  existsb (fun c => existsb (Ascii.eqb c) (bytes chars)) (bytes s).

Fixpoint Join (items : list string) (sep : string) : string :=
  match items with
  | [] => ""
  | [x] => x
  | x :: rest => (x ++ sep ++ Join rest sep)%string
  end.

(** The characters [\r], [\n], [\x00], tab and space as one-character strings. *)
Definition controls : string := of_bytes [chr 13; chr 10; chr 0].
Definition controls_and_blanks : string := of_bytes [chr 13; chr 10; chr 0; chr 32; chr 9].

(** ** Patterns *)

Definition digit (c : ascii) : bool := between 48 57 (code c).
Definition lower_case (c : ascii) : bool := between 97 122 (code c).
Definition upper_case (c : ascii) : bool := between 65 90 (code c).
Definition alnum (c : ascii) : bool := digit c || lower_case c || upper_case c.
Definition any_of (chars : string) (c : ascii) : bool := existsb (Ascii.eqb c) (bytes chars).

(** [^[first][rest]{0,n}$]. *)
Definition pattern (first rest : ascii -> bool) (n : Z) (s : string) : bool :=
  match bytes s with
  | [] => false
  | c :: l => first c && forallb rest l && (Z.of_nat (List.length l) <=? n)
  end.

(** [^[rest]{n}$]. *)
Definition exactly (rest : ascii -> bool) (n : Z) (s : string) : bool :=
  forallb rest (bytes s) && (len s =? n).

Definition oneOfString (value : string) (values : list string) : bool :=
  existsb (String.eqb value) values.

(** ** [sort.Strings] *)

Fixpoint insert_string (x : string) (l : list string) : list string :=
  match l with
  | [] => [x]
  | y :: l' => if String.leb x y then x :: l else y :: insert_string x l'
  end.

Definition sort_strings (l : list string) : list string := foldr insert_string [] l.

(** ** [net.ParseIP] *)

Definition dot : ascii := "."%char.
Definition colon : ascii := ":"%char.

Definition value_of (l : list ascii) : Z := fold_left (fun acc c => 10 * acc + (code c - 48)) l 0.

Definition octet (l : list ascii) : option Z :=
  match l with
  | [] => None
  | c :: rest =>
      if forallb digit l && (value_of l <=? 255) && negb (Ascii.eqb c "0"%char && negb (Nat.eqb (List.length rest) 0))
      then Some (value_of l) else None
  end.

Definition parseIPv4 (l : list ascii) : option (list Z) :=
  match map octet (split_bytes dot [] l) with
  | [Some a; Some b; Some c; Some d] => Some [a; b; c; d]
  | _ => None
  end.

Definition hex_value (c : ascii) : option Z :=
  if digit c then Some (code c - 48)
  else if between 97 102 (code c) then Some (code c - 87)
  else if between 65 70 (code c) then Some (code c - 55)
  else None.

(** The hexadecimal digits the text starts with, their value and the rest. *)
Fixpoint hex_group (l : list ascii) (n : nat) (acc : Z) : nat * Z * list ascii :=
  match l with
  | c :: l' => match hex_value c with
               | Some v => hex_group l' (S n) (16 * acc + v)
               | None => (n, acc, l)
               end
  | [] => (n, acc, l)
  end.

(** The loop of [parseIPv6]: the bytes so far, where the ellipsis was, and the
    text left. *)
Fixpoint groups (fuel : nat) (ip : list Z) (ellipsis : option nat) (s : list ascii)
  : option (list Z * option nat * list ascii) :=
  match fuel with
  | O => Some (ip, ellipsis, s)
  | S fuel' =>
      let '(n, acc, rest) := hex_group s 0 0 in
      if Nat.eqb n 0 || Nat.ltb 4 n then None
      else match rest with
           | c :: rest' =>
               if Ascii.eqb c dot then
                 if (match ellipsis with None => negb (Nat.eqb (List.length ip) 12) | Some _ => false end)
                    || Nat.ltb 12 (List.length ip) then None
                 else match parseIPv4 s with
                      | Some four => Some (ip ++ four, ellipsis, [])
                      | None => None
                      end
               else if negb (Ascii.eqb c colon) then None
               else let ip' := ip ++ [acc / 256; acc mod 256] in
                    match rest' with
                    | [] => None
                    | c' :: rest'' =>
                        if Ascii.eqb c' colon then
                          match ellipsis, rest'' with
                          | Some _, _ => None
                          | None, [] => Some (ip', Some (List.length ip'), [])
                          | None, _ => groups fuel' ip' (Some (List.length ip')) rest''
                          end
                        else groups fuel' ip' ellipsis rest'
                    end
           | [] => Some (ip ++ [acc / 256; acc mod 256], ellipsis, [])
           end
  end.

Definition expand (ip : list Z) (ellipsis : option nat) : option (list Z) :=
  if Nat.ltb (List.length ip) 16 then
    match ellipsis with
    | None => None
    | Some e => Some (take e ip ++ repeat 0 (16 - List.length ip) ++ drop e ip)
    end
  else match ellipsis with None => Some ip | Some _ => None end.

Definition parseIPv6 (l : list ascii) : option (list Z) :=
  if existsb (Ascii.eqb "%"%char) l then None
  else
    let finish r := match r with
                    | Some (ip, e, []) => expand ip e
                    | _ => None
                    end in
    match l with
    | c1 :: c2 :: rest =>
        if Ascii.eqb c1 colon && Ascii.eqb c2 colon then
          match rest with
          | [] => Some (repeat 0 16)
          | _ => finish (groups 8 [] (Some 0%nat) rest)
          end
        else finish (groups 8 [] None l)
    | _ => finish (groups 8 [] None l)
    end.

Fixpoint first_of (chars : list ascii) (l : list ascii) : option ascii :=
  match l with
  | [] => None
  | c :: l' => if existsb (Ascii.eqb c) chars then Some c else first_of chars l'
  end.

(** The sixteen bytes of the address; an IPv4 address is mapped. *)
Definition ParseIP (s : string) : option (list Z) :=
  match first_of [dot; colon; "%"%char] (bytes s) with
  | Some c =>
      if Ascii.eqb c dot then option_map (fun four => repeat 0 10 ++ [255; 255] ++ four) (parseIPv4 (bytes s))
      else if Ascii.eqb c colon then parseIPv6 (bytes s)
      else None
  | None => None
  end.

(** [ip.To4() != nil]. *)
Definition is4 (ip : list Z) : bool :=
  forallb (fun b => b =? 0) (take 10 ip) && forallb (fun b => b =? 255) (take 2 (drop 10 ip)).

(** ** Lemmas *)

Lemma oneOfString_In v l : oneOfString v l = true <-> In v l.
Proof.
  unfold oneOfString. rewrite existsb_exists. split.
  - intros (x & Hin & E). by apply String.eqb_eq in E as ->.
  - intros Hin. exists v. by rewrite String.eqb_refl.
Qed.

Lemma runes_ascii s : forallb is_ascii (bytes s) = true -> runes s = map (fun c => [c]) (bytes s).
Proof.
  unfold runes. rewrite <- length_bytes. generalize (bytes s). intros l. induction l as [|c l IH]; intros Hl; [done|].
  simpl in Hl. apply andb_prop in Hl as [Hc Hl]. cbn [length runes_aux].
  assert (rune_width (c :: l) = 1%nat) as ->. { unfold rune_width. cbn [take map]. unfold is_ascii in Hc. by rewrite Hc. }
  change (drop 1 (c :: l)) with l. by rewrite IH.
Qed.

(** ** Splitting *)

Lemma split_bytes_end c acc l : ~ In c l -> split_bytes c acc l = [rev acc ++ l].
Proof.
  revert acc. induction l as [|x l IH]; intros acc Hn; cbn [split_bytes]; [by rewrite app_nil_r|].
  destruct (Ascii.eqb_spec x c) as [->|_]; [destruct Hn; by left|]. rewrite IH by (intros ?; apply Hn; by right). cbn [rev]. by rewrite <- app_assoc.
Qed.

Lemma split_bytes_cut c acc l rest : ~ In c l -> split_bytes c acc (l ++ c :: rest) = (rev acc ++ l) :: split_bytes c [] rest.
Proof.
  revert acc. induction l as [|x l IH]; intros acc Hn; cbn [split_bytes app]; [by rewrite Ascii.eqb_refl, app_nil_r|].
  destruct (Ascii.eqb_spec x c) as [->|_]; [destruct Hn; by left|]. rewrite IH by (intros ?; apply Hn; by right). cbn [rev]. by rewrite <- app_assoc.
Qed.

Lemma split_bytes_some c acc l : split_bytes c acc l <> [].
Proof. revert acc. induction l as [|x l IH]; intros acc; cbn [split_bytes]; [done|]. by destruct (Ascii.eqb x c). Qed.

Lemma split_bytes_one c acc l a : split_bytes c acc l = [a] -> rev acc ++ l = a.
Proof.
  revert acc. induction l as [|x l IH]; intros acc; cbn [split_bytes]; [intros [= <-]; by rewrite app_nil_r|]. destruct (Ascii.eqb x c).
  - intros [= _ E]. by apply split_bytes_some in E.
  - intros E%IH. cbn [rev] in E. by rewrite <- app_assoc in E.
Qed.

(** What was split in two is the parts with the separator between them. *)
Lemma split_bytes_two c acc l a b : split_bytes c acc l = [a; b] -> rev acc ++ l = a ++ c :: b.
Proof.
  revert acc. induction l as [|x l IH]; intros acc; cbn [split_bytes]; [done|]. destruct (Ascii.eqb_spec x c) as [->|_].
  - intros [= <- E]. apply split_bytes_one in E. by rewrite <- E.
  - intros E%IH. cbn [rev] in E. by rewrite <- app_assoc in E.
Qed.

Lemma insert_string_perm x l : insert_string x l ≡ₚ x :: l.
Proof.
  induction l as [|y l IH]; simpl; [done|]. case_match; [done|]. rewrite IH. apply perm_swap.
Qed.

Lemma sort_strings_perm l : sort_strings l ≡ₚ l.
Proof. induction l as [|x l IH]; simpl; [done|]. by rewrite insert_string_perm, IH. Qed.

Lemma sort_strings_In l x : In x (sort_strings l) <-> In x l.
Proof. rewrite <- !list_elem_of_In. by rewrite sort_strings_perm. Qed.

Example ip_forms :
  ParseIP "10.0.0.1" = Some (repeat 0 10 ++ [255; 255; 10; 0; 0; 1]) /\
  ParseIP "010.0.0.1" = None /\ ParseIP "1.2.3" = None /\ ParseIP "256.1.1.1" = None /\
  ParseIP "::" = Some (repeat 0 16) /\
  ParseIP "2001:db8::1" = Some ([32; 1; 13; 184] ++ repeat 0 11 ++ [1]) /\
  option_map is4 (ParseIP "::ffff:1.2.3.4") = Some true /\ option_map is4 (ParseIP "::1") = Some false /\
  ParseIP "1:2:3:4:5:6:7:8:9" = None /\ ParseIP "fe80::1%eth0" = None /\ ParseIP "1::2::3" = None /\
  ParseIP "1:2:3:4:5:6:7:" = None /\ ParseIP "example.com" = None.
Proof. vm_compute. repeat split. Qed.
