(* ===== verification/RoutingTypes.v ===== *)
(** * internal/ops/routing_types.go: routes, bindings, settings, DNS records

    The closed vocabulary of the routing control plane with the [Normalize] and
    [Validate] methods of each type, the port allocator and the check of a route
    against settings and DNS records.  The string-typed enumerations of the
    code stay strings, because a request can carry any text in them.  A
    validation is the list of its conditions in the order the code tests them
    ([guards]): the first that holds is the error returned. *)

From Stdlib Require Import ZArith Lia Bool Ascii String.
From stdpp Require Import base tactics list strings gmap.
From S2P Require Import Prelude GoStrings GoText.

Local Open Scope string_scope.
Local Open Scope list_scope.
Local Open Scope bool_scope.
Local Open Scope Z_scope.

(** ** Errors *)

Inductive rerr :=
| Refuse (message : string)
| ErrServiceHasRoute (service protocol : string)
| ErrPortTaken (protocol : string) (port : Z) (route : string)
| ErrHostConflict (route : string)
| ErrRouteBound (binding : string)
| ErrRecordReferenced (route : string)
| ErrDomainOwnsRecord (zone record : string)
| ErrDomainOwnsRoute (zone route : string)
| ErrUnacceptedZone (zone : string)
| ErrUnacceptedHost (host : string)
| ErrHostWithoutRecord (host : string)
| ErrInvalidHost (host : string)
| ErrMissingEntryPoint (name : string)
| ErrRequestedRange (protocol : string) | ErrRequestedTaken (protocol : string) (port : Z)
| ErrNoFreePort (protocol : string)
| ErrOfRoute (key : string) (e : rerr)
| ErrServer (code : Z)                       (* an error of the database server *)
| ErrOpenSecret                              (* a sealed column does not open *)
| ErrContextDone
| ErrConnectionLost
| ErrSave (e : rerr)                         (* save routing state: ... *)
| ErrRead (e : rerr).                        (* read routing state: ... *)

Definition guards (l : list (bool * rerr)) : result rerr unit :=
  match List.find fst l with
  | Some (_, e) => Err e
  | None => Ok tt
  end.

Definition refuse (condition : bool) (message : string) : bool * rerr := (condition, Refuse message).

(** The error of an inner validation, as a condition of the outer one. *)
Definition failing (r : result rerr unit) : bool * rerr :=
  match r with Ok _ => (false, Refuse "") | Err e => (true, e) end.

(** ** Constants *)

Definition RoutingSchemaVersion : Z := 1.
Definition RoutePortMin : Z := 10000.
Definition RoutePortMax : Z := 19999.

Definition RouteHTTP : string := "http".
Definition RouteTCP : string := "tcp".
Definition RouteUDP : string := "udp".
Definition RoutePublic : string := "public".
Definition RouteInternal : string := "internal".
Definition RouteBoth : string := "both".
Definition RouteTLSOff : string := "off".
Definition RouteTLSTerminate : string := "terminate".
Definition RouteTLSPassthrough : string := "passthrough".
Definition DependencyExisting : string := "existing".
Definition DependencyEnvironment : string := "environment".
Definition DependencySecretFile : string := "secret_file".
Definition DNSProviderCloudflare : string := "cloudflare".
Definition DNSProviderArvan : string := "arvan".
Definition DNSRecordA : string := "A".
Definition DNSRecordAAAA : string := "AAAA".
Definition DNSRecordCNAME : string := "CNAME".
Definition ChallengeDNS01 : string := "dns-01".
Definition ChallengeHTTP01 : string := "http-01".
Definition ChallengeTLSALPN01 : string := "tls-alpn-01".
Definition ServiceRoleRouted : string := "routed".
Definition ServiceRoleClientOnly : string := "client-only".
Definition ServiceRolePlatformException : string := "platform-exception".
Definition ServiceRoleNeedsConfiguration : string := "needs-configuration".

(** ** Types *)

Record RouteMatch := mkMatch { rm_Hosts : list string; rm_PathPrefix : string; rm_SNI : list string }.

Record RouteHealthProof := mkHealth { rh_Kind : string; rh_Path : string; rh_TimeoutSeconds : Z }.

Record RouteSpec := mkRoute {
  rt_AccessLogs : bool; rt_DNSReference : string; rt_Enabled : bool; rt_Health : RouteHealthProof;
  rt_Key : string; rt_ListenPort : Z; rt_Managed : bool; rt_Match : RouteMatch; rt_Metrics : bool;
  rt_Protocol : string; rt_PublicAllow : bool; rt_Resolver : string; rt_Scope : string; rt_Sensitive : bool;
  rt_ServiceKey : string; rt_TLS : string; rt_TargetPort : Z; rt_Version : Z }.

Record DependencyBinding := mkBinding {
  db_CallerService : string; db_Delivery : string; db_Name : string; db_TargetRoute : string; db_Version : Z }.

Record ACMEPolicy := mkPolicy {
  ap_Challenge : string; ap_DNSCredentialID : string; ap_Name : string; ap_Provider : string }.

Record StaticEntryPoint := mkEntry { ep_Name : string; ep_Port : Z; ep_Protocol : string; ep_Public : bool }.

Record TraefikSettings := mkSettings {
  ts_ACMEEmail : string; ts_AccessLogs : bool; ts_DashboardHost : string; ts_EntryPoints : list StaticEntryPoint;
  ts_MetricsEnabled : bool; ts_OperationalLog : string; ts_PortStart : Z; ts_PortEnd : Z;
  ts_Resolvers : list ACMEPolicy; ts_Version : Z }.

Record DNSCredentialIdentity := mkIdentity { di_AccountID : string; di_Email : string }.

Record DNSRecordSpec := mkRecord {
  dr_Adopted : bool; dr_Content : string; dr_CredentialID : string; dr_ID : string; dr_Managed : bool;
  dr_Name : string; dr_ProviderRecordID : string; dr_Proxied : bool; dr_TTL : Z; dr_Type : string;
  dr_Version : Z; dr_Zone : string }.

Record ServiceRouteDeclaration := mkDeclaration {
  sd_Reason : string; sd_Role : string; sd_ServiceKey : string; sd_Version : Z }.

(** ** Patterns *)

Definition routeKeyPattern : string -> bool := pattern lower_case (fun c => lower_case c || digit c || any_of "-" c) 62.
Definition bindingNamePattern : string -> bool := pattern upper_case (fun c => upper_case c || digit c || any_of "_" c) 63.
Definition resolverNamePattern : string -> bool := pattern lower_case (fun c => lower_case c || digit c || any_of "-" c) 31.
Definition providerIDPattern : string -> bool := pattern lower_case (fun c => lower_case c || digit c || any_of "-" c) 62.
Definition cloudflareAccountIDPattern : string -> bool := exactly is_hex 32.
Definition dockerReferenceName : string -> bool := pattern alnum (fun c => alnum c || any_of "_.-" c) 127.
Definition httpPathPattern : string -> bool := pattern (any_of "/") (fun c => alnum c || any_of "._~/-" c) 200.

Definition certificateHash (s : string) : bool :=
  HasPrefix s "SHA256:" &&
  exactly (fun c => digit c || between 65 70 (code c) || between 97 102 (code c)) 64 (TrimPrefix s "SHA256:").

Definition validServiceKey (value : string) : bool :=
  negb (value =? "")%string && (len value <=? 128) && negb (ContainsAny value controls) &&
  pattern alnum (fun c => alnum c || any_of "_.-" c) (len value) value.

Definition validCertificateFingerprint (value : string) : bool := (value =? "")%string || certificateHash value.

Definition routeIsPublic (scope : string) : bool := (scope =? RoutePublic)%string || (scope =? RouteBoth)%string.

Definition containsWildcard (values : list string) : bool := existsb (fun v => HasPrefix v "*.") values.

Fixpoint resolverFor (values : list ACMEPolicy) (name : string) : option ACMEPolicy :=
  match values with
  | [] => None
  | v :: rest => if (ap_Name v =? name)%string then Some v else resolverFor rest name
  end.

Section Routing.
Context `{CaseTable}.

(** [strings.ToLower(strings.TrimSpace(v))] and the same for a host name. *)
Definition lowered (v : string) : string := ToLower (TrimSpace v).
Definition host_form (v : string) : string := ToLower (TrimSuffix (TrimSpace v) ".").

Definition safeHostname (value : string) : bool :=
  let value := lowered value in
  negb ((value =? "")%string || (253 <? len value) || (match ParseIP value with Some _ => true | None => false end)
        || ContainsAny value ("/:@?#" ++ controls)%string) &&
  (let parts := SplitChar dot value in
   Nat.leb 2 (List.length parts) &&
   forallb (fun part => negb ((len part =? 0) || (63 <? len part) || HasPrefix part "-" || HasSuffix part "-"
                              || negb (forallb (fun c => lower_case c || digit c || any_of "-" c) (bytes part)))) parts).

Fixpoint distinct_hosts (seen values : list string) : list string :=
  match values with
  | [] => []
  | v :: rest =>
      let value := host_form v in
      if negb (value =? "")%string && negb (existsb (String.eqb value) seen)
      then value :: distinct_hosts (value :: seen) rest
      else distinct_hosts seen rest
  end.

Definition normalizeHosts (values : list string) : list string := sort_strings (distinct_hosts [] values).

(** ** Routes *)

Definition normalize_health (protocol : string) (h : RouteHealthProof) : RouteHealthProof :=
  mkHealth
    (if (rh_Kind h =? "")%string then
       if (protocol =? RouteHTTP)%string then "response"
       else if (protocol =? RouteTCP)%string then "handshake"
       else if (protocol =? RouteUDP)%string then "structural" else ""
     else rh_Kind h)
    (if (protocol =? RouteHTTP)%string && (rh_Path h =? "")%string then "/" else rh_Path h)
    (if rh_TimeoutSeconds h =? 0 then 5 else rh_TimeoutSeconds h).

Definition RouteSpec_Normalize (s : RouteSpec) : RouteSpec :=
  mkRoute (rt_AccessLogs s) (lowered (rt_DNSReference s)) (rt_Enabled s) (normalize_health (rt_Protocol s) (rt_Health s))
    (lowered (rt_Key s)) (rt_ListenPort s) (rt_Managed s)
    (mkMatch (normalizeHosts (rm_Hosts (rt_Match s))) (TrimSpace (rm_PathPrefix (rt_Match s))) (normalizeHosts (rm_SNI (rt_Match s))))
    (rt_Metrics s) (rt_Protocol s) (rt_PublicAllow s) (lowered (rt_Resolver s)) (rt_Scope s) (rt_Sensitive s)
    (TrimSpace (rt_ServiceKey s)) (rt_TLS s) (rt_TargetPort s)
    (if rt_Version s =? 0 then RoutingSchemaVersion else rt_Version s).

Definition is_http (s : RouteSpec) : bool := (rt_Protocol s =? RouteHTTP)%string.
Definition is_tcp (s : RouteSpec) : bool := (rt_Protocol s =? RouteTCP)%string.
Definition is_udp (s : RouteSpec) : bool := (rt_Protocol s =? RouteUDP)%string.
Definition tls_is (s : RouteSpec) (mode : string) : bool := (rt_TLS s =? mode)%string.
Definition none {A : Type} (l : list A) : bool := match l with [] => true | _ => false end.

(** The conditions of the HTTP branch, and those of the other one. *)
Definition http_guards (s : RouteSpec) : list (bool * rerr) :=
  [ refuse (negb (rt_ListenPort s =? 0)) "HTTP routes use the shared entrypoints and cannot choose a listen port";
    refuse (negb (none (rm_SNI (rt_Match s)))) "HTTP routes cannot declare an SNI match";
    refuse (none (rm_Hosts (rt_Match s))) "HTTP routes require at least one host";
    refuse (negb (httpPathPattern (if (rm_PathPrefix (rt_Match s) =? "")%string then "/" else rm_PathPrefix (rt_Match s))))
      "HTTP path prefix is invalid";
    refuse (tls_is s RouteTLSPassthrough) "HTTP routes cannot use TLS passthrough" ].

Definition stream_guards (s : RouteSpec) : list (bool * rerr) :=
  [ refuse (negb (none (rm_Hosts (rt_Match s))) || negb (rm_PathPrefix (rt_Match s) =? "")%string)
      "TCP and UDP routes cannot declare HTTP hosts or paths" ].

Definition health_guards (s : RouteSpec) : list (bool * rerr) :=
  [ refuse ((rh_TimeoutSeconds (rt_Health s) =? 0) || (60 <? rh_TimeoutSeconds (rt_Health s)))
      "route health timeout must be between 1 and 60 seconds";
    refuse (is_http s && (negb (rh_Kind (rt_Health s) =? "response")%string || negb (httpPathPattern (rh_Path (rt_Health s)))))
      "HTTP routes require response health proof and an absolute path";
    refuse (is_tcp s && negb (rh_Kind (rt_Health s) =? "handshake")%string) "TCP routes require handshake health proof";
    refuse (is_udp s && negb (rh_Kind (rt_Health s) =? "structural")%string) "UDP routes require structural health proof" ].

Definition route_guards (s : RouteSpec) : list (bool * rerr) :=
  [ refuse (negb (rt_Version s =? RoutingSchemaVersion)) "unsupported route schema version";
    refuse (negb (routeKeyPattern (rt_Key s))) "route key must be lowercase letters, digits, and hyphens";
    refuse (negb (validServiceKey (rt_ServiceKey s))) "route service key is invalid";
    refuse (negb (oneOfString (rt_Protocol s) [RouteHTTP; RouteTCP; RouteUDP])) "route protocol must be http, tcp, or udp";
    refuse (negb (oneOfString (rt_Scope s) [RoutePublic; RouteInternal; RouteBoth])) "route scope must be public, internal, or both";
    refuse (negb (oneOfString (rt_TLS s) [RouteTLSOff; RouteTLSTerminate; RouteTLSPassthrough])) "route TLS mode is invalid";
    refuse (rt_TargetPort s =? 0) "route target port is required";
    refuse (negb (rt_ListenPort s =? 0) && ((rt_ListenPort s <? RoutePortMin) || (RoutePortMax <? rt_ListenPort s)) && negb (is_http s))
      "route listen port must be between 10000 and 19999" ] ++
  (if is_http s then http_guards s else stream_guards s) ++
  [ refuse (is_tcp s && negb (tls_is s RouteTLSOff) && none (rm_SNI (rt_Match s))) "TLS TCP routes require at least one SNI host";
    refuse (is_udp s && (negb (tls_is s RouteTLSOff) || negb (none (rm_SNI (rt_Match s))))) "UDP routes support TLS off and no host match";
    refuse (tls_is s RouteTLSTerminate && (rt_Resolver s =? "")%string) "TLS termination requires a certificate resolver";
    refuse (negb (rt_Resolver s =? "")%string && negb (resolverNamePattern (rt_Resolver s))) "certificate resolver name is invalid";
    refuse (routeIsPublic (rt_Scope s) && rt_Enabled s && negb (rt_PublicAllow s)) "public routes require reviewed publicAllow";
    refuse (routeIsPublic (rt_Scope s) && rt_Enabled s && (rt_DNSReference s =? "")%string && (is_http s || negb (tls_is s RouteTLSOff)))
      "enabled public hostname routes require a DNS reference" ] ++
  health_guards s.

Definition RouteSpec_Validate (s : RouteSpec) : result rerr unit := guards (route_guards (RouteSpec_Normalize s)).

(** ** Bindings and declarations *)

Definition DependencyBinding_Normalize (b : DependencyBinding) : DependencyBinding :=
  mkBinding (TrimSpace (db_CallerService b)) (db_Delivery b) (ToUpper (TrimSpace (db_Name b))) (lowered (db_TargetRoute b))
    (if db_Version b =? 0 then RoutingSchemaVersion else db_Version b).

Definition DependencyBinding_Validate (b : DependencyBinding) : result rerr unit :=
  let b := DependencyBinding_Normalize b in
  guards
    [ refuse (negb (db_Version b =? RoutingSchemaVersion) || negb (validServiceKey (db_CallerService b)) || negb (routeKeyPattern (db_TargetRoute b)))
        "dependency binding identity is invalid";
      refuse (negb (oneOfString (db_Delivery b) [DependencyExisting; DependencyEnvironment; DependencySecretFile])) "dependency delivery is unsupported";
      if (db_Delivery b =? DependencyExisting)%string
      then refuse (negb (db_Name b =? "")%string) "existing dependency delivery cannot define a name"
      else refuse (negb (bindingNamePattern (db_Name b))) "dependency environment or secret-file delivery requires an uppercase name" ].

Definition ServiceRouteDeclaration_Normalize (d : ServiceRouteDeclaration) : ServiceRouteDeclaration :=
  mkDeclaration (TrimSpace (sd_Reason d)) (sd_Role d) (TrimSpace (sd_ServiceKey d))
    (if sd_Version d =? 0 then RoutingSchemaVersion else sd_Version d).

Definition ServiceRouteDeclaration_Validate (d : ServiceRouteDeclaration) : result rerr unit :=
  let d := ServiceRouteDeclaration_Normalize d in
  guards
    [ refuse (negb (sd_Version d =? RoutingSchemaVersion) || negb (validServiceKey (sd_ServiceKey d))) "service route declaration identity is invalid";
      refuse (negb (oneOfString (sd_Role d) [ServiceRoleRouted; ServiceRoleClientOnly; ServiceRolePlatformException; ServiceRoleNeedsConfiguration]))
        "service route declaration role is invalid";
      refuse (((sd_Role d =? ServiceRolePlatformException)%string || (sd_Role d =? ServiceRoleClientOnly)%string)
              && ((sd_Reason d =? "")%string || (256 <? len (sd_Reason d)) || ContainsAny (sd_Reason d) controls))
        "service route declaration requires a bounded reason" ].

(** ** DNS credentials and records *)

Definition DNSCredentialIdentity_Normalize (i : DNSCredentialIdentity) : DNSCredentialIdentity :=
  mkIdentity (lowered (di_AccountID i)) (lowered (di_Email i)).

Definition DNSCredentialIdentity_Validate (i : DNSCredentialIdentity) (provider : string) : result rerr unit :=
  let i := DNSCredentialIdentity_Normalize i in
  guards
    (if negb (provider =? DNSProviderCloudflare)%string then
       [ refuse (negb (di_AccountID i =? "")%string || negb (di_Email i =? "")%string)
           "only Cloudflare credentials accept an account identifier or email" ]
     else
       [ refuse (negb (di_AccountID i =? "")%string && negb (cloudflareAccountIDPattern (di_AccountID i)))
           "Cloudflare account identifier must be 32 hexadecimal characters";
         refuse (negb (di_Email i =? "")%string
                 && ((254 <? len (di_Email i)) || negb (Contains (di_Email i) "@") || ContainsAny (di_Email i) controls_and_blanks))
           "Cloudflare account email is invalid" ]).

Definition DNSRecordSpec_Normalize (r : DNSRecordSpec) : DNSRecordSpec :=
  mkRecord (dr_Adopted r) (TrimSuffix (TrimSpace (dr_Content r)) ".") (lowered (dr_CredentialID r)) (lowered (dr_ID r)) (dr_Managed r)
    (host_form (dr_Name r)) (dr_ProviderRecordID r) (dr_Proxied r) (if dr_TTL r =? 0 then 300 else dr_TTL r) (dr_Type r)
    (if dr_Version r =? 0 then RoutingSchemaVersion else dr_Version r) (host_form (dr_Zone r)).

(** The host is the zone or a name under it. *)
Definition under (host zone : string) : bool := (host =? zone)%string || HasSuffix host ("." ++ zone)%string.

Definition record_guards (r : DNSRecordSpec) (protocol : string) : list (bool * rerr) :=
  [ refuse (negb (dr_Version r =? RoutingSchemaVersion) || negb (providerIDPattern (dr_ID r)) || negb (providerIDPattern (dr_CredentialID r)))
      "DNS record identity is invalid";
    refuse (negb (safeHostname (dr_Name r)) || negb (safeHostname (dr_Zone r)) || negb (under (dr_Name r) (dr_Zone r)))
      "DNS record must belong to its zone";
    refuse (negb (oneOfString (dr_Type r) [DNSRecordA; DNSRecordAAAA; DNSRecordCNAME])) "DNS record type must be A, AAAA, or CNAME";
    refuse ((dr_Type r =? DNSRecordA)%string && negb (match ParseIP (dr_Content r) with Some ip => is4 ip | None => false end))
      "A record content must be an IPv4 address";
    refuse ((dr_Type r =? DNSRecordAAAA)%string && negb (match ParseIP (dr_Content r) with Some ip => negb (is4 ip) | None => false end))
      "AAAA record content must be an IPv6 address";
    refuse ((dr_Type r =? DNSRecordCNAME)%string && negb (safeHostname (dr_Content r))) "CNAME record content must be a hostname";
    refuse ((dr_TTL r <? 60) || (86400 <? dr_TTL r)) "DNS TTL must be between 60 and 86400 seconds";
    refuse (negb (protocol =? RouteHTTP)%string && dr_Proxied r) "raw TCP and UDP DNS records must remain DNS-only";
    refuse (negb (dr_Managed r) && negb (dr_Adopted r)) "DNS record must be SwarmOps-managed or explicitly adopted" ].

Definition DNSRecordSpec_Validate (r : DNSRecordSpec) (protocol : string) : result rerr unit :=
  guards (record_guards (DNSRecordSpec_Normalize r) protocol).

(** ** Settings *)

Definition DefaultTraefikSettings (email : string) : TraefikSettings :=
  mkSettings (TrimSpace email) true ""
    [ mkEntry "web" 80 RouteHTTP true; mkEntry "websecure" 443 RouteHTTP true; mkEntry "internal-http" 8081 RouteHTTP false;
      mkEntry "metrics" 8082 RouteHTTP false; mkEntry "traefik" 8080 RouteHTTP false ]
    true "INFO" RoutePortMin RoutePortMax
    [ mkPolicy ChallengeDNS01 "" "le" DNSProviderCloudflare; mkPolicy ChallengeDNS01 "" "arvan" DNSProviderArvan;
      mkPolicy ChallengeHTTP01 "" "http" ""; mkPolicy ChallengeTLSALPN01 "" "tls" "" ]
    RoutingSchemaVersion.

Definition normalize_policy (p : ACMEPolicy) : ACMEPolicy :=
  mkPolicy (ap_Challenge p) (lowered (ap_DNSCredentialID p)) (lowered (ap_Name p)) (ap_Provider p).

Definition normalize_entry (e : StaticEntryPoint) : StaticEntryPoint :=
  mkEntry (lowered (ep_Name e)) (ep_Port e) (ep_Protocol e) (ep_Public e).

Definition TraefikSettings_Normalize (s : TraefikSettings) : TraefikSettings :=
  mkSettings (TrimSpace (ts_ACMEEmail s)) (ts_AccessLogs s) (host_form (ts_DashboardHost s)) (map normalize_entry (ts_EntryPoints s))
    (ts_MetricsEnabled s) (ToUpper (TrimSpace (ts_OperationalLog s)))
    (if ts_PortStart s =? 0 then RoutePortMin else ts_PortStart s) (if ts_PortEnd s =? 0 then RoutePortMax else ts_PortEnd s)
    (map normalize_policy (ts_Resolvers s)) (if ts_Version s =? 0 then RoutingSchemaVersion else ts_Version s).

(** The loop over the entry points, with the names and protocol ports seen. *)
Fixpoint entry_guards (names : list string) (ports : list (string * Z)) (l : list StaticEntryPoint) : list (bool * rerr) :=
  match l with
  | [] => []
  | e :: rest =>
      refuse (negb (routeKeyPattern (ep_Name e)) || (ep_Port e =? 0) || negb (oneOfString (ep_Protocol e) [RouteHTTP; RouteTCP; RouteUDP]))
        "Traefik entrypoint is invalid" ::
      refuse (existsb (String.eqb (ep_Name e)) names || existsb (fun p => (fst p =? ep_Protocol e)%string && (snd p =? ep_Port e)) ports)
        "Traefik entrypoint name or protocol port conflicts" ::
      entry_guards (ep_Name e :: names) ((ep_Protocol e, ep_Port e) :: ports) rest
  end.

Fixpoint resolver_guards (names : list string) (l : list ACMEPolicy) : list (bool * rerr) :=
  match l with
  | [] => []
  | r :: rest =>
      refuse (negb (resolverNamePattern (ap_Name r)) || negb (oneOfString (ap_Challenge r) [ChallengeDNS01; ChallengeHTTP01; ChallengeTLSALPN01]))
        "Traefik certificate resolver is invalid" ::
      refuse (existsb (String.eqb (ap_Name r)) names) "Traefik certificate resolver names must be unique" ::
      refuse ((ap_Challenge r =? ChallengeDNS01)%string && (ap_DNSCredentialID r =? "")%string
              && negb (ap_Name r =? "cloudflare")%string && negb (ap_Name r =? "arvan")%string
              && negb (ap_Provider r =? DNSProviderCloudflare)%string && negb (ap_Provider r =? DNSProviderArvan)%string)
        "DNS-01 resolver requires a supported provider or DNS credential" ::
      refuse (negb (ap_Challenge r =? ChallengeDNS01)%string && (negb (ap_Provider r =? "")%string || negb (ap_DNSCredentialID r =? "")%string))
        "HTTP-01 and TLS-ALPN-01 resolvers cannot use DNS credentials" ::
      resolver_guards (ap_Name r :: names) rest
  end.

Definition settings_guards (s : TraefikSettings) : list (bool * rerr) :=
  [ refuse (negb (ts_Version s =? RoutingSchemaVersion)) "unsupported Traefik settings version";
    refuse (ts_ACMEEmail s =? "")%string "Traefik ACME email is not configured";
    refuse (negb (Contains (ts_ACMEEmail s) "@") || ContainsAny (ts_ACMEEmail s) controls) "Traefik ACME email is invalid";
    refuse (negb (ts_DashboardHost s =? "")%string && negb (safeHostname (ts_DashboardHost s))) "Traefik dashboard hostname is invalid";
    refuse (negb (ts_MetricsEnabled s)) "Traefik metrics are mandatory";
    refuse (negb (oneOfString (ts_OperationalLog s) ["DEBUG"; "INFO"; "WARN"; "ERROR"])) "Traefik operational log level must be DEBUG, INFO, WARN, or ERROR";
    refuse ((ts_PortStart s <? RoutePortMin) || (RoutePortMax <? ts_PortEnd s) || (ts_PortEnd s <? ts_PortStart s))
      "Traefik route port range must stay within 10000-19999" ] ++
  entry_guards [] [] (ts_EntryPoints s) ++
  map (fun required => (negb (existsb (fun e => (ep_Name e =? required)%string) (ts_EntryPoints s)), ErrMissingEntryPoint required))
    ["web"; "websecure"; "internal-http"; "metrics"] ++
  resolver_guards [] (ts_Resolvers s).

Definition TraefikSettings_Validate (s : TraefikSettings) : result rerr unit :=
  guards (settings_guards (TraefikSettings_Normalize s)).

Definition TraefikSettings_ValidateForApply (s : TraefikSettings) : result rerr unit :=
  let s := TraefikSettings_Normalize s in
  guards [ failing (TraefikSettings_Validate s); refuse (ts_DashboardHost s =? "")%string "Traefik dashboard hostname is not configured" ].

(** ** The port allocator *)

(** The protocol ports taken by other routes and other entry points. *)
Definition used_ports (settings : TraefikSettings) (protocol : string) (routes : list RouteSpec) (ownEntryPoint : string) : list Z :=
  map rt_ListenPort (List.filter (fun r => (rt_Protocol r =? protocol)%string && negb (rt_ListenPort r =? 0)) routes) ++
  map ep_Port (List.filter (fun e => (ep_Protocol e =? protocol)%string
                                     && ((ownEntryPoint =? "")%string || negb (ep_Name e =? ownEntryPoint)%string)) (ts_EntryPoints settings)).

Definition port_used (used : list Z) (p : Z) : bool := existsb (Z.eqb p) used.

(** [for port := Start; port <= End; port++] over a [uint16]; [None] when the
    fuel is spent. *)
Fixpoint first_free (fuel : nat) (used : list Z) (port last : Z) : option (option Z) :=
  match fuel with
  | O => None
  | S fuel' =>
      if port <=? last then
        if negb (port_used used port) then Some (Some port)
        else first_free fuel' used ((port + 1) mod 65536) last
      else Some None
  end.

Definition AllocateRoutePort (settings : TraefikSettings) (protocol : string) (routes : list RouteSpec) (requested : Z) (ownEntryPoint : string)
  : option (result rerr Z) :=
  let settings := TraefikSettings_Normalize settings in
  if (protocol =? RouteHTTP)%string then Some (Ok 0)
  else
    let used := used_ports settings protocol routes (TrimSpace ownEntryPoint) in
    if negb (requested =? 0) then
      if (requested <? ts_PortStart settings) || (ts_PortEnd settings <? requested) then Some (Err (ErrRequestedRange protocol))
      else if port_used used requested then Some (Err (ErrRequestedTaken protocol requested))
      else Some (Ok requested)
    else match first_free (Z.to_nat 65537) used (ts_PortStart settings) (ts_PortEnd settings) with
         | Some (Some port) => Some (Ok port)
         | Some None => Some (Err (ErrNoFreePort protocol))
         | None => None
         end.

(** ** A route against settings and DNS records *)

Definition ValidateRouteCompatibility (route : RouteSpec) (settings : TraefikSettings) (records : list DNSRecordSpec) : result rerr unit :=
  let route := RouteSpec_Normalize route in
  let settings := TraefikSettings_Normalize settings in
  let found := resolverFor (ts_Resolvers settings) (rt_Resolver route) in
  let challenge := match found with Some p => ap_Challenge p | None => "" end in
  guards
    [ failing (RouteSpec_Validate route);
      failing (TraefikSettings_Validate settings);
      refuse (tls_is route RouteTLSTerminate && match found with Some _ => false | None => true end)
        "route certificate resolver is not configured";
      refuse (tls_is route RouteTLSTerminate && containsWildcard (rm_Hosts (rt_Match route) ++ rm_SNI (rt_Match route))
              && negb (challenge =? ChallengeDNS01)%string)
        "wildcard certificates require DNS-01";
      if rt_Enabled route && negb (rt_DNSReference route =? "")%string then
        match List.find (fun r => (dr_ID r =? rt_DNSReference route)%string) records with
        | None => refuse true "route DNS reference was not found"
        | Some record => failing (DNSRecordSpec_Validate record (rt_Protocol route))
        end
      else refuse false "" ].

End Routing.
