(* ===== verification/RoutingDomain.v ===== *)
(** * internal/ops/routing_domain.go: which names the gateway may publish

    Accepted apex zones, the ownership of a host name by a zone, and the two
    admission checks: a DNS record needs an accepted zone, and each host of a
    route needs an accepted zone and, where the install manages records of that
    zone, a record of its own. *)

From Stdlib Require Import ZArith Lia Bool Ascii String.
From stdpp Require Import base tactics list strings gmap.
From S2P Require Import Prelude GoStrings GoText RoutingTypes.

Local Open Scope string_scope.
Local Open Scope list_scope.
Local Open Scope bool_scope.
Local Open Scope Z_scope.

Record DomainSpec := mkDomain { dm_CreatedAt : Z; dm_Note : string; dm_Version : Z; dm_Zone : string }.

Definition ReservedInternalZone : string := "swarmops.internal".

Section Domains.
Context `{CaseTable}.

Definition DomainSpec_Normalize (d : DomainSpec) : DomainSpec :=
  mkDomain (dm_CreatedAt d) (TrimSpace (dm_Note d)) (if dm_Version d =? 0 then RoutingSchemaVersion else dm_Version d) (host_form (dm_Zone d)).

Definition DomainSpec_Validate (d : DomainSpec) : result rerr unit :=
  let d := DomainSpec_Normalize d in
  guards
    [ refuse (negb (dm_Version d =? RoutingSchemaVersion)) "unsupported domain schema version";
      refuse (negb (safeHostname (dm_Zone d))) "domain zone is invalid";
      refuse ((256 <? len (dm_Note d)) || ContainsAny (dm_Note d) controls) "domain note must be a single line of at most 256 characters" ].

Definition zoneHasManagedRecords (records : list DNSRecordSpec) (zone : string) : bool :=
  let zone := host_form zone in
  existsb (fun r => (host_form (dr_Zone r) =? zone)%string) records.

(** The loop of [acceptedZone], with the best zone so far. *)
Fixpoint best_zone (host : string) (best : option DomainSpec) (domains : list DomainSpec) : option DomainSpec :=
  match domains with
  | [] => best
  | d :: rest =>
      let domain := DomainSpec_Normalize d in
      if under host (dm_Zone domain) then
        match best with
        | None => best_zone host (Some domain) rest
        | Some b => if len (dm_Zone b) <? len (dm_Zone domain) then best_zone host (Some domain) rest else best_zone host best rest
        end
      else best_zone host best rest
  end.

Definition acceptedZone (domains : list DomainSpec) (host : string) : option DomainSpec := best_zone (host_form host) None domains.

Definition dnsRecordNamed (records : list DNSRecordSpec) (name : string) : option DNSRecordSpec :=
  let name := host_form name in
  List.find (fun r => (dr_Name (DNSRecordSpec_Normalize r) =? name)%string) records.

Definition ValidateDomainAdmission (record : DNSRecordSpec) (domains : list DomainSpec) : result rerr unit :=
  let record := DNSRecordSpec_Normalize record in
  match acceptedZone domains (dr_Name record) with
  | None => Err (ErrUnacceptedZone (dr_Zone record))
  | Some _ => Ok tt
  end.

Definition isReservedInternalHost (name : string) : bool :=
  let name := ToLower (TrimChar dot (TrimSpace name)) in under name ReservedInternalZone.

Definition host_guards (records : list DNSRecordSpec) (domains : list DomainSpec) (host : string) : list (bool * rerr) :=
  let name := TrimPrefix host "*." in
  [ ((name =? "")%string, ErrInvalidHost host);
    if isReservedInternalHost name then refuse false "" else
      match acceptedZone domains name with
      | None => (true, ErrUnacceptedHost host)
      | Some zone => (zoneHasManagedRecords records (dm_Zone zone) && match dnsRecordNamed records name with Some _ => false | None => true end,
                      ErrHostWithoutRecord host)
      end ].

Definition ValidateRouteAdmission (route : RouteSpec) (records : list DNSRecordSpec) (domains : list DomainSpec) : result rerr unit :=
  let route := RouteSpec_Normalize route in
  guards
    (flat_map (host_guards records domains) (rm_Hosts (rt_Match route) ++ rm_SNI (rt_Match route)) ++
     [ if negb (rt_DNSReference route =? "")%string then
         match List.find (fun r => (dr_ID r =? rt_DNSReference route)%string) records with
         | None => refuse true "route DNS reference was not found"
         | Some record => failing (ValidateDomainAdmission record domains)
         end
       else refuse false "" ]).

(** ** Lemmas *)

Lemma guards_ok l : guards l = Ok tt <-> (forall g, In g l -> fst g = false).
Proof.
  unfold guards. destruct (List.find fst l) as [[b e]|] eqn:E.
  - apply List.find_some in E as [Hin Hb]. split; [discriminate|]. intros Hl. by rewrite (Hl _ Hin) in Hb.
  - split; [|done]. intros _ g Hin. by apply (List.find_none _ _ E).
Qed.

Lemma failing_ok r : fst (failing r) = false <-> r = Ok tt.
Proof. destruct r as [[]|e]; done. Qed.

Lemma best_zone_some host b domains : is_Some (best_zone host (Some b) domains).
Proof.
  revert b. induction domains as [|d rest IH]; intros b; simpl; [by eexists|]. repeat case_match; apply IH.
Qed.

(** A host is accepted exactly when a zone of the list owns it. *)
Lemma acceptedZone_iff domains host :
  is_Some (acceptedZone domains host) <->
  exists d, In d domains /\ under (host_form host) (dm_Zone (DomainSpec_Normalize d)) = true.
Proof.
  unfold acceptedZone. generalize (host_form host). intros h. induction domains as [|d rest IH]; simpl.
  - split; [by intros [? ?]|by intros (d & [] & _)].
  - destruct (under h (host_form (dm_Zone d))) eqn:U.
    + split; intros _; [by exists d; split; [left|]|apply best_zone_some].
    + rewrite IH. split; intros (x & Hin & Hx); exists x.
      * by split; [right|].
      * destruct Hin as [->|Hin]; [by rewrite Hx in U|done].
Qed.

Lemma acceptedZone_mono domains domains' host :
  (forall d, In d domains -> In d domains') -> is_Some (acceptedZone domains host) -> is_Some (acceptedZone domains' host).
Proof. rewrite !acceptedZone_iff. intros Hsub (d & Hin & Hd). exists d. auto. Qed.

(** What admission leaves true of each host of a route. *)
Definition host_accepted (domains : list DomainSpec) (host : string) : Prop :=
  isReservedInternalHost (TrimPrefix host "*.") = true \/ is_Some (acceptedZone domains (TrimPrefix host "*.")).

Definition record_accepted (domains : list DomainSpec) (r : DNSRecordSpec) : Prop :=
  is_Some (acceptedZone domains (dr_Name (DNSRecordSpec_Normalize r))).

Lemma domain_admission_iff r domains : ValidateDomainAdmission r domains = Ok tt <-> record_accepted domains r.
Proof.
  unfold ValidateDomainAdmission, record_accepted. destruct (acceptedZone _ _); split; try done; by intros [? ?].
Qed.

Lemma admission_hosts route records domains host :
  ValidateRouteAdmission route records domains = Ok tt ->
  In host (rm_Hosts (rt_Match (RouteSpec_Normalize route)) ++ rm_SNI (rt_Match (RouteSpec_Normalize route))) ->
  host_accepted domains host.
Proof.
  unfold ValidateRouteAdmission. rewrite guards_ok. intros Hall Hin. unfold host_accepted.
  destruct (isReservedInternalHost _) eqn:R; [by left|right].
  destruct (acceptedZone domains (TrimPrefix host "*.")) as [z|] eqn:Z; [by eexists|].
  assert (Hg : In (true, ErrUnacceptedHost host) (host_guards records domains host)).
  { unfold host_guards. rewrite R, Z. by right; left. }
  assert (F : fst (true, ErrUnacceptedHost host) = false); [|done]. apply Hall, in_or_app. left.
  apply in_flat_map. by exists host.
Qed.

End Domains.
