(* ===== verification/RoutingRows.v ===== *)
(** * internal/ops/routing_store.go: the rows of a cluster

    [routingCluster] is the working copy of one gateway's routing state; the
    database keeps it in the twelve tables of migration 0006.  The database is
    the table of clusters with the rows of the other tables, each tagged by its
    constructor with the table it is in.  [writeCluster] replaces a cluster's
    rows, [loadCluster] reads them back.  Modelled of the server: the primary,
    unique and foreign keys, the CHECK constraints, and the width, range and
    character set of each column.  A JSON column holds what [json.Marshal] makes
    of a value: each byte of a text that is not UTF-8 becomes U+FFFD; the times
    of the plans lie in the years JSON can write. *)

From Stdlib Require Import ZArith Lia Bool Ascii String.
From stdpp Require Import base tactics list strings gmap.
From S2P Require Import Prelude GoStrings Sqlstore Ledger GoText RoutingTypes RoutingDomain.

Local Open Scope string_scope.
Local Open Scope list_scope.
Local Open Scope bool_scope.
Local Open Scope Z_scope.
Local Open Scope tx_scope.

(** ** The working copy *)

(** The zero [time.Time], 1 January of year 1. *)
Definition zero_time : Z := - 62135596800 * second.
Definition IsZero (t : Z) : bool := t =? zero_time.

Record DNSCredentialMetadata := mkCredential {
  dc_AccountID : string; dc_CreatedAt : Z; dc_Email : string; dc_ID : string; dc_Name : string; dc_Provider : string;
  dc_SecretName : string; dc_State : string; dc_ValidatedAt : option Z; dc_Version : Z }.

Record CertificateStatus := mkCertificate {
  ct_Domains : list string; ct_FailureSummary : string; ct_Fingerprint : string; ct_HandshakeValid : bool; ct_Issuer : string;
  ct_LastAttempt : option Z; ct_NotAfter : option Z; ct_NotBefore : option Z; ct_Resolver : string; ct_RouteKey : string;
  ct_State : string; ct_Version : Z }.

Record RouteRuntime := mkRuntime {
  rr_Errors : list string; rr_EntryPoints : list string; rr_ObservedAt : Z; rr_Protocol : string; rr_RouteKey : string;
  rr_Router : string; rr_Service : string; rr_State : string; rr_Version : Z }.

Record CutoverService := mkCutoverService {
  cs_Bindings : list string; cs_Blockers : list string; cs_DirectPorts : list Z; cs_Healthy : bool; cs_LegacyNetworks : list string;
  cs_Role : string; cs_Routes : list string; cs_ServiceKey : string }.

Record CutoverPlan := mkCutover {
  cp_Blockers : list string; cp_GeneratedAt : Z; cp_Phases : list string; cp_Ready : bool; cp_Services : list CutoverService; cp_Version : Z }.

Record CutoverPublishedPort := mkPublished { pp_Protocol : string; pp_PublishedPort : Z; pp_TargetPort : Z }.

Record CutoverServiceRollback := mkServiceRollback {
  sr_PublishedPorts : list CutoverPublishedPort; sr_ServiceKey : string; sr_Networks : list string }.

Record CutoverRollbackPlan := mkRollback { cr_GeneratedAt : Z; cr_Services : list CutoverServiceRollback; cr_Version : Z }.

Record routingCluster := mkCluster {
  rc_Bindings : gmap string DependencyBinding; rc_Certificates : gmap string CertificateStatus;
  rc_Credentials : gmap string (list DNSCredentialMetadata); rc_Cutover : option CutoverPlan;
  rc_CutoverRollback : option CutoverRollbackPlan; rc_Declarations : gmap string ServiceRouteDeclaration;
  rc_DNSRecords : gmap string DNSRecordSpec; rc_Domains : gmap string DomainSpec; rc_Routes : gmap string RouteSpec;
  rc_Runtime : gmap string RouteRuntime; rc_Secrets : gmap string string; rc_Settings : TraefikSettings }.

(** Iteration over a Go map visits its entries in some order. *)
Class MapOrder := {
  ranged : forall {A : Type}, gmap string A -> list (string * A);
  ranged_perm : forall {A : Type} (m : gmap string A), ranged m ≡ₚ map_to_list m
}.

Definition list_order : MapOrder.
Proof. refine {| ranged := fun A m => map_to_list m |}. done. Defined.

(** What the server keeps of a time in a [DATETIME(6)] column: the time itself
    when it is a whole number of microseconds. *)
Class Clock6 := { datetime6 : Z -> Z; datetime6_whole : forall t, t mod microsecond = 0 -> datetime6 t = t }.

Definition truncating_clock : Clock6.
Proof. refine {| datetime6 := truncate microsecond |}. intros t Ht. apply truncate_id; [done|done]. Defined.

(** ** Rows *)

Record RouteRow := mkRouteRow {
  r_route_key : string; r_service_key : string; r_protocol : string; r_scope : string; r_tls_mode : string;
  r_listen_port : option Z; r_target_port : Z; r_path_prefix : option string; r_health_kind : string; r_health_path : option string;
  r_health_timeout_seconds : Z; r_dns_reference : option string; r_resolver : option string; r_enabled : bool; r_managed : bool;
  r_metrics : bool; r_access_logs : bool; r_public_allow : bool; r_is_sensitive : bool; r_version : Z }.

Record CredentialRow := mkCredentialRow {
  k_credential_id : string; k_version : Z; k_name : string; k_provider : string; k_account_id : option string; k_email : option string;
  k_secret_name : string; k_state : string; k_created_at : Z; k_validated_at : option Z; k_secret_sealed : option Sealed }.

Record DNSRow := mkDNSRow {
  n_id : string; n_zone : string; n_name : string; n_type : string; n_content : string; n_ttl : Z; n_proxied : bool; n_managed : bool;
  n_adopted : bool; n_credential_id : string; n_provider_record_id : option string; n_version : Z }.

Record CertificateRow := mkCertificateRow {
  c_route_key : string; c_state : string; c_issuer : option string; c_fingerprint : option string; c_resolver : string;
  c_handshake_valid : bool; c_failure_summary : option string; c_last_attempt : option Z; c_not_before : option Z;
  c_not_after : option Z; c_version : Z }.

Record RuntimeRow := mkRuntimeRow {
  u_route_key : string; u_protocol : string; u_router : string; u_service : string; u_state : string; u_observed_at : Z; u_version : Z }.

Inductive Row :=
| RRoute (r : RouteRow)
| RHost (route_key kind : string) (position : Z) (hostname : string)
| RBinding (caller_service target_route name delivery : string) (version : Z)
| RDeclaration (service_key role : string) (reason : option string) (version : Z)
| RDomain (zone : string) (note : option string) (created_at : option Z) (version : Z)
| RCredential (r : CredentialRow)
| RDNS (r : DNSRow)
| RCertificate (r : CertificateRow)
| RCertificateDomain (route_key : string) (position : Z) (domain : string)
| RRuntime (r : RuntimeRow)
| RRuntimeEntry (route_key : string) (position : Z) (entry_point : string)
| RRuntimeError (route_key : string) (position : Z) (message : string).

Record ClusterRow := mkClusterRow {
  cl_id : string; cl_settings : TraefikSettings; cl_cutover : option CutoverPlan; cl_rollback : option CutoverRollbackPlan }.

Record RoutingDB := mkRoutingDB { routing_clusters : list ClusterRow; routing_rows : list (string * Row) }.

Definition with_clusters (f : list ClusterRow -> list ClusterRow) (db : RoutingDB) : RoutingDB :=
  mkRoutingDB (f (routing_clusters db)) (routing_rows db).
Definition with_rows (f : list (string * Row) -> list (string * Row)) (db : RoutingDB) : RoutingDB :=
  mkRoutingDB (routing_clusters db) (f (routing_rows db)).

(** Errors inside [update]: of the mutation, or of the database. *)
Inductive uerr := Mutation (e : rerr) | Storage (e : rerr).

#[export] Instance uerr_server : ServerError uerr := {|
  server := fun c => Storage (ErrServer c);
  server_code := fun e => match e with Storage (ErrServer c) => Some c | _ => None end;
  ctx_done := Storage ErrContextDone;
  lost_connection := Storage ErrConnectionLost;
  server_code_server := fun c => eq_refl;
  server_code_lost := eq_refl |}.

Definition ErrDataTooLong : Z := 1406.
Definition ErrIncorrectString : Z := 1366.
Definition ErrOutOfRange : Z := 1264.
Definition ErrNoReferencedRow : Z := 1452.

(** ** Constraints of the tables *)

Definition varchar (n : Z) (s : string) : bool := RuneCount s <=? n.
Definition varchar_null (n : Z) (s : option string) : bool := match s with Some s => varchar n s | None => true end.
Definition smallint (n : Z) : bool := between 0 65535 n.
Definition int32 (n : Z) : bool := between (-2147483648) 2147483647 n.
Definition uint32 (n : Z) : bool := between 0 4294967295 n.
Definition option_Z (p : Z -> bool) (n : option Z) : bool := match n with Some n => p n | None => true end.

Definition widths (row : Row) : bool :=
  match row with
  | RRoute r => varchar 64 (r_route_key r) && varchar 128 (r_service_key r) && varchar 8 (r_protocol r) && varchar 16 (r_scope r)
                && varchar 16 (r_tls_mode r) && varchar_null 256 (r_path_prefix r) && varchar 32 (r_health_kind r)
                && varchar_null 256 (r_health_path r) && varchar_null 64 (r_dns_reference r) && varchar_null 64 (r_resolver r)
  | RHost k kind _ h => varchar 64 k && varchar 4 kind && varchar 253 h
  | RBinding c t n d _ => varchar 128 c && varchar 64 t && varchar 64 n && varchar 32 d
  | RDeclaration k role reason _ => varchar 128 k && varchar 32 role && varchar_null 512 reason
  | RDomain z note _ _ => varchar 253 z && varchar_null 512 note
  | RCredential r => varchar 64 (k_credential_id r) && varchar 96 (k_name r) && varchar 32 (k_provider r) && varchar_null 128 (k_account_id r)
                     && varchar_null 254 (k_email r) && varchar 128 (k_secret_name r) && varchar 16 (k_state r)
  | RDNS r => varchar 64 (n_id r) && varchar 253 (n_zone r) && varchar 253 (n_name r) && varchar 8 (n_type r) && varchar 512 (n_content r)
              && varchar 64 (n_credential_id r) && varchar_null 128 (n_provider_record_id r)
  | RCertificate r => varchar 64 (c_route_key r) && varchar 32 (c_state r) && varchar_null 256 (c_issuer r) && varchar_null 128 (c_fingerprint r)
                      && varchar 64 (c_resolver r) && match c_failure_summary r with Some t => len t <=? 65535 | None => true end
  | RCertificateDomain k _ d => varchar 64 k && varchar 253 d
  | RRuntime r => varchar 64 (u_route_key r) && varchar 8 (u_protocol r) && varchar 256 (u_router r) && varchar 256 (u_service r)
                  && varchar 32 (u_state r)
  | RRuntimeEntry k _ e => varchar 64 k && varchar 64 e
  | RRuntimeError k _ m => varchar 64 k && varchar 256 m
  end.

(** The texts of a row; a column of character set utf8mb4 takes valid UTF-8. *)
Definition texts (row : Row) : list string :=
  match row with
  | RRoute r => [r_route_key r; r_service_key r; r_protocol r; r_scope r; r_tls_mode r; r_health_kind r; default "" (r_path_prefix r);
                 default "" (r_health_path r); default "" (r_dns_reference r); default "" (r_resolver r)]
  | RHost k kind _ h => [k; kind; h]
  | RBinding c t n d _ => [c; t; n; d]
  | RDeclaration k role reason _ => [k; role; default "" reason]
  | RDomain z note _ _ => [z; default "" note]
  | RCredential r => [k_credential_id r; k_name r; k_provider r; default "" (k_account_id r); default "" (k_email r); k_secret_name r; k_state r]
  | RDNS r => [n_id r; n_zone r; n_name r; n_type r; n_content r; n_credential_id r; default "" (n_provider_record_id r)]
  | RCertificate r => [c_route_key r; c_state r; default "" (c_issuer r); default "" (c_fingerprint r); c_resolver r; default "" (c_failure_summary r)]
  | RCertificateDomain k _ d => [k; d]
  | RRuntime r => [u_route_key r; u_protocol r; u_router r; u_service r; u_state r]
  | RRuntimeEntry k _ e => [k; e]
  | RRuntimeError k _ m => [k; m]
  end.

(** A text written by [json.Marshal] and read again. *)
Definition json_text (s : string) : string := string_of_runes (runes s).

Definition valid_utf8 (s : string) : bool := (json_text s =? s)%string.

(** [mustJSON] of the settings and plans, read again. *)
Definition json_entry (e : StaticEntryPoint) : StaticEntryPoint :=
  mkEntry (json_text (ep_Name e)) (ep_Port e) (json_text (ep_Protocol e)) (ep_Public e).
Definition json_policy (p : ACMEPolicy) : ACMEPolicy :=
  mkPolicy (json_text (ap_Challenge p)) (json_text (ap_DNSCredentialID p)) (json_text (ap_Name p)) (json_text (ap_Provider p)).
Definition json_settings (s : TraefikSettings) : TraefikSettings :=
  mkSettings (json_text (ts_ACMEEmail s)) (ts_AccessLogs s) (json_text (ts_DashboardHost s)) (map json_entry (ts_EntryPoints s))
    (ts_MetricsEnabled s) (json_text (ts_OperationalLog s)) (ts_PortStart s) (ts_PortEnd s) (map json_policy (ts_Resolvers s)) (ts_Version s).

Definition json_service (s : CutoverService) : CutoverService :=
  mkCutoverService (map json_text (cs_Bindings s)) (map json_text (cs_Blockers s)) (cs_DirectPorts s) (cs_Healthy s)
    (map json_text (cs_LegacyNetworks s)) (json_text (cs_Role s)) (map json_text (cs_Routes s)) (json_text (cs_ServiceKey s)).
Definition json_cutover (p : CutoverPlan) : CutoverPlan :=
  mkCutover (map json_text (cp_Blockers p)) (cp_GeneratedAt p) (map json_text (cp_Phases p)) (cp_Ready p)
    (map json_service (cp_Services p)) (cp_Version p).

Definition json_port (p : CutoverPublishedPort) : CutoverPublishedPort :=
  mkPublished (json_text (pp_Protocol p)) (pp_PublishedPort p) (pp_TargetPort p).
Definition json_service_rollback (s : CutoverServiceRollback) : CutoverServiceRollback :=
  mkServiceRollback (map json_port (sr_PublishedPorts s)) (json_text (sr_ServiceKey s)) (map json_text (sr_Networks s)).
Definition json_rollback (p : CutoverRollbackPlan) : CutoverRollbackPlan :=
  mkRollback (cr_GeneratedAt p) (map json_service_rollback (cr_Services p)) (cr_Version p).

Definition ranges (row : Row) : bool :=
  match row with
  | RRoute r => option_Z smallint (r_listen_port r) && smallint (r_target_port r) && smallint (r_health_timeout_seconds r) && int32 (r_version r)
  | RHost _ _ p _ | RCertificateDomain _ p _ | RRuntimeEntry _ p _ | RRuntimeError _ p _ => smallint p
  | RBinding _ _ _ _ v | RDeclaration _ _ _ v | RDomain _ _ _ v => int32 v
  | RCredential r => uint32 (k_version r)
  | RDNS r => uint32 (n_ttl r) && int32 (n_version r)
  | RCertificate r => int32 (c_version r)
  | RRuntime r => int32 (u_version r)
  end.

Section Rows.
Context `{CaseTable} `{Collation} `{MapOrder} `{Clock6}.

Definition member (v : string) (values : list string) : bool := existsb (ceq v) values.

Definition row_checks (row : Row) : bool :=
  match row with
  | RRoute r => member (r_protocol r) ["http"; "tcp"; "udp"]
  | RHost _ kind _ _ => member kind ["host"; "sni"]
  | RCredential r => member (k_state r) ["sealed"; "validated"; "removed"]
                     && (ceq (k_state r) "removed" || match k_secret_sealed r with Some _ => true | None => false end)
  | _ => true
  end.

(** Two rows of one cluster that a primary or unique key does not let exist
    together. *)
Definition clash (a b : Row) : bool :=
  match a, b with
  | RRoute x, RRoute y => ceq (r_route_key x) (r_route_key y)
  | RHost k kind p _, RHost k' kind' p' _ => ceq k k' && ceq kind kind' && (p =? p')
  | RBinding c t n _ _, RBinding c' t' n' _ _ => ceq c c' && ceq t t' && ceq n n'
  | RDeclaration k _ _ _, RDeclaration k' _ _ _ => ceq k k'
  | RDomain z _ _ _, RDomain z' _ _ _ => ceq z z'
  | RCredential x, RCredential y =>
      (ceq (k_credential_id x) (k_credential_id y) && (k_version x =? k_version y)) || ceq (k_secret_name x) (k_secret_name y)
  | RDNS x, RDNS y => ceq (n_id x) (n_id y) || (ceq (n_name x) (n_name y) && ceq (n_type x) (n_type y))
  | RCertificate x, RCertificate y => ceq (c_route_key x) (c_route_key y)
  | RCertificateDomain k p _, RCertificateDomain k' p' _ => ceq k k' && (p =? p')
  | RRuntime x, RRuntime y => ceq (u_route_key x) (u_route_key y)
  | RRuntimeEntry k p _, RRuntimeEntry k' p' _ => ceq k k' && (p =? p')
  | RRuntimeError k p _, RRuntimeError k' p' _ => ceq k k' && (p =? p')
  | _, _ => false
  end.

(** The row [b] is the one [a]'s foreign key refers to. *)
Definition refers (a b : Row) : bool :=
  match a, b with
  | RHost k _ _ _, RRoute r => ceq k (r_route_key r)
  | RCertificate c, RRoute r => ceq (c_route_key c) (r_route_key r)
  | RCertificateDomain k _ _, RCertificate c => ceq k (c_route_key c)
  | RRuntimeEntry k _ _, RRuntime r => ceq k (u_route_key r)
  | RRuntimeError k _ _, RRuntime r => ceq k (u_route_key r)
  | _, _ => false
  end.

Definition needs_parent (a : Row) : bool :=
  match a with
  | RHost _ _ _ _ | RCertificate _ | RCertificateDomain _ _ _ | RRuntimeEntry _ _ _ | RRuntimeError _ _ _ => true
  | _ => false
  end.

Definition of_cluster (clusterID : string) (r : string * Row) : bool := ceq (fst r) clusterID.

Definition insert_row (clusterID : string) (row : Row) : tx RoutingDB uerr unit :=
  db <- tx_get ;;
  tx_guard (forallb valid_utf8 (clusterID :: texts row)) (server ErrIncorrectString) ;;;
  tx_guard (varchar 64 clusterID && widths row) (server ErrDataTooLong) ;;;
  tx_guard (ranges row) (server ErrOutOfRange) ;;;
  tx_guard (row_checks row) (server ErrCheckViolation) ;;;
  tx_guard (negb (existsb (fun r => of_cluster clusterID r && clash row (snd r)) (routing_rows db))) (server ErrDuplicateEntry) ;;;
  tx_guard (negb (needs_parent row) || existsb (fun r => of_cluster clusterID r && refers row (snd r)) (routing_rows db))
    (server ErrNoReferencedRow) ;;;
  tx_modify (with_rows (fun t => t ++ [(clusterID, row)])).

(** ** Writing *)

Definition nullableText (v : string) : option string := if (v =? "")%string then None else Some v.
Definition nullablePort (v : Z) : option Z := if v =? 0 then None else Some v.
Definition nullableTime (t : Z) : option Z := if IsZero t then None else Some (datetime6 t).
Definition pointerTime (t : option Z) : option Z := match t with None => None | Some t => nullableTime t end.

Definition dnsCredentialPurpose (clusterID credentialID : string) (version : Z) : string :=
  Purpose "dns_credential_versions" "secret_sealed" (clusterID ++ "/" ++ credentialID ++ "/" ++ decimal version)%string.

Definition route_row (route : RouteSpec) : Row :=
  RRoute (mkRouteRow (rt_Key route) (rt_ServiceKey route) (rt_Protocol route) (rt_Scope route) (rt_TLS route)
    (nullablePort (rt_ListenPort route)) (rt_TargetPort route) (nullableText (rm_PathPrefix (rt_Match route)))
    (rh_Kind (rt_Health route)) (nullableText (rh_Path (rt_Health route))) (rh_TimeoutSeconds (rt_Health route))
    (nullableText (rt_DNSReference route)) (nullableText (rt_Resolver route)) (rt_Enabled route) (rt_Managed route) (rt_Metrics route)
    (rt_AccessLogs route) (rt_PublicAllow route) (rt_Sensitive route) (rt_Version route)).

(** [for position, value := range values]. *)
Definition positioned (mk : Z -> string -> Row) (values : list string) : list Row :=
  imap (fun i v => mk (Z.of_nat i) v) values.

Definition route_rows (route : RouteSpec) : list Row :=
  route_row route :: positioned (RHost (rt_Key route) "host") (rm_Hosts (rt_Match route))
                  ++ positioned (RHost (rt_Key route) "sni") (rm_SNI (rt_Match route)).

Definition binding_row (b : DependencyBinding) : Row :=
  RBinding (db_CallerService b) (db_TargetRoute b) (db_Name b) (db_Delivery b) (db_Version b).

Definition declaration_row (d : ServiceRouteDeclaration) : Row :=
  RDeclaration (sd_ServiceKey d) (sd_Role d) (nullableText (sd_Reason d)) (sd_Version d).

Definition domain_row (d : DomainSpec) : Row :=
  RDomain (dm_Zone d) (nullableText (dm_Note d)) (nullableTime (dm_CreatedAt d)) (dm_Version d).

Definition secret_of (secrets : gmap string string) (name : string) : string := default "" (secrets !! name).

Definition credential_row (clusterID id : string) (secrets : gmap string string) (m : DNSCredentialMetadata) : Row :=
  RCredential (mkCredentialRow id (dc_Version m) (dc_Name m) (dc_Provider m) (nullableText (dc_AccountID m)) (nullableText (dc_Email m))
    (dc_SecretName m) (dc_State m) (datetime6 (dc_CreatedAt m)) (option_map datetime6 (dc_ValidatedAt m))
    (let value := secret_of secrets (dc_SecretName m) in
     if negb (dc_State m =? "removed")%string && negb (value =? "")%string
     then Some (seal (dnsCredentialPurpose clusterID id (dc_Version m)) value) else None)).

Definition dns_row (r : DNSRecordSpec) : Row :=
  RDNS (mkDNSRow (dr_ID r) (dr_Zone r) (dr_Name r) (dr_Type r) (dr_Content r) (dr_TTL r) (dr_Proxied r) (dr_Managed r) (dr_Adopted r)
    (dr_CredentialID r) (nullableText (dr_ProviderRecordID r)) (dr_Version r)).

Definition certificate_rows (c : CertificateStatus) : list Row :=
  RCertificate (mkCertificateRow (ct_RouteKey c) (ct_State c) (nullableText (ct_Issuer c)) (nullableText (ct_Fingerprint c)) (ct_Resolver c)
    (ct_HandshakeValid c) (nullableText (ct_FailureSummary c)) (pointerTime (ct_LastAttempt c)) (pointerTime (ct_NotBefore c))
    (pointerTime (ct_NotAfter c)) (ct_Version c)) ::
  positioned (RCertificateDomain (ct_RouteKey c)) (ct_Domains c).

Definition runtime_rows (r : RouteRuntime) : list Row :=
  RRuntime (mkRuntimeRow (rr_RouteKey r) (rr_Protocol r) (rr_Router r) (rr_Service r) (rr_State r) (datetime6 (rr_ObservedAt r)) (rr_Version r)) ::
  positioned (RRuntimeEntry (rr_RouteKey r)) (rr_EntryPoints r) ++ positioned (RRuntimeError (rr_RouteKey r)) (rr_Errors r).

(** The rows of the cluster in the order they are inserted. *)
Definition cluster_rows (clusterID : string) (c : routingCluster) : list Row :=
  flat_map (fun kv => route_rows (snd kv)) (ranged (rc_Routes c)) ++
  map (fun kv => binding_row (snd kv)) (ranged (rc_Bindings c)) ++
  map (fun kv => declaration_row (snd kv)) (ranged (rc_Declarations c)) ++
  map (fun kv => domain_row (snd kv)) (ranged (rc_Domains c)) ++
  flat_map (fun kv => map (credential_row clusterID (fst kv) (rc_Secrets c)) (snd kv)) (ranged (rc_Credentials c)) ++
  map (fun kv => dns_row (snd kv)) (ranged (rc_DNSRecords c)) ++
  flat_map (fun kv => certificate_rows (snd kv)) (ranged (rc_Certificates c)) ++
  flat_map (fun kv => runtime_rows (snd kv)) (ranged (rc_Runtime c)).

Fixpoint insert_rows (clusterID : string) (rows : list Row) : tx RoutingDB uerr unit :=
  match rows with
  | [] => tx_ret tt
  | row :: rest => insert_row clusterID row ;;; insert_rows clusterID rest
  end.

Definition writeCluster (clusterID : string) (c : routingCluster) : tx RoutingDB uerr unit :=
  tx_modify (with_clusters (sql_update (fun r => ceq (cl_id r) clusterID)
    (fun r => mkClusterRow (cl_id r) (json_settings (rc_Settings c)) (option_map json_cutover (rc_Cutover c))
                (option_map json_rollback (rc_CutoverRollback c))))) ;;;
  tx_modify (with_rows (sql_delete (of_cluster clusterID))) ;;;
  insert_rows clusterID (cluster_rows clusterID c).

(** ** Reading *)

Definition text (v : option string) : string := default "" v.

Definition route_of (r : RouteRow) : RouteSpec :=
  mkRoute (r_access_logs r) (text (r_dns_reference r)) (r_enabled r)
    (mkHealth (r_health_kind r) (text (r_health_path r)) (r_health_timeout_seconds r)) (r_route_key r)
    (default 0 (r_listen_port r) mod 65536) (r_managed r) (mkMatch [] (text (r_path_prefix r)) []) (r_metrics r) (r_protocol r) (r_public_allow r)
    (text (r_resolver r)) (r_scope r) (r_is_sensitive r) (r_service_key r) (r_tls_mode r) (r_target_port r) (r_version r).

Definition zero_route : RouteSpec :=
  mkRoute false "" false (mkHealth "" "" 0) "" 0 false (mkMatch [] "" []) false "" false "" "" false "" "" 0 0.

Definition add_host (kind hostname : string) (r : RouteSpec) : RouteSpec :=
  let m := rt_Match r in
  mkRoute (rt_AccessLogs r) (rt_DNSReference r) (rt_Enabled r) (rt_Health r) (rt_Key r) (rt_ListenPort r) (rt_Managed r)
    (if (kind =? "sni")%string then mkMatch (rm_Hosts m) (rm_PathPrefix m) (rm_SNI m ++ [hostname])
     else mkMatch (rm_Hosts m ++ [hostname]) (rm_PathPrefix m) (rm_SNI m))
    (rt_Metrics r) (rt_Protocol r) (rt_PublicAllow r) (rt_Resolver r) (rt_Scope r) (rt_Sensitive r) (rt_ServiceKey r) (rt_TLS r)
    (rt_TargetPort r) (rt_Version r).

Definition credential_of (r : CredentialRow) : DNSCredentialMetadata :=
  mkCredential (text (k_account_id r)) (k_created_at r) (text (k_email r)) (k_credential_id r) (k_name r) (k_provider r) (k_secret_name r)
    (k_state r) (k_validated_at r) (k_version r).

Definition dns_of (r : DNSRow) : DNSRecordSpec :=
  mkRecord (n_adopted r) (n_content r) (n_credential_id r) (n_id r) (n_managed r) (n_name r) (text (n_provider_record_id r)) (n_proxied r)
    (n_ttl r) (n_type r) (n_version r) (n_zone r).

Definition certificate_of (r : CertificateRow) : CertificateStatus :=
  mkCertificate [] (text (c_failure_summary r)) (text (c_fingerprint r)) (c_handshake_valid r) (text (c_issuer r)) (c_last_attempt r)
    (c_not_after r) (c_not_before r) (c_resolver r) (c_route_key r) (c_state r) (c_version r).

Definition zero_certificate : CertificateStatus := mkCertificate [] "" "" false "" None None None "" "" "" 0.

Definition add_domain (d : string) (c : CertificateStatus) : CertificateStatus :=
  mkCertificate (ct_Domains c ++ [d]) (ct_FailureSummary c) (ct_Fingerprint c) (ct_HandshakeValid c) (ct_Issuer c) (ct_LastAttempt c)
    (ct_NotAfter c) (ct_NotBefore c) (ct_Resolver c) (ct_RouteKey c) (ct_State c) (ct_Version c).

Definition runtime_of (r : RuntimeRow) : RouteRuntime :=
  mkRuntime [] [] (u_observed_at r) (u_protocol r) (u_route_key r) (u_router r) (u_service r) (u_state r) (u_version r).

Definition zero_runtime : RouteRuntime := mkRuntime [] [] zero_time "" "" "" "" "" 0.

Definition add_entry (e : string) (r : RouteRuntime) : RouteRuntime :=
  mkRuntime (rr_Errors r) (rr_EntryPoints r ++ [e]) (rr_ObservedAt r) (rr_Protocol r) (rr_RouteKey r) (rr_Router r) (rr_Service r) (rr_State r) (rr_Version r).

Definition add_error (e : string) (r : RouteRuntime) : RouteRuntime :=
  mkRuntime (rr_Errors r ++ [e]) (rr_EntryPoints r) (rr_ObservedAt r) (rr_Protocol r) (rr_RouteKey r) (rr_Router r) (rr_Service r) (rr_State r) (rr_Version r).

(** [SELECT ... WHERE cluster_id = ?] of one table. *)
Definition select {R : Type} (pick : Row -> option R) (clusterID : string) (db : RoutingDB) : list R :=
  omap (fun r => pick (snd r)) (sql_where (of_cluster clusterID) (routing_rows db)).

Definition pick_route (r : Row) : option RouteRow := match r with RRoute x => Some x | _ => None end.
Definition pick_host (r : Row) : option (string * string * (Z * string)) :=
  match r with RHost k kind p h => Some (k, kind, (p, h)) | _ => None end.
Definition pick_binding (r : Row) : option DependencyBinding :=
  match r with RBinding c t n d v => Some (mkBinding c d n t v) | _ => None end.
Definition pick_declaration (r : Row) : option ServiceRouteDeclaration :=
  match r with RDeclaration k role reason v => Some (mkDeclaration (text reason) role k v) | _ => None end.
Definition pick_domain (r : Row) : option DomainSpec :=
  match r with RDomain z note created v => Some (mkDomain (default zero_time created) (text note) v z) | _ => None end.
Definition pick_credential (r : Row) : option CredentialRow := match r with RCredential x => Some x | _ => None end.
Definition pick_dns (r : Row) : option DNSRecordSpec := match r with RDNS x => Some (dns_of x) | _ => None end.
Definition pick_certificate (r : Row) : option CertificateRow := match r with RCertificate x => Some x | _ => None end.
Definition pick_certificate_domain (r : Row) : option (string * (Z * string)) :=
  match r with RCertificateDomain k p d => Some (k, (p, d)) | _ => None end.
Definition pick_runtime (r : Row) : option RuntimeRow := match r with RRuntime x => Some x | _ => None end.
Definition pick_entry (r : Row) : option (string * (Z * string)) := match r with RRuntimeEntry k p e => Some (k, (p, e)) | _ => None end.
Definition pick_error (r : Row) : option (string * (Z * string)) := match r with RRuntimeError k p e => Some (k, (p, e)) | _ => None end.

(** [ORDER BY ..., position]: only the order of the rows of one parent matters
    to the scan that reads them, and that is the order of their positions. *)
Definition by_position {R : Type} (position : R -> Z) (rows : list R) : list R := order_by (fun r => (position r, 0)) rows.

(** [m[key] = value] for each row. *)
Definition collect {R A : Type} (key : R -> string) (value : R -> A) (rows : list R) : gmap string A :=
  foldl (fun m r => <[key r := value r]> m) ∅ rows.

(** [v := m[key]; v = append-to(v); m[key] = v] for each row. *)
Definition extend {R A : Type} (zero : A) (key : R -> string) (f : R -> A -> A) (rows : list R) (m : gmap string A) : gmap string A :=
  foldl (fun m r => <[key r := f r (default zero (m !! key r))]> m) m rows.

Definition dependencyBindingKey (b : DependencyBinding) : string :=
  (db_CallerService b ++ "|" ++ db_TargetRoute b ++ "|" ++ db_Name b)%string.

(** The secrets of the credential rows, or the error of the first that does not
    open. *)
Fixpoint open_secrets (clusterID : string) (rows : list CredentialRow) (m : gmap string string) : result uerr (gmap string string) :=
  match rows with
  | [] => Ok m
  | r :: rest =>
      match k_secret_sealed r with
      | None => open_secrets clusterID rest m
      | Some sealed =>
          match open_sealed (dnsCredentialPurpose clusterID (k_credential_id r) (k_version r)) sealed with
          | None => Err (Storage ErrOpenSecret)
          | Some value => open_secrets clusterID rest (<[k_secret_name r := value]> m)
          end
      end
  end.

(** What the scans after the cluster's own row build.  [at_] is the state of the
    database each statement reads, by its number: outside a transaction the
    statements run one by one, and other calls commit between them. *)
Definition load_rows_at (clusterID : string) (secrets : gmap string string) (row : ClusterRow) (at_ : nat -> RoutingDB) : routingCluster :=
  {| rc_Settings := cl_settings row; rc_Cutover := cl_cutover row; rc_CutoverRollback := cl_rollback row;
     rc_Routes := extend zero_route (fun r => fst (fst r)) (fun r => add_host (snd (fst r)) (snd (snd r)))
                    (by_position (fun r => fst (snd r)) (select pick_host clusterID (at_ 2%nat)))
                    (collect r_route_key route_of (select pick_route clusterID (at_ 1%nat)));
     rc_Bindings := collect dependencyBindingKey (fun b => b) (select pick_binding clusterID (at_ 3%nat));
     rc_Declarations := collect sd_ServiceKey (fun d => d) (select pick_declaration clusterID (at_ 4%nat));
     rc_Domains := collect dm_Zone (fun d => d) (select pick_domain clusterID (at_ 5%nat));
     rc_Credentials := extend [] k_credential_id (fun r versions => versions ++ [credential_of r])
                         (by_position k_version (select pick_credential clusterID (at_ 6%nat))) ∅;
     rc_Secrets := secrets;
     rc_DNSRecords := collect dr_ID (fun r => r) (select pick_dns clusterID (at_ 7%nat));
     rc_Certificates := extend zero_certificate fst (fun r => add_domain (snd (snd r)))
                          (by_position (fun r => fst (snd r)) (select pick_certificate_domain clusterID (at_ 9%nat)))
                          (collect c_route_key certificate_of (select pick_certificate clusterID (at_ 8%nat)));
     rc_Runtime := extend zero_runtime fst (fun r => add_error (snd (snd r)))
                     (by_position (fun r => fst (snd r)) (select pick_error clusterID (at_ 12%nat)))
                     (extend zero_runtime fst (fun r => add_entry (snd (snd r)))
                       (by_position (fun r => fst (snd r)) (select pick_entry clusterID (at_ 11%nat)))
                       (collect u_route_key runtime_of (select pick_runtime clusterID (at_ 10%nat)))) |}.

(** The statements numbered from 0; [fails] says which of them the server does
    not answer, with which error. *)
Definition first_failure (fails : nat -> option rerr) (statements : list nat) : option rerr :=
  hd_error (omap fails statements).

Definition loadCluster_at (fails : nat -> option rerr) (clusterID : string) (secrets : bool) (at_ : nat -> RoutingDB)
  : result uerr (option routingCluster) :=
  match first_failure fails [0%nat] with
  | Some e => Err (Storage e)
  | None =>
      match sql_first (fun r => ceq (cl_id r) clusterID) (routing_clusters (at_ 0%nat)) with
      | None => Ok None
      | Some row =>
          match first_failure fails [1; 2; 3; 4; 5; 6]%nat with
          | Some e => Err (Storage e)
          | None =>
              match (if secrets then open_secrets clusterID (by_position k_version (select pick_credential clusterID (at_ 6%nat))) ∅ else Ok ∅) with
              | Err e => Err e
              | Ok opened =>
                  match first_failure fails [7; 8; 9; 10; 11; 12]%nat with
                  | Some e => Err (Storage e)
                  | None => Ok (Some (load_rows_at clusterID opened row at_))
                  end
              end
          end
      end
  end.

(** Every statement is answered from one state, as in the transaction of
    [update]: it holds the lock of the cluster's row, which every change of the
    cluster takes first. *)
Definition load_rows (clusterID : string) (secrets : gmap string string) (row : ClusterRow) (db : RoutingDB) : routingCluster :=
  load_rows_at clusterID secrets row (fun _ => db).

Definition loadCluster (clusterID : string) (secrets : bool) (db : RoutingDB) : result uerr (option routingCluster) :=
  loadCluster_at (fun _ => None) clusterID secrets (fun _ => db).

End Rows.
