(* ===== verification/RoutingRoundTrip.v ===== *)
(** * What [writeCluster] writes, [loadCluster] reads back

    Lemmas about the scans ([collect], [extend], [by_position]) and the theorem
    that a written cluster is read back as it was: times as the server keeps
    them, and of the secrets those of the credential versions in use. *)

From Stdlib Require Import ZArith Lia Bool Ascii String Sorting.
From stdpp Require Import base tactics list strings gmap.
From S2P Require Import Prelude GoStrings Sqlstore Ledger GoText RoutingTypes RoutingDomain RoutingRows.

Local Open Scope string_scope.
Local Open Scope list_scope.
Local Open Scope bool_scope.
Local Open Scope Z_scope.
Local Open Scope tx_scope.

(** ** What is read back *)

Section Canon.
Context `{Clock6}.

Definition kept_time (t : Z) : Z := default zero_time (nullableTime t).

Definition kept_domain (d : DomainSpec) : DomainSpec := mkDomain (kept_time (dm_CreatedAt d)) (dm_Note d) (dm_Version d) (dm_Zone d).

Definition kept_credential (m : DNSCredentialMetadata) : DNSCredentialMetadata :=
  mkCredential (dc_AccountID m) (datetime6 (dc_CreatedAt m)) (dc_Email m) (dc_ID m) (dc_Name m) (dc_Provider m) (dc_SecretName m) (dc_State m)
    (option_map datetime6 (dc_ValidatedAt m)) (dc_Version m).

Definition kept_certificate (c : CertificateStatus) : CertificateStatus :=
  mkCertificate (ct_Domains c) (ct_FailureSummary c) (ct_Fingerprint c) (ct_HandshakeValid c) (ct_Issuer c) (pointerTime (ct_LastAttempt c))
    (pointerTime (ct_NotAfter c)) (pointerTime (ct_NotBefore c)) (ct_Resolver c) (ct_RouteKey c) (ct_State c) (ct_Version c).

Definition kept_runtime (r : RouteRuntime) : RouteRuntime :=
  mkRuntime (rr_Errors r) (rr_EntryPoints r) (datetime6 (rr_ObservedAt r)) (rr_Protocol r) (rr_RouteKey r) (rr_Router r) (rr_Service r)
    (rr_State r) (rr_Version r).

(** A secret is kept while a credential version that is not removed names it. *)
Definition in_use (c : routingCluster) (name : string) : Prop :=
  exists id versions m, rc_Credentials c !! id = Some versions /\ In m versions /\ dc_SecretName m = name /\ dc_State m <> "removed".

(** [c'] is [c] as it is read back, apart from the secrets. *)
Definition kept (c : routingCluster) (secrets : gmap string string) : routingCluster :=
  {| rc_Bindings := rc_Bindings c; rc_Certificates := kept_certificate <$> rc_Certificates c;
     rc_Credentials := map kept_credential <$> rc_Credentials c; rc_Cutover := option_map json_cutover (rc_Cutover c);
     rc_CutoverRollback := option_map json_rollback (rc_CutoverRollback c);
     rc_Declarations := rc_Declarations c; rc_DNSRecords := rc_DNSRecords c; rc_Domains := kept_domain <$> rc_Domains c;
     rc_Routes := rc_Routes c; rc_Runtime := kept_runtime <$> rc_Runtime c; rc_Secrets := secrets;
     rc_Settings := json_settings (rc_Settings c) |}.

End Canon.

(** Each entry is stored under its own key, and the versions of a credential
    are numbered from 1. *)
Record keyed (c : routingCluster) : Prop := {
  keyed_routes : forall k v, rc_Routes c !! k = Some v -> rt_Key v = k;
  keyed_bindings : forall k v, rc_Bindings c !! k = Some v -> dependencyBindingKey v = k;
  keyed_declarations : forall k v, rc_Declarations c !! k = Some v -> sd_ServiceKey v = k;
  keyed_domains : forall k v, rc_Domains c !! k = Some v -> dm_Zone v = k;
  keyed_records : forall k v, rc_DNSRecords c !! k = Some v -> dr_ID v = k;
  keyed_certificates : forall k v, rc_Certificates c !! k = Some v -> ct_RouteKey v = k;
  keyed_runtime : forall k v, rc_Runtime c !! k = Some v -> rr_RouteKey v = k;
  keyed_credentials : forall k l, rc_Credentials c !! k = Some l ->
    l <> [] /\ forall i m, l !! i = Some m -> dc_ID m = k /\ dc_Version m = Z.of_nat i + 1
}.

(** ** Sorting *)

Section Positions.
Context {R : Type} (position : R -> Z).

Definition pos_key (r : R) : Z * Z := (position r, 0).

Definition ordered (l : list R) : Prop := StronglySorted (fun a b => position a <= position b) l.

Lemma pos_key_le a b : lex_le (pos_key a) (pos_key b) = true <-> position a <= position b.
Proof. unfold lex_le, pos_key. simpl. rewrite orb_true_iff, andb_true_iff, Z.ltb_lt, Z.eqb_eq, Z.leb_le. lia. Qed.

Lemma insert_by_front x l : Forall (fun y => position x <= position y) l -> insert_by pos_key x l = x :: l.
Proof.
  intros Hl. destruct l as [|y l]; simpl; [done|]. apply Forall_cons_1 in Hl as [Hy _].
  apply pos_key_le in Hy. by rewrite Hy.
Qed.

Lemma by_position_ordered l : ordered l -> by_position position l = l.
Proof.
  unfold by_position. fold pos_key. induction l as [|x l IH]; intros Hl; [done|].
  apply StronglySorted_inv in Hl as [Hl Hx]. unfold order_by in *. simpl. rewrite (IH Hl). by apply insert_by_front.
Qed.

Lemma insert_by_filter p x l :
  StronglySorted (key_le pos_key) l ->
  List.filter p (insert_by pos_key x l) = if p x then insert_by pos_key x (List.filter p l) else List.filter p l.
Proof.
  induction l as [|y l IH]; intros Hl; simpl; [by destruct (p x)|].
  apply StronglySorted_inv in Hl as [Hl Hy]. destruct (lex_le _ _) eqn:E; simpl.
  - destruct (p x); [|done]. symmetry. destruct (p y) eqn:Py.
    + simpl. by rewrite E.
    + apply insert_by_front. apply List.Forall_forall. intros z Hz. apply List.filter_In in Hz as [Hz _].
      rewrite List.Forall_forall in Hy. apply pos_key_le. eapply lex_le_trans; [exact E|]. by apply Hy.
  - rewrite (IH Hl). destruct (p x), (p y); simpl; try done. by rewrite E.
Qed.

Lemma by_position_filter p l : List.filter p (by_position position l) = by_position position (List.filter p l).
Proof.
  unfold by_position. fold pos_key. induction l as [|x l IH]; [done|]. unfold order_by in *. simpl.
  rewrite insert_by_filter; [|apply (order_by_sorted pos_key l)]. rewrite IH. by destruct (p x).
Qed.

End Positions.

(** ** Scans *)

Lemma collect_lookup {R A} (key : R -> string) (value : R -> A) rows k :
  collect key value rows !! k = option_map value (List.find (fun r => (key r =? k)%string) (rev rows)).
Proof.
  unfold collect. induction rows as [|r l IH] using rev_ind; [apply lookup_empty|].
  rewrite foldl_app, rev_app_distr. simpl.
  destruct (String.eqb_spec (key r) k) as [<-|Hne]; [by rewrite lookup_insert_eq|]. by rewrite lookup_insert_ne.
Qed.

Lemma collect_ranged `{MapOrder} {A B R} (m : gmap string A) (row : A -> R) (key : R -> string) (value : R -> B) :
  (forall k v, m !! k = Some v -> key (row v) = k) ->
  collect key value (map (fun kv => row (snd kv)) (ranged m)) = (fun v => value (row v)) <$> m.
Proof.
  intros Hkey. apply map_eq. intros k. rewrite collect_lookup, lookup_fmap.
  destruct (List.find _ _) as [r|] eqn:F; simpl.
  - apply List.find_some in F as [Hin E]. apply String.eqb_eq in E.
    rewrite <- in_rev in Hin. apply in_map_iff in Hin as ([k' v] & <- & Hin). simpl in *.
    apply list_elem_of_In in Hin. rewrite ranged_perm in Hin. apply elem_of_map_to_list in Hin.
    rewrite (Hkey _ _ Hin) in E. subst k'. by rewrite Hin.
  - destruct (m !! k) as [v|] eqn:Hk; simpl; [|done]. exfalso.
    assert (Hin : In (row v) (rev (map (fun kv => row (snd kv)) (ranged m)))).
    { rewrite <- in_rev. apply in_map_iff. exists (k, v). split; [done|].
      apply list_elem_of_In. rewrite ranged_perm. by apply elem_of_map_to_list. }
    pose proof (List.find_none _ _ F _ Hin) as E. simpl in E. by rewrite (Hkey _ _ Hk), String.eqb_refl in E.
Qed.

Lemma extend_lookup {R A} (zero : A) (key : R -> string) (f : R -> A -> A) rows m k :
  extend zero key f rows m !! k =
  match List.filter (fun r => (key r =? k)%string) rows with
  | [] => m !! k
  | mine => Some (foldl (fun a r => f r a) (default zero (m !! k)) mine)
  end.
Proof.
  unfold extend. revert m. induction rows as [|r rows IH]; intros m; simpl; [done|]. rewrite IH. clear IH.
  destruct (String.eqb_spec (key r) k) as [<-|Hne].
  - rewrite !lookup_insert_eq. simpl. by destruct (List.filter _ rows).
  - by rewrite !lookup_insert_ne.
Qed.

(** The rows of parent [k] among the rows of all parents. *)
Lemma filter_flat_map_key {A R} (key : R -> string) (g : string * A -> list R) (l : list (string * A)) k :
  NoDup l.*1 ->
  (forall kv r, In kv l -> In r (g kv) -> key r = fst kv) ->
  List.filter (fun r => (key r =? k)%string) (flat_map g l) =
  match List.find (fun kv => (fst kv =? k)%string) l with Some kv => g kv | None => [] end.
Proof.
  induction l as [|kv l IH]; intros Hnd Hg; simpl; [done|].
  apply NoDup_cons in Hnd as [Hk Hnd]. rewrite List.filter_app, IH; [|done|intros; eapply Hg; [by right|done]].
  destruct (String.eqb_spec (fst kv) k) as [E|Hne].
  - assert (Hr : List.find (fun kv => (fst kv =? k)%string) l = None).
    { destruct (List.find _ l) as [kv'|] eqn:F; [|done]. apply List.find_some in F as [Hin E'].
      apply String.eqb_eq in E'. exfalso. apply Hk. rewrite E, <- E'. apply list_elem_of_fmap. exists kv'. by rewrite list_elem_of_In. }
    rewrite Hr, app_nil_r. apply forallb_filter_id, forallb_forall. intros r Hin. apply String.eqb_eq.
    rewrite (Hg kv r); [done|by left|done].
  - match goal with |- ?a ++ _ = _ => assert (Ha : a = []) end; [|by rewrite Ha].
    destruct (List.filter _ (g kv)) as [|r rest] eqn:F; [done|]. exfalso.
    assert (Hin : In r (r :: rest)) by by left. rewrite <- F in Hin. apply List.filter_In in Hin as [Hin E].
    apply String.eqb_eq in E. apply Hne. by rewrite <- (Hg kv r (or_introl eq_refl) Hin).
Qed.

Lemma find_ranged `{MapOrder} {A} (m : gmap string A) k :
  List.find (fun kv => (fst kv =? k)%string) (ranged m) = option_map (pair k) (m !! k).
Proof.
  destruct (List.find _ _) as [[k' v]|] eqn:F.
  - apply List.find_some in F as [Hin E]. apply String.eqb_eq in E. simpl in E. subst k'.
    apply list_elem_of_In in Hin. rewrite ranged_perm in Hin. apply elem_of_map_to_list in Hin. by rewrite Hin.
  - destruct (m !! k) as [v|] eqn:Hk; [|done]. exfalso.
    assert (Hin : In (k, v) (ranged m)). { apply list_elem_of_In. rewrite ranged_perm. by apply elem_of_map_to_list. }
    pose proof (List.find_none _ _ F _ Hin) as E. simpl in E. by rewrite String.eqb_refl in E.
Qed.

Lemma ranged_NoDup `{MapOrder} {A} (m : gmap string A) : NoDup (ranged m).*1.
Proof. rewrite (ranged_perm m). apply NoDup_fst_map_to_list. Qed.

Lemma ranged_In `{MapOrder} {A} (m : gmap string A) k v : In (k, v) (ranged m) <-> m !! k = Some v.
Proof. rewrite <- list_elem_of_In, ranged_perm. apply elem_of_map_to_list. Qed.

(** The rows of entry [k] of a map, among the rows of all its entries. *)
Lemma rows_of_entry `{MapOrder} {A R} (key : R -> string) (g : A -> list R) (m : gmap string A) k :
  (forall k' v r, m !! k' = Some v -> In r (g v) -> key r = k') ->
  List.filter (fun r => (key r =? k)%string) (flat_map (fun kv => g (snd kv)) (ranged m)) =
  match m !! k with Some v => g v | None => [] end.
Proof.
  intros Hg. rewrite filter_flat_map_key.
  - rewrite find_ranged. by destruct (m !! k).
  - apply ranged_NoDup.
  - intros [k' v] r Hin Hr. apply ranged_In in Hin. by eapply Hg.
Qed.

(** ** Rows picked from a list of rows *)

Definition indexed (l : list string) : list (Z * string) := imap (fun i v => (Z.of_nat i, v)) l.

Lemma positioned_indexed mk l : positioned mk l = map (fun p => mk (fst p) (snd p)) (indexed l).
Proof. unfold positioned, indexed. symmetry. exact (fmap_imap (fun i (v : string) => (Z.of_nat i, v)) (fun p : Z * string => mk (fst p) (snd p)) l). Qed.

Lemma indexed_values l : map snd (indexed l) = l.
Proof. unfold indexed. etransitivity; [exact (fmap_imap (fun i (v : string) => (Z.of_nat i, v)) snd l)|]. induction l as [|x l IH]; simpl; [done|]. f_equal. apply IH. Qed.

Lemma indexed_ordered l : ordered fst (indexed l).
Proof.
  unfold indexed, ordered. assert (Hg : forall n, StronglySorted (fun a b : Z * string => fst a <= fst b)
    (imap (fun i v => (Z.of_nat (n + i), v)) l)); [|apply (Hg 0%nat)].
  induction l as [|x l IH]; intros n; simpl; constructor.
  - specialize (IH (S n)). erewrite imap_ext; [exact IH|]. intros i y _. simpl. do 2 f_equal. lia.
  - apply List.Forall_forall. intros [z y] Hin. apply list_elem_of_In, elem_of_lookup_imap in Hin as (i & w & E & _).
    injection E as -> _. simpl. lia.
Qed.

Lemma ordered_map {R S} (position : S -> Z) (g : R -> S) (l : list R) :
  ordered (fun r => position (g r)) l -> ordered position (map g l).
Proof.
  unfold ordered. induction 1 as [|x l Hl IH Hx]; simpl; constructor; [done|].
  apply List.Forall_forall. intros y Hy. apply in_map_iff in Hy as (z & <- & Hz).
  rewrite List.Forall_forall in Hx. by apply Hx.
Qed.

Lemma pick_none {R} (pick : Row -> option R) l : (forall x, In x l -> pick x = None) -> omap pick l = [].
Proof. induction l as [|x l IH]; intros Hl; simpl; [done|]. rewrite (Hl x (or_introl eq_refl)). apply IH. intros y Hy. apply Hl. by right. Qed.

Lemma pick_map {A R} (pick : Row -> option R) (g : A -> Row) (h : A -> R) l :
  (forall x, pick (g x) = Some (h x)) -> omap pick (map g l) = map h l.
Proof. intros Hg. induction l as [|x l IH]; simpl; [done|]. rewrite Hg. by f_equal. Qed.

Lemma pick_flat {A R} (pick : Row -> option R) (g : A -> list Row) l :
  omap pick (flat_map g l) = flat_map (fun x => omap pick (g x)) l.
Proof. induction l as [|x l IH]; simpl; [done|]. rewrite omap_app. by f_equal. Qed.

Lemma flat_map_single {A B} (f : A -> B) l : flat_map (fun x => [f x]) l = map f l.
Proof. induction l as [|x l IH]; simpl; [done|]. by f_equal. Qed.

(** ** The rows of each table *)

Ltac no_pick :=
  apply pick_none; let x := fresh "x" in let Hin := fresh "Hin" in intros x Hin;
  repeat match goal with
  | H : In _ (map _ _) |- _ => apply in_map_iff in H as (? & <- & H)
  | H : In _ (flat_map _ _) |- _ => apply in_flat_map in H as (? & ? & H)
  | H : In _ (_ ++ _) |- _ => apply in_app_or in H as [H|H]
  | H : In _ (_ :: _) |- _ => destruct H as [<-|H]
  | H : In _ (route_rows _) |- _ => unfold route_rows in H
  | H : In _ (certificate_rows _) |- _ => unfold certificate_rows in H
  | H : In _ (runtime_rows _) |- _ => unfold runtime_rows in H
  | H : In _ (positioned _ _) |- _ => rewrite positioned_indexed in H
  end; reflexivity.

(** Removes the segments of [cluster_rows] that a pick does not select from. *)
Ltac other_tables :=
  unfold cluster_rows; rewrite !omap_app;
  repeat match goal with
  | |- context [omap ?p ?l] =>
      lazymatch l with _ ++ _ => fail | _ => idtac end;
      let E := fresh "E" in assert (E : omap p l = []) by no_pick; rewrite E; clear E
  end; rewrite ?app_nil_l, ?app_nil_r.

Section Tables.
Context `{Collation} `{MapOrder} `{Clock6}.

Definition columns_of (v : RouteSpec) : RouteRow :=
  mkRouteRow (rt_Key v) (rt_ServiceKey v) (rt_Protocol v) (rt_Scope v) (rt_TLS v) (nullablePort (rt_ListenPort v)) (rt_TargetPort v)
    (nullableText (rm_PathPrefix (rt_Match v))) (rh_Kind (rt_Health v)) (nullableText (rh_Path (rt_Health v)))
    (rh_TimeoutSeconds (rt_Health v)) (nullableText (rt_DNSReference v)) (nullableText (rt_Resolver v)) (rt_Enabled v) (rt_Managed v)
    (rt_Metrics v) (rt_AccessLogs v) (rt_PublicAllow v) (rt_Sensitive v) (rt_Version v).

Definition hosts_of (v : RouteSpec) : list (string * string * (Z * string)) :=
  map (pair (rt_Key v, "host")) (indexed (rm_Hosts (rt_Match v))) ++ map (pair (rt_Key v, "sni")) (indexed (rm_SNI (rt_Match v))).

Definition certificate_columns (v : CertificateStatus) : CertificateRow :=
  mkCertificateRow (ct_RouteKey v) (ct_State v) (nullableText (ct_Issuer v)) (nullableText (ct_Fingerprint v)) (ct_Resolver v)
    (ct_HandshakeValid v) (nullableText (ct_FailureSummary v)) (pointerTime (ct_LastAttempt v)) (pointerTime (ct_NotBefore v))
    (pointerTime (ct_NotAfter v)) (ct_Version v).

Definition runtime_columns (v : RouteRuntime) : RuntimeRow :=
  mkRuntimeRow (rr_RouteKey v) (rr_Protocol v) (rr_Router v) (rr_Service v) (rr_State v) (datetime6 (rr_ObservedAt v)) (rr_Version v).

Definition credential_columns (clusterID id : string) (secrets : gmap string string) (m : DNSCredentialMetadata) : CredentialRow :=
  mkCredentialRow id (dc_Version m) (dc_Name m) (dc_Provider m) (nullableText (dc_AccountID m)) (nullableText (dc_Email m))
    (dc_SecretName m) (dc_State m) (datetime6 (dc_CreatedAt m)) (option_map datetime6 (dc_ValidatedAt m))
    (let value := secret_of secrets (dc_SecretName m) in
     if negb (dc_State m =? "removed")%string && negb (value =? "")%string
     then Some (seal (dnsCredentialPurpose clusterID id (dc_Version m)) value) else None).

Ltac picked := rewrite ?pick_flat; first [rewrite <- flat_map_single; apply flat_map_ext | apply flat_map_ext]; intros [? ?]; simpl;
  repeat match goal with |- context [list_omap ?A ?B ?p ?l] => change (list_omap A B p l) with (omap p l) end;
  rewrite ?omap_app, ?positioned_indexed;
  repeat match goal with |- context [omap ?p (map ?g ?l)] =>
    first [ erewrite (pick_map p g) by (intros [? ?]; reflexivity)
          | let E := fresh "E" in assert (E : omap p (map g l) = []) by no_pick; rewrite E; clear E ] end.

Lemma rows_routes id c : omap pick_route (cluster_rows id c) = map (fun kv => columns_of (snd kv)) (ranged (rc_Routes c)).
Proof. other_tables. picked. done. Qed.

Lemma rows_hosts id c : omap pick_host (cluster_rows id c) = flat_map (fun kv => hosts_of (snd kv)) (ranged (rc_Routes c)).
Proof. other_tables. picked. unfold hosts_of. f_equal; apply map_ext; by intros [? ?]. Qed.

Lemma rows_bindings id c : omap pick_binding (cluster_rows id c) = map (fun kv => snd kv) (ranged (rc_Bindings c)).
Proof. other_tables. apply pick_map. by intros [k []]. Qed.

Lemma rows_declarations id c :
  omap pick_declaration (cluster_rows id c) = map (fun kv => snd kv) (ranged (rc_Declarations c)).
Proof. other_tables. apply pick_map. intros [k [r ? ? ?]]. simpl. repeat f_equal. unfold nullableText. by destruct (String.eqb_spec r ""). Qed.

Lemma text_nullable s : text (nullableText s) = s.
Proof. unfold nullableText. by destruct (String.eqb_spec s ""). Qed.

Lemma rows_domains id c : omap pick_domain (cluster_rows id c) = map (fun kv => kept_domain (snd kv)) (ranged (rc_Domains c)).
Proof. other_tables. apply pick_map. intros [k [t n v z]]. simpl. by rewrite text_nullable. Qed.

Lemma rows_dns id c : omap pick_dns (cluster_rows id c) = map (fun kv => snd kv) (ranged (rc_DNSRecords c)).
Proof. other_tables. apply pick_map. intros [k []]. simpl. unfold dns_of. simpl. by rewrite text_nullable. Qed.

Lemma rows_credentials id c :
  omap pick_credential (cluster_rows id c) =
  flat_map (fun kv => map (credential_columns id (fst kv) (rc_Secrets c)) (snd kv)) (ranged (rc_Credentials c)).
Proof. other_tables. rewrite pick_flat. apply flat_map_ext. intros [k l]. by apply pick_map. Qed.

Lemma rows_certificates id c :
  omap pick_certificate (cluster_rows id c) = map (fun kv => certificate_columns (snd kv)) (ranged (rc_Certificates c)).
Proof. other_tables. picked. done. Qed.

Lemma rows_certificate_domains id c :
  omap pick_certificate_domain (cluster_rows id c) =
  flat_map (fun kv => map (pair (ct_RouteKey (snd kv))) (indexed (ct_Domains (snd kv)))) (ranged (rc_Certificates c)).
Proof. other_tables. picked. apply map_ext. by intros [? ?]. Qed.

Lemma rows_runtime id c : omap pick_runtime (cluster_rows id c) = map (fun kv => runtime_columns (snd kv)) (ranged (rc_Runtime c)).
Proof. other_tables. picked. done. Qed.

Lemma rows_entries id c :
  omap pick_entry (cluster_rows id c) =
  flat_map (fun kv => map (pair (rr_RouteKey (snd kv))) (indexed (rr_EntryPoints (snd kv)))) (ranged (rc_Runtime c)).
Proof. other_tables. picked. rewrite app_nil_r. apply map_ext. by intros [? ?]. Qed.

Lemma rows_errors id c :
  omap pick_error (cluster_rows id c) =
  flat_map (fun kv => map (pair (rr_RouteKey (snd kv))) (indexed (rr_Errors (snd kv)))) (ranged (rc_Runtime c)).
Proof. other_tables. picked. apply map_ext. by intros [? ?]. Qed.

End Tables.

(** ** Inserting the rows *)

Section Insert.
Context `{Collation} `{MapOrder} `{Clock6}.

Lemma insert_row_ok id row db db' :
  insert_row id row db = (Ok tt, db') ->
  db' = with_rows (fun t => t ++ [(id, row)]) db /\ ranges row = true /\
  (forall r, In r (routing_rows db) -> of_cluster id r = true -> clash row (snd r) = false).
Proof.
  unfold insert_row. rewrite get_bind. rewrite !guard_bind. destruct (forallb valid_utf8 _); [|discriminate].
  destruct (varchar 64 id && widths row); [|discriminate]. destruct (ranges row); [|discriminate].
  destruct (row_checks row); [|discriminate]. destruct (negb (existsb _ _)) eqn:D; [|discriminate].
  destruct (negb (needs_parent row) || _); [|discriminate].
  intros [= <-]. split; [done|]. split; [done|]. intros r Hin Hc. apply negb_true_iff in D.
  destruct (clash row (snd r)) eqn:E; [|done]. exfalso. rewrite <- not_true_iff_false in D. apply D.
  apply existsb_exists. exists r. by rewrite Hc, E.
Qed.

(** No two rows of the list clash, and each is in range. *)
Fixpoint apart (before rows : list Row) : Prop :=
  match rows with
  | [] => True
  | row :: rest => ranges row = true /\ (forall r, In r before -> clash row r = false) /\ apart (before ++ [row]) rest
  end.

Lemma routing_inserts_ok id rows before db db' :
  insert_rows id rows db = (Ok tt, db') ->
  (forall r, In r before -> In (id, r) (routing_rows db)) ->
  db' = with_rows (fun t => t ++ map (pair id) rows) db /\ apart before rows.
Proof.
  revert before db. induction rows as [|row rest IH]; intros before db; simpl.
  - intros [= <-] _. split; [|done]. destruct db. unfold with_rows. simpl. by rewrite app_nil_r.
  - intros W Hb. tx_step W. destruct r. apply insert_row_ok in Hm as (-> & Hr & Hc).
    eapply (IH (before ++ [row])) in W as [-> Ha].
    + split; [unfold with_rows; simpl; by rewrite <- app_assoc|]. split; [done|]. split; [|done].
      intros r Hin. apply (Hc (id, r)); [by apply Hb|]. unfold of_cluster. simpl. apply ceq_refl.
    + intros r Hin. simpl. apply in_or_app. apply in_app_or in Hin as [Hin|[<-|[]]]; [left; by apply Hb|right; by left].
Qed.

Lemma apart_ranges before rows : apart before rows -> forall r, In r rows -> ranges r = true.
Proof.
  revert before. induction rows as [|row rest IH]; intros before; simpl; [done|].
  intros (Hr & _ & Ha) r [<-|Hin]; [done|]. by eapply IH.
Qed.

Lemma apart_clash before rows l1 a l2 b l3 :
  apart before rows -> rows = l1 ++ a :: l2 ++ b :: l3 -> clash b a = false.
Proof.
  revert before rows. induction l1 as [|x l1 IH]; intros before rows Ha ->; simpl in Ha.
  - destruct Ha as (_ & _ & Ha). revert Ha. assert (Hin : In a (before ++ [a])) by (apply in_or_app; right; by left).
    revert Hin. generalize (before ++ [a]). clear before. induction l2 as [|y l2 IH]; intros bef Hin; simpl.
    + intros (_ & Hc & _). by apply Hc.
    + intros (_ & _ & Ha). eapply IH; [|exact Ha]. apply in_or_app. by left.
  - destruct Ha as (_ & _ & Ha). by eapply IH.
Qed.

(** What a successful write leaves in the database. *)
Lemma writeCluster_ok id c db db' :
  writeCluster id c db = (Ok tt, db') ->
  routing_clusters db' = sql_update (fun r => ceq (cl_id r) id)
    (fun r => mkClusterRow (cl_id r) (json_settings (rc_Settings c)) (option_map json_cutover (rc_Cutover c))
                (option_map json_rollback (rc_CutoverRollback c))) (routing_clusters db) /\
  routing_rows db' = sql_delete (of_cluster id) (routing_rows db) ++ map (pair id) (cluster_rows id c) /\
  apart [] (cluster_rows id c).
Proof.
  unfold writeCluster. intros W. do 2 (tx_step W; tx_prims). eapply (routing_inserts_ok _ _ []) in W as [-> Ha]; done.
Qed.

Lemma select_written {R} (pick : Row -> option R) id id' c db db' :
  ceq id id' = true -> writeCluster id c db = (Ok tt, db') -> select pick id' db' = omap pick (cluster_rows id c).
Proof.
  intros Hid W. apply writeCluster_ok in W as (_ & Hrows & _). unfold select, sql_where. rewrite Hrows, List.filter_app.
  assert (Hsame : forall r, of_cluster id' r = of_cluster id r).
  { intros [i r]. unfold of_cluster. simpl. rewrite (ceq_sym_eq i id'), (ceq_sym_eq i id). symmetry. by apply ceq_congr_l. }
  rewrite (List.filter_ext _ _ Hsame), filter_delete_nil. simpl.
  rewrite forallb_filter_id.
  - clear Hrows. induction (cluster_rows id c) as [|row l IH]; [done|]. cbn. destruct (pick row); [f_equal|]; exact IH.
  - apply forallb_forall. intros r Hin. apply in_map_iff in Hin as (row & <- & _). unfold of_cluster. simpl. done.
Qed.

Lemma select_other {R} (pick : Row -> option R) id id' c db db' :
  ceq id id' = false -> writeCluster id c db = (Ok tt, db') -> select pick id' db' = select pick id' db.
Proof.
  intros Hid W. apply writeCluster_ok in W as (_ & Hrows & _). unfold select. f_equal.
  unfold sql_where. rewrite Hrows, List.filter_app.
  assert (Hnew : List.filter (of_cluster id') (map (pair id) (cluster_rows id c)) = []).
  { clear Hrows. induction (cluster_rows id c) as [|row l IH]; [done|]. simpl. unfold of_cluster at 1. simpl. by rewrite Hid. }
  rewrite Hnew, app_nil_r. clear Hrows Hnew. induction (routing_rows db) as [|r t IH]; [done|]. simpl.
  destruct (of_cluster id r) eqn:E; simpl; rewrite IH; [|done].
  assert (Hr : of_cluster id' r = false); [|by rewrite Hr].
  unfold of_cluster in *. destruct (ceq (fst r) id') eqn:E'; [|done]. rewrite <- Hid. symmetry. apply (ceq_trans _ (fst r)); [by apply ceq_sym|done].
Qed.

End Insert.

(** ** Reading each map back *)

Lemma extend_lookup_some {R A} (zero : A) (key : R -> string) (f : R -> A -> A) rows m k a :
  m !! k = Some a ->
  extend zero key f rows m !! k = Some (foldl (fun a r => f r a) a (List.filter (fun r => (key r =? k)%string) rows)).
Proof. intros Hk. rewrite extend_lookup, Hk. by destruct (List.filter _ rows). Qed.

Lemma extend_lookup_none {R A} (zero : A) (key : R -> string) (f : R -> A -> A) rows m k :
  List.filter (fun r => (key r =? k)%string) rows = [] -> extend zero key f rows m !! k = m !! k.
Proof. intros Hf. by rewrite extend_lookup, Hf. Qed.

(** A scan that appends to the entries of a map, for a map whose entry [v] has
    the rows [g v]. *)
Lemma extend_ranged `{MapOrder} {V A R} (zero : A) (key : R -> string) (position : R -> Z) (f : R -> A -> A) (g : V -> list R)
    (m : gmap string V) (base : V -> A) :
  (forall k v r, m !! k = Some v -> In r (g v) -> key r = k) ->
  extend zero key f (by_position position (flat_map (fun kv => g (snd kv)) (ranged m))) (base <$> m) =
  (fun v => foldl (fun a r => f r a) (base v) (by_position position (g v))) <$> m.
Proof.
  intros Hg. apply map_eq. intros k. rewrite lookup_fmap.
  assert (Hf : List.filter (fun r => (key r =? k)%string) (by_position position (flat_map (fun kv => g (snd kv)) (ranged m))) =
               by_position position (match m !! k with Some v => g v | None => [] end)).
  { by rewrite by_position_filter, rows_of_entry. }
  destruct (m !! k) as [v|] eqn:Hk; simpl.
  - erewrite extend_lookup_some; [by rewrite Hf|]. by rewrite lookup_fmap, Hk.
  - rewrite extend_lookup_none; [by rewrite lookup_fmap, Hk|]. by rewrite Hf.
Qed.

Definition with_hosts (r : RouteSpec) (hosts sni : list string) : RouteSpec :=
  mkRoute (rt_AccessLogs r) (rt_DNSReference r) (rt_Enabled r) (rt_Health r) (rt_Key r) (rt_ListenPort r) (rt_Managed r)
    (mkMatch hosts (rm_PathPrefix (rt_Match r)) sni) (rt_Metrics r) (rt_Protocol r) (rt_PublicAllow r) (rt_Resolver r) (rt_Scope r)
    (rt_Sensitive r) (rt_ServiceKey r) (rt_TLS r) (rt_TargetPort r) (rt_Version r).

Definition sni_row (r : string * string * (Z * string)) : bool := (snd (fst r) =? "sni")%string.

Lemma add_hosts rows r :
  foldl (fun a (x : string * string * (Z * string)) => add_host (snd (fst x)) (snd (snd x)) a) r rows =
  with_hosts r (rm_Hosts (rt_Match r) ++ map (fun x => snd (snd x)) (List.filter (fun x => negb (sni_row x)) rows))
               (rm_SNI (rt_Match r) ++ map (fun x => snd (snd x)) (List.filter sni_row rows)).
Proof.
  revert r. induction rows as [|x rows IH]; intros r; simpl.
  - destruct r as [? ? ? ? ? ? ? []]. unfold with_hosts. simpl. by rewrite !app_nil_r.
  - rewrite IH. unfold add_host, with_hosts, sni_row. simpl.
    destruct (snd (fst x) =? "sni")%string; simpl; by rewrite <- ?app_assoc.
Qed.

Lemma add_domains (rows : list (string * (Z * string))) c :
  foldl (fun a x => add_domain (snd (snd x)) a) c rows =
  mkCertificate (ct_Domains c ++ map (fun x => snd (snd x)) rows) (ct_FailureSummary c) (ct_Fingerprint c) (ct_HandshakeValid c) (ct_Issuer c)
    (ct_LastAttempt c) (ct_NotAfter c) (ct_NotBefore c) (ct_Resolver c) (ct_RouteKey c) (ct_State c) (ct_Version c).
Proof.
  revert c. induction rows as [|x rows IH]; intros c; simpl; [destruct c; simpl; by rewrite app_nil_r|].
  rewrite IH. unfold add_domain. simpl. by rewrite <- app_assoc.
Qed.

Lemma add_entries (rows : list (string * (Z * string))) r :
  foldl (fun a x => add_entry (snd (snd x)) a) r rows =
  mkRuntime (rr_Errors r) (rr_EntryPoints r ++ map (fun x => snd (snd x)) rows) (rr_ObservedAt r) (rr_Protocol r) (rr_RouteKey r) (rr_Router r)
    (rr_Service r) (rr_State r) (rr_Version r).
Proof.
  revert r. induction rows as [|x rows IH]; intros r; simpl; [destruct r; simpl; by rewrite app_nil_r|].
  rewrite IH. unfold add_entry. simpl. by rewrite <- app_assoc.
Qed.

Lemma add_errors (rows : list (string * (Z * string))) r :
  foldl (fun a x => add_error (snd (snd x)) a) r rows =
  mkRuntime (rr_Errors r ++ map (fun x => snd (snd x)) rows) (rr_EntryPoints r) (rr_ObservedAt r) (rr_Protocol r) (rr_RouteKey r) (rr_Router r)
    (rr_Service r) (rr_State r) (rr_Version r).
Proof.
  revert r. induction rows as [|x rows IH]; intros r; simpl; [destruct r; simpl; by rewrite app_nil_r|].
  rewrite IH. unfold add_error. simpl. by rewrite <- app_assoc.
Qed.

Lemma by_position_indexed {K} (k : K) l :
  by_position (fun r : K * (Z * string) => fst (snd r)) (map (pair k) (indexed l)) = map (pair k) (indexed l).
Proof. apply by_position_ordered, ordered_map. apply indexed_ordered. Qed.

Lemma values_indexed {K} (k : K) l : map (fun r : K * (Z * string) => snd (snd r)) (map (pair k) (indexed l)) = l.
Proof. rewrite map_map. simpl. apply indexed_values. Qed.

Section ReadBack.
Context `{Collation} `{MapOrder} `{Clock6}.
Variables (id id' : string) (c : routingCluster) (db db' : RoutingDB).
Hypothesis same_id : ceq id id' = true.
Hypothesis written : writeCluster id c db = (Ok tt, db').
Hypothesis c_keyed : keyed c.

Lemma row_in_range row : In row (cluster_rows id c) -> ranges row = true.
Proof. apply (writeCluster_ok id c db db') in written as (_ & _ & Ha). by eapply apart_ranges. Qed.

Lemma port_reads_back k v :
  rc_Routes c !! k = Some v -> default 0 (nullablePort (rt_ListenPort v)) mod 65536 = rt_ListenPort v.
Proof.
  intros Hk. assert (Hr : ranges (route_row v) = true).
  { apply row_in_range. unfold cluster_rows. apply in_or_app. left. apply in_flat_map. exists (k, v).
    split; [by apply ranged_In|by left]. }
  unfold ranges, route_row in Hr. cbn [r_listen_port] in Hr. rewrite !andb_true_iff in Hr. destruct Hr as [[[Hp _] _] _].
  revert Hp. unfold nullablePort, option_Z, smallint, between. destruct (Z.eqb_spec (rt_ListenPort v) 0) as [->|]; [done|].
  simpl. intros Hp. apply Z.mod_small. lia.
Qed.

Lemma route_reads_back k v :
  rc_Routes c !! k = Some v -> with_hosts (route_of (columns_of v)) (rm_Hosts (rt_Match v)) (rm_SNI (rt_Match v)) = v.
Proof.
  intros Hk. unfold with_hosts, route_of, columns_of. simpl. rewrite (port_reads_back k v Hk), !text_nullable.
  by destruct v as [? ? ? [] ? ? ? []].
Qed.

Lemma routes_read_back s row : rc_Routes (load_rows id' s row db') = rc_Routes c.
Proof.
  simpl. rewrite !(select_written _ id id' c db db' same_id written), rows_hosts, rows_routes.
  rewrite (collect_ranged (rc_Routes c) columns_of r_route_key route_of); [|intros k v Hk; by apply (keyed_routes c c_keyed)].
  rewrite (extend_ranged zero_route (fun r => fst (fst r)) (fun r => fst (snd r)) (fun r => add_host (snd (fst r)) (snd (snd r)))
             hosts_of (rc_Routes c) (fun v => route_of (columns_of v))).
  - apply map_eq. intros k. rewrite lookup_fmap. destruct (rc_Routes c !! k) as [v|] eqn:Hk; simpl; [|done]. f_equal.
    rewrite add_hosts, !by_position_filter. unfold hosts_of. rewrite !List.filter_app.
    assert (Hall : forall (kind : string) l (p : _ -> bool), (forall x, p (rt_Key v, kind, x) = true) ->
      List.filter p (map (pair (rt_Key v, kind)) (indexed l)) = map (pair (rt_Key v, kind)) (indexed l)).
    { intros kind l p Hp. apply forallb_filter_id, forallb_forall. intros x Hin. by apply in_map_iff in Hin as (y & <- & _). }
    assert (Hnone : forall (kind : string) l (p : _ -> bool), (forall x, p (rt_Key v, kind, x) = false) ->
      List.filter p (map (pair (rt_Key v, kind)) (indexed l)) = []).
    { intros kind l p Hp. induction (indexed l) as [|x xs IH]; simpl; [done|]. by rewrite Hp. }
    rewrite (Hall "host"), (Hnone "sni"), (Hnone "host"), (Hall "sni"); try done.
    rewrite app_nil_r. simpl. rewrite !by_position_indexed, !values_indexed. by eapply route_reads_back.
  - intros k v r Hk Hin. rewrite <- (keyed_routes c c_keyed k v Hk). unfold hosts_of in Hin.
    apply in_app_or in Hin as [Hin|Hin]; by apply in_map_iff in Hin as (y & <- & _).
Qed.

Lemma bindings_read_back s row : rc_Bindings (load_rows id' s row db') = rc_Bindings c.
Proof.
  simpl. rewrite (select_written _ id id' c db db' same_id written), rows_bindings.
  rewrite (collect_ranged (rc_Bindings c) (fun v => v) dependencyBindingKey); [apply map_fmap_id|apply (keyed_bindings c c_keyed)].
Qed.

Lemma declarations_read_back s row : rc_Declarations (load_rows id' s row db') = rc_Declarations c.
Proof.
  simpl. rewrite (select_written _ id id' c db db' same_id written), rows_declarations.
  rewrite (collect_ranged (rc_Declarations c) (fun v => v) sd_ServiceKey); [apply map_fmap_id|apply (keyed_declarations c c_keyed)].
Qed.

Lemma records_read_back s row : rc_DNSRecords (load_rows id' s row db') = rc_DNSRecords c.
Proof.
  simpl. rewrite (select_written _ id id' c db db' same_id written), rows_dns.
  rewrite (collect_ranged (rc_DNSRecords c) (fun v => v) dr_ID); [apply map_fmap_id|apply (keyed_records c c_keyed)].
Qed.

Lemma domains_read_back s row : rc_Domains (load_rows id' s row db') = kept_domain <$> rc_Domains c.
Proof.
  simpl. rewrite (select_written _ id id' c db db' same_id written), rows_domains.
  rewrite (collect_ranged (rc_Domains c) kept_domain dm_Zone); [done|apply (keyed_domains c c_keyed)].
Qed.

Lemma certificates_read_back s row : rc_Certificates (load_rows id' s row db') = kept_certificate <$> rc_Certificates c.
Proof.
  simpl. rewrite !(select_written _ id id' c db db' same_id written), rows_certificates, rows_certificate_domains.
  rewrite (collect_ranged (rc_Certificates c) certificate_columns c_route_key); [|apply (keyed_certificates c c_keyed)].
  rewrite (extend_ranged zero_certificate fst (fun r => fst (snd r)) (fun r => add_domain (snd (snd r)))
             (fun v => map (pair (ct_RouteKey v)) (indexed (ct_Domains v)))).
  - apply map_fmap_ext. intros k v Hk. rewrite by_position_indexed, add_domains, values_indexed.
    unfold kept_certificate, certificate_of, certificate_columns. simpl. by rewrite !text_nullable.
  - intros k v r Hk Hin. apply in_map_iff in Hin as (y & <- & _). by apply (keyed_certificates c c_keyed).
Qed.

Lemma runtime_read_back s row : rc_Runtime (load_rows id' s row db') = kept_runtime <$> rc_Runtime c.
Proof.
  simpl. rewrite !(select_written _ id id' c db db' same_id written), rows_runtime, rows_entries, rows_errors.
  rewrite (collect_ranged (rc_Runtime c) runtime_columns u_route_key); [|apply (keyed_runtime c c_keyed)].
  assert (Hkey : forall (g : RouteRuntime -> list string) k v r, rc_Runtime c !! k = Some v ->
    In r (map (pair (rr_RouteKey v)) (indexed (g v))) -> fst r = k).
  { intros g k v r Hk Hin. apply in_map_iff in Hin as (y & <- & _). by apply (keyed_runtime c c_keyed). }
  rewrite (extend_ranged zero_runtime fst (fun r => fst (snd r)) (fun r => add_entry (snd (snd r)))
             (fun v => map (pair (rr_RouteKey v)) (indexed (rr_EntryPoints v)))); [|apply (Hkey rr_EntryPoints)].
  rewrite (extend_ranged zero_runtime fst (fun r => fst (snd r)) (fun r => add_error (snd (snd r)))
             (fun v => map (pair (rr_RouteKey v)) (indexed (rr_Errors v)))); [|apply (Hkey rr_Errors)].
  apply map_fmap_ext. intros k v Hk. rewrite !by_position_indexed, add_entries, add_errors, !values_indexed. by destruct v.
Qed.

(** *** Credentials *)

Lemma credentials_rows_of k :
  List.filter (fun r => (k_credential_id r =? k)%string) (by_position k_version (select pick_credential id' db')) =
  match rc_Credentials c !! k with Some l => map (credential_columns id k (rc_Secrets c)) l | None => [] end.
Proof.
  rewrite by_position_filter, (select_written _ id id' c db db' same_id written), rows_credentials.
  rewrite filter_flat_map_key; [|apply ranged_NoDup|].
  - rewrite find_ranged. destruct (rc_Credentials c !! k) as [l|] eqn:Hk; [|done]. apply by_position_ordered, ordered_map.
    destruct (keyed_credentials c c_keyed k l Hk) as [_ Hl]. simpl.
    assert (Hn : forall (n : Z) l, (forall i m, l !! i = Some m -> dc_Version m = Z.of_nat i + n) -> ordered dc_Version l);
      [|apply (Hn 1); intros i m Hi; by apply (Hl i m)].
    clear. intros n l. revert n. induction l as [|x l IH]; intros n Hl; constructor.
    + apply (IH (n + 1)). intros i m Hi. rewrite (Hl (S i) m Hi). lia.
    + apply List.Forall_forall. intros y Hy. apply list_elem_of_In, list_elem_of_lookup in Hy as [i Hi].
      rewrite (Hl 0%nat x eq_refl), (Hl (S i) y Hi). lia.
  - intros [k' l] r _ Hin. simpl in Hin. by apply in_map_iff in Hin as (m & <- & _).
Qed.

Lemma credentials_read_back s row : rc_Credentials (load_rows id' s row db') = map kept_credential <$> rc_Credentials c.
Proof.
  apply map_eq. intros k. rewrite lookup_fmap. simpl. rewrite extend_lookup, credentials_rows_of.
  destruct (rc_Credentials c !! k) as [l|] eqn:Hk; [|done]. destruct (keyed_credentials c c_keyed k l Hk) as [Hne Hl].
  simpl. rewrite lookup_empty. simpl.
  assert (Hfold : forall acc, foldl (fun a r => a ++ [credential_of r]) acc (map (credential_columns id k (rc_Secrets c)) l) =
                              acc ++ map kept_credential l).
  { clear Hk Hne. assert (Hid : forall m, In m l -> dc_ID m = k).
    { intros m Hm. apply list_elem_of_In, list_elem_of_lookup in Hm as [i Hi]. by apply (Hl i m). }
    clear Hl. induction l as [|m l IH]; intros acc; simpl; [by rewrite app_nil_r|].
    rewrite IH; [|intros; apply Hid; by right]. rewrite <- app_assoc. simpl. repeat f_equal.
    unfold credential_of, kept_credential. simpl. by rewrite !text_nullable, (Hid m (or_introl eq_refl)). }
  destruct l as [|m l]; [done|]. simpl in *. f_equal. apply (Hfold []).
Qed.

End ReadBack.

(** *** Secrets *)

Section Secrets.
Context `{Collation} `{MapOrder} `{Clock6}.

(** The rows in use open, each to the value stored under its name. *)
Lemma open_secrets_ok id (value : string -> string) rows m0 :
  (forall r, In r rows -> k_secret_sealed r = None \/
     k_secret_sealed r = Some (seal (dnsCredentialPurpose id (k_credential_id r) (k_version r)) (value (k_secret_name r)))) ->
  exists m, open_secrets id rows m0 = Ok m /\
    forall n v, m !! n = Some v <->
      (exists r, In r rows /\ k_secret_sealed r <> None /\ k_secret_name r = n /\ v = value n) \/
      (m0 !! n = Some v /\ forall r, In r rows -> k_secret_sealed r <> None -> k_secret_name r <> n).
Proof.
  revert m0. induction rows as [|r rows IH]; intros m0 Hr.
  - exists m0. split; [done|]. intros n v. split; [intros Hv; right; by split|]. by intros [(r & [] & _)|[Hv _]].
  - assert (Hrest : forall x, In x rows -> k_secret_sealed x = None \/
      k_secret_sealed x = Some (seal (dnsCredentialPurpose id (k_credential_id x) (k_version x)) (value (k_secret_name x)))).
    { intros x Hx. apply Hr. by right. }
    destruct (Hr r (or_introl eq_refl)) as [Hs|Hs]; simpl; rewrite Hs.
    + destruct (IH m0 Hrest) as (m & Hm & Hv). exists m. split; [done|]. intros n v. rewrite Hv.
      split; (intros [(x & Hin & Hx)|[Hm0 Hn]]; [left|right]).
      * exists x. split; [by right|done].
      * split; [done|]. intros x [<-|Hin] Hx; [done|]. by apply Hn.
      * destruct Hin as [<-|Hin]; [by destruct Hx|]. by exists x.
      * split; [done|]. intros x Hin Hx. apply Hn; [by right|done].
    + unfold open_sealed. simpl. rewrite String.eqb_refl.
      destruct (IH (<[k_secret_name r := value (k_secret_name r)]> m0) Hrest) as (m & Hm & Hv). exists m. split; [done|].
      intros n v. rewrite Hv. split.
      * intros [(x & Hin & Hx)|[Hm0 Hn]]; [left; exists x; split; [by right|done]|].
        destruct (decide (k_secret_name r = n)) as [E|E].
        -- left. exists r. rewrite E, lookup_insert_eq in Hm0. injection Hm0 as <-. rewrite Hs. repeat split; try done. by left.
        -- rewrite lookup_insert_ne in Hm0 by done. right. split; [done|]. intros x [<-|Hin] Hx; [done|]. by apply Hn.
      * intros [(x & [<-|Hin] & Hx & Hnm & ->)|[Hm0 Hn]].
        -- destruct (List.existsb (fun x => match k_secret_sealed x with Some _ => (k_secret_name x =? n)%string | None => false end) rows) eqn:E.
           ++ apply existsb_exists in E as (x & Hin & Hx'). left. exists x. destruct (k_secret_sealed x); [|done].
              apply String.eqb_eq in Hx'. done.
           ++ right. rewrite Hnm, lookup_insert_eq. split; [done|]. intros x Hin Hx' Hx''. subst n.
              rewrite <- not_true_iff_false in E. apply E, existsb_exists. exists x. destruct (k_secret_sealed x); [|done].
              by rewrite Hx'', String.eqb_refl.
        -- left. by exists x.
        -- right. rewrite lookup_insert_ne; [|apply Hn; [by left|by rewrite Hs]]. split; [done|].
           intros x Hin. apply Hn. by right.
Qed.

Lemma secrets_read_back id c db db' :
  writeCluster id c db = (Ok tt, db') ->
  exists secrets, open_secrets id (by_position k_version (select pick_credential id db')) ∅ = Ok secrets /\
    forall n v, secrets !! n = Some v <-> in_use c n /\ rc_Secrets c !! n = Some v /\ v <> "".
Proof.
  intros W. rewrite (select_written _ id id c db db' (ceq_refl id) W), rows_credentials.
  set (rows := by_position _ _).
  assert (Hrows : forall r, In r rows <-> exists k l m, rc_Credentials c !! k = Some l /\ In m l /\ r = credential_columns id k (rc_Secrets c) m).
  { intros r. unfold rows, by_position. rewrite order_by_In, in_flat_map. split.
    - intros ([k l] & Hin & Hr). apply ranged_In in Hin. simpl in Hr. apply in_map_iff in Hr as (m & <- & Hm). by exists k, l, m.
    - intros (k & l & m & Hk & Hm & ->). exists (k, l). split; [by apply ranged_In|]. apply in_map_iff. by exists m. }
  destruct (open_secrets_ok id (secret_of (rc_Secrets c)) rows ∅) as (secrets & Ho & Hv).
  { intros r Hin. apply Hrows in Hin as (k & l & m & _ & _ & ->). simpl. case_match; [by right|by left]. }
  exists secrets. split; [done|]. intros n v. rewrite Hv. split.
  - intros [(r & Hin & Hs & Hn & ->)|[Hm0 _]]; [|by rewrite lookup_empty in Hm0].
    apply Hrows in Hin as (k & l & m & Hk & Hm & ->). simpl in *. subst n.
    destruct (negb (dc_State m =? "removed")%string && _) eqn:E; [|done]. apply andb_true_iff in E as [E1 E2].
    apply negb_true_iff, String.eqb_neq in E1, E2. split; [by exists k, l, m|]. unfold secret_of in *.
    destruct (rc_Secrets c !! dc_SecretName m); done.
  - intros ((k & l & m & Hk & Hm & Hn & Hst) & Hsec & Hne). left. exists (credential_columns id k (rc_Secrets c) m).
    split; [apply Hrows; by exists k, l, m|]. simpl. subst n. unfold secret_of. rewrite Hsec. simpl.
    apply String.eqb_neq in Hst, Hne. by rewrite Hst, Hne.
Qed.

Lemma sql_first_updated {A} (p : A -> bool) (f : A -> A) t :
  (forall r, p (f r) = p r) -> sql_first p (sql_update p f t) = option_map f (sql_first p t).
Proof.
  intros Hf. unfold sql_first, sql_update. induction t as [|r t IH]; simpl; [done|].
  destruct (p r) eqn:E; simpl; [by rewrite Hf, E|by rewrite E].
Qed.

Lemma sql_first_update_other {A} (p q : A -> bool) (f : A -> A) t :
  (forall r, q (f r) = q r) -> (forall r, q r = true -> p r = false) -> sql_first q (sql_update p f t) = sql_first q t.
Proof.
  intros Hf Hpq. unfold sql_first, sql_update. induction t as [|r t IH]; simpl; [done|].
  destruct (q r) eqn:E; [by rewrite (Hpq r E), E|]. destruct (p r); by rewrite ?Hf, E.
Qed.

(** [loadCluster] when every statement is answered from one state. *)
Lemma loadCluster_one id b db :
  loadCluster id b db =
  match sql_first (fun r => ceq (cl_id r) id) (routing_clusters db) with
  | None => Ok None
  | Some row =>
      match (if b then open_secrets id (by_position k_version (select pick_credential id db)) ∅ else Ok ∅) with
      | Err e => Err e
      | Ok opened => Ok (Some (load_rows id opened row db))
      end
  end.
Proof. unfold loadCluster, loadCluster_at, first_failure, load_rows. simpl. by destruct (sql_first _ _). Qed.

Lemma load_other id id' c db db' b :
  writeCluster id c db = (Ok tt, db') -> ceq id id' = false -> loadCluster id' b db' = loadCluster id' b db.
Proof.
  intros W Hid. pose proof (writeCluster_ok id c db db' W) as (Hcl & _). rewrite !loadCluster_one, Hcl.
  rewrite sql_first_update_other; [|done|].
  - unfold load_rows, load_rows_at. by rewrite !(select_other _ id id' c db db' Hid W).
  - intros r Hr. destruct (ceq (cl_id r) id) eqn:E; [|done]. rewrite <- Hid. symmetry.
    apply (ceq_trans _ (cl_id r)); [by apply ceq_sym|done].
Qed.

(** The rows of a written cluster, under any spelling of its identifier. *)
Lemma load_rows_written id id' c db db' s row :
  ceq id id' = true -> writeCluster id c db = (Ok tt, db') -> keyed c ->
  cl_settings row = json_settings (rc_Settings c) -> cl_cutover row = option_map json_cutover (rc_Cutover c) ->
  cl_rollback row = option_map json_rollback (rc_CutoverRollback c) ->
  load_rows id' s row db' = kept c s.
Proof.
  intros Hid W Hk Hs Hc Hr.
  pose proof (routes_read_back id id' c db db' Hid W Hk s row) as E1. pose proof (bindings_read_back id id' c db db' Hid W Hk s row) as E2.
  pose proof (declarations_read_back id id' c db db' Hid W Hk s row) as E3. pose proof (records_read_back id id' c db db' Hid W Hk s row) as E4.
  pose proof (domains_read_back id id' c db db' Hid W Hk s row) as E5. pose proof (certificates_read_back id id' c db db' Hid W Hk s row) as E6.
  pose proof (runtime_read_back id id' c db db' Hid W Hk s row) as E7. pose proof (credentials_read_back id id' c db db' Hid W Hk s row) as E8.
  unfold kept. rewrite <- E1, <- E2, <- E3, <- E4, <- E5, <- E6, <- E7, <- E8. unfold load_rows, load_rows_at. simpl. by rewrite Hs, Hc, Hr.
Qed.

Lemma load_written id c db db' :
  writeCluster id c db = (Ok tt, db') -> keyed c -> sql_exists (fun r => ceq (cl_id r) id) (routing_clusters db) = true ->
  exists secrets, loadCluster id true db' = Ok (Some (kept c secrets)) /\
    forall n v, secrets !! n = Some v <-> in_use c n /\ rc_Secrets c !! n = Some v /\ v <> "".
Proof.
  intros W Hk Hrow. destruct (secrets_read_back id c db db' W) as (secrets & Ho & Hs). exists secrets. split; [|done].
  pose proof (writeCluster_ok id c db db' W) as (Hcl & _). rewrite loadCluster_one, Hcl, sql_first_updated; [|done].
  destruct (sql_first _ (routing_clusters db)) as [row|] eqn:F; simpl.
  - rewrite Ho. by rewrite (load_rows_written id id c db db' secrets _ (ceq_refl id) W Hk).
  - apply sql_exists_true in Hrow as (r & Hin & Hr). by rewrite (sql_first_None _ _ _ F Hin) in Hr.
Qed.

(** The names of the secrets of a written cluster are distinct. *)
Lemma apart_unique before rows a b :
  apart before rows -> In a rows -> In b rows -> clash a b = true -> clash b a = true -> a = b.
Proof.
  intros Ha Hin1 Hin2 C1 C2. apply in_split in Hin1 as (l1 & l2 & ->). apply in_app_or in Hin2 as [Hin|[->|Hin]]; [|done|].
  - apply in_split in Hin as (m1 & m2 & ->). assert (E : clash a b = false); [|congruence].
    eapply (apart_clash before _ m1 b m2 a l2); [exact Ha|]. by rewrite <- !app_assoc.
  - apply in_split in Hin as (m1 & m2 & ->). assert (E : clash b a = false); [|congruence].
    by eapply (apart_clash before _ l1 a m1 b m2).
Qed.

Lemma secret_names_distinct id c db db' k1 l1 m1 k2 l2 m2 :
  writeCluster id c db = (Ok tt, db') ->
  rc_Credentials c !! k1 = Some l1 -> In m1 l1 -> rc_Credentials c !! k2 = Some l2 -> In m2 l2 ->
  dc_SecretName m1 = dc_SecretName m2 -> k1 = k2 /\ dc_Version m1 = dc_Version m2.
Proof.
  intros W L1 I1 L2 I2 E. apply writeCluster_ok in W as (_ & _ & Ha).
  assert (Hin : forall k l m, rc_Credentials c !! k = Some l -> In m l -> In (credential_row id k (rc_Secrets c) m) (cluster_rows id c)).
  { intros k l m L I. unfold cluster_rows. do 4 (apply in_or_app; right). apply in_or_app; left. apply in_flat_map.
    exists (k, l). split; [by apply ranged_In|]. by apply in_map. }
  assert (Hc : forall k k' m m', dc_SecretName m = dc_SecretName m' ->
    clash (credential_row id k (rc_Secrets c) m) (credential_row id k' (rc_Secrets c) m') = true).
  { intros k k' m m' En. simpl. rewrite En, ceq_refl. apply orb_true_r. }
  assert (Heq : credential_row id k1 (rc_Secrets c) m1 = credential_row id k2 (rc_Secrets c) m2).
  { eapply apart_unique; [exact Ha|by eapply Hin|by eapply Hin|by apply Hc|by apply Hc]. }
  unfold credential_row in Heq. by injection Heq as -> ->.
Qed.

(** ** Texts *)

(** Every text in the rows is UTF-8: the columns take nothing else. *)
Definition utf8_rows (db : RoutingDB) : Prop := Forall (fun r => forallb valid_utf8 (texts (snd r)) = true) (routing_rows db).

Lemma insert_row_utf8 id row db db' : utf8_rows db -> insert_row id row db = (Ok tt, db') -> utf8_rows db'.
Proof.
  intros Hu W. pose proof W as Wok. apply insert_row_ok in Wok as (-> & _). unfold insert_row in W. rewrite get_bind, guard_bind in W.
  destruct (forallb valid_utf8 _) eqn:V; [|discriminate]. cbn [forallb] in V. apply andb_true_iff in V as [_ V].
  unfold utf8_rows in *. simpl. apply Forall_app. split; [done|]. by apply Forall_singleton.
Qed.

Lemma stored_texts_are_utf8 id c db db' : utf8_rows db -> writeCluster id c db = (Ok tt, db') -> utf8_rows db'.
Proof.
  intros Hu W. unfold writeCluster in W. do 2 (tx_step W; tx_prims). revert W. set (db1 := with_rows _ _). intros W.
  assert (utf8_rows db1) as Hu1.
  { unfold utf8_rows, db1, sql_delete in *. simpl. apply Forall_forall. intros r Hr. rewrite Forall_forall in Hu. apply Hu.
    apply list_elem_of_In, List.filter_In in Hr as [Hr _]. by apply list_elem_of_In. }
  clearbody db1. clear Hu. revert db1 Hu1 W. induction (cluster_rows id c) as [|row rest IH]; intros db1 Hu1; simpl; [by intros [= <-]|].
  intros W. tx_step W. destruct r. eapply IH; [|exact W]. by eapply insert_row_utf8.
Qed.

(** ** Settings and plans *)

Definition settings_texts (s : TraefikSettings) : list string :=
  [ts_ACMEEmail s; ts_DashboardHost s; ts_OperationalLog s] ++ flat_map (fun e => [ep_Name e; ep_Protocol e]) (ts_EntryPoints s) ++
  flat_map (fun p => [ap_Challenge p; ap_DNSCredentialID p; ap_Name p; ap_Provider p]) (ts_Resolvers s).

Definition cutover_texts (p : CutoverPlan) : list string :=
  cp_Blockers p ++ cp_Phases p ++
  flat_map (fun s => cs_Bindings s ++ cs_Blockers s ++ cs_LegacyNetworks s ++ cs_Role s :: cs_Routes s ++ [cs_ServiceKey s]) (cp_Services p).

Definition rollback_texts (p : CutoverRollbackPlan) : list string :=
  flat_map (fun s => map pp_Protocol (sr_PublishedPorts s) ++ sr_ServiceKey s :: sr_Networks s) (cr_Services p).

(** Every text of the settings and plans is UTF-8. *)
Definition plain_documents (c : routingCluster) : bool :=
  forallb valid_utf8 (settings_texts (rc_Settings c) ++ match rc_Cutover c with Some p => cutover_texts p | None => [] end ++
                      match rc_CutoverRollback c with Some p => rollback_texts p | None => [] end).

Lemma json_text_id s : valid_utf8 s = true -> json_text s = s.
Proof. by intros ->%String.eqb_eq. Qed.

Lemma json_texts_id l : forallb valid_utf8 l = true -> map json_text l = l.
Proof. rewrite forallb_forall. intros Hv. rewrite <- (map_id l) at 2. apply map_ext_in. intros s Hs. by apply json_text_id, Hv. Qed.

Lemma json_map_id {A} (f : A -> A) (texts_of : A -> list string) l :
  (forall x, forallb valid_utf8 (texts_of x) = true -> f x = x) -> forallb valid_utf8 (flat_map texts_of l) = true -> map f l = l.
Proof.
  intros Hf. induction l as [|x l IH]; simpl; [done|]. rewrite forallb_app, andb_true_iff. intros [Hx Hl]. by rewrite Hf, IH.
Qed.

Ltac json_ids := repeat match goal with
  | H : context [forallb valid_utf8 (_ ++ _)] |- _ => rewrite forallb_app in H
  | H : context [forallb valid_utf8 (_ :: _)] |- _ => cbn [forallb] in H
  | H : _ && _ = true |- _ => apply andb_true_iff in H as [? ?]
  end; f_equal; try (by apply json_text_id); try (by apply json_texts_id).

Lemma json_settings_id s : forallb valid_utf8 (settings_texts s) = true -> json_settings s = s.
Proof.
  destruct s as [a b d entries m o p1 p2 resolvers v]. unfold settings_texts, json_settings. cbn. intros Ht. json_ids.
  - eapply json_map_id; [|eassumption]. intros [n p q u] Hx. unfold json_entry. cbn in *. json_ids.
  - eapply json_map_id; [|eassumption]. intros [n p q u] Hx. unfold json_policy. cbn in *. json_ids.
Qed.

Lemma json_cutover_id p : forallb valid_utf8 (cutover_texts p) = true -> json_cutover p = p.
Proof.
  destruct p as [a g ph r services v]. unfold cutover_texts, json_cutover. cbn [cp_Blockers cp_Phases cp_Services cp_GeneratedAt cp_Ready cp_Version].
  intros Ht. json_ids. eapply json_map_id; [|eassumption]. intros [b1 b2 d h l ro ru k] Hx. unfold json_service.
  cbn [cs_Bindings cs_Blockers cs_DirectPorts cs_Healthy cs_LegacyNetworks cs_Role cs_Routes cs_ServiceKey] in *. json_ids.
Qed.

Lemma json_rollback_id p : forallb valid_utf8 (rollback_texts p) = true -> json_rollback p = p.
Proof.
  destruct p as [g services v]. unfold rollback_texts, json_rollback. cbn [cr_Services cr_GeneratedAt cr_Version].
  intros Ht. f_equal. eapply json_map_id; [|eassumption]. intros [ports k ns] Hx. unfold json_service_rollback.
  cbn [sr_PublishedPorts sr_ServiceKey sr_Networks] in *. json_ids.
  rewrite <- (map_id ports) at 2. apply map_ext_in. intros [pr p1 p2] Hp. unfold json_port. cbn. f_equal. apply json_text_id.
  assert (Hv : forallb valid_utf8 (map pp_Protocol ports) = true) by assumption. rewrite forallb_forall in Hv. apply Hv.
  by apply (in_map pp_Protocol) in Hp.
Qed.

Lemma documents_kept c s :
  plain_documents c = true ->
  rc_Settings (kept c s) = rc_Settings c /\ rc_Cutover (kept c s) = rc_Cutover c /\ rc_CutoverRollback (kept c s) = rc_CutoverRollback c.
Proof.
  unfold plain_documents. rewrite !forallb_app, !andb_true_iff. intros (T1 & T2 & T3). cbn [kept rc_Settings rc_Cutover rc_CutoverRollback].
  split; [by apply json_settings_id|]. split.
  - destruct (rc_Cutover c) as [p|]; [|done]. simpl. by rewrite json_cutover_id.
  - destruct (rc_CutoverRollback c) as [p|]; [|done]. simpl. by rewrite json_rollback_id.
Qed.

(** C35. Saving the routing state of a gateway loses nothing.  Whenever
    [writeCluster] succeeds for a gateway that has its row, with a state whose
    entries are under their own keys and whose credential versions are numbered
    from 1 (as the calls of the store leave it; an imported file is not checked
    for all of this), [loadCluster] with secrets reads back the same state
    ([kept]): the same routes with their hosts and server names in order,
    bindings, declarations and DNS records; domains, credentials, certificates
    and runtime observations with their times as the server keeps them; the
    settings and plans as JSON carries them, which is unchanged when their texts
    are UTF-8; and of the secrets exactly those, unchanged, that a credential
    version not removed still names.  The state of every other gateway reads as
    before. *)
Theorem routing_state_reads_back id c db db' :
  writeCluster id c db = (Ok tt, db') -> keyed c -> sql_exists (fun r => ceq (cl_id r) id) (routing_clusters db) = true ->
  (exists secrets, loadCluster id true db' = Ok (Some (kept c secrets)) /\
     (forall n v, secrets !! n = Some v <-> in_use c n /\ rc_Secrets c !! n = Some v /\ v <> "") /\
     (plain_documents c = true ->
      rc_Settings (kept c secrets) = rc_Settings c /\ rc_Cutover (kept c secrets) = rc_Cutover c /\
      rc_CutoverRollback (kept c secrets) = rc_CutoverRollback c)) /\
  (forall id' b, ceq id id' = false -> loadCluster id' b db' = loadCluster id' b db).
Proof.
  intros W Hk Hrow. split; [|intros id' b; by apply (load_other id id' c)].
  destruct (load_written id c db db' W Hk Hrow) as (secrets & L & Hs). exists secrets. split; [done|]. split; [done|]. apply documents_kept.
Qed.

End Secrets.
