(* ===== verification/RoutingStore.v ===== *)
(** * internal/ops/routing_store.go: the operations of the routing store

    Each operation is a mutation of the working copy run by [update]: one
    transaction that creates the gateway's row if need be, reads every row with
    the secrets open, runs the mutation, validates the whole result and writes
    it back.  A call also takes the verdicts of the database on its attempts
    ([vs]) and, where the code reads the clock, the time.  Reads outside a
    transaction take the state each statement is answered from. *)

From Stdlib Require Import ZArith Lia Bool Ascii String.
From stdpp Require Import base tactics list strings gmap.
From S2P Require Import Prelude GoStrings Sqlstore Ledger GoText RoutingTypes RoutingDomain RoutingRows.

Local Open Scope string_scope.
Local Open Scope list_scope.
Local Open Scope bool_scope.
Local Open Scope Z_scope.
Local Open Scope tx_scope.

Definition platformSwarmOpsMetricsRoute : string := "platform-swarmops-metrics".
Definition platformTraefikMetricsRoute : string := "platform-traefik-metrics".

Definition platformMetricsRoute (target : string) : bool :=
  (target =? platformSwarmOpsMetricsRoute)%string || (target =? platformTraefikMetricsRoute)%string.

(** ** Changes of one field of the working copy *)

Definition with_bindings (f : gmap string DependencyBinding -> gmap string DependencyBinding) (c : routingCluster) : routingCluster :=
  mkCluster (f (rc_Bindings c)) (rc_Certificates c) (rc_Credentials c) (rc_Cutover c) (rc_CutoverRollback c) (rc_Declarations c)
    (rc_DNSRecords c) (rc_Domains c) (rc_Routes c) (rc_Runtime c) (rc_Secrets c) (rc_Settings c).
Definition with_certificates (f : gmap string CertificateStatus -> gmap string CertificateStatus) (c : routingCluster) : routingCluster :=
  mkCluster (rc_Bindings c) (f (rc_Certificates c)) (rc_Credentials c) (rc_Cutover c) (rc_CutoverRollback c) (rc_Declarations c)
    (rc_DNSRecords c) (rc_Domains c) (rc_Routes c) (rc_Runtime c) (rc_Secrets c) (rc_Settings c).
Definition with_credentials (f : gmap string (list DNSCredentialMetadata) -> gmap string (list DNSCredentialMetadata)) (c : routingCluster)
  : routingCluster :=
  mkCluster (rc_Bindings c) (rc_Certificates c) (f (rc_Credentials c)) (rc_Cutover c) (rc_CutoverRollback c) (rc_Declarations c)
    (rc_DNSRecords c) (rc_Domains c) (rc_Routes c) (rc_Runtime c) (rc_Secrets c) (rc_Settings c).
Definition with_plans (cutover : option CutoverPlan) (rollback : option CutoverRollbackPlan) (c : routingCluster) : routingCluster :=
  mkCluster (rc_Bindings c) (rc_Certificates c) (rc_Credentials c) cutover rollback (rc_Declarations c)
    (rc_DNSRecords c) (rc_Domains c) (rc_Routes c) (rc_Runtime c) (rc_Secrets c) (rc_Settings c).
Definition with_declarations (f : gmap string ServiceRouteDeclaration -> gmap string ServiceRouteDeclaration) (c : routingCluster) : routingCluster :=
  mkCluster (rc_Bindings c) (rc_Certificates c) (rc_Credentials c) (rc_Cutover c) (rc_CutoverRollback c) (f (rc_Declarations c))
    (rc_DNSRecords c) (rc_Domains c) (rc_Routes c) (rc_Runtime c) (rc_Secrets c) (rc_Settings c).
Definition with_records (f : gmap string DNSRecordSpec -> gmap string DNSRecordSpec) (c : routingCluster) : routingCluster :=
  mkCluster (rc_Bindings c) (rc_Certificates c) (rc_Credentials c) (rc_Cutover c) (rc_CutoverRollback c) (rc_Declarations c)
    (f (rc_DNSRecords c)) (rc_Domains c) (rc_Routes c) (rc_Runtime c) (rc_Secrets c) (rc_Settings c).
Definition with_domains (f : gmap string DomainSpec -> gmap string DomainSpec) (c : routingCluster) : routingCluster :=
  mkCluster (rc_Bindings c) (rc_Certificates c) (rc_Credentials c) (rc_Cutover c) (rc_CutoverRollback c) (rc_Declarations c)
    (rc_DNSRecords c) (f (rc_Domains c)) (rc_Routes c) (rc_Runtime c) (rc_Secrets c) (rc_Settings c).
Definition with_routes (f : gmap string RouteSpec -> gmap string RouteSpec) (c : routingCluster) : routingCluster :=
  mkCluster (rc_Bindings c) (rc_Certificates c) (rc_Credentials c) (rc_Cutover c) (rc_CutoverRollback c) (rc_Declarations c)
    (rc_DNSRecords c) (rc_Domains c) (f (rc_Routes c)) (rc_Runtime c) (rc_Secrets c) (rc_Settings c).
Definition with_runtime (f : gmap string RouteRuntime -> gmap string RouteRuntime) (c : routingCluster) : routingCluster :=
  mkCluster (rc_Bindings c) (rc_Certificates c) (rc_Credentials c) (rc_Cutover c) (rc_CutoverRollback c) (rc_Declarations c)
    (rc_DNSRecords c) (rc_Domains c) (rc_Routes c) (f (rc_Runtime c)) (rc_Secrets c) (rc_Settings c).
Definition with_secrets (f : gmap string string -> gmap string string) (c : routingCluster) : routingCluster :=
  mkCluster (rc_Bindings c) (rc_Certificates c) (rc_Credentials c) (rc_Cutover c) (rc_CutoverRollback c) (rc_Declarations c)
    (rc_DNSRecords c) (rc_Domains c) (rc_Routes c) (rc_Runtime c) (f (rc_Secrets c)) (rc_Settings c).
Definition with_settings (s : TraefikSettings) (c : routingCluster) : routingCluster :=
  mkCluster (rc_Bindings c) (rc_Certificates c) (rc_Credentials c) (rc_Cutover c) (rc_CutoverRollback c) (rc_Declarations c)
    (rc_DNSRecords c) (rc_Domains c) (rc_Routes c) (rc_Runtime c) (rc_Secrets c) s.

Section Store.
Context `{CaseTable} `{Collation} `{MapOrder} `{Clock6}.

(** The store's ACME address for gateways without settings of their own. *)
Variable defaultEmail : string.

Definition validClusterID (value : string) : bool :=
  let value := TrimSpace value in negb (value =? "")%string && (len value <=? 64) && negb (ContainsAny value controls).

Definition values {A : Type} (m : gmap string A) : list A := map snd (ranged m).

(** ** Validation of the whole working copy *)

(** The maps of a working copy are never nil: only the settings change. *)
Definition normalizeRoutingCluster (c : routingCluster) (email : string) : routingCluster :=
  with_settings (if ts_Version (rc_Settings c) =? 0 then DefaultTraefikSettings email else TraefikSettings_Normalize (rc_Settings c)) c.

Fixpoint rollback_guards (seen : list string) (services : list CutoverServiceRollback) : list (bool * rerr) :=
  match services with
  | [] => []
  | s :: rest =>
      refuse (negb (validServiceKey (sr_ServiceKey s)) || existsb (String.eqb (sr_ServiceKey s)) seen) "cutover rollback service entry is invalid" ::
      map (fun port => refuse (negb (oneOfString (ToLower (pp_Protocol port)) ["tcp"; "udp"; "http"])
                               || (pp_PublishedPort port =? 0) || (pp_TargetPort port =? 0)) "cutover rollback port is invalid") (sr_PublishedPorts s) ++
      map (fun network => refuse ((TrimSpace network =? "")%string || (TrimSpace network =? "ingress")%string) "cutover rollback network is invalid")
        (sr_Networks s) ++
      rollback_guards (sr_ServiceKey s :: seen) rest
  end.

Definition validateCutoverRollback (plan : CutoverRollbackPlan) : result rerr unit :=
  guards (refuse (negb ((if cr_Version plan =? 0 then RoutingSchemaVersion else cr_Version plan) =? RoutingSchemaVersion))
            "cutover rollback plan version is invalid" :: rollback_guards [] (cr_Services plan)).

Definition of_route (key : string) (r : result rerr unit) : result rerr unit :=
  match r with Err e => Err (ErrOfRoute key e) | Ok u => Ok u end.

Definition is_provider (p : string) : bool := (p =? DNSProviderCloudflare)%string || (p =? DNSProviderArvan)%string.

Definition version_guards (c : routingCluster) (id : string) (index : nat) (m : DNSCredentialMetadata) : list (bool * rerr) :=
  [ refuse (negb (dc_ID m =? id)%string || negb (dc_Version m =? Z.of_nat index + 1) || negb (is_provider (dc_Provider m))
            || negb (dockerReferenceName (dc_SecretName m))) "DNS credential version state is invalid";
    refuse (negb (dc_State m =? "removed")%string && (secret_of (rc_Secrets c) (dc_SecretName m) =? "")%string) "DNS credential value is missing" ].

Definition credential_guards (c : routingCluster) (id : string) (versions : list DNSCredentialMetadata) : list (bool * rerr) :=
  refuse (negb (providerIDPattern id) || none versions) "DNS credential state is invalid" ::
  concat (imap (version_guards c id) versions).

(** The routes a dependency can bind to. *)
Definition has_target (c : routingCluster) (target : string) : bool :=
  (match rc_Routes c !! target with Some _ => true | None => false end) || platformMetricsRoute target.

Definition cluster_guards (c : routingCluster) : list (bool * rerr) :=
  failing (TraefikSettings_Validate (rc_Settings c)) ::
  (match rc_CutoverRollback c with Some plan => failing (validateCutoverRollback plan) | None => refuse false "" end) ::
  flat_map (fun kv => [ refuse (negb (fst kv =? rt_Key (snd kv))%string) "route state key mismatch";
                        failing (of_route (fst kv) (ValidateRouteCompatibility (snd kv) (rc_Settings c) (values (rc_DNSRecords c)))) ])
    (ranged (rc_Routes c)) ++
  flat_map (fun kv => [ failing (DependencyBinding_Validate (snd kv));
                        refuse (negb (has_target c (db_TargetRoute (snd kv)))) "dependency binding target route is missing" ])
    (ranged (rc_Bindings c)) ++
  flat_map (fun kv => [ refuse (negb (fst kv =? sd_ServiceKey (snd kv))%string) "service route declaration state key mismatch";
                        failing (ServiceRouteDeclaration_Validate (snd kv)) ]) (ranged (rc_Declarations c)) ++
  flat_map (fun kv => credential_guards c (fst kv) (snd kv)) (ranged (rc_Credentials c)).

(** Returns the working copy, whose settings it normalises. *)
Definition validateRoutingCluster (c : routingCluster) : result rerr routingCluster :=
  let c := normalizeRoutingCluster c (ts_ACMEEmail (rc_Settings c)) in
  match guards (cluster_guards c) with Ok _ => Ok c | Err e => Err e end.

(** ** update *)

Definition mutation (A : Type) : Type := routingCluster -> result rerr (routingCluster * A).

Definition ensure_cluster (clusterID : string) : tx RoutingDB uerr unit :=
  db <- tx_get ;;
  if sql_exists (fun r => ceq (cl_id r) clusterID) (routing_clusters db) then tx_ret tt
  else tx_guard (valid_utf8 clusterID) (server ErrIncorrectString) ;;;
       tx_guard (varchar 64 clusterID) (server ErrDataTooLong) ;;;
       tx_modify (with_clusters (fun t => t ++ [mkClusterRow clusterID (json_settings (DefaultTraefikSettings defaultEmail)) None None])).

(** [cloneRoutingCluster] of a state read from the database: the copy goes
    through JSON.  A secret is any bytes; the other texts come from columns of
    character set utf8mb4 ([stored_texts_are_utf8]) and stay as they are. *)
Definition cloneRoutingCluster (source : routingCluster) (email : string) : routingCluster :=
  normalizeRoutingCluster
    (with_secrets (fmap json_text)
      (with_plans (option_map json_cutover (rc_Cutover source)) (option_map json_rollback (rc_CutoverRollback source))
        (with_settings (json_settings (rc_Settings source)) source))) email.

(** The body of the transaction. *)
Definition update_tx {A : Type} (clusterID : string) (f : mutation A) : tx RoutingDB uerr A :=
  ensure_cluster clusterID ;;;
  db <- tx_get ;;
  existing <- tx_lift (loadCluster clusterID true db) ;;
  match existing with
  | None => tx_fail (Storage (Refuse "no cluster row"))
  | Some c =>
      let working := cloneRoutingCluster c defaultEmail in
      match f working with
      | Err e => tx_fail (Mutation e)
      | Ok (changed, a) =>
          match validateRoutingCluster changed with
          | Err e => tx_fail (Mutation e)
          | Ok valid => writeCluster clusterID valid ;;; tx_ret a
          end
      end
  end.

Definition update {A : Type} (vs : list verdict) (clusterID : string) (f : mutation A) : tx RoutingDB rerr A :=
  if negb (validClusterID clusterID) then tx_fail (Refuse "selected server identifier is invalid")
  else fun db => match WithTx vs (update_tx clusterID f) db with
                 | (Ok a, db') => (Ok a, db')
                 | (Err (Mutation e), db') => (Err e, db')
                 | (Err (Storage e), db') => (Err (ErrSave e), db')
                 end.

(** A mutation that always succeeds, and one guarded by conditions. *)
Definition change (f : routingCluster -> routingCluster) : mutation unit := fun c => Ok (f c, tt).
Definition guarded (g : routingCluster -> list (bool * rerr)) (f : routingCluster -> routingCluster) : mutation unit :=
  fun c => match guards (g c) with Ok _ => Ok (f c, tt) | Err e => Err e end.

Definition when_ok (r : result rerr unit) (k : tx RoutingDB rerr unit) : tx RoutingDB rerr unit :=
  match r with Ok _ => k | Err e => tx_fail e end.

(** ** Declarations and settings *)

Definition PutDeclaration (vs : list verdict) (clusterID : string) (d : ServiceRouteDeclaration) : tx RoutingDB rerr unit :=
  let d := ServiceRouteDeclaration_Normalize d in
  when_ok (ServiceRouteDeclaration_Validate d)
    (update vs clusterID (change (with_declarations (fun m => <[sd_ServiceKey d := d]> m)))).

Definition PutSettings (vs : list verdict) (clusterID : string) (s : TraefikSettings) : tx RoutingDB rerr unit :=
  let s := TraefikSettings_Normalize s in
  when_ok (TraefikSettings_Validate s) (update vs clusterID (change (with_settings s))).

(** ** Routes *)

Definition hostOverlap (left right : list string) : bool := existsb (fun h => existsb (String.eqb h) left) right.

Definition pathOverlap (left right : string) : bool :=
  let left := if (left =? "")%string then "/" else left in
  let right := if (right =? "")%string then "/" else right in
  HasPrefix left right || HasPrefix right left.

Definition conflict_guards (route : RouteSpec) (kv : string * RouteSpec) : list (bool * rerr) :=
  let existing := snd kv in
  if (fst kv =? rt_Key route)%string then []
  else
    [ ((rt_ServiceKey existing =? rt_ServiceKey route)%string && (rt_Protocol existing =? rt_Protocol route)%string,
       ErrServiceHasRoute (rt_ServiceKey route) (rt_Protocol route));
      (negb (is_http route) && (rt_Protocol existing =? rt_Protocol route)%string && (rt_ListenPort existing =? rt_ListenPort route),
       ErrPortTaken (rt_Protocol route) (rt_ListenPort route) (rt_Key existing));
      (is_http route && hostOverlap (rm_Hosts (rt_Match existing)) (rm_Hosts (rt_Match route))
       && pathOverlap (rm_PathPrefix (rt_Match existing)) (rm_PathPrefix (rt_Match route)),
       ErrHostConflict (rt_Key existing)) ].

Definition put_route_guards (route : RouteSpec) (c : routingCluster) : list (bool * rerr) :=
  failing (ValidateRouteCompatibility route (rc_Settings c) (values (rc_DNSRecords c))) ::
  failing (ValidateRouteAdmission route (values (rc_DNSRecords c)) (values (rc_Domains c))) ::
  flat_map (conflict_guards route) (ranged (rc_Routes c)).

Definition PutRoute (vs : list verdict) (clusterID : string) (route : RouteSpec) : tx RoutingDB rerr unit :=
  let route := RouteSpec_Normalize route in
  when_ok (RouteSpec_Validate route)
    (update vs clusterID (guarded (put_route_guards route) (with_routes (fun m => <[rt_Key route := route]> m)))).

Definition remove_route_guards (key : string) (c : routingCluster) : list (bool * rerr) :=
  map (fun kv => ((db_TargetRoute (snd kv) =? key)%string, ErrRouteBound (db_Name (snd kv)))) (ranged (rc_Bindings c)).

Definition drop_route (key : string) (c : routingCluster) : routingCluster :=
  with_certificates (delete key) (with_runtime (delete key) (with_routes (delete key) c)).

Definition RemoveRoute (vs : list verdict) (clusterID key : string) : tx RoutingDB rerr unit :=
  let key := lowered key in
  if negb (routeKeyPattern key) then tx_fail (Refuse "route key is invalid")
  else update vs clusterID (guarded (remove_route_guards key) (drop_route key)).

(** ** Bindings *)

Definition put_binding_guards (b : DependencyBinding) (c : routingCluster) : list (bool * rerr) :=
  refuse (negb (has_target c (db_TargetRoute b))) "dependency target route was not found" ::
  map (fun kv => refuse (negb (db_Name b =? "")%string && negb (fst kv =? dependencyBindingKey b)%string
                         && (db_CallerService (snd kv) =? db_CallerService b)%string && (db_Name (snd kv) =? db_Name b)%string)
                   "dependency binding delivery name conflicts") (ranged (rc_Bindings c)).

Definition PutBinding (vs : list verdict) (clusterID : string) (b : DependencyBinding) : tx RoutingDB rerr unit :=
  let b := DependencyBinding_Normalize b in
  when_ok (DependencyBinding_Validate b)
    (update vs clusterID (guarded (put_binding_guards b) (with_bindings (fun m => <[dependencyBindingKey b := b]> m)))).

Definition RemoveBinding (vs : list verdict) (clusterID caller target name : string) : tx RoutingDB rerr unit :=
  let b := DependencyBinding_Normalize (mkBinding caller "" name target RoutingSchemaVersion) in
  if negb (validServiceKey (db_CallerService b)) || negb (routeKeyPattern (db_TargetRoute b))
  then tx_fail (Refuse "dependency binding identity is invalid")
  else update vs clusterID (change (with_bindings (delete (dependencyBindingKey b)))).

(** ** DNS credentials *)

Definition secretNameOf (provider id : string) (version : Z) : string :=
  ("traefik_dns_" ++ provider ++ "_" ++ id ++ "_v" ++ decimal version)%string.

Definition token_of (provider secret : string) : string :=
  let value := TrimSpace secret in
  if (provider =? DNSProviderArvan)%string then TrimSpace (TrimPrefix value "Apikey ") else value.

Definition last_version (versions : list DNSCredentialMetadata) : option DNSCredentialMetadata := last versions.

Definition rotate (now : Z) (id name provider : string) (identity : DNSCredentialIdentity) (value : string) : mutation DNSCredentialMetadata :=
  fun c =>
    let versions := default [] (rc_Credentials c !! id) in
    let version := Z.of_nat (List.length versions) + 1 in
    let secretName := secretNameOf provider id version in
    let created := mkCredential (di_AccountID identity) (truncate microsecond now) (di_Email identity) id name provider secretName "sealed" None version in
    match guards
      [ refuse (match last_version versions with Some m => negb (dc_Provider m =? provider)%string | None => false end)
          "DNS credential provider cannot change during rotation";
        refuse (negb (dockerReferenceName secretName)) "generated Swarm secret name is invalid" ] with
    | Err e => Err e
    | Ok _ => Ok (with_secrets (fun m => <[secretName := value]> m) (with_credentials (fun m => <[id := versions ++ [created]]> m) c), created)
    end.

Definition RotateCredential (vs : list verdict) (now : Z) (clusterID id name provider : string) (identity : DNSCredentialIdentity) (secret : string)
  : tx RoutingDB rerr DNSCredentialMetadata :=
  let id := lowered id in
  let name := TrimSpace name in
  let identity := DNSCredentialIdentity_Normalize identity in
  let value := token_of provider secret in
  match guards
    [ refuse (negb (providerIDPattern id) || (name =? "")%string || (96 <? len name) || ContainsAny name controls) "DNS credential metadata is invalid";
      refuse (negb (is_provider provider)) "DNS provider is unsupported";
      failing (DNSCredentialIdentity_Validate identity provider);
      refuse ((len value <? 16) || (4096 <? len value) || ContainsAny value controls_and_blanks)
        "DNS credential must be one protected token between 16 and 4096 characters" ] with
  | Err e => tx_fail e
  | Ok _ => update vs clusterID (rotate now id name provider identity value)
  end.

Definition CredentialSecret_at (fails : nat -> option rerr) (clusterID id : string) (version : Z) (at_ : nat -> RoutingDB)
  : result rerr (DNSCredentialMetadata * string) :=
  if negb (validClusterID clusterID) then Err (Refuse "routing state is not configured")
  else
    let id := lowered id in
    match loadCluster_at fails clusterID true at_ with
    | Err (Storage e) | Err (Mutation e) => Err (ErrRead e)
    | Ok None => Err (Refuse "DNS credential was not found")
    | Ok (Some c) =>
        let versions := default [] (rc_Credentials c !! id) in
        let version := if version <=? 0 then Z.of_nat (List.length versions) else version in
        if (version <? 1) || (Z.of_nat (List.length versions) <? version) then Err (Refuse "DNS credential version was not found")
        else match versions !! Z.to_nat (version - 1) with
             | None => Err (Refuse "DNS credential version was not found")
             | Some m => match rc_Secrets c !! dc_SecretName m with
                         | None => Err (Refuse "sealed DNS credential value is unavailable")
                         | Some secret => if (secret =? "")%string then Err (Refuse "sealed DNS credential value is unavailable")
                                          else Ok (m, secret)
                         end
             end
    end.

(** The answer of a call that no other call interrupts. *)
Definition CredentialSecret (clusterID id : string) (version : Z) (db : RoutingDB) : result rerr (DNSCredentialMetadata * string) :=
  CredentialSecret_at (fun _ => None) clusterID id version (fun _ => db).

Definition set_state (state : string) (validated : option Z) (m : DNSCredentialMetadata) : DNSCredentialMetadata :=
  mkCredential (dc_AccountID m) (dc_CreatedAt m) (dc_Email m) (dc_ID m) (dc_Name m) (dc_Provider m) (dc_SecretName m) state validated (dc_Version m).

Definition mark_validated (now : Z) (id : string) (version : Z) : mutation unit := fun c =>
  let versions := default [] (rc_Credentials c !! id) in
  if (version <? 1) || (Z.of_nat (List.length versions) <? version) then Err (Refuse "DNS credential version was not found")
  else Ok (with_credentials (fun m => <[id := alter (set_state "validated" (Some (truncate microsecond now))) (Z.to_nat (version - 1)) versions]> m) c, tt).

Definition MarkCredentialValidated (vs : list verdict) (now : Z) (clusterID id : string) (version : Z) : tx RoutingDB rerr unit :=
  update vs clusterID (mark_validated now id version).

Definition remove_version (id : string) (version : Z) : mutation unit := fun c =>
  let versions := default [] (rc_Credentials c !! id) in
  if (version <? 1) || (Z.of_nat (List.length versions) <? version) then Err (Refuse "DNS credential version was not found")
  else if version =? Z.of_nat (List.length versions) then Err (Refuse "latest DNS credential version cannot be removed")
  else match versions !! Z.to_nat (version - 1) with
       | None => Err (Refuse "DNS credential version was not found")
       | Some metadata =>
           Ok (with_credentials (fun m => <[id := alter (fun m => set_state "removed" (dc_ValidatedAt m) m) (Z.to_nat (version - 1)) versions]> m)
                 (with_secrets (delete (dc_SecretName metadata)) c), tt)
       end.

Definition RemoveCredentialVersion (vs : list verdict) (clusterID id : string) (version : Z) : tx RoutingDB rerr unit :=
  update vs clusterID (remove_version id version).

(** ** DNS records and domains *)

Definition put_record_guards (record : DNSRecordSpec) (c : routingCluster) : list (bool * rerr) :=
  failing (ValidateDomainAdmission record (values (rc_Domains c))) ::
  refuse (match last_version (default [] (rc_Credentials c !! dr_CredentialID record)) with
          | None => true | Some m => (dc_State m =? "removed")%string end) "DNS record credential was not found" ::
  map (fun kv => refuse (negb (fst kv =? dr_ID record)%string && (dr_Name (snd kv) =? dr_Name record)%string && (dr_Type (snd kv) =? dr_Type record)%string)
                   "DNS record name and type already exist") (ranged (rc_DNSRecords c)).

Definition PutDNSRecord (vs : list verdict) (clusterID : string) (record : DNSRecordSpec) (protocol : string) : tx RoutingDB rerr unit :=
  let record := DNSRecordSpec_Normalize record in
  when_ok (DNSRecordSpec_Validate record protocol)
    (update vs clusterID (guarded (put_record_guards record) (with_records (fun m => <[dr_ID record := record]> m)))).

Definition remove_record (id : string) : mutation unit := fun c =>
  match rc_DNSRecords c !! id with
  | None => Ok (c, tt)
  | Some record =>
      match guards (refuse (negb (dr_Managed record) && negb (dr_Adopted record)) "DNS record is not owned or adopted by SwarmOps" ::
                    map (fun kv => ((rt_DNSReference (snd kv) =? id)%string, ErrRecordReferenced (rt_Key (snd kv)))) (ranged (rc_Routes c))) with
      | Err e => Err e
      | Ok _ => Ok (with_records (delete id) c, tt)
      end
  end.

Definition RemoveDNSRecord (vs : list verdict) (clusterID id : string) : tx RoutingDB rerr unit :=
  update vs clusterID (remove_record (lowered id)).

Definition put_domain (now : Z) (domain : DomainSpec) : routingCluster -> routingCluster := fun c =>
  let created := match rc_Domains c !! dm_Zone domain with
                 | Some existing => if IsZero (dm_CreatedAt existing)
                                    then if IsZero (dm_CreatedAt domain) then truncate microsecond now else dm_CreatedAt domain
                                    else dm_CreatedAt existing
                 | None => if IsZero (dm_CreatedAt domain) then truncate microsecond now else dm_CreatedAt domain
                 end in
  with_domains (fun m => <[dm_Zone domain := mkDomain created (dm_Note domain) (dm_Version domain) (dm_Zone domain)]> m) c.

Definition PutDomain (vs : list verdict) (now : Z) (clusterID : string) (domain : DomainSpec) : tx RoutingDB rerr unit :=
  let domain := DomainSpec_Normalize domain in
  when_ok (DomainSpec_Validate domain) (update vs clusterID (change (put_domain now domain))).

Definition remove_domain (zone : string) : mutation unit := fun c =>
  match rc_Domains c !! zone with
  | None => Ok (c, tt)
  | Some _ =>
      let remaining := map snd (List.filter (fun kv => negb (fst kv =? zone)%string) (ranged (rc_Domains c))) in
      match guards
        (map (fun kv => (match acceptedZone remaining (dr_Name (DNSRecordSpec_Normalize (snd kv))) with Some _ => false | None => true end,
                         ErrDomainOwnsRecord zone (dr_ID (snd kv)))) (ranged (rc_DNSRecords c)) ++
         map (fun kv => (match ValidateRouteAdmission (snd kv) (values (rc_DNSRecords c)) remaining with Ok _ => false | Err _ => true end,
                         ErrDomainOwnsRoute zone (rt_Key (snd kv)))) (ranged (rc_Routes c))) with
      | Err e => Err e
      | Ok _ => Ok (with_domains (delete zone) c, tt)
      end
  end.

Definition RemoveDomain (vs : list verdict) (clusterID zone : string) : tx RoutingDB rerr unit :=
  update vs clusterID (remove_domain (host_form zone)).

(** ** Observations and plans *)

Definition PutCertificate (vs : list verdict) (clusterID : string) (c : CertificateStatus) : tx RoutingDB rerr unit :=
  let c := mkCertificate (normalizeHosts (ct_Domains c)) (ct_FailureSummary c) (ct_Fingerprint c) (ct_HandshakeValid c) (ct_Issuer c)
             (ct_LastAttempt c) (ct_NotAfter c) (ct_NotBefore c) (ct_Resolver c) (lowered (ct_RouteKey c)) (ct_State c)
             (if ct_Version c =? 0 then RoutingSchemaVersion else ct_Version c) in
  if negb (ct_Version c =? RoutingSchemaVersion) || negb (routeKeyPattern (ct_RouteKey c)) || negb (validCertificateFingerprint (ct_Fingerprint c))
  then tx_fail (Refuse "certificate status is invalid")
  else update vs clusterID (guarded
    (fun cl => [refuse (match rc_Routes cl !! ct_RouteKey c with Some _ => false | None => true end) "certificate route was not found"])
    (with_certificates (fun m => <[ct_RouteKey c := c]> m))).

(** [strings.Map] over the runes: a control character becomes a space, an
    invalid byte U+FFFD. *)
Definition blank_controls (s : string) : string :=
  string_of_runes (map (fun r => match r with
                                 | [c] => if (code c =? 13) || (code c =? 10) || (code c =? 0) then [chr 32] else r
                                 | _ => r
                                 end) (runes s)).

Definition sanitizeRuntimeError (value : string) : string :=
  let value := TrimSpace (blank_controls value) in
  if 256 <? len value then of_bytes (take 256 (bytes value)) else value.

Definition PutRuntime (vs : list verdict) (now : Z) (clusterID : string) (r : RouteRuntime) : tx RoutingDB rerr unit :=
  let r := mkRuntime (map sanitizeRuntimeError (take 20 (rr_Errors r))) (rr_EntryPoints r)
             (if IsZero (rr_ObservedAt r) then now else rr_ObservedAt r) (rr_Protocol r) (lowered (rr_RouteKey r)) (rr_Router r) (rr_Service r)
             (rr_State r) (if rr_Version r =? 0 then RoutingSchemaVersion else rr_Version r) in
  if negb (rr_Version r =? RoutingSchemaVersion) || negb (routeKeyPattern (rr_RouteKey r))
     || negb (oneOfString (rr_Protocol r) [RouteHTTP; RouteTCP; RouteUDP])
  then tx_fail (Refuse "route runtime state is invalid")
  else update vs clusterID (change (with_runtime (fun m => <[rr_RouteKey r := r]> m))).

Definition PutCutover (vs : list verdict) (clusterID : string) (p : CutoverPlan) : tx RoutingDB rerr unit :=
  let p := mkCutover (cp_Blockers p) (cp_GeneratedAt p) (cp_Phases p) (cp_Ready p) (cp_Services p)
             (if cp_Version p =? 0 then RoutingSchemaVersion else cp_Version p) in
  if negb (cp_Version p =? RoutingSchemaVersion) then tx_fail (Refuse "cutover plan version is invalid")
  else update vs clusterID (change (fun c => with_plans (Some p) (rc_CutoverRollback c) c)).

Definition PutCutoverRollback (vs : list verdict) (clusterID : string) (p : CutoverRollbackPlan) : tx RoutingDB rerr unit :=
  let p := mkRollback (cr_GeneratedAt p) (cr_Services p) (if cr_Version p =? 0 then RoutingSchemaVersion else cr_Version p) in
  if negb (cr_Version p =? RoutingSchemaVersion) then tx_fail (Refuse "cutover rollback plan version is invalid")
  else update vs clusterID (change (fun c => with_plans (rc_Cutover c) (Some p) c)).

Definition ClearCutoverRollback (vs : list verdict) (clusterID : string) : tx RoutingDB rerr unit :=
  update vs clusterID (change (fun c => with_plans (rc_Cutover c) None c)).

(** ** Snapshot *)

Record RoutingState := mkState {
  st_Bindings : list DependencyBinding; st_Certificates : list CertificateStatus; st_Credentials : list DNSCredentialMetadata;
  st_Cutover : option CutoverPlan; st_CutoverRollback : option CutoverRollbackPlan; st_Declarations : list ServiceRouteDeclaration;
  st_DNSRecords : list DNSRecordSpec; st_Domains : list DomainSpec; st_Routes : list RouteSpec; st_Runtime : list RouteRuntime;
  st_Settings : TraefikSettings; st_Version : Z }.

(** [sort.Slice] with the order of a key. *)
Fixpoint insert_sorted {A : Type} (before : A -> A -> bool) (x : A) (l : list A) : list A :=
  match l with
  | [] => [x]
  | y :: l' => if before y x then y :: insert_sorted before x l' else x :: l
  end.

Definition sort_slice {A : Type} (before : A -> A -> bool) (l : list A) : list A := foldr (insert_sorted before) [] l.

Definition by_key {A : Type} (key : A -> string) (a b : A) : bool := String.ltb (key a) (key b).

Definition publicRoutingState (c : routingCluster) : RoutingState :=
  mkState (sort_slice (by_key dependencyBindingKey) (values (rc_Bindings c)))
    (sort_slice (by_key ct_RouteKey) (values (rc_Certificates c)))
    (sort_slice (fun a b => if (dc_ID a =? dc_ID b)%string then dc_Version b <? dc_Version a else String.ltb (dc_ID a) (dc_ID b))
       (concat (values (rc_Credentials c))))
    (rc_Cutover c)
    (match rc_CutoverRollback c with
     | Some p => Some (mkRollback (cr_GeneratedAt p) (sort_slice (by_key sr_ServiceKey) (cr_Services p)) (cr_Version p))
     | None => None
     end)
    (sort_slice (by_key sd_ServiceKey) (values (rc_Declarations c)))
    (sort_slice (by_key dr_ID) (values (rc_DNSRecords c)))
    (sort_slice (by_key dm_Zone) (values (rc_Domains c)))
    (sort_slice (by_key rt_Key) (values (rc_Routes c)))
    (sort_slice (by_key rr_RouteKey) (values (rc_Runtime c)))
    (rc_Settings c) RoutingSchemaVersion.

Definition Snapshot (fails : nat -> option rerr) (clusterID : string) (at_ : nat -> RoutingDB) : result rerr RoutingState :=
  if negb (validClusterID clusterID) then Err (Refuse "selected server identifier is invalid")
  else match loadCluster_at fails clusterID false at_ with
       | Err (Storage e) | Err (Mutation e) => Err (ErrRead e)
       | Ok None => Ok (mkState [] [] [] None None [] [] [] [] [] (DefaultTraefikSettings defaultEmail) RoutingSchemaVersion)
       | Ok (Some c) => Ok (publicRoutingState c)
       end.

(** What a state of the database holds for a gateway: the snapshot of which
    every statement reads that state. *)
Definition stored_state (clusterID : string) (db : RoutingDB) : result rerr RoutingState :=
  Snapshot (fun _ => None) clusterID (fun _ => db).

End Store.
