(* ===== verification/RoutingInvariants.v ===== *)
(** * Invariants of the routing store

    What holds of the routing state of every gateway after any sequence of
    calls: entries under their own keys, no two routes in conflict, every
    published name under an accepted domain, every binding with a target.  The
    state is the one the rows give ([load_rows]), whatever the spelling of the
    gateway's identifier. *)

From Stdlib Require Import ZArith Lia Bool Ascii String.
From stdpp Require Import base tactics list strings gmap.
From S2P Require Import Prelude GoStrings Sqlstore Ledger GoText RoutingTypes RoutingDomain RoutingRows RoutingRoundTrip RoutingStore.

Local Open Scope string_scope.
Local Open Scope list_scope.
Local Open Scope bool_scope.
Local Open Scope Z_scope.
Local Open Scope tx_scope.

(** ** Calls *)

Inductive Call :=
| CallPutDeclaration (d : ServiceRouteDeclaration)
| CallPutSettings (s : TraefikSettings)
| CallPutRoute (r : RouteSpec)
| CallRemoveRoute (key : string)
| CallPutBinding (b : DependencyBinding)
| CallRemoveBinding (caller target name : string)
| CallRotateCredential (now : Z) (id name provider : string) (identity : DNSCredentialIdentity) (secret : string)
| CallMarkValidated (now : Z) (id : string) (version : Z)
| CallRemoveVersion (id : string) (version : Z)
| CallPutRecord (r : DNSRecordSpec) (protocol : string)
| CallRemoveRecord (id : string)
| CallPutDomain (now : Z) (d : DomainSpec)
| CallRemoveDomain (zone : string)
| CallPutCertificate (c : CertificateStatus)
| CallPutRuntime (now : Z) (r : RouteRuntime)
| CallPutCutover (p : CutoverPlan)
| CallPutRollback (p : CutoverRollbackPlan)
| CallClearRollback.

Section Invariants.
Context `{CaseTable} `{Collation} `{MapOrder} `{Clock6}.
Variable defaultEmail : string.

Definition ignore_value {A : Type} (m : tx RoutingDB rerr A) : tx RoutingDB rerr unit := _ <- m ;; tx_ret tt.

Definition call (vs : list verdict) (clusterID : string) (o : Call) : tx RoutingDB rerr unit :=
  match o with
  | CallPutDeclaration d => PutDeclaration defaultEmail vs clusterID d
  | CallPutSettings s => PutSettings defaultEmail vs clusterID s
  | CallPutRoute r => PutRoute defaultEmail vs clusterID r
  | CallRemoveRoute key => RemoveRoute defaultEmail vs clusterID key
  | CallPutBinding b => PutBinding defaultEmail vs clusterID b
  | CallRemoveBinding caller target name => RemoveBinding defaultEmail vs clusterID caller target name
  | CallRotateCredential now id name provider identity secret =>
      ignore_value (RotateCredential defaultEmail vs now clusterID id name provider identity secret)
  | CallMarkValidated now id version => MarkCredentialValidated defaultEmail vs now clusterID id version
  | CallRemoveVersion id version => RemoveCredentialVersion defaultEmail vs clusterID id version
  | CallPutRecord r protocol => PutDNSRecord defaultEmail vs clusterID r protocol
  | CallRemoveRecord id => RemoveDNSRecord defaultEmail vs clusterID id
  | CallPutDomain now d => PutDomain defaultEmail vs now clusterID d
  | CallRemoveDomain zone => RemoveDomain defaultEmail vs clusterID zone
  | CallPutCertificate c => PutCertificate defaultEmail vs clusterID c
  | CallPutRuntime now r => PutRuntime defaultEmail vs now clusterID r
  | CallPutCutover p => PutCutover defaultEmail vs clusterID p
  | CallPutRollback p => PutCutoverRollback defaultEmail vs clusterID p
  | CallClearRollback => ClearCutoverRollback defaultEmail vs clusterID
  end.

Definition fresh_db : RoutingDB := mkRoutingDB [] [].

(** The databases that calls, in any number, order and outcome, lead to. *)
Inductive reachable : RoutingDB -> Prop :=
| reach_fresh : reachable fresh_db
| reach_call db vs clusterID o r db' : reachable db -> call vs clusterID o db = (r, db') -> reachable db'.

(** ** The invariant *)

(** What [PutRoute] refuses beside an existing route: the same service and
    protocol, the same stream port, or HTTP routes with a host in common, as the
    hosts are stored, and overlapping paths.  Labels are rendered from hosts
    normalised once more, so stored hosts that differ in trailing dots only do
    not conflict here and render alike. *)
Definition conflicts (a b : RouteSpec) : bool :=
  ((rt_ServiceKey a =? rt_ServiceKey b)%string && (rt_Protocol a =? rt_Protocol b)%string)
  || (negb (is_http a) && (rt_Protocol a =? rt_Protocol b)%string && (rt_ListenPort a =? rt_ListenPort b))
  || (is_http a && is_http b && hostOverlap (rm_Hosts (rt_Match a)) (rm_Hosts (rt_Match b))
      && pathOverlap (rm_PathPrefix (rt_Match a)) (rm_PathPrefix (rt_Match b))).

(** The names a route claims, as every check and every rendering sees them. *)
Definition claimed (r : RouteSpec) : list string :=
  rm_Hosts (rt_Match (RouteSpec_Normalize r)) ++ rm_SNI (rt_Match (RouteSpec_Normalize r)).

Record good (c : routingCluster) : Prop := {
  good_keyed : keyed c;
  good_routes : forall k1 k2 r1 r2, rc_Routes c !! k1 = Some r1 -> rc_Routes c !! k2 = Some r2 -> k1 <> k2 -> conflicts r1 r2 = false;
  good_records : forall k r, rc_DNSRecords c !! k = Some r -> exists z d, rc_Domains c !! z = Some d /\
    under (host_form (dr_Name (DNSRecordSpec_Normalize r))) (host_form (dm_Zone d)) = true;
  good_hosts : forall k r h, rc_Routes c !! k = Some r -> In h (claimed r) ->
    isReservedInternalHost (TrimPrefix h "*.") = true \/ exists z d, rc_Domains c !! z = Some d /\
    under (host_form (TrimPrefix h "*.")) (host_form (dm_Zone d)) = true;
  good_targets : forall k b, rc_Bindings c !! k = Some b -> has_target c (db_TargetRoute b) = true;
  good_names : forall k1 k2 b1 b2, rc_Bindings c !! k1 = Some b1 -> rc_Bindings c !! k2 = Some b2 -> k1 <> k2 ->
    db_CallerService b1 = db_CallerService b2 -> db_Name b1 = db_Name b2 -> db_Name b1 = "";
  good_certificates : forall k x, rc_Certificates c !! k = Some x -> is_Some (rc_Routes c !! k)
}.

(** ** [update] *)

Lemma ensure_cluster_ok id db db' :
  ensure_cluster defaultEmail id db = (Ok tt, db') ->
  routing_rows db' = routing_rows db /\ sql_exists (fun r => ceq (cl_id r) id) (routing_clusters db') = true /\
  (sql_exists (fun r => ceq (cl_id r) id) (routing_clusters db) = true -> db' = db).
Proof.
  unfold ensure_cluster. rewrite get_bind. destruct (sql_exists _ _) eqn:E.
  - intros [= <-]. done.
  - rewrite !guard_bind. destruct (valid_utf8 id); [|discriminate]. destruct (varchar 64 id); [|discriminate].
    intros [= <-]. split; [done|]. split; [|done]. simpl. apply sql_exists_true.
    exists (mkClusterRow id (json_settings (DefaultTraefikSettings defaultEmail)) None None). split; [apply in_or_app; right; by left|]. apply ceq_refl.
Qed.

(** A run of the transaction that was committed. *)
Definition committed {A : Type} (id : string) (f : mutation A) (a : A) (db db' : RoutingDB) : Prop :=
  exists db0 c changed valid,
    ensure_cluster defaultEmail id db = (Ok tt, db0) /\ loadCluster id true db0 = Ok (Some c) /\
    f (cloneRoutingCluster c defaultEmail) = Ok (changed, a) /\ validateRoutingCluster changed = Ok valid /\
    writeCluster id valid db0 = (Ok tt, db').

Lemma update_tx_ok {A} id (f : mutation A) db a db' : update_tx defaultEmail id f db = (Ok a, db') -> committed id f a db db'.
Proof.
  intros W. unfold update_tx in W. tx_step W. destruct r. rewrite get_bind, lift_bind in W.
  destruct (loadCluster id true s) as [[c|]|e] eqn:L; [|discriminate..].
  destruct (f _) as [[changed b]|e] eqn:F; [|discriminate]. destruct (validateRoutingCluster changed) as [valid|e] eqn:V; [|discriminate].
  tx_step W. tx_prims. destruct r. by exists s, c, changed, valid.
Qed.

Lemma update_ok {A} vs id (f : mutation A) db a db' : update defaultEmail vs id f db = (Ok a, db') -> committed id f a db db'.
Proof.
  unfold update. destruct (negb (validClusterID id)); [discriminate|].
  destruct (WithTx vs _ db) as [[a'|[e|e]] db1] eqn:W; [|discriminate..]. intros [= <- <-]. by apply WithTx_ok, update_tx_ok in W.
Qed.

(** Whatever is reported, nothing or a complete run was committed. *)
Lemma update_cases {A} vs id (f : mutation A) db r db' :
  update defaultEmail vs id f db = (r, db') -> db' = db \/ exists a, committed id f a db db'.
Proof.
  unfold update. destruct (negb (validClusterID id)); [intros [= _ <-]; by left|].
  destruct (WithTx vs _ db) as [w db1] eqn:W. apply WithTx_cases in W as W'.
  assert (forall x, (r, db') = (x, db1) -> db' = db \/ exists a, committed id f a db db') as Hx.
  { intros x [= _ ->]. destruct W' as [->|[a Ha]]; [by left|right]. exists a. by apply update_tx_ok. }
  destruct w as [a|[e|e]]; intros E; symmetry in E; by eapply Hx.
Qed.

Lemma validate_ok c c' :
  validateRoutingCluster c = Ok c' ->
  c' = normalizeRoutingCluster c (ts_ACMEEmail (rc_Settings c)) /\ forall g, In g (cluster_guards c') -> fst g = false.
Proof.
  unfold validateRoutingCluster. destruct (guards _) as [[]|e] eqn:G; [|discriminate]. intros [= <-]. split; [done|]. by apply guards_ok.
Qed.

(** The invariant does not speak of settings, plans and secrets. *)
Lemma good_ext c c' :
  rc_Bindings c' = rc_Bindings c -> rc_Certificates c' = rc_Certificates c -> rc_Credentials c' = rc_Credentials c ->
  rc_Declarations c' = rc_Declarations c -> rc_DNSRecords c' = rc_DNSRecords c -> rc_Domains c' = rc_Domains c ->
  rc_Routes c' = rc_Routes c -> rc_Runtime c' = rc_Runtime c -> good c -> good c'.
Proof.
  intros E1 E2 E3 E4 E5 E6 E7 E8 [[K1 K2 K3 K4 K5 K6 K7 K8] G2 G3 G4 G5 G6 G7].
  unfold has_target in *. split; [split|..]; unfold has_target; rewrite ?E1, ?E2, ?E3, ?E4, ?E5, ?E6, ?E7, ?E8; assumption.
Qed.

Lemma lookup_kept {A B} (f : A -> B) (m : gmap string A) k y : (f <$> m) !! k = Some y -> exists x, m !! k = Some x /\ y = f x.
Proof. rewrite lookup_fmap. destruct (m !! k) as [x|]; simpl; [|done]. intros [= <-]. by exists x. Qed.

(** Reading back keeps the invariant. *)
Lemma good_kept c s : good c -> good (kept c s).
Proof.
  intros [[K1 K2 K3 K4 K5 K6 K7 K8] G2 G3 G4 G5 G6 G7].
  assert (Hdom : forall z d, rc_Domains c !! z = Some d -> rc_Domains (kept c s) !! z = Some (kept_domain d)).
  { intros z d Hz. simpl. by rewrite lookup_fmap, Hz. }
  split; [split|..]; simpl; try assumption.
  - intros k v (x & Hx & ->)%lookup_kept. by apply (K4 k x).
  - intros k v (x & Hx & ->)%lookup_kept. by apply (K6 k x).
  - intros k v (x & Hx & ->)%lookup_kept. by apply (K7 k x).
  - intros k l (x & Hx & ->)%lookup_kept. destruct (K8 k x Hx) as [Hne Hl]. split; [by destruct x|].
    intros i m Hi. change (map kept_credential x) with (kept_credential <$> x) in Hi.
    rewrite list_lookup_fmap in Hi. destruct (x !! i) as [m0|] eqn:E; [|done]. injection Hi as <-. by apply (Hl i m0).
  - intros k r Hr. destruct (G3 k r Hr) as (z & d & Hz & U). exists z, (kept_domain d). split; [by apply Hdom|done].
  - intros k r h Hr Hh. destruct (G4 k r h Hr Hh) as [Hi|(z & d & Hz & U)]; [by left|right].
    exists z, (kept_domain d). split; [by apply Hdom|done].
  - intros k x (y & Hy & _)%lookup_kept. by apply (G7 k y).
Qed.

(** The rows of every gateway satisfy the invariant. *)
Definition inv (db : RoutingDB) : Prop := forall id s row, good (load_rows id s row db).

Definition preserves {A : Type} (f : mutation A) : Prop := forall c c' a, good c -> f c = Ok (c', a) -> good c'.

Lemma load_rows_same id s row db db' :
  (forall R (pick : Row -> option R), select pick id db' = select pick id db) -> load_rows id s row db' = load_rows id s row db.
Proof. intros Hs. unfold load_rows, load_rows_at. by rewrite !Hs. Qed.

Lemma loadCluster_rows id b db c : loadCluster id b db = Ok (Some c) -> exists s row, c = load_rows id s row db.
Proof.
  rewrite loadCluster_one. destruct (sql_first _ _) as [row|]; [|discriminate].
  destruct (if b then _ else _) as [s|e]; [|discriminate]. intros [= <-]. by exists s, row.
Qed.

Lemma update_inv {A} vs id (f : mutation A) db r db' :
  preserves f -> inv db -> update defaultEmail vs id f db = (r, db') -> inv db'.
Proof.
  intros Hf Hi U. apply update_cases in U as [->|(a & db0 & c & changed & valid & En & L & F & V & W)]; [done|].
  apply ensure_cluster_ok in En as (Hrows & _ & _).
  assert (Hsel : forall R (pick : Row -> option R) id', select pick id' db0 = select pick id' db).
  { intros R pick id'. unfold select. by rewrite Hrows. }
  assert (Hgood : good valid).
  { apply validate_ok in V as [-> _]. apply loadCluster_rows in L as (s & row & ->).
    apply (good_ext changed); [reflexivity..|]. eapply Hf; [|exact F].
    apply (good_ext (load_rows id s row db0)); [reflexivity..|].
    rewrite (load_rows_same id s row db db0); [apply Hi|]. intros. apply Hsel. }
  intros id' s row. destruct (ceq id id') eqn:E.
  - pose proof (load_rows_written id id' valid db0 db' s (mkClusterRow "" (json_settings (rc_Settings valid))
      (option_map json_cutover (rc_Cutover valid)) (option_map json_rollback (rc_CutoverRollback valid)))
      E W (good_keyed valid Hgood) eq_refl eq_refl eq_refl) as Hr.
    eapply (good_ext (kept valid s)); [rewrite <- Hr; reflexivity..|]. by apply good_kept.
  - rewrite (load_rows_same id' s row db db'); [apply Hi|]. intros R pick.
    by rewrite (select_other pick id id' valid db0 db' E W), Hsel.
Qed.

(** ** Each mutation keeps the invariant *)

Lemma change_preserves (f : routingCluster -> routingCluster) : (forall c, good c -> good (f c)) -> preserves (change f).
Proof. intros Hf c c' a Hc [= <- _]. by apply Hf. Qed.

Lemma guarded_preserves g (f : routingCluster -> routingCluster) :
  (forall c, good c -> (forall x, In x (g c) -> fst x = false) -> good (f c)) -> preserves (guarded g f).
Proof.
  intros Hf c c' a Hc. unfold guarded. destruct (guards (g c)) as [[]|e] eqn:G; [|discriminate]. intros [= <- _].
  apply Hf; [done|]. by apply guards_ok.
Qed.

Lemma values_In {A} (m : gmap string A) x : In x (values m) <-> exists k, m !! k = Some x.
Proof.
  unfold values. rewrite in_map_iff. split.
  - intros ([k y] & <- & Hin). exists k. by apply ranged_In.
  - intros [k Hk]. exists (k, x). split; [done|]. by apply ranged_In.
Qed.

Lemma accepted_by (m : gmap string DomainSpec) host :
  is_Some (acceptedZone (values m) host) <->
  exists z d, m !! z = Some d /\ under (host_form host) (host_form (dm_Zone d)) = true.
Proof.
  rewrite acceptedZone_iff. split.
  - intros (d & [z Hz]%values_In & U). by exists z, d.
  - intros (z & d & Hz & U). exists d. split; [apply values_In; by exists z|done].
Qed.

Lemma hostOverlap_sym a b : hostOverlap a b = hostOverlap b a.
Proof.
  apply eq_true_iff_eq. unfold hostOverlap. rewrite !existsb_exists.
  split; intros (x & Hin & Hx); apply existsb_exists in Hx as (y & Hy & E); apply String.eqb_eq in E as <-;
    exists x; (split; [done|]); apply existsb_exists; exists x; by rewrite String.eqb_refl.
Qed.

Lemma pathOverlap_sym a b : pathOverlap a b = pathOverlap b a.
Proof. unfold pathOverlap. apply orb_comm. Qed.

Lemma conflicts_sym a b : conflicts a b = conflicts b a.
Proof.
  unfold conflicts, is_http.
  rewrite (String.eqb_sym (rt_ServiceKey b)), (String.eqb_sym (rt_Protocol b) (rt_Protocol a)), (Z.eqb_sym (rt_ListenPort b)).
  rewrite (hostOverlap_sym (rm_Hosts (rt_Match b))), (pathOverlap_sym (rm_PathPrefix (rt_Match b))).
  rewrite (andb_comm (rt_Protocol b =? RouteHTTP)%string).
  destruct (String.eqb_spec (rt_Protocol a) (rt_Protocol b)) as [->|]; [done|]. by rewrite !andb_false_r.
Qed.

Lemma conflict_guards_ok route key existing :
  key <> rt_Key route -> (forall x, In x (conflict_guards route (key, existing)) -> fst x = false) -> conflicts existing route = false.
Proof.
  intros Hne Hg. unfold conflict_guards in Hg. simpl in Hg. apply String.eqb_neq in Hne. rewrite Hne in Hg.
  pose proof (Hg _ (or_introl eq_refl)) as G1. pose proof (Hg _ (or_intror (or_introl eq_refl))) as G2.
  pose proof (Hg _ (or_intror (or_intror (or_introl eq_refl)))) as G3. simpl in G1, G2, G3. clear Hg.
  unfold conflicts. rewrite G1. simpl. unfold is_http in *.
  destruct (String.eqb_spec (rt_Protocol existing) (rt_Protocol route)) as [E|E].
  - rewrite E in *. rewrite G2. simpl. destruct (rt_Protocol route =? RouteHTTP)%string; simpl in *; done.
  - rewrite andb_false_r. simpl. destruct (rt_Protocol existing =? RouteHTTP)%string, (rt_Protocol route =? RouteHTTP)%string; simpl in *; done.
Qed.

Lemma has_target_insert c r t : has_target c t = true -> has_target (with_routes (fun m => <[rt_Key r := r]> m) c) t = true.
Proof.
  unfold has_target. simpl. rewrite !orb_true_iff. intros [Ht|Ht]; [left|by right].
  destruct (decide (rt_Key r = t)) as [<-|Hne]; [by rewrite lookup_insert_eq|by rewrite lookup_insert_ne].
Qed.

Lemma put_route_preserves route :
  preserves (guarded (put_route_guards route) (with_routes (fun m => <[rt_Key route := route]> m))).
Proof.
  apply guarded_preserves. intros c [[K1 K2 K3 K4 K5 K6 K7 K8] G2 G3 G4 G5 G6 G7] Hg. unfold put_route_guards in Hg.
  assert (Hadm : ValidateRouteAdmission route (values (rc_DNSRecords c)) (values (rc_Domains c)) = Ok tt).
  { apply failing_ok. apply Hg. by right; left. }
  assert (Hcon : forall k r, rc_Routes c !! k = Some r -> k <> rt_Key route -> conflicts r route = false).
  { intros k r Hk Hne. eapply conflict_guards_ok; [exact Hne|]. intros x Hx. apply Hg. do 2 right.
    apply in_flat_map. exists (k, r). split; [by apply ranged_In|done]. }
  split; [split|..]; simpl; try assumption.
  - intros k v Hk. apply lookup_insert_Some in Hk as [[<- <-]|[_ Hk]]; [done|by apply K1].
  - intros k1 k2 r1 r2 L1 L2 Hne. apply lookup_insert_Some in L1 as [[<- <-]|[N1 L1]]; apply lookup_insert_Some in L2 as [[<- <-]|[N2 L2]].
    + done.
    + rewrite conflicts_sym. by apply (Hcon k2).
    + by apply (Hcon k1).
    + by apply (G2 k1 k2).
  - intros k r h Hk Hh. apply lookup_insert_Some in Hk as [[<- <-]|[_ Hk]]; [|by apply (G4 k r)].
    destruct (admission_hosts _ _ _ h Hadm Hh) as [Hi|Ha]; [by left|right]. by apply accepted_by.
  - intros k b Hk. by apply has_target_insert, (G5 k).
  - intros k x Hk. destruct (decide (rt_Key route = k)) as [<-|Hne]; [by rewrite lookup_insert_eq|]. rewrite lookup_insert_ne by done. by apply (G7 k x).
Qed.

Lemma remove_route_preserves key : preserves (guarded (remove_route_guards key) (drop_route key)).
Proof.
  apply guarded_preserves. intros c [[K1 K2 K3 K4 K5 K6 K7 K8] G2 G3 G4 G5 G6 G7] Hg.
  assert (Hfree : forall k b, rc_Bindings c !! k = Some b -> db_TargetRoute b <> key).
  { intros k b Hk. apply String.eqb_neq. apply (Hg (_, ErrRouteBound (db_Name b))).
    apply in_map_iff. exists (k, b). split; [done|]. by apply ranged_In. }
  split; [split|..]; simpl; try assumption.
  - intros k v [_ Hk]%lookup_delete_Some. by apply K1.
  - intros k v [_ Hk]%lookup_delete_Some. by apply K6.
  - intros k v [_ Hk]%lookup_delete_Some. by apply K7.
  - intros k1 k2 r1 r2 [_ L1]%lookup_delete_Some [_ L2]%lookup_delete_Some. by apply (G2 k1 k2).
  - intros k r h [_ Hk]%lookup_delete_Some. by apply (G4 k r).
  - intros k b Hk. pose proof (G5 k b Hk) as Ht. pose proof (Hfree k b Hk) as Hne. unfold has_target in *. simpl.
    by rewrite lookup_delete_ne by congruence.
  - intros k x [Hne Hk]%lookup_delete_Some. rewrite lookup_delete_ne by done. by apply (G7 k x).
Qed.

Lemma put_binding_preserves b :
  preserves (guarded (put_binding_guards b) (with_bindings (fun m => <[dependencyBindingKey b := b]> m))).
Proof.
  apply guarded_preserves. intros c [[K1 K2 K3 K4 K5 K6 K7 K8] G2 G3 G4 G5 G6 G7] Hg.
  assert (Ht : has_target c (db_TargetRoute b) = true). { apply negb_false_iff. apply (Hg _ (or_introl eq_refl)). }
  assert (Hn : forall k x, rc_Bindings c !! k = Some x -> k <> dependencyBindingKey b -> db_CallerService x = db_CallerService b ->
    db_Name x = db_Name b -> db_Name b = "").
  { intros k x Hk Hne Hc Hnm. assert (Hin : In (k, x) (ranged (rc_Bindings c))) by by apply ranged_In.
    assert (Hx := Hg _ (or_intror (in_map _ _ _ Hin))). simpl in Hx. apply String.eqb_neq in Hne.
    rewrite Hne, Hc, Hnm, !String.eqb_refl in Hx. simpl in Hx. rewrite !andb_true_r in Hx. by apply negb_false_iff, String.eqb_eq in Hx. }
  split; [split|..]; simpl; try assumption.
  - intros k v Hk. apply lookup_insert_Some in Hk as [[<- <-]|[_ Hk]]; [done|by apply K2].
  - intros k x Hk. apply lookup_insert_Some in Hk as [[<- <-]|[_ Hk]]; [done|by apply (G5 k)].
  - intros k1 k2 b1 b2 L1 L2 Hne Hc Hnm.
    apply lookup_insert_Some in L1 as [[<- <-]|[N1 L1]]; apply lookup_insert_Some in L2 as [[<- <-]|[N2 L2]].
    + done.
    + by apply (Hn k2 b2).
    + rewrite Hnm. by apply (Hn k1 b1).
    + by apply (G6 k1 k2 b1 b2).
Qed.

Lemma remove_binding_preserves k0 : preserves (change (with_bindings (delete k0))).
Proof.
  apply change_preserves. intros c [[K1 K2 K3 K4 K5 K6 K7 K8] G2 G3 G4 G5 G6 G7]. split; [split|..]; simpl; try assumption.
  - intros k v [_ Hk]%lookup_delete_Some. by apply K2.
  - intros k b [_ Hk]%lookup_delete_Some. by apply (G5 k).
  - intros k1 k2 b1 b2 [_ L1]%lookup_delete_Some [_ L2]%lookup_delete_Some. by apply (G6 k1 k2).
Qed.

Lemma declaration_preserves d : preserves (change (with_declarations (fun m => <[sd_ServiceKey d := d]> m))).
Proof.
  apply change_preserves. intros c [[K1 K2 K3 K4 K5 K6 K7 K8] G2 G3 G4 G5 G6 G7]. split; [split|..]; simpl; try assumption.
  intros k v Hk. apply lookup_insert_Some in Hk as [[<- <-]|[_ Hk]]; [done|by apply K3].
Qed.

Lemma runtime_preserves r : preserves (change (with_runtime (fun m => <[rr_RouteKey r := r]> m))).
Proof.
  apply change_preserves. intros c [[K1 K2 K3 K4 K5 K6 K7 K8] G2 G3 G4 G5 G6 G7]. split; [split|..]; simpl; try assumption.
  intros k v Hk. apply lookup_insert_Some in Hk as [[<- <-]|[_ Hk]]; [done|by apply K7].
Qed.

Lemma certificate_preserves x :
  preserves (guarded (fun cl => [refuse (match rc_Routes cl !! ct_RouteKey x with Some _ => false | None => true end) "certificate route was not found"])
               (with_certificates (fun m => <[ct_RouteKey x := x]> m))).
Proof.
  apply guarded_preserves. intros c [[K1 K2 K3 K4 K5 K6 K7 K8] G2 G3 G4 G5 G6 G7] Hg.
  assert (Hr := Hg _ (or_introl eq_refl)). simpl in Hr. split; [split|..]; simpl; try assumption.
  - intros k v Hk. apply lookup_insert_Some in Hk as [[<- <-]|[_ Hk]]; [done|by apply K6].
  - intros k v Hk. apply lookup_insert_Some in Hk as [[<- <-]|[_ Hk]]; [|by apply (G7 k v)].
    destruct (rc_Routes c !! ct_RouteKey x); [by eexists|done].
Qed.

Lemma settings_preserves (f : routingCluster -> routingCluster) :
  (forall c, exists s p1 p2, f c = with_settings s (with_plans p1 p2 c)) -> preserves (change f).
Proof. intros Hf. apply change_preserves. intros c Hc. destruct (Hf c) as (s & p1 & p2 & ->). by apply (good_ext c). Qed.

(** *** Credentials *)

Definition numbered (k : string) (l : list DNSCredentialMetadata) : Prop :=
  l <> [] /\ forall i m, l !! i = Some m -> dc_ID m = k /\ dc_Version m = Z.of_nat i + 1.

Lemma good_credentials c id l s : good c -> numbered id l -> good (with_credentials (fun m => <[id := l]> m) (with_secrets s c)).
Proof.
  intros [[K1 K2 K3 K4 K5 K6 K7 K8] G2 G3 G4 G5 G6 G7] Hl. split; [split|..]; simpl; try assumption.
  intros k v Hk. apply lookup_insert_Some in Hk as [[<- <-]|[_ Hk]]; [done|by apply K8].
Qed.

Lemma versions_numbered c id i m : good c -> default [] (rc_Credentials c !! id) !! i = Some m -> dc_ID m = id /\ dc_Version m = Z.of_nat i + 1.
Proof.
  intros Hc. destruct (rc_Credentials c !! id) as [l|] eqn:E; simpl; [|done].
  intros Hi. by apply (keyed_credentials c (good_keyed c Hc) id l E).
Qed.

Lemma alter_numbered c id i f :
  good c -> (i < List.length (default [] (rc_Credentials c !! id)))%nat ->
  (forall m, dc_ID (f m) = dc_ID m /\ dc_Version (f m) = dc_Version m) -> numbered id (alter f i (default [] (rc_Credentials c !! id))).
Proof.
  intros Hc Hlt Hf. split.
  - intros E. apply (f_equal List.length) in E. rewrite length_alter in E. simpl in E. lia.
  - intros j m Hj. destruct (decide (i = j)) as [<-|Hne].
    + rewrite list_lookup_alter_eq in Hj. destruct (_ !! i) as [m0|] eqn:E; [|done]. injection Hj as <-.
      destruct (Hf m0) as [-> ->]. by apply (versions_numbered c).
    + rewrite list_lookup_alter_ne in Hj by done. by apply (versions_numbered c).
Qed.

Lemma rotate_preserves now id name provider identity value : preserves (rotate now id name provider identity value).
Proof.
  intros c c' a Hc. unfold rotate. destruct (guards _) as [[]|e]; [|discriminate]. intros [= <- _].
  apply (good_ext (with_credentials (fun m => <[id := default [] (rc_Credentials c !! id) ++ [mkCredential (di_AccountID identity)
    (truncate microsecond now) (di_Email identity) id name provider
    (secretNameOf provider id (Z.of_nat (List.length (default [] (rc_Credentials c !! id))) + 1)) "sealed" None
    (Z.of_nat (List.length (default [] (rc_Credentials c !! id))) + 1)]]> m) (with_secrets (fun m => m) c))); [reflexivity..|].
  apply good_credentials; [done|]. split; [by destruct (default _ _)|].
  intros i m Hi. apply lookup_app_Some in Hi as [Hi|[Hle Hi]]; [by apply (versions_numbered c)|].
  apply list_lookup_singleton_Some in Hi as [Hi <-]. simpl. split; [done|]. lia.
Qed.

Lemma mark_preserves now id version : preserves (mark_validated now id version).
Proof.
  intros c c' a Hc. unfold mark_validated. destruct (_ || _) eqn:B; [discriminate|]. intros [= <- _].
  apply orb_false_iff in B as [B1 B2]. apply (good_credentials c _ _ (fun m => m)); [done|]. apply alter_numbered; [done|lia|done].
Qed.

Lemma remove_version_preserves id version : preserves (remove_version id version).
Proof.
  intros c c' a Hc. unfold remove_version. destruct (_ || _) eqn:B; [discriminate|]. destruct (version =? _); [discriminate|].
  destruct (_ !! Z.to_nat (version - 1)); [|discriminate]. intros [= <- _].
  apply orb_false_iff in B as [B1 B2]. apply good_credentials; [done|]. apply alter_numbered; [done|lia|done].
Qed.

(** *** Records and domains *)

Lemma put_record_preserves r : preserves (guarded (put_record_guards r) (with_records (fun m => <[dr_ID r := r]> m))).
Proof.
  apply guarded_preserves. intros c [[K1 K2 K3 K4 K5 K6 K7 K8] G2 G3 G4 G5 G6 G7] Hg.
  assert (Ha : ValidateDomainAdmission r (values (rc_Domains c)) = Ok tt). { apply failing_ok. apply Hg. by left. }
  split; [split|..]; simpl; try assumption.
  - intros k v Hk. apply lookup_insert_Some in Hk as [[<- <-]|[_ Hk]]; [done|by apply K5].
  - intros k v Hk. apply lookup_insert_Some in Hk as [[<- <-]|[_ Hk]]; [|by apply (G3 k)].
    by apply domain_admission_iff, accepted_by in Ha.
Qed.

Lemma remove_record_preserves id : preserves (remove_record id).
Proof.
  intros c c' a Hc. unfold remove_record. destruct (rc_DNSRecords c !! id); [|by intros [= <- _]].
  destruct (guards _) as [[]|e]; [|discriminate]. intros [= <- _].
  destruct Hc as [[K1 K2 K3 K4 K5 K6 K7 K8] G2 G3 G4 G5 G6 G7]. split; [split|..]; simpl; try assumption.
  - intros k v [_ Hk]%lookup_delete_Some. by apply K5.
  - intros k v [_ Hk]%lookup_delete_Some. by apply (G3 k).
Qed.

Lemma put_domain_preserves now d : preserves (change (put_domain now d)).
Proof.
  apply change_preserves. intros c [[K1 K2 K3 K4 K5 K6 K7 K8] G2 G3 G4 G5 G6 G7].
  assert (Hmono : forall h, (exists z x, rc_Domains c !! z = Some x /\ under h (host_form (dm_Zone x)) = true) ->
    exists z x, rc_Domains (put_domain now d c) !! z = Some x /\ under h (host_form (dm_Zone x)) = true).
  { intros h (z & x & Hz & U). unfold put_domain. simpl. destruct (decide (dm_Zone d = z)) as [<-|Hne].
    - eexists _, _. split; [apply lookup_insert_eq|]. simpl. by rewrite (K4 _ _ Hz) in U.
    - exists z, x. by rewrite lookup_insert_ne. }
  split; [split|..]; simpl; try assumption.
  - intros k v Hk. apply lookup_insert_Some in Hk as [[<- <-]|[_ Hk]]; [done|by apply K4].
  - intros k r Hr. by apply Hmono, (G3 k).
  - intros k r h Hr Hh. destruct (G4 k r h Hr Hh) as [Hi|Ha]; [by left|right]. by apply Hmono.
Qed.

Lemma remaining_accepted (m : gmap string DomainSpec) zone host :
  is_Some (acceptedZone (map snd (List.filter (fun kv => negb (fst kv =? zone)%string) (ranged m))) host) ->
  exists z d, delete zone m !! z = Some d /\ under (host_form host) (host_form (dm_Zone d)) = true.
Proof.
  rewrite acceptedZone_iff. intros (d & Hin & U). apply in_map_iff in Hin as ([z x] & E & Hin). simpl in E. subst x.
  apply List.filter_In in Hin as [Hin Hne]. apply ranged_In in Hin. simpl in Hne. apply negb_true_iff, String.eqb_neq in Hne.
  exists z, d. split; [|done]. by rewrite lookup_delete_ne by congruence.
Qed.

Lemma remove_domain_preserves zone : preserves (remove_domain zone).
Proof.
  intros c c' a Hc. unfold remove_domain. destruct (rc_Domains c !! zone); [|by intros [= <- _]].
  destruct (guards _) as [[]|e] eqn:G; [|discriminate]. intros [= <- _]. rewrite guards_ok in G.
  destruct Hc as [[K1 K2 K3 K4 K5 K6 K7 K8] G2 G3 G4 G5 G6 G7]. split; [split|..]; simpl; try assumption.
  - intros k v [_ Hk]%lookup_delete_Some. by apply K4.
  - intros k r Hr. apply remaining_accepted. apply ranged_In in Hr.
    assert (Hx := G _ (in_or_app _ _ _ (or_introl (in_map _ _ _ Hr)))). simpl in Hx.
    destruct (acceptedZone _ _); [by eexists|done].
  - intros k r h Hr Hh. apply ranged_In in Hr. assert (Hx := G _ (in_or_app _ _ _ (or_intror (in_map _ _ _ Hr)))). simpl in Hx.
    destruct (ValidateRouteAdmission _ _ _) as [[]|e] eqn:V; [|done].
    destruct (admission_hosts _ _ _ h V Hh) as [Hi|Ha]; [by left|right]. by apply remaining_accepted.
Qed.

(** ** Every reachable state *)

Lemma call_inv vs id o db r db' : inv db -> call vs id o db = (r, db') -> inv db'.
Proof.
  intros Hi. assert (Hup : forall A (f : mutation A) r0, preserves f -> update defaultEmail vs id f db = (r0, db') -> inv db').
  { intros A f r0 Hf. by apply update_inv. }
  assert (Hfail : forall e, tx_fail (S := RoutingDB) (A := unit) (e : rerr) db = (r, db') -> inv db'). { by intros e [= _ <-]. }
  destruct o as [d|s|route|key|b|caller target name|now id' name provider identity secret|now id' version|id' version|record protocol|id'
                |now d|zone|x|now x|p|p|]; simpl.
  - unfold PutDeclaration, when_ok. destruct (ServiceRouteDeclaration_Validate _); [|by apply Hfail]. apply Hup, declaration_preserves.
  - unfold PutSettings, when_ok. destruct (TraefikSettings_Validate _); [|by apply Hfail]. apply Hup, settings_preserves.
    intros c. by exists (TraefikSettings_Normalize s), (rc_Cutover c), (rc_CutoverRollback c).
  - unfold PutRoute, when_ok. destruct (RouteSpec_Validate _); [|by apply Hfail]. apply Hup, put_route_preserves.
  - unfold RemoveRoute. destruct (negb _); [by apply Hfail|]. apply Hup, remove_route_preserves.
  - unfold PutBinding, when_ok. destruct (DependencyBinding_Validate _); [|by apply Hfail]. apply Hup, put_binding_preserves.
  - unfold RemoveBinding. destruct (_ || _); [by apply Hfail|]. apply Hup, remove_binding_preserves.
  - unfold ignore_value, RotateCredential. destruct (guards _); [|by intros [= _ <-]]. intros U. unfold tx_bind in U.
    destruct (update _ _ _ _ db) as [[m|e] db1] eqn:W; injection U as _ <-; revert W; apply update_inv; try done; apply rotate_preserves.
  - apply Hup, mark_preserves.
  - apply Hup, remove_version_preserves.
  - unfold PutDNSRecord, when_ok. destruct (DNSRecordSpec_Validate _ _); [|by apply Hfail]. apply Hup, put_record_preserves.
  - apply Hup, remove_record_preserves.
  - unfold PutDomain, when_ok. destruct (DomainSpec_Validate _); [|by apply Hfail]. apply Hup, put_domain_preserves.
  - apply Hup, remove_domain_preserves.
  - unfold PutCertificate. destruct (_ || _); [by apply Hfail|]. apply Hup, certificate_preserves.
  - unfold PutRuntime. destruct (_ || _); [by apply Hfail|]. apply Hup, runtime_preserves.
  - unfold PutCutover. destruct (negb _); [by apply Hfail|]. apply Hup, settings_preserves. intros c. by eexists (rc_Settings c), _, _.
  - unfold PutCutoverRollback. destruct (negb _); [by apply Hfail|]. apply Hup, settings_preserves. intros c. by eexists (rc_Settings c), _, _.
  - apply Hup, settings_preserves. intros c. by eexists (rc_Settings c), _, _.
Qed.

Lemma fresh_inv : inv fresh_db.
Proof. intros id s row. split; [split|..]; simpl; intros *; try (intros Hk; by rewrite ?lookup_empty in Hk). Qed.

Lemma reachable_inv db : reachable db -> inv db.
Proof. induction 1 as [|db vs id o r db' _ IH C]; [apply fresh_inv|]. by eapply call_inv. Qed.

End Invariants.
