(* ===== verification/RoutingTheorems.v ===== *)
(** * What the routing store guarantees

    The properties of every reachable routing state, as the database holds it;
    rotation of DNS credentials; and the port allocator. *)

From Stdlib Require Import ZArith Lia Bool Ascii String.
From stdpp Require Import base tactics list strings gmap.
From S2P Require Import Prelude GoStrings Sqlstore Ledger GoText RoutingTypes RoutingDomain RoutingRows RoutingRoundTrip RoutingStore RoutingInvariants.

Local Open Scope string_scope.
Local Open Scope list_scope.
Local Open Scope bool_scope.
Local Open Scope Z_scope.
Local Open Scope tx_scope.

(** ** Sorting *)

Lemma insert_sorted_perm {A} (before : A -> A -> bool) x l : insert_sorted before x l ≡ₚ x :: l.
Proof. induction l as [|y l IH]; simpl; [done|]. case_match; [|done]. rewrite IH. apply perm_swap. Qed.

Lemma sort_slice_perm {A} (before : A -> A -> bool) l : sort_slice before l ≡ₚ l.
Proof. induction l as [|x l IH]; simpl; [done|]. by rewrite insert_sorted_perm, IH. Qed.

Lemma sort_slice_In {A} (before : A -> A -> bool) l x : In x (sort_slice before l) <-> In x l.
Proof. rewrite <- !list_elem_of_In. by rewrite sort_slice_perm. Qed.

(** ** The port allocator *)

Lemma first_free_spec fuel used port last :
  0 <= port -> last < 65535 -> Z.max 0 (last - port + 1) < Z.of_nat fuel ->
  exists r, first_free fuel used port last = Some r /\
    match r with
    | Some p => port <= p <= last /\ port_used used p = false /\ forall q, port <= q < p -> port_used used q = true
    | None => forall q, port <= q <= last -> port_used used q = true
    end.
Proof.
  revert port. induction fuel as [|fuel IH]; intros port Hp Hl Hf; [lia|]. simpl.
  destruct (Z.leb_spec port last) as [Hle|Hgt]; [|exists None; split; [done|lia]].
  destruct (port_used used port) eqn:U; simpl; [|exists (Some port); split; [done|]; split; [lia|]; split; [done|lia]].
  rewrite Z.mod_small by lia. destruct (IH (port + 1)) as (r & -> & Hr); [lia..|]. exists r. split; [done|].
  assert (Hstep : forall q, port <= q -> q = port \/ port + 1 <= q) by lia.
  destruct r as [p|].
  - destruct Hr as (Hr & Hfree & Hall). split; [lia|]. split; [done|]. intros q [Hq Hqp].
    destruct (Hstep q Hq) as [->|Hq']; [done|]. apply Hall. lia.
  - intros q [Hq Hql]. destruct (Hstep q Hq) as [->|Hq']; [done|]. apply Hr. lia.
Qed.

Section Ports.
Context `{CaseTable}.

(** The port belongs to another route of the protocol, or to an entry point of
    it that is not the route's own. *)
Definition taken (s : TraefikSettings) (protocol : string) (routes : list RouteSpec) (own : string) (p : Z) : Prop :=
  (exists r, In r routes /\ rt_Protocol r = protocol /\ rt_ListenPort r = p) \/
  (exists e, In e (ts_EntryPoints s) /\ ep_Protocol e = protocol /\ ep_Port e = p /\ (own = "" \/ ep_Name e <> own)).

Lemma port_used_iff s protocol routes own p :
  p <> 0 -> (port_used (used_ports s protocol routes own) p = true <-> taken s protocol routes own p).
Proof.
  intros Hp. unfold port_used, used_ports, taken. rewrite existsb_app, orb_true_iff, !existsb_exists. split.
  - intros [(q & Hin & E)|(q & Hin & E)]; apply Z.eqb_eq in E as <-; apply in_map_iff in Hin as (x & <- & Hin);
      apply List.filter_In in Hin as [Hin Hx]; apply andb_true_iff in Hx as [Hx Hy]; apply String.eqb_eq in Hx; [left|right].
    + by exists x.
    + exists x. repeat (split; [done|]). apply orb_true_iff in Hy as [Hy|Hy]; [left; by apply String.eqb_eq|right].
      by apply negb_true_iff, String.eqb_neq in Hy.
  - intros [(r & Hin & E1 & E2)|(e & Hin & E1 & E2 & Ho)]; [left|right]; exists p; (split; [|apply Z.eqb_refl]); apply in_map_iff.
    + exists r. split; [done|]. apply List.filter_In. split; [done|]. apply String.eqb_eq in E1. rewrite E1. simpl.
      apply negb_true_iff, Z.eqb_neq. by rewrite E2.
    + exists e. split; [done|]. apply List.filter_In. split; [done|]. apply String.eqb_eq in E1. rewrite E1. simpl.
      apply orb_true_iff. destruct Ho as [->|Hne]; [by left|right]. by apply negb_true_iff, String.eqb_neq.
Qed.

Lemma valid_range s :
  TraefikSettings_Validate s = Ok tt ->
  RoutePortMin <= ts_PortStart (TraefikSettings_Normalize s) <= ts_PortEnd (TraefikSettings_Normalize s) /\
  ts_PortEnd (TraefikSettings_Normalize s) <= RoutePortMax.
Proof.
  unfold TraefikSettings_Validate. rewrite guards_ok. generalize (TraefikSettings_Normalize s). clear s. intros s Hg.
  assert (Hr : (ts_PortStart s <? RoutePortMin) || (RoutePortMax <? ts_PortEnd s) || (ts_PortEnd s <? ts_PortStart s) = false); [|lia].
  apply (Hg (_, Refuse "Traefik route port range must stay within 10000-19999")). apply in_or_app. left. do 6 right. by left.
Qed.

(** The port allocator always answers, and answers right.  With valid
    settings and a protocol other than HTTP the search over the [uint16] range
    ends; a port it returns lies in the configured range and is held by no
    other route of the protocol and by no other entry point, it is the one
    requested when one was, and otherwise the lowest such port; and it refuses
    only when the requested port is outside the range or taken, or when every
    port of the range is. *)
Theorem AllocateRoutePort_spec settings protocol routes requested own :
  TraefikSettings_Validate settings = Ok tt -> protocol <> RouteHTTP ->
  let s := TraefikSettings_Normalize settings in
  let held := taken s protocol routes (TrimSpace own) in
  exists res, AllocateRoutePort settings protocol routes requested own = Some res /\
    match res with
    | Ok p => ts_PortStart s <= p <= ts_PortEnd s /\ ~ held p /\ (requested <> 0 -> p = requested) /\
              (requested = 0 -> forall q, ts_PortStart s <= q < p -> held q)
    | Err _ => if requested =? 0 then forall q, ts_PortStart s <= q <= ts_PortEnd s -> held q
               else ~ (ts_PortStart s <= requested <= ts_PortEnd s) \/ held requested
    end.
Proof.
  intros Hv Hp s held. apply valid_range in Hv as [Hlo Hhi]. fold s in Hlo, Hhi. unfold RoutePortMin, RoutePortMax in *.
  assert (Hheld : forall q, ts_PortStart s <= q -> port_used (used_ports s protocol routes (TrimSpace own)) q = true <-> held q).
  { intros q Hq. apply port_used_iff. lia. }
  unfold AllocateRoutePort. fold s. apply String.eqb_neq in Hp. rewrite Hp.
  assert (Hfuel : Z.of_nat (Z.to_nat 65537) = 65537) by (apply Z2Nat.id; lia). revert Hfuel. generalize (Z.to_nat 65537). intros fuel Hfuel.
  destruct (Z.eqb_spec requested 0) as [->|Hr]; cbn [negb].
  - destruct (first_free_spec fuel (used_ports s protocol routes (TrimSpace own)) (ts_PortStart s) (ts_PortEnd s))
      as (r & -> & Hspec); [lia..|]. destruct r as [p|]; eexists; (split; [reflexivity|]).
    + destruct Hspec as (Hrange & Hfree & Hall). split; [done|]. split; [rewrite <- Hheld by lia; by rewrite Hfree|].
      split; [done|]. intros _ q Hq. apply Hheld; [lia|]. by apply Hall.
    + intros q Hq. apply Hheld; [lia|]. by apply Hspec.
  - destruct ((requested <? ts_PortStart s) || (ts_PortEnd s <? requested)) eqn:R; [eexists; split; [reflexivity|]; left; lia|].
    assert (ts_PortStart s <= requested <= ts_PortEnd s) by lia.
    destruct (port_used _ requested) eqn:U; eexists; (split; [reflexivity|]).
    + right. apply Hheld; [lia|done].
    + split; [done|]. split; [rewrite <- Hheld by lia; by rewrite U|]. done.
Qed.

End Ports.

(** ** Reachable states *)

Section Reachable.
Context `{CaseTable} `{Collation} `{MapOrder} `{Clock6}.
Variable defaultEmail : string.

(** The state of a gateway is what its rows give, or nothing yet. *)
Lemma snapshot_state db id st :
  reachable defaultEmail db -> stored_state defaultEmail id db = Ok st ->
  exists c, good c /\ st_Routes st ≡ₚ values (rc_Routes c) /\ st_Bindings st ≡ₚ values (rc_Bindings c) /\
    st_DNSRecords st ≡ₚ values (rc_DNSRecords c) /\ st_Domains st ≡ₚ values (rc_Domains c) /\
    st_Certificates st ≡ₚ values (rc_Certificates c).
Proof.
  intros Hr. unfold stored_state, Snapshot. fold (loadCluster id false db). destruct (negb (validClusterID id)); [discriminate|].
  destruct (loadCluster id false db) as [[c|]|[e|e]] eqn:L; [..|discriminate|discriminate]; intros [= <-].
  - apply loadCluster_rows in L as (s & row & ->). exists (load_rows id s row db). split; [by apply (reachable_inv defaultEmail)|].
    cbn [publicRoutingState st_Routes st_Bindings st_DNSRecords st_Domains st_Certificates]. rewrite !sort_slice_perm. done.
  - exists (load_rows "" ∅ (mkClusterRow "" (DefaultTraefikSettings defaultEmail) None None) fresh_db).
    split; [apply fresh_inv|]. cbn [st_Routes st_Bindings st_DNSRecords st_Domains st_Certificates].
    assert (Hnil : forall A (m : gmap string A), m = ∅ -> [] ≡ₚ values m).
    { intros A m ->. unfold values. by rewrite ranged_perm, map_to_list_empty. }
    repeat split; by apply Hnil.
Qed.

Lemma perm_values_In {A} (l : list A) (m : gmap string A) x : l ≡ₚ values m -> In x l <-> exists k, m !! k = Some x.
Proof. intros E. rewrite <- values_In, <- !list_elem_of_In. by rewrite E. Qed.

(** C29. No two stored routes of a gateway are in conflict.  After any calls of
    the store (other than the one-time import of a file) with any outcomes, the
    database holds each route key of a gateway once, and no two of its routes
    serve the same service over the same protocol, listen on the same stream
    port, or are HTTP routes with a host in common, as the hosts are stored, and
    overlapping paths.  This is of each state of the database: the statements of
    one [Snapshot] can read different ones. *)
Theorem routes_never_conflict db id st :
  reachable defaultEmail db -> stored_state defaultEmail id db = Ok st ->
  NoDup (map rt_Key (st_Routes st)) /\
  (forall r1 r2, In r1 (st_Routes st) -> In r2 (st_Routes st) -> rt_Key r1 <> rt_Key r2 -> conflicts r1 r2 = false).
Proof.
  intros Hr Hs. destruct (snapshot_state db id st Hr Hs) as (c & Hc & ER & _). split.
  - change (map rt_Key (st_Routes st)) with (rt_Key <$> st_Routes st). rewrite ER. unfold values.
    change (NoDup (rt_Key <$> (snd <$> ranged (rc_Routes c)))). rewrite <- list_fmap_compose.
    rewrite (list_fmap_ext _ fst); [apply ranged_NoDup|]. intros i [k r] Hi. simpl.
    apply (keyed_routes c (good_keyed c Hc)). apply ranged_In, list_elem_of_In. by eapply list_elem_of_lookup_2.
  - intros r1 r2 [k1 L1]%(perm_values_In _ _ _ ER) [k2 L2]%(perm_values_In _ _ _ ER) Hne. apply (good_routes c Hc k1 k2); [done..|].
    intros <-. apply Hne. congruence.
Qed.

(** C30. No name is stored outside the accepted domains.  In every state of the
    database that the calls of the store lead to (other than the one-time import
    of a file), the name of each DNS record and each host or server name of each
    route, in the normal form the checks and the rendering use, is the name of
    an accepted zone of the gateway or ends in a dot and that name, unless it
    ends so in the zone reserved for SwarmOps' own aliases: neither adding nor
    withdrawing domains, records and routes in any order escapes this.  It is
    about the text of the name as a whole, which no check confines to the
    characters of a host name. *)
Theorem published_names_are_accepted db id st :
  reachable defaultEmail db -> stored_state defaultEmail id db = Ok st ->
  (forall r, In r (st_DNSRecords st) -> record_accepted (st_Domains st) r) /\
  (forall r h, In r (st_Routes st) -> In h (claimed r) -> host_accepted (st_Domains st) h).
Proof.
  intros Hr Hs. destruct (snapshot_state db id st Hr Hs) as (c & Hc & ER & _ & EN & ED & _).
  assert (Hacc : forall h, (exists z d, rc_Domains c !! z = Some d /\ under (host_form h) (host_form (dm_Zone d)) = true) ->
    is_Some (acceptedZone (st_Domains st) h)).
  { intros h (z & d & Hz & U). apply acceptedZone_iff. exists d. split; [|done]. apply (perm_values_In _ _ _ ED). by exists z. }
  split.
  - intros r [k Hk]%(perm_values_In _ _ _ EN). by apply Hacc, (good_records c Hc k).
  - intros r h [k Hk]%(perm_values_In _ _ _ ER) Hh. destruct (good_hosts c Hc k r h Hk Hh) as [Hi|Ha]; [by left|right]. by apply Hacc.
Qed.

(** Dependencies resolve.  In every stored state each binding targets a route of
    the state or one of the two platform metrics endpoints, two bindings of
    one caller never deliver under the same name (so neither overwrites the
    other), and each certificate belongs to a route. *)
Theorem dependencies_resolve db id st :
  reachable defaultEmail db -> stored_state defaultEmail id db = Ok st ->
  (forall b, In b (st_Bindings st) ->
     platformMetricsRoute (db_TargetRoute b) = true \/ exists r, In r (st_Routes st) /\ rt_Key r = db_TargetRoute b) /\
  (forall b1 b2, In b1 (st_Bindings st) -> In b2 (st_Bindings st) -> db_CallerService b1 = db_CallerService b2 ->
     db_Name b1 = db_Name b2 -> db_Name b1 <> "" -> b1 = b2) /\
  (forall x, In x (st_Certificates st) -> exists r, In r (st_Routes st) /\ rt_Key r = ct_RouteKey x).
Proof.
  intros Hr Hs. destruct (snapshot_state db id st Hr Hs) as (c & Hc & ER & EB & _ & _ & EC).
  assert (Hroute : forall k, is_Some (rc_Routes c !! k) -> exists r, In r (st_Routes st) /\ rt_Key r = k).
  { intros k [r Hk]. exists r. split; [apply (perm_values_In _ _ _ ER); by exists k|]. by apply (keyed_routes c (good_keyed c Hc)). }
  split; [|split].
  - intros b [k Hk]%(perm_values_In _ _ _ EB). pose proof (good_targets c Hc k b Hk) as Ht. unfold has_target in Ht.
    apply orb_true_iff in Ht as [Ht|Ht]; [right|by left]. apply Hroute. destruct (rc_Routes c !! _); [by eexists|done].
  - intros b1 b2 [k1 L1]%(perm_values_In _ _ _ EB) [k2 L2]%(perm_values_In _ _ _ EB) Hcall Hname Hne.
    destruct (decide (k1 = k2)) as [<-|Hk]; [congruence|]. exfalso. by apply Hne, (good_names c Hc k1 k2 b1 b2).
  - intros x [k Hk]%(perm_values_In _ _ _ EC). rewrite (keyed_certificates c (good_keyed c Hc) k x Hk).
    by apply Hroute, (good_certificates c Hc k x).
Qed.

(** ** Credentials *)

(** The version of a credential at an index, with its secret, in a state read. *)
Definition secret_at (c : routingCluster) (id : string) (i : nat) : option (DNSCredentialMetadata * string) :=
  match default [] (rc_Credentials c !! id) !! i with
  | Some m => match rc_Secrets c !! dc_SecretName m with
              | Some s => if (s =? "")%string then None else Some (m, s)
              | None => None
              end
  | None => None
  end.

Lemma CredentialSecret_some clusterID id v db p :
  1 <= v -> CredentialSecret clusterID id v db = Ok p <->
  validClusterID clusterID = true /\ exists c, loadCluster clusterID true db = Ok (Some c) /\ secret_at c (lowered id) (Z.to_nat (v - 1)) = Some p.
Proof.
  intros Hv. unfold CredentialSecret, CredentialSecret_at, secret_at. fold (loadCluster clusterID true db). destruct (validClusterID clusterID); simpl; [|split; [discriminate|by intros [? _]]].
  destruct (loadCluster clusterID true db) as [[c|]|[e|e]]; try (split; [discriminate|by intros (_ & c' & [=] & _)]).
  assert (Hle : (v <=? 0) = false) by lia. rewrite Hle.
  set (versions := default [] (rc_Credentials c !! lowered id)). split.
  - intros Hok. split; [done|]. exists c. split; [done|]. revert Hok. fold versions. destruct (_ || _); [discriminate|].
    repeat case_match; try discriminate. by intros [= <-].
  - intros (_ & c' & [= <-] & Hs). fold versions in Hs. revert Hs. destruct (versions !! Z.to_nat (v - 1)) as [m|] eqn:E; [|discriminate].
    apply lookup_lt_Some in E. assert (Hb : (v <? 1) || (Z.of_nat (List.length versions) <? v) = false) by lia. rewrite Hb.
    repeat case_match; try discriminate. by intros [= <-].
Qed.

(** Version 0 is the latest. *)
Lemma CredentialSecret_latest clusterID id db :
  CredentialSecret clusterID id 0 db =
  match loadCluster clusterID true db with
  | Ok (Some c) => let n := Z.of_nat (List.length (default [] (rc_Credentials c !! lowered id))) in
                   if n =? 0 then CredentialSecret clusterID id 0 db else CredentialSecret clusterID id n db
  | _ => CredentialSecret clusterID id 0 db
  end.
Proof.
  unfold CredentialSecret, CredentialSecret_at. fold (loadCluster clusterID true db). destruct (negb (validClusterID clusterID)); [by repeat case_match|].
  destruct (loadCluster clusterID true db) as [[c|]|[e|e]]; try done. simpl.
  destruct (Z.eqb_spec (Z.of_nat (List.length (default [] (rc_Credentials c !! lowered id)))) 0) as [E|E]; [done|].
  assert (Hle : (Z.of_nat (List.length (default [] (rc_Credentials c !! lowered id))) <=? 0) = false) by lia. by rewrite Hle.
Qed.

(** A successful rotation, seen from the states before and after it. *)
Lemma rotate_written vs now clusterID id name provider identity secret db m db' :
  reachable defaultEmail db -> RotateCredential defaultEmail vs now clusterID id name provider identity secret db = (Ok m, db') ->
  exists db0 c changed secrets,
    ensure_cluster defaultEmail clusterID db = (Ok tt, db0) /\ loadCluster clusterID true db0 = Ok (Some c) /\ good c /\
    rc_Credentials changed = <[lowered id := default [] (rc_Credentials c !! lowered id) ++ [m]]> (rc_Credentials c) /\
    rc_Secrets changed = <[dc_SecretName m := token_of provider secret]> (json_text <$> rc_Secrets c) /\
    (exists valid, writeCluster clusterID valid db0 = (Ok tt, db') /\ rc_Credentials valid = rc_Credentials changed /\
                   rc_Secrets valid = rc_Secrets changed) /\
    loadCluster clusterID true db' = Ok (Some (kept changed secrets)) /\
    (forall n v, secrets !! n = Some v <-> in_use changed n /\ rc_Secrets changed !! n = Some v /\ v <> "") /\
    dc_State m = "sealed" /\ dc_Version m = Z.of_nat (List.length (default [] (rc_Credentials c !! lowered id))) + 1 /\
    kept_credential m = m /\ token_of provider secret <> "" /\ validClusterID clusterID = true.
Proof.
  intros Hr. unfold RotateCredential. destruct (guards _) as [[]|e] eqn:G; [|discriminate]. rewrite guards_ok in G.
  intros U. assert (Hid : validClusterID clusterID = true).
  { revert U. unfold update. by destruct (validClusterID clusterID). }
  apply update_ok in U as (db0 & c & changed & valid & En & L & F & V & W).
  assert (Hc : good c).
  { apply loadCluster_rows in L as (s & row & ->). apply ensure_cluster_ok in En as (Hrows & _).
    rewrite (load_rows_same clusterID s row db db0); [by apply (reachable_inv defaultEmail)|]. intros R pick. unfold select. by rewrite Hrows. }
  assert (Hch : good changed). { eapply rotate_preserves; [|exact F]. by apply (good_ext c). }
  unfold rotate in F. destruct (guards _) as [[]|e]; [|discriminate]. injection F as <- <-.
  apply validate_ok in V as [-> _]. set (valid := normalizeRoutingCluster _ _) in W.
  assert (Hgv : good valid) by by eapply good_ext; [..|exact Hch].
  pose proof En as (_ & Hrow & _)%ensure_cluster_ok.
  destruct (load_written clusterID valid db0 db' W (good_keyed valid Hgv) Hrow) as (secrets & L' & Hs).
  exists db0, c, valid, secrets. split; [done|]. split; [done|]. split; [done|]. split; [done|]. split; [done|]. split; [by exists valid|].
  split; [done|]. split; [done|]. split; [done|]. split; [done|]. split; [|split; [|done]].
  - unfold kept_credential. simpl. by rewrite datetime6_whole by by apply truncate_divide.
  - intros E. assert (Hl := G _ (or_intror (or_intror (or_intror (or_introl eq_refl))))). by rewrite E in Hl.
Qed.

(** A gateway that has a state before the transaction is read as it was. *)
Lemma load_before clusterID b db db0 c1 c :
  ensure_cluster defaultEmail clusterID db = (Ok tt, db0) -> loadCluster clusterID b db = Ok (Some c1) ->
  loadCluster clusterID b db0 = Ok (Some c) -> c1 = c.
Proof.
  intros En L1 L. apply ensure_cluster_ok in En as (_ & _ & Hsame). rewrite Hsame in L; [congruence|].
  rewrite loadCluster_one in L1. destruct (sql_first _ _) as [row|] eqn:Fi; [|discriminate].
  apply sql_first_Some in Fi as [Hin Hrow]. apply sql_exists_true. by exists row.
Qed.

Lemma kept_secret_at changed secrets id i m s :
  default [] (rc_Credentials changed !! id) !! i = Some m -> secrets !! dc_SecretName m = Some s -> s <> "" ->
  secret_at (kept changed secrets) id i = Some (kept_credential m, s).
Proof.
  intros Hi Hs Hne. unfold secret_at. simpl. rewrite lookup_fmap. destruct (rc_Credentials changed !! id) as [l|]; simpl in *; [|done].
  change (map kept_credential l) with (kept_credential <$> l). rewrite list_lookup_fmap, Hi. simpl. rewrite Hs.
  apply String.eqb_neq in Hne. by rewrite Hne.
Qed.

Lemma in_use_lookup c id i m : default [] (rc_Credentials c !! id) !! i = Some m -> dc_State m <> "removed" -> in_use c (dc_SecretName m).
Proof.
  destruct (rc_Credentials c !! id) as [l|] eqn:E; [|done]. simpl. intros Hi Hm. exists id, l, m. repeat split; try done.
  apply list_elem_of_In. by eapply list_elem_of_lookup_2.
Qed.

(** Rotating a DNS credential adds a version and loses none.  After a
    successful rotation the new version, numbered after all earlier ones, is the
    latest and its secret reads back as the token that was given; and every
    secret of this or any other credential that could be read before, of a
    version not removed and in UTF-8, still reads the same under its version. *)
Theorem rotation_keeps_history vs now clusterID id name provider identity secret db m db' :
  reachable defaultEmail db -> RotateCredential defaultEmail vs now clusterID id name provider identity secret db = (Ok m, db') ->
  CredentialSecret clusterID id 0 db' = Ok (m, token_of provider secret) /\
  CredentialSecret clusterID id (dc_Version m) db' = Ok (m, token_of provider secret) /\
  (forall id2 v m0 s0, 1 <= v -> CredentialSecret clusterID id2 v db = Ok (m0, s0) -> dc_State m0 <> "removed" -> valid_utf8 s0 = true ->
     CredentialSecret clusterID id2 v db' = Ok (kept_credential m0, s0) /\ (lowered id2 = lowered id -> v < dc_Version m)).
Proof.
  intros Hr R. destruct (rotate_written _ _ _ _ _ _ _ _ _ _ _ Hr R)
    as (db0 & c & changed & secrets & En & L & Hc & Ecred & Esec & (valid & W & Ec & Es) & L' & Hs & Hst & Hver & Hkm & Htok & Hid).
  set (old := default [] (rc_Credentials c !! lowered id)) in *.
  assert (Hnew : secret_at (kept changed secrets) (lowered id) (List.length old) = Some (m, token_of provider secret)).
  { assert (Hl : default [] (rc_Credentials changed !! lowered id) !! List.length old = Some m).
    { rewrite Ecred, lookup_insert_eq. simpl. by rewrite lookup_app_r, Nat.sub_diag by lia. }
    assert (Hk : secrets !! dc_SecretName m = Some (token_of provider secret)); [|by rewrite (kept_secret_at _ _ _ _ _ _ Hl Hk Htok), Hkm].
    apply Hs. split; [|split; [by rewrite Esec, lookup_insert_eq|done]]. apply (in_use_lookup _ _ _ _ Hl). by rewrite Hst. }
  assert (Hlatest : CredentialSecret clusterID id (dc_Version m) db' = Ok (m, token_of provider secret)).
  { apply CredentialSecret_some; [lia|]. split; [done|]. exists (kept changed secrets). split; [done|]. rewrite Hver.
    by replace (Z.to_nat (Z.of_nat (List.length old) + 1 - 1)) with (List.length old) by lia. }
  split; [|split; [done|]].
  - rewrite CredentialSecret_latest, L'. simpl. rewrite lookup_fmap, Ecred, lookup_insert_eq. simpl.
    rewrite length_map, length_app. simpl. destruct (Z.eqb_spec (Z.of_nat (List.length old + 1)) 0); [lia|].
    rewrite <- Hlatest. f_equal. lia.
  - intros id2 v m0 s0 Hv Hold Hm0 Hutf. apply CredentialSecret_some in Hold as (_ & c1 & L1 & Hs1); [|done].
    pose proof (load_before _ _ _ _ _ _ En L1 L) as ->.
    unfold secret_at in Hs1. destruct (default [] (rc_Credentials c !! lowered id2) !! Z.to_nat (v - 1)) as [m1|] eqn:Ei; [|discriminate].
    destruct (rc_Secrets c !! dc_SecretName m1) as [s1|] eqn:Esec1; [|discriminate].
    destruct (String.eqb_spec s1 "") as [|Hne]; [discriminate|]. injection Hs1 as -> ->.
    assert (Hl : default [] (rc_Credentials changed !! lowered id2) !! Z.to_nat (v - 1) = Some m0).
    { rewrite Ecred. destruct (decide (lowered id = lowered id2)) as [E|E].
      - rewrite E, lookup_insert_eq. simpl. apply lookup_app_l_Some. unfold old. by rewrite E.
      - by rewrite lookup_insert_ne. }
    assert (Hlt : lowered id2 = lowered id -> v < dc_Version m).
    { intros E. rewrite Hver. apply lookup_lt_Some in Ei. rewrite E in Ei. fold old in Ei. lia. }
    split; [|done]. apply CredentialSecret_some; [done|]. split; [done|]. exists (kept changed secrets). split; [done|].
    apply kept_secret_at; [done| |done]. apply Hs. split; [by apply (in_use_lookup _ _ _ _ Hl)|]. split; [|done].
    rewrite Esec, lookup_insert_ne, lookup_fmap; [rewrite Esec1; simpl; by rewrite json_text_id|]. intros En2.
    destruct (rc_Credentials changed !! lowered id2) as [l2|] eqn:E2; [|done]. simpl in Hl.
    assert (E1 : rc_Credentials changed !! lowered id = Some (old ++ [m])) by by rewrite Ecred, lookup_insert_eq.
    destruct (secret_names_distinct clusterID valid db0 db' (lowered id) (old ++ [m]) m (lowered id2) l2 m0 W) as [Eid Ever];
      [by rewrite Ec|apply in_or_app; right; by left|by rewrite Ec|apply list_elem_of_In; by eapply list_elem_of_lookup_2|done|].
    symmetry in Eid. pose proof (Hlt Eid) as Hlt'. apply (versions_numbered c) in Ei as [_ Hv0]; [|done]. lia.
Qed.

End Reachable.
