(* ===== verification/RoutingLabels.v ===== *)
(** * internal/ops/routing_types.go and routing_control.go: labels of a route

    The Docker labels that make Traefik serve a route, and the entry point the
    route uses.  Labels are a map filled in the order of the code; a last label
    lists the others. *)

From Stdlib Require Import ZArith Lia Bool Ascii String.
From stdpp Require Import base tactics list strings gmap.
From S2P Require Import Prelude GoStrings GoText RoutingTypes RoutingDomain.

Local Open Scope string_scope.
Local Open Scope list_scope.
Local Open Scope bool_scope.
Local Open Scope Z_scope.

Definition backquote : string := of_bytes [chr 96].

Definition FormatBool (b : bool) : string := if b then "true" else "false".

Definition routeRouterName (route : RouteSpec) : string := (rt_Key route ++ "-" ++ rt_Protocol route)%string.

Definition routeEntryPoint (route : RouteSpec) : string :=
  if is_http route then
    if (rt_Scope route =? RouteInternal)%string then "internal-http"
    else if (rt_Scope route =? RouteBoth)%string then
      if tls_is route RouteTLSOff then "web,internal-http" else "websecure,internal-http"
    else if tls_is route RouteTLSOff then "web" else "websecure"
  else (rt_Protocol route ++ "-" ++ decimal (rt_ListenPort route))%string.

Definition staticEntryPointFor (route : RouteSpec) : StaticEntryPoint :=
  if is_http route then
    if negb (rt_Scope route =? RouteInternal)%string then
      if tls_is route RouteTLSOff then mkEntry "web" 80 RouteHTTP true else mkEntry "websecure" 443 RouteHTTP true
    else mkEntry "internal-http" 8081 RouteHTTP false
  else mkEntry (rt_Protocol route ++ "-" ++ decimal (rt_ListenPort route))%string (rt_ListenPort route) (rt_Protocol route) (routeIsPublic (rt_Scope route)).

Definition quoted (host : string) : string := (backquote ++ host ++ backquote)%string.

Definition renderHTTPRule (m : RouteMatch) : string :=
  (("Host(" ++ Join (map quoted (rm_Hosts m)) "," ++ ")") ++
   (if negb (rm_PathPrefix m =? "") && negb (rm_PathPrefix m =? "/") then " && PathPrefix(" ++ quoted (rm_PathPrefix m) ++ ")" else ""))%string.

Definition renderSNIRule (route : RouteSpec) : string :=
  if none (rm_SNI (rt_Match route)) then ("HostSNI(" ++ quoted "*" ++ ")")%string
  else ("HostSNI(" ++ Join (map quoted (rm_SNI (rt_Match route))) "," ++ ")")%string.

(** [prefix + ".routers." + router + suffix]. *)
Definition router_key (protocol router suffix : string) : string :=
  ("traefik." ++ protocol ++ ".routers." ++ router ++ suffix)%string.

(** The labels of one HTTP router. *)
Definition http_router (route : RouteSpec) (router entrypoint rule : string) : list (string * string) :=
  let key := router_key RouteHTTP router in
  [ (key ".entrypoints", entrypoint); (key ".service", routeRouterName route); (key ".rule", rule);
    (key ".observability.metrics", FormatBool (rt_Metrics route)); (key ".observability.accesslogs", FormatBool (rt_AccessLogs route)) ].

Definition http_labels (route : RouteSpec) : list (string * string) :=
  let name := routeRouterName route in
  let public := (name ++ "-public")%string in
  (if routeIsPublic (rt_Scope route) then
     http_router route public (if tls_is route RouteTLSOff then "web" else "websecure") (renderHTTPRule (rt_Match route)) ++
     (if tls_is route RouteTLSTerminate
      then [(router_key RouteHTTP public ".tls", "true"); (router_key RouteHTTP public ".tls.certresolver", rt_Resolver route)] else [])
   else []) ++
  (if (rt_Scope route =? RouteInternal)%string || (rt_Scope route =? RouteBoth)%string then
     http_router route (name ++ "-internal")%string "internal-http"
       (renderHTTPRule (mkMatch [(rt_Key route ++ ".swarmops.internal")%string] (rm_PathPrefix (rt_Match route)) []))
   else []).

Definition stream_labels (route : RouteSpec) : list (string * string) :=
  let name := routeRouterName route in
  let key := router_key (rt_Protocol route) name in
  [ (key ".entrypoints", routeEntryPoint route); (key ".service", name) ] ++
  (if is_tcp route then
     [(key ".rule", renderSNIRule route)] ++
     (if tls_is route RouteTLSTerminate then [(key ".tls", "true"); (key ".tls.certresolver", rt_Resolver route)] else []) ++
     (if tls_is route RouteTLSPassthrough then [(key ".tls.passthrough", "true")] else [])
   else []).

Definition base_labels (route : RouteSpec) (network : string) : list (string * string) :=
  [ ("swarmops.routing.version", decimal RoutingSchemaVersion); ("swarmops.routing.route", rt_Key route);
    ("traefik.enable", FormatBool (rt_Enabled route)); ("traefik.swarm.network", network);
    (("traefik." ++ rt_Protocol route ++ ".services." ++ routeRouterName route ++ ".loadbalancer.server.port")%string, decimal (rt_TargetPort route)) ].

(** The labels a route gets besides the last one. *)
Definition route_labels (route : RouteSpec) (network : string) : list (string * string) :=
  base_labels route network ++ (if is_http route then http_labels route else if is_tcp route || is_udp route then stream_labels route else []).

(** [labels[k] = v] in turn. *)
Definition assign (pairs : list (string * string)) : gmap string string := foldl (fun m kv => <[fst kv := snd kv]> m) ∅ pairs.

Section Labels.
Context `{CaseTable}.

Definition RenderRouteLabels (route : RouteSpec) (network : string) : result rerr (gmap string string) :=
  let route := RouteSpec_Normalize route in
  match RouteSpec_Validate route with
  | Err e => Err e
  | Ok _ =>
      if negb (dockerReferenceName network) then Err (Refuse "route network name is invalid")
      else
        let labels := assign (route_labels route network) in
        Ok (<["swarmops.routing.labels" := Join (sort_strings (map fst (map_to_list labels))) ","]> labels)
  end.

(** ** Lemmas *)

Lemma assign_In pairs k v : assign pairs !! k = Some v -> In (k, v) pairs.
Proof.
  unfold assign. induction pairs as [|[k' v'] pairs IH] using rev_ind; [simpl; by rewrite lookup_empty|]. rewrite foldl_app. simpl.
  intros Hl. apply in_or_app. apply lookup_insert_Some in Hl as [[<- <-]|[_ Hl]]; [right; by left|left; by apply IH].
Qed.

(** Strings with different last two characters differ. *)
Definition last2 (s : string) : list ascii := take 2 (rev (bytes s)).

Lemma last2_app a s : (2 <= String.length s)%nat -> last2 (a ++ s) = last2 s.
Proof.
  intros Hs. unfold last2. rewrite bytes_app, rev_app_distr, take_app_le; [done|]. rewrite length_rev, length_bytes. done.
Qed.

Lemma app_neq a s b t : (2 <= String.length s)%nat -> (2 <= String.length t)%nat -> last2 s <> last2 t -> (a ++ s)%string <> (b ++ t)%string.
Proof. intros Hs Ht Hne E. apply Hne. by rewrite <- (last2_app a s Hs), E, last2_app. Qed.

Lemma string_app_assoc (a b c : string) : ((a ++ b) ++ c)%string = (a ++ b ++ c)%string.
Proof. induction a as [|x a IH]; [done|]. change (String x ((a ++ b) ++ c) = String x (a ++ b ++ c))%string. by rewrite IH. Qed.

Lemma router_key_neq p r s r' s' :
  (2 <= String.length s)%nat -> (2 <= String.length s')%nat -> last2 s <> last2 s' -> router_key p r s <> router_key p r' s'.
Proof.
  intros Hs Hs' Hne. unfold router_key. rewrite <- !(string_app_assoc "traefik."), <- !(string_app_assoc ("traefik." ++ p)),
    <- (string_app_assoc _ r), <- (string_app_assoc _ r'). by apply app_neq.
Qed.

Lemma guards_http_entry route network router v :
  In (router_key RouteHTTP router ".entrypoints", v) (base_labels route network) -> rt_Protocol route = RouteHTTP -> False.
Proof.
  intros Hin Hp. unfold base_labels in Hin. rewrite Hp in Hin. simpl in Hin.
  repeat (destruct Hin as [Hin|Hin]; [by injection Hin|]). done.
Qed.

(** No label of the list is a router's [.entrypoints]. *)
Ltac other_suffixes Hin :=
  repeat (destruct Hin as [Hin|Hin];
    [apply (f_equal fst) in Hin; cbn [fst] in Hin; revert Hin; apply router_key_neq; simpl; [lia|lia|vm_compute; congruence]|]); destruct Hin.

Lemma http_router_entry route router entrypoint rule r v :
  In (router_key RouteHTTP r ".entrypoints", v) (http_router route router entrypoint rule) -> v = entrypoint.
Proof.
  unfold http_router. intros [E|Hin]; [by apply (f_equal snd) in E|]. exfalso.
  other_suffixes Hin.
Qed.

Lemma http_labels_entry route r v :
  In (router_key RouteHTTP r ".entrypoints", v) (http_labels route) ->
  (v = "internal-http" /\ (rt_Scope route = RouteInternal \/ rt_Scope route = RouteBoth)) \/
  (v = (if tls_is route RouteTLSOff then "web" else "websecure") /\ routeIsPublic (rt_Scope route) = true).
Proof.
  unfold http_labels. intros Hin. apply in_app_or in Hin as [Hin|Hin].
  - right. destruct (routeIsPublic (rt_Scope route)); [|done]. split; [|done].
    apply in_app_or in Hin as [Hin|Hin]; [by eapply http_router_entry|]. exfalso.
    destruct (tls_is route RouteTLSTerminate); [|done].
    other_suffixes Hin.
  - left. destruct (rt_Scope route =? RouteInternal)%string eqn:E1; cbn [orb] in Hin.
    + split; [by eapply http_router_entry|]. left. by apply String.eqb_eq.
    + destruct (rt_Scope route =? RouteBoth)%string eqn:E2; [|done]. split; [by eapply http_router_entry|]. right. by apply String.eqb_eq.
Qed.

Lemma public_guards s :
  (forall g, In g (route_guards s) -> fst g = false) -> routeIsPublic (rt_Scope s) = true -> rt_Enabled s = true ->
  rt_PublicAllow s = true /\ (is_http s = true -> rt_DNSReference s <> "").
Proof.
  intros Hg Hp He.
  assert (G : forall x, In x
    [ refuse (routeIsPublic (rt_Scope s) && rt_Enabled s && negb (rt_PublicAllow s)) "public routes require reviewed publicAllow";
      refuse (routeIsPublic (rt_Scope s) && rt_Enabled s && (rt_DNSReference s =? "")%string && (is_http s || negb (tls_is s RouteTLSOff)))
        "enabled public hostname routes require a DNS reference" ] -> fst x = false).
  { intros x Hx. apply Hg. unfold route_guards. do 2 (apply in_or_app; right). apply in_or_app. left. do 4 right. done. }
  assert (G1 := G _ (or_introl eq_refl)). assert (G2 := G _ (or_intror (or_introl eq_refl))). simpl in G1, G2. rewrite Hp, He in G1, G2. simpl in G1, G2.
  split; [by apply negb_false_iff|]. intros Hh E. by rewrite E, Hh in G2.
Qed.

(** A route reaches the public entry points only where it was declared
    public.  In the labels rendered for an HTTP route, a router is attached to
    the private entry point exactly for the scopes internal and both, and to
    [web] or [websecure] (by its TLS mode) only for the scopes public and both;
    an enabled route so attached was reviewed ([publicAllow]) and names a DNS
    record. *)
Theorem public_exposure_is_declared route network labels router v :
  RenderRouteLabels route network = Ok labels -> rt_Protocol route = RouteHTTP ->
  labels !! router_key RouteHTTP router ".entrypoints" = Some v ->
  (v = "internal-http" /\ (rt_Scope route = RouteInternal \/ rt_Scope route = RouteBoth)) \/
  (v = (if tls_is route RouteTLSOff then "web" else "websecure") /\ routeIsPublic (rt_Scope route) = true /\
   (rt_Enabled route = true -> rt_PublicAllow route = true /\ rt_DNSReference route <> "")).
Proof.
  intros Hren Hp Hl. unfold RenderRouteLabels in Hren. destruct (RouteSpec_Validate _) as [[]|e] eqn:V; [|discriminate].
  destruct (negb (dockerReferenceName network)); [discriminate|].
  match type of Hren with Ok ?x = Ok _ => assert (E : x = labels) by congruence end. rewrite <- E in Hl. clear E Hren.
  rewrite lookup_insert_ne in Hl by (intros E; by injection E). apply assign_In, in_app_or in Hl as [Hin|Hin].
  { exfalso. by eapply guards_http_entry. }
  unfold is_http in Hin. cbn [RouteSpec_Normalize rt_Protocol] in Hin. rewrite Hp in Hin. simpl in Hin.
  apply http_labels_entry in Hin as [[-> Hs]|[-> Hs]]; [by left|right]. split; [done|]. split; [done|]. intros He.
  unfold RouteSpec_Validate in V. rewrite guards_ok in V. destruct (public_guards _ V Hs He) as [Ha Hd]. split; [done|].
  intros E. unfold is_http in Hd. cbn [RouteSpec_Normalize rt_Protocol rt_DNSReference] in Hd. rewrite Hp, E in Hd. by apply Hd.
Qed.

End Labels.
