(* ===== verification/RoutingAgent.v ===== *)
(** * internal/agentcontrol/routing.go: the labels the machine renders

    The controller sends a machine the typed route ([RoutingRoute]); the machine
    validates it again and renders the labels itself.  [routeAgentContract]
    (src/internal/ops/routing_adapter.go) is the translation. *)

From Stdlib Require Import ZArith Lia Bool Ascii String.
From stdpp Require Import base tactics list strings gmap.
From S2P Require Import Prelude GoStrings GoText RoutingTypes RoutingDomain RoutingLabels.

Local Open Scope string_scope.
Local Open Scope list_scope.
Local Open Scope bool_scope.
Local Open Scope Z_scope.

Definition RoutingVersion : Z := 1.

Record RoutingRoute := mkRoutingRoute {
  ag_ACMETrigger : bool; ag_AccessLogs : bool; ag_Enabled : bool; ag_Hosts : list string; ag_Key : string; ag_ListenPort : Z; ag_Metrics : bool;
  ag_PathPrefix : string; ag_Protocol : string; ag_Resolver : string; ag_Scope : string; ag_SNI : list string; ag_TargetPort : Z; ag_TLS : string }.

(** ** Patterns *)

Definition routingKeyPattern : string -> bool := pattern lower_case (fun c => lower_case c || digit c || any_of "-" c) 62.
Definition routingPath : string -> bool := pattern (any_of "/") (fun c => alnum c || any_of "._~/-" c) 200.

Definition routingNetwork (s : string) : bool :=
  HasPrefix s "swarmops-route-" &&
  (let rest := TrimPrefix s "swarmops-route-" in
   (2 <=? len rest) && pattern (fun c => lower_case c || digit c) (fun c => lower_case c || digit c || any_of "-" c) 62 rest).

(** [[a-z0-9]([a-z0-9-]{0,61}[a-z0-9])?]: a label of a host name. *)
Definition host_label (part : string) : bool :=
  let l := bytes part in
  let edge c := lower_case c || digit c in
  match l, last l with
  | first :: _, Some final => edge first && edge final && forallb (fun c => edge c || any_of "-" c) l && (len part <=? 63)
  | _, _ => false
  end.

Definition routingHostname (host : string) : bool :=
  let parts := SplitChar dot (TrimPrefix host "*.") in
  Nat.leb 2 (List.length parts) && forallb host_label parts.

(** ** Validation *)

Definition agent_guards (r : RoutingRoute) : list (bool * rerr) :=
  let http := (ag_Protocol r =? "http")%string in
  [ refuse (negb (routingKeyPattern (ag_Key r)) || (ag_TargetPort r =? 0) || negb (oneOfString (ag_Protocol r) ["http"; "tcp"; "udp"])
            || negb (oneOfString (ag_Scope r) ["public"; "internal"; "both"]) || negb (oneOfString (ag_TLS r) ["off"; "terminate"; "passthrough"]))
      "invalid typed route";
    if http
    then refuse (negb (ag_ListenPort r =? 0) || none (ag_Hosts r) || negb (none (ag_SNI r)) || negb (routingPath (ag_PathPrefix r))
                 || (ag_TLS r =? "passthrough")%string) "invalid typed HTTP route"
    else refuse ((ag_ListenPort r <? 10000) || (19999 <? ag_ListenPort r) || negb (none (ag_Hosts r)) || negb (ag_PathPrefix r =? "")%string)
           "invalid typed stream route";
    refuse ((ag_Protocol r =? "tcp")%string && negb (ag_TLS r =? "off")%string && none (ag_SNI r)) "typed TLS TCP route requires SNI";
    refuse ((ag_Protocol r =? "udp")%string && (negb (ag_TLS r =? "off")%string || negb (none (ag_SNI r))))
      "typed UDP route cannot configure TLS or SNI";
    refuse ((ag_TLS r =? "terminate")%string && negb (routingKeyPattern (ag_Resolver r))) "typed TLS route requires a resolver";
    refuse (ag_ACMETrigger r && (negb (ag_Enabled r) || negb (ag_TLS r =? "terminate")%string || (ag_Protocol r =? "udp")%string))
      "ACME trigger requires an enabled terminating TLS route" ] ++
  map (fun host => refuse (negb (routingHostname host)) "typed route hostname is invalid") (ag_Hosts r ++ ag_SNI r).

Definition RoutingRoute_Validate (r : RoutingRoute) : result rerr unit := guards (agent_guards r).

(** ** Labels *)

Definition entryPoint (r : RoutingRoute) : string :=
  if negb (ag_Protocol r =? "http")%string then (ag_Protocol r ++ "-" ++ decimal (ag_ListenPort r))%string
  else if (ag_Scope r =? "internal")%string then "internal-http"
  else if (ag_Scope r =? "both")%string then if (ag_TLS r =? "off")%string then "web,internal-http" else "websecure,internal-http"
  else if (ag_TLS r =? "off")%string then "web" else "websecure".

Definition path_rule (r : RoutingRoute) : string :=
  if negb (ag_PathPrefix r =? "/")%string then (" && PathPrefix(" ++ quoted (ag_PathPrefix r) ++ ")")%string else "".

(** The labels of one HTTP router of the machine. *)
Definition machine_router (r : RoutingRoute) (router entrypoint rule : string) : list (string * string) :=
  let key := router_key (ag_Protocol r) router in
  [ (key ".entrypoints", entrypoint); (key ".service", (ag_Key r ++ "-" ++ ag_Protocol r)%string); (key ".rule", rule);
    (key ".observability.metrics", FormatBool (ag_Metrics r)); (key ".observability.accesslogs", FormatBool (ag_AccessLogs r)) ].

(** The copy of a router's labels under another name, with the lowest
    priority, that makes Traefik ask for the certificate again. *)
Definition acme_retry (protocol router : string) (fields : list string) (labels : list (string * string)) : list (string * string) :=
  let trigger := (router ++ "-acme-retry")%string in
  flat_map (fun field => match assign labels !! router_key protocol router ("." ++ field)%string with
                         | Some value => [(router_key protocol trigger ("." ++ field)%string, value)]
                         | None => []
                         end) fields ++
  [(router_key protocol trigger ".priority", "1")].

Definition machine_http_labels (r : RoutingRoute) : list (string * string) :=
  let name := (ag_Key r ++ "-" ++ ag_Protocol r)%string in
  let public := (name ++ "-public")%string in
  (if (ag_Scope r =? "public")%string || (ag_Scope r =? "both")%string then
     let labels :=
       machine_router r public (if negb (ag_TLS r =? "off")%string then "websecure" else "web")
         ("Host(" ++ Join (map quoted (ag_Hosts r)) "," ++ ")" ++ path_rule r)%string ++
       (if (ag_TLS r =? "terminate")%string
        then [(router_key (ag_Protocol r) public ".tls", "true"); (router_key (ag_Protocol r) public ".tls.certresolver", ag_Resolver r)] else []) in
     labels ++ (if ag_ACMETrigger r
                then acme_retry (ag_Protocol r) public
                       ["entrypoints"; "service"; "rule"; "observability.metrics"; "observability.accesslogs"; "tls"; "tls.certresolver"] labels
                else [])
   else []) ++
  (if (ag_Scope r =? "internal")%string || (ag_Scope r =? "both")%string then
     machine_router r (name ++ "-internal")%string "internal-http"
       ("Host(" ++ quoted (ag_Key r ++ ".swarmops.internal") ++ ")" ++ path_rule r)%string
   else []).

Definition machine_stream_labels (r : RoutingRoute) : list (string * string) :=
  let name := (ag_Key r ++ "-" ++ ag_Protocol r)%string in
  let key := router_key (ag_Protocol r) name in
  [ (key ".entrypoints", entryPoint r); (key ".service", name) ] ++
  (if (ag_Protocol r =? "tcp")%string then
     let labels :=
       [(key ".rule", ("HostSNI(" ++ Join (if none (ag_SNI r) then [quoted "*"] else map quoted (ag_SNI r)) "," ++ ")")%string)] ++
       (if (ag_TLS r =? "terminate")%string then [(key ".tls", "true"); (key ".tls.certresolver", ag_Resolver r)] else []) in
     labels ++
     (if ag_ACMETrigger r
      then acme_retry (ag_Protocol r) name ["entrypoints"; "service"; "rule"; "tls"; "tls.certresolver"]
             ([ (key ".entrypoints", entryPoint r); (key ".service", name) ] ++ labels)
      else []) ++
     (if (ag_TLS r =? "passthrough")%string then [(key ".tls.passthrough", "true")] else [])
   else []).

Definition machine_labels (r : RoutingRoute) (network : string) : list (string * string) :=
  [ ("swarmops.routing.version", decimal RoutingVersion); ("swarmops.routing.route", ag_Key r);
    ("traefik.enable", FormatBool (ag_Enabled r)); ("traefik.swarm.network", network);
    (("traefik." ++ ag_Protocol r ++ ".services." ++ (ag_Key r ++ "-" ++ ag_Protocol r) ++ ".loadbalancer.server.port")%string,
     decimal (ag_TargetPort r)) ] ++
  (if (ag_Protocol r =? "http")%string then machine_http_labels r
   else if (ag_Protocol r =? "tcp")%string || (ag_Protocol r =? "udp")%string then machine_stream_labels r else []).

Definition RoutingRoute_Labels (r : RoutingRoute) (network : string) : result rerr (gmap string string) :=
  match RoutingRoute_Validate r with
  | Err e => Err e
  | Ok _ =>
      if negb (routingNetwork network) then Err (Refuse "invalid route network")
      else
        let labels := assign (machine_labels r network) in
        let owned := List.filter (fun key => negb (key =? "swarmops.routing.labels")%string) (map fst (map_to_list labels)) in
        Ok (<["swarmops.routing.labels" := Join (sort_strings owned) ","]> labels)
  end.

(** ** From the controller's route *)

Section Contract.
Context `{CaseTable}.

Definition routeAgentContract (route : RouteSpec) : RoutingRoute :=
  let route := RouteSpec_Normalize route in
  mkRoutingRoute false (rt_AccessLogs route) (rt_Enabled route) (rm_Hosts (rt_Match route)) (rt_Key route) (rt_ListenPort route) (rt_Metrics route)
    (rm_PathPrefix (rt_Match route)) (rt_Protocol route) (rt_Resolver route) (rt_Scope route) (rm_SNI (rt_Match route)) (rt_TargetPort route) (rt_TLS route).

(** The contract of a normalised route. *)
Definition contract_of (s : RouteSpec) : RoutingRoute :=
  mkRoutingRoute false (rt_AccessLogs s) (rt_Enabled s) (rm_Hosts (rt_Match s)) (rt_Key s) (rt_ListenPort s) (rt_Metrics s)
    (rm_PathPrefix (rt_Match s)) (rt_Protocol s) (rt_Resolver s) (rt_Scope s) (rm_SNI (rt_Match s)) (rt_TargetPort s) (rt_TLS s).

Lemma rule_agrees s hosts :
  rm_PathPrefix (rt_Match s) <> "" ->
  ("Host(" ++ Join (map quoted hosts) "," ++ ")" ++ path_rule (contract_of s))%string =
  renderHTTPRule (mkMatch hosts (rm_PathPrefix (rt_Match s)) []).
Proof.
  intros Hpath. apply String.eqb_neq in Hpath. unfold path_rule, renderHTTPRule. cbn [contract_of ag_PathPrefix rm_Hosts rm_PathPrefix].
  rewrite Hpath. cbn [negb andb]. by rewrite !string_app_assoc.
Qed.

Lemma http_labels_agree s :
  rt_Protocol s = RouteHTTP -> rm_PathPrefix (rt_Match s) <> "" -> machine_http_labels (contract_of s) = http_labels s.
Proof.
  intros Hp Hpath. unfold machine_http_labels, http_labels, machine_router, http_router.
  pose proof (rule_agrees s (rm_Hosts (rt_Match s)) Hpath) as R1.
  pose proof (rule_agrees s [(rt_Key s ++ ".swarmops.internal")%string] Hpath) as R2. cbn [map Join] in R2.
  change (renderHTTPRule (mkMatch (rm_Hosts (rt_Match s)) (rm_PathPrefix (rt_Match s)) [])) with (renderHTTPRule (rt_Match s)) in R1.
  change (ag_Key (contract_of s)) with (rt_Key s). rewrite R2. change (ag_Hosts (contract_of s)) with (rm_Hosts (rt_Match s)). rewrite R1.
  cbn [contract_of ag_ACMETrigger ag_AccessLogs ag_Enabled ag_Key ag_Metrics ag_Protocol ag_Resolver ag_Scope ag_TLS].
  unfold routeRouterName, tls_is, routeIsPublic. rewrite Hp, app_nil_r.
  change (rt_TLS s =? "off")%string with (rt_TLS s =? RouteTLSOff)%string. by destruct (rt_TLS s =? RouteTLSOff)%string.
Qed.

Lemma stream_labels_agree s : is_http s = false -> machine_stream_labels (contract_of s) = stream_labels s.
Proof.
  intros Hp. unfold machine_stream_labels, stream_labels, entryPoint, routeEntryPoint, renderSNIRule, is_tcp, tls_is, routeRouterName.
  rewrite Hp. unfold is_http in Hp.
  cbn [contract_of ag_ACMETrigger ag_Key ag_ListenPort ag_Protocol ag_Resolver ag_SNI ag_TLS app].
  change "http" with RouteHTTP. rewrite Hp. cbn [negb]. change "tcp" with RouteTCP.
  destruct (rm_SNI (rt_Match s)); by destruct (rt_Protocol s =? RouteTCP)%string.
Qed.

Lemma labels_agree s network :
  (is_http s = true -> rm_PathPrefix (rt_Match s) <> "") -> machine_labels (contract_of s) network = route_labels s network.
Proof.
  intros Hpath. unfold machine_labels, route_labels, base_labels. f_equal. cbn [contract_of ag_Protocol].
  change (rt_Protocol s =? "http")%string with (is_http s). change (rt_Protocol s =? "tcp")%string with (is_tcp s).
  change (rt_Protocol s =? "udp")%string with (is_udp s). destruct (is_http s) eqn:Hh.
  - apply http_labels_agree; [by apply String.eqb_eq|by apply Hpath].
  - by rewrite stream_labels_agree.
Qed.

(** No label of a route is the one that lists the others. *)
Lemma labels_not_listed s network key v : In (key, v) (route_labels s network) -> key <> "swarmops.routing.labels".
Proof.
  unfold route_labels, base_labels, http_labels, stream_labels, http_router, router_key. intros Hin ->.
  repeat (match type of Hin with
          | In _ (_ ++ _) => apply in_app_or in Hin as [Hin|Hin]
          | In _ (if ?b then _ else _) => destruct b
          | In _ [] => destruct Hin
          | In _ (_ :: _) => destruct Hin as [Hin|Hin]; [discriminate (f_equal fst Hin)|]
          | False => destruct Hin
          end).
Qed.

(** C36. The machine renders the labels that were planned.  Whenever the
    controller renders labels for a route and the machine, given the contract of
    that route, renders labels as well, the two are the same map, down to the
    label that lists the others: what the operator reviewed is what Traefik
    gets. *)
Theorem machine_renders_planned_labels route network planned rendered :
  RenderRouteLabels route network = Ok planned -> RoutingRoute_Labels (routeAgentContract route) network = Ok rendered ->
  rendered = planned.
Proof.
  unfold RenderRouteLabels, RoutingRoute_Labels. change (routeAgentContract route) with (contract_of (RouteSpec_Normalize route)).
  generalize (RouteSpec_Normalize route). intros s Hp Hr.
  destruct (RouteSpec_Validate s) as [[]|e]; [|discriminate]. destruct (negb (dockerReferenceName network)); [discriminate|].
  destruct (RoutingRoute_Validate (contract_of s)) as [[]|e] eqn:V; [|discriminate]. destruct (negb (routingNetwork network)); [discriminate|].
  assert (Hpath : is_http s = true -> rm_PathPrefix (rt_Match s) <> "").
  { intros Hh E. unfold RoutingRoute_Validate in V. rewrite guards_ok in V.
    assert (G := V _ (or_intror (or_introl eq_refl))). cbn [contract_of ag_Protocol] in G.
    change (rt_Protocol s =? "http")%string with (is_http s) in G. rewrite Hh in G. cbn [contract_of ag_PathPrefix] in G. rewrite E in G.
    cbn [refuse fst] in G. apply orb_false_iff in G as [G _]. apply orb_false_iff in G as [_ G]. discriminate G. }
  rewrite (labels_agree s network Hpath) in Hr.
  rewrite forallb_filter_id in Hr; [congruence|]. apply forallb_forall. intros key Hin.
  apply in_map_iff in Hin as ([k v] & <- & Hin). apply negb_true_iff, String.eqb_neq. cbn [fst].
  apply (labels_not_listed s network k v), assign_In, elem_of_map_to_list. by apply list_elem_of_In.
Qed.

End Contract.
