(* ===== verification/RoutingRuns.v ===== *)
(** * Concrete runs of the routing store

    A gateway set up from nothing: the theorems of the routing files applied to
    it, and runs that show what the code does where a reader might expect
    otherwise. *)

From Stdlib Require Import ZArith Lia Bool Ascii String.
From stdpp Require Import base tactics list strings gmap.
From S2P Require Import Prelude GoStrings Sqlstore Ledger GoText RoutingTypes RoutingDomain RoutingRows RoutingRoundTrip RoutingStore RoutingInvariants RoutingTheorems RoutingLabels RoutingAgent.

Local Open Scope string_scope.
Local Open Scope list_scope.
Local Open Scope bool_scope.
Local Open Scope Z_scope.

#[local] Existing Instance plain_case.
#[local] Existing Instance list_order.
#[local] Existing Instance truncating_clock.

(** ** A gateway *)

Definition ops_email : string := "ops@example.com".
Definition gateway : string := "srv-1".
Definition noon : Z := 1700000000 * second + 123.

(** The calls run one after the other, each committing at once. *)
Definition run `{Collation} (db : RoutingDB) (calls : list Call) : RoutingDB :=
  foldl (fun db o => snd (call ops_email [] gateway o db)) db calls.

Lemma gateway_run_reachable `{Collation} db calls : reachable ops_email db -> reachable ops_email (run db calls).
Proof.
  revert db. induction calls as [|o calls IH]; intros db Hr; [done|]. simpl. apply IH.
  destruct (call ops_email [] gateway o db) as [r db'] eqn:C. by eapply reach_call.
Qed.

Definition example_domain : DomainSpec := mkDomain zero_time "" 0 "example.com".
Definition cf_token : string := "0123456789abcdef0123".
Definition app_record : DNSRecordSpec := mkRecord false "10.0.0.1" "cf" "app" true "app.example.com" "" false 0 "A" 0 "example.com".
Definition http_route (key service : string) (hosts : list string) (path : string) : RouteSpec :=
  mkRoute true "app" true (mkHealth "" "" 0) key 0 true (mkMatch hosts path []) true "http" true "le" "public" false service "terminate" 8080 0.
Definition tcp_route (key service : string) (port : Z) : RouteSpec :=
  mkRoute false "" true (mkHealth "" "" 0) key port true (mkMatch [] "" []) true "tcp" false "" "internal" false service "off" 5432 0.

Definition setup : list Call :=
  [ CallPutDomain noon example_domain;
    CallRotateCredential noon "cf" "Cloudflare" "cloudflare" (mkIdentity "" "") cf_token;
    CallPutRecord app_record "http";
    CallPutRoute (http_route "app-web" "app_web" ["App.Example.com."] "");
    CallPutRoute (tcp_route "orders-db" "orders_db" 10000);
    CallPutBinding (mkBinding "app_web" "environment" "database_url" "orders-db" 0) ].

Definition snapshot `{Collation} (db : RoutingDB) : RoutingState :=
  match stored_state ops_email gateway db with
  | Ok st => st
  | Err _ => mkState [] [] [] None None [] [] [] [] [] (DefaultTraefikSettings "") 0
  end.

Section Binary.
#[local] Existing Instance binary_collation.

Definition gateway_db : RoutingDB := Eval vm_compute in run fresh_db setup.

Lemma gateway_db_run : gateway_db = run fresh_db setup.
Proof. vm_compute. reflexivity. Qed.

Lemma gateway_reachable : reachable ops_email gateway_db.
Proof. rewrite gateway_db_run. apply gateway_run_reachable, reach_fresh. Qed.

Example gateway_state :
  map rt_Key (st_Routes (snapshot gateway_db)) = ["app-web"; "orders-db"] /\
  map db_Name (st_Bindings (snapshot gateway_db)) = ["DATABASE_URL"] /\
  map dr_ID (st_DNSRecords (snapshot gateway_db)) = ["app"] /\ map dm_Zone (st_Domains (snapshot gateway_db)) = ["example.com"].
Proof. vm_compute. repeat split. Qed.

(** ** Witnesses *)

Definition gateway_cluster : routingCluster :=
  match loadCluster gateway true gateway_db with
  | Ok (Some c) => c
  | _ => mkCluster ∅ ∅ ∅ None None ∅ ∅ ∅ ∅ ∅ ∅ (DefaultTraefikSettings "")
  end.

Lemma gateway_keyed : keyed gateway_cluster.
Proof.
  assert (L : loadCluster gateway true gateway_db = Ok (Some gateway_cluster)) by (vm_compute; reflexivity).
  apply loadCluster_rows in L as (s & row & ->). apply good_keyed, (reachable_inv ops_email), gateway_reachable.
Qed.

Lemma routing_state_reads_back_witness :
  let db' := snd (writeCluster gateway gateway_cluster gateway_db) in
  map fst (map_to_list (rc_Secrets gateway_cluster)) = ["traefik_dns_cloudflare_cf_v1"] /\ plain_documents gateway_cluster = true /\
  (exists secrets, loadCluster gateway true db' = Ok (Some (kept gateway_cluster secrets)) /\
     (forall n v, secrets !! n = Some v <-> in_use gateway_cluster n /\ rc_Secrets gateway_cluster !! n = Some v /\ v <> "") /\
     (plain_documents gateway_cluster = true ->
      rc_Settings (kept gateway_cluster secrets) = rc_Settings gateway_cluster /\
      rc_Cutover (kept gateway_cluster secrets) = rc_Cutover gateway_cluster /\
      rc_CutoverRollback (kept gateway_cluster secrets) = rc_CutoverRollback gateway_cluster)) /\
  (forall id' b, ceq gateway id' = false -> loadCluster id' b db' = loadCluster id' b gateway_db).
Proof.
  intros db'. split; [vm_compute; reflexivity|]. split; [vm_compute; reflexivity|].
  apply (routing_state_reads_back gateway gateway_cluster gateway_db db'); [vm_compute; reflexivity|apply gateway_keyed|vm_compute; reflexivity].
Defined.

Lemma routes_never_conflict_witness :
  let st := snapshot gateway_db in
  map rt_Key (st_Routes st) = ["app-web"; "orders-db"] /\ NoDup (map rt_Key (st_Routes st)) /\
  (forall r1 r2, In r1 (st_Routes st) -> In r2 (st_Routes st) -> rt_Key r1 <> rt_Key r2 -> conflicts r1 r2 = false).
Proof.
  intros st. split; [vm_compute; reflexivity|].
  apply (routes_never_conflict ops_email gateway_db gateway st); [apply gateway_reachable|vm_compute; reflexivity].
Defined.

Lemma published_names_are_accepted_witness :
  let st := snapshot gateway_db in
  flat_map claimed (st_Routes st) = ["app.example.com"] /\
  (forall r, In r (st_DNSRecords st) -> record_accepted (st_Domains st) r) /\
  (forall r h, In r (st_Routes st) -> In h (claimed r) -> host_accepted (st_Domains st) h).
Proof.
  intros st. split; [vm_compute; reflexivity|].
  apply (published_names_are_accepted ops_email gateway_db gateway st); [apply gateway_reachable|vm_compute; reflexivity].
Defined.

Lemma dependencies_resolve_witness :
  let st := snapshot gateway_db in
  map db_TargetRoute (st_Bindings st) = ["orders-db"] /\
  (forall b, In b (st_Bindings st) ->
     platformMetricsRoute (db_TargetRoute b) = true \/ exists r, In r (st_Routes st) /\ rt_Key r = db_TargetRoute b) /\
  (forall b1 b2, In b1 (st_Bindings st) -> In b2 (st_Bindings st) -> db_CallerService b1 = db_CallerService b2 ->
     db_Name b1 = db_Name b2 -> db_Name b1 <> "" -> b1 = b2) /\
  (forall x, In x (st_Certificates st) -> exists r, In r (st_Routes st) /\ rt_Key r = ct_RouteKey x).
Proof.
  intros st. split; [vm_compute; reflexivity|].
  apply (dependencies_resolve ops_email gateway_db gateway st); [apply gateway_reachable|vm_compute; reflexivity].
Defined.

Definition new_token : string := "fedcba98765432100000".
Definition rotated : result rerr DNSCredentialMetadata * RoutingDB :=
  RotateCredential ops_email [] (noon + day) gateway " CF " "Cloudflare" "cloudflare" (mkIdentity "" "") new_token gateway_db.
Definition second_version : DNSCredentialMetadata :=
  mkCredential "" (truncate microsecond (noon + day)) "" "cf" "Cloudflare" "cloudflare" "traefik_dns_cloudflare_cf_v2" "sealed" None 2.

Lemma rotation_keeps_history_witness :
  (exists m0, CredentialSecret gateway "cf" 1 gateway_db = Ok (m0, cf_token) /\ dc_State m0 = "sealed") /\
  CredentialSecret gateway " CF " 0 (snd rotated) = Ok (second_version, token_of "cloudflare" new_token) /\
  CredentialSecret gateway " CF " (dc_Version second_version) (snd rotated) = Ok (second_version, token_of "cloudflare" new_token) /\
  (forall id2 v m0 s0, 1 <= v -> CredentialSecret gateway id2 v gateway_db = Ok (m0, s0) -> dc_State m0 <> "removed" -> valid_utf8 s0 = true ->
     CredentialSecret gateway id2 v (snd rotated) = Ok (kept_credential m0, s0) /\ (lowered id2 = lowered " CF " -> v < dc_Version second_version)).
Proof.
  split; [eexists; split; vm_compute; reflexivity|].
  apply (rotation_keeps_history ops_email [] (noon + day) gateway " CF " "Cloudflare" "cloudflare" (mkIdentity "" "") new_token
           gateway_db second_version (snd rotated)); [apply gateway_reachable|vm_compute; reflexivity].
Defined.

Definition gateway_settings : TraefikSettings := DefaultTraefikSettings ops_email.

Lemma AllocateRoutePort_spec_witness :
  AllocateRoutePort gateway_settings "tcp" (st_Routes (snapshot gateway_db)) 0 "" = Some (Ok 10001) /\
  let s := TraefikSettings_Normalize gateway_settings in
  let held := taken s "tcp" (st_Routes (snapshot gateway_db)) (TrimSpace "") in
  exists res, AllocateRoutePort gateway_settings "tcp" (st_Routes (snapshot gateway_db)) 0 "" = Some res /\
    match res with
    | Ok p => ts_PortStart s <= p <= ts_PortEnd s /\ ~ held p /\ (0 <> 0 -> p = 0) /\ (0 = 0 -> forall q, ts_PortStart s <= q < p -> held q)
    | Err _ => if 0 =? 0 then forall q, ts_PortStart s <= q <= ts_PortEnd s -> held q
               else ~ (ts_PortStart s <= 0 <= ts_PortEnd s) \/ held 0
    end.
Proof.
  split; [vm_compute; reflexivity|].
  apply (AllocateRoutePort_spec gateway_settings "tcp" (st_Routes (snapshot gateway_db)) 0 ""); [vm_compute; reflexivity|discriminate].
Defined.

Definition app_route : RouteSpec := http_route "app-web" "app_web" ["app.example.com"] "".
Definition labels_of (route : RouteSpec) : gmap string string :=
  match RenderRouteLabels route "swarmops-route-app" with Ok l => l | Err _ => ∅ end.

Lemma labels_of_ok route :
  is_ok (RenderRouteLabels route "swarmops-route-app") = true -> RenderRouteLabels route "swarmops-route-app" = Ok (labels_of route).
Proof. unfold labels_of. by destruct (RenderRouteLabels route "swarmops-route-app"). Qed.

Lemma public_exposure_is_declared_witness :
  ("websecure" = "internal-http" /\ (rt_Scope app_route = RouteInternal \/ rt_Scope app_route = RouteBoth)) \/
  ("websecure" = (if tls_is app_route RouteTLSOff then "web" else "websecure") /\ routeIsPublic (rt_Scope app_route) = true /\
   (rt_Enabled app_route = true -> rt_PublicAllow app_route = true /\ rt_DNSReference app_route <> "")).
Proof.
  apply (public_exposure_is_declared app_route "swarmops-route-app" (labels_of app_route) "app-web-http-public" "websecure");
    [apply labels_of_ok; vm_compute; reflexivity|reflexivity|vm_compute; reflexivity].
Defined.

Definition rooted_route : RouteSpec := http_route "app-web" "app_web" ["app.example.com"] "/".

Definition machine_labels_of (route : RouteSpec) : gmap string string :=
  match RoutingRoute_Labels (routeAgentContract route) "swarmops-route-app" with Ok l => l | Err _ => ∅ end.

Lemma machine_labels_of_ok route :
  is_ok (RoutingRoute_Labels (routeAgentContract route) "swarmops-route-app") = true ->
  RoutingRoute_Labels (routeAgentContract route) "swarmops-route-app" = Ok (machine_labels_of route).
Proof. unfold machine_labels_of. by destruct (RoutingRoute_Labels _ _). Qed.

Lemma machine_renders_planned_labels_witness :
  machine_labels_of rooted_route !! "traefik.http.routers.app-web-http-public.entrypoints" = Some "websecure" /\
  machine_labels_of rooted_route = labels_of rooted_route.
Proof.
  split; [vm_compute; reflexivity|].
  apply (machine_renders_planned_labels rooted_route "swarmops-route-app");
    [apply labels_of_ok; vm_compute; reflexivity|apply machine_labels_of_ok; vm_compute; reflexivity].
Defined.

(** ** What the code also does *)

(** The controller accepts an HTTP route without a path prefix (its validation
    puts the missing [/] in a copy only) and stores it; the machine requires
    one, so it refuses the contract of that route every time. *)
Lemma missing_path_is_refused_by_the_machine :
  fst (PutRoute ops_email [] gateway app_route gateway_db) = Ok tt /\
  is_ok (RenderRouteLabels app_route "swarmops-route-app") = true /\
  RoutingRoute_Validate (routeAgentContract app_route) = Err (Refuse "invalid typed HTTP route").
Proof. split; [|split]; vm_compute; reflexivity. Qed.


(** [normalizeHosts] removes one trailing dot only, so a host given with two
    keeps one when it is stored.  The conflict check compares stored hosts, but
    labels are rendered after normalising once more: this second route is
    accepted beside the first, and both render the same rule. *)
Definition dotted_route : RouteSpec := http_route "app-two" "app_two" ["app.example.com.."] "".

Definition rule_of (route : RouteSpec) (router : string) : option string := labels_of route !! router_key RouteHTTP router ".rule".

Lemma trailing_dots_evade_the_conflict_check :
  fst (PutRoute ops_email [] gateway dotted_route gateway_db) = Ok tt /\
  rule_of (RouteSpec_Normalize dotted_route) "app-two-http-public" = rule_of (RouteSpec_Normalize app_route) "app-web-http-public" /\
  rule_of (RouteSpec_Normalize app_route) "app-web-http-public" = Some ("Host(" ++ quoted "app.example.com" ++ ")")%string.
Proof. split; [vm_compute; reflexivity|]. split; vm_compute; reflexivity. Qed.

(** The text of a host is not validated as a host name.  One that closes the
    quotation of the rule and ends in the reserved zone is admitted without any
    accepted domain, and the rule planned and stored for it matches a further
    name of the caller's choice.  The machine validates host names, so it
    refuses the contract. *)
Definition quoting_host : string :=
  ("a" ++ backquote ++ ") || host(" ++ backquote ++ "shop.other.org" ++ backquote ++ ") || host(" ++ backquote ++ "b.swarmops.internal")%string.

Definition quoting_route : RouteSpec := http_route "app-two" "app_two" [quoting_host] "".

Lemma host_text_reaches_the_rule :
  fst (PutRoute ops_email [] gateway quoting_route gateway_db) = Ok tt /\
  rule_of (RouteSpec_Normalize quoting_route) "app-two-http-public" =
    Some ("Host(" ++ quoted "a" ++ ") || host(" ++ quoted "shop.other.org" ++ ") || host(" ++ quoted "b.swarmops.internal" ++ ")")%string /\
  is_ok (RoutingRoute_Validate (routeAgentContract quoting_route)) = false.
Proof. split; [|split]; vm_compute; reflexivity. Qed.

(** The statements of a snapshot are not one transaction.  A route put between
    the reads of the routes and of the hosts shows up without a key, and a
    withdrawal between the reads of the hosts and of the domains leaves a
    snapshot with a host outside every domain it lists. *)
Definition withdrawn : RoutingDB := run gateway_db [CallRemoveRoute "app-web"; CallRemoveRecord "app"; CallRemoveDomain "example.com"].

(** The statements before number [n] read [early], the others [late]. *)
Definition torn (n : nat) (early late : RoutingDB) : result rerr (list (string * list string) * list string) :=
  match Snapshot ops_email (fun _ => None) gateway (fun i => if Nat.ltb i n then early else late) with
  | Ok st => Ok (map (fun r => (rt_Key r, rm_Hosts (rt_Match r))) (st_Routes st), map dm_Zone (st_Domains st))
  | Err e => Err e
  end.

Lemma snapshot_can_be_torn :
  torn 2 withdrawn gateway_db = Ok ([("", ["app.example.com"]); ("orders-db", [])], ["example.com"]) /\
  torn 5 gateway_db withdrawn = Ok ([("app-web", ["app.example.com"]); ("orders-db", [])], []).
Proof. split; vm_compute; reflexivity. Qed.

(** A runtime error is cut to 256 bytes, in the middle of a character where it
    falls so; the text column then refuses the observation as a whole. *)
Definition long_error : string := (String.concat "" (repeat "a" 255) ++ of_bytes [chr 195; chr 169])%string.

Definition observation (errors : list string) : RouteRuntime := mkRuntime errors [] noon "http" "app-web" "" "" "failed" 1.

Lemma cut_error_loses_the_observation :
  fst (PutRuntime ops_email [] noon gateway (observation [long_error]) gateway_db) = Err (ErrSave (ErrServer ErrIncorrectString)) /\
  fst (PutRuntime ops_email [] noon gateway (observation ["timeout"]) gateway_db) = Ok tt.
Proof. split; vm_compute; reflexivity. Qed.

End Binary.

(** ** Letters that differ only in case *)

(** The text columns compare without case ([utf8mb4_unicode_ci]); for ASCII
    text this is that comparison. *)
Definition ci_collation : Collation.
Proof.
  refine {| ceq := fun x y => (of_bytes (map lower_ascii (bytes x)) =? of_bytes (map lower_ascii (bytes y)))%string |}.
  - intros x. apply String.eqb_refl.
  - intros x y E. by rewrite String.eqb_sym.
  - intros x y z E1 E2. apply String.eqb_eq in E1 as ->. done.
Defined.

Section CaseInsensitive.
#[local] Existing Instance ci_collation.

Definition worker_role (service : string) : ServiceRouteDeclaration := mkDeclaration "runs jobs" "client-only" service 0.

(** Docker service names are case sensitive, and so are the maps of the working
    copy; a declaration for a second service whose name differs only in case is
    a second row with an equal primary key, and can never be saved. *)
Lemma services_differing_in_case_collide :
  let db := run fresh_db [CallPutDeclaration (worker_role "worker")] in
  map sd_ServiceKey (st_Declarations (snapshot db)) = ["worker"] /\
  fst (PutDeclaration ops_email [] gateway (worker_role "Worker") db) = Err (ErrSave (ErrServer ErrDuplicateEntry)).
Proof. split; vm_compute; reflexivity. Qed.

End CaseInsensitive.
