(* ===== verification/GoFiles.v ===== *)
(** * Paths and calls to the operating system

    The parts of Go's [path/filepath] that the sealed store, the release updater
    and the log store use (Unix separators), and the discipline under which they
    touch the disk: every system call takes the next element of a list of
    [fate]s, which says whether the call proceeds, fails or is the moment the
    process is killed.  A theorem that holds for every list of fates holds for
    every pattern of failures and for a crash at any point. *)

From Stdlib Require Import ZArith Lia Bool Ascii String.
From stdpp Require Import base tactics list strings.
From S2P Require Import Prelude GoStrings GoText.

Local Open Scope string_scope.
Local Open Scope list_scope.
Local Open Scope bool_scope.
Local Open Scope Z_scope.
Local Open Scope tx_scope.

(** ** Bytes *)

Abbreviation Bytes := (list ascii).

Definition blen (l : Bytes) : Z := Z.of_nat (List.length l).

(** [bytes.Equal] *)
Fixpoint beq (a b : Bytes) : bool :=
  match a, b with
  | [], [] => true
  | x :: a', y :: b' => Ascii.eqb x y && beq a' b'
  | _, _ => false
  end.

(** ** Paths *)

Definition slash : ascii := "/"%char.
(** A name without a separator. *)
Definition plain_name (name : string) : bool := forallb (fun c => negb (Ascii.eqb c slash)) (bytes name).

Definition rooted (path : string) : bool := HasPrefix path "/".

(** [filepath.IsAbs] on Unix. *)
Definition IsAbs (path : string) : bool := rooted path.

(** The elements of a path, empty and "." elements dropped. *)
Definition elements (path : string) : list string :=
  List.filter (fun e => negb ((e =? "") || (e =? "."))%string) (SplitChar slash path).

(** Eliminates "..": [acc] is the result so far, last element first. *)
Fixpoint resolve (isRooted : bool) (acc l : list string) : list string :=
  match l with
  | [] => rev acc
  | e :: l' =>
      if (e =? "..")%string then
        match acc with
        | [] => resolve isRooted (if isRooted then [] else [".."]) l'
        | top :: rest => resolve isRooted (if (top =? "..")%string then ".." :: acc else rest) l'
        end
      else resolve isRooted (e :: acc) l'
  end.

Definition clean_elements (path : string) : list string := resolve (rooted path) [] (elements path).

(** [path.Clean], and [filepath.Clean] on Unix. *)
Definition Clean (path : string) : string :=
  let body := Join (clean_elements path) "/" in
  if rooted path then ("/" ++ body)%string else if (body =? "")%string then "." else body.

(** [filepath.Join(a, b)]. *)
Definition JoinPath (a b : string) : string :=
  if (a =? "")%string then (if (b =? "")%string then "" else Clean b)
  else if (b =? "")%string then Clean a else Clean (a ++ "/" ++ b)%string.

(** What follows the last separator, and what precedes it (inclusive). *)
Fixpoint last_segment (seg l : list ascii) : list ascii :=
  match l with
  | [] => rev seg
  | c :: l' => if Ascii.eqb c slash then last_segment [] l' else last_segment (c :: seg) l'
  end.

Definition after_slash (path : string) : string := of_bytes (last_segment [] (bytes path)).

Definition upto_slash (path : string) : string :=
  of_bytes (take (String.length path - String.length (after_slash path)) (bytes path)).

(** [filepath.Dir] and [filepath.Base]. *)
Definition Dir_ (path : string) : string := Clean (upto_slash path).

Definition trim_right (c : ascii) (s : string) : string := of_bytes (rev (drop_char c (rev (bytes s)))).

Definition Base (path : string) : string :=
  if (path =? "")%string then "."
  else let path := trim_right slash path in
       if (path =? "")%string then "/" else after_slash path.

(** [filepath.Rel]: both paths cleaned, the common elements dropped. *)
Fixpoint strip_common (a b : list string) : list string * list string :=
  match a, b with
  | x :: a', y :: b' => if (x =? y)%string then strip_common a' b' else (a, b)
  | _, _ => (a, b)
  end.

Definition Rel (base targ : string) : option string :=
  if (Clean base =? Clean targ)%string then Some "."
  else if negb (Bool.eqb (rooted base) (rooted targ)) then None
  else let '(b, t) := strip_common (clean_elements base) (clean_elements targ) in
       match b with
       | ".."%string :: _ => None
       | _ => Some (Join (map (fun _ => "..") b ++ t) "/")
       end.

(** ** System calls *)

(** [Fails n] and [Dies n]: the call does not complete; a write has transferred
    [n] bytes by then. *)
Inductive fate := Proceeds | Fails (n : nat) | Dies (n : nat).

Inductive oserr := ErrNotExist | ErrExist | ErrNotSupported | ErrIO | Killed.

Record os (D : Type) : Type := mkOS { disk : D; fates : list fate }.
Arguments mkOS {D}.
Arguments disk {D}.
Arguments fates {D}.

Section Calls.
Context {D : Type}.

(** A call that completes by [act] and leaves [partial n] when cut short. *)
Definition syscall {A : Type} (act : D -> result oserr A * D) (partial : nat -> D -> D) : tx (os D) oserr A :=
  fun s =>
    match fates s with
    | Fails n :: rest => (Err ErrIO, mkOS (partial n (disk s)) rest)
    | Dies n :: rest => (Err Killed, mkOS (partial n (disk s)) rest)
    | Proceeds :: rest => let '(r, d) := act (disk s) in (r, mkOS d rest)
    | [] => let '(r, d) := act (disk s) in (r, mkOS d [])
    end.

(** A call with no visible effect when it is cut short. *)
Definition atomically {A : Type} (act : D -> result oserr A * D) : tx (os D) oserr A := syscall act (fun _ d => d).

(** A call that reads. *)
Definition query {A : Type} (f : D -> result oserr A) : tx (os D) oserr A := atomically (fun d => (f d, d)).

(** A call whose only effect is outside the model ([Chmod], [Sync], [Close],
    [MkdirAll]): it succeeds or fails. *)
Definition opaque_call : tx (os D) oserr unit := query (fun _ => Ok tt).

End Calls.

(** [fmt.Errorf("...: %w", err)]: an error with the step it happened in. *)
Definition wrap {S E A : Type} (f : oserr -> E) (m : tx S oserr A) : tx S E A :=
  fun s => match m s with (Ok a, s') => (Ok a, s') | (Err e, s') => (Err (f e), s') end.

(** [defer func() { if err != nil { cleanup } }()]: a killed process runs no
    deferred function; the error of the body is kept. *)
Definition defer_on_error {S E A : Type} (killed : E -> bool) (m : tx S E A) (cleanup : tx S E unit) : tx S E A :=
  fun s => match m s with
           | (Err e, s') => if killed e then (Err e, s') else (Err e, snd (cleanup s'))
           | ok => ok
           end.

(** ** Lemmas *)

Section CallLemmas.
Context {D : Type}.

(** What a call can leave on the disk. *)
Lemma syscall_disk {A} (act : D -> result oserr A * D) partial s r s' :
  syscall act partial s = (r, s') ->
  (r = fst (act (disk s)) /\ disk s' = snd (act (disk s))) \/
  (exists n e, r = Err e /\ disk s' = partial n (disk s)).
Proof.
  unfold syscall. destruct (fates s) as [|[|n|n] rest].
  - destruct (act (disk s)) as [r0 d0]. intros [= <- <-]. by left.
  - destruct (act (disk s)) as [r0 d0]. intros [= <- <-]. by left.
  - intros [= <- <-]. right. by exists n, ErrIO.
  - intros [= <- <-]. right. by exists n, Killed.
Qed.

Lemma query_disk {A} (f : D -> result oserr A) s r s' : query f s = (r, s') -> disk s' = disk s.
Proof. intros H. by apply syscall_disk in H as [[_ ->]|(n & e & _ & ->)]. Qed.

Lemma query_ok {A} (f : D -> result oserr A) s a s' : query f s = (Ok a, s') -> f (disk s) = Ok a.
Proof. intros H. by apply syscall_disk in H as [[-> _]|(n & e & ? & _)]. Qed.

Lemma opaque_disk (s : os D) r s' : opaque_call s = (r, s') -> disk s' = disk s.
Proof. apply query_disk. Qed.

(** A call with nothing left to go wrong. *)
Lemma syscall_clean {A} (act : D -> result oserr A * D) partial d :
  syscall act partial (mkOS d []) = (fst (act d), mkOS (snd (act d)) []).
Proof. unfold syscall. simpl. by destruct (act d). Qed.

End CallLemmas.

Lemma wrap_ok {S E A} (f : oserr -> E) (m : tx S oserr A) s a s' : wrap f m s = (Ok a, s') -> m s = (Ok a, s').
Proof. unfold wrap. destruct (m s) as [[]]; congruence. Qed.

Lemma wrap_state {S E A} (f : oserr -> E) (m : tx S oserr A) s : snd (wrap f m s) = snd (m s).
Proof. unfold wrap. by destruct (m s) as [[]]. Qed.

(** ** Lemmas on paths *)

Lemma last_segment_app seg l m :
  last_segment seg (l ++ slash :: m) = last_segment [] m.
Proof. revert seg. induction l as [|c l IH]; intros seg; simpl; [done|]. by case_match. Qed.

Lemma last_segment_plain seg l :
  forallb (fun c => negb (Ascii.eqb c slash)) l = true -> last_segment seg l = rev seg ++ l.
Proof.
  revert seg. induction l as [|c l IH]; intros seg; simpl; [by rewrite app_nil_r|].
  intros [H1 H2]%andb_prop. apply negb_true_iff in H1 as ->. rewrite IH by done. simpl. by rewrite <- app_assoc.
Qed.

(** The last element of a path is what follows its last separator. *)
Lemma after_slash_join a b :
  forallb (fun c => negb (Ascii.eqb c slash)) (bytes b) = true -> after_slash (a ++ "/" ++ b)%string = b.
Proof.
  intros Hb. unfold after_slash. rewrite !bytes_app. change (bytes "/") with [slash]. simpl.
  rewrite last_segment_app, last_segment_plain by done. apply of_bytes_bytes.
Qed.

Example path_forms :
  Clean "a//b/./c/.." = "a/b" /\ Clean "/../x" = "/x" /\ Clean "../../x" = "../../x" /\ Clean "a/.." = "." /\
  Clean "" = "." /\ Clean "/" = "/" /\ Base "/a/b/" = "b" /\ Base "" = "." /\ Base "//" = "/" /\
  Dir_ "/a/b" = "/a" /\ Dir_ "b" = "." /\ Dir_ "/b" = "/" /\ JoinPath "/r" "../x" = "/x" /\
  Rel "/a/b" "/a/c/d" = Some "../c/d" /\ Rel "/a" "/a" = Some "." /\ Rel "a" "/a" = None /\ Rel "/a" "/a/b" = Some "b".
Proof. repeat split; vm_compute; reflexivity. Qed.
