(* ===== verification/Securestore.v ===== *)
(** * internal/securestore: authenticated encryption of state files

    [Sealer] with [Seal] and [Open] of one value, [WriteFile] and [ReadFile] of
    one file, and the streaming format of [WriteReaderFile], [OpenReaderFile] and
    [VerifyReaderFile].  AES-256-GCM is the class [AEAD]; the random source is a
    list of bytes that is consumed; the source of a stream is the list of what
    its successive reads return.  Files are compared by their path as written. *)

From Stdlib Require Import ZArith Lia Bool Ascii String.
From stdpp Require Import base tactics list strings gmap.
From S2P Require Import Prelude GoStrings GoText GoFiles.

Local Open Scope string_scope.
Local Open Scope list_scope.
Local Open Scope bool_scope.
Local Open Scope Z_scope.
Local Open Scope tx_scope.

Definition formatHeader : Bytes := bytes "swarmops-sealed-v1" ++ [chr 0].
Definition streamFormatHeader : Bytes := bytes "swarmops-sealed-stream-v1" ++ [chr 0].
Definition keySize : Z := 32.
Definition streamChunkSize : Z := 65536.
Definition maxIdleStreamReads : Z := 128.

(** The sizes of [cipher.NewGCM]. *)
Definition NonceSize : nat := 12.
Definition Overhead : nat := 16.

(** AES-GCM under a key: a sealed text has the length of its plain text plus
    the tag, opens to it under the same nonce and associated data, and nothing
    else opens: the decryption that [Open] returns re-encrypts to its input. *)
Class AEAD := {
  gcm_seal : Bytes -> Bytes -> Bytes -> Bytes -> Bytes;          (* key nonce plaintext data *)
  gcm_open : Bytes -> Bytes -> Bytes -> Bytes -> option Bytes;   (* key nonce ciphertext data *)
  seal_length : forall k n p a, List.length (gcm_seal k n p a) = (List.length p + Overhead)%nat;
  open_seal : forall k n p a, gcm_open k n (gcm_seal k n p a) a = Some p;
  open_sealed : forall k n c a p, gcm_open k n c a = Some p -> c = gcm_seal k n p a
}.

Inductive serr :=
| ErrKeySize | ErrNotConfigured | ErrPurposeRequired | ErrPathRequired | ErrSourceRequired | ErrLimitInvalid
| ErrInvalidCiphertext | ErrNonce | ErrFrameTooLarge | ErrSourceLimit | ErrSourceRead | ErrSourceStalled
| ErrReaderClosed | ErrOs (step : string) (e : oserr) | ErrOpenState (e : serr).

Fixpoint killed (e : serr) : bool :=
  match e with ErrOs _ Killed => true | ErrOpenState e => killed e | _ => false end.

(** ** The disk and the random source *)

Inductive file := Regular (content : Bytes) | Special.

Record Host := mkHost { files : gmap string file; entropy : Bytes }.

Definition with_files (f : gmap string file -> gmap string file) (h : Host) : Host := mkHost (f (files h)) (entropy h).

Abbreviation io A := (tx (os Host) serr A).

(** [io.ReadFull(rand.Reader, nonce)] *)
Definition read_nonce : io Bytes :=
  fun s =>
    let e := entropy (disk s) in
    if (List.length e <? NonceSize)%nat then (Err ErrNonce, mkOS (mkHost (files (disk s)) []) (fates s))
    else (Ok (take NonceSize e), mkOS (mkHost (files (disk s)) (drop NonceSize e)) (fates s)).

(** [os.ReadFile] *)
Definition os_ReadFile (path : string) : io Bytes :=
  wrap (ErrOs "read") (query (fun h => match files h !! path with
                                       | Some (Regular c) => Ok c
                                       | Some Special => Err ErrIO
                                       | None => Err ErrNotExist
                                       end)).

(** [os.CreateTemp(directory, pattern)] with the pattern's "*" at its end; the
    random suffixes it tries are an argument, and it never opens an existing
    file. *)
Definition ends_slash (path : string) : bool :=
  match last (bytes path) with Some c => Ascii.eqb c slash | None => false end.

Definition temp_path (directory prefix suffix : string) : string :=
  (if ends_slash directory then directory ++ prefix ++ suffix else directory ++ "/" ++ prefix ++ suffix)%string.

Definition CreateTemp (directory prefix : string) (suffixes : list string) : io string :=
  wrap (ErrOs "create encrypted state file") (atomically (fun h =>
    if negb (plain_name prefix) then (Err ErrNotSupported, h)
    else
      match List.find (fun sfx => plain_name sfx && bool_decide (files h !! temp_path directory prefix sfx = None)) suffixes with
      | Some sfx => let name := temp_path directory prefix sfx in
                    (Ok name, with_files (fun m => <[name := Regular []]> m) h)
      | None => (Err ErrExist, h)
      end)).

Definition append_to (name : string) (data : Bytes) (h : Host) : Host :=
  with_files (fun m => match m !! name with
                       | Some (Regular c) => <[name := Regular (c ++ data)]> m
                       | _ => m
                       end) h.

(** [file.Write(data)] on a descriptor opened for the file [name]. *)
Definition Write (step name : string) (data : Bytes) : io unit :=
  wrap (ErrOs step) (syscall (fun h => (Ok tt, append_to name data h)) (fun n => append_to name (take n data))).

Definition os_Remove (name : string) : io unit :=
  wrap (ErrOs "remove") (atomically (fun h =>
    match files h !! name with
    | Some _ => (Ok tt, with_files (delete name) h)
    | None => (Err ErrNotExist, h)
    end)).

Definition os_Rename (from to : string) : io unit :=
  wrap (ErrOs "replace encrypted state") (atomically (fun h =>
    match files h !! from, files h !! to with
    | None, _ => (Err ErrNotExist, h)
    | Some _, Some Special => (Err ErrExist, h)
    | Some f, _ => (Ok tt, with_files (fun m => <[to := f]> (delete from m)) h)
    end)).

Definition step (name : string) : io unit := wrap (ErrOs name) opaque_call.

(** [directory.Sync()] after [os.Open(path)]. *)
Definition syncDirectory (path : string) : io unit :=
  step "sync encrypted state directory" ;;; step "sync encrypted state directory".

(** [RemoveFile] *)
Definition RemoveFile (path : string) : io unit := os_Remove path ;;; syncDirectory (Dir_ path).

(** ** One value *)

(** A nil [*Sealer] is [None]. *)
Abbreviation Sealer := (option Bytes).

Definition New (key : Bytes) : result serr Sealer :=
  if blen key =? keySize then Ok (Some key) else Err ErrKeySize.

Section Sealing.
Context `{AEAD}.

Definition Seal (s : Sealer) (purpose : string) (plaintext : Bytes) : io Bytes :=
  match s with
  | None => tx_fail ErrNotConfigured
  | Some key =>
      tx_guard (negb (purpose =? "")%string) ErrPurposeRequired ;;;
      nonce <- read_nonce ;;
      tx_ret (formatHeader ++ nonce ++ gcm_seal key nonce plaintext (bytes purpose))
  end.

Definition Open (s : Sealer) (purpose : string) (ciphertext : Bytes) : result serr Bytes :=
  match s with
  | None => Err ErrNotConfigured
  | Some key =>
      if (purpose =? "")%string then Err ErrPurposeRequired
      else
        let headerSize := List.length formatHeader in
        if (List.length ciphertext <? headerSize + NonceSize + Overhead)%nat || negb (beq (take headerSize ciphertext) formatHeader)
        then Err ErrInvalidCiphertext
        else match gcm_open key (take NonceSize (drop headerSize ciphertext)) (drop (headerSize + NonceSize) ciphertext)
                     (bytes purpose) with
             | Some plaintext => Ok plaintext
             | None => Err ErrInvalidCiphertext
             end
  end.

Definition ReadFile (s : Sealer) (path purpose : string) : io Bytes :=
  ciphertext <- os_ReadFile path ;;
  tx_lift (match Open s purpose ciphertext with Ok p => Ok p | Err e => Err (ErrOpenState e) end).

(** The deferred function of the two writers. *)
Definition discard (name : string) : io unit :=
  fun st => match step "close" st with
            | (Err (ErrOs w Killed), st') => (Err (ErrOs w Killed), st')
            | (_, st') => os_Remove name st'
            end.

Definition replace (name path : string) : io unit :=
  step "sync encrypted state" ;;;
  step "close encrypted state" ;;;
  os_Rename name path ;;;
  syncDirectory (Dir_ path).

Definition WriteFile (s : Sealer) (suffixes : list string) (path purpose : string) (plaintext : Bytes) : io unit :=
  tx_guard (negb (path =? "")%string) ErrPathRequired ;;;
  ciphertext <- Seal s purpose plaintext ;;
  step "create encrypted state directory" ;;;
  name <- CreateTemp (Dir_ path) ("." ++ Base path ++ ".tmp-") suffixes ;;
  defer_on_error killed
    (step "protect encrypted state file" ;;;
     Write "write encrypted state" name ciphertext ;;;
     replace name path)
    (discard name).

(** ** Streams *)

(** [binary.BigEndian]: [n] bytes of an unsigned integer. *)
Fixpoint big_endian (n : nat) (z : Z) : Bytes :=
  match n with
  | O => []
  | S n' => big_endian n' (z / 256) ++ [chr (z mod 256)]
  end.

Definition from_big_endian (l : Bytes) : Z := fold_left (fun acc c => 256 * acc + code c) l 0.

Definition streamAssociatedData (purpose : string) (index : Z) (final : bool) : Bytes :=
  bytes purpose ++ [chr 0] ++ big_endian 8 index ++ [if final then chr 1 else chr 0].

Definition frame_prefix (final : bool) (frame : Bytes) : Bytes :=
  (if final then chr 1 else chr 0) :: big_endian 4 (blen frame).

Definition writeStreamFrame (key : Bytes) (name purpose : string) (index : Z) (final : bool) (plaintext : Bytes) : io unit :=
  nonce <- read_nonce ;;
  let frame := nonce ++ gcm_seal key nonce plaintext (streamAssociatedData purpose index final) in
  tx_guard (blen frame <=? 4294967295) ErrFrameTooLarge ;;;
  Write "write encrypted state frame" name (frame_prefix final frame) ;;;
  Write "write encrypted state frame" name frame.

(** What one [source.Read(buffer)] returned. *)
Inductive readErr := NoError | AtEOF | Broken.
Record chunk := mkChunk { ch_data : Bytes; ch_err : readErr }.

(** The loop of [WriteReaderFile]; a source with nothing more to say is at its
    end. *)
Fixpoint seal_chunks (key : Bytes) (name purpose : string) (maxBytes : Z) (source : list chunk) (index written idle : Z)
  : io Z :=
  match source with
  | [] => writeStreamFrame key name purpose index true [] ;;; tx_ret written
  | c :: rest =>
      let count := blen (ch_data c) in
      (if count >? 0 then
         tx_guard (negb (written >? int64_of (maxBytes - count))) ErrSourceLimit ;;;
         writeStreamFrame key name purpose index false (ch_data c)
       else tx_ret tt) ;;;
      let written' := if count >? 0 then int64_of (written + count) else written in
      let index' := if count >? 0 then uint64_of (index + 1) else index in
      let idle' := if count >? 0 then 0 else idle + 1 in
      match ch_err c with
      | AtEOF => writeStreamFrame key name purpose index' true [] ;;; tx_ret written'
      | Broken => tx_fail ErrSourceRead
      | NoError =>
          tx_guard (negb ((count =? 0) && (idle' >? maxIdleStreamReads))) ErrSourceStalled ;;;
          seal_chunks key name purpose maxBytes rest index' written' idle'
      end
  end.

Definition WriteReaderFile (s : Sealer) (suffixes : list string) (path purpose : string) (source : option (list chunk))
  (maxBytes : Z) : io Z :=
  match s with
  | None => tx_fail ErrNotConfigured
  | Some key =>
      tx_guard (negb (path =? "")%string) ErrPathRequired ;;;
      tx_guard (negb (purpose =? "")%string) ErrPurposeRequired ;;;
      match source with
      | None => tx_fail ErrSourceRequired
      | Some source =>
          tx_guard (0 <=? maxBytes) ErrLimitInvalid ;;;
          step "create encrypted state directory" ;;;
          name <- CreateTemp (Dir_ path) ("." ++ Base path ++ ".tmp-") suffixes ;;
          defer_on_error killed
            (step "protect encrypted state file" ;;;
             Write "write encrypted state header" name streamFormatHeader ;;;
             written <- seal_chunks key name purpose maxBytes source 0 0 0 ;;
             replace name path ;;;
             tx_ret written)
            (discard name)
      end
  end.

(** ** The reader of a stream *)

(** The open file is what is left of it to read; a closed one is [None]. *)
Record sealedStreamReader := mkReader {
  r_buffer : Bytes; r_done : bool; r_file : option Bytes; r_index : Z; r_purpose : string; r_key : Bytes }.

Abbreviation rd A := (tx (os sealedStreamReader) serr A).

Definition OpenReaderFile (s : Sealer) (path purpose : string) : io sealedStreamReader :=
  match s with
  | None => tx_fail ErrNotConfigured
  | Some key =>
      tx_guard (negb (purpose =? "")%string) ErrPurposeRequired ;;;
      f <- wrap (ErrOs "open") (query (fun h => match files h !! path with Some f => Ok f | None => Err ErrNotExist end)) ;;
      step "stat" ;;;
      match f with
      | Special => step "close" ;;; tx_fail ErrInvalidCiphertext
      | Regular content =>
          header <- (fun st => match step "read" st with
                               | (Ok _, st') => (Ok (take (List.length streamFormatHeader) content), st')
                               | (Err (ErrOs _ Killed), st') => (Err (ErrOs "read" Killed), st')
                               | (Err _, st') => (Err ErrInvalidCiphertext, st')
                               end) ;;
          tx_guard (beq header streamFormatHeader) ErrInvalidCiphertext ;;;
          tx_ret (mkReader [] false (Some (drop (List.length streamFormatHeader) content)) 0 purpose key)
      end
  end.

(** [io.ReadFull(r.file, buffer)] with a buffer of [n] bytes: [None] at the end
    of the file or inside a shorter rest, which is read all the same. *)
Definition read_full (n : nat) : rd (option Bytes) :=
  wrap (ErrOs "read encrypted state frame") (atomically (fun r =>
    let rest := default [] (r_file r) in
    let r' := mkReader (r_buffer r) (r_done r) (Some (drop n rest)) (r_index r) (r_purpose r) (r_key r) in
    (Ok (if (List.length rest <? n)%nat then None else Some (take n rest)), r'))).

Definition set_index (r : sealedStreamReader) : sealedStreamReader :=
  mkReader (r_buffer r) (r_done r) (r_file r) (uint64_of (r_index r + 1)) (r_purpose r) (r_key r).
Definition set_buffer (b : Bytes) (r : sealedStreamReader) : sealedStreamReader :=
  mkReader b (r_done r) (r_file r) (r_index r) (r_purpose r) (r_key r).
Definition set_done (r : sealedStreamReader) : sealedStreamReader :=
  mkReader (r_buffer r) true (r_file r) (r_index r) (r_purpose r) (r_key r).

Definition on_reader (f : sealedStreamReader -> sealedStreamReader) : rd unit :=
  tx_modify (fun s => mkOS (f (disk s)) (fates s)).

Definition required {A : Type} (o : option A) : rd A :=
  match o with Some a => tx_ret a | None => tx_fail ErrInvalidCiphertext end.

(** The read behind the last frame, whose every error but the end is refused. *)
Definition read_trailing : rd (option Bytes) :=
  fun st => match read_full 1 st with
            | (Err (ErrOs w Killed), st') => (Err (ErrOs w Killed), st')
            | (Err _, st') => (Err ErrInvalidCiphertext, st')
            | ok => ok
            end.

Definition readFrame : rd unit :=
  p <- read_full 5 ;;
  prefix <- required p ;;
  let kind := code (hd (chr 0) prefix) in
  let final := kind =? 1 in
  tx_guard ((kind =? 0) || final) ErrInvalidCiphertext ;;;
  let frameLength := from_big_endian (tail prefix) in
  let minimumLength := Z.of_nat (NonceSize + Overhead) in
  tx_guard ((minimumLength <=? frameLength) && (frameLength <=? minimumLength + streamChunkSize)) ErrInvalidCiphertext ;;;
  f <- read_full (Z.to_nat frameLength) ;;
  frame <- required f ;;
  r <- tx_gets disk ;;
  plaintext <- required (gcm_open (r_key r) (take NonceSize frame) (drop NonceSize frame)
                           (streamAssociatedData (r_purpose r) (r_index r) final)) ;;
  on_reader set_index ;;;
  if final then
    tx_guard (blen plaintext =? 0) ErrInvalidCiphertext ;;;
    trailing <- read_trailing ;;
    tx_guard (match trailing with Some _ => false | None => true end) ErrInvalidCiphertext ;;;
    on_reader set_done
  else
    tx_guard (negb (blen plaintext =? 0)) ErrInvalidCiphertext ;;;
    on_reader (set_buffer plaintext).

(** The loop of [Read]: each frame is shorter than what is left of the file. *)
Fixpoint fill (fuel : nat) : rd unit :=
  match fuel with
  | O => tx_ret tt
  | S fuel' =>
      r <- tx_gets disk ;;
      if (blen (r_buffer r) =? 0) && negb (r_done r) then readFrame ;;; fill fuel' else tx_ret tt
  end.

Definition left_to_read (r : sealedStreamReader) : nat := List.length (default [] (r_file r)).

(** [Read] into a buffer of [n] bytes: what was copied, [None] at the end. *)
Definition Read (n : nat) : rd (option Bytes) :=
  if (n =? 0)%nat then tx_ret (Some [])
  else
    r <- tx_gets disk ;;
    match r_file r with
    | None => tx_fail ErrReaderClosed
    | Some _ =>
        fill (S (left_to_read r)) ;;;
        r <- tx_gets disk ;;
        if blen (r_buffer r) =? 0 then tx_ret None
        else on_reader (set_buffer (drop n (r_buffer r))) ;;; tx_ret (Some (take n (r_buffer r)))
    end.

Definition Close : rd unit :=
  on_reader (set_buffer []) ;;;
  r <- tx_gets disk ;;
  match r_file r with
  | None => tx_ret tt
  | Some _ =>
      fun st => let '(res, st') := wrap (ErrOs "close") opaque_call st in
                (res, mkOS (mkReader [] (r_done r) None (r_index r) (r_purpose r) (r_key r)) (fates st'))
  end.

(** [io.Copy] from the reader, with its buffer of [n] bytes: everything read up
    to the end. *)
Fixpoint copy_all (fuel n : nat) : rd Bytes :=
  match fuel with
  | O => tx_fail ErrSourceStalled
  | S fuel' =>
      got <- Read n ;;
      match got with
      | None => tx_ret []
      | Some b => rest <- copy_all fuel' n ;; tx_ret (b ++ rest)
      end
  end.

(** Reading a stream from its file to its end, as its callers do; [n] is the
    buffer they read with. *)
Definition read_stream (s : Sealer) (path purpose : string) (n : nat) : io Bytes :=
  r <- OpenReaderFile s path purpose ;;
  fun st => let '(res, st') := copy_all (S (S (left_to_read r))) n (mkOS r (fates st)) in
            (res, mkOS (disk st) (fates st')).

(** The buffer of [io.Copy] to [io.Discard]. *)
Definition discardBuffer : nat := Z.to_nat 8192.

Definition VerifyReaderFile (s : Sealer) (path purpose : string) : io unit :=
  r <- OpenReaderFile s path purpose ;;
  fun st =>
    let '(readErr, st1) := copy_all (S (S (left_to_read r))) discardBuffer (mkOS r (fates st)) in
    match readErr with
    | Err (ErrOs w Killed) => (Err (ErrOs w Killed), mkOS (disk st) (fates st1))
    | _ =>
        let '(closeErr, st2) := Close st1 in
        (match readErr with Err e => Err e | Ok _ => closeErr end, mkOS (disk st) (fates st2))
    end.

End Sealing.
