(* ===== verification/SecureFormat.v ===== *)
(** * The format of sealed streams

    [encode] is the stream as a function of its frames.  The reader accepts
    exactly the encodings and returns their content, whatever buffer it is read
    with ([read_stream_sound], [read_stream_complete]). *)

From Stdlib Require Import ZArith Lia Bool Ascii String.
From stdpp Require Import base tactics list strings gmap.
From S2P Require Import Prelude GoStrings GoText GoFiles Securestore.

Local Open Scope string_scope.
Local Open Scope list_scope.
Local Open Scope bool_scope.
Local Open Scope Z_scope.
Local Open Scope tx_scope.

(** ** Bytes *)

Lemma beq_eq a b : beq a b = true <-> a = b.
Proof.
  revert b. induction a as [|x a IH]; intros [|y b]; simpl; try done.
  rewrite andb_true_iff, Ascii.eqb_eq, IH. split; [by intros [-> ->]|by intros [= -> ->]].
Qed.

Lemma from_big_endian_snoc l c : from_big_endian (l ++ [c]) = 256 * from_big_endian l + code c.
Proof. unfold from_big_endian. by rewrite fold_left_app. Qed.

Lemma big_endian_length n z : List.length (big_endian n z) = n.
Proof. revert z. induction n as [|n IH]; intros z; simpl; [done|]. rewrite length_app, IH. simpl. lia. Qed.

Lemma big_endian_decode n z : 0 <= z < 256 ^ Z.of_nat n -> from_big_endian (big_endian n z) = z.
Proof.
  revert z. induction n as [|n IH]; intros z Hz.
  - simpl in *. unfold from_big_endian. simpl. lia.
  - cbn [big_endian]. rewrite from_big_endian_snoc, code_chr by (apply Z.mod_pos_bound; lia).
    rewrite IH; [pose proof (Z.div_mod z 256); lia|]. replace (Z.of_nat (S n)) with (Z.of_nat n + 1) in Hz by lia.
    rewrite Z.pow_add_r in Hz by lia. split; [apply Z.div_pos; lia|]. apply Z.div_lt_upper_bound; lia.
Qed.

Lemma big_endian_encode l : big_endian (List.length l) (from_big_endian l) = l.
Proof.
  induction l as [|c l IH] using rev_ind; [done|].
  rewrite length_app, Nat.add_1_r. cbn [big_endian]. rewrite from_big_endian_snoc.
  pose proof (code_range c) as Hc.
  rewrite (Z.mul_comm 256), Z.div_add_l, Z.div_small, Z.add_0_r by lia.
  rewrite Z.add_comm, Z.mod_add, Z.mod_small, chr_code by lia. by rewrite IH.
Qed.

Lemma from_big_endian_range l : 0 <= from_big_endian l < 256 ^ Z.of_nat (List.length l).
Proof.
  induction l as [|c l IH] using rev_ind; [done|].
  rewrite from_big_endian_snoc, length_app, Nat.add_1_r, Nat2Z.inj_succ, Z.pow_succ_r by lia.
  pose proof (code_range c). lia.
Qed.

Lemma blen_app a b : blen (a ++ b) = blen a + blen b.
Proof. unfold blen. rewrite length_app. lia. Qed.

Lemma blen_nil_inv l : blen l = 0 -> l = [].
Proof. destruct l; unfold blen; simpl; [done|lia]. Qed.

(** The associated data of a frame tells its purpose, its place and whether it
    is the last. *)
Lemma associated_data_inj P i f Q j g :
  is_uint64 i -> is_uint64 j ->
  streamAssociatedData P i f = streamAssociatedData Q j g -> P = Q /\ i = j /\ f = g.
Proof.
  unfold streamAssociatedData. intros Hi Hj E.
  assert (List.length (bytes P) = List.length (bytes Q)) as HL.
  { apply (f_equal (@List.length ascii)) in E. rewrite !length_app, !big_endian_length in E. simpl in E. lia. }
  apply app_inj_1 in E as [E1 E2]; [|done]. apply app_inv_head in E2.
  apply app_inj_1 in E2 as [E2 E3]; [|by rewrite !big_endian_length].
  split; [|split].
  - by rewrite <- (of_bytes_bytes P), E1, of_bytes_bytes.
  - apply (f_equal from_big_endian) in E2. rewrite !big_endian_decode in E2; [done|exact Hj|exact Hi].
  - by destruct f, g.
Qed.

(** ** The format *)

Section Format.
Context `{AEAD} (key : Bytes) (purpose : string).

Definition frame_of (index : Z) (final : bool) (nonce plaintext : Bytes) : Bytes :=
  nonce ++ gcm_seal key nonce plaintext (streamAssociatedData purpose index final).

Definition framed (index : Z) (final : bool) (nonce plaintext : Bytes) : Bytes :=
  let frame := frame_of index final nonce plaintext in frame_prefix final frame ++ frame.

(** A stream of data frames (nonce, plain text) and its terminal frame. *)
Fixpoint encode (index : Z) (fs : list (Bytes * Bytes)) (last : Bytes) : Bytes :=
  match fs with
  | [] => framed index true last []
  | (n, p) :: fs' => framed index false n p ++ encode (uint64_of (index + 1)) fs' last
  end.

Definition content (fs : list (Bytes * Bytes)) : Bytes := concat (map snd fs).

Definition frame_ok (f : Bytes * Bytes) : Prop :=
  List.length f.1 = NonceSize /\ 0 < blen f.2 <= streamChunkSize.

Definition frames_ok (fs : list (Bytes * Bytes)) (last : Bytes) : Prop :=
  Forall frame_ok fs /\ List.length last = NonceSize.

Definition stream_of (fs : list (Bytes * Bytes)) (last : Bytes) : Bytes := streamFormatHeader ++ encode 0 fs last.

Lemma frame_of_length i f n p :
  List.length n = NonceSize -> blen (frame_of i f n p) = Z.of_nat (NonceSize + Overhead) + blen p.
Proof. intros Hn. unfold frame_of. rewrite blen_app. unfold blen. rewrite seal_length, Hn. lia. Qed.

(** ** Reading a frame *)

Lemma read_full_spec n r fs res s' :
  read_full n (mkOS r fs) = (Ok res, s') ->
  disk s' = mkReader (r_buffer r) (r_done r) (Some (drop n (default [] (r_file r)))) (r_index r) (r_purpose r) (r_key r) /\
  res = (if (List.length (default [] (r_file r)) <? n)%nat then None else Some (take n (default [] (r_file r)))).
Proof.
  intros E. apply wrap_ok in E. apply syscall_disk in E as [[E1 E2]|(m & e & ? & _)]; [|done].
  simpl in *. injection E1 as ->. by rewrite E2.
Qed.

Lemma read_full_clean n r :
  read_full n (mkOS r []) =
  (Ok (if (List.length (default [] (r_file r)) <? n)%nat then None else Some (take n (default [] (r_file r)))),
   mkOS (mkReader (r_buffer r) (r_done r) (Some (drop n (default [] (r_file r)))) (r_index r) (r_purpose r) (r_key r)) []).
Proof. unfold read_full, wrap, atomically. by rewrite syscall_clean. Qed.


Definition reader (buffer : Bytes) (done : bool) (rest : Bytes) (index : Z) : sealedStreamReader :=
  mkReader buffer done (Some rest) index purpose key.

Lemma split_prefix (rest : Bytes) :
  (5 <= List.length rest)%nat -> exists c l, take 5 rest = c :: l /\ List.length l = 4%nat.
Proof.
  intros HL. assert (List.length (take 5 rest) = 5%nat) as HT by (rewrite length_take; lia).
  destruct (take 5 rest) as [|c l]; simpl in HT; [lia|]. exists c, l. split; [done|lia].
Qed.

(** A frame that is accepted is the framing of the plain text it yields. *)
Lemma accepted_frame (final : bool) (c : ascii) (l frame p : Bytes) (i : Z) :
  code c = (if final then 1 else 0) -> List.length l = 4%nat ->
  List.length frame = Z.to_nat (from_big_endian l) -> (NonceSize + Overhead <= List.length frame)%nat ->
  gcm_open key (take NonceSize frame) (drop NonceSize frame) (streamAssociatedData purpose i final) = Some p ->
  (c :: l) ++ frame = framed i final (take NonceSize frame) p /\ List.length (take NonceSize frame) = NonceSize /\
  blen frame = Z.of_nat (NonceSize + Overhead) + blen p.
Proof.
  intros Hc Hl Hf Hmin Ho. apply open_sealed in Ho.
  assert (frame_of i final (take NonceSize frame) p = frame) as HF.
  { unfold frame_of. rewrite <- Ho. apply take_drop. }
  assert (List.length (take NonceSize frame) = NonceSize) as HN.
  { rewrite length_take. unfold NonceSize, Overhead in *. lia. }
  pose proof (from_big_endian_range l) as Hr.
  unfold framed. rewrite HF. split; [|split; [done|]].
  - f_equal. unfold frame_prefix. f_equal.
    + rewrite <- (chr_code c), Hc. by destruct final.
    + rewrite <- Hl. unfold blen. rewrite Hf, Z2Nat.id by lia. by rewrite big_endian_encode.
  - rewrite <- HF at 1. by apply frame_of_length.
Qed.

Lemma required_ok {A} (o : option A) s a s' : required o s = (Ok a, s') -> o = Some a /\ s' = s.
Proof. destruct o; unfold required; intros; tx_prims; done. Qed.

Lemma on_reader_ok f s s' a : on_reader f s = (Ok a, s') -> disk s' = f (disk s).
Proof. unfold on_reader. intros. by tx_prims. Qed.

Lemma guard_ok {S E} b (e : E) (s : S) a s' : tx_guard b e s = (Ok a, s') -> b = true /\ s' = s.
Proof. unfold tx_guard. destruct b; intros; by tx_prims. Qed.

Lemma read_full_open n b d rest i fs res s' :
  read_full n (mkOS (reader b d rest i) fs) = (Ok res, s') ->
  disk s' = reader b d (drop n rest) i /\
  res = (if (List.length rest <? n)%nat then None else Some (take n rest)).
Proof. apply read_full_spec. Qed.

Lemma read_trailing_ok s o s' : read_trailing s = (Ok o, s') -> read_full 1 s = (Ok o, s').
Proof. unfold read_trailing. destruct (read_full 1 s) as [[x|e] y]; [done|]. by repeat case_match. Qed.

(** One statement of a reader that succeeded, its fact named. *)
Ltac rd_step Hr N :=
  tx_step Hr;
  match goal with
  | E : required _ _ = (Ok _, _) |- _ => apply required_ok in E as [N ->]
  | E : tx_guard _ _ _ = (Ok _, _) |- _ => apply guard_ok in E as [N ->]
  | E : tx_gets _ _ = (Ok _, _) |- _ => unfold tx_gets in E; injection E as <- <-
  | E : on_reader _ _ = (Ok _, _) |- _ => apply on_reader_ok in E; rename E into N
  | E : read_full _ _ = (Ok _, _) |- _ => rename E into N
  | E : read_trailing _ = (Ok _, _) |- _ => apply read_trailing_ok in E; rename E into N
  end.

Lemma readFrame_sound b d rest i fs a s' :
  readFrame (mkOS (reader b d rest i) fs) = (Ok a, s') ->
  (exists n p rest', rest = framed i false n p ++ rest' /\ frame_ok (n, p) /\
                     disk s' = reader p d rest' (uint64_of (i + 1))) \/
  (exists n, rest = framed i true n [] /\ List.length n = NonceSize /\ disk s' = reader b true [] (uint64_of (i + 1))).
Proof.
  intros Hr. unfold readFrame in Hr. rd_step Hr R1. apply read_full_open in R1 as [D1 ->]. rd_step Hr P1.
  destruct (List.length rest <? 5)%nat eqn:L1; [done|]. injection P1 as <-. apply Nat.ltb_ge in L1.
  destruct (split_prefix rest) as (c & l & HT & Hl); [lia|]. rewrite HT in Hr. cbn [hd tail] in Hr.
  rd_step Hr G1. rd_step Hr G2. apply andb_prop in G2 as [G2a%Z.leb_le G2b%Z.leb_le]. destruct s as [rr fr]. simpl in D1. subst rr.
  rd_step Hr R2. apply read_full_open in R2 as [D2 ->]. rd_step Hr P2.
  set (rest1 := drop 5 rest) in *. set (m := Z.to_nat (from_big_endian l)) in *.
  destruct (List.length rest1 <? m)%nat eqn:L2; [done|]. injection P2 as <-. apply Nat.ltb_ge in L2.
  rd_step Hr Q.  rd_step Hr Op. rewrite D2 in Op. cbn [r_key r_purpose r_index reader] in Op.
  rd_step Hr D3. rewrite D2 in D3.
  assert (List.length (take m rest1) = m) as HTm by (rewrite length_take; lia).
  destruct (accepted_frame (code c =? 1) c l (take m rest1) r1 i) as (HF & HN & HB); [|done|lia| |done|].
  { destruct (code c =? 1) eqn:C1; lia. }
  { rewrite HTm. unfold m. lia. }
  assert (rest = ((c :: l) ++ take m rest1) ++ drop m rest1) as HR.
  { rewrite <- app_assoc, take_drop, <- HT. symmetry. apply take_drop. }
  unfold set_index in D3. cbn [r_buffer r_done r_file r_index r_purpose r_key reader] in D3.
  destruct (code c =? 1) eqn:C1.
  - right. rd_step Hr G3. apply Z.eqb_eq, blen_nil_inv in G3. subst r1.
    rd_step Hr T1. rd_step Hr G4. apply on_reader_ok in Hr. destruct s0 as [q0 f0]. simpl in D3. subst q0.
    apply read_full_open in T1 as [D4 ->].
    destruct (List.length (drop m rest1) <? 1)%nat eqn:L3; [|done]. apply Nat.ltb_lt in L3.
    destruct (drop m rest1) as [|z zs] eqn:Z; [|simpl in L3; lia].
    exists (take NonceSize (take m rest1)). rewrite app_nil_r in HR. rewrite HR, HF. split; [done|]. split; [done|].
    rewrite Hr, D4. done.
  - left. rd_step Hr G3. apply on_reader_ok in Hr. rewrite D3 in Hr.
    exists (take NonceSize (take m rest1)), r1, (drop m rest1). rewrite HR, HF. split; [done|]. split; [|done].
    split; [done|]. simpl. apply negb_true_iff, Z.eqb_neq in G3. unfold blen in *. lia.
Qed.

Lemma framed_prefix i final n p :
  exists l, frame_prefix final (frame_of i final n p) = (if final then chr 1 else chr 0) :: l /\ List.length l = 4%nat.
Proof. eexists. split; [done|]. apply big_endian_length. Qed.

(** A well-formed frame is read, with everything behind it left in the file. *)
Lemma readFrame_complete (final : bool) b d i n p rest :
  List.length n = NonceSize -> (if final then p = [] /\ rest = [] else 0 < blen p <= streamChunkSize) ->
  readFrame (mkOS (reader b d (framed i final n p ++ rest) i) []) =
  (Ok tt, mkOS (reader (if final then b else p) (if final then true else d) rest (uint64_of (i + 1))) []).
Proof.
  intros Hn Hp. pose proof (frame_of_length i final n p Hn) as HB.
  assert (0 <= blen p <= streamChunkSize) as Hsz by (destruct final; [destruct Hp as [-> _]; by vm_compute|lia]).
  unfold framed. set (frame := frame_of i final n p) in *. rewrite <- app_assoc.
  assert (List.length (frame_prefix final frame) = 5%nat) as HP by (unfold frame_prefix; simpl; done).
  unfold readFrame, tx_bind. rewrite read_full_clean. cbn [r_file reader]. change (default [] (Some ?x)) with x.
  rewrite length_app, HP. rewrite (proj2 (Nat.ltb_ge _ _)) by lia.
  rewrite take_app_length', drop_app_length' by done. cbn [required tx_ret].
  assert (code (hd (chr 0) (frame_prefix final frame)) = if final then 1 else 0) as -> by (by destruct final).
  assert (tail (frame_prefix final frame) = big_endian 4 (blen frame)) as -> by done.
  rewrite big_endian_decode by (change (256 ^ Z.of_nat 4) with 4294967296; unfold streamChunkSize, NonceSize, Overhead in *; lia).
  assert (((if final then 1 else 0) =? 0) || ((if final then 1 else 0) =? 1) = true) as -> by (by destruct final).
  assert (((if final then 1 else 0) =? 1) = final) as -> by (by destruct final).
  cbn [tx_guard tx_ret]. rewrite (proj2 (andb_true_iff _ _)) by (split; apply Z.leb_le; lia). cbn [tx_guard tx_ret].
  rewrite read_full_clean. cbn [r_file]. change (default [] (Some ?x)) with x.
  rewrite length_app. unfold blen at 1 2 3. rewrite Nat2Z.id. rewrite (proj2 (Nat.ltb_ge _ _)) by lia.
  rewrite take_app_length, drop_app_length. unfold tx_gets. cbn [required tx_ret disk r_key r_purpose r_index r_buffer r_done].
  assert (take NonceSize frame = n) as -> by (unfold frame, frame_of; by rewrite take_app_length').
  assert (drop NonceSize frame = gcm_seal key n p (streamAssociatedData purpose i final)) as ->
    by (unfold frame, frame_of; by rewrite drop_app_length').
  rewrite open_seal. cbn [required tx_ret]. unfold on_reader, tx_modify. cbn [disk fates set_index r_buffer r_done r_file r_index r_purpose r_key].
  destruct final.
  - by destruct Hp as [-> ->].
  - rewrite (proj2 (Z.eqb_neq _ _)) by lia. done.
Qed.

(** ** Reading to the end *)

Lemma fill_idle fuel s : r_buffer (disk s) <> [] \/ r_done (disk s) = true -> fill fuel s = (Ok tt, s).
Proof.
  intros Hs. destruct fuel; [done|]. cbn [fill]. unfold tx_bind, tx_gets.
  destruct ((blen (r_buffer (disk s)) =? 0) && negb (r_done (disk s))) eqn:E; [|done].
  apply andb_prop in E as [E1%Z.eqb_eq%blen_nil_inv E2%negb_true_iff]. destruct Hs; congruence.
Qed.

(** One frame is enough: it holds data or is the last. *)
Lemma fill_frame fuel rest i fs :
  fill (S fuel) (mkOS (reader [] false rest i) fs) = readFrame (mkOS (reader [] false rest i) fs).
Proof.
  cbn [fill]. unfold tx_bind at 1, tx_gets. cbn [disk reader r_buffer r_done]. change (blen [] =? 0) with true. cbn [andb negb].
  unfold tx_bind. destruct (readFrame _) as [[[]|e] s'] eqn:R; [|done].
  apply readFrame_sound in R as [(n & p & rest' & _ & [_ Hp] & D)|(n & _ & _ & D)]; apply fill_idle; rewrite D; [left|by right].
  simpl in *. destruct p; [unfold blen in Hp; simpl in Hp; lia|done].
Qed.

Lemma Read_buffered n b d rest i fs :
  (0 < n)%nat -> b <> [] ->
  Read n (mkOS (reader b d rest i) fs) = (Ok (Some (take n b)), mkOS (reader (drop n b) d rest i) fs).
Proof.
  intros Hn Hb. unfold Read. rewrite (proj2 (Nat.eqb_neq _ _)) by lia.
  unfold tx_bind at 1, tx_gets at 1. cbn [disk r_file reader]. unfold tx_bind at 1. rewrite fill_idle by (left; done).
  unfold tx_bind, tx_gets, on_reader, tx_modify, tx_ret. cbn [disk r_buffer fates reader].
  destruct (blen b =? 0) eqn:E; [|done]. by apply Z.eqb_eq, blen_nil_inv in E.
Qed.

Lemma Read_done n rest i fs : (0 < n)%nat -> Read n (mkOS (reader [] true rest i) fs) = (Ok None, mkOS (reader [] true rest i) fs).
Proof.
  intros Hn. unfold Read. rewrite (proj2 (Nat.eqb_neq _ _)) by lia.
  unfold tx_bind at 1, tx_gets at 1. cbn [disk r_file reader]. unfold tx_bind at 1. by rewrite fill_idle by (by right).
Qed.

Lemma Read_frame n rest i fs :
  (0 < n)%nat ->
  Read n (mkOS (reader [] false rest i) fs) =
  match readFrame (mkOS (reader [] false rest i) fs) with (Ok _, s') => Read n s' | (Err e, s') => (Err e, s') end.
Proof.
  intros Hn. unfold Read at 1. rewrite (proj2 (Nat.eqb_neq _ _)) by lia.
  unfold tx_bind at 1, tx_gets at 1. cbn [disk r_file reader]. unfold tx_bind at 1. rewrite fill_frame.
  destruct (readFrame _) as [[[]|e] s'] eqn:R; [|done]. destruct s' as [r' f'].
  apply readFrame_sound in R as [(m & p & rest' & _ & [_ Hp] & D)|(m & _ & _ & D)]; simpl in D; subst r'.
  - assert (p <> []) by (intros ->; unfold blen in Hp; simpl in Hp; lia). rewrite Read_buffered by done.
    unfold tx_bind, tx_gets, on_reader, tx_modify, tx_ret. cbn [disk r_buffer fates reader].
    destruct (blen p =? 0) eqn:E; [|done]. by apply Z.eqb_eq, blen_nil_inv in E.
  - by rewrite Read_done.
Qed.

(** What a reader still has to deliver. *)
Definition delivers (b : Bytes) (d : bool) (rest : Bytes) (i : Z) (out : Bytes) : Prop :=
  if d then out = b else exists fs last, frames_ok fs last /\ rest = encode i fs last /\ out = b ++ content fs.

Lemma copy_all_sound fuel n b d rest i fs out s' :
  (0 < n)%nat -> copy_all fuel n (mkOS (reader b d rest i) fs) = (Ok out, s') -> delivers b d rest i out.
Proof.
  intros Hn. revert b d rest i fs out s'. induction fuel as [|fuel IH]; intros b d rest i fs out s' Hr; [done|].
  cbn [copy_all] in Hr. destruct b as [|c b].
  - destruct d.
    + unfold tx_bind in Hr. rewrite Read_done in Hr by done. by injection Hr as <- _.
    + unfold tx_bind at 1 in Hr. rewrite Read_frame in Hr by done.
      destruct (readFrame _) as [[[]|e] [r' f']] eqn:R; [|done].
      apply readFrame_sound in R as [(m & p & rest' & -> & Hok & D)|(m & -> & Hm & D)]; simpl in D; subst r'.
      * destruct Hok as [Hm Hp]. simpl in Hm, Hp.
        rewrite Read_buffered in Hr by (done || intros ->; unfold blen in Hp; simpl in Hp; lia).
        tx_step Hr. apply IH in Hm0. destruct Hm0 as (gs & last & Hg & -> & ->). tx_prims.
        exists ((m, p) :: gs), last. split; [destruct Hg; split; [by constructor|done]|]. split; [done|].
        rewrite app_assoc, take_drop. done.
      * rewrite Read_done in Hr by done. injection Hr as <- _. exists [], m. by repeat split.
  - unfold tx_bind at 1 in Hr. rewrite Read_buffered in Hr by done. tx_step Hr. apply IH in Hm. tx_prims.
    unfold delivers in *. destruct d.
    + by rewrite Hm, take_drop.
    + destruct Hm as (gs & last & Hg & -> & ->). exists gs, last. split; [done|]. split; [done|]. by rewrite app_assoc, take_drop.
Qed.

Lemma copy_done_complete fuel n b rest i :
  (0 < n)%nat -> (List.length b < fuel)%nat -> exists r', copy_all fuel n (mkOS (reader b true rest i) []) = (Ok b, mkOS r' []).
Proof.
  intros Hn. revert b. induction fuel as [|fuel IH]; intros b Hf; [lia|]. cbn [copy_all]. unfold tx_bind at 1.
  destruct b as [|c b].
  - rewrite Read_done by done. by eexists.
  - rewrite Read_buffered by done. destruct (IH (drop n (c :: b))) as [s' E]; [rewrite length_drop; simpl in *; lia|].
    unfold tx_bind. rewrite E. eexists. unfold tx_ret. by rewrite take_drop.
Qed.

Lemma copy_all_complete fuel n b gs last i :
  (0 < n)%nat -> frames_ok gs last -> (List.length (b ++ content gs) < fuel)%nat ->
  exists r', copy_all fuel n (mkOS (reader b false (encode i gs last) i) []) = (Ok (b ++ content gs), mkOS r' []).
Proof.
  intros Hn. revert b gs i. induction fuel as [|fuel IH]; intros b gs i Hg Hf; [lia|].
  destruct b as [|c b].
  - cbn [copy_all]. unfold tx_bind at 1. rewrite Read_frame by done. destruct gs as [|[m p] gs].
    + cbn [encode]. rewrite <- (app_nil_r (framed i true last [])).
      rewrite (readFrame_complete true) by (by destruct Hg). rewrite Read_done by done. by eexists.
    + destruct Hg as [[[Hm Hp] Hg]%Forall_cons Hl]. cbn [encode fst snd] in *. rewrite (readFrame_complete false) by done.
      assert (p <> []) as Hne by (intros ->; unfold blen in Hp; simpl in Hp; lia).
      rewrite Read_buffered by done. unfold content in *. cbn [map concat snd app] in *.
      destruct (IH (drop n p) gs (uint64_of (i + 1))) as [s' E]; [done|rewrite length_app, length_drop in *|].
      { destruct p; [done|]. simpl in *. lia. }
      unfold tx_bind. rewrite E. eexists. unfold tx_ret. by rewrite app_assoc, take_drop.
  - cbn [copy_all]. unfold tx_bind at 1. rewrite Read_buffered by done.
    destruct (IH (drop n (c :: b)) gs i) as [s' E]; [done|rewrite length_app, length_drop in *; simpl in *; lia|].
    unfold tx_bind. rewrite E. eexists. unfold tx_ret. by rewrite app_assoc, take_drop.
Qed.

Lemma framed_length i f n p : (List.length p <= List.length (framed i f n p))%nat.
Proof. unfold framed, frame_of. rewrite !length_app, seal_length. lia. Qed.

Lemma encode_covers i gs last : (List.length (content gs) <= List.length (encode i gs last))%nat.
Proof.
  revert i. induction gs as [|[m p] gs IH]; intros i; unfold content in *; [simpl; lia|]. cbn [encode map concat snd].
  rewrite !length_app. pose proof (framed_length i false m p). specialize (IH (uint64_of (i + 1))). lia.
Qed.

(** ** Reading a file *)

(** The reader accepts exactly the encodings of streams, whatever the buffer. *)
Lemma read_stream_sound path n s out s' :
  (0 < n)%nat -> read_stream (Some key) path purpose n s = (Ok out, s') ->
  purpose <> "" /\ exists gs last, frames_ok gs last /\ files (disk s) !! path = Some (Regular (stream_of gs last)) /\ out = content gs.
Proof.
  intros Hn Hr. unfold read_stream in Hr. tx_step Hr. unfold OpenReaderFile in Hm.
  tx_step Hm. apply guard_ok in Hm0 as [Gp ->]. tx_step Hm. apply wrap_ok, query_ok in Hm0.
  tx_step Hm. destruct r1 as [c|]; [|tx_step Hm; tx_prims].
  tx_step Hm. tx_step Hm. apply guard_ok in Hm3 as [Hb ->]. tx_prims.
  destruct (step "read" s2) as [[[]|e] st] eqn:Es in Hm2; [|by repeat case_match]. injection Hm2 as <- <-.
  apply beq_eq in Hb.
  assert (exists f s2, copy_all (S (S (left_to_read (reader [] false (drop (List.length streamFormatHeader) c) 0)))) n
            (mkOS (reader [] false (drop (List.length streamFormatHeader) c) 0) f) = (Ok out, s2)) as (f & s2' & Ec).
  { unfold reader. destruct (copy_all _ _ _) as [res st'] eqn:Ec in Hr. injection Hr as -> _. eauto. }
  apply copy_all_sound in Ec; [|done]. destruct Ec as (gs & last & Hg & E1 & ->).
  split; [intros ->; done|]. exists gs, last. split; [done|]. split; [|done].
  destruct (files (disk s) !! path) as [[]|]; [|done..]. injection Hm0 as ->. unfold stream_of. rewrite <- E1, <- Hb at 1.
  by rewrite (take_drop 26).
Qed.

Lemma OpenReaderFile_clean path h rest :
  purpose <> "" -> files h !! path = Some (Regular (streamFormatHeader ++ rest)) ->
  OpenReaderFile (Some key) path purpose (mkOS h []) = (Ok (reader [] false rest 0), mkOS h []).
Proof.
  intros Hp Hf. unfold OpenReaderFile, tx_bind. apply String.eqb_neq in Hp. rewrite Hp.
  cbn [tx_guard tx_ret negb]. unfold wrap, query, atomically. rewrite syscall_clean. cbn [disk fst snd]. rewrite Hf.
  change (step ?x (mkOS h [])) with (Ok (E := serr) tt, mkOS h []).
  cbn [fst snd]. rewrite take_app_length, drop_app_length.
  change (step ?x (mkOS h [])) with (Ok (E := serr) tt, mkOS h []).
  cbn [fst snd]. by rewrite (proj2 (beq_eq _ _) eq_refl).
Qed.

Lemma copy_file_complete n gs last :
  (0 < n)%nat -> frames_ok gs last ->
  exists r', copy_all (S (S (left_to_read (reader [] false (encode 0 gs last) 0)))) n (mkOS (reader [] false (encode 0 gs last) 0) []) =
             (Ok (content gs), mkOS r' []).
Proof.
  intros Hn Hg. apply (copy_all_complete _ n [] gs last 0); [done..|].
  pose proof (encode_covers 0 gs last). unfold left_to_read. simpl in *. unfold id. lia.
Qed.

Lemma read_stream_complete path n h gs last :
  (0 < n)%nat -> purpose <> "" -> frames_ok gs last -> files h !! path = Some (Regular (stream_of gs last)) ->
  fst (read_stream (Some key) path purpose n (mkOS h [])) = Ok (content gs).
Proof.
  intros Hn Hp Hg Hf. unfold read_stream, tx_bind. rewrite (OpenReaderFile_clean path h (encode 0 gs last)) by done.
  destruct (copy_file_complete n gs last) as [r' E]; [done..|]. cbn [fates]. by rewrite E.
Qed.

Lemma Verify_complete path h gs last :
  purpose <> "" -> frames_ok gs last -> files h !! path = Some (Regular (stream_of gs last)) ->
  fst (VerifyReaderFile (Some key) path purpose (mkOS h [])) = Ok tt.
Proof.
  intros Hp Hg Hf. unfold VerifyReaderFile, tx_bind. rewrite (OpenReaderFile_clean path h (encode 0 gs last)) by done.
  destruct (copy_file_complete discardBuffer gs last) as [r' E]; [unfold discardBuffer; lia|done|].
  cbn [fates]. rewrite E. unfold Close, on_reader, tx_modify, tx_bind, tx_gets. cbn [disk fates].
  by destruct (r_file _).
Qed.

End Format.
