(* ===== verification/SecureTheorems.v ===== *)
(** * Sealed files: round trip, atomic replacement, authenticity

    The writers leave the old file or a complete new one, whatever fails; what
    was written reads back; and a file in which nothing was forged holds what
    was written under its purpose, in order and to the end. *)

From Stdlib Require Import ZArith Lia Bool Ascii String.
From stdpp Require Import base tactics list strings gmap.
From S2P Require Import Prelude GoStrings GoText GoFiles Securestore SecureFormat.

Local Open Scope string_scope.
Local Open Scope list_scope.
Local Open Scope bool_scope.
Local Open Scope Z_scope.
Local Open Scope tx_scope.

(** ** The temporary file is not the file it replaces *)

Lemma rev_plain l : forallb (fun c => negb (Ascii.eqb c slash)) l = true -> l <> [] ->
  exists c r, rev l = c :: r /\ Ascii.eqb c slash = false.
Proof.
  intros Hl Hne. destruct (rev l) as [|c r] eqn:E.
  - apply (f_equal (@rev ascii)) in E. by rewrite rev_involutive in E.
  - exists c, r. split; [done|]. rewrite forallb_forall in Hl.
    apply negb_true_iff, Hl, in_rev. rewrite E. by left.
Qed.

Lemma trim_right_plain x y : plain_name y = true -> y <> "" -> trim_right slash (x ++ y)%string = (x ++ y)%string.
Proof.
  intros Hp Hne. unfold trim_right. rewrite bytes_app, rev_app_distr.
  destruct (rev_plain (bytes y)) as (c & r & E & Ec); [done| |].
  { intros E. apply Hne. by rewrite <- (of_bytes_bytes y), E. }
  rewrite E. simpl. rewrite Ec. change (c :: r ++ rev (bytes x)) with ((c :: r) ++ rev (bytes x)).
  rewrite <- E, <- rev_app_distr, rev_involutive, <- bytes_app. apply of_bytes_bytes.
Qed.

Lemma plain_name_app x y : plain_name (x ++ y)%string = plain_name x && plain_name y.
Proof. unfold plain_name. by rewrite bytes_app, forallb_app. Qed.

Lemma string_length_app x y : String.length (x ++ y)%string = (String.length x + String.length y)%nat.
Proof. rewrite <- !length_bytes, bytes_app. apply length_app. Qed.

Lemma append_assoc x y z : ((x ++ y) ++ z)%string = (x ++ (y ++ z))%string.
Proof. rewrite <- (of_bytes_bytes ((x ++ y) ++ z)%string), !bytes_app, <- app_assoc, <- !bytes_app. apply of_bytes_bytes. Qed.

(** The last element of [d/y]. *)
Lemma Base_join d l y : bytes d = l ++ [slash] -> plain_name y = true -> y <> "" -> Base (d ++ y)%string = y.
Proof.
  intros Hd Hp Hne. unfold Base. assert (d ++ y <> "")%string as H1.
  { intros E. apply (f_equal String.length) in E. rewrite string_length_app in E. destruct y; [done|simpl in E; lia]. }
  apply String.eqb_neq in H1. rewrite trim_right_plain, H1 by done.
  unfold after_slash. rewrite bytes_app, Hd, <- app_assoc. simpl. rewrite last_segment_app, last_segment_plain by done.
  apply of_bytes_bytes.
Qed.

Lemma temp_not_path directory path sfx :
  plain_name sfx = true -> plain_name ("." ++ Base path ++ ".tmp-") = true ->
  temp_path directory ("." ++ Base path ++ ".tmp-") sfx <> path.
Proof.
  intros Hs Hp E. set (prefix := ("." ++ Base path ++ ".tmp-")%string) in *.
  assert (exists d l, temp_path directory prefix sfx = (d ++ (prefix ++ sfx))%string /\ bytes d = l ++ [slash]) as (d & l & Ed & Hd).
  { unfold temp_path, ends_slash. destruct (last (bytes directory)) as [c|] eqn:Hx.
    - destruct (Ascii.eqb c slash) eqn:Hc.
      + apply Ascii.eqb_eq in Hc as ->. apply last_Some in Hx as [l Hl]. by exists directory, l.
      + exists (directory ++ "/")%string, (bytes directory). split; [by rewrite append_assoc|by rewrite bytes_app].
    - exists (directory ++ "/")%string, (bytes directory). split; [by rewrite append_assoc|by rewrite bytes_app]. }
  assert (Base path = prefix ++ sfx)%string as B.
  { rewrite <- E, Ed. eapply Base_join; [done|by rewrite plain_name_app, Hp, Hs|]. by unfold prefix. }
  apply (f_equal String.length) in B. unfold prefix in B. rewrite !string_length_app in B. simpl in B. lia.
Qed.

(** ** What a step may touch *)

(** [within name m]: whatever its outcome, [m] changes no file but [name]. *)
Definition within {A} (name : string) (m : io A) : Prop :=
  forall s r s' q, m s = (r, s') -> q <> name -> files (disk s') !! q = files (disk s) !! q.

Lemma within_ret {A} name (a : A) : within name (tx_ret a).
Proof. intros s r s' q [= _ <-] _. done. Qed.

Lemma within_fail {A} name e : within name (tx_fail (A := A) e).
Proof. intros s r s' q [= _ <-] _. done. Qed.

Lemma within_guard name b e : within name (tx_guard b e).
Proof. destruct b; [apply within_ret|apply within_fail]. Qed.

Lemma within_bind {A B} name (m : io A) (k : A -> io B) :
  within name m -> (forall a, within name (k a)) -> within name (tx_bind m k).
Proof.
  intros Hm Hk s r s' q Hr Hq. unfold tx_bind in Hr. destruct (m s) as [[a|e] s1] eqn:E.
  - rewrite (Hk a _ _ _ _ Hr Hq). by eapply Hm.
  - injection Hr as _ <-. by eapply Hm.
Qed.

Lemma within_step name w : within name (step w).
Proof.
  intros s r s' q Hr _. unfold step, wrap in Hr. destruct (opaque_call s) as [[]] eqn:E; injection Hr as _ <-; by rewrite (opaque_disk _ _ _ E).
Qed.

Lemma within_nonce name : within name read_nonce.
Proof. intros s r s' q Hr _. unfold read_nonce in Hr. by case_match; injection Hr as _ <-. Qed.

Lemma append_to_other name data h q : q <> name -> files (append_to name data h) !! q = files h !! q.
Proof. intros Hq. unfold append_to, with_files. simpl. repeat case_match; try done. by rewrite lookup_insert_ne. Qed.

Lemma within_Write w name data : within name (Write w name data).
Proof.
  intros s r s' q Hr Hq. unfold Write, wrap in Hr. destruct (syscall _ _ s) as [r0 s0] eqn:E.
  assert (s' = s0) as -> by (destruct r0; injection Hr; congruence).
  apply syscall_disk in E as [[_ ->]|(n & e & _ & ->)]; by apply append_to_other.
Qed.

Create HintDb within.
#[export] Hint Resolve within_ret within_fail within_guard within_bind within_step within_nonce within_Write : within.

Section Writers.
Context `{AEAD}.

Lemma within_frame key name purpose i f p : within name (writeStreamFrame key name purpose i f p).
Proof. unfold writeStreamFrame. eauto 10 with within. Qed.
#[local] Hint Resolve within_frame : within.

Lemma within_chunks key name purpose maxBytes source i w idle :
  within name (seal_chunks key name purpose maxBytes source i w idle).
Proof.
  revert i w idle. induction source as [|c rest IH]; intros i w idle; cbn [seal_chunks]; [eauto with within|].
  apply within_bind; [destruct (_ >? 0); eauto with within|]. intros _. cbv zeta.
  destruct (ch_err c); eauto with within.
Qed.

(** ** What a step does when it succeeds *)

Definition holds (name : string) (c : Bytes) (s : os Host) : Prop := files (disk s) !! name = Some (Regular c).

Lemma step_files w s r s' : step w s = (r, s') -> files (disk s') = files (disk s).
Proof.
  intros Hr. unfold step, wrap in Hr. destruct (opaque_call s) as [[]] eqn:E; injection Hr as _ <-; by rewrite (opaque_disk _ _ _ E).
Qed.

Lemma nonce_ok s n s' : read_nonce s = (Ok n, s') -> List.length n = NonceSize /\ files (disk s') = files (disk s).
Proof.
  unfold read_nonce. case_match eqn:E; [done|]. apply Nat.ltb_ge in E. intros [= <- <-]. split; [|done]. rewrite length_take. lia.
Qed.

Lemma Write_ok w name d c s a s' : holds name c s -> Write w name d s = (Ok a, s') -> holds name (c ++ d) s'.
Proof.
  unfold holds. intros Hc Hr. apply wrap_ok in Hr. apply syscall_disk in Hr as [[_ ->]|(n & e & ? & _)]; [|done].
  simpl. unfold append_to, with_files. simpl. rewrite Hc. by rewrite lookup_insert_eq.
Qed.

Lemma frame_ok_written key name purpose i f p c s a s' :
  holds name c s -> writeStreamFrame key name purpose i f p s = (Ok a, s') ->
  exists n, List.length n = NonceSize /\ holds name (c ++ framed key purpose i f n p) s'.
Proof.
  intros Hc Hr. unfold writeStreamFrame in Hr. tx_step Hr. apply nonce_ok in Hm as [Hn Hf]. cbv zeta in Hr.
  tx_step Hr. apply guard_ok in Hm as [_ ->]. tx_step Hr.
  assert (holds name c s0) as Hc0 by (unfold holds; by rewrite Hf).
  eapply Write_ok in Hm; [|exact Hc0]. eapply Write_ok in Hr; [|exact Hm].
  exists r. split; [done|]. unfold framed. by rewrite app_assoc.
Qed.

(** What a source delivers before its end. *)
Fixpoint source_bytes (source : list chunk) : Bytes :=
  match source with
  | [] => []
  | c :: rest => ch_data c ++ match ch_err c with NoError => source_bytes rest | _ => [] end
  end.

(** A reader returns at most what its buffer holds. *)
Definition source_ok (source : list chunk) : Prop := Forall (fun c => blen (ch_data c) <= streamChunkSize) source.

Lemma blen_nonneg l : 0 <= blen l.
Proof. unfold blen. lia. Qed.

Lemma seal_chunks_ok key name purpose maxBytes source i w idle c s w' s' :
  source_ok source -> 0 <= w <= maxBytes -> is_int64 maxBytes -> holds name c s ->
  seal_chunks key name purpose maxBytes source i w idle s = (Ok w', s') ->
  exists gs last, frames_ok gs last /\ content gs = source_bytes source /\ w' = w + blen (content gs) /\ w' <= maxBytes /\
                  holds name (c ++ encode key purpose i gs last) s'.
Proof.
  intros Hsrc Hw Hmax. revert i w Hw idle c s. induction Hsrc as [|ch rest Hch Hsrc IH]; intros i w Hw idle c s Hc Hr; cbn [seal_chunks] in Hr.
  - tx_step Hr. tx_prims. eapply frame_ok_written in Hm as (n & Hn & Hh); [|exact Hc].
    exists [], n. repeat split; try done; unfold content, blen; simpl; lia.
  - tx_step Hr. cbv zeta in Hr. pose proof (blen_nonneg (ch_data ch)) as Hpos. destruct (blen (ch_data ch) >? 0) eqn:G.
    + tx_step Hm. apply guard_ok in Hm0 as [Hlim ->]. eapply frame_ok_written in Hm as (n & Hn & Hh); [|exact Hc].
      unfold is_int64, two63, streamChunkSize in *.
      rewrite int64_small in Hlim by (unfold is_int64, two63; lia).
      rewrite int64_small in Hr by (unfold is_int64, two63; lia).
      assert (frame_ok (n, ch_data ch)) as Hfr by (split; [done|unfold streamChunkSize; simpl; lia]).
      cbn [source_bytes]. destruct (ch_err ch).
      * tx_step Hr. apply guard_ok in Hm as [_ ->].
        apply (IH _ (w + blen (ch_data ch)) ltac:(lia) _ _ _ Hh) in Hr as (gs & last & [Hg1 Hg2] & E1 & E2 & E3 & E4).
        exists ((n, ch_data ch) :: gs), last. split; [split; [by constructor|done]|]. unfold content in *. cbn [map concat snd encode].
        rewrite blen_app, E1. split; [done|]. split; [rewrite E2, E1; lia|]. split; [done|]. by rewrite app_assoc.
      * tx_step Hr. tx_prims. eapply frame_ok_written in Hm as (m & Hm & Hh'); [|exact Hh].
        exists [(n, ch_data ch)], m. split; [split; [by constructor|done]|]. unfold content. cbn [map concat snd encode].
        rewrite blen_app. split; [done|]. split; [unfold blen at 3; simpl; lia|]. split; [lia|]. by rewrite app_assoc.
      * tx_prims.
    + tx_prims. assert (ch_data ch = []) as Ed by (apply blen_nil_inv; lia). cbn [source_bytes]. rewrite Ed. simpl.
      destruct (ch_err ch).
      * tx_step Hr. apply guard_ok in Hm as [_ ->]. by eapply IH.
      * tx_step Hr. tx_prims. eapply frame_ok_written in Hm as (n & Hn & Hh); [|exact Hc].
        exists [], n. repeat split; try done; unfold content, blen; simpl; lia.
      * tx_prims.
Qed.

(** ** Replacing a file *)

(** What a writer may leave of [path]: the old file (never after a success), or
    a complete new one that satisfies [P]; every other file as it was, except
    that a failure may leave one that did not exist before. *)
Definition replaced {A} (path : string) (P : Bytes -> Prop) (s s' : os Host) (r : result serr A) : Prop :=
  ((files (disk s') !! path = files (disk s) !! path /\ is_ok r = false) \/
   (exists c, P c /\ files (disk s') !! path = Some (Regular c))) /\
  (forall q, q <> path -> files (disk s') !! q = files (disk s) !! q \/ (files (disk s) !! q = None /\ is_ok r = false)).

Lemma replaced_failed {A} path P s s' (e : serr) :
  files (disk s') = files (disk s) -> replaced (A := A) path P s s' (Err e).
Proof. intros E. split; [left; by rewrite E|]. intros q _. left. by rewrite E. Qed.

Lemma rename_spec from to s r s' f :
  files (disk s) !! from = Some f -> os_Rename from to s = (r, s') ->
  (is_ok r = false /\ files (disk s') = files (disk s)) \/ files (disk s') = <[to := f]> (delete from (files (disk s))).
Proof.
  intros Hf Hr. unfold os_Rename, wrap in Hr. destruct (atomically _ s) as [r0 s0] eqn:E.
  apply syscall_disk in E as [[-> D]|(n & e & -> & D)]; [|injection Hr as <- <-; left; by rewrite D].
  rewrite Hf in D, Hr. destruct (files (disk s) !! to) as [[]|]; injection Hr as <- <-; simpl in D;
    [right; by rewrite D|left; by rewrite D|right; by rewrite D].
Qed.

Lemma replace_spec name path c s r s' :
  holds name c s -> replace name path s = (r, s') ->
  (is_ok r = false /\ files (disk s') = files (disk s)) \/ files (disk s') = <[path := Regular c]> (delete name (files (disk s))).
Proof.
  intros Hc Hr. unfold replace, tx_bind in Hr.
  destruct (step _ s) as [[]s1] eqn:E1; apply step_files in E1; [|injection Hr as <- <-; by left].
  destruct (step _ s1) as [[]s2] eqn:E2; apply step_files in E2; [|injection Hr as <- <-; left; by rewrite E2, E1].
  destruct (os_Rename name path s2) as [r3 s3] eqn:E3. eapply rename_spec in E3; [|by rewrite E2, E1].
  rewrite E2, E1 in E3. destruct r3 as [[]|e3].
  - destruct E3 as [[? _]|E3]; [done|]. unfold syncDirectory, tx_bind in Hr.
    destruct (step _ s3) as [[]s4] eqn:E4; apply step_files in E4.
    + apply step_files in Hr. right. by rewrite Hr, E4, E3.
    + injection Hr as <- <-. right. by rewrite E4, E3.
  - injection Hr as <- <-. destruct E3 as [[_ E3]|E3]; [by left|by right].
Qed.

Lemma within_discard name : within name (discard name).
Proof.
  intros s r s' q Hr Hq. unfold discard in Hr. destruct (step "close" s) as [[[]|e] s1] eqn:E.
  all: rewrite <- (within_step name "close" _ _ _ q E Hq).
  2: destruct e as [| | | | | | | | | | | | |w []|]; try (by injection Hr as _ <-).
  all: unfold os_Remove, wrap in Hr; destruct (atomically _ s1) as [r0 s0] eqn:E0.
  all: assert (s' = s0) as -> by (destruct r0; injection Hr; congruence).
  all: apply syscall_disk in E0 as [[_ ->]|(n & e0 & _ & ->)]; [|done].
  all: destruct (files (disk s1) !! name); simpl; [by rewrite lookup_delete_ne|done].
Qed.

Lemma create_ok dir prefix sfxs s name s' :
  CreateTemp dir prefix sfxs s = (Ok name, s') ->
  exists sfx, plain_name prefix = true /\ plain_name sfx = true /\ name = temp_path dir prefix sfx /\
              files (disk s) !! name = None /\ files (disk s') = <[name := Regular []]> (files (disk s)).
Proof.
  intros Hr. apply wrap_ok in Hr. apply syscall_disk in Hr as [[E1 E2]|(n & e & ? & _)]; [|done].
  destruct (plain_name prefix) eqn:Hp; simpl in E1, E2; [|done].
  destruct (List.find _ sfxs) as [sfx|] eqn:F; simpl in E1, E2; [|done]. injection E1 as ->.
  apply find_some in F as [_ [F1 F2]%andb_prop]. apply bool_decide_eq_true in F2. exists sfx. by rewrite E2.
Qed.

Lemma create_err dir prefix sfxs s e s' :
  CreateTemp dir prefix sfxs s = (Err e, s') -> files (disk s') = files (disk s).
Proof.
  intros Hr. unfold CreateTemp, wrap in Hr. destruct (atomically _ s) as [r0 s0] eqn:E.
  apply syscall_disk in E as [[-> D]|(n & e0 & -> & D)]; [|injection Hr as _ <-; by rewrite D].
  destruct (negb _); [injection Hr as _ <-; by rewrite D|]. destruct (List.find _ _); [done|]. injection Hr as _ <-. by rewrite D.
Qed.

(** Filling a fresh file by [pre] and putting it in place. *)
Section Publishing.
Context {A : Type} (pre : string -> io A) (P : A -> Bytes -> Prop).
Hypothesis pre_within : forall name, within name (pre name).
Hypothesis pre_fills : forall name s a s', holds name [] s -> pre name s = (Ok a, s') -> exists c, P a c /\ holds name c s'.

Lemma publish_body name path s r s' :
  name <> path -> holds name [] s -> (a <- pre name ;; replace name path ;;; tx_ret a) s = (r, s') ->
  (forall q, q <> name -> q <> path -> files (disk s') !! q = files (disk s) !! q) /\
  (is_ok r = true -> files (disk s') !! name = None) /\
  (files (disk s') !! path = files (disk s) !! path /\ is_ok r = false \/
   exists c a, P a c /\ (forall b, r = Ok b -> b = a) /\ files (disk s') !! path = Some (Regular c)).
Proof.
  intros Hne H0 Hr. unfold tx_bind in Hr. destruct (pre name s) as [[a|e] s1] eqn:E1.
  - pose proof (fun q Hq => pre_within name _ _ _ q E1 Hq) as W1. apply pre_fills in E1 as (c & HP & Hc); [|done].
    destruct (replace name path s1) as [r2 s2] eqn:E2. eapply replace_spec in E2; [|exact Hc].
    assert (s' = s2 /\ (forall b, r = Ok b -> b = a) /\ is_ok r = is_ok r2) as (-> & Hb & ->)
      by (destruct r2; injection Hr as <- <-; repeat split; by (intros b [= ->] || intros b [=])).
    destruct E2 as [[Hf ->]| ->].
    + split; [intros q Hq _; by apply W1|]. split; [congruence|]. left. by rewrite W1.
    + split; [intros q Hq Hq'; by rewrite lookup_insert_ne, lookup_delete_ne, W1|].
      split; [intros _; by rewrite lookup_insert_ne, lookup_delete_eq|]. right. exists c, a. by rewrite lookup_insert_eq.
  - injection Hr as <- <-. split; [intros q Hq _; by apply (pre_within name _ _ _ q E1)|]. split; [done|].
    left. by rewrite (pre_within name _ _ _ path E1).
Qed.

(** The same with the creation of the file before, and its removal when
    anything fails. *)
Lemma publish path sfxs s r s' :
  (name <- CreateTemp (Dir_ path) ("." ++ Base path ++ ".tmp-") sfxs ;;
   defer_on_error killed (a <- pre name ;; replace name path ;;; tx_ret a) (discard name)) s = (r, s') ->
  replaced path (fun c => exists a, P a c /\ forall b, r = Ok b -> b = a) s s' r.
Proof.
  intros Hr. unfold tx_bind at 1 in Hr. destruct (CreateTemp _ _ _ s) as [[name|e] s0] eqn:C.
  2: { injection Hr as <- <-. apply replaced_failed. by eapply create_err. }
  apply create_ok in C as (sfx & Hp & Hs & -> & Hfresh & D0). set (name := temp_path _ _ sfx) in *.
  assert (name <> path) as Hne by (by apply temp_not_path).
  unfold defer_on_error in Hr. destruct ((a <- pre name ;; replace name path ;;; tx_ret a) s0) as [rb sb] eqn:Eb.
  apply publish_body in Eb as (Q1 & Q2 & Q3); [|done|unfold holds; by rewrite D0, lookup_insert_eq].
  rewrite D0 in Q1, Q3. rewrite lookup_insert_ne in Q3 by done.
  assert (r = rb /\ (forall q, q <> name -> files (disk s') !! q = files (disk sb) !! q) /\
          (is_ok rb = true -> s' = sb)) as (-> & Q4 & Q5).
  { destruct rb as [a|e]; [by injection Hr as <- <-|]. destruct (killed e); injection Hr as <- <-; [done|].
    split; [done|]. split; [|done]. intros q Hq. destruct (discard name sb) as [rd sd] eqn:Ed. by eapply within_discard. }
  split.
  - rewrite Q4 by done. destruct Q3 as [Q3|(c & a & HP & Hb & E)]; [by left|right]. exists c. eauto.
  - intros q Hq. destruct (decide (q = name)) as [->|Hqn].
    + destruct (is_ok rb); [left|by right]. by rewrite Q5, Q2, Hfresh.
    + left. by rewrite Q4, Q1, lookup_insert_ne by done.
Qed.

End Publishing.

(** ** The two writers *)

Definition stream_goal (key : Bytes) (purpose : string) (source : list chunk) (maxBytes w : Z) (c : Bytes) : Prop :=
  exists gs last, frames_ok gs last /\ content gs = source_bytes source /\ c = stream_of key purpose gs last /\
                  w = blen (source_bytes source) /\ w <= maxBytes.

Lemma bind_assoc {S E A B C} (m : tx S E A) (k : A -> tx S E B) (l : B -> tx S E C) s :
  tx_bind (tx_bind m k) l s = tx_bind m (fun a => tx_bind (k a) l) s.
Proof. unfold tx_bind. by destruct (m s) as [[]]. Qed.

Lemma bind_ext {S E A B} (m : tx S E A) (k l : A -> tx S E B) s :
  (forall a s', k a s' = l a s') -> tx_bind m k s = tx_bind m l s.
Proof. intros Hk. unfold tx_bind. destruct (m s) as [[]]; [apply Hk|done]. Qed.

Lemma defer_ext {S E A} kill (m n : tx S E A) c s : m s = n s -> defer_on_error kill m c s = defer_on_error kill n c s.
Proof. unfold defer_on_error. by intros ->. Qed.

Lemma WriteReaderFile_replaces key sfxs path purpose source maxBytes s r s' :
  source_ok source -> is_int64 maxBytes ->
  WriteReaderFile (Some key) sfxs path purpose (Some source) maxBytes s = (r, s') ->
  replaced path (fun c => exists w, stream_goal key purpose source maxBytes w c /\ forall b, r = Ok b -> b = w) s s' r.
Proof.
  intros Hsrc Hmax Hr. unfold WriteReaderFile in Hr.
  do 3 (rewrite guard_bind in Hr; case_match; [|injection Hr as <- <-; by apply replaced_failed]).
  unfold tx_bind at 1 in Hr. destruct (step _ s) as [[[]|e] s1] eqn:E1; apply step_files in E1; [|injection Hr as <- <-; by apply replaced_failed].
  set (pre := fun name => step "protect encrypted state file" ;;; Write "write encrypted state header" name streamFormatHeader ;;;
                          seal_chunks key name purpose maxBytes source 0 0 0).
  assert (replaced path (fun c => exists w, stream_goal key purpose source maxBytes w c /\ forall b, r = Ok b -> b = w) s1 s' r) as HR.
  { apply (publish pre _) with (sfxs := sfxs).
    - intros name. unfold pre. eauto using within_chunks with within.
    - intros name s0 a s0' Hh Hp. unfold pre in Hp. tx_step Hp. apply step_files in Hm. tx_step Hp.
      eapply Write_ok in Hm0; [|unfold holds; rewrite Hm; exact Hh].
      assert (0 <= 0 <= maxBytes) as Hz by lia.
      apply (seal_chunks_ok _ _ _ _ _ _ _ _ _ _ _ _ Hsrc Hz Hmax Hm0) in Hp as (gs & last & Hg & E3 & E4 & E5 & E6).
      exists (stream_of key purpose gs last). split; [|exact E6]. exists gs, last. rewrite <- E3. split; [done|]. split; [done|]. split; [done|]. lia.
    - rewrite <- Hr. apply bind_ext. intros name s2. apply defer_ext. unfold pre. rewrite bind_assoc. apply bind_ext.
      intros [] s3. by rewrite bind_assoc. }
  destruct HR as [R1 R2]. split; rewrite <- E1; [exact R1|exact R2].
Qed.

Lemma WriteFile_replaces key sfxs path purpose plaintext s r s' :
  WriteFile (Some key) sfxs path purpose plaintext s = (r, s') ->
  replaced path (fun c => purpose <> "" /\ exists n, List.length n = NonceSize /\ c = formatHeader ++ n ++ gcm_seal key n plaintext (bytes purpose)) s s' r.
Proof.
  intros Hr. unfold WriteFile in Hr. rewrite guard_bind in Hr. case_match; [|injection Hr as <- <-; by apply replaced_failed].
  unfold tx_bind at 1 in Hr. destruct (Seal (Some key) purpose plaintext s) as [[c|e] s1] eqn:ES.
  2: { injection Hr as <- <-. apply replaced_failed. unfold Seal in ES. rewrite guard_bind in ES. case_match; [|by injection ES as _ <-].
       unfold tx_bind, read_nonce in ES. destruct (_ <? NonceSize)%nat; [by injection ES as _ <-|done]. }
  unfold Seal in ES. tx_step ES. apply guard_ok in Hm as [Hpurpose ->]. tx_step ES. apply nonce_ok in Hm as [Hn Hf].
  assert (c = formatHeader ++ r1 ++ gcm_seal key r1 plaintext (bytes purpose)) as Hc by (unfold tx_ret in ES; congruence).
  assert (s1 = s0) as -> by (unfold tx_ret in ES; congruence). clear ES.
  unfold tx_bind at 1 in Hr. destruct (step _ s0) as [[[]|e] s2] eqn:E1; apply step_files in E1;
    [|injection Hr as <- <-; apply replaced_failed; congruence].
  set (pre := fun name => step "protect encrypted state file" ;;; Write "write encrypted state" name c).
  assert (replaced path (fun d => exists a : unit, d = c /\ forall b, r = Ok b -> b = a) s2 s' r) as HR.
  { apply (publish pre (fun _ d => d = c)) with (sfxs := sfxs).
    - intros name. unfold pre. eauto with within.
    - intros name s3 a s3' Hh Hp. unfold pre in Hp. tx_step Hp. apply step_files in Hm.
      eapply Write_ok in Hp; [|unfold holds; rewrite Hm; exact Hh]. exists c. split; [done|exact Hp].
    - rewrite <- Hr. apply bind_ext. intros name s3. apply defer_ext. unfold pre. rewrite bind_assoc. apply bind_ext.
      intros [] s4. apply bind_ext. intros [] s5. unfold tx_bind. by destruct (replace name path s5) as [[[]|]]. }
  destruct HR as [R1 R2]. rewrite E1, Hf in R1, R2. split; [|exact R2].
  destruct R1 as [R1|(d & (a & -> & _) & E)]; [by left|right]. exists c. split; [|done]. split; [by intros ->|]. by exists r1.
Qed.

(** ** Authenticity *)

(** What was sealed under a key, as (nonce, sealed text, associated data). *)
Abbreviation issued := (list (Bytes * Bytes * Bytes)).

(** Nothing in the file was forged: whatever part of it opens as a frame of
    the purpose, at whatever place in a stream, was sealed as that frame. *)
Definition unforged (key : Bytes) (purpose : string) (file : Bytes) (log : issued) : Prop :=
  forall before n c after i f p,
    is_uint64 i -> file = before ++ n ++ c ++ after -> List.length n = NonceSize ->
    gcm_open key n c (streamAssociatedData purpose i f) = Some p -> In (n, c, streamAssociatedData purpose i f) log.

(** The frames of one stream, as they were sealed. *)
Fixpoint stream_log (key : Bytes) (purpose : string) (index : Z) (gs : list (Bytes * Bytes)) (last : Bytes) : issued :=
  match gs with
  | [] => let a := streamAssociatedData purpose index true in [(last, gcm_seal key last [] a, a)]
  | (n, p) :: gs' =>
      let a := streamAssociatedData purpose index false in
      (n, gcm_seal key n p a, a) :: stream_log key purpose (index + 1) gs' last
  end.

Lemma stream_log_In key P i gs last n c a :
  In (n, c, a) (stream_log key P i gs last) ->
  (exists j p, gs !! j = Some (n, p) /\ a = streamAssociatedData P (i + Z.of_nat j) false /\ c = gcm_seal key n p a) \/
  (n = last /\ a = streamAssociatedData P (i + Z.of_nat (List.length gs)) true /\ c = gcm_seal key n [] a).
Proof.
  revert i. induction gs as [|[m p] gs IH]; intros i; cbn [stream_log]; cbv zeta.
  - intros [[= <- <- <-]|[]]. right. simpl. by rewrite Z.add_0_r.
  - intros [E|Hin].
    + left. exists 0%nat, p. assert (m = n /\ gcm_seal key m p (streamAssociatedData P i false) = c /\ streamAssociatedData P i false = a)
        as (-> & <- & <-) by (repeat split; congruence). by rewrite Z.add_0_r.
    + apply IH in Hin as [(j & q & E1 & E2 & E3)|(E1 & E2 & E3)].
      * left. exists (S j), q. repeat split; [done| |done]. rewrite E2. f_equal. lia.
      * right. repeat split; [done| |done]. rewrite E2. f_equal. simpl. lia.
Qed.

Lemma framed_parts key P i f n p :
  framed key P i f n p = frame_prefix f (frame_of key P i f n p) ++ n ++ gcm_seal key n p (streamAssociatedData P i f).
Proof. done. Qed.

(** A file made only of frames of one stream is that stream. *)
Lemma frames_from_log key P (gs : list (Bytes * Bytes)) (last : Bytes) (file : Bytes) :
  unforged key P file (stream_log key P 0 gs last) -> Z.of_nat (List.length gs) < two64 ->
  forall hs last' before i todo done_,
    frames_ok hs last' -> file = before ++ encode key P (Z.of_nat i) hs last' -> gs = done_ ++ todo -> i = List.length done_ ->
    hs = todo /\ last' = last.
Proof.
  intros Hun Hlen hs. induction hs as [|[n p] hs IH]; intros last' before i todo done_ [Hok Hl] HF Hgs Hi.
  - cbn [encode] in HF. rewrite framed_parts in HF.
    assert (In (last', gcm_seal key last' [] (streamAssociatedData P (Z.of_nat i) true), streamAssociatedData P (Z.of_nat i) true) (stream_log key P 0 gs last)) as Hin.
    { eapply (Hun (before ++ frame_prefix true (frame_of key P (Z.of_nat i) true last' [])) last' _ [] _ _ []); [| |done|apply open_seal].
      { unfold is_uint64; subst; rewrite length_app in Hlen; lia. }
      by rewrite HF, app_nil_r, <- app_assoc. }
    apply stream_log_In in Hin as [(j & q & E1 & E2 & E3)|(E1 & E2 & E3)].
    + apply associated_data_inj in E2 as (_ & _ & ?); [done|..]; unfold is_uint64; [|apply lookup_lt_Some in E1]; subst;
        rewrite ?length_app in *; lia.
    + apply associated_data_inj in E2 as (_ & E2 & _); [|unfold is_uint64; subst; rewrite length_app in *; lia..].
      subst. rewrite length_app in E2. destruct todo; [done|simpl in E2; lia].
  - cbn [encode] in HF. rewrite framed_parts in HF. apply Forall_cons in Hok as [[Hn Hp] Hok]. simpl in Hn, Hp.
    assert (Z.of_nat i < two64) as Hi64 by (subst; rewrite length_app in Hlen; lia).
    assert (In (n, gcm_seal key n p (streamAssociatedData P (Z.of_nat i) false), streamAssociatedData P (Z.of_nat i) false) (stream_log key P 0 gs last)) as Hin.
    { eapply (Hun (before ++ frame_prefix false (frame_of key P (Z.of_nat i) false n p)) n _ _ _ _ p); [unfold is_uint64; lia| |done|apply open_seal].
      rewrite HF, <- !app_assoc. done. }
    apply stream_log_In in Hin as [(j & q & E1 & E2 & E3)|(E1 & E2 & E3)].
    + pose proof (lookup_lt_Some _ _ _ E1) as Hj. apply associated_data_inj in E2 as (_ & E2 & _); [|unfold is_uint64; lia..].
      assert (j = i) as -> by lia.
      assert (p = q) as <-.
      { apply (f_equal (fun c => gcm_open key n c (streamAssociatedData P (Z.of_nat i) false))) in E3.
        rewrite !open_seal in E3. congruence. }
      subst gs i. rewrite lookup_app_r, Nat.sub_diag in E1 by lia. destruct todo as [|x todo]; [done|]. injection E1 as ->.
      destruct (IH last' (before ++ framed key P (Z.of_nat (List.length done_)) false n p) (S (List.length done_)) todo (done_ ++ [(n, p)])) as [-> ->]; [done| | | |done].
      * rewrite HF, framed_parts, <- !app_assoc. do 4 f_equal. f_equal. rewrite uint64_small; [lia|].
        unfold is_uint64. rewrite length_app in Hlen. simpl in Hlen. lia.
      * by rewrite <- app_assoc.
      * rewrite length_app. simpl. lia.
    + apply associated_data_inj in E2 as (_ & _ & ?); [done|unfold is_uint64; subst; rewrite ?length_app in *; lia..].
Qed.

(** ** Values *)

Lemma Open_sealed key purpose n p :
  purpose <> "" -> List.length n = NonceSize ->
  Open (Some key) purpose (formatHeader ++ n ++ gcm_seal key n p (bytes purpose)) = Ok p.
Proof.
  intros Hp Hn. unfold Open. apply String.eqb_neq in Hp. rewrite Hp. cbv zeta.
  rewrite !length_app, seal_length, take_app_length, drop_app_length.
  rewrite (proj2 (beq_eq _ _) eq_refl), (proj2 (Nat.ltb_ge _ _)) by lia. cbn [orb negb].
  rewrite take_app_length' by done. rewrite (app_assoc formatHeader), drop_app_length' by (rewrite length_app; lia).
  by rewrite open_seal.
Qed.

(** Nothing else opens. *)
Lemma Open_only_sealed key purpose c p :
  Open (Some key) purpose c = Ok p ->
  exists n, List.length n = NonceSize /\ c = formatHeader ++ n ++ gcm_seal key n p (bytes purpose).
Proof.
  unfold Open. destruct (purpose =? "")%string; [done|]. cbv zeta. destruct (_ || _) eqn:G; [done|].
  apply orb_false_iff in G as [G1%Nat.ltb_ge G2%negb_false_iff%beq_eq]. destruct (gcm_open _ _ _ _) as [q|] eqn:O; [|done].
  intros [= ->]. apply open_sealed in O. set (h := List.length formatHeader) in *.
  exists (take NonceSize (drop h c)). split; [rewrite length_take, length_drop; lia|].
  rewrite <- O, <- G2, <- drop_drop, take_drop. by rewrite take_drop.
Qed.

(** ** Properties *)

(** C9. Replacing a sealed file is atomic, whichever system call fails and
    wherever the process is killed: afterwards the path holds what it held
    before, or a complete sealed value or stream of exactly the bytes given;
    never the old file after a success, and never more than the limit.  No other
    file changes, except that a failed call may leave one new file behind. *)
Theorem sealed_files_replaced_atomically key sfxs path purpose source maxBytes plaintext s :
  source_ok source -> is_int64 maxBytes ->
  let '(r, s1) := WriteReaderFile (Some key) sfxs path purpose (Some source) maxBytes s in
  let '(r', s2) := WriteFile (Some key) sfxs path purpose plaintext s in
  replaced path (fun c => exists gs last, frames_ok gs last /\ c = stream_of key purpose gs last /\
                          content gs = source_bytes source /\ blen (content gs) <= maxBytes /\
                          forall w, r = Ok w -> w = blen (content gs)) s s1 r /\
  replaced path (fun c => Open (Some key) purpose c = Ok plaintext) s s2 r'.
Proof.
  intros Hsrc Hmax. destruct (WriteReaderFile _ _ _ _ _ _ s) as [r s1] eqn:E1. destruct (WriteFile _ _ _ _ _ s) as [r' s2] eqn:E2.
  apply WriteReaderFile_replaces in E1; [|done..]. pose proof E2 as E2'. apply WriteFile_replaces in E2. split.
  - destruct E1 as [R1 R2]. split; [|done]. destruct R1 as [R1|(c & (w & (gs & last & G1 & G2 & G3 & G4 & G5) & Hb) & E)]; [by left|right].
    exists c. split; [|done]. exists gs, last. rewrite G2. repeat split; try done; [by destruct G1..|lia|]. intros b Hb'. rewrite <- G4. by apply Hb.
  - destruct E2 as [R1 R2]. split; [|done]. destruct R1 as [R1|(c & (Hp & n & Hn & ->) & E)]; [by left|right].
    eexists. split; [|exact E]. by apply Open_sealed.
Qed.

(** C11. What was streamed into a sealed file is read back: once
    [WriteReaderFile] has succeeded, reading the file under the same purpose
    with any buffer returns exactly the bytes of the source, the verification
    succeeds, and the reported size is theirs and within the limit. *)
Theorem sealed_stream_reads_back key sfxs path purpose source maxBytes s w s' n :
  source_ok source -> is_int64 maxBytes -> (0 < n)%nat ->
  WriteReaderFile (Some key) sfxs path purpose (Some source) maxBytes s = (Ok w, s') ->
  fst (read_stream (Some key) path purpose n (mkOS (disk s') [])) = Ok (source_bytes source) /\
  fst (VerifyReaderFile (Some key) path purpose (mkOS (disk s') [])) = Ok tt /\
  w = blen (source_bytes source) /\ w <= maxBytes.
Proof.
  intros Hsrc Hmax Hn Hr. assert (purpose <> "") as Hp.
  { intros ->. unfold WriteReaderFile in Hr. rewrite guard_bind in Hr. by case_match. }
  apply (WriteReaderFile_replaces _ _ _ _ _ _ _ _ _ Hsrc Hmax) in Hr as [[[_ ?]|(c & (w' & (gs & last & G1 & G2 & -> & -> & G5) & Hb) & E)] _]; [done|].
  specialize (Hb w eq_refl) as ->. split; [|split; [|done]].
  - rewrite <- G2. by eapply read_stream_complete.
  - by eapply Verify_complete.
Qed.

(** C10. A sealed stream cannot be cut, extended, reordered or exchanged: if one
    stream, with the frames [gs], was sealed under a purpose and nothing in a
    file was forged, then reading that file under the purpose to its end either
    fails or returns the content of that stream, and the file is that stream
    byte for byte. *)
Theorem sealed_stream_is_authentic key path purpose n gs last F s out s' :
  (0 < n)%nat -> Z.of_nat (List.length gs) < two64 ->
  files (disk s) !! path = Some (Regular F) -> unforged key purpose F (stream_log key purpose 0 gs last) ->
  read_stream (Some key) path purpose n s = (Ok out, s') ->
  out = content gs /\ F = stream_of key purpose gs last.
Proof.
  intros Hn Hlen HF Hun Hr. apply read_stream_sound in Hr as (_ & hs & last' & Hok & E & ->); [|done].
  rewrite HF in E. injection E as E.
  destruct (frames_from_log key purpose gs last F Hun Hlen hs last' streamFormatHeader 0%nat gs []) as [-> ->];
    [done|exact E|done..|]. by split.
Qed.

End Writers.

(** ** Sealed files: concrete runs

    A small cipher with the laws of [AEAD] (a keyed checksum as the tag), and the
    properties of sealed files on it. *)

Definition checksum (l : Bytes) : Z := fold_right (fun c h => code c + h) 0 l.

Lemma checksum_app l m : checksum (l ++ m) = checksum l + checksum m.
Proof. induction l as [|c l IH]; simpl; [done|]. rewrite IH. lia. Qed.

(** The tag: the end of the associated data in clear, and a checksum. *)
Definition slot (a : Bytes) : Bytes := resize 9 (chr 0) (drop (List.length a - 9) a).
Definition toy_tag (k n p a : Bytes) : Bytes := slot a ++ big_endian 7 (checksum (k ++ n ++ p ++ a)).

Lemma toy_tag_length k n p a : List.length (toy_tag k n p a) = Overhead.
Proof. unfold toy_tag, slot. by rewrite length_app, length_resize, big_endian_length. Qed.

Definition toy_open (k n c a : Bytes) : option Bytes :=
  let p := take (List.length c - Overhead) c in
  let t := drop (List.length c - Overhead) c in
  if beq (take 9 t) (slot a) then if beq t (toy_tag k n p a) then Some p else None else None.

Lemma toy_open_some k n c a p :
  toy_open k n c a = Some p ->
  take (List.length c - Overhead) c = p /\ drop (List.length c - Overhead) c = toy_tag k n (take (List.length c - Overhead) c) a.
Proof.
  unfold toy_open. cbv zeta. destruct (beq _ _); [|done]. destruct (beq _ _) eqn:G; [|done]. apply beq_eq in G. by intros [= <-].
Qed.

Definition toy_aead : AEAD.
Proof.
  refine {| gcm_seal := fun k n p a => p ++ toy_tag k n p a; gcm_open := toy_open |}.
  - intros k n p a. by rewrite length_app, toy_tag_length.
  - intros k n p a. unfold toy_open. rewrite length_app, toy_tag_length. cbv zeta.
    replace (List.length p + Overhead - Overhead)%nat with (List.length p) by lia.
    rewrite take_app_length, drop_app_length. unfold toy_tag at 1. rewrite take_app_length' by (symmetry; apply length_resize).
    by rewrite !(proj2 (beq_eq _ _) eq_refl).
  - intros k n c a p Ho. apply toy_open_some in Ho as [<- G]. rewrite <- G. by rewrite take_drop.
Defined.

Definition run_key : Bytes := repeat (chr 7) 32.
Definition run_entropy : Bytes := map (fun i => chr (Z.of_nat i)) (seq 1 120).
Definition run_host : Host := mkHost (<["/d/a" := Regular (bytes "old")]> ∅) run_entropy.
Definition run_source : list chunk :=
  [mkChunk (bytes "hello ") NoError; mkChunk [] NoError; mkChunk (bytes "world") AtEOF].

(** A stream that is stored, one that dies in the middle, and one that is too
    large. *)
Definition run_write (fs : list fate) (limit : Z) : result serr Z * os Host :=
  WriteReaderFile (H := toy_aead) (Some run_key) ["1"] "/d/a" "artifact" (Some run_source) limit (mkOS run_host fs).

Example writes_end_as_expected :
  fst (run_write [] 100) = Ok 11 /\ fst (run_write [] 10) = Err ErrSourceLimit /\
  files (disk (snd (run_write [] 10))) !! "/d/a" = Some (Regular (bytes "old")) /\
  files (disk (snd (run_write [] 10))) !! "/d/.a.tmp-1" = None /\
  fst (run_write [Proceeds; Proceeds; Proceeds; Proceeds; Dies 3] 100) = Err (ErrOs "write encrypted state frame" Killed) /\
  files (disk (snd (run_write [Proceeds; Proceeds; Proceeds; Proceeds; Dies 3] 100))) !! "/d/a" = Some (Regular (bytes "old")).
Proof. repeat split; vm_compute; reflexivity. Qed.

Lemma source_ok_run : source_ok run_source.
Proof. repeat constructor; by vm_compute. Qed.

(** The writes above, and the old value kept through a failure. *)
Lemma sealed_files_replaced_atomically_witness :
  let '(r, s1) := run_write [Proceeds; Proceeds; Proceeds; Fails 2] 100 in
  let '(r', s2) := WriteFile (H := toy_aead) (Some run_key) ["1"] "/d/a" "artifact" (bytes "v") (mkOS run_host [Proceeds; Proceeds; Proceeds; Fails 2]) in
  files (disk s1) !! "/d/a" = Some (Regular (bytes "old")) /\ r = Err (ErrOs "write encrypted state header" ErrIO) /\
  replaced "/d/a" (fun c => exists gs last, frames_ok gs last /\ c = stream_of (H := toy_aead) run_key "artifact" gs last /\
                          content gs = source_bytes run_source /\ blen (content gs) <= 100 /\
                          forall w, r = Ok w -> w = blen (content gs)) (mkOS run_host [Proceeds; Proceeds; Proceeds; Fails 2]) s1 r /\
  replaced "/d/a" (fun c => Open (H := toy_aead) (Some run_key) "artifact" c = Ok (bytes "v")) (mkOS run_host [Proceeds; Proceeds; Proceeds; Fails 2]) s2 r'.
Proof.
  pose proof (sealed_files_replaced_atomically (H := toy_aead) run_key ["1"] "/d/a" "artifact" run_source 100 (bytes "v")
    (mkOS run_host [Proceeds; Proceeds; Proceeds; Fails 2]) source_ok_run ltac:(unfold is_int64, two63; lia)) as T.
  unfold run_write.
  assert (fst (run_write [Proceeds; Proceeds; Proceeds; Fails 2] 100) = Err (ErrOs "write encrypted state header" ErrIO)) as F by (vm_compute; reflexivity).
  assert (files (disk (snd (run_write [Proceeds; Proceeds; Proceeds; Fails 2] 100))) !! "/d/a" = Some (Regular (bytes "old"))) as G by (vm_compute; reflexivity).
  unfold run_write in F, G.
  destruct (WriteReaderFile _ _ _ _ _ _ _) as [r s1]. destruct (WriteFile _ _ _ _ _ _) as [r' s2]. by repeat split; try apply T.
Defined.

Lemma sealed_stream_reads_back_witness :
  let s' := snd (run_write [] 100) in
  fst (read_stream (H := toy_aead) (Some run_key) "/d/a" "artifact" 3 (mkOS (disk s') [])) = Ok (bytes "hello world") /\
  fst (VerifyReaderFile (H := toy_aead) (Some run_key) "/d/a" "artifact" (mkOS (disk s') [])) = Ok tt /\
  11 = blen (bytes "hello world") /\ 11 <= 100.
Proof.
  apply (sealed_stream_reads_back (H := toy_aead) run_key ["1"] "/d/a" "artifact" run_source 100 (mkOS run_host []) 11 _ 3 source_ok_run).
  - unfold is_int64, two63. lia.
  - lia.
  - assert (fst (run_write [] 100) = Ok 11) as F by (vm_compute; reflexivity). unfold run_write in *.
    destruct (WriteReaderFile _ _ _ _ _ _ _) as [r s1]. simpl in *. by rewrite F.
Defined.

(** ** Authenticity on a concrete file *)

(** The place in a stream that a sealed text claims in its tag. *)
Definition claimed (c : Bytes) : Z * bool :=
  let t := take 9 (drop (List.length c - Overhead) c) in
  (from_big_endian (take 8 t), Ascii.eqb (List.last t (chr 0)) (chr 1)).

Definition tag_of (c : Bytes) : Bytes := drop (List.length c - Overhead) c.

(** What a sealed text that opens must satisfy, without its associated data. *)
Definition plausible (k n c : Bytes) (purpose : string) : bool :=
  let t := tag_of c in
  let kind := List.last (take 9 t) (chr 1) in
  if Ascii.eqb kind (chr 0) || Ascii.eqb kind (chr 1)
  then beq (drop 9 t) (big_endian 7 (checksum (k ++ n ++ take (List.length c - Overhead) c) + checksum (bytes purpose) + checksum (take 9 t)))
  else false.

Lemma slot_of purpose i f : slot (streamAssociatedData purpose i f) = big_endian 8 i ++ [if f then chr 1 else chr 0].
Proof.
  unfold slot, streamAssociatedData. rewrite !length_app, big_endian_length. rewrite app_assoc.
  rewrite drop_app_length'; [|rewrite length_app; simpl; lia]. apply resize_all_alt. by rewrite length_app, big_endian_length.
Qed.

Lemma claimed_place k n c purpose i f p :
  is_uint64 i -> toy_open k n c (streamAssociatedData purpose i f) = Some p -> claimed c = (i, f) /\ plausible k n c purpose = true.
Proof.
  intros Hi Ho. apply toy_open_some in Ho as [_ G]. unfold claimed, plausible, tag_of. rewrite G. unfold toy_tag. rewrite slot_of.
  cbv zeta. assert (List.length (big_endian 8 i ++ [if f then chr 1 else chr 0]) = 9%nat) as HL by (by rewrite length_app, big_endian_length).
  rewrite take_app_length', drop_app_length' by done. rewrite !List.last_last. split.
  - rewrite take_app_length' by (by rewrite big_endian_length). rewrite big_endian_decode by exact Hi. by destruct f.
  - assert ((Ascii.eqb (if f then chr 1 else chr 0) (chr 0) || Ascii.eqb (if f then chr 1 else chr 0) (chr 1)) = true) as -> by (by destruct f).
    apply beq_eq. f_equal. unfold streamAssociatedData. rewrite !checksum_app. change (checksum [chr 0]) with 0. lia.
Qed.

Definition triple_eqb (x y : Bytes * Bytes * Bytes) : bool :=
  beq x.1.1 y.1.1 && beq x.1.2 y.1.2 && beq x.2 y.2.

(** Every part of the file, with the place it claims. *)
Definition nothing_forged (k : Bytes) (purpose : string) (F : Bytes) (log : list (Bytes * Bytes * Bytes)) : bool :=
  forallb (fun b => forallb (fun l =>
    let n := take NonceSize (drop b F) in
    let c := take l (drop (b + NonceSize) F) in
    if plausible k n c purpose then
      let '(i, f) := claimed c in
      let a := streamAssociatedData purpose i f in
      match toy_open k n c a with
      | Some _ => existsb (triple_eqb (n, c, a)) log
      | None => true
      end
    else true) (seq 0 (S (List.length F - (b + NonceSize))))) (seq 0 (S (List.length F))).

Lemma nothing_forged_unforged k purpose F log :
  nothing_forged k purpose F log = true -> unforged (H := toy_aead) k purpose F log.
Proof.
  intros Hc before n c after i f p Hi HF Hn Ho. simpl in Ho. pose proof (claimed_place _ _ _ _ _ _ _ Hi Ho) as [Hcl Hk].
  unfold nothing_forged in Hc. rewrite forallb_forall in Hc. specialize (Hc (List.length before)).
  rewrite forallb_forall in Hc. specialize (Hc ltac:(apply in_seq; subst F; rewrite length_app; lia) (List.length c)).
  specialize (Hc ltac:(apply in_seq; subst F; rewrite !length_app; lia)). cbv zeta in Hc.
  assert (take NonceSize (drop (List.length before) F) = n) as E1.
  { subst F. by rewrite drop_app_length, take_app_length'. }
  assert (take (List.length c) (drop (List.length before + NonceSize) F) = c) as E2.
  { subst F. by rewrite app_assoc, drop_app_length', take_app_length' by (rewrite ?length_app; lia). }
  rewrite E1, E2, Hk, Hcl, Ho in Hc. apply existsb_exists in Hc as ([[n' c'] a'] & Hin & E).
  unfold triple_eqb in E. simpl in E. apply andb_prop in E as [[E3%beq_eq E4%beq_eq]%andb_prop E5%beq_eq]. by subst.
Qed.

Definition run_frames : list (Bytes * Bytes) := [(take 12 run_entropy, bytes "hi")].
Definition run_last : Bytes := take 12 (drop 12 run_entropy).
Definition run_file : Bytes := stream_of (H := toy_aead) run_key "p" run_frames run_last.
Definition run_disk (F : Bytes) : os Host := mkOS (mkHost (<["/f" := Regular F]> ∅) []) [].

Lemma run_unforged : unforged (H := toy_aead) run_key "p" run_file (stream_log (H := toy_aead) run_key "p" 0 run_frames run_last).
Proof. apply nothing_forged_unforged. vm_cast_no_check (eq_refl true). Qed.

Lemma sealed_stream_is_authentic_witness :
  unforged (H := toy_aead) run_key "p" run_file (stream_log (H := toy_aead) run_key "p" 0 run_frames run_last) /\
  bytes "hi" = content run_frames /\ run_file = stream_of (H := toy_aead) run_key "p" run_frames run_last.
Proof.
  pose proof run_unforged as U. split; [exact U|].
  apply (sealed_stream_is_authentic (H := toy_aead) run_key "/f" "p" 4 run_frames run_last run_file (run_disk run_file) (bytes "hi")
           (run_disk run_file)); [lia|done|by vm_compute|exact U|vm_compute; reflexivity].
Defined.

(** A stream cut before its terminal frame, or read under another purpose, is
    refused; two streams of one purpose can be spliced, which is why a purpose
    names one stream. *)
Definition run_frames' : list (Bytes * Bytes) := [(take 12 run_entropy, bytes "no"); (take 12 run_entropy, bytes "pe")].
Definition spliced : Bytes :=
  streamFormatHeader ++ framed (H := toy_aead) run_key "p" 0 false (take 12 run_entropy) (bytes "hi") ++
  encode (H := toy_aead) run_key "p" 1 [(take 12 run_entropy, bytes "pe")] run_last.

Example altered_streams :
  fst (read_stream (H := toy_aead) (Some run_key) "/f" "p" 4 (run_disk (take 61 run_file))) = Err ErrInvalidCiphertext /\
  fst (read_stream (H := toy_aead) (Some run_key) "/f" "q" 4 (run_disk run_file)) = Err ErrInvalidCiphertext /\
  fst (read_stream (H := toy_aead) (Some run_key) "/f" "p" 4 (run_disk (run_file ++ [chr 0]))) = Err ErrInvalidCiphertext /\
  fst (read_stream (H := toy_aead) (Some run_key) "/f" "p" 4 (run_disk spliced)) = Ok (bytes "hipe").
Proof. repeat split; vm_compute; reflexivity. Qed.
