(* ===== verification/Warden.v ===== *)
(** * internal/warden: the release updater

    [Update] downloads a release, checks it, unpacks it beside the installed
    ones, switches the [current] link, and goes back when the candidate does not
    become healthy.  The machine is the content of the release directory, the
    marker files and what the service runs.  System calls take their fate from
    GoFiles; the answers of the network, of the service manager and of the
    health endpoint are arguments.  URLs, JSON, SHA-256 and the tar reader are
    the class [WardenLib].  Links are followed inside the release directory. *)

From Stdlib Require Import ZArith Lia Bool Ascii String.
From stdpp Require Import base tactics list strings gmap.
From S2P Require Import Prelude GoStrings GoText CoreTopology GoFiles.

Local Open Scope string_scope.
Local Open Scope list_scope.
Local Open Scope bool_scope.
Local Open Scope Z_scope.
Local Open Scope tx_scope.

(** ** Constants and patterns *)

Definition defaultAPIBaseURL : string := "https://api.github.com".
Definition defaultHealthTimeout : Z := 45 * second.
Definition defaultHealthInterval : Z := second.
Definition maxChecksumBytes : Z := 1048576.
Definition maxRequestMarkerBytes : Z := 4096.
Definition maxBundleBytes : Z := 268435456.
Definition maxExtractedBytes : Z := 536870912.

(** [^[A-Za-z0-9_.-]+/[A-Za-z0-9_.-]+$] *)
Definition repository_char (c : ascii) : bool := alnum c || any_of "_.-" c.

Definition repositoryPattern (s : string) : bool :=
  match SplitChar slash s with
  | [owner; name] =>
      negb (owner =? "")%string && negb (name =? "")%string &&
      forallb repository_char (bytes owner) && forallb repository_char (bytes name)
  | _ => false
  end.

(** [versionPattern]: [^[A-Za-z0-9][A-Za-z0-9._-]*$] *)
Definition validVersion (s : string) : bool :=
  match bytes s with
  | [] => false
  | c :: rest => alnum c && forallb (fun x => alnum x || any_of "._-" x) rest
  end.

(** [^assets/[a-z0-9](?:[a-z0-9-]{0,62}[a-z0-9])?\.yml$] *)
Definition asset_char (c : ascii) : bool := digit c || lower_case c.

Definition assetFilePattern (s : string) : bool :=
  HasPrefix s "assets/" && HasSuffix s ".yml" &&
  let stem := bytes (TrimSuffix (TrimPrefix s "assets/") ".yml") in
  match stem with
  | [] => false
  | c :: rest =>
      asset_char c && (Z.of_nat (List.length rest) <=? 63) &&
      forallb (fun x => asset_char x || Ascii.eqb x "-"%char) rest &&
      match rev rest with [] => true | l :: _ => asset_char l end
  end.

(** ** Data *)

Record Config := mkConfig {
  Repository : string; Component : string; ReleaseDir : string; HealthURL : string; BusyFile : string;
  RequestFile : string; StatusFile : string; APIBaseURL : string; HealthTimeout : Z; HealthInterval : Z;
  has_Service : bool; OS_ : string; Arch : string }.

Record Result := mkResult { r_Version : string; Updated : bool; RolledBack : bool; Deferred : bool }.

Definition no_result : Result := mkResult "" false false false.

Record updateStatus := mkStatus {
  st_Automatic : bool; CheckedAt : Z; LastUpdatedAt : option Z; st_State : string; st_Version : string }.

Record releaseAsset := mkAsset { as_Name : string; BrowserDownloadURL : string }.
Record releasePayload := mkRelease { TagName : string; Assets : list releaseAsset }.

(** One entry of an archive: its header, and the bytes that follow it. *)
Record tarEntry := mkEntry { h_Name : string; h_Regular : bool; h_Size : Z; h_Data : Bytes }.

(** What [http.Client.Do] came back with: the redirects it followed, and the
    response. *)
Record answer := mkAnswer { an_redirects : list URL; an_StatusCode : Z; an_ContentLength : Z; an_Body : Bytes }.

Class WardenLib := {
  parseURL : string -> option URL;                       (* url.Parse *)
  PathEscape : string -> string;                         (* url.PathEscape *)
  sha256_hex : Bytes -> string;                          (* fmt.Sprintf("%x", sha256.Sum256(content)) *)
  decode_release : Bytes -> option releasePayload;       (* json.Decoder on releasePayload *)
  encode_status : updateStatus -> string;                (* json.Marshal on updateStatus *)
  decode_status : string -> option updateStatus;         (* json.Unmarshal on updateStatus *)
  untar : Bytes -> option (list tarEntry * bool) }.      (* gzip and tar: the entries, and whether the archive ends well *)

Inductive werr :=
| Msg (text : string)
| Os (step : string) (e : oserr)
| During (step : string) (e : werr)
| Both (e f : werr)
| Unhealthy (cause : werr) (failures : list string).

Fixpoint was_killed (e : werr) : bool :=
  match e with
  | Os _ Killed => true
  | Os _ _ | Msg _ => false
  | During _ e => was_killed e
  | Both e f => was_killed e || was_killed f
  | Unhealthy c fs => was_killed c
  end.

(** ** The machine *)

(** A file of an unpacked release. *)
Record member := mkMember { m_path : string; m_mode : Z; m_data : Bytes }.

(** An entry of the release directory; an unpacked release has a modification
    time. *)
Inductive entry := Release (members : list member) (mtime : Z) | Link (target : string) | Plain.

Inductive node := TextFile (text : string) | SymlinkNode | OtherNode.

(** A probe of the health endpoint: how long the endpoint takes, the status code
    when there is a response, and how far into the wait behind the probe the
    context ends, if it does. *)
Record probe := mkProbe { took : Z; p_status : option Z; cancelled : option Z }.

Record Machine := mkMachine {
  releases : gmap string entry;
  markers : gmap string node;
  running : option string;            (* the release the service runs *)
  service : list bool;                (* outcomes of the next calls to the service manager *)
  health : list (list probe) }.       (* what the next waits for health see *)

Definition with_releases (f : gmap string entry -> gmap string entry) (m : Machine) : Machine :=
  mkMachine (f (releases m)) (markers m) (running m) (service m) (health m).
Definition with_markers (f : gmap string node -> gmap string node) (m : Machine) : Machine :=
  mkMachine (releases m) (f (markers m)) (running m) (service m) (health m).

Abbreviation wd A := (tx (os Machine) werr A).

Definition sys {A : Type} (step : string) (m : tx (os Machine) oserr A) : wd A := wrap (Os step) m.

(** Runs [m] and hands its error to the caller, unless the process is gone. *)
Definition attempt {A : Type} (m : wd A) : wd (result werr A) :=
  fun s => match m s with
           | (Ok a, s') => (Ok (Ok a), s')
           | (Err e, s') => if was_killed e then (Err e, s') else (Ok (Err e), s')
           end.

Definition on_failure {A : Type} (m : wd A) (cleanup : wd unit) : wd A := defer_on_error was_killed m cleanup.

(** [_ = call]: the error is dropped. *)
Definition ignoring (m : wd unit) : wd unit := attempt m ;;; tx_ret tt.

Definition during {A : Type} (step : string) (m : wd A) : wd A :=
  fun s => match m s with (Err e, s') => (Err (During step e), s') | ok => ok end.

(** ** The release directory *)

Fixpoint follow (fuel : nat) (rs : gmap string entry) (name : string) : result oserr bool :=
  match rs !! name with
  | None => Err ErrNotExist
  | Some (Release _ _) => Ok true
  | Some Plain => Ok false
  | Some (Link t) =>
      match fuel with
      | O => Err ErrIO
      | S fuel' => if plain_name t then follow fuel' rs t else Err ErrNotExist
      end
  end.

(** The kernel follows at most 40 links. *)
Definition maxLinks : nat := 40.

(** [os.Stat]: whether the entry is a directory. *)
Definition os_Stat (name : string) : wd bool := sys "stat" (query (fun m => follow maxLinks (releases m) name)).

Definition os_Readlink (name : string) : wd string :=
  sys "readlink" (query (fun m => match releases m !! name with
                                  | Some (Link t) => Ok t
                                  | Some _ => Err ErrNotSupported
                                  | None => Err ErrNotExist
                                  end)).

(** [os.Lstat]: whether there is an entry. *)
Definition os_Lstat (name : string) : wd bool :=
  sys "lstat" (query (fun m => Ok (match releases m !! name with Some _ => true | None => false end))).

Definition removable (e : entry) : bool := match e with Release (_ :: _) _ => false | _ => true end.

Definition remove_entry (name : string) : wd unit :=
  sys "remove" (atomically (fun m =>
    match releases m !! name with
    | None => (Err ErrNotExist, m)
    | Some e => if removable e then (Ok tt, with_releases (delete name) m) else (Err ErrExist, m)
    end)).

(** [os.RemoveAll]: cut short, it has removed some of the files. *)
Definition RemoveAll (name : string) : wd unit :=
  sys "remove all" (syscall (fun m => (Ok tt, with_releases (delete name) m))
    (fun n => with_releases (fun rs => match rs !! name with
                                       | Some (Release ms t) => <[name := Release (drop n ms) t]> rs
                                       | _ => rs
                                       end))).

Definition os_Symlink (target name : string) : wd unit :=
  sys "symlink" (atomically (fun m =>
    match releases m !! name with
    | Some _ => (Err ErrExist, m)
    | None => (Ok tt, with_releases (fun rs => <[name := Link target]> rs) m)
    end)).

(** [os.Rename]: replaces a link or a file, never a directory. *)
Definition rename_entry (from to : string) : wd unit :=
  sys "rename" (atomically (fun m =>
    match releases m !! from, releases m !! to with
    | None, _ => (Err ErrNotExist, m)
    | Some _, Some (Release _ _) => (Err ErrExist, m)
    | Some (Release _ _), Some _ => (Err ErrExist, m)
    | Some e, _ => (Ok tt, with_releases (fun rs => <[to := e]> (delete from rs)) m)
    end)).

Definition currentVersion : wd string :=
  target <- os_Readlink "current" ;;
  tx_guard ((Base target =? target)%string && validVersion target) (Msg "current link has an unsafe target") ;;;
  directory <- os_Stat target ;;
  tx_guard directory (Msg "current link does not point to a release directory") ;;;
  tx_ret target.

Definition is_not_exist (e : werr) : bool := match e with Os _ ErrNotExist => true | _ => false end.

(** Removes what an interrupted switch left. *)
Definition clear_next : wd unit :=
  removed <- attempt (remove_entry ".current-next") ;;
  match removed with
  | Err e => tx_guard (is_not_exist e) e
  | Ok _ => tx_ret tt
  end.

Definition switchCurrent (version : string) : wd unit :=
  tx_guard (validVersion version) (Msg "release version has unsupported characters") ;;;
  directory <- os_Stat version ;;
  tx_guard directory (Msg "release directory is not a directory") ;;;
  clear_next ;;;
  os_Symlink version ".current-next" ;;;
  on_failure (rename_entry ".current-next" "current") (ignoring (remove_entry ".current-next")).

(** ** Markers *)

Definition absolute_file (filename : string) : bool := IsAbs filename && negb (Clean filename =? "/")%string.

Definition marker_at (filename : string) : wd (option node) :=
  sys "inspect" (query (fun m => Ok (markers m !! Clean filename))).

Definition markerExists (filename : string) : wd bool :=
  if (filename =? "")%string then tx_ret false
  else
    n <- marker_at filename ;;
    match n with
    | None => tx_ret false
    | Some SymlinkNode => tx_fail (Msg "update busy marker must not be a symlink")
    | Some OtherNode => tx_fail (Msg "update busy marker must be a regular file")
    | Some (TextFile _) => tx_ret true
    end.

(** [strings.Cut(s, "=")] *)
Fixpoint cut_at (c : ascii) (seen l : list ascii) : option (list ascii * list ascii) :=
  match l with
  | [] => None
  | x :: l' => if Ascii.eqb x c then Some (rev seen, l') else cut_at c (x :: seen) l'
  end.

Definition newline : ascii := chr 10.
Definition quote : ascii := chr 34.

(** The version a line of a marker names, if any. *)
Definition marked_line (line : string) : option string :=
  match cut_at "="%char [] (bytes (TrimSpace line)) with
  | Some (key, value) =>
      if (TrimSpace (of_bytes key) =? "version")%string then
        let value := TrimChar quote (TrimSpace (of_bytes value)) in
        if validVersion value then Some value else None
      else None
  | None => None
  end.

Fixpoint first_marked (lines : list string) : string :=
  match lines with
  | [] => ""
  | line :: rest => match marked_line line with Some v => v | None => first_marked rest end
  end.

Definition requestedMarkerVersion (text : string) : string := first_marked (SplitChar newline text).

Definition remove_marker (filename : string) : wd unit :=
  sys "consume" (atomically (fun m =>
    match markers m !! Clean filename with
    | Some _ => (Ok tt, with_markers (delete (Clean filename)) m)
    | None => (Err ErrNotExist, m)
    end)).

Definition consumeRequestMarker (filename : string) : wd string :=
  if (filename =? "")%string then tx_ret ""
  else
    n <- marker_at filename ;;
    match n with
    | None => tx_ret ""
    | Some (TextFile text) =>
        tx_guard (len text <=? maxRequestMarkerBytes) (Msg "update request marker must be a bounded regular file") ;;;
        sys "read" opaque_call ;;;
        remove_marker filename ;;;
        tx_ret (requestedMarkerVersion text)
    | Some _ => tx_fail (Msg "update request marker must be a regular file")
    end.

Section Warden.
Context `{WardenLib}.

Definition readUpdateStatus (filename : string) : wd updateStatus :=
  n <- marker_at filename ;;
  match n with
  | None => tx_fail (Os "inspect" ErrNotExist)
  | Some (TextFile text) =>
      tx_guard (len text <=? maxChecksumBytes) (Msg "update status must be a bounded regular file") ;;;
      sys "read" opaque_call ;;;
      match decode_status text with Some st => tx_ret st | None => tx_fail (Msg "decode update status") end
  | Some _ => tx_fail (Msg "update status must be a bounded regular file")
  end.

(** The temporary file is created, written and closed before it is renamed. *)
Definition writeUpdateStatus (filename : string) (status : updateStatus) : wd unit :=
  sys "create status directory" opaque_call ;;;
  n <- marker_at filename ;;
  match n with Some SymlinkNode => tx_fail (Msg "update status must not be a symlink") | _ => tx_ret tt end ;;;
  sys "create status" opaque_call ;;;
  sys "protect status" opaque_call ;;;
  sys "write status" opaque_call ;;;
  sys "close status" opaque_call ;;;
  sys "replace status" (atomically (fun m =>
    match markers m !! Clean filename with
    | Some OtherNode => (Err ErrExist, m)
    | _ => (Ok tt, with_markers (fun ms => <[Clean filename := TextFile (encode_status status)]> ms) m)
    end)).

Definition version_or (fallback : string) : wd string :=
  v <- attempt currentVersion ;;
  tx_ret (match v with Ok v => v | Err _ => fallback end).

Definition recordUpdateStatus (config : Config) (now : Z) (result : Result) (updateErr : option werr) : wd unit :=
  if (StatusFile config =? "")%string then tx_ret tt
  else
    previous <- attempt (readUpdateStatus (StatusFile config)) ;;
    let last := match previous with Ok st => LastUpdatedAt st | Err _ => None end in
    version <- (match updateErr with Some _ => version_or (r_Version result) | None => tx_ret (r_Version result) end) ;;
    let '(state, last) :=
      match updateErr with
      | Some _ => ("failed", last)
      | None => if Deferred result then ("deferred", last)
                else if Updated result then ("updated", Some now) else ("up_to_date", last)
      end in
    version <- (if (version =? "")%string then version_or version else tx_ret version) ;;
    writeUpdateStatus (StatusFile config) (mkStatus true now last state version).

(** ** Configuration *)

(** [net.IP.IsLoopback] *)
Definition IsLoopback (ip : list Z) : bool :=
  if is4 ip then match drop 12 ip with b :: _ => b =? 127 | [] => false end
  else forallb (fun b => b =? 0) (take 15 ip) && match drop 15 ip with [b] => b =? 1 | _ => false end.

Definition isLoopbackHost (host : string) : bool :=
  is_localhost host || match ParseIP host with Some ip => IsLoopback ip | None => false end.

Definition validateLoopbackHealthURL (rawURL : string) : result werr unit :=
  match parseURL (TrimSpace rawURL) with
  | None => Err (Msg "health URL must be an absolute URL without credentials")
  | Some u =>
      if (Scheme u =? "")%string || (Host u =? "")%string || has_User u
      then Err (Msg "health URL must be an absolute URL without credentials")
      else if negb (Scheme u =? "http")%string && negb (Scheme u =? "https")%string
      then Err (Msg "health URL must use HTTP or HTTPS")
      else if negb (isLoopbackHost (Hostname u)) then Err (Msg "health URL must use localhost or a loopback IP address")
      else if negb (RawQuery u =? "")%string || negb (Fragment u =? "")%string
      then Err (Msg "health URL must not include a query or fragment")
      else Ok tt
  end.

(** [runtime.GOOS] and [runtime.GOARCH] are arguments. *)
Definition normalize (goos goarch : string) (c : Config) : result werr Config :=
  let repository := TrimSpace (Repository c) in
  let repository := if (repository =? "")%string then "nimasrn/SwarmOps" else repository in
  if negb (repositoryPattern repository) then Err (Msg "repository must be owner/name")
  else if negb (Component c =? "agent")%string && negb (Component c =? "core")%string
  then Err (Msg "component must be agent or core")
  else if negb (IsAbs (ReleaseDir c)) || (Clean (ReleaseDir c) =? "/")%string
  then Err (Msg "release directory must be an absolute, non-root path")
  else if negb (has_Service c) then Err (Msg "service manager is required")
  else
    let api := if (APIBaseURL c =? "")%string then defaultAPIBaseURL else APIBaseURL c in
    match parseURL api with
    | None => Err (Msg "release API URL must be an absolute URL without credentials")
    | Some u =>
        if (Scheme u =? "")%string || (Host u =? "")%string || has_User u
        then Err (Msg "release API URL must be an absolute URL without credentials")
        else if negb (Scheme u =? "https")%string && negb (isLoopbackHost (Hostname u))
        then Err (Msg "release API URL must use HTTPS")
        else
          let timeout := if HealthTimeout c <=? 0 then defaultHealthTimeout else HealthTimeout c in
          let interval := if HealthInterval c <=? 0 then defaultHealthInterval else HealthInterval c in
          if interval >? timeout then Err (Msg "health interval must not exceed health timeout")
          else match validateLoopbackHealthURL (HealthURL c) with
          | Err e => Err e
          | Ok _ =>
              let os_ := if (OS_ c =? "")%string then goos else OS_ c in
              let arch := if (Arch c =? "")%string then goarch else Arch c in
              if negb (validVersion os_) || negb (validVersion arch) then Err (Msg "platform has unsupported characters")
              else if existsb (fun f => negb (f =? "")%string && negb (absolute_file f)) [BusyFile c; RequestFile c; StatusFile c]
              then Err (Msg "a marker must be an absolute non-root path")
              else Ok (mkConfig repository (Component c) (ReleaseDir c) (HealthURL c) (BusyFile c) (RequestFile c) (StatusFile c)
                         api timeout interval (has_Service c) os_ arch)
          end
    end.

(** ** The network *)

(** [http.Client.Do] by URL; [None] when there is no response. *)
Context (web : string -> option answer).

Definition allowedReleaseURL (u : URL) : bool :=
  (Scheme u =? "https")%string || ((Scheme u =? "http")%string && isLoopbackHost (Hostname u)).

(** The check on every redirect. *)
Definition get (url : string) : result werr answer :=
  match web url with
  | None => Err (Msg "request failed")
  | Some a =>
      if existsb (fun u => negb (allowedReleaseURL u) || has_User u) (an_redirects a)
      then Err (Msg "redirect must use HTTPS without credentials")
      else Ok a
  end.

(** [strings.TrimRight(s, "/")] *)
Definition TrimSlashes (s : string) : string := trim_right slash s.

Definition release_endpoint (config : Config) (requestedVersion : string) : string :=
  if (requestedVersion =? "")%string
  then (TrimSlashes (APIBaseURL config) ++ "/repos/" ++ Repository config ++ "/releases/latest")%string
  else (TrimSlashes (APIBaseURL config) ++ "/repos/" ++ Repository config ++ "/releases/tags/" ++ PathEscape requestedVersion)%string.

Definition fetchRelease (config : Config) (requestedVersion : string) : result werr releasePayload :=
  match get (release_endpoint config requestedVersion) with
  | Err e => Err (During "request release metadata" e)
  | Ok a =>
      if negb (an_StatusCode a =? 200) then Err (Msg "release metadata returned another status")
      else match decode_release (take (Z.to_nat maxChecksumBytes) (an_Body a)) with
      | None => Err (Msg "decode release metadata")
      | Some release =>
          if negb (validVersion (TagName release)) then Err (Msg "release metadata contains an invalid tag")
          else if negb (requestedVersion =? "")%string && negb (TagName release =? requestedVersion)%string
          then Err (Msg "release metadata tag does not match requested version")
          else Ok release
      end
  end.

Definition findAsset (assets : list releaseAsset) (name : string) : option releaseAsset :=
  List.find (fun a => (as_Name a =? name)%string && negb (TrimSpace (BrowserDownloadURL a) =? "")%string) assets.

Definition download (rawURL : string) (limit : Z) : result werr Bytes :=
  match parseURL rawURL with
  | None => Err (Msg "release asset URL must use HTTPS without credentials")
  | Some u =>
      if (Host u =? "")%string || has_User u || negb (allowedReleaseURL u)
      then Err (Msg "release asset URL must use HTTPS without credentials")
      else match get rawURL with
      | Err e => Err e
      | Ok a =>
          if negb (an_StatusCode a =? 200) then Err (Msg "release asset returned another status")
          else if an_ContentLength a >? limit then Err (Msg "release asset exceeds the limit")
          else if blen (an_Body a) >? limit then Err (Msg "release asset exceeds the limit")
          else Ok (an_Body a)
      end
  end.

(** ** Checksums *)

(** [strings.Fields]: [field] is the current field, reversed. *)
Fixpoint fields_aux (fuel : nat) (field l : list ascii) : list string :=
  let flush rest := match field with [] => rest | _ => of_bytes (rev field) :: rest end in
  match fuel with
  | O => flush []
  | S fuel' =>
      match l with
      | [] => flush []
      | c :: l' =>
          match space_width l with
          | O => fields_aux fuel' (c :: field) l'
          | n => flush (fields_aux fuel' [] (drop n l))
          end
      end
  end.

Definition Fields (s : string) : list string := fields_aux (S (String.length s)) [] (bytes s).

(** [hex.DecodeString] succeeds: digits of either case, in pairs. *)
Definition is_hex_any (c : ascii) : bool := is_hex (lower_ascii c).
Definition hex_decodes (s : string) : bool := (len s mod 2 =? 0) && forallb is_hex_any (bytes s).

Definition lower_text (s : string) : string := of_bytes (map lower_ascii (bytes s)).

(** The loop over the lines: the last checksum seen and how many there were. *)
Fixpoint checksum_lines (assetName expected : string) (matches : Z) (lines : list string) : result werr (string * Z) :=
  match lines with
  | [] => Ok (expected, matches)
  | line :: rest =>
      match Fields line with
      | [sum; name] =>
          if (TrimPrefix name "*" =? assetName)%string then
            if negb (len sum =? 64) then Err (Msg "checksum has invalid length")
            else if negb (hex_decodes sum) then Err (Msg "checksum is not hexadecimal")
            else checksum_lines assetName (lower_text sum) (matches + 1) rest
          else checksum_lines assetName expected matches rest
      | _ => checksum_lines assetName expected matches rest
      end
  end.

Definition verifyChecksum (checksums : Bytes) (assetName : string) (content : Bytes) : result werr unit :=
  match checksum_lines assetName "" 0 (SplitChar newline (of_bytes checksums)) with
  | Err e => Err e
  | Ok (expected, matches) =>
      if matches =? 0 then Err (Msg "checksums.txt has no checksum")
      else if negb (matches =? 1) then Err (Msg "checksums.txt must contain exactly one checksum")
      else if negb (sha256_hex content =? expected)%string then Err (Msg "SHA-256 checksum mismatch")
      else Ok tt
  end.

(** ** Bundles *)

Definition safeArchiveName (name : string) : result werr string :=
  if (name =? "")%string || HasPrefix name "/" || Contains name (of_bytes [chr 0])
  then Err (Msg "archive contains unsafe file name")
  else
    let clean := Clean name in
    if (clean =? ".")%string || (clean =? "..")%string || HasPrefix clean "../"
    then Err (Msg "archive contains unsafe file name")
    else Ok clean.

Definition requiredBundleFiles (component : string) : list string :=
  if (component =? "core")%string then
    ["swarmops-core"; "swarmops-warden"; "assets/alertmanager.yml"; "assets/agent.yml"; "assets/fluentd-aggregator.yml";
     "assets/fluentd-forwarder.yml"; "assets/jaeger.yml"; "assets/logs.yml"; "assets/mongo.yml"; "assets/observability.yml";
     "assets/postgres.yml"; "assets/prometheus-alerts.yml"; "assets/prometheus.yml"; "assets/redis.yml";
     "assets/traefik-dynamic.yml"; "assets/traefik.yml"]
  else ["swarmops-agent"; "swarmops-warden"].

Definition allowedBundleFile (component name : string) : bool :=
  oneOfString name (requiredBundleFiles component) || ((component =? "core")%string && assetFilePattern name).

Definition bundleFileMode (name : string) : Z :=
  if oneOfString name ["swarmops-agent"; "swarmops-core"; "swarmops-warden"] then 493 else 420.

Definition pathWithin (root candidate : string) : bool :=
  match Rel root candidate with
  | Some relative => negb (relative =? "..")%string && negb (HasPrefix relative "../")
  | None => false
  end.

Definition on_members (staging : string) (f : list member -> list member) : Machine -> Machine :=
  with_releases (fun rs => match rs !! staging with
                           | Some (Release ms t) => <[staging := Release (f ms) t]> rs
                           | _ => rs
                           end).

(** [os.OpenFile] with [O_CREATE|O_EXCL]. *)
Definition create_member (staging name : string) (mode : Z) : wd unit :=
  sys "open" (atomically (fun m => (Ok tt, on_members staging (fun ms => ms ++ [mkMember name mode []]) m))).

(** [io.CopyN] into the file that was just created. *)
Definition fill_member (data : Bytes) (ms : list member) : list member :=
  match rev ms with
  | last :: before => rev before ++ [mkMember (m_path last) (m_mode last) (m_data last ++ data)]
  | [] => []
  end.

Definition CopyN (staging : string) (data : Bytes) (size : Z) : wd unit :=
  let n := Z.to_nat size in
  sys "copy" (syscall
    (fun m => (if blen data <? size then Err ErrIO else Ok tt, on_members staging (fill_member (take n data)) m))
    (fun k => on_members staging (fill_member (take k (take n data))))).

Definition lift_result {A : Type} (r : result werr A) : wd A := tx_lift r.

(** One entry of the archive: what was seen, and the bytes extracted so far. *)
Definition extractEntry (directory staging component : string) (seen : list string) (total : Z) (header : tarEntry)
  : wd (list string * Z) :=
  name <- lift_result (safeArchiveName (h_Name header)) ;;
  tx_guard (h_Regular header) (Msg "archive entry is not a regular file") ;;;
  tx_guard (allowedBundleFile component name) (Msg "archive contains unsupported file") ;;;
  tx_guard (negb (oneOfString name seen)) (Msg "archive contains duplicate file") ;;;
  tx_guard (negb ((h_Size header <? 0) || (h_Size header >? maxExtractedBytes - total))) (Msg "archive extraction exceeds the limit") ;;;
  tx_guard (pathWithin directory (JoinPath directory name)) (Msg "archive file escapes staging directory") ;;;
  sys "create directory" opaque_call ;;;
  sys "protect directory" opaque_call ;;;
  create_member staging name (bundleFileMode name) ;;;
  sys "protect" opaque_call ;;;
  CopyN staging (h_Data header) (h_Size header) ;;;
  sys "close" opaque_call ;;;
  tx_ret (seen ++ [name], total + h_Size header).

Fixpoint extractEntries (directory staging component : string) (seen : list string) (total : Z) (entries : list tarEntry)
  : wd (list string) :=
  match entries with
  | [] => tx_ret seen
  | header :: rest =>
      st <- extractEntry directory staging component seen total header ;;
      extractEntries directory staging component (fst st) (snd st) rest
  end.

Definition extractBundle (bundle : Bytes) (directory staging component : string) : wd unit :=
  match untar bundle with
  | None => tx_fail (Msg "open gzip archive")
  | Some (entries, ends) =>
      seen <- extractEntries directory staging component [] 0 entries ;;
      tx_guard ends (Msg "read archive") ;;;
      tx_guard (forallb (fun f => oneOfString f seen) (requiredBundleFiles component))
        (Msg "archive does not contain a required file")
  end.

(** [os.MkdirTemp]; the random suffixes it tries are an argument. *)
Definition MkdirTemp (prefix : string) (now : Z) (suffixes : list string) : wd string :=
  sys "create staging" (atomically (fun m =>
    match List.find (fun sfx => bool_decide (releases m !! (prefix ++ sfx)%string = None)) suffixes with
    | Some sfx => let name := (prefix ++ sfx)%string in
                  (Ok name, with_releases (fun rs => <[name := Release [] now]> rs) m)
    | None => (Err ErrExist, m)
    end)).

Definition stageBundle (config : Config) (now : Z) (suffixes : list string) (version : string) (bundle : Bytes) : wd string :=
  tx_guard (validVersion version) (Msg "release version has unsupported characters") ;;;
  sys "create release directory" opaque_call ;;;
  exists_ <- os_Lstat version ;;
  tx_guard (negb exists_) (Msg "release directory already exists") ;;;
  staging <- MkdirTemp (".staging-" ++ version ++ "-") now suffixes ;;
  on_failure
    (extractBundle bundle (JoinPath (ReleaseDir config) staging) staging (Component config) ;;;
     rename_entry staging version)
    (ignoring (RemoveAll staging)) ;;;
  tx_ret version.

(** ** The service *)

(** A call to the service manager: [act] is what it does when it succeeds. *)
Definition service_call (step : string) (act : Machine -> Machine) : wd unit :=
  sys step (atomically (fun m =>
    let m' := mkMachine (releases m) (markers m) (running m) (tail (service m)) (health m) in
    match service m with
    | false :: _ => (Err ErrIO, m')
    | _ => (Ok tt, act m')
    end)).

Definition set_running (v : option string) (m : Machine) : Machine :=
  mkMachine (releases m) (markers m) v (service m) (health m).

(** The service starts what [current] links to. *)
Definition installed (m : Machine) : option string :=
  match releases m !! "current" with Some (Link t) => Some t | _ => None end.

Definition Stop : wd unit := service_call "stop" (set_running None).
Definition Start : wd unit := service_call "start" (fun m => set_running (installed m) m).

(** ** Health *)

(** [minDuration(interval, 5*time.Second)], the timeout of the HTTP client; one
    that is not positive is none. *)
Definition client_timeout (interval : Z) : Z := Z.min interval (5 * second).

Definition times_out (interval : Z) (p : probe) : bool := (0 <? client_timeout interval) && (client_timeout interval <=? took p).

(** What [client.Do] returns, and the time it takes. *)
Definition answered (interval : Z) (p : probe) : option Z := if times_out interval p then None else p_status p.
Definition spent (interval : Z) (p : probe) : Z := if times_out interval p then client_timeout interval else Z.max 0 (took p).

(** The probe loop: [elapsed] is the time since its start.  Its result, and the
    time it ends. *)
Fixpoint probe_loop (fuel : nat) (timeout interval elapsed : Z) (lastErr : option werr) (probes : list probe)
  : result werr unit * Z :=
  match fuel with
  | O => (Err (Msg "out of fuel"), elapsed)
  | S fuel' =>
      if elapsed <? timeout then
        let p := match probes with p :: _ => p | [] => mkProbe 0 None None end in
        let after := elapsed + spent interval p in
        match answered interval p with
        | Some 200 => (Ok tt, after)
        | status =>
            let lastErr := Some (Msg (match status with Some _ => "health endpoint returned another status" | None => "health request failed" end)) in
            match cancelled p with
            | Some d => (Err (Msg "context ended"), after + Z.min (Z.max 0 d) interval)
            | None => probe_loop fuel' timeout interval (after + interval) lastErr (tail probes)
            end
        end
      else (Err (match lastErr with Some e => e | None => Msg "health timeout elapsed" end), elapsed)
  end.

Definition waitForHealth (rawURL : string) (timeout interval : Z) (probes : list probe) : result werr unit * Z :=
  match parseURL rawURL with
  | None => (Err (Msg "parse health URL"), 0)
  | Some _ => probe_loop (S (S (Z.to_nat (timeout / interval)))) timeout interval 0 None probes
  end.

(** The wait, on the probes the machine will answer. *)
Definition await_health (config : Config) : wd unit :=
  fun s =>
    let m := disk s in
    let m' := mkMachine (releases m) (markers m) (running m) (service m) (tail (health m)) in
    match sys "probe" opaque_call s with
    | (Err e, s') => (Err e, mkOS m' (fates s'))
    | (Ok _, s') => (fst (waitForHealth (HealthURL config) (HealthTimeout config) (HealthInterval config) (hd [] (health m))),
                      mkOS m' (fates s'))
    end.

(** ** Rollback *)

(** A step whose failure is noted under its name. *)
Definition noting (what : string) (m : wd unit) : wd (list string) :=
  r <- attempt m ;; tx_ret (match r with Ok _ => [] | Err _ => [what] end).

Definition restore (config : Config) (previous : string) : wd (list string) :=
  restored <- noting "restore current link" (switchCurrent previous) ;;
  match restored with
  | [] =>
      started <- noting "start previous service" Start ;;
      match started with
      | [] => noting "validate previous service" (await_health config)
      | _ => tx_ret started
      end
  | _ => tx_ret restored
  end.

(** The failures, in the order they are reported. *)
Definition rollback (config : Config) (previous candidate : string) : wd (list string) :=
  stopped <- noting "stop candidate" Stop ;;
  restored <- restore config previous ;;
  removed <- noting "remove failed candidate" (RemoveAll candidate) ;;
  tx_ret (stopped ++ restored ++ removed).

(** ** Retention *)

(** [sort.Slice] puts the newest first and leaves the order of equal times open:
    [tie] decides it. *)
Definition release_times (rs : gmap string entry) : list (string * Z) :=
  omap (fun kv => match snd kv with
                  | Release _ t => if validVersion (fst kv) then Some (fst kv, t) else None
                  | _ => None
                  end) (map_to_list rs).

Definition newest_first (tie : string -> Z) (rs : gmap string entry) : list string :=
  map fst (order_by (fun x => (- snd x, tie (fst x))) (release_times rs)).

(** [keep] as a set without duplicates. *)
Fixpoint keep_newest (keep : list string) (names : list string) : list string :=
  match names with
  | [] => keep
  | name :: rest =>
      if (3 <=? List.length keep)%nat then keep
      else keep_newest (if oneOfString name keep then keep else keep ++ [name]) rest
  end.

Fixpoint remove_releases (names : list string) : wd unit :=
  match names with
  | [] => tx_ret tt
  | name :: rest => RemoveAll name ;;; remove_releases rest
  end.

Definition prune (tie : string -> Z) (current : string) : wd unit :=
  rs <- sys "read release directory" (query (fun m => Ok (releases m))) ;;
  let names := newest_first tie rs in
  let keep := keep_newest [current] names in
  remove_releases (List.filter (fun name => negb (oneOfString name keep)) names).

(** ** Update *)

Record Inputs := mkInputs {
  goos : string; goarch : string; now : Z; suffixes : list string; tie : string -> Z }.

Definition bundleName (config : Config) (tag : string) : string :=
  ("swarmops-" ++ Component config ++ "_" ++ tag ++ "_" ++ OS_ config ++ "_" ++ Arch config ++ ".tar.gz")%string.

(** Fetches, checks and unpacks the release. *)
Definition obtain (config : Config) (inp : Inputs) (release : releasePayload) : wd string :=
  checksumAsset <- lift_result (match findAsset (Assets release) "checksums.txt" with
                                | Some a => Ok a | None => Err (Msg "release does not publish checksums.txt") end) ;;
  bundleAsset <- lift_result (match findAsset (Assets release) (bundleName config (TagName release)) with
                              | Some a => Ok a | None => Err (Msg "release has no bundle") end) ;;
  checksums <- during "download release checksums" (lift_result (download (BrowserDownloadURL checksumAsset) maxChecksumBytes)) ;;
  bundle <- during "download release bundle" (lift_result (download (BrowserDownloadURL bundleAsset) maxBundleBytes)) ;;
  during "verify release bundle" (lift_result (verifyChecksum checksums (bundleName config (TagName release)) bundle)) ;;;
  during "stage release" (stageBundle config (now inp) (suffixes inp) (TagName release) bundle).

(** [os.Chtimes(candidate, now, now)] *)
Definition touch (name : string) (t : Z) : wd unit :=
  sys "record update time" (atomically (fun m =>
    match releases m !! name with
    | Some (Release ms _) => (Ok tt, with_releases (fun rs => <[name := Release ms t]> rs) m)
    | Some _ => (Ok tt, m)
    | None => (Err ErrNotExist, m)
    end)).

Definition activated (inp : Inputs) (tag : string) : tx (os Machine) (Result * werr) Result :=
  fun s =>
    let done := mkResult tag true false false in
    match (touch tag (now inp) ;;; prune (tie inp) tag) s with
    | (Ok _, s') => (Ok done, s')
    | (Err e, s') => (Err (done, e), s')
    end.

Definition plainly {A : Type} (m : wd A) : tx (os Machine) (Result * werr) A :=
  fun s => match m s with (Ok a, s') => (Ok a, s') | (Err e, s') => (Err (no_result, e), s') end.

(** Stops the service, switches to the candidate, starts it and waits for its
    health; what went wrong with the candidate, if anything. *)
Definition switch_over (config : Config) (tag candidate : string) : wd (option werr) :=
  during "stop current service before update" (on_failure Stop (ignoring (RemoveAll candidate))) ;;;
  switched <- attempt (switchCurrent tag) ;;
  match switched with
  | Err e =>
      restarted <- attempt Start ;;
      ignoring (RemoveAll candidate) ;;;
      tx_fail (match restarted with Err f => Both (During "switch to release" e) f | Ok _ => During "switch to release" e end)
  | Ok _ =>
      started <- attempt Start ;;
      match started with
      | Err e => tx_ret (Some e)
      | Ok _ => healthy <- attempt (await_health config) ;;
                tx_ret (match healthy with Ok _ => None | Err e => Some e end)
      end
  end.

Definition replace_release (config : Config) (inp : Inputs) (previous : string) (release : releasePayload)
  : tx (os Machine) (Result * werr) Result :=
  let tag := TagName release in
  candidate <- plainly (obtain config inp release) ;;
  candidateErr <- plainly (switch_over config tag candidate) ;;
  match candidateErr with
  | None => activated inp tag
  | Some cause =>
      fun s =>
        let back := mkResult tag false true false in
        match rollback config previous candidate s with
        | (Ok failures, s') => (Err (back, Unhealthy cause failures), s')
        | (Err e, s') => (Err (back, e), s')
        end
  end.

(** The body of [Update], after [normalize]. *)
Definition update_body (config : Config) (inp : Inputs) (requestedVersion : string) : tx (os Machine) (Result * werr) Result :=
  marked <- plainly (consumeRequestMarker (RequestFile config)) ;;
  let requestedVersion := if (requestedVersion =? "")%string then marked else requestedVersion in
  busy <- plainly (markerExists (BusyFile config)) ;;
  if busy then
    version <- plainly (during "read installed release while deferring update" currentVersion) ;;
    tx_ret (mkResult version false false true)
  else
    plainly (tx_guard ((requestedVersion =? "")%string || validVersion requestedVersion)
               (Msg "release version has unsupported characters")) ;;;
    previous <- plainly (during "read installed release" currentVersion) ;;
    release <- plainly (lift_result (fetchRelease config requestedVersion)) ;;
    if (TagName release =? previous)%string then tx_ret (mkResult (TagName release) false false false)
    else replace_release config inp previous release.

(** [Update], with its deferred record of what happened. *)
Definition Update (config : Config) (inp : Inputs) (requestedVersion : string) (s : os Machine)
  : (Result * option werr) * os Machine :=
  match normalize (goos inp) (goarch inp) config with
  | Err e => ((no_result, Some e), s)
  | Ok config =>
      let '(r, s1) := update_body config inp requestedVersion s in
      let '(result, err) := match r with Ok res => (res, None) | Err (res, e) => (res, Some e) end in
      if match err with Some e => was_killed e | None => false end then ((result, err), s1)
      else
        let '(recorded, s2) := recordUpdateStatus config (now inp) result err s1 in
        ((result, match recorded, err with
                  | Err f, Some e => Some (Both e f)
                  | Err f, None => Some (During "record update status" f)
                  | Ok _, _ => err
                  end), s2)
  end.

End Warden.
