(* ===== verification/WardenFacts.v ===== *)
(** * The release updater: what its steps do to the release directory

    [keeps K m]: whatever the outcome of [m], entries whose name is in [K] are
    as they were.  Switching the link is all or nothing, staging adds one
    complete directory or nothing, and the probe loop ends. *)

From Stdlib Require Import ZArith Lia Bool Ascii String.
From stdpp Require Import base tactics list strings gmap.
From S2P Require Import Prelude GoStrings GoText CoreTopology GoFiles Warden.

Local Open Scope string_scope.
Local Open Scope list_scope.
Local Open Scope bool_scope.
Local Open Scope Z_scope.
Local Open Scope tx_scope.

(** ** Steps that leave entries alone *)

Definition keeps {E A} (K : string -> Prop) (m : tx (os Machine) E A) : Prop :=
  forall s r s' q, m s = (r, s') -> K q -> releases (disk s') !! q = releases (disk s) !! q.

Section Keeps.
Context (K : string -> Prop).

Lemma keeps_ret {E A} (a : A) : keeps (E := E) K (tx_ret a).
Proof. by intros s r s' q [= _ <-]. Qed.

Lemma keeps_fail {E A} (e : E) : keeps K (tx_fail (A := A) e).
Proof. by intros s r s' q [= _ <-]. Qed.

Lemma keeps_guard {E} b (e : E) : keeps K (tx_guard b e).
Proof. destruct b; [apply keeps_ret|apply keeps_fail]. Qed.

Lemma keeps_lift {E A} (r : result E A) : keeps K (tx_lift r).
Proof. by intros s r' s' q [= _ <-]. Qed.

Lemma keeps_bind {E A B} (m : tx (os Machine) E A) (k : A -> tx (os Machine) E B) :
  keeps K m -> (forall a, keeps K (k a)) -> keeps K (tx_bind m k).
Proof.
  intros Hm Hk s r s' q Hr Hq. unfold tx_bind in Hr. destruct (m s) as [[a|e] s1] eqn:E1.
  - rewrite (Hk a _ _ _ _ Hr Hq). by eapply Hm.
  - injection Hr as _ <-. by eapply Hm.
Qed.

Lemma keeps_if {E A} (b : bool) (m n : tx (os Machine) E A) : keeps K m -> keeps K n -> keeps K (if b then m else n).
Proof. by destruct b. Qed.

Lemma keeps_wrap {E A} (f : oserr -> E) (m : tx (os Machine) oserr A) : keeps K m -> keeps K (wrap f m).
Proof.
  intros Hm s r s' q Hr Hq. unfold wrap in Hr. destruct (m s) as [[] s1] eqn:E1; injection Hr as _ <-; by eapply Hm.
Qed.

Lemma keeps_syscall {A} (act : Machine -> result oserr A * Machine) partial :
  (forall m q, K q -> releases (snd (act m)) !! q = releases m !! q) ->
  (forall n m q, K q -> releases (partial n m) !! q = releases m !! q) -> keeps K (syscall act partial).
Proof. intros H1 H2 s r s' q Hr Hq. apply syscall_disk in Hr as [[_ ->]|(n & e & _ & ->)]; auto. Qed.

Lemma keeps_query {A} (f : Machine -> result oserr A) : keeps K (query f).
Proof. by apply keeps_syscall. Qed.

Lemma keeps_attempt {A} (m : wd A) : keeps K m -> keeps K (attempt m).
Proof.
  intros Hm s r s' q Hr Hq. unfold attempt in Hr. destruct (m s) as [[] s1] eqn:E1; [|destruct (was_killed e)];
    injection Hr as _ <-; by eapply Hm.
Qed.

Lemma keeps_during {A} step (m : wd A) : keeps K m -> keeps K (during step m).
Proof.
  intros Hm s r s' q Hr Hq. unfold during in Hr. destruct (m s) as [[] s1] eqn:E1; injection Hr as _ <-; by eapply Hm.
Qed.

Lemma keeps_plainly {A} (m : wd A) : keeps K m -> keeps K (plainly m).
Proof.
  intros Hm s r s' q Hr Hq. unfold plainly in Hr. destruct (m s) as [[] s1] eqn:E1; injection Hr as _ <-; by eapply Hm.
Qed.

Lemma keeps_on_failure {A} (m : wd A) cleanup : keeps K m -> keeps K cleanup -> keeps K (on_failure m cleanup).
Proof.
  intros Hm Hc s r s' q Hr Hq. unfold on_failure, defer_on_error in Hr. destruct (m s) as [[a|e] s1] eqn:E1.
  - injection Hr as _ <-. by eapply Hm.
  - destruct (was_killed e); injection Hr as _ <-; [by eapply Hm|]. destruct (cleanup s1) as [rc sc] eqn:E2.
    simpl. rewrite (Hc _ _ _ _ E2 Hq). by eapply Hm.
Qed.

Lemma keeps_ignoring m : keeps K m -> keeps K (ignoring m).
Proof. intros Hm. apply keeps_bind; [by apply keeps_attempt|]. intros a. apply keeps_ret. Qed.

Lemma keeps_noting what m : keeps K m -> keeps K (noting what m).
Proof. intros Hm. apply keeps_bind; [by apply keeps_attempt|]. intros a. apply keeps_ret. Qed.

Lemma keeps_service step act : (forall m, releases (act m) = releases m) -> keeps K (service_call step act).
Proof.
  intros Ha. apply keeps_wrap, keeps_syscall; [|done]. intros m q Hq. simpl.
  destruct (service m) as [|[] rest]; simpl; by rewrite ?Ha.
Qed.

Lemma keeps_Stop : keeps K Stop.
Proof. by apply keeps_service. Qed.

Lemma keeps_Start : keeps K Start.
Proof. by apply keeps_service. Qed.

Lemma keeps_await `{WardenLib} config : keeps K (await_health config).
Proof.
  intros s r s' q Hr Hq. unfold await_health in Hr. destruct (sys "probe" opaque_call s) as [[] s1]; by injection Hr as _ <-.
Qed.

Lemma keeps_remove_entry name : ~ K name -> keeps K (remove_entry name).
Proof.
  intros Hn. apply keeps_wrap, keeps_syscall; [|done]. intros m q Hq. destruct (releases m !! name) as [e|]; [|done].
  destruct (removable e); [|done]. simpl. rewrite lookup_delete_ne; [done|by intros ->].
Qed.

Lemma keeps_RemoveAll name : ~ K name -> keeps K (RemoveAll name).
Proof.
  intros Hn. apply keeps_wrap, keeps_syscall; intros; simpl; [rewrite lookup_delete_ne; [done|by intros ->]|].
  repeat case_match; try done. rewrite lookup_insert_ne; [done|by intros ->].
Qed.

Lemma keeps_Symlink target name : ~ K name -> keeps K (os_Symlink target name).
Proof.
  intros Hn. apply keeps_wrap, keeps_syscall; [|done]. intros m q Hq. destruct (releases m !! name); [done|]. simpl.
  rewrite lookup_insert_ne; [done|by intros ->].
Qed.

Lemma keeps_rename from to : ~ K from -> ~ K to -> keeps K (rename_entry from to).
Proof.
  intros Hf Ht. apply keeps_wrap, keeps_syscall; [|done]. intros m q Hq.
  repeat case_match; try done; simpl; rewrite lookup_insert_ne, lookup_delete_ne; try done; by intros ->.
Qed.

Lemma keeps_members staging f (m : Machine) q : ~ K staging -> K q -> releases (on_members staging f m) !! q = releases m !! q.
Proof. intros Hs Hq. simpl. repeat case_match; try done. rewrite lookup_insert_ne; [done|by intros ->]. Qed.

End Keeps.

(** Decomposes a step into steps with a lemma. *)
Ltac keep_all :=
  repeat first
    [ assumption | done
    | apply keeps_remove_entry | apply keeps_RemoveAll | apply keeps_Symlink | apply keeps_rename
    | apply keeps_Stop | apply keeps_Start | apply keeps_await
    | apply keeps_ret | apply keeps_fail | apply keeps_guard | apply keeps_lift | apply keeps_query
    | apply keeps_ignoring | apply keeps_noting | apply keeps_attempt | apply keeps_during | apply keeps_plainly | apply keeps_wrap
    | apply keeps_on_failure | apply keeps_if | (apply keeps_bind; [|intros ?])
    | progress unfold sys, opaque_call, lift_result, os_Stat, os_Readlink, os_Lstat, marker_at
    | case_match ].

(** Steps that only read. *)
Definition reads {E A} (m : tx (os Machine) E A) : Prop := keeps (fun _ => True) m.

Lemma currentVersion_reads : reads currentVersion.
Proof. unfold reads, currentVersion. keep_all. Qed.

Lemma reads_keeps {E A} K (m : tx (os Machine) E A) : reads m -> keeps K m.
Proof. intros Hm s r s' q Hr _. by eapply Hm. Qed.

Lemma remove_marker_reads f : reads (remove_marker f).
Proof. apply keeps_wrap, keeps_syscall; [|done]. intros m q _. by destruct (markers m !! Clean f). Qed.

Lemma consume_reads f : reads (consumeRequestMarker f).
Proof. unfold reads, consumeRequestMarker. pose proof (remove_marker_reads f). keep_all. Qed.

Lemma markerExists_reads f : reads (markerExists f).
Proof. unfold reads, markerExists. keep_all. Qed.

Section Status.
Context `{WardenLib}.

Lemma readStatus_reads f : reads (readUpdateStatus f).
Proof. unfold reads, readUpdateStatus. keep_all. Qed.

Lemma writeStatus_reads f st : reads (writeUpdateStatus f st).
Proof.
  unfold reads, writeUpdateStatus.
  assert (keeps (fun _ => True) (sys "replace status" (atomically (fun m =>
    match markers m !! Clean f with
    | Some OtherNode => (Err ErrExist, m)
    | _ => (Ok tt, with_markers (fun ms => <[Clean f := TextFile (encode_status st)]> ms) m)
    end)))).
  { apply keeps_wrap, keeps_syscall; [|done]. intros m q _. by destruct (markers m !! Clean f) as [[]|]. }
  keep_all.
Qed.

Lemma recordStatus_reads config now res e : reads (recordUpdateStatus config now res e).
Proof.
  unfold reads, recordUpdateStatus, version_or. pose proof currentVersion_reads. pose proof (readStatus_reads (StatusFile config)).
  pose proof (writeStatus_reads (StatusFile config)). unfold reads in *. keep_all; auto.
Qed.

End Status.

(** ** Reading [current] *)

Definition links_to (m : Machine) (v : string) : Prop := releases m !! "current" = Some (Link v).

Lemma sys_ok {A} step (m : tx (os Machine) oserr A) s a s' : sys step m s = (Ok a, s') -> m s = (Ok a, s').
Proof. apply wrap_ok. Qed.

Lemma guard_fact {S E} b (e : E) (s : S) a s' : tx_guard b e s = (Ok a, s') -> b = true /\ s' = s.
Proof. unfold tx_guard. destruct b; intros; by tx_prims. Qed.

Lemma currentVersion_ok s v s' :
  currentVersion s = (Ok v, s') -> links_to (disk s) v /\ validVersion v = true /\ disk s' = disk s.
Proof.
  intros Hr. unfold currentVersion in Hr. tx_step Hr. apply sys_ok in Hm. pose proof (query_disk _ _ _ _ Hm) as D0.
  apply query_ok in Hm. tx_step Hr. apply guard_fact in Hm0 as [[_ Hv]%andb_prop ->]. tx_step Hr. apply sys_ok, query_disk in Hm0.
  tx_step Hr. apply guard_fact in Hm1 as [_ ->]. tx_prims. split; [|split; [done|congruence]].
  unfold links_to. destruct (releases (disk s) !! "current") as [[]|]; try done. by injection Hm as ->.
Qed.

(** ** Switching the link *)

Definition link_names (q : string) : Prop := q <> "current" /\ q <> ".current-next".

Lemma switch_keeps v : keeps link_names (switchCurrent v).
Proof.
  assert (~ link_names ".current-next") by (intros []; done). assert (~ link_names "current") by (intros []; done).
  unfold switchCurrent, clear_next. keep_all.
Qed.

Lemma rename_entry_spec from to s r s' :
  rename_entry from to s = (r, s') ->
  (is_ok r = false /\ releases (disk s') = releases (disk s)) \/
  (exists e, r = Ok tt /\ releases (disk s) !! from = Some e /\ releases (disk s') = <[to := e]> (delete from (releases (disk s)))).
Proof.
  intros Hr. unfold rename_entry, sys, wrap in Hr. destruct (atomically _ s) as [r0 s0] eqn:E.
  apply syscall_disk in E as [[-> D]|(n & e & -> & D)]; [|injection Hr as <- <-; left; by rewrite D].
  destruct (releases (disk s) !! from) as [[]|], (releases (disk s) !! to) as [[]|]; injection Hr as <- <-; simpl in D;
    first [left; by rewrite D | right; eexists; by rewrite D].
Qed.

Lemma Symlink_ok t name s a s' : os_Symlink t name s = (Ok a, s') -> releases (disk s') !! name = Some (Link t).
Proof.
  intros Hr. apply sys_ok in Hr. apply syscall_disk in Hr as [[E1 D]|(n & e & ? & _)]; [|done].
  destruct (releases (disk s) !! name); simpl in *; [done|]. rewrite D. simpl. by rewrite lookup_insert_eq.
Qed.

(** [moves v m]: the link is moved to [v] by a success and left alone by a
    failure. *)
Definition moves {A} (v : string) (m : wd A) : Prop :=
  forall s r s', m s = (r, s') ->
    if is_ok r then links_to (disk s') v else releases (disk s') !! "current" = releases (disk s) !! "current".

Lemma moves_bind {A B} v (m : wd A) (k : A -> wd B) :
  keeps (fun q => q = "current") m -> (forall a, moves v (k a)) -> moves v (tx_bind m k).
Proof.
  intros Hm Hk s r s' Hr. unfold tx_bind in Hr. destruct (m s) as [[a|e] s1] eqn:E1.
  - specialize (Hk a s1 r s' Hr). destruct (is_ok r); [done|]. rewrite Hk. by eapply Hm.
  - injection Hr as <- <-. simpl. by eapply Hm.
Qed.

Lemma switch_moves v : moves v (switchCurrent v).
Proof.
  unfold switchCurrent, clear_next. do 4 (apply moves_bind; [keep_all|intros ?]).
  intros s r s' Hr. unfold tx_bind in Hr. destruct (os_Symlink v ".current-next" s) as [[[]|e] s1] eqn:E1.
  - assert (releases (disk s1) !! "current" = releases (disk s) !! "current") as Hc
      by (eapply (keeps_Symlink (fun q => q = "current")); [|exact E1|]; done).
    apply Symlink_ok in E1. unfold on_failure, defer_on_error in Hr.
    destruct (rename_entry _ _ s1) as [r2 s2] eqn:E2. apply rename_entry_spec in E2 as [[Hf E2]|(e & -> & Ef & E2)].
    + destruct r2 as [|e]; [done|]. destruct (was_killed e); injection Hr as <- <-; simpl; [by rewrite E2|].
      destruct (ignoring _ s2) as [r3 s3] eqn:E3. simpl. rewrite <- Hc, <- E2.
      eapply (keeps_ignoring (fun q => q = "current")); [|exact E3|done]. by apply keeps_remove_entry.
    + injection Hr as <- <-. simpl. unfold links_to. rewrite E2, lookup_insert_eq. congruence.
  - injection Hr as <- <-. simpl. eapply (keeps_Symlink (fun q => q = "current")); [|exact E1|]; done.
Qed.

(** A success leaves no temporary link. *)
Lemma switch_clears v s s' : switchCurrent v s = (Ok tt, s') -> releases (disk s') !! ".current-next" = None.
Proof.
  intros Hr. unfold switchCurrent in Hr. do 5 (tx_step Hr; clear Hm). unfold on_failure, defer_on_error in Hr.
  destruct (rename_entry _ _ _) as [r5 s5] eqn:E. apply rename_entry_spec in E as [[Hf E]|(e & -> & _ & E)].
  - destruct r5 as [|e]; [done|]. by destruct (was_killed e).
  - injection Hr as <-. by rewrite E, lookup_insert_ne, lookup_delete_eq.
Qed.

(** ** Unpacking *)

Definition to_member (e : tarEntry) : member :=
  let name := Clean (h_Name e) in mkMember name (bundleFileMode name) (take (Z.to_nat (h_Size e)) (h_Data e)).

Definition total_size (ms : list member) : Z := fold_right (fun m n => blen (m_data m) + n) 0 ms.

(** What an accepted bundle unpacks to. *)
Record unpacked (component directory : string) (entries : list tarEntry) (ms : list member) : Prop := {
  un_members : ms = map to_member entries;
  un_allowed : Forall (fun m => allowedBundleFile component (m_path m) = true) ms;
  un_within : Forall (fun m => pathWithin directory (JoinPath directory (m_path m)) = true) ms;
  un_complete : Forall (fun e => blen (take (Z.to_nat (h_Size e)) (h_Data e)) = h_Size e) entries;
  un_distinct : NoDup (map m_path ms) }.

Section Unpacking.
Context `{WardenLib}.

Lemma safeArchiveName_ok name clean : safeArchiveName name = Ok clean -> clean = Clean name.
Proof. unfold safeArchiveName. cbv zeta. repeat case_match; congruence. Qed.

Definition holds_members (staging : string) (ms : list member) (t : Z) (s : os Machine) : Prop :=
  releases (disk s) !! staging = Some (Release ms t).

Lemma opaque_sys step (s : os Machine) r s' : sys step opaque_call s = (r, s') -> disk s' = disk s.
Proof.
  unfold sys, wrap. destruct (opaque_call s) as [[] s1] eqn:E; intros [= <- <-]; by eapply opaque_disk.
Qed.

Lemma on_members_holds staging f ms t (m : Machine) :
  releases m !! staging = Some (Release ms t) -> releases (on_members staging f m) !! staging = Some (Release (f ms) t).
Proof. intros E. simpl. by rewrite E, lookup_insert_eq. Qed.

Lemma fill_member_last ms name mode d d' :
  fill_member d' (ms ++ [mkMember name mode d]) = ms ++ [mkMember name mode (d ++ d')].
Proof. unfold fill_member. rewrite rev_app_distr. simpl. by rewrite rev_involutive. Qed.

Lemma extractEntry_ok directory staging component seen total e s r s' ms t :
  extractEntry directory staging component seen total e s = (Ok r, s') -> holds_members staging ms t s ->
  let m := to_member e in
  holds_members staging (ms ++ [m]) t s' /\ r = (seen ++ [m_path m], total + h_Size e) /\
  allowedBundleFile component (m_path m) = true /\ pathWithin directory (JoinPath directory (m_path m)) = true /\
  blen (m_data m) = h_Size e /\ ~ In (m_path m) seen /\ 0 <= h_Size e <= maxExtractedBytes - total.
Proof.
  intros Hr Hs. unfold extractEntry in Hr. tx_step Hr. unfold lift_result, tx_lift in Hm. injection Hm as Hn <-.
  apply safeArchiveName_ok in Hn as ->. set (name := Clean (h_Name e)) in *.
  tx_step Hr. apply guard_fact in Hm as [_ ->]. tx_step Hr. apply guard_fact in Hm as [G2 ->].
  tx_step Hr. apply guard_fact in Hm as [G3 ->]. tx_step Hr. apply guard_fact in Hm as [G4 ->].
  tx_step Hr. apply guard_fact in Hm as [G5 ->]. tx_step Hr. apply opaque_sys in Hm as D1. tx_step Hr. apply opaque_sys in Hm0 as D2.
  tx_step Hr. apply sys_ok in Hm1. apply syscall_disk in Hm1 as [[_ D3]|(k & x & ? & _)]; [|done]. cbn [fst snd] in D3.
  tx_step Hr. apply opaque_sys in Hm1 as D4. tx_step Hr. apply sys_ok in Hm2. apply syscall_disk in Hm2 as [[Ec D5]|(k & x & ? & _)]; [|done].
  cbn [fst snd] in Ec, D5. destruct (blen (h_Data e) <? h_Size e) eqn:Hc; [done|]. apply Z.ltb_ge in Hc.
  tx_step Hr. apply opaque_sys in Hm2 as D6. tx_prims. cbv zeta. unfold to_member. fold name. cbn [m_path m_data].
  apply negb_true_iff in G3, G4. apply orb_false_iff in G4 as [G4a%Z.ltb_ge G4b].
  assert (blen (take (Z.to_nat (h_Size e)) (h_Data e)) = h_Size e) as Hl by (unfold blen in *; rewrite length_take; lia).
  split; [|split; [done|split; [done|split; [done|split; [done|split; [|lia]]]]]].
  - unfold holds_members in *. rewrite D6, D5.
    rewrite <- (fill_member_last ms name (bundleFileMode name) [] (take (Z.to_nat (h_Size e)) (h_Data e)) : _ = ms ++ [mkMember _ _ (take _ _)]).
    apply on_members_holds. rewrite D4, D3. apply (on_members_holds _ (fun l => l ++ [mkMember name (bundleFileMode name) []])).
    by rewrite D2, D1.
  - intros Hin. apply oneOfString_In in Hin. congruence.
Qed.

Lemma extractEntries_ok directory staging component entries seen total s seen' s' ms t :
  extractEntries directory staging component seen total entries s = (Ok seen', s') -> holds_members staging ms t s ->
  NoDup seen ->
  let ns := map to_member entries in
  holds_members staging (ms ++ ns) t s' /\ seen' = seen ++ map m_path ns /\ NoDup seen' /\
  Forall (fun m => allowedBundleFile component (m_path m) = true /\ pathWithin directory (JoinPath directory (m_path m)) = true) ns /\
  Forall (fun e => blen (take (Z.to_nat (h_Size e)) (h_Data e)) = h_Size e) entries /\
  (total <= maxExtractedBytes -> total + total_size ns <= maxExtractedBytes).
Proof.
  revert seen total s ms. induction entries as [|e entries IH]; intros seen total s ms Hr Hs Hnd; cbn [extractEntries] in Hr.
  - tx_prims. simpl. rewrite !app_nil_r. repeat split; try done; constructor || lia.
  - tx_step Hr. eapply extractEntry_ok in Hm as (E1 & -> & E3 & E4 & E5 & E6 & E7); [|exact Hs]. cbn [fst snd] in Hr.
    assert (NoDup (seen ++ [m_path (to_member e)])) as Hnd'.
    { apply NoDup_app. split; [done|]. split; [|apply NoDup_singleton]. intros x Hx ->%list_elem_of_singleton. by apply E6, list_elem_of_In. }
    destruct (IH _ _ _ _ Hr E1 Hnd') as (F1 & -> & F3 & F4 & F5 & F6). cbv zeta. cbn [map]. rewrite <- !app_assoc in *.
    repeat split; try done; [by constructor|constructor; [exact E5|done]|].
    intros Ht. cbn [total_size fold_right]. rewrite E5. specialize (F6 ltac:(lia)). unfold total_size in F6. lia.
Qed.

Lemma extractBundle_ok bundle directory staging component s a s' t :
  extractBundle bundle directory staging component s = (Ok a, s') -> holds_members staging [] t s ->
  exists entries ms, untar bundle = Some (entries, true) /\ unpacked component directory entries ms /\
    holds_members staging ms t s' /\ total_size ms <= maxExtractedBytes /\
    Forall (fun f => In f (map m_path ms)) (requiredBundleFiles component).
Proof.
  intros Hr Hs. unfold extractBundle in Hr. destruct (untar bundle) as [[entries ends]|] eqn:U; [|done].
  tx_step Hr. eapply extractEntries_ok in Hm as (F1 & -> & F3 & F4 & F5 & F6); [|exact Hs|constructor].
  tx_step Hr. apply guard_fact in Hm as [-> ->]. apply guard_fact in Hr as [G ->].
  exists entries, (map to_member entries). split; [done|]. split; [|split; [done|split; [apply F6; by vm_compute|]]].
  - split; [done| | |done|done]; eapply Forall_impl; try exact F4; by intros ? [].
  - apply Forall_forall. intros f Hf. rewrite forallb_forall in G. apply list_elem_of_In, G in Hf. by apply oneOfString_In.
Qed.

End Unpacking.

(** ** Staging *)

Definition visible (q : string) : Prop := HasPrefix q ".staging-" = false.

Lemma valid_visible v : validVersion v = true -> visible v.
Proof.
  unfold validVersion, visible, HasPrefix. destruct v as [|c v]; [done|]. intros Hc.
  change (bytes (String c v)) with (c :: bytes v) in Hc. apply andb_prop in Hc as [Hc _]. cbn [String.prefix].
  destruct (ascii_dec _ c) as [<-|Hne]; [by vm_compute in Hc|done].
Qed.

Lemma valid_not_next v : validVersion v = true -> v <> ".current-next".
Proof. by intros Hv ->. Qed.

Lemma staging_hidden version sfx : ~ visible ((".staging-" ++ version ++ "-") ++ sfx)%string.
Proof.
  unfold visible, HasPrefix. replace ((".staging-" ++ version ++ "-") ++ sfx)%string with (".staging-" ++ (version ++ "-" ++ sfx))%string.
  - by rewrite prefix_append.
  - rewrite <- (of_bytes_bytes ((_ ++ _) ++ sfx)%string), !bytes_app, <- !app_assoc, <- !bytes_app. symmetry. apply of_bytes_bytes.
Qed.

Section Staging.
Context `{WardenLib}.

Lemma extract_keeps K bundle directory staging component : ~ K staging -> keeps K (extractBundle bundle directory staging component).
Proof.
  intros Hs. assert (forall seen total e, keeps K (extractEntry directory staging component seen total e)) as He.
  { intros seen total e. unfold extractEntry.
    assert (forall name mode, keeps K (create_member staging name mode)).
    { intros name mode. apply keeps_wrap, keeps_syscall; [|done]. intros m q Hq. by apply (keeps_members K). }
    assert (keeps K (CopyN staging (h_Data e) (h_Size e))).
    { apply keeps_wrap, keeps_syscall; [intros m q Hq; simpl snd|intros n m q Hq]; by apply (keeps_members K). }
    keep_all. }
  unfold extractBundle. destruct (untar bundle) as [[l ends]|]; [|keep_all]. apply keeps_bind; [|intros ?; keep_all].
  generalize (@nil string), 0. induction l as [|e l IH]; intros seen total; cbn [extractEntries]; [keep_all|].
  apply keeps_bind; [apply He|]. intros a. apply IH.
Qed.

Lemma MkdirTemp_ok prefix now sfxs s name s' :
  MkdirTemp prefix now sfxs s = (Ok name, s') ->
  exists sfx, name = (prefix ++ sfx)%string /\ releases (disk s) !! name = None /\
              releases (disk s') = <[name := Release [] now]> (releases (disk s)).
Proof.
  intros Hr. apply sys_ok in Hr. apply syscall_disk in Hr as [[E1 D]|(n & e & ? & _)]; [|done].
  destruct (List.find _ sfxs) as [sfx|] eqn:F; cbn [fst snd] in E1, D; [|done]. injection E1 as ->.
  apply find_some in F as [_ F%bool_decide_eq_true]. exists sfx. by rewrite D.
Qed.

Lemma MkdirTemp_keeps version now sfxs : keeps visible (MkdirTemp (".staging-" ++ version ++ "-") now sfxs).
Proof.
  apply keeps_wrap, keeps_syscall; [|done]. intros m q Hq. destruct (List.find _ sfxs) as [sfx|]; [|done].
  cbn [snd with_releases releases]. rewrite lookup_insert_ne; [done|]. intros <-. by apply staging_hidden in Hq.
Qed.

Lemma extract_rename_keeps config bundle staging version :
  ~ visible staging ->
  keeps (fun q => visible q /\ q <> version)
    (on_failure (extractBundle bundle (JoinPath (ReleaseDir config) staging) staging (Component config) ;;; rename_entry staging version)
                (ignoring (RemoveAll staging))).
Proof.
  intros Hs. assert (~ (visible staging /\ staging <> version)) by (by intros []).
  assert (~ (visible version /\ version <> version)) by (by intros []).
  pose proof (extract_keeps (fun q => visible q /\ q <> version) bundle (JoinPath (ReleaseDir config) staging) staging (Component config)).
  apply keeps_on_failure; [apply keeps_bind; [auto|intros ?; by apply keeps_rename]|]. by apply keeps_ignoring, keeps_RemoveAll.
Qed.

Lemma stage_keeps config now sfxs version bundle :
  keeps (fun q => visible q /\ q <> version) (stageBundle config now sfxs version bundle).
Proof.
  intros s r s' q Hr [Hv Hq]. unfold stageBundle in Hr. rewrite guard_bind in Hr. case_match; [|by injection Hr as _ <-].
  unfold tx_bind at 1 in Hr. destruct (sys _ opaque_call s) as [[]s2] eqn:E2; apply opaque_sys in E2; [|injection Hr as _ <-; by rewrite E2].
  unfold tx_bind at 1 in Hr. destruct (os_Lstat version s2) as [[ex|]s3] eqn:E3.
  all: assert (releases (disk s3) !! q = releases (disk s) !! q) as Q3
    by (rewrite <- E2; eapply (keeps_wrap (fun _ => True)); [apply keeps_query|exact E3|done]).
  2: { by injection Hr as _ <-. }
  rewrite guard_bind in Hr. destruct ex; simpl in Hr; [by injection Hr as _ <-|].
  unfold tx_bind at 1 in Hr. destruct (MkdirTemp _ now sfxs s3) as [[staging|]s4] eqn:E4.
  all: pose proof (MkdirTemp_keeps version now sfxs _ _ _ q E4 Hv) as Q4.
  2: { injection Hr as _ <-. congruence. }
  apply MkdirTemp_ok in E4 as (sfx & -> & _ & _). unfold tx_bind at 1 in Hr.
  destruct (on_failure _ _ s4) as [r5 s5] eqn:E5.
  pose proof (extract_rename_keeps config bundle _ version (staging_hidden version sfx) _ _ _ q E5 (conj Hv Hq)) as Q5.
  destruct r5; injection Hr as _ <-; congruence.
Qed.

(** Staging adds the complete release, or nothing visible. *)
Lemma stage_spec config now sfxs version bundle s r s' :
  stageBundle config now sfxs version bundle s = (r, s') -> visible version ->
  (is_ok r = false /\ releases (disk s') !! version = releases (disk s) !! version) \/
  (r = Ok version /\ releases (disk s) !! version = None /\
   exists entries ms directory, untar bundle = Some (entries, true) /\ unpacked (Component config) directory entries ms /\
     total_size ms <= maxExtractedBytes /\ Forall (fun f => In f (map m_path ms)) (requiredBundleFiles (Component config)) /\
     releases (disk s') !! version = Some (Release ms now)).
Proof.
  intros Hr Hvis. unfold stageBundle in Hr. rewrite guard_bind in Hr. case_match; [|injection Hr as <- <-; by left].
  unfold tx_bind at 1 in Hr. destruct (sys _ opaque_call s) as [[]s2] eqn:E2; apply opaque_sys in E2; [|injection Hr as <- <-; left; by rewrite E2].
  unfold tx_bind at 1 in Hr. destruct (os_Lstat version s2) as [[ex|]s3] eqn:E3.
  all: assert (releases (disk s3) !! version = releases (disk s) !! version) as Q3
    by (rewrite <- E2; eapply (keeps_wrap (fun _ => True)); [apply keeps_query|exact E3|done]).
  2: { injection Hr as <- <-. by left. }
  apply sys_ok, query_ok in E3. rewrite guard_bind in Hr. destruct ex; simpl in Hr; [injection Hr as <- <-; by left|].
  assert (releases (disk s) !! version = None) as Hnone by (rewrite E2 in E3; by destruct (releases (disk s) !! version)).
  unfold tx_bind at 1 in Hr. destruct (MkdirTemp _ now sfxs s3) as [[staging|]s4] eqn:E4.
  all: pose proof (MkdirTemp_keeps version now sfxs _ _ _ version E4 Hvis) as Q4.
  2: { injection Hr as <- <-. left. split; [done|congruence]. }
  apply MkdirTemp_ok in E4 as (sfx & -> & _ & D4). set (staging := ((_ ++ version ++ "-") ++ sfx)%string) in *.
  pose proof (staging_hidden version sfx) as Hhid. fold staging in Hhid.
  assert (holds_members staging [] now s4) as H4 by (unfold holds_members; by rewrite D4, lookup_insert_eq).
  unfold tx_bind at 1, on_failure, defer_on_error in Hr. unfold tx_bind at 1 in Hr.
  destruct (extractBundle _ _ staging _ s4) as [[a5|e]s5] eqn:E5.
  all: pose proof (extract_keeps visible _ _ _ _ Hhid _ _ _ version E5 Hvis) as Q5.
  - destruct (rename_entry staging version s5) as [r6 s6] eqn:E6.
    apply rename_entry_spec in E6 as [[Hf E6]|(e6 & -> & Ef & E6)].
    + left. destruct r6 as [|e6]; [done|]. destruct (was_killed e6).
      * injection Hr as <- <-. split; [done|]. rewrite E6. congruence.
      * destruct (ignoring _ s6) as [r7 s7] eqn:E7. injection Hr as <- <-. split; [done|].
        rewrite (keeps_ignoring visible _ (keeps_RemoveAll visible staging Hhid) _ _ _ version E7 Hvis), E6. congruence.
    + injection Hr as <- <-. right. split; [done|]. split; [done|].
      eapply extractBundle_ok in E5 as (entries & ms & U & Hun & Hh & Ht & Hreq); [|exact H4].
      exists entries, ms, (JoinPath (ReleaseDir config) staging). unfold holds_members in Hh. rewrite Hh in Ef. injection Ef as <-.
      by rewrite E6, lookup_insert_eq.
  - left. destruct (was_killed e); [injection Hr as <- <-; split; [done|congruence]|].
    destruct (ignoring _ s5) as [r7 s7] eqn:E7. injection Hr as <- <-. split; [done|].
    rewrite (keeps_ignoring visible _ (keeps_RemoveAll visible staging Hhid) _ _ _ version E7 Hvis). congruence.
Qed.

End Staging.
