(* ===== verification/WardenTheorems.v ===== *)
(** * The release updater: properties

    [Update] always leaves a usable release behind the [current] link, it only
    ever switches to a release that was checked and unpacked completely, a
    rollback restores what ran before, and retention keeps what it should. *)

From Stdlib Require Import ZArith Lia Bool Ascii String.
From stdpp Require Import base tactics list strings gmap.
From S2P Require Import Prelude GoStrings GoText CoreTopology GoFiles Warden WardenFacts.

Local Open Scope string_scope.
Local Open Scope list_scope.
Local Open Scope bool_scope.
Local Open Scope Z_scope.
Local Open Scope tx_scope.

(** ** Fates are spent in order *)

Definition frugal {E A} (m : tx (os Machine) E A) : Prop :=
  forall s r s', m s = (r, s') -> fates s' `suffix_of` fates s.

Lemma frugal_pure {E A} (r : result E A) : frugal (tx_lift r).
Proof. by intros s r' s' [= _ <-]. Qed.

Lemma frugal_guard {E} b (e : E) : frugal (tx_guard b e).
Proof. destruct b; intros s r' s' [= _ <-]; done. Qed.

Lemma frugal_bind {E A B} (m : tx (os Machine) E A) (k : A -> tx (os Machine) E B) :
  frugal m -> (forall a, frugal (k a)) -> frugal (tx_bind m k).
Proof.
  intros Hm Hk s r s' Hr. unfold tx_bind in Hr. destruct (m s) as [[a|e] s1] eqn:E1; apply Hm in E1.
  - apply Hk in Hr. by etrans.
  - by injection Hr as _ <-.
Qed.

Lemma frugal_syscall {A} (act : Machine -> result oserr A * Machine) partial : frugal (syscall act partial).
Proof.
  intros s r s' Hr. unfold syscall in Hr. destruct (fates s) as [|[] rest] eqn:F.
  - destruct (act (disk s)). by injection Hr as _ <-.
  - destruct (act (disk s)). injection Hr as _ <-. simpl. by apply suffix_cons_r.
  - injection Hr as _ <-. simpl. by apply suffix_cons_r.
  - injection Hr as _ <-. simpl. by apply suffix_cons_r.
Qed.

Lemma frugal_map {E F A B} (m : tx (os Machine) E A) (n : tx (os Machine) F B) :
  frugal m -> (forall s, snd (n s) = snd (m s)) -> frugal n.
Proof. intros Hm Hn s r s' Hr. specialize (Hn s). rewrite Hr in Hn. simpl in Hn. subst. destruct (m s) eqn:E1. by eapply Hm. Qed.

Lemma frugal_wrap {E A} (f : oserr -> E) (m : tx (os Machine) oserr A) : frugal m -> frugal (wrap f m).
Proof. intros Hm. eapply frugal_map; [exact Hm|]. intros s. apply wrap_state. Qed.

Lemma frugal_attempt {A} (m : wd A) : frugal m -> frugal (attempt m).
Proof. intros Hm. eapply frugal_map; [exact Hm|]. intros s. unfold attempt. destruct (m s) as [[]]; [done|]. by case_match. Qed.

Lemma frugal_during {A} step (m : wd A) : frugal m -> frugal (during step m).
Proof. intros Hm. eapply frugal_map; [exact Hm|]. intros s. unfold during. by destruct (m s) as [[]]. Qed.

Lemma frugal_plainly {A} (m : wd A) : frugal m -> frugal (plainly m).
Proof. intros Hm. eapply frugal_map; [exact Hm|]. intros s. unfold plainly. by destruct (m s) as [[]]. Qed.

Lemma frugal_on_failure {A} (m : wd A) cleanup : frugal m -> frugal cleanup -> frugal (on_failure m cleanup).
Proof.
  intros Hm Hc s r s' Hr. unfold on_failure, defer_on_error in Hr. destruct (m s) as [[a|e] s1] eqn:E1; apply Hm in E1.
  - by injection Hr as _ <-.
  - destruct (was_killed e); injection Hr as _ <-; [done|]. destruct (cleanup s1) as [rc sc] eqn:E2. apply Hc in E2. simpl. by etrans.
Qed.

Lemma frugal_await `{WardenLib} config : frugal (await_health config).
Proof.
  intros s r s' Hr. unfold await_health in Hr. destruct (sys "probe" opaque_call s) as [[] s1] eqn:E1;
    apply (frugal_wrap _ _ (frugal_syscall _ _)) in E1; by injection Hr as _ <-.
Qed.

Ltac spend_all :=
  repeat first
    [ assumption | done | apply frugal_await | apply frugal_pure | apply frugal_guard | apply frugal_syscall
    | apply frugal_attempt | apply frugal_during | apply frugal_plainly | apply frugal_wrap | apply frugal_on_failure
    | (apply frugal_bind; [|intros ?])
    | progress unfold sys, opaque_call, query, atomically, lift_result, os_Stat, os_Readlink, os_Lstat, marker_at, remove_entry, RemoveAll,
        os_Symlink, rename_entry, clear_next, switchCurrent, currentVersion, Stop, Start, service_call, ignoring, noting,
        MkdirTemp, create_member, CopyN, consumeRequestMarker, remove_marker, markerExists
    | match goal with |- frugal (tx_ret _) => apply (frugal_pure (Ok _)) end
    | match goal with |- frugal (tx_fail _) => apply (frugal_pure (Err _)) end
    | case_match ].

Lemma frugal_switch v : frugal (switchCurrent v).
Proof. spend_all. Qed.

Lemma frugal_restore `{WardenLib} config v : frugal (restore config v).
Proof. unfold restore. spend_all. Qed.

Lemma frugal_consume f : frugal (consumeRequestMarker f).
Proof. spend_all. Qed.

Lemma frugal_marker f : frugal (markerExists f).
Proof. spend_all. Qed.

Lemma frugal_current : frugal currentVersion.
Proof. spend_all. Qed.

Section Obtaining.
Context `{WardenLib} (web : string -> option answer).

Lemma frugal_extract bundle directory staging component : frugal (extractBundle bundle directory staging component).
Proof.
  unfold extractBundle. destruct (untar bundle) as [[l ends]|]; [|spend_all]. apply frugal_bind; [|intros ?; spend_all].
  generalize (@nil string), 0. induction l as [|e l IH]; intros seen total; cbn [extractEntries]; [spend_all|].
  apply frugal_bind; [unfold extractEntry; spend_all|]. intros a. apply IH.
Qed.

Lemma frugal_stage config now sfxs version bundle : frugal (stageBundle config now sfxs version bundle).
Proof. unfold stageBundle. pose proof (frugal_extract bundle). spend_all; auto. Qed.

Lemma frugal_obtain config inp release : frugal (obtain web config inp release).
Proof. unfold obtain. pose proof (frugal_stage config (now inp) (suffixes inp) (TagName release)). spend_all; auto. Qed.

Lemma frugal_switch_over config tag candidate : frugal (switch_over config tag candidate).
Proof. unfold switch_over. spend_all. Qed.

(** ** What a release must pass *)

(** The members of a release come from a bundle that the release publishes under
    the name for this component and platform, whose SHA-256 is the one that the
    release's checksums give for that name, and which unpacks completely, inside
    its directory, to permitted files only. *)
Definition vetted (config : Config) (release : releasePayload) (ms : list member) : Prop :=
  exists checksumAsset bundleAsset checksums bundle entries directory,
    findAsset (Assets release) "checksums.txt" = Some checksumAsset /\
    findAsset (Assets release) (bundleName config (TagName release)) = Some bundleAsset /\
    download web (BrowserDownloadURL checksumAsset) maxChecksumBytes = Ok checksums /\
    download web (BrowserDownloadURL bundleAsset) maxBundleBytes = Ok bundle /\
    verifyChecksum checksums (bundleName config (TagName release)) bundle = Ok tt /\
    untar bundle = Some (entries, true) /\ unpacked (Component config) directory entries ms /\
    total_size ms <= maxExtractedBytes /\ Forall (fun f => In f (map m_path ms)) (requiredBundleFiles (Component config)).

Lemma during_ok {A} step (m : wd A) s a s' : during step m s = (Ok a, s') -> m s = (Ok a, s').
Proof. unfold during. destruct (m s) as [[]]; congruence. Qed.

Lemma during_state {A} step (m : wd A) s r s' : during step m s = (r, s') -> exists r', m s = (r', s') /\ is_ok r' = is_ok r /\ forall a, r' = Ok a -> r = Ok a.
Proof. unfold during. destruct (m s) as [[] s1]; intros [= <- <-]; by eexists. Qed.

Lemma obtain_keeps config inp release :
  keeps (fun q => visible q /\ q <> TagName release) (obtain web config inp release).
Proof.
  unfold obtain. do 5 (apply keeps_bind; [keep_all|intros ?]). apply keeps_during, stage_keeps.
Qed.

Lemma lift_facts {A} (r : result werr A) s a s' : lift_result r s = (Ok a, s') -> r = Ok a /\ s' = s.
Proof. unfold lift_result, tx_lift. by intros [= -> ->]. Qed.

(** Obtaining a release adds it complete, or adds nothing. *)
Lemma obtain_spec config inp release s r s' :
  obtain web config inp release s = (r, s') -> visible (TagName release) ->
  (is_ok r = false /\ releases (disk s') !! TagName release = releases (disk s) !! TagName release) \/
  (r = Ok (TagName release) /\ releases (disk s) !! TagName release = None /\
   exists ms, vetted config release ms /\ releases (disk s') !! TagName release = Some (Release ms (now inp))).
Proof.
  intros Hr Hvis. unfold obtain in Hr.
  unfold tx_bind at 1 in Hr. destruct (findAsset _ "checksums.txt") as [ca|] eqn:F1; cbn [lift_result tx_lift] in Hr; [|injection Hr as <- <-; by left].
  unfold tx_bind at 1 in Hr. destruct (findAsset _ (bundleName _ _)) as [ba|] eqn:F2; cbn [lift_result tx_lift] in Hr; [|injection Hr as <- <-; by left].
  unfold tx_bind at 1 in Hr. destruct (download web (BrowserDownloadURL ca) _) as [cs|] eqn:D1; cbn [during lift_result tx_lift] in Hr; [|injection Hr as <- <-; by left].
  unfold tx_bind at 1 in Hr. destruct (download web (BrowserDownloadURL ba) _) as [bundle|] eqn:D2; cbn [during lift_result tx_lift] in Hr; [|injection Hr as <- <-; by left].
  unfold tx_bind at 1 in Hr. destruct (verifyChecksum cs _ bundle) as [[]|] eqn:V; cbn [during lift_result tx_lift] in Hr; [|injection Hr as <- <-; by left].
  apply during_state in Hr as (r' & Hr & Hok & Hsame). apply stage_spec in Hr as [[Hf E]|(-> & E1 & entries & ms & dir & U & Un & Ht & Hreq & E2)]; [..|done].
  - left. split; [congruence|done].
  - right. split; [by apply Hsame|]. split; [done|]. exists ms. split; [|done]. by exists ca, ba, cs, bundle, entries, dir.
Qed.

(** ** Switching over and back *)

Lemma attempt_state {A} (m : wd A) s r s' :
  attempt m s = (r, s') ->
  exists r', m s = (r', s') /\
    match r with Ok (Ok a) => r' = Ok a | Ok (Err e) => r' = Err e /\ was_killed e = false | Err e => r' = Err e /\ was_killed e = true end.
Proof. unfold attempt. destruct (m s) as [[a|e] s1]; [|destruct (was_killed e) eqn:K]; intros [= <- <-]; by eexists. Qed.

(** The candidate behind the link, untouched. *)
Definition switched (tag : string) (s s' : os Machine) : Prop :=
  links_to (disk s') tag /\ releases (disk s') !! tag = releases (disk s) !! tag.

Definition unswitched (s s' : os Machine) : Prop := releases (disk s') !! "current" = releases (disk s) !! "current".

Lemma switch_over_keeps config tag :
  keeps (fun q => link_names q /\ q <> tag) (switch_over config tag tag).
Proof.
  assert (keeps (fun q => link_names q /\ q <> tag) (switchCurrent tag)).
  { intros s r s' q Hr [Hq _]. by eapply switch_keeps. }
  assert (~ (link_names tag /\ tag <> tag)) by (by intros []).
  unfold switch_over. keep_all.
Qed.

Lemma switch_over_spec config tag s r s' :
  switch_over config tag tag s = (r, s') -> link_names tag ->
  if is_ok r then switched tag s s' /\ releases (disk s') !! ".current-next" = None
  else unswitched s s' \/ switched tag s s'.
Proof.
  intros Hr Ht. unfold switch_over in Hr. unfold tx_bind at 1 in Hr.
  assert (keeps (fun q => q = "current") (during "stop current service before update" (on_failure Stop (ignoring (RemoveAll tag))))) as K0.
  { assert (~ (tag = "current")) by apply Ht. keep_all. }
  destruct (during _ _ s) as [[[]|e] s1] eqn:E1.
  2: { injection Hr as <- <-. left. by eapply K0. }
  pose proof (K0 _ _ _ "current" E1 eq_refl) as C1.
  apply during_ok in E1. unfold on_failure, defer_on_error in E1. destruct (Stop s) as [[]s1'] eqn:ES; [|by case_match].
  injection E1 as -> ->. pose proof (fun q => keeps_Stop (fun _ => True) _ _ _ q ES I) as S1.
  unfold tx_bind at 1 in Hr. destruct (attempt (switchCurrent tag) s1) as [[[[]|e]|e] s2] eqn:E2;
    apply attempt_state in E2 as (r2 & E2 & Hr2).
  - subst r2. pose proof (switch_moves tag _ _ _ E2) as M2. simpl in M2. pose proof (switch_keeps tag _ _ _ tag E2 Ht) as K2.
    assert (keeps (fun _ => True) (started <- attempt Start ;;
      match started with
      | Err e => tx_ret (Some e)
      | Ok _ => healthy <- attempt (await_health config) ;; tx_ret (match healthy with Ok _ => None | Err e => Some e end)
      end)) as K3 by keep_all.
    assert (switched tag s s') as Hsw.
    { split; [unfold links_to|]; rewrite (K3 _ _ _ _ Hr I); [done|]. by rewrite K2, S1. }
    destruct (is_ok r); [split; [done|]|by right]. rewrite (K3 _ _ _ _ Hr I). by eapply switch_clears.
  - destruct Hr2 as [-> _]. pose proof (switch_moves tag _ _ _ E2) as M2. simpl in M2.
    assert (keeps (fun q => q = "current") (restarted <- attempt Start ;; ignoring (RemoveAll tag) ;;;
      tx_fail (A := option werr) (match restarted with Err f => Both (During "switch to release" e) f | Ok _ => During "switch to release" e end))) as K3.
    { assert (~ (tag = "current")) by apply Ht. keep_all. }
    assert (is_ok r = false) as -> by (unfold tx_bind in Hr; destruct (attempt Start s2) as [[] s3]; [destruct (ignoring _ s3) as [[]]|]; by injection Hr as <- _).
    left. unfold unswitched. rewrite (K3 _ _ _ _ Hr eq_refl). congruence.
  - destruct Hr2 as [-> _]. injection Hr as <- <-. left. pose proof (switch_moves tag _ _ _ E2) as M2. simpl in M2. unfold unswitched. congruence.
Qed.

End Obtaining.

(** ** Runs without I/O errors *)

(** The call completes, or the process is killed in it. *)
Definition no_failure (f : fate) : Prop := match f with Fails _ => False | _ => True end.

Lemma no_failure_suffix fs gs : fs `suffix_of` gs -> Forall no_failure gs -> Forall no_failure fs.
Proof. intros [k ->] [_ ?]%Forall_app. done. Qed.

Lemma sys_no_failure {A} step (act : Machine -> result oserr A * Machine) partial s r s' :
  Forall no_failure (fates s) -> sys step (syscall act partial) s = (r, s') ->
  Forall no_failure (fates s') /\
  ((disk s' = snd (act (disk s)) /\ match fst (act (disk s)) with Ok a => r = Ok a | Err e => r = Err (Os step e) end) \/
   r = Err (Os step Killed)).
Proof.
  intros Hf Hr. split.
  - apply (frugal_wrap _ _ (frugal_syscall act partial)) in Hr. by eapply no_failure_suffix.
  - unfold sys, wrap, syscall in Hr. destruct (fates s) as [|[|n|n] rest]; [..|apply Forall_cons in Hf as [[] _]|].
    + left. destruct (act (disk s)) as [[] d]; by injection Hr as <- <-.
    + left. destruct (act (disk s)) as [[] d]; by injection Hr as <- <-.
    + right. by injection Hr as <- _.
Qed.

Definition no_dir (m : Machine) (q : string) : Prop := forall ms t, releases m !! q <> Some (Release ms t).

Lemma no_dir_keep (m m' : Machine) q : releases m' !! q = releases m !! q -> no_dir m q -> no_dir m' q.
Proof. unfold no_dir. by intros ->. Qed.

(** Switching to an unpacked release then succeeds, or the process is killed. *)
Lemma switch_progress v s r s' ms t :
  Forall no_failure (fates s) -> validVersion v = true -> releases (disk s) !! v = Some (Release ms t) ->
  no_dir (disk s) "current" -> no_dir (disk s) ".current-next" ->
  switchCurrent v s = (r, s') -> r = Ok tt \/ exists e, r = Err e /\ was_killed e = true.
Proof.
  intros Hf Hv Hd Hc Hn Hr. unfold switchCurrent in Hr. rewrite Hv in Hr. cbn [tx_guard] in Hr. unfold tx_bind at 1, tx_ret at 1 in Hr.
  unfold tx_bind at 1 in Hr. destruct (os_Stat v s) as [r1 s1] eqn:E1. apply sys_no_failure in E1 as [F1 E1]; [|done].
  simpl in E1. rewrite Hd in E1. destruct E1 as [[D1 ->]| ->]; [|injection Hr as <- _; right; by eexists].
  cbn [tx_guard] in Hr. unfold tx_bind at 1, tx_ret at 1 in Hr. unfold tx_bind at 1 in Hr.
  destruct (clear_next s1) as [r2 s2] eqn:E2.
  assert ((r2 = Ok tt /\ releases (disk s2) !! ".current-next" = None /\ Forall no_failure (fates s2) /\
           releases (disk s2) !! "current" = releases (disk s) !! "current") \/ exists e, r2 = Err e /\ was_killed e = true) as [(-> & N2 & F2 & C2)|(e & -> & K)].
  { unfold clear_next, tx_bind, attempt in E2. destruct (remove_entry _ s1) as [r0 s0] eqn:E0. apply sys_no_failure in E0 as [F0 E0]; [|done].
    rewrite D1 in E0. destruct E0 as [[D0 E0]| ->]; [|injection E2 as <- <-; right; by eexists].
    destruct (releases (disk s) !! ".current-next") as [en|] eqn:En.
    - assert (removable en = true) as Hrem by (destruct en as [[|]| |]; [done|exfalso; by eapply Hn|done..]).
      rewrite Hrem in D0, E0. simpl in D0, E0. subst r0. injection E2 as <- <-. left. rewrite D0. simpl.
      by rewrite lookup_delete_eq, lookup_delete_ne.
    - simpl in D0, E0. subst r0. simpl in E2. injection E2 as <- <-. left. by rewrite D0. }
  2: { injection Hr as <- _. right. by exists e. }
  unfold tx_bind at 1 in Hr. destruct (os_Symlink v ".current-next" s2) as [r3 s3] eqn:E3. apply sys_no_failure in E3 as [F3 E3]; [|done].
  rewrite N2 in E3. simpl in E3. destruct E3 as [[D3 ->]| ->]; [|injection Hr as <- _; right; by eexists].
  unfold on_failure, defer_on_error in Hr. destruct (rename_entry _ _ s3) as [r4 s4] eqn:E4. apply sys_no_failure in E4 as [F4 E4]; [|done].
  rewrite D3 in E4. simpl in E4. rewrite lookup_insert_eq, lookup_insert_ne, C2 in E4 by done.
  destruct E4 as [[_ E4]| ->]; [|injection Hr as <- _; right; by eexists].
  destruct (releases (disk s) !! "current") as [[]|] eqn:Ec; [exfalso; by eapply Hc|..]; simpl in E4; subst r4; injection Hr as <- _; by left.
Qed.

(** ** Rollback *)

Definition link_failure : string := "restore current link".

Lemma noting_state what m s r s' :
  noting what m s = (r, s') ->
  exists r', m s = (r', s') /\
    match r with
    | Ok fs => fs = (if is_ok r' then [] else [what]) /\ forall e, r' = Err e -> was_killed e = false
    | Err e => r' = Err e /\ was_killed e = true
    end.
Proof.
  unfold noting, tx_bind. destruct (attempt m s) as [a s1] eqn:E. apply attempt_state in E as (r' & Hm & Ha).
  destruct a as [[a|e]|e]; intros [= <- <-]; exists r'; (split; [done|]); [by rewrite Ha|destruct Ha as [-> ?]; split; [done|by intros ? [= <-]]|done].
Qed.

Lemma rollback_keeps `{WardenLib} config previous tag : keeps (fun q => link_names q /\ q <> tag) (rollback config previous tag).
Proof.
  assert (keeps (fun q => link_names q /\ q <> tag) (switchCurrent previous)).
  { intros s r s' q Hr [Hq _]. by eapply switch_keeps. }
  assert (~ (link_names tag /\ tag <> tag)) by (by intros []).
  unfold rollback, restore. keep_all.
Qed.

(** The link after a rollback: the previous release; or still the untouched
    candidate (the process was killed); or its restoration failed, which an I/O
    error alone can cause and which is reported. *)
Lemma rollback_spec `{WardenLib} config previous tag s r s' ms t :
  rollback config previous tag s = (r, s') -> links_to (disk s) tag -> link_names tag -> validVersion previous = true ->
  previous <> tag -> releases (disk s) !! previous = Some (Release ms t) -> no_dir (disk s) ".current-next" ->
  links_to (disk s') previous \/ (switched tag s s' /\ is_ok r = false) \/
  (~ Forall no_failure (fates s) /\ forall fs, r = Ok fs -> In link_failure fs).
Proof.
  intros Hr Hl Ht Hv Hne Hp Hn. unfold rollback in Hr. unfold tx_bind at 1 in Hr.
  assert (~ tag = "current") as Htc by apply Ht.
  destruct (noting "stop candidate" Stop s) as [r1 s1] eqn:E1. pose proof E1 as E1'. apply noting_state in E1 as (r1' & E1 & H1).
  pose proof (fun q => keeps_Stop (fun _ => True) _ _ _ q E1 I) as S1. pose proof (frugal_wrap _ _ (frugal_syscall _ _) _ _ _ E1) as F1.
  destruct r1 as [stopped|e1]; [|injection Hr as <- <-; right; left; split; [split; [unfold links_to|]; by rewrite S1|done]].
  unfold tx_bind at 1, restore in Hr. unfold tx_bind at 1 in Hr.
  destruct (noting _ (switchCurrent previous) s1) as [r2 s2] eqn:E2. apply noting_state in E2 as (r2' & E2 & H2).
  pose proof (switch_moves previous _ _ _ E2) as M2. pose proof (switch_keeps previous _ _ _ tag E2 Ht) as K2. rewrite S1 in K2.
  destruct r2 as [restored|e2].
  2: { destruct H2 as [-> _]. injection Hr as <- <-. right. left. split; [split|done]; [unfold links_to; by rewrite M2, S1|done]. }
  destruct H2 as [-> Hk2]. destruct r2' as [[]|e2'].
  - left. unfold links_to in *. rewrite <- M2.
    assert (keeps (fun q => q = "current") (restored <- (started <- noting "start previous service" Start ;;
      match started with [] => noting "validate previous service" (await_health config) | _ => tx_ret started end) ;;
      removed <- noting "remove failed candidate" (RemoveAll tag) ;; tx_ret (stopped ++ restored ++ removed))) as K3 by keep_all.
    by eapply K3.
  - right. right. split.
    + intros Hall. apply (no_failure_suffix _ _ F1) in Hall.
      apply (switch_progress previous s1 _ s2 ms t Hall Hv) in E2 as [?|(e & [= <-] & Ke)]; [done| |by rewrite S1| |].
      * by rewrite (Hk2 _ eq_refl) in Ke.
      * intros ms' t'. rewrite S1. unfold links_to in Hl. by rewrite Hl.
      * eapply no_dir_keep; [apply S1|done].
    + intros fs ->. cbn [is_ok] in Hr. unfold tx_bind, tx_ret in Hr. destruct (noting _ (RemoveAll tag) s2) as [[rm|] s3]; [|done].
      injection Hr as <- _. apply in_app_iff. right. by left.
Qed.

(** ** Retention *)

Lemma keep_newest_incl keep names x : In x keep -> In x (keep_newest keep names).
Proof.
  revert keep. induction names as [|n names IH]; intros keep Hx; cbn [keep_newest]; [done|]. destruct (3 <=? _)%nat; [done|].
  apply IH. destruct (oneOfString n keep); [done|]. apply in_app_iff. by left.
Qed.

Lemma remove_releases_keeps names : keeps (fun q => ~ In q names) (remove_releases names).
Proof.
  induction names as [|n names IH]; cbn [remove_releases]; [keep_all|]. apply keeps_bind.
  - apply keeps_RemoveAll. intros Hn. apply Hn. by left.
  - intros _ s r s' q Hr Hq. eapply IH; [exact Hr|]. intros Hin. apply Hq. by right.
Qed.

Lemma newest_In tie rs name :
  In name (newest_first tie rs) <-> validVersion name = true /\ exists ms t, rs !! name = Some (Release ms t).
Proof.
  unfold newest_first. rewrite in_map_iff. split.
  - intros ([n t] & <- & Hin). apply order_by_In in Hin. unfold release_times in Hin. apply list_elem_of_In, list_elem_of_omap in Hin as ([k e] & Hk & He).
    apply elem_of_map_to_list in Hk. destruct e as [ms t'| |]; simpl in He; try done. case_match eqn:V; [|done]. injection He as <- <-.
    simpl. split; [done|]. by exists ms, t'.
  - intros (Hv & ms & t & E). exists (name, t). split; [done|]. apply order_by_In, list_elem_of_In, list_elem_of_omap.
    exists (name, Release ms t). split; [by apply elem_of_map_to_list|]. simpl. by rewrite Hv.
Qed.

Definition doomed (tie : string -> Z) (current : string) (rs : gmap string entry) : list string :=
  List.filter (fun name => negb (oneOfString name (keep_newest [current] (newest_first tie rs)))) (newest_first tie rs).

Lemma doomed_not_current tie current rs : ~ In current (doomed tie current rs).
Proof.
  intros [_ H]%filter_In. apply negb_true_iff in H. assert (oneOfString current (keep_newest [current] (newest_first tie rs)) = true) as E; [|congruence].
  apply oneOfString_In, keep_newest_incl. by left.
Qed.

Lemma prune_keeps tie current s r s' q :
  prune tie current s = (r, s') -> ~ In q (doomed tie current (releases (disk s))) ->
  releases (disk s') !! q = releases (disk s) !! q.
Proof.
  intros Hr Hq. unfold prune in Hr. unfold tx_bind at 1 in Hr. destruct (sys _ _ s) as [[rs|e] s1] eqn:E1.
  - pose proof (fun q => keeps_wrap (fun _ => True) _ _ (keeps_query _ _) _ _ _ q E1 I) as S1.
    apply sys_ok, query_ok in E1. injection E1 as <-. cbv zeta in Hr. fold (doomed tie current (releases (disk s))) in Hr.
    rewrite (remove_releases_keeps _ _ _ _ q Hr Hq). apply S1.
  - injection Hr as _ <-. by apply (keeps_wrap (fun _ => True) _ _ (keeps_query _ _) _ _ _ q E1 I).
Qed.

Lemma activated_spec inp tag s r s' ms t :
  activated inp tag s = (r, s') -> links_to (disk s) tag -> validVersion tag = true -> releases (disk s) !! tag = Some (Release ms t) ->
  links_to (disk s') tag /\ exists t', releases (disk s') !! tag = Some (Release ms t').
Proof.
  intros Hr Hl Hv Ht. unfold activated in Hr.
  assert (exists r', (touch tag (now inp) ;;; prune (tie inp) tag) s = (r', s')) as [r' Hr'].
  { destruct ((touch tag (now inp) ;;; prune (tie inp) tag) s) as [[] s1]; injection Hr as _ <-; by eexists. }
  clear Hr. unfold tx_bind in Hr'. destruct (touch tag (now inp) s) as [r1 s1] eqn:E1.
  assert (links_to (disk s1) tag /\ exists t', releases (disk s1) !! tag = Some (Release ms t')) as [L1 [t1 T1]].
  { assert (tag <> "current") as Hne by (intros ->; unfold links_to in Hl; congruence).
    unfold touch, sys, wrap in E1. destruct (atomically _ s) as [r0 s0] eqn:E0.
    assert (s1 = s0) as -> by (destruct r0; congruence).
    apply syscall_disk in E0 as [[_ D]|(n & e & _ & D)]; rewrite D; [|eauto].
    rewrite Ht. unfold links_to. simpl. rewrite lookup_insert_eq, lookup_insert_ne by done. eauto. }
  destruct r1 as [[]|e]; [|injection Hr' as _ <-; eauto].
  assert (~ In "current" (doomed (tie inp) tag (releases (disk s1)))) as N1.
  { intros [Hin _]%filter_In. apply newest_In in Hin as (_ & ms' & t' & E). unfold links_to in L1. congruence. }
  unfold links_to. rewrite (prune_keeps _ _ _ _ _ "current" Hr' N1), (prune_keeps _ _ _ _ _ tag Hr' (doomed_not_current _ _ _)). eauto.
Qed.

(** A rollback returns unless the process is killed. *)
Definition only_killed {A} (m : wd A) : Prop := forall s e s', m s = (Err e, s') -> was_killed e = true.

Lemma killed_noting what m : only_killed (noting what m).
Proof. intros s e s' Hr. apply noting_state in Hr as (r' & _ & _ & K). done. Qed.

Lemma killed_bind {A B} (m : wd A) (k : A -> wd B) : only_killed m -> (forall a, only_killed (k a)) -> only_killed (tx_bind m k).
Proof.
  intros Hm Hk s e s' Hr. unfold tx_bind in Hr. destruct (m s) as [[a|e1] s1] eqn:E1; [by eapply Hk|].
  injection Hr as <- <-. by eapply Hm.
Qed.

Lemma rollback_killed `{WardenLib} config previous tag : only_killed (rollback config previous tag).
Proof.
  unfold rollback, restore.
  repeat first [apply killed_noting | (apply killed_bind; [|intros ?]) | (by intros ? ? ? [=]) | case_match].
Qed.

(** ** The whole update *)

Section Updating.
Context `{WardenLib} (web : string -> option answer).

(** The error reports that a rollback could not restore the link. *)
Fixpoint reports_link (e : werr) : bool :=
  match e with
  | Unhealthy _ fs => oneOfString link_failure fs
  | During _ e => reports_link e
  | Both e f => reports_link e || reports_link f
  | _ => false
  end.

(** The installed release before the update. *)
Record installation (m : Machine) (previous : string) (ms : list member) (t : Z) : Prop := {
  in_link : links_to m previous;
  in_valid : validVersion previous = true;
  in_dir : releases m !! previous = Some (Release ms t);
  in_next : no_dir m ".current-next" }.

Lemma installation_keep m m' previous ms t :
  (forall q, visible q -> releases m' !! q = releases m !! q) -> installation m previous ms t -> installation m' previous ms t.
Proof.
  intros Hq []. split; [| |by rewrite Hq by (by apply valid_visible)|].
  - unfold links_to. by rewrite Hq.
  - done.
  - eapply no_dir_keep; [by apply Hq|done].
Qed.

(** The version that is asked for: by the caller, or else by the request marker;
    none means the latest. *)
Definition asked (config : Config) (requestedVersion : string) (m : Machine) : string :=
  if (requestedVersion =? "")%string then
    if (RequestFile config =? "")%string then ""
    else match markers m !! Clean (RequestFile config) with
         | Some (TextFile text) => requestedMarkerVersion text
         | _ => ""
         end
  else requestedVersion.

Lemma marker_at_ok f s n s' : marker_at f s = (Ok n, s') -> n = markers (disk s) !! Clean f.
Proof.
  unfold marker_at, sys, wrap, query, atomically, syscall. destruct (fates s) as [|[] ?]; try discriminate; by intros [= <- _].
Qed.

Lemma consume_ok config s v s' :
  consumeRequestMarker (RequestFile config) s = (Ok v, s') -> v = asked config "" (disk s).
Proof.
  unfold consumeRequestMarker, asked. cbn [String.eqb]. destruct (RequestFile config =? "")%string; [by intros [= <- _]|].
  intros Hr. tx_step Hr. apply marker_at_ok in Hm. subst r. destruct (markers _ !! _) as [[text| |]|]; [|done..|by injection Hr as <- _].
  unfold tx_guard in Hr. do 3 tx_step Hr. by injection Hr as <- _.
Qed.

(** Behind the link: the release that was there, as it was; or the one that the
    repository published for the wanted version, under that tag when a version
    was wanted, vetted and unpacked completely. *)
Definition survives (config : Config) (wanted : string) (m : Machine) (previous : string) (ms : list member) (t : Z) : Prop :=
  (links_to m previous /\ releases m !! previous = Some (Release ms t)) \/
  (exists release ms' t', fetchRelease web config wanted = Ok release /\ (wanted <> "" -> TagName release = wanted) /\ vetted web config release ms' /\
     links_to m (TagName release) /\ releases m !! TagName release = Some (Release ms' t')).

(** Either no call met an I/O error, or the run came to an end that does not
    report a link it could not restore. *)
Definition accounted (s : os Machine) (err : option werr) : Prop :=
  Forall no_failure (fates s) \/ match err with Some e => was_killed e = false /\ reports_link e = false | None => True end.

Definition error_of {A} (r : result (Result * werr) A) : option werr :=
  match r with Ok _ => None | Err (_, e) => Some e end.

Lemma plainly_state {A} (m : wd A) s r s' :
  plainly m s = (r, s') -> exists r', m s = (r', s') /\ match r with Ok a => r' = Ok a | Err (_, e) => r' = Err e end.
Proof. unfold plainly. destruct (m s) as [[] s1]; intros [= <- <-]; by eexists. Qed.

Lemma fetch_valid config v release : fetchRelease web config v = Ok release -> validVersion (TagName release) = true.
Proof. unfold fetchRelease. repeat case_match; try done. intros [= <-]. by apply negb_false_iff. Qed.

Lemma fetch_tag config v release : fetchRelease web config v = Ok release -> v <> "" -> TagName release = v.
Proof.
  unfold fetchRelease. repeat case_match; try done. intros [= <-] Hne.
  match goal with H : _ && _ = false |- _ => apply andb_false_iff in H as [H|H]; apply negb_false_iff, String.eqb_eq in H end; congruence.
Qed.

Lemma replace_release_spec config inp requested previous release s r s' ms t :
  replace_release web config inp previous release s = (r, s') -> installation (disk s) previous ms t ->
  fetchRelease web config requested = Ok release -> TagName release <> previous -> accounted s (error_of r) ->
  survives config requested (disk s') previous ms t.
Proof.
  intros Hr Hin Hf Hne Hacc. pose proof (fetch_valid _ _ _ Hf) as Hv. pose proof (fetch_tag _ _ _ Hf) as Htag. set (tag := TagName release) in *.
  pose proof (valid_visible _ Hv) as Hvis. pose proof (valid_visible _ (in_valid _ _ _ _ Hin)) as Hpvis.
  unfold replace_release in Hr. fold tag in Hr. cbv zeta in Hr. unfold tx_bind at 1 in Hr.
  destruct (plainly (obtain web config inp release) s) as [r1 s1] eqn:E1. apply plainly_state in E1 as (r1' & E1 & H1).
  pose proof (fun q => obtain_keeps web config inp release _ _ _ q E1) as K1. fold tag in K1.
  pose proof (frugal_obtain web config inp release _ _ _ E1) as F1.
  assert (releases (disk s1) !! previous = Some (Release ms t)) as P1 by (rewrite K1 by done; apply Hin).
  assert (tag <> "current" -> links_to (disk s1) previous) as L1 by (intros; unfold links_to; rewrite K1 by done; apply Hin).
  apply obtain_spec in E1; [|done]. fold tag in E1. destruct E1 as [[Hfail E1]|(-> & Hnone & ms' & Hvet & E1)].
  { destruct r1; [by subst|]. injection Hr as <- <-. left. split; [|done]. unfold links_to.
    destruct (decide (tag = "current")) as [Et|Et]; [rewrite <- Et, E1, Et; apply Hin|by apply L1]. }
  assert (tag <> "current") as Htc by (intros Et; rewrite Et in Hnone; pose proof (in_link _ _ _ _ Hin) as L; unfold links_to in L; congruence).
  assert (link_names tag) as Hln by (split; [done|by apply valid_not_next]).
  assert (link_names previous /\ previous <> tag) as Hpn.
  { split; [split|done]; [|apply valid_not_next, Hin]. intros ->. destruct Hin as [L _ D _]. unfold links_to in L. congruence. }
  specialize (L1 Htc). destruct r1 as [c|[]]; [|done]. injection H1 as <-.
  unfold tx_bind at 1 in Hr. destruct (plainly (switch_over config tag tag) s1) as [r2 s2] eqn:E2. apply plainly_state in E2 as (r2' & E2 & H2).
  pose proof (switch_over_keeps config tag _ _ _ previous E2 Hpn) as P2. rewrite P1 in P2.
  pose proof (frugal_switch_over config tag tag _ _ _ E2) as F2. pose proof (switch_over_spec _ _ _ _ _ E2 Hln) as S2.
  destruct r2 as [cause|[res e]].
  2: { subst r2'. injection Hr as <- <-. simpl in S2. destruct S2 as [S2|[S2a S2b]].
       - left. split; [unfold links_to; by rewrite S2|done].
       - right. exists release, ms', (now inp). fold tag. by rewrite S2b, E1. }
  subst r2'. simpl in S2. destruct S2 as [[S2a S2b] S2c]. rewrite E1 in S2b. destruct cause as [cause|].
  - destruct (rollback config previous tag s2) as [r3 s3] eqn:E3.
    assert (s' = s3) as -> by (destruct r3; congruence).
    pose proof (rollback_keeps config previous tag _ _ _ previous E3 Hpn) as P3. rewrite P2 in P3.
    assert (no_dir (disk s2) ".current-next") as N2 by (intros x y; by rewrite S2c).
    destruct (rollback_spec _ _ _ _ _ _ ms t E3 S2a Hln (in_valid _ _ _ _ Hin) ltac:(done) P2 N2) as [L3|[[[L3 T3] _]|[Hbad Hrep]]].
    + by left.
    + right. exists release, ms', (now inp). fold tag. by rewrite T3.
    + destruct Hacc as [Hall|Hend].
      * exfalso. apply Hbad. eapply no_failure_suffix; [etrans; [exact F2|exact F1]|done].
      * exfalso. destruct r3 as [fs|e3]; injection Hr as <-; simpl in Hend.
        -- destruct Hend as [_ Hend]. assert (oneOfString link_failure fs = true) by (by apply oneOfString_In, Hrep). congruence.
        -- apply rollback_killed in E3. by destruct Hend; congruence.
  - eapply activated_spec in Hr as (L3 & t' & T3); [|done..]. right. by exists release, ms', t'.
Qed.

Lemma plainly_rolled {A} (m : wd A) s res e s' : plainly m s = (Err (res, e), s') -> RolledBack res = false.
Proof. unfold plainly. destruct (m s) as [[] s1]; [done|]. by intros [= <- _ _]. Qed.

(** The steps before the release is replaced change nothing in the release
    directory. *)
Lemma update_body_cases config inp requested s r s' previous ms t :
  update_body web config inp requested s = (r, s') -> installation (disk s) previous ms t ->
  ((forall q, releases (disk s') !! q = releases (disk s) !! q) /\ match r with Ok res | Err (res, _) => RolledBack res = false end) \/
  (exists release s1, fetchRelease web config (asked config requested (disk s)) = Ok release /\ TagName release <> previous /\
     (forall q, releases (disk s1) !! q = releases (disk s) !! q) /\ fates s1 `suffix_of` fates s /\
     replace_release web config inp previous release s1 = (r, s')).
Proof.
  intros Hr Hin. unfold update_body in Hr. unfold tx_bind at 1 in Hr.
  destruct (plainly (consumeRequestMarker _) s) as [r1 s1] eqn:E1. pose proof E1 as P1. apply plainly_state in E1 as (r1' & E1 & M1).
  pose proof (fun q => consume_reads _ _ _ _ q E1 I) as K1. pose proof E1 as C1. apply frugal_consume in E1.
  destruct r1 as [marked|[x1 e1]]; [|injection Hr as <- <-; left; split; [done|by eapply plainly_rolled]]. cbv zeta in Hr.
  subst r1'. apply consume_ok in C1. set (wanted := if (requested =? "")%string then marked else requested) in Hr.
  assert (wanted = asked config requested (disk s)) as Hw by (unfold wanted; rewrite C1; unfold asked; by destruct (requested =? "")%string).
  unfold tx_bind at 1 in Hr. destruct (plainly (markerExists _) s1) as [r2 s2] eqn:E2. pose proof E2 as P2. apply plainly_state in E2 as (r2' & E2 & _).
  pose proof (fun q => markerExists_reads _ _ _ _ q E2 I) as K2. apply frugal_marker in E2. assert (forall q, releases (disk s2) !! q = releases (disk s) !! q) as Q2 by (intros; by rewrite K2).
  destruct r2 as [busy|[x2 e2]]; [|injection Hr as <- <-; left; split; [done|by eapply plainly_rolled]]. destruct busy.
  { left. unfold tx_bind at 1 in Hr. destruct (plainly _ s2) as [r3 s3] eqn:E3. pose proof E3 as P3. apply plainly_state in E3 as (r3' & E3 & _).
    pose proof (fun q => keeps_during _ _ _ currentVersion_reads _ _ _ q E3 I) as K3.
    destruct r3 as [v|[x3 e3]]; injection Hr as <- <-; (split; [intros q; by rewrite K3|]); [done|by eapply plainly_rolled]. }
  unfold tx_bind at 1 in Hr. destruct (plainly (tx_guard _ _) s2) as [r3 s3] eqn:E3.
  assert (s3 = s2) as -> by (unfold plainly, tx_guard in E3; destruct (_ || _) in E3; unfold tx_ret, tx_fail in E3; congruence).
  destruct r3 as [|[x3 e3]]; [|injection Hr as <- <-; left; split; [done|by eapply plainly_rolled]].
  unfold tx_bind at 1 in Hr. destruct (plainly (during _ currentVersion) s2) as [r4 s4] eqn:E4. pose proof E4 as P4. apply plainly_state in E4 as (r4' & E4 & H4).
  pose proof (fun q => keeps_during _ _ _ currentVersion_reads _ _ _ q E4 I) as K4. pose proof (frugal_during _ _ frugal_current _ _ _ E4) as F4.
  assert (forall q, releases (disk s4) !! q = releases (disk s) !! q) as Q4 by (intros; by rewrite K4).
  destruct r4 as [previous'|[x4 e4]]; [|injection Hr as <- <-; left; split; [done|by eapply plainly_rolled]].
  subst r4'. apply during_ok, currentVersion_ok in E4 as (L4 & _ & _).
  assert (previous' = previous) as ->.
  { unfold links_to in L4. rewrite Q2 in L4. pose proof (in_link _ _ _ _ Hin) as L. unfold links_to in L. congruence. }
  unfold tx_bind at 1 in Hr. unfold plainly at 1, lift_result, tx_lift in Hr.
  destruct (fetchRelease web config wanted) as [release|] eqn:F; [|injection Hr as <- <-; by left].
  destruct (TagName release =? previous)%string eqn:Et; [injection Hr as <- <-; by left|].
  apply String.eqb_neq in Et. right. exists release, s4. split; [by rewrite <- Hw|]. do 2 (split; [done|]). split; [|done].
  etrans; [exact F4|]. by etrans.
Qed.

Lemma update_body_spec config inp requested s r s' previous ms t :
  update_body web config inp requested s = (r, s') -> installation (disk s) previous ms t -> accounted s (error_of r) ->
  survives config (asked config requested (disk s)) (disk s') previous ms t.
Proof.
  intros Hr Hin Hacc. destruct (update_body_cases _ _ _ _ _ _ _ _ _ Hr Hin) as [[Q _]|(release & s1 & F & Hne & Q & Fs & R)].
  - left. unfold links_to. rewrite !Q. split; apply Hin.
  - eapply replace_release_spec in R; [exact R| |exact F|done|].
    + eapply installation_keep; [|exact Hin]. intros; apply Q.
    + destruct Hacc as [Hall|]; [left|by right]. by eapply no_failure_suffix.
Qed.

(** C8. An update never leaves the machine without a usable release: whatever
    the network, the service and the health endpoint answer, wherever the
    process is killed, [current] afterwards names the release that was installed,
    untouched, or the one that the repository published for the request (under
    the tag of the version that the caller or, failing that, the request marker
    asked for, or as its latest release when neither did), whose bundle has the
    published SHA-256 and was unpacked completely with permitted files only.
    With I/O errors this holds for every run that ends without reporting that a
    rollback could not restore the link. *)
Theorem current_release_survives config inp requested s previous ms t :
  installation (disk s) previous ms t ->
  let '((res, err), s') := Update web config inp requested s in
  accounted s err ->
  (links_to (disk s') previous /\ releases (disk s') !! previous = Some (Release ms t)) \/
  (exists config', normalize (goos inp) (goarch inp) config = Ok config' /\
     survives config' (asked config' requested (disk s)) (disk s') previous ms t).
Proof.
  intros Hin. destruct (Update web config inp requested s) as [[res err] s'] eqn:U. unfold Update in U. intros Hacc.
  destruct (normalize _ _ config) as [config'|e]; [|injection U as <- <- <-; left; split; apply Hin].
  right. exists config'. split; [done|]. destruct (update_body web config' inp requested s) as [r s1] eqn:B.
  assert ((match r with Ok res => (res, None) | Err (res, e) => (res, Some e) end) =
          (match r with Ok res => res | Err (res, _) => res end, error_of r)) as Er by (by destruct r as [|[]]).
  rewrite Er in U. destruct (match error_of r with Some e => was_killed e | None => false end) eqn:K.
  - injection U as <- <- <-. by eapply update_body_spec.
  - destruct (recordUpdateStatus config' (now inp) _ (error_of r) s1) as [rec s2] eqn:R.
    pose proof (fun q => recordStatus_reads _ _ _ _ _ _ _ q R I) as K2. injection U as <- Hend <-.
    assert (survives config' (asked config' requested (disk s)) (disk s1) previous ms t) as Hs.
    { eapply update_body_spec; [exact B|done|]. destruct Hacc as [Hall|Hend']; [by left|right].
      subst err. destruct rec, (error_of r) as [e0|]; try done; simpl in Hend'.
      destruct Hend' as [H1 H2]. apply orb_false_iff in H2 as [H2 _]. done. }
    destruct Hs as [[L D]|(rel & ms' & t' & Hf & Ht & Hv & L & D)]; [left|right; exists rel, ms', t'; do 3 (split; [done|])];
      unfold links_to; rewrite !K2; done.
Qed.

End Updating.
