(* ===== verification/WardenRollback.v ===== *)
(** * The release updater: rollback, health, checksums and retention *)

From Stdlib Require Import ZArith Lia Bool Ascii String Sorting.
From stdpp Require Import base tactics list strings gmap sorting.
From S2P Require Import Prelude GoStrings GoText CoreTopology GoFiles Warden WardenFacts WardenTheorems.

Local Open Scope string_scope.
Local Open Scope list_scope.
Local Open Scope bool_scope.
Local Open Scope Z_scope.
Local Open Scope tx_scope.

(** ** Steps that leave the service alone *)

Definition still {E A} (m : tx (os Machine) E A) : Prop :=
  forall s r s', m s = (r, s') -> running (disk s') = running (disk s).

Lemma still_lift {E A} (r : result E A) : still (tx_lift r).
Proof. by intros s r' s' [= _ <-]. Qed.

Lemma still_guard {E} b (e : E) : still (tx_guard b e).
Proof. destruct b; by intros s r s' [= _ <-]. Qed.

Lemma still_bind {E A B} (m : tx (os Machine) E A) (k : A -> tx (os Machine) E B) :
  still m -> (forall a, still (k a)) -> still (tx_bind m k).
Proof.
  intros Hm Hk s r s' Hr. unfold tx_bind in Hr. destruct (m s) as [[a|e] s1] eqn:E1.
  - rewrite (Hk a _ _ _ Hr). by eapply Hm.
  - injection Hr as _ <-. by eapply Hm.
Qed.

Lemma still_syscall {A} (act : Machine -> result oserr A * Machine) partial :
  (forall m, running (snd (act m)) = running m) -> (forall n m, running (partial n m) = running m) -> still (syscall act partial).
Proof. intros H1 H2 s r s' Hr. apply syscall_disk in Hr as [[_ ->]|(n & e & _ & ->)]; auto. Qed.

Lemma still_map {E F A B} (m : tx (os Machine) E A) (n : tx (os Machine) F B) :
  still m -> (forall s, snd (n s) = snd (m s)) -> still n.
Proof. intros Hm Hn s r s' Hr. specialize (Hn s). rewrite Hr in Hn. simpl in Hn. subst. destruct (m s) eqn:E1. by eapply Hm. Qed.

Lemma still_wrap {E A} (f : oserr -> E) (m : tx (os Machine) oserr A) : still m -> still (wrap f m).
Proof. intros Hm. eapply still_map; [exact Hm|]. intros s. apply wrap_state. Qed.

Lemma still_attempt {A} (m : wd A) : still m -> still (attempt m).
Proof. intros Hm. eapply still_map; [exact Hm|]. intros s. unfold attempt. destruct (m s) as [[]]; [done|]. by case_match. Qed.

Lemma still_await `{WardenLib} config : still (await_health config).
Proof.
  intros s r s' Hr. unfold await_health in Hr. destruct (sys "probe" opaque_call s) as [[] s1]; by injection Hr as _ <-.
Qed.

Ltac still_all :=
  repeat first
    [ assumption | apply still_await | apply still_lift | apply still_guard | apply still_attempt | apply still_wrap
    | (apply still_syscall; intros; simpl; repeat case_match; done)
    | (apply still_bind; [|intros ?])
    | progress unfold sys, opaque_call, query, atomically, lift_result, os_Stat, os_Readlink, os_Lstat, marker_at, RemoveAll, noting,
        version_or, currentVersion, readUpdateStatus, writeUpdateStatus
    | match goal with |- still (tx_ret _) => apply (still_lift (Ok _)) end
    | match goal with |- still (tx_fail _) => apply (still_lift (Err _)) end
    | case_match ].

Lemma RemoveAll_still name : still (RemoveAll name).
Proof. still_all. Qed.

Section Rollback.
Context `{WardenLib} (web : string -> option answer).

Lemma record_still config now res e : still (recordUpdateStatus config now res e).
Proof. unfold recordUpdateStatus. still_all. Qed.

Lemma noting_ok what m s s' : noting what m s = (Ok [], s') -> m s = (Ok tt, s').
Proof. intros Hr. apply noting_state in Hr as (r' & Hm & Hfs & _). destruct r' as [[]|]; [done|]. simpl in Hfs. discriminate. Qed.

Lemma Start_runs s s' : Start s = (Ok tt, s') -> running (disk s') = installed (disk s).
Proof.
  intros Hr. apply sys_ok in Hr. apply syscall_disk in Hr as [[E D]|(n & e & ? & _)]; [|done].
  rewrite D. destruct (service (disk s)) as [|[] rest]; simpl in *; done.
Qed.

Lemma RemoveAll_ok name s a s' : RemoveAll name s = (Ok a, s') -> releases (disk s') = delete name (releases (disk s)).
Proof. intros Hr. apply sys_ok in Hr. apply syscall_disk in Hr as [[E D]|(n & e & ? & _)]; [|done]. by rewrite D. Qed.

(** A rollback without failures. *)
Lemma rollback_clean config previous tag s s' :
  rollback config previous tag s = (Ok [], s') -> link_names tag ->
  links_to (disk s') previous /\ running (disk s') = Some previous /\ releases (disk s') !! tag = None.
Proof.
  intros Hr Ht. unfold rollback in Hr. tx_step Hr. tx_step Hr. tx_step Hr. tx_prims.
  match goal with E : ?a ++ ?b ++ ?c = [] |- _ => apply app_eq_nil in E as [-> E]; apply app_eq_nil in E as [-> ->] end.
  apply noting_ok in Hm, Hm1. unfold restore in Hm0. tx_step Hm0.
  destruct r as [|x xs]; [|by tx_prims]. apply noting_ok in Hm2. tx_step Hm0.
  destruct r as [|x xs]; [|by tx_prims]. apply noting_ok in Hm3, Hm0.
  pose proof (switch_moves previous _ _ _ Hm2) as M. simpl in M.
  pose proof (fun q => keeps_Start (fun _ => True) _ _ _ q Hm3 I) as K3. pose proof (fun q => keeps_await (fun _ => True) _ _ _ _ q Hm0 I) as K4.
  pose proof (RemoveAll_still tag _ _ _ Hm1) as R5. apply RemoveAll_ok in Hm1.
  apply Start_runs in Hm3. apply still_await in Hm0. unfold links_to in *.
  rewrite Hm1, lookup_delete_eq, lookup_delete_ne, K4, K3 by (destruct Ht; done). split; [done|]. split; [|done].
  rewrite R5, Hm0, Hm3. unfold installed. by rewrite M.
Qed.

(** What a rolled-back update leaves: the release directory as it was, and the
    release it had running. *)
Definition restored (s s' : os Machine) (previous : string) : Prop :=
  (forall q, visible q -> q <> ".current-next" -> releases (disk s') !! q = releases (disk s) !! q) /\
  running (disk s') = Some previous.

Lemma replace_rolled_back config inp previous release s res cause s' ms t :
  replace_release web config inp previous release s = (Err (res, Unhealthy cause []), s') -> RolledBack res = true ->
  was_killed cause = false -> installation (disk s) previous ms t -> validVersion (TagName release) = true -> TagName release <> previous ->
  restored s s' previous.
Proof.
  intros Hr Hback Hk Hin Hv Hne. set (tag := TagName release) in *. pose proof (valid_visible _ Hv) as Hvis.
  unfold replace_release in Hr. fold tag in Hr. cbv zeta in Hr. unfold tx_bind at 1 in Hr.
  destruct (plainly (obtain web config inp release) s) as [[c|[r1 e1]] s1] eqn:E1.
  2: { apply plainly_rolled in E1. injection Hr as <- _ _. congruence. }
  apply plainly_state in E1 as (r1' & E1 & ->). pose proof (fun q => obtain_keeps web config inp release _ _ _ q E1) as K1. fold tag in K1.
  apply obtain_spec in E1 as [[? _]|(Hc & Hnone & ms' & Hvet & E1)]; [done| |done]. fold tag in Hc, Hnone, E1. injection Hc as ->.
  assert (tag <> "current") as Htc by (intros Et; rewrite Et in Hnone; destruct Hin as [L _ _ _]; unfold links_to in L; congruence).
  assert (link_names tag) as Hln by (split; [done|by apply valid_not_next]).
  unfold tx_bind at 1 in Hr. destruct (plainly (switch_over config tag tag) s1) as [[ce|[r2 e2]] s2] eqn:E2.
  2: { apply plainly_rolled in E2. injection Hr as <- _ _. congruence. }
  apply plainly_state in E2 as (r2' & E2 & ->). destruct ce as [cz|].
  2: { unfold activated in Hr. destruct ((touch tag (now inp) ;;; prune (tie inp) tag) s2) as [[] s3]; [done|]. by injection Hr as <- _ _. }
  destruct (rollback config previous tag s2) as [[fs|e3] s3] eqn:E3.
  2: { apply rollback_killed in E3. injection Hr as _ -> _. simpl in E3. congruence. }
  injection Hr as _ -> -> <-. pose proof (rollback_clean _ _ _ _ _ E3 Hln) as (L3 & R3 & T3). split; [|done].
  intros q Hq Hqn. destruct (decide (q = tag)) as [->|Hqt]; [by rewrite T3|].
  destruct (decide (q = "current")) as [->|Hqc]; [rewrite (in_link _ _ _ _ Hin : releases _ !! _ = _); exact L3|].
  assert (link_names q /\ q <> tag) as Hq2 by (by split).
  by rewrite (rollback_keeps _ _ _ _ _ _ q E3 Hq2), (switch_over_keeps _ _ _ _ _ q E2 Hq2), K1.
Qed.
(** C25. When the candidate does not become healthy and the update reports that
    it was rolled back, without a failure, the machine is back where it was:
    every visible entry of the release directory, the [current] link included,
    is what it was before the update, so the candidate is gone, and the service
    runs the previous release. *)
Theorem rollback_restores_release config inp requested s res cause s' previous ms t :
  installation (disk s) previous ms t ->
  Update web config inp requested s = ((res, Some (Unhealthy cause [])), s') ->
  RolledBack res = true -> was_killed cause = false ->
  restored s s' previous.
Proof.
  intros Hin U Hback Hk. unfold Update in U. destruct (normalize _ _ config) as [config'|e]; [|injection U as <- _ _; done].
  destruct (update_body web config' inp requested s) as [r s1] eqn:B.
  destruct r as [res0|[res0 e0]].
  { simpl in U. destruct (recordUpdateStatus _ _ _ _ s1) as [[] s2]; by injection U as <- ?. }
  destruct (update_body_cases web _ _ _ _ _ _ _ _ _ B Hin) as [[_ Hno]|(release & s0 & Hf & Hne & Q & _ & R)].
  { destruct (was_killed e0); [injection U as <- _ _; congruence|]. destruct (recordUpdateStatus _ _ _ _ s1) as [[] s2]; injection U as <- _ _; congruence. }
  destruct (was_killed e0) eqn:K0; [injection U as -> -> <-; simpl in K0; congruence|].
  destruct (recordUpdateStatus config' _ _ _ s1) as [rec s2] eqn:Rec. destruct rec as [[]|f]; [|done]. injection U as -> -> <-.
  eapply replace_rolled_back in R as [R1 R2]; [|done|done| |by eapply fetch_valid|done].
  - split; [|by rewrite (record_still _ _ _ _ _ _ _ Rec)]. intros q Hq Hn. by rewrite (recordStatus_reads _ _ _ _ _ _ _ q Rec I), R1, Q.
  - eapply installation_keep; [|exact Hin]. intros; apply Q.
Qed.
End Rollback.

(** ** Health *)

(** When probe [k] starts. *)
Definition probe_start (interval : Z) (probes : list probe) (k : nat) : Z :=
  fold_right (fun p n => spent interval p + interval + n) 0 (take k probes).

(** Probe [k] starts before the deadline and is answered 200 before the client
    gives up, and nothing cancelled the wait before it. *)
Definition healthy_at (timeout interval elapsed : Z) (probes : list probe) (k : nat) : Prop :=
  (exists p, probes !! k = Some p /\ answered interval p = Some 200) /\ elapsed + probe_start interval probes k < timeout /\
  forall j q, (j < k)%nat -> probes !! j = Some q -> cancelled q = None.

Lemma spent_range interval p : 0 < interval -> 0 <= spent interval p <= client_timeout interval.
Proof.
  intros Hi. unfold spent, times_out. assert (0 < client_timeout interval) as Hc by (unfold client_timeout, second; lia).
  destruct (_ && _) eqn:E; [lia|]. apply andb_false_iff in E. lia.
Qed.

Lemma probe_start_nonneg interval probes k : 0 < interval -> 0 <= probe_start interval probes k.
Proof.
  intros Hi. unfold probe_start. revert k. induction probes as [|p probes IH]; intros [|k]; simpl; try lia.
  specialize (IH k). pose proof (spent_range interval p Hi). lia.
Qed.

Lemma healthy_later timeout interval elapsed p probes k :
  healthy_at timeout interval elapsed (p :: probes) (S k) <->
  cancelled p = None /\ healthy_at timeout interval (elapsed + spent interval p + interval) probes k.
Proof.
  unfold healthy_at, probe_start. cbn [take fold_right lookup list_lookup]. split.
  - intros (Hp & Ht & Hc). split; [by apply (Hc O p); [lia|]|]. split; [done|]. split; [lia|].
    intros j q Hj Hq. by apply (Hc (S j) q); [lia|].
  - intros (Hcp & Hp & Ht & Hc). split; [done|]. split; [lia|]. intros [|j] q Hj Hq; [by injection Hq as <-|]. apply (Hc j q); [lia|done].
Qed.

Definition unhealthy (interval : Z) (p : probe) : option werr :=
  Some (Msg (match answered interval p with Some _ => "health endpoint returned another status" | None => "health request failed" end)).

Definition is_200 (interval : Z) (p : probe) : bool := match answered interval p with Some z => z =? 200 | None => false end.

Lemma is_200_iff interval p : is_200 interval p = true <-> answered interval p = Some 200.
Proof. unfold is_200. destruct (answered interval p) as [z|]; [rewrite Z.eqb_eq|]; split; congruence. Qed.

Lemma probe_loop_step fuel timeout interval elapsed lastErr probes :
  probe_loop (S fuel) timeout interval elapsed lastErr probes =
  if elapsed <? timeout then
    let p := hd (mkProbe 0 None None) probes in
    let after := elapsed + spent interval p in
    if is_200 interval p then (Ok tt, after)
    else match cancelled p with
         | Some d => (Err (Msg "context ended"), after + Z.min (Z.max 0 d) interval)
         | None => probe_loop fuel timeout interval (after + interval) (unhealthy interval p) (tail probes)
         end
  else (Err (match lastErr with Some e => e | None => Msg "health timeout elapsed" end), elapsed).
Proof.
  cbn [probe_loop]. destruct (elapsed <? timeout); [|done]. unfold is_200, unhealthy.
  replace (match probes with [] => mkProbe 0 None None | p :: _ => p end) with (hd (mkProbe 0 None None) probes) by by destruct probes.
  cbv zeta. destruct (answered interval _) as [z|]; [|done].
  destruct (Z.eqb_spec z 200) as [->|Hz]; [done|]. repeat case_match; done.
Qed.

(** The loop ends before its fuel does, and at the latest one probe and one wait
    after the deadline, or, when it succeeds, one probe. *)
Lemma probe_loop_ends fuel timeout interval elapsed lastErr probes :
  0 < interval -> 0 <= elapsed -> timeout - elapsed <= Z.of_nat fuel * interval -> lastErr <> Some (Msg "out of fuel") ->
  elapsed < timeout + client_timeout interval + interval \/ elapsed = 0 ->
  let '(r, ended) := probe_loop (S fuel) timeout interval elapsed lastErr probes in
  r <> Err (Msg "out of fuel") /\ 0 <= ended /\ (ended < timeout + client_timeout interval + interval \/ ended = 0) /\
  (r = Ok tt -> ended < timeout + client_timeout interval).
Proof.
  intros Hi. revert elapsed lastErr probes. induction fuel as [|fuel IH]; intros elapsed lastErr probes He Hf Hl Hb; rewrite probe_loop_step.
  all: destruct (Z.ltb_spec elapsed timeout); [|split; [destruct lastErr; congruence|done]].
  { lia. }
  cbv zeta. set (p := hd _ probes). pose proof (spent_range interval p Hi). destruct (is_200 interval p).
  { split; [done|]. split; [lia|]. split; [left; lia|]. lia. }
  destruct (cancelled p) as [d|]; [split; [done|]; split; [lia|]; split; [left; lia|done]|].
  apply IH; [lia|lia|unfold unhealthy; by case_match|left; lia].
Qed.

Lemma probe_loop_ok fuel timeout interval elapsed lastErr probes :
  0 < interval -> timeout - elapsed <= Z.of_nat fuel * interval ->
  fst (probe_loop (S fuel) timeout interval elapsed lastErr probes) = Ok tt <-> exists k, healthy_at timeout interval elapsed probes k.
Proof.
  intros Hi. revert elapsed lastErr probes. induction fuel as [|fuel IH]; intros elapsed lastErr probes Hf; rewrite probe_loop_step.
  all: destruct (Z.ltb_spec elapsed timeout) as [Hlt|Hge];
    [|split; [done|]; intros (k & _ & Ht & _); pose proof (probe_start_nonneg interval probes k Hi); lia].
  { lia. }
  cbv zeta. destruct probes as [|p probes]; cbn [hd tail].
  { pose proof (spent_range interval (mkProbe 0 None None) Hi) as Hs.
    assert (is_200 interval (mkProbe 0 None None) = false) as -> by (unfold is_200, answered; by destruct (times_out _ _)).
    cbn [cancelled]. rewrite IH by lia. split; intros (k & (q & Hq & _) & _); done. }
  pose proof (spent_range interval p Hi) as Hsp. destruct (is_200 interval p) eqn:Hs.
  { split; [intros _|done]. exists O. split; [exists p; split; [done|by apply is_200_iff]|]. split; [unfold probe_start; simpl; lia|]. intros; lia. }
  transitivity (exists k, healthy_at timeout interval elapsed (p :: probes) (S k)).
  - destruct (cancelled p) as [d|] eqn:C.
    + split; [done|]. intros [k [? _]%healthy_later]. congruence.
    + rewrite IH by lia. split; intros [k Hk]; exists k; [by apply healthy_later|by apply healthy_later in Hk as [_ Hk]].
  - split; [intros [k Hk]; by exists (S k)|]. intros [[|k] Hk]; [|by exists k]. destruct Hk as [(q & [= <-] & Hq%is_200_iff) _]. congruence.
Qed.

Section Health.
Context `{WardenLib}.

(** C26. The wait for health ends, and decides right.  It starts no probe after
    its deadline and gives each at most [client_timeout], the lesser of the
    interval and five seconds: it succeeds exactly when the endpoint answers 200,
    before the client gives up, to a probe that starts before the deadline, with
    no cancellation before it.  A success comes less than one client timeout
    after the deadline, a failure less than one client timeout and one interval
    after it (or at once, when there is no time to wait). *)
Theorem health_wait_decides rawURL timeout interval probes :
  0 < interval -> parseURL rawURL <> None ->
  let '(r, ended) := waitForHealth rawURL timeout interval probes in
  r <> Err (Msg "out of fuel") /\
  (r = Ok tt <-> exists k, healthy_at timeout interval 0 probes k) /\
  (r = Ok tt -> ended < timeout + client_timeout interval) /\
  (ended < timeout + client_timeout interval + interval \/ ended = 0).
Proof.
  intros Hi Hp. unfold waitForHealth. destruct (parseURL rawURL); [|done].
  assert (timeout - 0 <= Z.of_nat (S (Z.to_nat (timeout / interval))) * interval) as Hf.
  { pose proof (Z.div_mod timeout interval). pose proof (Z.mod_pos_bound timeout interval).
    destruct (Z.le_gt_cases 0 timeout); [pose proof (Z.div_pos timeout interval)|]; nia. }
  pose proof (probe_loop_ok _ timeout interval 0 None probes Hi Hf) as Hok.
  pose proof (probe_loop_ends _ timeout interval 0 None probes Hi ltac:(lia) Hf ltac:(done) ltac:(by right)) as Hends.
  destruct (probe_loop _ _ _ _ _ _) as [r ended]. cbn [fst] in Hok. tauto.
Qed.
End Health.

(** ** Checksums *)

(** The checksum that a line of checksums.txt gives for the asset. *)
Definition sum_for (assetName line : string) : option string :=
  match Fields line with
  | [sum; name] => if (TrimPrefix name "*" =? assetName)%string then Some sum else None
  | _ => None
  end.

Definition sum_ok (sum : string) : bool := (len sum =? 64) && hex_decodes sum.

Lemma checksum_lines_cons assetName expected matches line lines :
  match sum_for assetName line with
  | Some sum => if sum_ok sum
                then checksum_lines assetName expected matches (line :: lines) = checksum_lines assetName (lower_text sum) (matches + 1) lines
                else is_ok (checksum_lines assetName expected matches (line :: lines)) = false
  | None => checksum_lines assetName expected matches (line :: lines) = checksum_lines assetName expected matches lines
  end.
Proof.
  cbn [checksum_lines]. unfold sum_for. destruct (Fields line) as [|sum [|name [|]]]; try done.
  destruct (String.eqb (TrimPrefix name "*") assetName); [|done]. unfold sum_ok. by destruct (len sum =? 64), (hex_decodes sum).
Qed.

Lemma checksum_lines_spec assetName expected matches lines :
  let sums := omap (sum_for assetName) lines in
  if forallb sum_ok sums
  then checksum_lines assetName expected matches lines = Ok (List.last (map lower_text sums) expected, matches + Z.of_nat (length sums))
  else is_ok (checksum_lines assetName expected matches lines) = false.
Proof.
  revert expected matches. induction lines as [|line lines IH]; intros expected matches; cbv zeta in *.
  { simpl. by rewrite Z.add_0_r. }
  change (omap (sum_for assetName) (line :: lines)) with
    (match sum_for assetName line with Some y => y :: omap (sum_for assetName) lines | None => omap (sum_for assetName) lines end).
  pose proof (checksum_lines_cons assetName expected matches line lines) as Hc.
  destruct (sum_for assetName line) as [sum|]; [|rewrite Hc; apply IH].
  set (rest := omap (sum_for assetName) lines) in *. cbn [forallb map]. destruct (sum_ok sum); [|done]. rewrite Hc. simpl.
  specialize (IH (lower_text sum) (matches + 1)). destruct (forallb sum_ok rest); [|done]. rewrite IH.
  f_equal. f_equal; [|lia]. clear. destruct (map lower_text rest) as [|x xs]; [done|]. revert x. induction xs as [|y ys IHy]; intros x; [done|]. apply IHy.
Qed.

Section Checksums.
Context `{WardenLib}.

(** A bundle passes exactly when checksums.txt has one line for its name,
    and that line gives 64 hexadecimal digits which are, case aside, the SHA-256
    of the bundle: no line, a second line or a malformed one is a refusal. *)
Theorem checksum_is_unique_and_matches checksums assetName content :
  verifyChecksum checksums assetName content = Ok tt <->
  exists sum, omap (sum_for assetName) (SplitChar newline (of_bytes checksums)) = [sum] /\ sum_ok sum = true /\
              lower_text sum = sha256_hex content.
Proof.
  unfold verifyChecksum. pose proof (checksum_lines_spec assetName "" 0 (SplitChar newline (of_bytes checksums))) as Hs. cbv zeta in Hs.
  set (sums := omap _ _) in *. destruct (forallb sum_ok sums) eqn:F.
  - rewrite Hs. destruct sums as [|sum [|sum' rest]].
    + simpl. split; [done|]. by intros (? & ? & _).
    + simpl in *. apply andb_prop in F as [F _]. destruct (String.eqb_spec (sha256_hex content) (lower_text sum)) as [E|E]; simpl.
      * split; [|done]. intros _. by exists sum.
      * split; [done|]. intros (x & [= <-] & _ & ?). congruence.
    + split; [|by intros (? & ? & _)]. set (n := 0 + Z.of_nat _). assert (2 <= n) by (unfold n; cbn [length]; lia).
      destruct (Z.eqb_spec n 0); [lia|]. destruct (Z.eqb_spec n 1); [lia|done].
  - destruct (checksum_lines _ _ _ _) as [|e]; [done|]. split; [done|]. intros (x & E & Hx & _). rewrite E in F. simpl in F. by rewrite Hx in F.
Qed.
End Checksums.

(** ** Retention *)

(** The newest names are kept until three are: a prefix of the ordered names. *)
Lemma keep_newest_prefix keep names :
  exists n, (forall x, In x (keep_newest keep names) <-> In x keep \/ In x (take n names)) /\
            ((length keep <= 3)%nat -> (length (keep_newest keep names) <= 3)%nat) /\ (NoDup keep -> NoDup (keep_newest keep names)).
Proof.
  revert keep. induction names as [|name names IH]; intros keep; cbn [keep_newest].
  { exists O. split; [|done]. intros x. simpl. tauto. }
  destruct (3 <=? length keep)%nat eqn:L.
  { exists O. split; [|done]. intros x. simpl. tauto. }
  apply Nat.leb_gt in L. destruct (oneOfString name keep) eqn:M.
  - destruct (IH keep) as (n & Hin & Hl & Hd). exists (S n). split; [|done]. intros x. rewrite Hin. simpl.
    apply oneOfString_In in M. split; [tauto|]. intros [?|[<-|?]]; tauto.
  - destruct (IH (keep ++ [name])) as (n & Hin & Hl & Hd). exists (S n). split; [|split].
    + intros x. rewrite Hin, in_app_iff. simpl. tauto.
    + intros _. apply Hl. rewrite length_app. simpl. lia.
    + intros Hk. apply Hd, NoDup_app. split; [done|]. split; [|apply NoDup_singleton].
      intros x Hx ->%list_elem_of_singleton. apply list_elem_of_In, oneOfString_In in Hx. congruence.
Qed.

Lemma remove_releases_ok names s a s' q :
  remove_releases names s = (Ok a, s') -> In q names -> releases (disk s') !! q = None.
Proof.
  revert s. induction names as [|n names IH]; intros s Hr Hq; [done|]. cbn [remove_releases] in Hr. tx_step Hr.
  destruct (in_dec String.string_dec q names) as [Hin|Hout]; [by eapply IH|].
  rewrite (remove_releases_keeps _ _ _ _ q Hr Hout). destruct Hq as [->|]; [|done]. by rewrite (RemoveAll_ok _ _ _ _ Hm), lookup_delete_eq.
Qed.

Lemma prune_ok tie current s s' :
  prune tie current s = (Ok tt, s') ->
  forall q, releases (disk s') !! q = if oneOfString q (doomed tie current (releases (disk s))) then None else releases (disk s) !! q.
Proof.
  intros Hr q. destruct (oneOfString q _) eqn:D.
  - apply oneOfString_In in D. unfold prune in Hr. tx_step Hr. apply sys_ok, query_ok in Hm. injection Hm as <-. by eapply remove_releases_ok.
  - eapply prune_keeps; [exact Hr|]. intros Hin%oneOfString_In. congruence.
Qed.

(** The release [name], with its time. *)
Definition release_at (rs : gmap string entry) (name : string) (t : Z) : Prop :=
  validVersion name = true /\ exists ms, rs !! name = Some (Release ms t).

Lemma release_times_In rs name t : In (name, t) (release_times rs) <-> release_at rs name t.
Proof.
  unfold release_times, release_at. rewrite <- list_elem_of_In, list_elem_of_omap. split.
  - intros ([k e] & Hk%elem_of_map_to_list & He). destruct e as [ms t'| |]; simpl in He; try done.
    case_match eqn:V; [|done]. injection He as <- <-. eauto.
  - intros (V & ms & E). exists (name, Release ms t). split; [by apply elem_of_map_to_list|]. simpl. by rewrite V.
Qed.

(** Of two releases, one among the first [n] by age and one behind them, the
    first is not older. *)
Lemma newest_first_order tie rs n a b ta tb :
  In a (take n (newest_first tie rs)) -> In b (newest_first tie rs) -> ~ In b (take n (newest_first tie rs)) ->
  release_at rs a ta -> release_at rs b tb -> tb <= ta.
Proof.
  unfold newest_first. set (key := fun x : string * Z => _). set (l := order_by key (release_times rs)). intros Ha Hb Hnb Ra Rb.
  assert (forall x tx, In x (map fst l) -> release_at rs x tx -> forall t', In (x, t') l -> t' = tx) as Huniq.
  { intros x tx _ (_ & ms & E) t' Hin. apply order_by_In, release_times_In in Hin as (_ & ms' & E'). congruence. }
  rewrite <- firstn_map in Ha, Hnb || rewrite firstn_map in Ha, Hnb. apply in_map_iff in Ha as ([a' ta'] & E & Ha). simpl in E. subst a'.
  apply in_map_iff in Hb as ([b' tb'] & E & Hb). simpl in E. subst b'.
  assert (In (b, tb') (drop n l)) as Hd.
  { rewrite <- (take_drop n l) in Hb. apply in_app_iff in Hb as [Hb|]; [|done]. destruct Hnb. apply in_map_iff. by exists (b, tb'). }
  pose proof (sorted_take_drop _ n l _ _ (order_by_sorted key _) Ha Hd) as Hle.
  assert (In (a, ta') l) as Hal by (rewrite <- (take_drop n l); apply in_app_iff; by left).
  rewrite (Huniq a ta (in_map fst _ _ Hal) Ra _ Hal), (Huniq b tb (in_map fst _ _ Hb) Rb _ Hb) in Hle.
  unfold key_le, lex_le, key in Hle. simpl in Hle. lia.
Qed.

(** Retention: what [prune] leaves is at most three releases, the current
    one among those it never touches; what it removes are releases, none newer
    than one it keeps beside the current one; and nothing else in the release
    directory changes. *)
Theorem retention_keeps_newest tie current s s' :
  prune tie current s = (Ok tt, s') ->
  let rs := releases (disk s) in
  let rs' := releases (disk s') in
  (exists kept, NoDup kept /\ (length kept <= 3)%nat /\ In current kept /\ forall q t, release_at rs' q t -> In q kept) /\
  (forall q, rs' !! q = rs !! q \/ (rs' !! q = None /\ q <> current /\ exists t, release_at rs q t)) /\
  (forall removed kept t t', release_at rs removed t -> rs' !! removed = None -> release_at rs' kept t' -> kept <> current -> t <= t').
Proof.
  intros Hr. cbv zeta. pose proof (prune_ok _ _ _ _ Hr) as P. set (rs := releases (disk s)) in *. set (rs' := releases (disk s')) in *.
  assert (forall q, In q (doomed tie current rs) <-> In q (newest_first tie rs) /\ ~ In q (keep_newest [current] (newest_first tie rs))) as D.
  { intros q. unfold doomed. rewrite filter_In, negb_true_iff, <- not_true_iff_false, oneOfString_In. done. }
  destruct (keep_newest_prefix [current] (newest_first tie rs)) as (n & Hk & Hl & Hd).
  assert (forall q t, release_at rs' q t -> release_at rs q t /\ ~ In q (doomed tie current rs)) as Hback.
  { intros q t (V & ms & E). rewrite P in E. destruct (oneOfString q _) eqn:O; [done|]. split; [split; eauto|].
    intros Hin%oneOfString_In. congruence. }
  assert (forall q t, release_at rs q t -> In q (newest_first tie rs)) as Hin by (intros q t (V & ms & E); apply newest_In; eauto).
  split; [|split].
  - exists (keep_newest [current] (newest_first tie rs)). split; [apply Hd, NoDup_singleton|]. split; [apply Hl; simpl; lia|].
    split; [apply Hk; left; by left|]. intros q t Hq. apply Hback in Hq as [Hq Hnd].
    destruct (in_dec String.string_dec q (keep_newest [current] (newest_first tie rs))) as [|Hno]; [done|]. destruct Hnd. apply D. eauto.
  - intros q. rewrite P. destruct (oneOfString q _) eqn:O; [|by left]. right. apply oneOfString_In in O. split; [done|].
    split; [intros ->; by eapply doomed_not_current|]. apply D in O as [(V & ms & t & E)%newest_In _]. exists t. split; eauto.
  - intros x k t t' Hx Hgone Hkept Hne. apply Hback in Hkept as [Hkr Hknd].
    assert (In x (doomed tie current rs)) as Hxd.
    { apply oneOfString_In. destruct (oneOfString x _) eqn:O; [done|]. rewrite P, O in Hgone. destruct Hx as (_ & ms & E). congruence. }
    apply D in Hxd as [Hxn Hxk]. rewrite Hk in Hxk.
    eapply (newest_first_order tie rs n k x); [|done|tauto|done|done].
    destruct (in_dec String.string_dec k (keep_newest [current] (newest_first tie rs))) as [Hi|Hno].
    + apply Hk in Hi as [[->|[]]|]; done.
    + destruct Hknd. apply D. eauto.
Qed.
