(* ===== verification/WardenRuns.v ===== *)
(** * The release updater: concrete runs

    A small release service (one host, one hash, one bundle), the updates it
    leads to, and two runs that show what the updater does not do. *)

From Stdlib Require Import ZArith Lia Bool Ascii String.
From stdpp Require Import base tactics list strings gmap.
From S2P Require Import Prelude GoStrings GoText CoreTopology GoFiles Warden WardenFacts WardenTheorems WardenRollback.

Local Open Scope string_scope.
Local Open Scope list_scope.
Local Open Scope bool_scope.
Local Open Scope Z_scope.

(** ** The service *)

Definition web_url (host : string) : URL := mkURL "https" host host "" false "" "" "".
Definition probe_url : URL := mkURL "http" "localhost" "localhost" "" false "" "" "/healthz".

Definition hex_text (c : ascii) : string := of_bytes (repeat c 64).

Definition the_bundle : Bytes := bytes "bundle".

Definition tar_file (name : string) : tarEntry := mkEntry name true 3 (bytes "elf").

Definition published (tag : string) : releasePayload :=
  mkRelease tag [mkAsset "checksums.txt" "https://dl/checksums"; mkAsset ("swarmops-agent_" ++ tag ++ "_linux_amd64.tar.gz") "https://dl/bundle"].

Definition small_lib : WardenLib := {|
  parseURL := fun s => if (s =? "http://localhost/healthz")%string then Some probe_url
                       else if HasPrefix s "https://" then Some (web_url "api") else None;
  PathEscape := fun s => s;
  sha256_hex := fun b => if beq b the_bundle then hex_text "a"%char else hex_text "b"%char;
  decode_release := fun b => Some (published (of_bytes b));
  encode_status := fun st => st_State st;
  decode_status := fun s => None;
  untar := fun b => if beq b the_bundle then Some ([tar_file "swarmops-agent"; tar_file "./swarmops-warden"], true) else None |}.

Definition sums (tag : string) : Bytes :=
  bytes (hex_text "A"%char ++ "  *swarmops-agent_" ++ tag ++ "_linux_amd64.tar.gz" ++ of_bytes [newline])%string.

Definition answers (body : Bytes) : option answer := Some (mkAnswer [] 200 (blen body) body).

(** Every request for metadata answers [tag]. *)
Definition serves (tag : string) (url : string) : option answer :=
  if (url =? "https://dl/checksums")%string then answers (sums tag)
  else if (url =? "https://dl/bundle")%string then answers the_bundle
  else answers (bytes tag).

Definition run_config : Config :=
  mkConfig "" "agent" "/opt/releases" "http://localhost/healthz" "" "/run/request" "/run/status" "" 3 1 true "" "".

Definition run_inputs : Inputs := mkInputs "linux" "amd64" 100 ["7"] (fun _ => 0).

Definition old_members : list member := [mkMember "swarmops-agent" 493 (bytes "old")].

Definition installed_v1 : gmap string entry := <["current" := Link "v1"]> (<["v1" := Release old_members 10]> ∅).

Definition answer_in (t : Z) (status : Z) : probe := mkProbe t (Some status) None.

(** The endpoint is healthy at the second probe of the first wait. *)
Definition healthy_probes : list (list probe) := [[mkProbe 0 None None; answer_in 0 200]; [answer_in 0 200]].
(** The candidate never is; the previous release is at once. *)
Definition sick_probes : list (list probe) := [[answer_in 1 503; answer_in 0 503]; [answer_in 0 200]].

Definition machine (rs : gmap string entry) (request : option string) (h : list (list probe)) : Machine :=
  mkMachine rs (match request with Some t => <["/run/request" := TextFile t]> ∅ | None => ∅ end) (Some "v1") [] h.

Definition run_update (tag : string) (m : Machine) (fs : list fate) : (Result * option werr) * os Machine :=
  Update (H := small_lib) (serves tag) run_config run_inputs "" (mkOS m fs).

(** What a run reports, what is linked and running afterwards, and the entries. *)
Definition outcome (o : (Result * option werr) * os Machine) : (Result * option werr) * (option string * option string) * list string :=
  (fst o, (installed (disk (snd o)), running (disk (snd o))), map fst (map_to_list (releases (disk (snd o))))).

Definition sick : werr := Msg "health endpoint returned another status".

Definition v1_machine := machine installed_v1 None.

(** ** Runs *)

(** A release that becomes healthy is switched to; one that does not is rolled
    back; one whose tag is installed is left. *)
Example updates_end_as_expected :
  outcome (run_update "v2" (v1_machine healthy_probes) []) =
    ((mkResult "v2" true false false, None), (Some "v2", Some "v2"), ["current"; "v1"; "v2"]) /\
  outcome (run_update "v2" (v1_machine sick_probes) []) =
    ((mkResult "v2" false true false, Some (Unhealthy sick [])), (Some "v1", Some "v1"), ["current"; "v1"]) /\
  outcome (run_update "v1" (v1_machine []) []) =
    ((mkResult "v1" false false false, None), (Some "v1", Some "v1"), ["current"; "v1"]).
Proof. vm_compute. done. Qed.

Lemma v1_installed h : installation (v1_machine h) "v1" old_members 10.
Proof. by split. Qed.

(** A kill in the middle of the switch. *)
Definition killed_switching : list fate := repeat Proceeds 23 ++ [Dies 0].

Lemma current_release_survives_witness :
  installation (v1_machine healthy_probes) "v1" old_members 10 /\
  Forall no_failure killed_switching /\
  let m := disk (snd (run_update "v2" (v1_machine healthy_probes) killed_switching)) in
  ((links_to m "v1" /\ releases m !! "v1" = Some (Release old_members 10)) \/
   (exists config', normalize (H := small_lib) "linux" "amd64" run_config = Ok config' /\
      survives (H := small_lib) (serves "v2") config' (asked config' "" (v1_machine healthy_probes)) m "v1" old_members 10)).
Proof.
  split; [apply v1_installed|]. assert (Forall no_failure killed_switching) as Hf by (by vm_compute; repeat constructor).
  split; [done|]. cbv zeta.
  pose proof (current_release_survives (H := small_lib) (serves "v2") run_config run_inputs "" (mkOS (v1_machine healthy_probes) killed_switching)
                "v1" old_members 10 (v1_installed _)) as T.
  unfold run_update. destruct (Update (H := small_lib) _ _ _ _ _) as [[res err] s']. simpl in *. apply T. by left.
Defined.

Lemma rollback_restores_release_witness :
  restored (mkOS (v1_machine sick_probes) []) (snd (run_update "v2" (v1_machine sick_probes) [])) "v1".
Proof.
  apply (rollback_restores_release (H := small_lib) (serves "v2") run_config run_inputs "" (mkOS (v1_machine sick_probes) [])
           (mkResult "v2" false true false) sick (snd (run_update "v2" (v1_machine sick_probes) [])) "v1" old_members 10).
  - apply v1_installed.
  - vm_compute. reflexivity.
  - reflexivity.
  - reflexivity.
Defined.

Lemma health_wait_decides_witness :
  let probes := [answer_in 2 503; answer_in (4 * second) 200; answer_in 2 200] in
  let '(r, ended) := waitForHealth (H := small_lib) "http://localhost/healthz" (9 * second) (3 * second) probes in
  r <> Err (Msg "out of fuel") /\ (r = Ok tt <-> exists k, healthy_at (9 * second) (3 * second) 0 probes k) /\
  (r = Ok tt -> ended < 9 * second + client_timeout (3 * second)) /\
  (ended < 9 * second + client_timeout (3 * second) + 3 * second \/ ended = 0).
Proof.
  intros probes. exact (health_wait_decides (H := small_lib) "http://localhost/healthz" (9 * second) (3 * second) probes ltac:(done) ltac:(done)).
Defined.

(** An answer that takes longer than the client waits does not count; the third
    probe would start after a deadline of nine seconds, and before one of ten. *)
Example slow_answer_does_not_count :
  waitForHealth (H := small_lib) "http://localhost/healthz" (9 * second) (3 * second) [answer_in 2 503; answer_in (4 * second) 200; answer_in 2 200]
    = (Err (Msg "health request failed"), 9 * second + 2) /\
  waitForHealth (H := small_lib) "http://localhost/healthz" (10 * second) (3 * second) [answer_in 2 503; answer_in (4 * second) 200; answer_in 2 200]
    = (Ok tt, 9 * second + 4).
Proof. split; vm_compute; reflexivity. Qed.

(** Four releases, the current one being the oldest. *)
Definition four_releases : gmap string entry :=
  <["v2" := Release [] 20]> (<["v3" := Release [] 30]> (<["v4" := Release [] 40]> installed_v1)).

Lemma retention_keeps_newest_witness :
  let s' := snd (prune (fun _ => 0) "v1" (mkOS (machine four_releases None []) [])) in
  prune (fun _ => 0) "v1" (mkOS (machine four_releases None []) []) = (Ok tt, s') /\
  releases (disk s') !! "v2" = None /\
  exists kept, NoDup kept /\ (length kept <= 3)%nat /\ In "v1" kept /\ forall q t, release_at (releases (disk s')) q t -> In q kept.
Proof.
  cbv zeta. split; [by vm_compute|]. split; [by vm_compute|].
  apply (retention_keeps_newest (fun _ => 0) "v1" (mkOS (machine four_releases None []) [])). by vm_compute.
Defined.

(** ** What the updater does not do *)

(** An I/O error while a rollback restores the link: the candidate is removed
    all the same, the link dangles, nothing runs, and no later update gets past
    reading the installed release. *)
Definition after_failed_restore : Machine :=
  disk (snd (run_update "v2" (v1_machine sick_probes) (repeat Proceeds 30 ++ [Fails 0]))).

Lemma failed_restore_removes_linked_release :
  installed after_failed_restore = Some "v2" /\ releases after_failed_restore !! "v2" = None /\ running after_failed_restore = None /\
  outcome (run_update "v3" after_failed_restore []) =
    ((no_result, Some (During "read installed release" (Os "stat" ErrNotExist))), (Some "v2", None), ["current"; "v1"]).
Proof. vm_compute. done. Qed.

(** A request for the release that was installed before, and is retained, is
    refused: it cannot be unpacked beside itself. *)
Definition after_update : Machine := disk (snd (run_update "v2" (v1_machine healthy_probes) [])).
Definition asks_for_v1 : Machine := with_markers (fun ms => <["/run/request" := TextFile "version=v1"]> ms) after_update.

Lemma retained_release_not_restored :
  outcome (run_update "v1" asks_for_v1 []) =
    ((no_result, Some (During "stage release" (Msg "release directory already exists"))), (Some "v2", Some "v2"), ["current"; "v1"; "v2"]).
Proof. vm_compute. done. Qed.

(** A kill between unpacking and switching: the release cannot be installed by
    a later update either. *)
Definition after_kill : Machine := disk (snd (run_update "v2" (v1_machine healthy_probes) (repeat Proceeds 19 ++ [Dies 0]))).

Lemma interrupted_release_not_retried :
  outcome (run_update "v2" after_kill []) =
    ((no_result, Some (During "stage release" (Msg "release directory already exists"))), (Some "v1", Some "v1"), ["current"; "v1"; "v2"]).
Proof. vm_compute. done. Qed.
