(* ===== verification/GoNumbers.v ===== *)
(** * Numbers in text: strconv.Atoi, ParseFloat and FormatFloat

    A finite float64 is a multiple of [2 ^ -1074], the least positive one.
    Decimal and hexadecimal texts are read exactly and rounded once, to nearest
    with ties to even; [FormatFloat(f, 'f', -1, 64)] gives the fewest digits
    that are read back as [f]. *)

From Stdlib Require Import ZArith Lia Bool Ascii String.
From stdpp Require Import base tactics list strings.
From S2P Require Import Prelude GoStrings GoText.

Local Open Scope string_scope.
Local Open Scope list_scope.
Local Open Scope bool_scope.
Local Open Scope Z_scope.

(** ** [strconv.Atoi] *)

Definition all_digits (l : list ascii) : bool := match l with [] => false | _ => forallb digit l end.

Definition signed (l : list ascii) : bool * list ascii :=
  match l with
  | c :: l' => if Ascii.eqb c "-"%char then (true, l') else if Ascii.eqb c "+"%char then (false, l') else (false, l)
  | [] => (false, [])
  end.

Definition Atoi (s : string) : option Z :=
  let '(neg, l) := signed (bytes s) in
  if all_digits l then
    let n := if neg then - value_of l else value_of l in
    if (- 2 ^ 63 <=? n) && (n <? 2 ^ 63) then Some n else None
  else None.

(** ** float64 *)

(** [Fin neg n] is [n * 2 ^ -1074], negated when [neg]. *)
Inductive float64 := NaN | Inf (neg : bool) | Fin (neg : bool) (n : Z).

(** [f > 0] and [f <= 0]; neither holds of NaN. *)
Definition is_positive (f : float64) : bool := match f with Inf false => true | Fin false n => 0 <? n | _ => false end.
Definition not_positive (f : float64) : bool :=
  match f with NaN => false | Inf neg => neg | Fin neg n => neg || (n =? 0) end.

Definition half_even (num den : Z) : Z :=
  let f := num / den in
  let r := num mod den in
  if 2 * r <? den then f else if den <? 2 * r then f + 1 else if Z.even f then f else f + 1.

(** The nearest multiple that a float64 can hold: 53 significant bits, and
    nothing from [2 ^ 1024] on. *)
Definition round_units (num den : Z) : option Z :=
  let step := 2 ^ Z.max 0 (Z.log2 (num / den) - 52) in
  let n := half_even num (den * step) * step in
  if n <? 2 ^ 2098 then Some n else None.

Definition scale_up (f : float64) (k : Z) : float64 :=
  match f with
  | Fin neg n => let n' := n * 2 ^ k in if n' <? 2 ^ 2098 then Fin neg n' else Inf neg
  | _ => f
  end.

Definition scale_down (f : float64) (k : Z) : float64 :=
  match f with
  | Fin neg n => match round_units n (2 ^ k) with Some n' => Fin neg n' | None => Inf neg end
  | _ => f
  end.

(** ** [strconv.ParseFloat(s, 64)] *)

Definition special (s : string) : option float64 :=
  let l := of_bytes (map lower_ascii (bytes s)) in
  if (l =? "nan")%string then Some NaN
  else if oneOfString l ["inf"; "+inf"; "infinity"; "+infinity"] then Some (Inf false)
  else if oneOfString l ["-inf"; "-infinity"] then Some (Inf true)
  else None.

Definition digit_value (hex : bool) (c : ascii) : option Z :=
  if digit c then Some (code c - 48)
  else if hex && between 97 102 (code (lower_ascii c)) then Some (code (lower_ascii c) - 87) else None.

(** The digits: the mantissa, how many digits follow the point, whether there
    was a point, a digit, an underscore. *)
Record digits_state := mkDigits { mant : Z; after : Z; sawdot : bool; sawdigits : bool; sawline : bool }.

Fixpoint scan (hex : bool) (l : list ascii) (st : digits_state) : digits_state * list ascii :=
  match l with
  | [] => (st, [])
  | c :: l' =>
      if Ascii.eqb c "_"%char then scan hex l' (mkDigits (mant st) (after st) (sawdot st) (sawdigits st) true)
      else if Ascii.eqb c "."%char then
        if sawdot st then (st, l) else scan hex l' (mkDigits (mant st) (after st) true (sawdigits st) (sawline st))
      else match digit_value hex c with
      | Some d => scan hex l' (mkDigits (mant st * (if hex then 16 else 10) + d) (if sawdot st then after st + 1 else after st)
                                 (sawdot st) true (sawline st))
      | None => (st, l)
      end
  end.

(** The digits of an exponent; it stops growing at 10000. *)
Fixpoint scan_exponent (l : list ascii) (e : Z) (line : bool) : Z * bool * list ascii :=
  match l with
  | c :: l' =>
      if Ascii.eqb c "_"%char then scan_exponent l' e true
      else if digit c then scan_exponent l' (if e <? 10000 then e * 10 + (code c - 48) else e) line
      else (e, line, l)
  | [] => (e, line, [])
  end.

Definition exponent (hex : bool) (l : list ascii) : option (Z * bool * list ascii) :=
  match l with
  | c :: l' =>
      if Ascii.eqb (lower_ascii c) (if hex then "p"%char else "e"%char) then
        let '(neg, l2) := signed l' in
        match l2 with
        | d :: _ => if digit d then let '(e, line, rest) := scan_exponent l2 0 false in Some (if neg then - e else e, line, rest) else None
        | [] => None
        end
      else if hex then None else Some (0, false, l)
  | [] => if hex then None else Some (0, false, [])
  end.

(** Underscores only between digits; a base prefix counts as a digit. *)
Fixpoint lines_ok (hex : bool) (saw : ascii) (l : list ascii) : bool :=
  match l with
  | [] => negb (Ascii.eqb saw "_"%char)
  | c :: l' =>
      match digit_value hex c with
      | Some _ => lines_ok hex "0"%char l'
      | None =>
          if Ascii.eqb c "_"%char then Ascii.eqb saw "0"%char && lines_ok hex "_"%char l'
          else negb (Ascii.eqb saw "_"%char) && lines_ok hex "!"%char l'
      end
  end.

Definition underscoreOK (l : list ascii) : bool :=
  let l := snd (signed l) in
  match l with
  | z :: x :: l' =>
      if Ascii.eqb z "0"%char && any_of "bBoOxX" x then lines_ok (any_of "xX" x) "0"%char l' else lines_ok false "^"%char l
  | _ => lines_ok false "^"%char l
  end.

(** [num / den] as a multiple of [2 ^ -1074], of [m * base ^ p]. *)
Definition units (base m p : Z) : Z * Z := if 0 <=? p then (m * base ^ p * 2 ^ 1074, 1) else (m * 2 ^ 1074, base ^ (- p)).

Definition readFloat (s : string) : option float64 :=
  let '(neg, l) := signed (bytes s) in
  let '(hex, l) := match l with
                   | z :: x :: c :: l' => if Ascii.eqb z "0"%char && any_of "xX" x then (true, c :: l') else (false, l)
                   | _ => (false, l)
                   end in
  let '(st, l) := scan hex l (mkDigits 0 0 false false false) in
  if negb (sawdigits st) then None
  else match exponent hex l with
  | Some (e, line, []) =>
      if (sawline st || line) && negb (underscoreOK (bytes s)) then None
      else if mant st =? 0 then Some (Fin neg 0)
      else
        let '(num, den) := if hex then units 2 (mant st) (e - 4 * after st) else units 10 (mant st) (e - after st) in
        match round_units num den with Some n => Some (Fin neg n) | None => None end
  | _ => None
  end.

Definition ParseFloat (s : string) : option float64 :=
  match special s with Some f => Some f | None => readFloat s end.

(** ** [strconv.FormatFloat(f, 'f', -1, 64)] for a positive [f] *)

(** [n * 2 ^ -1074] as [odd * 2 ^ -k] with the least [k]. *)
Fixpoint reduce (k : nat) (n : Z) : Z * nat :=
  match k with
  | O => (n, O)
  | S k' => if Z.even n then reduce k' (Z.div2 n) else (n, k)
  end.

Definition keep_digits (count : Z) (m : Z) : Z :=
  let d := len (decimal m) in
  if d <=? count then m else half_even m (10 ^ (d - count)) * 10 ^ (d - count).

(** [m * 10 ^ -k] is read as [n]. *)
Definition reads_back (n m : Z) (k : nat) : bool :=
  match round_units (m * 2 ^ 1074) (10 ^ Z.of_nat k) with Some n' => n' =? n | None => false end.

(** The exact value is [exact * 10 ^ -k]. *)
Fixpoint shortest (fuel : nat) (count n exact : Z) (k : nat) : Z :=
  match fuel with
  | O => exact
  | S fuel' => let m := keep_digits count exact in if reads_back n m k then m else shortest fuel' (count + 1) n exact k
  end.

Fixpoint frac_digits (k : nat) (f : Z) (acc : list ascii) : list ascii :=
  match k with
  | O => acc
  | S k' => frac_digits k' (f / 10) (chr (48 + f mod 10) :: acc)
  end.

Definition zero_char : ascii := "0"%char.
Definition trim_zeros (l : list ascii) : list ascii := rev (drop_char zero_char (rev l)).

(** [m * 10 ^ -k] in decimal. *)
Definition fixed (m : Z) (k : nat) : string :=
  let whole := decimal (m / 10 ^ Z.of_nat k) in
  match trim_zeros (frac_digits k (m mod 10 ^ Z.of_nat k) []) with
  | [] => whole
  | l => (whole ++ "." ++ of_bytes l)%string
  end.

Definition FormatFloat (n : Z) : string :=
  let '(odd, k) := reduce 1074 n in
  let exact := odd * 5 ^ Z.of_nat k in
  fixed (shortest (String.length (decimal exact)) 1 n exact k) k.

(** ** Reading decimals *)

Lemma digit_code c : digit c = true -> 48 <= code c <= 57.
Proof. unfold digit, between. lia. Qed.

Lemma digit_chr d : 0 <= d < 10 -> digit (chr (48 + d)) = true /\ code (chr (48 + d)) = 48 + d.
Proof.
  intros Hd. assert (d = 0 \/ d = 1 \/ d = 2 \/ d = 3 \/ d = 4 \/ d = 5 \/ d = 6 \/ d = 7 \/ d = 8 \/ d = 9) as Hc by lia.
  by repeat (destruct Hc as [->|Hc]; [done|]); subst.
Qed.

Lemma value_of_app l m : value_of (l ++ m) = value_of l * 10 ^ Z.of_nat (length m) + value_of m.
Proof.
  induction m as [|c m IH] using rev_ind; [rewrite app_nil_r; simpl; unfold value_of; simpl; lia|].
  assert (forall k x, value_of (k ++ [x]) = 10 * value_of k + (code x - 48)) as Hs by (intros; unfold value_of; by rewrite fold_left_app).
  rewrite app_assoc, !Hs, IH, length_app. simpl.
  replace (Z.of_nat (length m + 1)) with (Z.of_nat (length m) + 1) by lia. rewrite Z.pow_add_r by lia. lia.
Qed.

Lemma value_of_one c : value_of [c] = code c - 48.
Proof. unfold value_of. simpl. lia. Qed.

Lemma decimal_aux_digits fuel n acc :
  0 <= n < 2 ^ Z.of_nat fuel -> (0 < fuel)%nat ->
  exists l, bytes (decimal_aux fuel n acc) = l ++ bytes acc /\ l <> [] /\ forallb digit l = true /\ value_of l = n.
Proof.
  revert n acc. induction fuel as [|fuel IH]; intros n acc Hn Hf; [lia|]. cbn [decimal_aux].
  pose proof (Z.mod_pos_bound n 10 ltac:(lia)) as Hm. destruct (digit_chr _ Hm) as [Hd Hc].
  destruct (Z.ltb_spec n 10) as [Hlt|Hge].
  - exists [chr (48 + n mod 10)]. split; [done|]. split; [done|]. split; [simpl; by rewrite Hd|]. rewrite value_of_one, Hc, Z.mod_small; lia.
  - destruct fuel as [|fuel]; [simpl in Hn; lia|].
    destruct (IH (n / 10) (String (chr (48 + n mod 10)) acc)) as (l & E & Hne & Hl & Hv); [|lia|].
    { split; [apply Z.div_pos; lia|]. apply Z.div_lt_upper_bound; [lia|].
      replace (Z.of_nat (S (S fuel))) with (Z.of_nat (S fuel) + 1) in Hn by lia. rewrite Z.pow_add_r in Hn by lia. lia. }
    exists (l ++ [chr (48 + n mod 10)]). split; [rewrite E, <- app_assoc; done|]. split; [by destruct l|].
    split; [rewrite forallb_app, Hl; simpl; by rewrite Hd|]. rewrite value_of_app, value_of_one, Hc, Hv. simpl.
    pose proof (Z.div_mod n 10). lia.
Qed.

(** Decimal text is digits whose value is the number. *)
Lemma decimal_digits n : 0 <= n -> bytes (decimal n) <> [] /\ forallb digit (bytes (decimal n)) = true /\ value_of (bytes (decimal n)) = n.
Proof.
  intros Hn. unfold decimal. destruct (decimal_aux_digits (S (Z.to_nat (Z.log2 n))) n "") as (l & E & H1 & H2 & H3); [|lia|].
  - split; [done|]. destruct (Z.eq_dec n 0) as [->|Hz]; [done|]. pose proof (Z.log2_nonneg n).
    replace (Z.of_nat (S (Z.to_nat (Z.log2 n)))) with (Z.succ (Z.log2 n)) by lia. apply Z.log2_spec. lia.
  - rewrite E. simpl. by rewrite app_nil_r.
Qed.

Lemma signed_digit c l : digit c = true -> signed (c :: l) = (false, c :: l).
Proof.
  intros Hc. unfold signed. destruct (Ascii.eqb_spec c "-"%char) as [->|]; [by vm_compute in Hc|].
  destruct (Ascii.eqb_spec c "+"%char) as [->|]; [by vm_compute in Hc|done].
Qed.

(** The decimal text of an integer is read back. *)
Lemma Atoi_decimal n : 0 <= n < 2 ^ 63 -> Atoi (decimal n) = Some n.
Proof.
  intros Hn. destruct (decimal_digits n) as (Hne & Hd & Hv); [lia|]. unfold Atoi. destruct (bytes (decimal n)) as [|c l] eqn:E; [done|].
  assert (signed (c :: l) = (false, c :: l)) as ->.
  { simpl in Hd. apply andb_prop in Hd as [Hc _]. by apply signed_digit. }
  unfold all_digits. rewrite Hd, Hv. replace (- 2 ^ 63 <=? n) with true by (symmetry; apply Z.leb_le; lia).
  by replace (n <? 2 ^ 63) with true by (symmetry; apply Z.ltb_lt; lia).
Qed.

Lemma frac_digits_spec k f acc :
  0 <= f < 10 ^ Z.of_nat k ->
  exists l, frac_digits k f acc = l ++ acc /\ length l = k /\ forallb digit l = true /\ value_of l = f.
Proof.
  revert f acc. induction k as [|k IH]; intros f acc Hf; cbn [frac_digits].
  - exists []. split; [done|]. split; [done|]. split; [done|]. change (10 ^ Z.of_nat 0) with 1 in Hf. unfold value_of. simpl. lia.
  - pose proof (Z.mod_pos_bound f 10 ltac:(lia)) as Hm. destruct (digit_chr _ Hm) as [Hd Hc].
    destruct (IH (f / 10) (chr (48 + f mod 10) :: acc)) as (l & E & Hl & Hdl & Hv).
    { split; [apply Z.div_pos; lia|]. apply Z.div_lt_upper_bound; [lia|].
      replace (Z.of_nat (S k)) with (Z.of_nat k + 1) in Hf by lia. rewrite Z.pow_add_r in Hf by lia. lia. }
    exists (l ++ [chr (48 + f mod 10)]). split; [by rewrite E, <- app_assoc|]. split; [rewrite length_app; simpl; lia|].
    split; [rewrite forallb_app, Hdl; simpl; by rewrite Hd|]. rewrite value_of_app, value_of_one, Hc, Hv. simpl.
    pose proof (Z.div_mod f 10). lia.
Qed.

Lemma trim_zeros_spec l : exists j, l = trim_zeros l ++ repeat zero_char j.
Proof.
  unfold trim_zeros. assert (forall m, exists j, m = repeat zero_char j ++ drop_char zero_char m) as Hd.
  { induction m as [|c m [j IH]]; [by exists O|]. cbn [drop_char]. destruct (Ascii.eqb_spec c zero_char) as [->|]; [|by exists O].
    exists (S j). simpl. by rewrite <- IH. }
  destruct (Hd (rev l)) as [j E]. exists j. rewrite <- (rev_involutive l) at 1. rewrite E at 1. rewrite rev_app_distr. f_equal.
  clear. induction j as [|j IH]; [done|]. simpl. rewrite IH. clear. induction j as [|j IH]; [done|]. simpl. by rewrite <- IH.
Qed.

Lemma value_of_zeros j : value_of (repeat zero_char j) = 0.
Proof. unfold value_of. induction j as [|j IH]; [done|]. exact IH. Qed.

Lemma scan_digits l rest m a dot sd ln :
  forallb digit l = true ->
  scan false (l ++ rest) (mkDigits m a dot sd ln) =
  scan false rest (mkDigits (m * 10 ^ Z.of_nat (length l) + value_of l) (if dot then a + Z.of_nat (length l) else a) dot
                     (match l with [] => sd | _ => true end) ln).
Proof.
  revert m a sd. induction l as [|c l IH]; intros m a sd Hd.
  { simpl. unfold value_of. simpl. destruct dot; repeat f_equal; lia. }
  simpl in Hd. apply andb_prop in Hd as [Hc Hl]. pose proof (digit_code _ Hc). cbn [app scan].
  destruct (Ascii.eqb_spec c "_"%char) as [->|]; [by vm_compute in Hc|]. destruct (Ascii.eqb_spec c "."%char) as [->|]; [by vm_compute in Hc|].
  unfold digit_value. rewrite Hc. cbn [mant after sawdot sawline]. rewrite IH by done. f_equal.
  change (c :: l) with ([c] ++ l). rewrite value_of_app, value_of_one. cbn [app length].
  rewrite Nat2Z.inj_succ, Z.pow_succ_r by lia. f_equal; [lia|destruct dot; lia|by destruct l].
Qed.

(** ** Rounding *)

Lemma half_even_scale c num den : 0 < c -> 0 < den -> half_even (c * num) (c * den) = half_even num den.
Proof.
  intros Hc Hd. unfold half_even. rewrite Z.div_mul_cancel_l, Z.mul_mod_distr_l by lia.
  replace (2 * (c * (num mod den)) <? c * den) with (2 * (num mod den) <? den)
    by (destruct (Z.ltb_spec (2 * (num mod den)) den), (Z.ltb_spec (2 * (c * (num mod den))) (c * den)); try done; nia).
  by replace (c * den <? 2 * (c * (num mod den))) with (den <? 2 * (num mod den))
    by (destruct (Z.ltb_spec den (2 * (num mod den))), (Z.ltb_spec (c * den) (2 * (c * (num mod den)))); try done; nia).
Qed.

Lemma round_units_scale c num den : 0 < c -> 0 < den -> round_units (c * num) (c * den) = round_units num den.
Proof.
  intros Hc Hd. unfold round_units. rewrite Z.div_mul_cancel_l by lia. set (step := 2 ^ _).
  assert (0 < step) by (apply Z.pow_pos_nonneg; lia). rewrite <- Z.mul_assoc, half_even_scale by nia. done.
Qed.

(** Only the ratio counts. *)
Lemma round_units_ratio a b c d : 0 < b -> 0 < d -> a * d = c * b -> round_units a b = round_units c d.
Proof.
  intros Hb Hd E. rewrite <- (round_units_scale d a b), <- (round_units_scale b c d) by lia. f_equal; lia.
Qed.

Lemma round_units_zero d : 0 < d -> round_units 0 d = Some 0.
Proof.
  intros Hd. unfold round_units. set (step := 2 ^ _). assert (0 < step) by (apply Z.pow_pos_nonneg; lia).
  assert (half_even 0 (d * step) = 0) as ->; [|done]. unfold half_even. rewrite Zdiv_0_l, Zmod_0_l.
  by replace (2 * 0 <? d * step) with true by (symmetry; apply Z.ltb_lt; nia).
Qed.

(** [n] is what a float64 can hold. *)
Definition representable (n : Z) : Prop := 0 < n /\ round_units n 1 = Some n.

Lemma reduce_spec k n : let '(odd, j) := reduce k n in (j <= k)%nat /\ n = odd * 2 ^ Z.of_nat (k - j).
Proof.
  revert n. induction k as [|k IH]; intros n; cbn [reduce]; [split; [lia|]; simpl; lia|].
  destruct (Z.even n) eqn:E; [|split; [lia|]; rewrite Nat.sub_diag; simpl; lia].
  specialize (IH (Z.div2 n)). destruct (reduce k (Z.div2 n)) as [odd j]. destruct IH as [Hj Hn]. split; [lia|].
  replace (Z.of_nat (S k - j)) with (Z.of_nat (k - j) + 1) by lia. rewrite Z.pow_add_r by lia.
  rewrite Z.div2_div in Hn. apply Z.even_spec in E as [h ->]. rewrite Z.mul_comm, Z.div_mul in Hn by lia. lia.
Qed.

Lemma shortest_reads_back fuel count n exact k :
  reads_back n exact k = true -> reads_back n (shortest fuel count n exact k) k = true.
Proof.
  intros He. revert count. induction fuel as [|fuel IH]; intros count; cbn [shortest]; [done|]. cbv zeta.
  destruct (reads_back n (keep_digits count exact) k) eqn:R; [done|apply IH].
Qed.

Lemma half_even_nonneg num den : 0 <= num -> 0 < den -> 0 <= half_even num den.
Proof. intros. unfold half_even. pose proof (Z.div_pos num den). cbv zeta. repeat case_match; lia. Qed.

Lemma shortest_nonneg fuel count n exact k : 0 <= exact -> 0 <= shortest fuel count n exact k.
Proof.
  intros He. revert count. induction fuel as [|fuel IH]; intros count; cbn [shortest]; [done|]. cbv zeta.
  destruct (reads_back _ _ _); [|apply IH]. unfold keep_digits. cbv zeta. case_match; [done|].
  assert (0 <= 10 ^ (len (decimal exact) - count)) by (apply Z.pow_nonneg; lia).
  apply Z.leb_gt in H. pose proof (Z.pow_pos_nonneg 10 (len (decimal exact) - count) ltac:(lia) ltac:(lia)).
  pose proof (half_even_nonneg exact (10 ^ (len (decimal exact) - count))). nia.
Qed.

(** ** Reading what was written *)

(** Digits, a point and digits: the value they have. *)
Lemma read_fixed w f n :
  w <> [] -> forallb digit w = true -> forallb digit f = true -> 0 < value_of (w ++ f) ->
  round_units (value_of (w ++ f) * 2 ^ 1074) (10 ^ Z.of_nat (length f)) = Some n ->
  ParseFloat (match f with [] => of_bytes w | _ => of_bytes w ++ "." ++ of_bytes f end)%string = Some (Fin false n).
Proof.
  intros Hne Hw Hf Hpos Hr. set (s := match f with [] => _ | _ => _ end).
  assert (bytes s = w ++ match f with [] => [] | _ => "."%char :: f end) as Hs.
  { unfold s. destruct f as [|c f]; [by rewrite bytes_of_bytes, app_nil_r|]. rewrite !bytes_app, !bytes_of_bytes. done. }
  destruct w as [|c w]; [done|]. assert (digit c = true) as Hc by (simpl in Hw; by apply andb_prop in Hw as [? _]).
  assert (special s = None) as Hsp.
  { unfold special. rewrite Hs. cbn [app map].
    assert (lower_ascii c = c) as -> by (unfold lower_ascii; pose proof (digit_code _ Hc); replace (between 65 90 (code c)) with false; [done|]; symmetry; unfold between; lia).
    assert (forall x t l, digit x = false -> (of_bytes (c :: l) =? String x t)%string = false) as Hno.
    { intros x t l Hx. apply String.eqb_neq. intros [= -> _]. congruence. }
    unfold oneOfString. cbn [existsb]. by rewrite !Hno by done. }
  unfold ParseFloat. rewrite Hsp. unfold readFloat. rewrite Hs. cbn [app]. rewrite signed_digit by done.
  assert (match w ++ match f with [] => [] | _ => "."%char :: f end with
          | x :: c2 :: l' => if Ascii.eqb c "0"%char && any_of "xX" x then (true, c2 :: l') else (false, c :: w ++ match f with [] => [] | _ => "."%char :: f end)
          | _ => (false, c :: w ++ match f with [] => [] | _ => "."%char :: f end)
          end = (false, c :: w ++ match f with [] => [] | _ => "."%char :: f end)) as ->.
  { destruct (w ++ _) as [|x [|c2 l']] eqn:E; [done..|]. replace (any_of "xX" x) with false; [by rewrite andb_false_r|]. symmetry.
    assert (digit x = true \/ x = "."%char) as [Hx| ->]; [| |done].
    - destruct w as [|y w']; [destruct f; [done|]; injection E as <- _; by right|]. injection E as <- _.
      simpl in Hw. apply andb_prop in Hw as [_ Hw]. apply andb_prop in Hw as [? _]. by left.
    - unfold any_of. apply not_true_iff_false. intros (z & Hz & E2%Ascii.eqb_eq)%existsb_exists. subst z.
      repeat (destruct Hz as [<-|Hz]; [by vm_compute in Hx|]). done. }
  rewrite (scan_digits (c :: w) _ 0 0 false false false Hw : scan false (c :: w ++ _) _ = _).
  assert (exists st, scan false match f with [] => [] | _ => "."%char :: f end
            (mkDigits (0 * 10 ^ Z.of_nat (length (c :: w)) + value_of (c :: w)) 0 false true false) = (st, []) /\
          sawdigits st = true /\ sawline st = false /\ mant st = value_of ((c :: w) ++ f) /\ after st = Z.of_nat (length f))
    as (st & Est & H1 & H2 & H3 & H4).
  { destruct f as [|d f].
    - eexists. split; [done|]. cbn [sawdigits sawline mant after]. rewrite app_nil_r. repeat split. 
    - set (mw := 0 * _ + _).
      assert (scan false ("."%char :: d :: f) (mkDigits mw 0 false true false) = scan false (d :: f) (mkDigits mw 0 true true false)) as -> by reflexivity.
      pose proof (scan_digits (d :: f) [] mw 0 true true false Hf) as Hsd. rewrite app_nil_r in Hsd. rewrite Hsd. cbn [scan]. unfold mw.
      eexists. split; [done|]. cbn [sawdigits sawline mant after]. rewrite value_of_app. repeat split; lia. }
  rewrite Est, H1. cbn [negb exponent]. rewrite H2. cbn [orb andb]. rewrite H3.
  replace (value_of ((c :: w) ++ f) =? 0) with false by (symmetry; apply Z.eqb_neq; lia). rewrite H4. unfold units.
  destruct (0 <=? 0 - Z.of_nat (length f)) eqn:Le.
  - apply Z.leb_le in Le. assert (Z.of_nat (length f) = 0) as E0 by lia. rewrite E0 in *. change (10 ^ (0 - 0)) with 1. change (10 ^ 0) with 1 in Hr. rewrite Z.mul_1_r. by rewrite Hr.
  - replace (- (0 - Z.of_nat (length f))) with (Z.of_nat (length f)) by lia. by rewrite Hr.
Qed.

(** What [FormatFloat] writes for a positive float64 is read back as it. *)
Theorem format_reads_back n : representable n -> ParseFloat (FormatFloat n) = Some (Fin false n).
Proof.
  intros [Hn Hrep]. unfold FormatFloat. pose proof (reduce_spec 1074 n) as Hred. destruct (reduce 1074 n) as [odd k]. destruct Hred as [Hk En].
  assert (0 < 2 ^ Z.of_nat (1074 - k)) as Hp2 by (apply Z.pow_pos_nonneg; lia).
  assert (0 < odd) as Hodd by nia. assert (0 < 5 ^ Z.of_nat k) as H5 by (apply Z.pow_pos_nonneg; lia).
  assert (0 < 10 ^ Z.of_nat k) as H10 by (apply Z.pow_pos_nonneg; lia).
  assert (reads_back n (odd * 5 ^ Z.of_nat k) k = true) as Hex.
  { unfold reads_back. rewrite (round_units_ratio _ _ n 1), Hrep, Z.eqb_refl; [done|done|lia|].
    rewrite En. replace 1074 with (Z.of_nat (1074 - k) + Z.of_nat k) at 1 by lia. rewrite Z.pow_add_r by lia.
    change 10 with (5 * 2). rewrite Z.pow_mul_l. lia. }
  set (m := shortest _ 1 n _ k). assert (reads_back n m k = true) as Hm by (by apply shortest_reads_back).
  assert (0 <= m) as Hm0 by (apply shortest_nonneg; nia). unfold reads_back in Hm.
  destruct (round_units (m * 2 ^ 1074) (10 ^ Z.of_nat k)) as [n'|] eqn:Hr; [|done]. apply Z.eqb_eq in Hm. subst n'.
  assert (0 < m) as Hmpos.
  { destruct (Z.eq_dec m 0) as [E0|]; [|lia]. rewrite E0, Z.mul_0_l, round_units_zero in Hr by done. injection Hr. lia. }
  clearbody m. unfold fixed. set (w := m / 10 ^ Z.of_nat k).
  pose proof (Z.mod_pos_bound m _ H10) as Hmod. assert (0 <= w) as Hw0 by (apply Z.div_pos; lia).
  destruct (decimal_digits w Hw0) as (Wne & Wd & Wv).
  destruct (frac_digits_spec k (m mod 10 ^ Z.of_nat k) [] Hmod) as (l & El & Ll & Ld & Lv). rewrite app_nil_r in El. rewrite El.
  destruct (trim_zeros_spec l) as [j Ej]. set (f := trim_zeros l) in *.
  assert (forallb digit f = true) as Fd by (rewrite Ej, forallb_app in Ld; by apply andb_prop in Ld as [? _]).
  assert (value_of (bytes (decimal w) ++ f) * 10 ^ Z.of_nat j = m) as Hval.
  { rewrite value_of_app, Wv. rewrite Ej, value_of_app, value_of_zeros, repeat_length in Lv.
    rewrite Ej, length_app, repeat_length in Ll. pose proof (Z.div_mod m (10 ^ Z.of_nat k)) as Hdm. fold w in Hdm.
    rewrite <- Ll, Nat2Z.inj_add, Z.pow_add_r in Hdm by lia. rewrite <- Ll, Nat2Z.inj_add, Z.pow_add_r in Lv by lia. nia. }
  assert (0 < 10 ^ Z.of_nat j) as H10j by (apply Z.pow_pos_nonneg; lia).
  pose proof (read_fixed (bytes (decimal w)) f n Wne Wd Fd) as Hread. rewrite of_bytes_bytes in Hread.
  assert (ParseFloat (match f with [] => decimal w | _ => decimal w ++ "." ++ of_bytes f end)%string = Some (Fin false n)) as Hgoal.
  { apply Hread; [nia|]. rewrite <- Hr. apply round_units_ratio; [apply Z.pow_pos_nonneg; lia|done|].
    rewrite Ej, length_app, repeat_length in Ll. rewrite <- Ll, Nat2Z.inj_add, Z.pow_add_r by lia. rewrite <- Hval. lia. }
  by destruct f.
Qed.
