(* ===== verification/GoYaml.v ===== *)
(** * Dynamic values, as decoded from YAML

    What [yaml.Unmarshal] puts in a [map[string]any]; the type assertions and
    helpers that the compose checks use on it; letter case folding; and checks in
    sequence, of which the first error is returned. *)

From Stdlib Require Import ZArith Lia Bool Ascii String.
From stdpp Require Import base tactics list strings gmap.
From S2P Require Import Prelude GoStrings GoText.

Local Open Scope string_scope.
Local Open Scope list_scope.
Local Open Scope bool_scope.
Local Open Scope Z_scope.

(** ** Values *)

(** [Scalar] is any other Go value (a number, a time, a map with other keys),
    given by what [fmt.Sprint] makes of it.  A mapping is in the order that a
    [range] visits it. *)
Inductive value :=
| Null
| Bool (b : bool)
| Str (s : string)
| Scalar (text : string)
| Seq (items : list value)
| Mapping (entries : list (string * value)).

Abbreviation entries := (list (string * value)).

Definition find_entry (k : string) (m : entries) : option value :=
  match List.find (fun kv => (fst kv =? k)%string) m with Some kv => Some (snd kv) | None => None end.

(** [m[k]]: nil when absent. *)
Definition at_key (m : entries) (k : string) : value := match find_entry k m with Some v => v | None => Null end.

Definition has_key (m : entries) (k : string) : bool := match find_entry k m with Some _ => true | None => false end.

(** [m[k] = v] *)
Fixpoint put_key (k : string) (v : value) (m : entries) : entries :=
  match m with
  | [] => [(k, v)]
  | (k', v') :: rest => if (k' =? k)%string then (k, v) :: rest else (k', v') :: put_key k v rest
  end.

Definition is_null (v : value) : bool := match v with Null => true | _ => false end.

Definition as_string (v : value) : option string := match v with Str s => Some s | _ => None end.

Definition as_seq (v : value) : option (list value) := match v with Seq l => Some l | _ => None end.

(** ** [fmt.Sprint]; a map is printed in the order of its keys *)

Fixpoint insert_printed (x : string * string) (l : list (string * string)) : list (string * string) :=
  match l with
  | [] => [x]
  | y :: l' => if String.leb (fst x) (fst y) then x :: l else y :: insert_printed x l'
  end.

Fixpoint Sprint (v : value) : string :=
  match v with
  | Null => "<nil>"
  | Bool b => if b then "true" else "false"
  | Str s => s
  | Scalar t => t
  | Seq l => ("[" ++ Join (map Sprint l) " " ++ "]")%string
  | Mapping m =>
      ("map[" ++ Join (map (fun p => fst p ++ ":" ++ snd p)%string
                         (foldr insert_printed [] (map (fun kv => (fst kv, Sprint (snd kv))) m))) " " ++ "]")%string
  end.

(** ** Case folding *)

(** The simple folding of [strings.EqualFold] and of [(?i)], as far as it can
    meet an ASCII letter: U+017F is an s, U+212A is a k. *)
Definition fold_letter (r : list ascii) : list ascii :=
  match map code r with
  | [b] => if between 65 90 b then [chr (b + 32)] else r
  | [197; 191] => [chr 115]
  | [226; 132; 170] => [chr 107]
  | _ => r
  end.

Definition folded (s : string) : string := string_of_runes (map fold_letter (runes s)).

(** [strings.EqualFold(s, word)] for a word of lower-case ASCII letters. *)
Definition EqualFold (s word : string) : bool := (folded s =? word)%string.

(** ** Positions *)

Fixpoint last_index (c : ascii) (i : Z) (found : Z) (l : list ascii) : Z :=
  match l with
  | [] => found
  | x :: l' => last_index c (i + 1) (if Ascii.eqb x c then i else found) l'
  end.

(** [strings.LastIndex(s, c)] *)
Definition LastIndex (s : string) (c : ascii) : Z := last_index c 0 (-1) (bytes s).

(** [strings.Cut(s, c)] and [strings.SplitN(s, c, 2)] *)
Fixpoint cut_bytes (c : ascii) (seen l : list ascii) : option (list ascii * list ascii) :=
  match l with
  | [] => None
  | x :: l' => if Ascii.eqb x c then Some (rev seen, l') else cut_bytes c (x :: seen) l'
  end.

Definition Cut (s : string) (c : ascii) : option (string * string) :=
  match cut_bytes c [] (bytes s) with Some (a, b) => Some (of_bytes a, of_bytes b) | None => None end.

(** ** Checks in sequence *)

Abbreviation check := (result string unit).

Definition refuse_if (b : bool) (message : string) : check := if b then Err message else Ok tt.

Fixpoint all_ok (l : list check) : check :=
  match l with
  | [] => Ok tt
  | Ok _ :: rest => all_ok rest
  | Err e :: _ => Err e
  end.

(** A loop with an early return. *)
Definition each {A : Type} (f : A -> check) (l : list A) : check := all_ok (map f l).

Lemma all_ok_iff l : all_ok l = Ok tt <-> Forall (fun c => c = Ok tt) l.
Proof.
  induction l as [|[[]|e] l IH]; simpl; [split; [constructor|done]|rewrite IH, Forall_cons; split; [done|by intros [_ ?]]|].
  split; [done|]. rewrite Forall_cons. by intros [? _].
Qed.

Lemma each_iff {A} (f : A -> check) l : each f l = Ok tt <-> forall x, In x l -> f x = Ok tt.
Proof.
  unfold each. rewrite all_ok_iff, Forall_map, Forall_forall. split; intros Hf x Hx; apply Hf; by apply list_elem_of_In.
Qed.

Lemma refuse_if_iff b m : refuse_if b m = Ok tt <-> b = false.
Proof. by destruct b. Qed.

Lemma check_cases (c : check) : c = Ok tt \/ exists e, c = Err e.
Proof. destruct c as [[]|e]; eauto. Qed.

(** ** Maps *)

Lemma find_entry_In k m v : find_entry k m = Some v -> In (k, v) m.
Proof.
  unfold find_entry. destruct (List.find _ m) as [[k' v']|] eqn:F; [|done]. intros [= <-].
  apply find_some in F as [F E]. simpl in *. apply String.eqb_eq in E. by subst.
Qed.

Lemma find_put k v m k' : find_entry k' (put_key k v m) = if (k' =? k)%string then Some v else find_entry k' m.
Proof.
  induction m as [|[k0 v0] m IH]; unfold find_entry in *; simpl.
  - rewrite (String.eqb_sym k k'). by destruct (String.eqb_spec k' k).
  - destruct (String.eqb_spec k0 k) as [->|Hne]; simpl.
    + rewrite (String.eqb_sym k k'). by destruct (String.eqb_spec k' k).
    + destruct (String.eqb_spec k0 k') as [->|]; [|apply IH]. by destruct (String.eqb_spec k' k).
Qed.

Lemma at_put k v m k' : at_key (put_key k v m) k' = if (k' =? k)%string then v else at_key m k'.
Proof. unfold at_key. rewrite find_put. by destruct (_ =? _)%string. Qed.

Lemma has_put k v m k' : has_key (put_key k v m) k' = (k' =? k)%string || has_key m k'.
Proof. unfold has_key. rewrite find_put. by destruct (_ =? _)%string. Qed.
