(* ===== verification/ComposePolicy.v ===== *)
(** * internal/ops/policy.go: the compose policy

    [ValidateCompose] decides whether a document may become a Swarm stack, and
    [PinComposeToNode] adds a placement constraint to every service.  A document
    is a dynamic value (GoYaml); the YAML library and SHA-256 are the class
    [ComposeLib].  An error is the constant part of its message. *)

From Stdlib Require Import ZArith Lia Bool Ascii String.
From stdpp Require Import base tactics list strings gmap.
From S2P Require Import Prelude GoStrings GoText GoYaml.

Local Open Scope string_scope.
Local Open Scope list_scope.
Local Open Scope bool_scope.
Local Open Scope Z_scope.

Class ComposeLib := {
  yaml_Unmarshal : string -> option entries;                 (* into a map[string]any *)
  yaml_Marshal : entries -> option string;
  Sum256_hex : string -> string;                             (* hex.EncodeToString(sha256.Sum256(value)) *)
  Sum256_hex_form : forall s, exactly is_hex 64 (Sum256_hex s) = true }.

Definition maxComposeBytes : Z := 524288.

Definition composeNamePattern : string -> bool := pattern lower_case (fun c => lower_case c || digit c || any_of "-" c) 62.

(** [^/run/secrets/[A-Za-z0-9._-]{1,128}$] *)
Definition secretFilePath (s : string) : bool :=
  HasPrefix s "/run/secrets/" && pattern (fun c => alnum c || any_of "._-" c) (fun c => alnum c || any_of "._-" c) 127 (TrimPrefix s "/run/secrets/").

Definition secret_words : list string :=
  ["password"; "secret"; "token"; "credential"; "apikey"; "api_key"; "api-key"; "privatekey"; "private_key"; "private-key"].

(** [(?i)(password|secret|token|credential|api[_-]?key|private[_-]?key)] *)
Definition secretLikeKey (key : string) : bool := existsb (Contains (folded key)) secret_words.

(** ** Helpers *)

Definition asMap (v : value) : option entries := match v with Mapping m => Some m | _ => None end.

Definition boolValue (v : value) : bool := match v with Bool b => b | _ => false end.

Definition hostValue (v : value) : bool :=
  EqualFold (TrimSpace (match v with Str s => s | _ => "" end)) "host".

Definition hasNonEmpty (service : entries) (field : string) : bool :=
  match find_entry field service with
  | None | Some Null => false
  | Some (Seq l) => match l with [] => false | _ => true end
  | Some (Mapping m) => match m with [] => false | _ => true end
  | Some _ => true
  end.

Definition blank (s : string) : bool := (TrimSpace s =? "")%string.

Definition ValidStackName (name : string) : bool := composeNamePattern name.

(** ** Images *)

Definition space_chars : string := of_bytes [chr 32; chr 9; chr 13; chr 10].

Definition validateImage (v : string) : check :=
  let image := TrimSpace v in
  if ContainsAny image space_chars then Err "image reference is invalid"
  else if Contains image "@sha256:" then Ok tt
  else
    let lastSlash := LastIndex image "/"%char in
    let lastColon := LastIndex image ":"%char in
    if (lastColon <=? lastSlash) || (lastColon =? len image - 1) then Err "image must use a non-latest tag or digest"
    else refuse_if (EqualFold (of_bytes (drop (Z.to_nat (lastColon + 1)) (bytes image))) "latest") "image must not use the latest tag".

(** ** Volumes *)

(** A path on the host, as the start of a source shows. *)
Definition host_path (source : string) : bool := HasPrefix source "/" || HasPrefix source "." || HasPrefix source "~".

Definition before_colon (volume : string) : string := match Cut volume ":"%char with Some (a, _) => a | None => volume end.

Section Policy.
Context `{CaseTable}.

Definition mount_kind (volume : entries) : string := ToLower (TrimSpace (Sprint (at_key volume "type"))).

Definition validateVolume (item : value) : check :=
  match item with
  | Str volume => refuse_if (host_path (before_colon volume)) "service uses a host bind mount"
  | Mapping volume =>
      let kind := mount_kind volume in
      all_ok
        [ refuse_if (oneOfString kind ["bind"; "npipe"; "image"; "cluster"]) "service uses a host bind mount";
          (if oneOfString kind [""; "volume"]
           then refuse_if (match as_string (at_key volume "source") with
                           | Some source => blank source || host_path source
                           | None => true
                           end) "service uses an invalid named volume"
           else Ok tt);
          refuse_if (negb (oneOfString kind [""; "volume"; "tmpfs"])) "service uses an unsupported mount type" ]
  | _ => Err "service has an invalid volume"
  end.

Definition validateVolumes (v : value) : check :=
  match v with
  | Null => Ok tt
  | Seq l => each validateVolume l
  | _ => Err "service volumes must be a list"
  end.

(** The two boundaries on top-level storage and networks differ in the driver. *)
Definition validateManaged (driver : string) (item : string * value) : check :=
  match asMap (snd item) with
  | None => Err "top-level resource must be an object"
  | Some resource =>
      if has_key resource "driver_opts" then Err "top-level resource uses driver_opts"
      else match find_entry "external" resource with
      | Some external =>
          all_ok [ refuse_if (negb (boolValue external)) "top-level resource must use external: true when external is set";
                   refuse_if (has_key resource "driver") "top-level external resource must not set a driver" ]
      | None =>
          match find_entry "driver" resource with
          | Some d => refuse_if (negb (EqualFold (TrimSpace (Sprint d)) driver)) "top-level resource uses a custom driver"
          | None => Ok tt
          end
      end
  end.

Definition top_level (root : entries) (kind : string) (f : string * value -> check) : check :=
  match find_entry kind root with
  | None | Some Null => Ok tt
  | Some (Mapping m) => each f m
  | Some _ => Err "top-level section must be a map"
  end.

Definition validateTopLevelVolumes (root : entries) : check := top_level root "volumes" (validateManaged "local").
Definition validateTopLevelNetworks (root : entries) : check := top_level root "networks" (validateManaged "overlay").

Definition validateTopLevelExternalResources (root : entries) (kind : string) : check :=
  top_level root kind (fun item =>
    match asMap (snd item) with
    | None => Err "top-level resource must be an object with external: true"
    | Some resource => refuse_if (negb (boolValue (at_key resource "external"))) "top-level resource must use external: true"
    end).

(** ** Environment *)

Definition env_item (acc : result string (gmap string string)) (item : value) : result string (gmap string string) :=
  match acc, item with
  | Ok m, Str text =>
      Ok (match Cut text "="%char with Some (k, v) => <[k := v]> m | None => <[text := ""]> m end)
  | Ok _, _ => Err "service has a non-string environment value"
  | Err e, _ => Err e
  end.

Definition env_values (v : value) : result string (gmap string string) :=
  match v with
  | Mapping m => Ok (foldl (fun acc kv => <[fst kv := Sprint (snd kv)]> acc) ∅ m)
  | Seq l => foldl env_item (Ok ∅) l
  | _ => Err "service environment must be a map or list"
  end.

(** A variable that carries the path of a mounted secret, or no secret at all. *)
Definition env_allowed (key item : string) : bool := (HasSuffix key "_FILE" && secretFilePath item) || negb (secretLikeKey key).

Definition validateEnvironment (v : value) : check :=
  match v with
  | Null => Ok tt
  | _ =>
      match env_values v with
      | Err e => Err e
      | Ok values => each (fun kv => refuse_if (negb (env_allowed (fst kv) (snd kv))) "service supplies secret-like environment variable")
                          (map_to_list values)
      end
  end.

(** ** Service resources *)

Definition validateServiceResource (item : value) : check :=
  match item with
  | Str s => refuse_if (blank s) "service includes an empty reference"
  | Mapping resource =>
      refuse_if (match as_string (at_key resource "source") with Some source => blank source | None => true end
                 || negb (is_null (at_key resource "file")))
        "service must reference a top-level external resource"
  | _ => Err "service must reference a top-level external resource"
  end.

Definition validateServiceResources (v : value) : check :=
  match v with
  | Null => Ok tt
  | Seq l => each validateServiceResource l
  | _ => Err "service resources must be a list"
  end.

Definition declares (m : entries) (key : string) : check :=
  refuse_if (match as_string (at_key m key) with Some text => blank text | None => true end) "service must declare a resource".

Definition validateResources (v : value) : check :=
  match asMap v with
  | None => Err "service must declare deploy resources"
  | Some deploy =>
      match asMap (at_key deploy "resources") with
      | None => Err "service must declare deploy.resources"
      | Some resources =>
          each (fun level => match asMap (at_key resources level) with
                             | None => Err "service must declare deploy.resources level"
                             | Some values => each (declares values) ["cpus"; "memory"]
                             end) ["limits"; "reservations"]
      end
  end.

(** ** The policy *)

Definition host_namespaces (service : entries) : bool :=
  boolValue (at_key service "privileged") || hostValue (at_key service "pid") || hostValue (at_key service "network_mode")
  || hostValue (at_key service "ipc").

Definition restricted_fields : list string := ["devices"; "cap_add"; "device_cgroup_rules"; "security_opt"].

Definition validateService (item : string * value) : check :=
  if negb (composeNamePattern (fst item)) then Err "service has an invalid name"
  else match asMap (snd item) with
  | None => Err "service must be an object"
  | Some service =>
      match as_string (at_key service "image") with
      | None => Err "service must use an image"
      | Some image =>
          all_ok
            [ refuse_if (blank image) "service must use an image";
              validateImage image;
              refuse_if (has_key service "build") "service uses build";
              refuse_if (host_namespaces service) "service requests a host-level privilege";
              refuse_if (existsb (hasNonEmpty service) restricted_fields) "service requests restricted Linux capabilities or devices";
              refuse_if (has_key service "runtime") "service selects a custom runtime";
              refuse_if (hasNonEmpty service "ports") "service publishes a port";
              validateVolumes (at_key service "volumes");
              validateEnvironment (at_key service "environment");
              validateServiceResources (at_key service "secrets");
              validateServiceResources (at_key service "configs");
              validateResources (at_key service "deploy") ]
      end
  end.

(** The services of a document, when there is at least one. *)
Definition services_of (root : entries) : option entries :=
  match asMap (at_key root "services") with Some (s :: rest) => Some (s :: rest) | _ => None end.

(** The checks on a parsed document. *)
Definition check_document (root : entries) : check :=
  match services_of root with
  | None => Err "compose must declare at least one service"
  | Some services =>
      all_ok
        ([ refuse_if (50 <? Z.of_nat (List.length services)) "compose declares more than 50 services";
           validateTopLevelExternalResources root "secrets";
           validateTopLevelExternalResources root "configs";
           validateTopLevelVolumes root;
           validateTopLevelNetworks root ] ++ map validateService services)
  end.

Context `{ComposeLib}.

Record ComposePlan := mkPlan { Digest : string; Services : list string; Warnings : list string }.

Definition version_warning : string :=
  "Docker stack deploy uses the legacy Compose v3 format; include an explicit version: '3.9' before promotion.".

Definition digest (raw : string) : string := ("sha256:" ++ Sum256_hex raw)%string.

Definition ValidateCompose (raw : string) : result string ComposePlan :=
  if len raw =? 0 then Err "compose content is required"
  else if len raw >? maxComposeBytes then Err "compose content is too large"
  else match yaml_Unmarshal raw with
  | None => Err "parse compose YAML"
  | Some root =>
      match check_document root with
      | Err e => Err e
      | Ok _ => Ok (mkPlan (digest raw)
                      (sort_strings (map fst (match services_of root with Some services => services | None => [] end)))
                      (if has_key root "version" then [] else [version_warning]))
      end
  end.

(** ** Placement *)

Definition serviceReference (id : string) : result string string :=
  if blank id || ContainsAny id controls then Err "invalid service identifier" else Ok id.

Definition ensureMap (parent : entries) (key : string) : entries :=
  match asMap (at_key parent key) with Some existing => existing | None => [] end.

Fixpoint constraint_items (l : list value) : result string (list string) :=
  match l with
  | [] => Ok []
  | Str constraint :: rest =>
      if blank constraint then Err "constraints must contain only non-empty strings"
      else match constraint_items rest with Ok cs => Ok (constraint :: cs) | Err e => Err e end
  | _ :: _ => Err "constraints must contain only non-empty strings"
  end.

Definition constraintsList (v : value) : result string (list string) :=
  match v with
  | Null => Ok []
  | Seq l => constraint_items l
  | _ => Err "constraints must be a list"
  end.

(** [strings.ReplaceAll(s, " ", "")] *)
Definition without_blanks (s : string) : string := of_bytes (List.filter (fun c => negb (Ascii.eqb c " "%char)) (bytes s)).

Definition names_node (constraint : string) : bool := HasPrefix (ToLower (without_blanks constraint)) "node.id==".

Definition node_constraint (nodeID : string) : string := ("node.id == " ++ nodeID)%string.

Definition pin_service (nodeID : string) (item : string * value) : result string (string * value) :=
  match asMap (snd item) with
  | None => Err "service must be an object"
  | Some service =>
      let deploy := ensureMap service "deploy" in
      let placement := ensureMap deploy "placement" in
      match constraintsList (at_key placement "constraints") with
      | Err e => Err e
      | Ok constraints =>
          if existsb names_node constraints then Err "service already has a node.id constraint"
          else
            let placement := put_key "constraints" (Seq (map Str (constraints ++ [node_constraint nodeID]))) placement in
            Ok (fst item, Mapping (put_key "deploy" (Mapping (put_key "placement" (Mapping placement) deploy)) service))
      end
  end.

Fixpoint pin_services (nodeID : string) (services : entries) : result string entries :=
  match services with
  | [] => Ok []
  | item :: rest =>
      match pin_service nodeID item with
      | Err e => Err e
      | Ok item' => match pin_services nodeID rest with Ok rest' => Ok (item' :: rest') | Err e => Err e end
      end
  end.

Definition pin_document (nodeID : string) (root : entries) : result string entries :=
  match services_of root with
  | None => Err "compose must declare at least one service"
  | Some services =>
      match pin_services nodeID services with
      | Ok services' => Ok (put_key "services" (Mapping services') root)
      | Err e => Err e
      end
  end.

Definition PinComposeToNode (raw nodeID : string) : result string string :=
  if blank nodeID then Ok raw
  else match serviceReference nodeID with
  | Err e => Err e
  | Ok _ =>
      match yaml_Unmarshal raw with
      | None => Err "parse compose YAML"
      | Some root =>
          match pin_document nodeID root with
          | Err e => Err e
          | Ok root' => match yaml_Marshal root' with Some text => Ok text | None => Err "serialize node-targeted compose" end
          end
      end
  end.

End Policy.
