(* ===== verification/Admission.v ===== *)
(** * internal/ops/admission.go: what an application stack may contain

    [ValidateApplicationStack] keeps a stack to its own secrets, volumes,
    networks and Traefik routers.  The names of route networks and route keys
    come from routing_types.go and routing_control.go. *)

From Stdlib Require Import ZArith Lia Bool Ascii String.
From stdpp Require Import base tactics list strings gmap.
From S2P Require Import Prelude GoStrings GoText GoNumbers GoYaml ComposePolicy RoutingTypes RoutingDomain.

Local Open Scope string_scope.
Local Open Scope list_scope.
Local Open Scope bool_scope.
Local Open Scope Z_scope.

Definition ApplicationNamespace : string := "production".

(** ** Names of routes *)

Definition hyphen : ascii := "-"%char.
Definition key_char (c : ascii) : bool := lower_case c || digit c.

(** [[^a-z0-9]+] replaced by a hyphen; [open] while inside a run. *)
Fixpoint squeeze (open : bool) (l : list ascii) : list ascii :=
  match l with
  | [] => []
  | c :: l' => if key_char c then c :: squeeze false l' else if open then squeeze true l' else hyphen :: squeeze true l'
  end.

(** A rune of a route key, or a hyphen in its place. *)
Definition key_rune (r : list ascii) : list ascii :=
  match r with [c] => if key_char c || Ascii.eqb c hyphen then [c] else [hyphen] | _ => [hyphen] end.

Section Admission.
Context `{CaseTable} `{ComposeLib}.

Definition RouteNetworkName (serviceKey : string) : string :=
  let clean := TrimChar hyphen (of_bytes (squeeze false (bytes (ToLower (TrimSpace serviceKey))))) in
  let clean := if (clean =? "")%string then "service" else clean in
  let suffix := of_bytes (take 8 (bytes (Sum256_hex serviceKey))) in
  ("swarmops-route-" ++ of_bytes (take 42 (bytes clean)) ++ "-" ++ suffix)%string.

Definition defaultRouteKey (service : string) : string :=
  let v := TrimChar hyphen (string_of_runes (map key_rune (runes (ToLower service)))) in
  let v := match bytes v with c :: _ => if lower_case c then v else ("service-" ++ v)%string | [] => ("service-" ++ v)%string end in
  of_bytes (take 63 (bytes v)).

(** ** External resources *)

Definition own_name (stack name : string) : bool := HasPrefix name (stack ++ "-")%string || HasPrefix name (stack ++ "_")%string.

Definition validateScopedExternal (stack : string) (item : string * value) : check :=
  match asMap (snd item) with
  | None => Err "top-level resource must be an object"
  | Some resource =>
      if negb (boolValue (at_key resource "external"))
      then refuse_if (has_key resource "name") "non-external resource must not override its stack-scoped name"
      else match as_string (at_key resource "name") with
      | None => Err "external resource must declare an explicit safe name"
      | Some name =>
          let physicalName := TrimSpace name in
          all_ok [ refuse_if (negb (dockerReferenceName physicalName)) "external resource must declare an explicit safe name";
                   refuse_if (negb (own_name stack physicalName)) "external resource name must start with the stack name" ]
      end
  end.

Definition validateScopedExternalResources (root : entries) (stack kind : string) : check :=
  top_level root kind (validateScopedExternal stack).

Definition route_network (stack service : string) : string := RouteNetworkName (stack ++ "_" ++ service)%string.

Definition validateExternalNetwork (stack : string) (services : entries) (item : string * value) : check :=
  match asMap (snd item) with
  | None => Err "top-level network must be an object"
  | Some network =>
      if negb (boolValue (at_key network "external"))
      then refuse_if (has_key network "name") "non-external network must not override its stack-scoped name"
      else
        let physicalName := TrimSpace (match at_key network "name" with Str s => s | _ => "" end) in
        refuse_if (negb (((fst item =? "traefik-route")%string || HasPrefix (fst item) "route-")
                         && oneOfString physicalName (map (fun s => route_network stack (fst s)) services)))
          "browser deployments may use only their dedicated external Traefik route network"
  end.

Definition validateExternalNetworks (root : entries) (stack : string) : check :=
  match find_entry "networks" root with
  | None | Some Null => Ok tt
  | Some (Mapping networks) =>
      match services_of root with
      | None => Err "compose must declare at least one service"
      | Some services => each (validateExternalNetwork stack services) networks
      end
  | Some _ => Err "top-level networks must be a map"
  end.

Definition validateWorkloadExternalResources (root : entries) (stack : string) : check :=
  all_ok (map (validateScopedExternalResources root stack) ["secrets"; "configs"; "volumes"] ++ [validateExternalNetworks root stack]).

(** ** Capacity *)

Definition composeReplicaCount (v : value) : result string Z :=
  match v with
  | Null => Ok 1
  | _ =>
      match Atoi (TrimSpace (Sprint v)) with
      | Some count => if count <? 1 then Err "replicas must be a positive integer" else Ok count
      | None => Err "replicas must be a positive integer"
      end
  end.

Definition unit_char (c : ascii) : bool := any_of "kKmMgGtT" c.

(** [^([0-9]+(?:\.[0-9]+)?)([kKmMgGtT]i?[bB]?|[bB])?$]: the number and the unit. *)
Fixpoint digits_of (l : list ascii) : list ascii * list ascii :=
  match l with
  | c :: l' => if digit c then let '(d, rest) := digits_of l' in (c :: d, rest) else ([], l)
  | [] => ([], [])
  end.

Definition quantity_text (l : list ascii) : option (list ascii * list ascii) :=
  match digits_of l with
  | ([], _) => None
  | (whole, c :: rest) =>
      if Ascii.eqb c "."%char then
        match digits_of rest with
        | ([], _) => None
        | (fraction, rest') => Some (whole ++ c :: fraction, rest')
        end
      else Some (whole, c :: rest)
  | (whole, []) => Some (whole, [])
  end.

Definition memory_unit (l : list ascii) : bool :=
  match l with
  | [] => true
  | [c] => unit_char c || any_of "bB" c
  | [c; d] => unit_char c && any_of "ibB" d
  | [c; d; e] => unit_char c && any_of "i" d && any_of "bB" e
  | _ => false
  end.

Definition multiplier (unit : string) : option Z :=
  if oneOfString unit [""; "b"] then Some 0
  else if oneOfString unit ["k"; "kb"; "kib"] then Some 10
  else if oneOfString unit ["m"; "mb"; "mib"] then Some 20
  else if oneOfString unit ["g"; "gb"; "gib"] then Some 30
  else if oneOfString unit ["t"; "tb"; "tib"] then Some 40
  else None.

(** [quantity * multiplier / (1 << 20)]; the multiplier is [2 ^ shift]. *)
Definition parseMemoryMiB (v : string) : result string float64 :=
  match quantity_text (bytes (TrimSpace v)) with
  | Some (number, unit) =>
      if negb (memory_unit unit) then Err "invalid memory quantity"
      else match ParseFloat (of_bytes number) with
      | Some quantity =>
          if not_positive quantity then Err "invalid memory quantity"
          else match multiplier (ToLower (of_bytes unit)) with
          | Some shift => Ok (scale_down (scale_up quantity shift) 20)
          | None => Err "invalid memory quantity"
          end
      | None => Err "invalid memory quantity"
      end
  | None => Err "invalid memory quantity"
  end.

Definition composeReservations (deploy : entries) : result string (float64 * float64) :=
  match asMap (at_key deploy "resources") with
  | None => Err "must declare resources"
  | Some resources =>
      match asMap (at_key resources "reservations") with
      | None => Err "must declare resources.reservations"
      | Some reservations =>
          match as_string (at_key reservations "cpus"), as_string (at_key reservations "memory") with
          | Some cpuText, Some memoryText =>
              match ParseFloat (TrimSpace cpuText) with
              | Some cpu =>
                  if not_positive cpu then Err "CPU must be a positive decimal value"
                  else match parseMemoryMiB memoryText with
                  | Ok memory => if not_positive memory then Err "memory must be a positive Docker memory quantity" else Ok (cpu, memory)
                  | Err _ => Err "memory must be a positive Docker memory quantity"
                  end
              | None => Err "CPU must be a positive decimal value"
              end
          | _, _ => Err "must declare string CPU and memory values"
          end
      end
  end.

Definition succeeds {A : Type} (r : result string A) : check := match r with Ok _ => Ok tt | Err e => Err e end.

Definition validateCapacity (item : string * value) : check :=
  match asMap (snd item) with
  | None => Err "service must be an object"
  | Some service =>
      match asMap (at_key service "deploy") with
      | None => Err "service must declare deploy settings"
      | Some deploy =>
          all_ok
            [ refuse_if (match find_entry "mode" deploy with
                         | Some mode => negb (oneOfString (TrimSpace (Sprint mode)) ["replicated"; "replicated-job"])
                         | None => false
                         end) "service must use replicated or replicated-job mode";
              succeeds (composeReplicaCount (at_key deploy "replicas"));
              succeeds (composeReservations deploy) ]
      end
  end.

Definition validateWorkloadCapacity (root : entries) : check :=
  match services_of root with
  | None => Err "compose must declare at least one service"
  | Some services => each validateCapacity services
  end.

(** ** Labels *)

Definition label_item (acc : result string (gmap string string)) (item : value) : result string (gmap string string) :=
  match acc with
  | Err e => Err e
  | Ok m =>
      match item with
      | Str label =>
          match Cut label "="%char with
          | Some (k, v) => if blank k then Err "labels must use key=value form" else Ok (<[k := v]> m)
          | None => Err "labels must use key=value form"
          end
      | _ => Err "labels must contain strings"
      end
  end.

Definition label_entry (acc : result string (gmap string string)) (kv : string * value) : result string (gmap string string) :=
  match acc with
  | Err e => Err e
  | Ok m => match snd kv with Str text => Ok (<[fst kv := text]> m) | _ => Err "label values must be strings" end
  end.

Definition composeLabels (rawDeploy : value) : result string (gmap string string) :=
  match asMap rawDeploy with
  | None => Ok ∅
  | Some deploy =>
      match at_key deploy "labels" with
      | Null => Ok ∅
      | Mapping labels => foldl label_entry (Ok ∅) labels
      | Seq labels => foldl label_item (Ok ∅) labels
      | _ => Err "labels must be a map or list"
      end
  end.

(** ** Routes *)

Record approvedRouter := mkRouter { ar_entrypoints : string; ar_rule : string; ar_resolver : string; ar_service : string }.

Definition label_fields : list string :=
  ["observability.accesslogs"; "observability.metrics"; "tls.certresolver"; "loadbalancer.server.port"; "entrypoints"; "service"; "rule"; "tls"].

Fixpoint split_field (remainder : string) (fields : list string) : option (string * string) :=
  match fields with
  | [] => None
  | field :: rest =>
      if HasSuffix remainder ("." ++ field)%string then
        let router := TrimSuffix remainder ("." ++ field)%string in
        if (router =? "")%string then None else Some (router, field)
      else split_field remainder rest
  end.

Definition splitTraefikLabel (key prefix : string) : option (string * string) :=
  if HasPrefix key prefix then
    let remainder := TrimPrefix key prefix in
    if (remainder =? "")%string then None else split_field remainder label_fields
  else None.

(** What the loop over the labels has collected. *)
Record Collected := mkCollected { routers : gmap string approvedRouter; servicePorts : gmap string string; hasTraefikLabel : bool }.

Definition no_labels : Collected := mkCollected ∅ ∅ false.

Definition set_router (stack router field v : string) (c : Collected) : result string Collected :=
  if negb (HasPrefix router (stack ++ "-")%string) then Err "Traefik router must start with the stack name"
  else
    let e := match routers c !! router with Some e => e | None => mkRouter "" "" "" "" end in
    let keep e' := Ok (mkCollected (<[router := e']> (routers c)) (servicePorts c) true) in
    if (field =? "rule")%string then keep (mkRouter (ar_entrypoints e) v (ar_resolver e) (ar_service e))
    else if (field =? "tls.certresolver")%string then keep (mkRouter (ar_entrypoints e) (ar_rule e) v (ar_service e))
    else if (field =? "entrypoints")%string then keep (mkRouter v (ar_rule e) (ar_resolver e) (ar_service e))
    else if (field =? "service")%string then keep (mkRouter (ar_entrypoints e) (ar_rule e) (ar_resolver e) v)
    else if oneOfString field ["observability.metrics"; "observability.accesslogs"; "tls"] then
      if oneOfString v ["true"; "false"] then keep e else Err "invalid boolean Traefik router setting"
    else Err "unsupported Traefik router setting".

Definition set_port (stack router field v : string) (c : Collected) : result string Collected :=
  if negb (HasPrefix router (stack ++ "-")%string) then Err "Traefik service must start with the stack name"
  else if negb (field =? "loadbalancer.server.port")%string then Err "unsupported Traefik service setting"
  else Ok (mkCollected (routers c) (<[router := v]> (servicePorts c)) true).

Definition collect (stack : string) (acc : result string Collected) (kv : string * string) : result string Collected :=
  match acc with
  | Err e => Err e
  | Ok c =>
      let '(key, v) := kv in
      if negb (HasPrefix key "traefik.") then Ok c
      else if oneOfString key ["traefik.enable"; "traefik.swarm.network"] then Ok (mkCollected (routers c) (servicePorts c) true)
      else match splitTraefikLabel key "traefik.http.routers." with
      | Some (router, field) => set_router stack router field v c
      | None =>
          match splitTraefikLabel key "traefik.http.services." with
          | Some (router, field) => set_port stack router field v c
          | None => Err "unsupported Traefik label"
          end
      end
  end.

Definition rule_space (c : ascii) : bool := any_of (of_bytes [chr 9; chr 10; chr 12; chr 13; chr 32]) c.
Definition rule_quote (c : ascii) : bool := any_of (of_bytes [chr 96; chr 39; chr 34]) c.
Definition rule_char (c : ascii) : bool := negb (rule_space c || rule_quote c || any_of ")" c).

Fixpoint span (f : ascii -> bool) (l : list ascii) : list ascii * list ascii :=
  match l with
  | c :: l' => if f c then let '(a, b) := span f l' in (c :: a, b) else ([], l)
  | [] => ([], [])
  end.

Definition optional (f : ascii -> bool) (l : list ascii) : list ascii :=
  match l with c :: l' => if f c then l' else l | [] => [] end.

(** [^Host\(\s*[quote]?([^quote)\s]+)[quote]?\s*\)$]: the host. *)
Definition routerRulePattern (rule : string) : option string :=
  if HasPrefix rule "Host(" then
    let l := snd (span rule_space (bytes (TrimPrefix rule "Host("))) in
    let '(host, rest) := span rule_char (optional rule_quote l) in
    match host, snd (span rule_space (optional rule_quote rest)) with
    | _ :: _, [c] => if Ascii.eqb c ")"%char then Some (of_bytes host) else None
    | _, _ => None
    end
  else None.

Definition label (labels : gmap string string) (key : string) : string := match labels !! key with Some v => v | None => "" end.

(** The port of the service that a router names, or the only one there is. *)
Definition service_port (ports : gmap string string) (service : string) : string :=
  let named := label ports service in
  if (named =? "")%string then match map_to_list ports with [(_, p)] => p | _ => named end else named.

Definition internal_host (stack service : string) : string :=
  (defaultRouteKey (stack ++ "_" ++ service) ++ "." ++ ReservedInternalZone)%string.

Definition validateRouter (stack serviceName : string) (ports : gmap string string) (item : string * approvedRouter) : check :=
  let '(router, entry) := item in
  if (ar_rule entry =? "")%string || (ar_entrypoints entry =? "")%string then Err "service has an incomplete Traefik router"
  else match routerRulePattern (TrimSpace (ar_rule entry)) with
  | None => Err "service has an unapproved Traefik rule"
  | Some matched =>
      let domain := ToLower (TrimSuffix (TrimSpace matched) ".") in
      if HasSuffix router "-internal" then
        refuse_if (negb (domain =? internal_host stack serviceName)%string || negb (ar_entrypoints entry =? "internal-http")%string
                   || negb (ar_resolver entry =? "")%string)
          "internal router must use its derived SwarmOps hostname and internal-http entrypoint"
      else
        let port := service_port ports (ar_service entry) in
        all_ok
          [ refuse_if (negb (ar_entrypoints entry =? "websecure")%string) "service must route through the websecure entrypoint";
            refuse_if (blank (ar_resolver entry)) "service must name a certificate resolver";
            refuse_if (negb (port =? "")%string
                       && match Atoi port with Some p => (p <? 1) || (65535 <? p) | None => true end)
              "router has an invalid Traefik service port" ]
  end.

Definition validateServiceRoutes (stack : string) (item : string * value) : check :=
  let serviceName := fst item in
  match asMap (snd item) with
  | None => Err "service must be an object"
  | Some service =>
      match composeLabels (at_key service "deploy") with
      | Err e => Err e
      | Ok labels =>
          match foldl (collect stack) (Ok no_labels) (map_to_list labels) with
          | Err e => Err e
          | Ok c =>
              if negb (hasTraefikLabel c) then Ok tt
              else
                all_ok
                  ([ refuse_if (negb (oneOfString (label labels "traefik.enable") ["true"; "false"])
                                || negb (label labels "traefik.swarm.network" =? route_network stack serviceName)%string)
                       "service must explicitly declare Traefik on its dedicated route network";
                     refuse_if (match map_to_list (routers c) with [] => true | _ => false end) "service must declare an approved Traefik router" ] ++
                   map (validateRouter stack serviceName (servicePorts c)) (map_to_list (routers c)))
          end
      end
  end.

Definition validateWorkloadRoutes (root : entries) (stack : string) : check :=
  match services_of root with
  | None => Err "compose must declare at least one service"
  | Some services => each (validateServiceRoutes stack) services
  end.

(** ** Admission *)

Definition admit_document (name : string) (root : entries) : check :=
  all_ok [ validateWorkloadExternalResources root name; validateWorkloadCapacity root; validateWorkloadRoutes root name ].

Definition ValidateApplicationStack (name raw : string) : check :=
  if negb (HasPrefix name (ApplicationNamespace ++ "-")%string) then Err "stack must use the namespace prefix"
  else match yaml_Unmarshal raw with
  | None => Err "parse compose YAML"
  | Some root => admit_document name root
  end.

Definition LocalImagePrefix : string := "swarmops-local".

Definition LocalImage (image : string) : bool := HasPrefix (ToLower (TrimSpace image)) (LocalImagePrefix ++ "/")%string.

End Admission.
