(* ===== verification/StackDeploy.v ===== *)
(** * Deploying a stack: internal/ops/stack.go and control_plane.go

    [StackDeployer.Deploy] and [ControlPlane.DeployStack]: the checks, the two
    calls of the Docker command line with the document on standard input, and
    the audit record.  What the calls answer is an argument. *)

From Stdlib Require Import ZArith Lia Bool Ascii String.
From stdpp Require Import base tactics list strings gmap.
From S2P Require Import Prelude GoStrings GoText GoNumbers GoYaml ComposePolicy RoutingTypes Admission.

Local Open Scope string_scope.
Local Open Scope list_scope.
Local Open Scope bool_scope.
Local Open Scope Z_scope.
Local Open Scope tx_scope.

(** A run of the Docker command line: its arguments and its standard input. *)
Record dockerRun := mkRun { dr_args : list string; dr_input : string }.

Record auditEvent := mkEvent {
  au_Action : string; au_Actor : string; au_Detail : list (string * string); au_Outcome : string; au_RequestID : string; au_Target : string }.

Record Cluster := mkCluster {
  runs : list dockerRun;          (* oldest first *)
  answers : list bool;            (* whether the next runs succeed *)
  audit : list auditEvent;
  recordings : list bool }.       (* whether the audit log keeps the next records *)

Record ControlPlane := mkControl {
  Mutations : bool;
  audit_writable : option bool;   (* what [Writable] answers; [None] without an audit log *)
  deployer_Enabled : bool;
  cli_ConfigDir : string }.

Abbreviation ops_tx A := (tx Cluster string A).

(** [CLI.RunInput]; a run beyond the answers succeeds. *)
Definition RunInput (input : string) (args : list string) (failure : string) : ops_tx unit :=
  fun s => let s' := mkCluster (runs s ++ [mkRun args input]) (tail (answers s)) (audit s) (recordings s) in
           match answers s with false :: _ => (Err failure, s') | _ => (Ok tt, s') end.

(** What the audit log keeps of an event; a record beyond the answers is kept. *)
Definition kept (s : Cluster) (event : auditEvent) : list auditEvent := if hd true (recordings s) then [event] else [].

(** [_, _ = c.Audit.Record(...)]: an error is dropped. *)
Definition record (c : ControlPlane) (actor requestID action target : string) (failed : bool) (detail : list (string * string)) : ops_tx unit :=
  fun s => match audit_writable c with
           | None => (Ok tt, s)
           | Some _ => (Ok tt, mkCluster (runs s) (answers s)
                                 (audit s ++ kept s (mkEvent action actor detail (if failed then "failure" else "success") requestID target))
                                 (tail (recordings s)))
           end.

Definition requireAudit (c : ControlPlane) : result string unit :=
  match audit_writable c with
  | None => Err "audit log is not configured"
  | Some false => Err "audit log is unavailable"
  | Some true => Ok tt
  end.

Section Deploy.
Context `{CaseTable} `{ComposeLib}.

Definition config_args : list string := ["stack"; "config"; "--compose-file"; "-"].

Definition deploy_args (configDir name : string) : list string :=
  ["stack"; "deploy"; "--detach=false"; "--resolve-image=changed"] ++
  (if (configDir =? "")%string then [] else ["--with-registry-auth"]) ++ ["--compose-file"; "-"; name].

Definition Deploy (c : ControlPlane) (name raw : string) : ops_tx ComposePlan :=
  tx_guard (deployer_Enabled c) "cluster mutations are disabled" ;;;
  tx_guard (ValidStackName name) "invalid stack name" ;;;
  plan <- tx_lift (ValidateCompose raw) ;;
  RunInput raw config_args "render stack" ;;;
  RunInput raw (deploy_args (cli_ConfigDir c) name) "deploy stack" ;;;
  tx_ret plan.

Definition ValidateStack (name raw targetNodeID : string) : result string ComposePlan :=
  match PinComposeToNode raw targetNodeID with
  | Err e => Err e
  | Ok effective =>
      match ValidateApplicationStack name effective with
      | Err e => Err e
      | Ok _ => ValidateCompose effective
      end
  end.

(** The plan carries the digest only when the deployer returned one. *)
Definition DeployStack (c : ControlPlane) (actor requestID name raw targetNodeID : string) : ops_tx ComposePlan :=
  tx_guard (Mutations c) "cluster mutations are disabled" ;;;
  tx_lift (requireAudit c) ;;;
  let prepared := match PinComposeToNode raw targetNodeID with
                  | Err e => Err e
                  | Ok effective => match ValidateApplicationStack name effective with Ok _ => Ok effective | Err e => Err e end
                  end in
  let node := ("target_node_id", targetNodeID) in
  let noted failed detail := record c actor requestID "stack.deploy" ("stack/" ++ name)%string failed detail in
  match prepared with
  | Ok effective =>
      fun s =>
        match Deploy c name effective s with
        | (Ok plan, s') => (noted false [("digest", Digest plan); node] ;;; tx_ret plan) s'
        | (Err e, s') => (noted true [("digest", ""); node] ;;; tx_fail e) s'
        end
  | Err e => noted true [node] ;;; tx_fail e
  end.

End Deploy.
