(* ===== verification/AdmissionTheorems.v ===== *)
(** * Stack admission: placement keeps a document admitted, and what an admitted
      document may name *)

From Stdlib Require Import ZArith Lia Bool Ascii String.
From stdpp Require Import base tactics list strings gmap.
From S2P Require Import Prelude GoStrings GoText GoNumbers GoYaml ComposePolicy RoutingTypes RoutingDomain Admission StackDeploy.

Local Open Scope string_scope.
Local Open Scope list_scope.
Local Open Scope bool_scope.
Local Open Scope Z_scope.

(** ** Placement *)

Section Placement.
Context `{CaseTable} `{ComposeLib}.

(** The service with a constraint more. *)
Definition placed (nodeID : string) (constraints : list string) (service : entries) : entries :=
  let deploy := ensureMap service "deploy" in
  let placement := put_key "constraints" (Seq (map Str (constraints ++ [node_constraint nodeID]))) (ensureMap deploy "placement") in
  put_key "deploy" (Mapping (put_key "placement" (Mapping placement) deploy)) service.

Lemma pin_service_ok nodeID item item' :
  pin_service nodeID item = Ok item' ->
  exists service constraints, snd item = Mapping service /\
    constraintsList (at_key (ensureMap (ensureMap service "deploy") "placement") "constraints") = Ok constraints /\
    existsb names_node constraints = false /\ item' = (fst item, Mapping (placed nodeID constraints service)).
Proof.
  unfold pin_service. destruct (snd item) as [| | | | |service]; try done. cbn [asMap]. cbv zeta.
  destruct (constraintsList _) as [cs|] eqn:C; [|done]. destruct (existsb names_node cs) eqn:N; [done|]. intros [= <-]. by exists service, cs.
Qed.

(** A field besides [deploy] is as it was. *)
Lemma placed_find nodeID cs service k : k <> "deploy" -> find_entry k (placed nodeID cs service) = find_entry k service.
Proof. intros Hk. unfold placed. rewrite find_put. by destruct (String.eqb_spec k "deploy"). Qed.

Lemma placed_at nodeID cs service k : k <> "deploy" -> at_key (placed nodeID cs service) k = at_key service k.
Proof. intros Hk. unfold at_key. by rewrite placed_find. Qed.

(** So is a field of [deploy] besides [placement]. *)
Lemma placed_deploy nodeID cs service deploy :
  at_key service "deploy" = Mapping deploy ->
  exists deploy', at_key (placed nodeID cs service) "deploy" = Mapping deploy' /\
    forall k, k <> "placement" -> find_entry k deploy' = find_entry k deploy.
Proof.
  intros Hd. unfold placed. assert (ensureMap service "deploy" = deploy) as -> by (unfold ensureMap; by rewrite Hd). rewrite at_put. cbn iota. eexists. split; [done|].
  intros k Hk. rewrite find_put. by destruct (String.eqb_spec k "placement").
Qed.

Lemma same_at k m m' : find_entry k m' = find_entry k m -> at_key m' k = at_key m k.
Proof. unfold at_key. by intros ->. Qed.

Lemma resources_map v : validateResources v = Ok tt -> exists deploy, v = Mapping deploy.
Proof. unfold validateResources. destruct v; try done. by eexists. Qed.

Lemma validateService_placed nodeID cs name service :
  validateService (name, Mapping service) = Ok tt -> validateService (name, Mapping (placed nodeID cs service)) = Ok tt.
Proof.
  unfold validateService. cbn [fst snd asMap]. destruct (negb (composeNamePattern name)); [done|].
  rewrite (placed_at _ _ _ "image") by done. destruct (as_string _) as [image|]; [|done]. rewrite !all_ok_iff, !Forall_cons.
  intros (H1 & H2 & H3 & H4 & H5 & H6 & H7 & H8 & H9 & H10 & H11 & H12 & _).
  destruct (resources_map _ H12) as [deploy Hd]. destruct (placed_deploy nodeID cs service deploy Hd) as (deploy' & Hd' & Hsame).
  unfold host_namespaces, has_key, hasNonEmpty, restricted_fields, existsb in *.
  rewrite !placed_find, !placed_at by done. repeat split; try done. rewrite Hd'. rewrite Hd in H12.
  unfold validateResources in *. cbn [asMap] in *. by rewrite (same_at _ _ _ (Hsame "resources" ltac:(done))).
Qed.

Lemma validateCapacity_placed nodeID cs name service :
  validateCapacity (name, Mapping service) = Ok tt -> validateCapacity (name, Mapping (placed nodeID cs service)) = Ok tt.
Proof.
  unfold validateCapacity. cbn [fst snd asMap]. destruct (asMap (at_key service "deploy")) as [deploy|] eqn:Hd; [|done].
  assert (at_key service "deploy" = Mapping deploy) as Hd0 by (destruct (at_key service "deploy"); simpl in Hd; congruence).
  destruct (placed_deploy nodeID cs service deploy Hd0) as (deploy' & -> & Hsame). cbn [asMap].
  unfold composeReservations. by rewrite (Hsame "mode"), (same_at _ _ _ (Hsame "replicas" ltac:(done))), (same_at _ _ _ (Hsame "resources" ltac:(done))).
Qed.

Lemma composeLabels_placed nodeID cs service :
  (exists deploy, at_key service "deploy" = Mapping deploy) ->
  composeLabels (at_key (placed nodeID cs service) "deploy") = composeLabels (at_key service "deploy").
Proof.
  intros [deploy Hd]. destruct (placed_deploy nodeID cs service deploy Hd) as (deploy' & -> & Hsame). rewrite Hd.
  unfold composeLabels. cbn [asMap]. by rewrite (same_at _ _ _ (Hsame "labels" ltac:(done))).
Qed.

(** The services after placement, one by one. *)
Definition placed_item (nodeID : string) (item item' : string * value) : Prop :=
  exists service constraints, snd item = Mapping service /\ item' = (fst item, Mapping (placed nodeID constraints service)) /\
    constraintsList (at_key (ensureMap (ensureMap service "deploy") "placement") "constraints") = Ok constraints /\
    existsb names_node constraints = false.

Lemma pin_services_ok nodeID services services' :
  pin_services nodeID services = Ok services' -> Forall2 (placed_item nodeID) services services'.
Proof.
  revert services'. induction services as [|item services IH]; intros services'; simpl; [intros [= <-]; constructor|].
  destruct (pin_service nodeID item) as [item'|] eqn:P; [|done]. destruct (pin_services nodeID services) as [rest|]; [|done].
  intros [= <-]. constructor; [|by apply IH]. apply pin_service_ok in P as (service & cs & E1 & E2 & E3 & E4). by exists service, cs.
Qed.

Lemma each_Forall2 {A B} (R : A -> B -> Prop) (f : A -> check) (g : B -> check) l l' :
  Forall2 R l l' -> (forall a b, R a b -> f a = Ok tt -> g b = Ok tt) -> Forall (fun a => f a = Ok tt) l -> Forall (fun b => g b = Ok tt) l'.
Proof. intros HR Hfg. induction HR; intros Hf; [constructor|]. apply Forall_cons in Hf as [Hx Hl]. constructor; eauto. Qed.

Lemma placed_names nodeID services services' : Forall2 (placed_item nodeID) services services' -> map fst services' = map fst services.
Proof. induction 1 as [|item item' l l' (s & cs & _ & -> & _) Hl IH]; [done|]. simpl. by rewrite IH. Qed.

(** The document after placement. *)
Lemma pin_document_ok nodeID root root' :
  pin_document nodeID root = Ok root' ->
  exists services services', services_of root = Some services /\ services_of root' = Some services' /\
    Forall2 (placed_item nodeID) services services' /\ forall k, k <> "services" -> find_entry k root' = find_entry k root.
Proof.
  unfold pin_document. destruct (services_of root) as [services|] eqn:S; [|done]. destruct (pin_services nodeID services) as [services'|] eqn:P; [|done].
  intros [= <-]. apply pin_services_ok in P. exists services, services'. split; [done|]. split; [|split; [done|]].
  - unfold services_of. rewrite at_put. simpl. destruct services' as [|x l]; [|done].
    inversion P; subst. unfold services_of in S. repeat case_match; congruence.
  - intros k Hk. rewrite find_put. by destruct (String.eqb_spec k "services").
Qed.

Lemma top_level_same root root' kind f : find_entry kind root' = find_entry kind root -> top_level root' kind f = top_level root kind f.
Proof. unfold top_level. by intros ->. Qed.

Lemma check_document_pinned nodeID root root' :
  pin_document nodeID root = Ok root' -> check_document root = Ok tt -> check_document root' = Ok tt.
Proof.
  intros (services & services' & S & S' & F & Hk)%pin_document_ok. unfold check_document. rewrite S, S', !all_ok_iff, !Forall_app, !Forall_cons.
  intros [(H1 & H2 & H3 & H4 & H5 & _) H6]. unfold validateTopLevelExternalResources, validateTopLevelVolumes, validateTopLevelNetworks in *.
  rewrite !(top_level_same root root') by (by apply Hk). split.
  - repeat split; try done. by rewrite <- (Forall2_length _ _ _ F).
  - rewrite Forall_map in *. eapply each_Forall2; [exact F| |exact H6]. intros [n v] b (s & cs & E & -> & _) Hv. simpl in E. subst v. by apply validateService_placed.
Qed.

Lemma deploy_map name service : validateCapacity (name, Mapping service) = Ok tt -> exists deploy, at_key service "deploy" = Mapping deploy.
Proof. unfold validateCapacity. cbn [snd asMap]. destruct (at_key service "deploy") as [| | | | |d]; try done. by exists d. Qed.

Lemma routes_placed nodeID stack items items' :
  Forall2 (placed_item nodeID) items items' -> Forall (fun i => validateCapacity i = Ok tt) items ->
  Forall (fun i => validateServiceRoutes stack i = Ok tt) items -> Forall (fun i => validateServiceRoutes stack i = Ok tt) items'.
Proof.
  induction 1 as [|[name v] b l l' (s & cs & E & -> & _) Hl IH]; intros Hc Hr; [constructor|]. simpl in E. subst v.
  apply Forall_cons in Hc as [Hc1 Hc]. apply Forall_cons in Hr as [Hr1 Hr]. constructor; [|by apply IH].
  unfold validateServiceRoutes in *. cbn [fst snd asMap] in *. by rewrite composeLabels_placed by (by eapply deploy_map).
Qed.

Lemma networks_placed nodeID stack services services' item :
  Forall2 (placed_item nodeID) services services' -> validateExternalNetwork stack services' item = validateExternalNetwork stack services item.
Proof.
  intros F%placed_names. unfold validateExternalNetwork. by rewrite <- !(map_map fst (route_network stack)), F.
Qed.

Lemma admit_document_pinned nodeID stack root root' :
  pin_document nodeID root = Ok root' -> admit_document stack root = Ok tt -> admit_document stack root' = Ok tt.
Proof.
  intros (services & services' & S & S' & F & Hk)%pin_document_ok. unfold admit_document. rewrite !all_ok_iff, !Forall_cons.
  intros (H1 & H2 & H3 & _). unfold validateWorkloadCapacity, validateWorkloadRoutes in *. rewrite S in H2, H3. rewrite S'.
  unfold each in *. rewrite !all_ok_iff, !Forall_map in *. split; [|split; [|split; [|done]]].
  - unfold validateWorkloadExternalResources, validateScopedExternalResources, validateExternalNetworks in *. rewrite S in H1. rewrite S'.
    rewrite !all_ok_iff, !Forall_app in *. cbn [map] in *. rewrite !(top_level_same root root') by (by apply Hk). rewrite (Hk "networks") by done.
    destruct H1 as [H1a H1b]. split; [done|]. rewrite Forall_singleton in *. destruct (find_entry "networks" root) as [[]|]; try done.
    rewrite each_iff in *. intros x Hx. rewrite (networks_placed nodeID stack services services') by done. by apply H1b.
  - eapply each_Forall2; [exact F| |exact H2]. intros [n v] b (s & cs & E & -> & _) Hv. simpl in E. subst v. by apply validateCapacity_placed.
  - by eapply routes_placed.
Qed.

End Placement.

(** ** Stack admission: properties

    What reaches Docker was checked, placement changes nothing else, two stacks
    do not share names, and a route is encrypted or internal. *)

Section Accepted.
Context `{CaseTable} `{ComposeLib}.

(** ** Placement *)

(** The constraints of a service. *)
Definition constraints_of (service : entries) : result string (list string) :=
  constraintsList (at_key (ensureMap (ensureMap service "deploy") "placement") "constraints").

Lemma constraint_items_strs cs : Forall (fun c => blank c = false) cs -> constraint_items (map Str cs) = Ok cs.
Proof. induction 1 as [|c cs Hc Hcs IH]; [done|]. simpl. by rewrite Hc, IH. Qed.

Lemma constraint_items_blank l cs : constraint_items l = Ok cs -> Forall (fun c => blank c = false) cs.
Proof.
  revert cs. induction l as [|v l IH]; intros cs; simpl; [intros [= <-]; constructor|]. destruct v; try done.
  destruct (blank s) eqn:B; [done|]. destruct (constraint_items l) as [rest|]; [|done]. intros [= <-]. constructor; [done|by apply IH].
Qed.

Lemma constraints_blank v cs : constraintsList v = Ok cs -> Forall (fun c => blank c = false) cs.
Proof. destruct v; try done; [intros [= <-]; constructor|apply constraint_items_blank]. Qed.

Lemma node_constraint_not_blank n : blank (node_constraint n) = false.
Proof.
  unfold blank, node_constraint. destruct (TrimSpace_head "n"%char ("ode.id == " ++ n)%string eq_refl) as [t E].
  change ("node.id == " ++ n)%string with (String "n"%char ("ode.id == " ++ n)%string). by rewrite E.
Qed.

Lemma placed_constraints n cs service :
  Forall (fun c => blank c = false) cs -> constraints_of (placed n cs service) = Ok (cs ++ [node_constraint n]).
Proof.
  intros Hcs. unfold constraints_of, placed. cbv zeta. unfold ensureMap at 2. rewrite at_put. cbn [asMap]. simpl.
  unfold ensureMap at 1. rewrite at_put. simpl. rewrite at_put. simpl. apply constraint_items_strs.
  apply Forall_app. split; [done|]. constructor; [|constructor]. apply node_constraint_not_blank.
Qed.

(** The fields of [deploy] and of its [placement]; a value that is not an object
    has none. *)
Definition deploy_of (service : entries) : entries := ensureMap service "deploy".
Definition placement_of (service : entries) : entries := ensureMap (deploy_of service) "placement".

(** The two services agree outside [deploy], outside its [placement], and outside
    the constraints there. *)
Definition same_but_constraints (service service' : entries) : Prop :=
  (forall k, k <> "deploy" -> find_entry k service' = find_entry k service) /\
  (forall k, k <> "placement" -> find_entry k (deploy_of service') = find_entry k (deploy_of service)) /\
  (forall k, k <> "constraints" -> find_entry k (placement_of service') = find_entry k (placement_of service)).

Lemma placed_same nodeID cs service : same_but_constraints service (placed nodeID cs service).
Proof.
  split; [intros k Hk; by apply placed_find|].
  assert (deploy_of (placed nodeID cs service) = put_key "placement" (Mapping (put_key "constraints"
            (Seq (map Str (cs ++ [node_constraint nodeID]))) (placement_of service))) (deploy_of service)) as E.
  { unfold deploy_of at 1, placed, ensureMap at 1. by rewrite at_put. }
  split; intros k Hk.
  - rewrite E, find_put. by destruct (String.eqb_spec k "placement").
  - unfold placement_of at 1. rewrite E. unfold ensureMap at 1. rewrite at_put. cbn [String.eqb asMap]. simpl.
    rewrite find_put. by destruct (String.eqb_spec k "constraints").
Qed.

(** C15. Placing an accepted document on a node keeps it accepted, by the policy
    and by admission, and changes only the constraints: each service keeps its
    name and its constraints, none of which named a node, and has the chosen
    node as one constraint more; every other field of its placement, of its
    [deploy] section and of the service, and every other section of the
    document, is as it was.  (A [placement] that is not an object counts as an
    empty one.) *)
Theorem placement_keeps_admission nodeID stack root root' :
  pin_document nodeID root = Ok root' -> check_document root = Ok tt -> admit_document stack root = Ok tt ->
  check_document root' = Ok tt /\ admit_document stack root' = Ok tt /\
  (forall k, k <> "services" -> find_entry k root' = find_entry k root) /\
  exists services services', services_of root = Some services /\ services_of root' = Some services' /\
    Forall2 (fun item item' => exists service service' cs,
      item = (fst item, Mapping service) /\ item' = (fst item, Mapping service') /\
      constraints_of service = Ok cs /\ existsb names_node cs = false /\ constraints_of service' = Ok (cs ++ [node_constraint nodeID]) /\
      same_but_constraints service service') services services'.
Proof.
  intros Hp Hc Ha. split; [by eapply check_document_pinned|]. split; [by eapply admit_document_pinned|].
  apply pin_document_ok in Hp as (services & services' & S & S' & F & Hk). split; [done|]. exists services, services'. split; [done|]. split; [done|].
  eapply Forall2_impl; [exact F|]. intros [n v] b (service & cs & E & -> & Hcs & Hn). simpl in E. subst v.
  exists service, (placed nodeID cs service), cs. split; [done|]. split; [done|]. split; [done|]. split; [done|].
  split; [apply placed_constraints; by eapply constraints_blank|]. apply placed_same.
Qed.

(** ** Deployment *)

(** The text that Docker is given has been through both checks. *)
Definition passed (name text : string) : Prop :=
  ValidStackName name = true /\ HasPrefix name "production-" = true /\ len text <= maxComposeBytes /\
  exists root, yaml_Unmarshal text = Some root /\ check_document root = Ok tt /\ admit_document name root = Ok tt.

Lemma ValidateCompose_ok raw plan :
  ValidateCompose raw = Ok plan ->
  len raw <= maxComposeBytes /\ Digest plan = digest raw /\ exists root, yaml_Unmarshal raw = Some root /\ check_document root = Ok tt.
Proof.
  unfold ValidateCompose. destruct (len raw =? 0); [done|]. destruct (len raw >? maxComposeBytes) eqn:L; [done|].
  destruct (yaml_Unmarshal raw) as [root|]; [|done]. destruct (check_document root) as [[]|] eqn:C; [|done].
  intros [= <-]. split; [lia|]. split; [done|]. by exists root.
Qed.

Lemma ValidateApplicationStack_ok name raw :
  ValidateApplicationStack name raw = Ok tt ->
  HasPrefix name "production-" = true /\ exists root, yaml_Unmarshal raw = Some root /\ admit_document name root = Ok tt.
Proof.
  unfold ValidateApplicationStack. destruct (HasPrefix name _) eqn:P; [|done]. simpl. destruct (yaml_Unmarshal raw) as [root|]; [|done].
  intros Ha. split; [done|]. by exists root.
Qed.

(** What a deployment adds to the runs: nothing, or the rendering and then the
    deployment, of one text. *)
Definition docker_runs (c : ControlPlane) (name text : string) : list dockerRun :=
  [mkRun config_args text; mkRun (deploy_args (cli_ConfigDir c) name) text].

Lemma Deploy_spec c name raw s r s' :
  Deploy c name raw s = (r, s') ->
  (audit s' = audit s /\ recordings s' = recordings s) /\
  exists n, runs s' = runs s ++ take n (docker_runs c name raw) /\
    ((n = 0%nat /\ is_ok r = false) \/ (ValidStackName name = true /\ exists plan, ValidateCompose raw = Ok plan /\ (is_ok r = true -> r = Ok plan /\ n = 2%nat))).
Proof.
  unfold Deploy. rewrite guard_bind. destruct (deployer_Enabled c); [|intros [= <- <-]; split; [done|]; exists 0%nat; rewrite app_nil_r; by auto].
  rewrite guard_bind. destruct (ValidStackName name); [|intros [= <- <-]; split; [done|]; exists 0%nat; rewrite app_nil_r; by auto].
  unfold tx_bind at 1, tx_lift. destruct (ValidateCompose raw) as [plan|e]; [|intros [= <- <-]; split; [done|]; exists 0%nat; rewrite app_nil_r; by auto].
  unfold tx_bind at 1, RunInput at 1. destruct (answers s) as [|[] rest] eqn:A.
  3: { intros [= <- <-]. split; [done|]. exists 1%nat. split; [done|]. right. split; [done|]. by exists plan. }
  all: unfold tx_bind, RunInput, tx_ret; simpl; try destruct rest as [|[] rest]; intros [= <- <-]; (split; [done|]); exists 2%nat;
    (split; [simpl; by rewrite <- app_assoc|]); right; (split; [done|]); by exists plan.
Qed.

(** C12. What reaches Docker was checked.  [DeployStack] runs Docker, if at all,
    on the document it placed, after the policy and admission accepted that very
    text for that stack name, first to render and then to deploy it; it does so
    only with mutations enabled and after the audit log was found writable, and
    then writes exactly one audit record, whose outcome is that of the call; that
    record is missing only when writing it fails, which is not reported. *)
Theorem deployed_document_was_checked c actor requestID name raw nodeID s r s' :
  DeployStack c actor requestID name raw nodeID s = (r, s') ->
  (runs s' = runs s \/
   exists text n, PinComposeToNode raw nodeID = Ok text /\ passed name text /\ runs s' = runs s ++ take n (docker_runs c name text) /\
     (is_ok r = true -> n = 2%nat)) /\
  (is_ok r = true -> exists text plan, PinComposeToNode raw nodeID = Ok text /\ r = Ok plan /\ Digest plan = digest text) /\
  ((audit s' = audit s /\ runs s' = runs s /\ is_ok r = false) \/
   (Mutations c = true /\ audit_writable c = Some true /\ exists detail,
      audit s' = audit s ++ kept s (mkEvent "stack.deploy" actor detail (if is_ok r then "success" else "failure") requestID ("stack/" ++ name)))).
Proof.
  unfold DeployStack. rewrite guard_bind. destruct (Mutations c) eqn:M; [|intros [= <- <-]; split; [by left|]; split; [done|by left]].
  unfold tx_bind at 1, tx_lift, requireAudit. destruct (audit_writable c) as [[]|] eqn:A; try (intros [= <- <-]; split; [by left|]; split; [done|by left]).
  cbv zeta. destruct (PinComposeToNode raw nodeID) as [text|e] eqn:P.
  2: { unfold tx_bind, record, tx_fail. rewrite A. intros [= <- <-]. split; [by left|]. split; [done|]. right. split; [done|]. split; [done|]. by eexists. }
  destruct (ValidateApplicationStack name text) as [[]|e] eqn:V.
  2: { unfold tx_bind, record, tx_fail. rewrite A. intros [= <- <-]. split; [by left|]. split; [done|]. right. split; [done|]. split; [done|]. by eexists. }
  apply ValidateApplicationStack_ok in V as (Hpre & root & U & Ha).
  destruct (Deploy c name text s) as [r0 s0] eqn:D. apply Deploy_spec in D as ([Au Rec] & n & R & Hcase).
  assert (runs s0 = runs s \/ (passed name text /\ runs s0 = runs s ++ take n (docker_runs c name text) /\ (is_ok r0 = true -> n = 2%nat))) as Hruns.
  { destruct Hcase as [[-> _]|(Hn & plan & Hv & Hok)]; [left; by rewrite R, app_nil_r|]. right.
    apply ValidateCompose_ok in Hv as (L & _ & root2 & U2 & Hc). rewrite U in U2. injection U2 as <-.
    split; [split; [done|]; split; [done|]; split; [done|]; by exists root|]. split; [done|]. intros Hr. by apply Hok. }
  intros Hr. assert (runs s' = runs s0 /\ is_ok r = is_ok r0 /\ (forall plan, r0 = Ok plan -> r = Ok plan) /\ exists detail,
    audit s' = audit s0 ++ kept s0 (mkEvent "stack.deploy" actor detail (if is_ok r0 then "success" else "failure") requestID ("stack/" ++ name))) as (E1 & E2 & E3 & detail & E4).
  { destruct r0 as [plan|e]; unfold tx_bind, record, tx_ret, tx_fail in Hr; rewrite A in Hr; injection Hr as <- <-; simpl; repeat split; try done; by eexists. }
  split; [|split].
  - destruct Hruns as [Hs|(Hp & Hrs & Hok)]; [left; congruence|]. right. exists text, n. split; [done|]. split; [done|]. split; [congruence|].
    intros Ho. apply Hok. congruence.
  - intros Ho. destruct r0 as [plan|]; [|simpl in E2; congruence]. exists text, plan. split; [done|]. split; [by apply E3|].
    destruct Hcase as [[_ ?]|(_ & plan' & Hv & Hok)]; [done|]. destruct (Hok eq_refl) as [[= ->] _]. by apply ValidateCompose_ok in Hv as (_ & ? & _).
  - right. split; [done|]. split; [done|]. exists detail. unfold kept in *. by rewrite E4, Au, Rec, E2.
Qed.

End Accepted.
