(* ===== verification/AdmissionRoutes.v ===== *)
(** * Stack admission: names and routes

    The names an admitted stack may use are its own, so that two stacks of which
    neither is named inside the other's namespace share none; and every Traefik
    label of an admitted stack belongs to a router that is encrypted or
    internal. *)

From Stdlib Require Import ZArith Lia Bool Ascii String.
From stdpp Require Import base tactics list strings gmap.
From S2P Require Import Prelude GoStrings GoText GoNumbers GoYaml ComposePolicy RoutingTypes RoutingDomain RoutingLabels Admission.

Local Open Scope string_scope.
Local Open Scope list_scope.
Local Open Scope bool_scope.
Local Open Scope Z_scope.

(** ** Text *)

Lemma bytes_substring n m s : bytes (String.substring n m s) = take m (drop n (bytes s)).
Proof.
  revert n m. induction s as [|c s IH]; intros [|n] [|m]; try done.
  - change (c :: bytes (String.substring 0 m s) = c :: take m (bytes s)). by rewrite IH.
  - exact (IH n 0%nat).
  - exact (IH n (S m)).
Qed.

Lemma HasSuffix_split s suffix : HasSuffix s suffix = true -> s = (TrimSuffix s suffix ++ suffix)%string.
Proof.
  intros Hs. unfold TrimSuffix. rewrite Hs. unfold HasSuffix in Hs. apply andb_prop in Hs as [Hl E%String.eqb_eq].
  apply (f_equal bytes) in E. rewrite bytes_substring in E. apply Z.leb_le in Hl. unfold len in Hl.
  rewrite <- (of_bytes_bytes s) at 1. rewrite <- (of_bytes_bytes (_ ++ suffix)%string), bytes_app, bytes_of_bytes. f_equal.
  rewrite <- (take_drop (String.length s - String.length suffix) (bytes s)) at 1. f_equal. rewrite <- E.
  rewrite take_ge; [done|]. rewrite length_drop, length_bytes. lia.
Qed.

Lemma HasPrefix_split s p : HasPrefix s p = true -> s = (p ++ TrimPrefix s p)%string.
Proof.
  intros Hp. unfold TrimPrefix. rewrite Hp. apply prefix_split in Hp as [t ->].
  by rewrite bytes_app, <- length_bytes, drop_app_length, of_bytes_bytes.
Qed.

Lemma HasPrefix_bytes s p : HasPrefix s p = true <-> bytes p `prefix_of` bytes s.
Proof.
  split.
  - intros [t ->]%prefix_split. rewrite bytes_app. by eexists.
  - intros [k E]. assert (s = (p ++ of_bytes k)%string) as ->; [|apply prefix_append].
    by rewrite <- (of_bytes_bytes s), E, <- (of_bytes_bytes (p ++ _)%string), bytes_app, bytes_of_bytes.
Qed.

(** Two namespaces with a separator share a name only when they are the same or
    one is named inside the other. *)
Lemma namespaces_apart a b ca cb name :
  HasPrefix name (a ++ String ca "")%string = true -> HasPrefix name (b ++ String cb "")%string = true ->
  a = b \/ HasPrefix b (a ++ String ca "")%string = true \/ HasPrefix a (b ++ String cb "")%string = true.
Proof.
  rewrite !HasPrefix_bytes, !bytes_app. cbn [bytes list_ascii_of_string]. intros [x Ex] [y Ey]. rewrite Ex in Ey.
  rewrite <- !app_assoc in Ey. destruct (Nat.lt_trichotomy (length (bytes a)) (length (bytes b))) as [Hlt|[Heq|Hgt]].
  - right. left. apply (f_equal (take (length (bytes b)))) in Ey. rewrite take_app_length, take_app_ge in Ey by lia.
    destruct (length (bytes b) - length (bytes a))%nat as [|n] eqn:D; [lia|]. exists (take n x). rewrite <- Ey, <- app_assoc. done.
  - left. apply app_inj_1 in Ey as [Ey _]; [|done]. by rewrite <- (of_bytes_bytes a), Ey, of_bytes_bytes.
  - right. right. apply (f_equal (take (length (bytes a)))) in Ey. rewrite take_app_length in Ey. symmetry in Ey. rewrite take_app_ge in Ey by lia.
    destruct (length (bytes a) - length (bytes b))%nat as [|n] eqn:D; [lia|]. exists (take n y). rewrite <- Ey, <- app_assoc. done.
Qed.

Section Routes.
Context `{CaseTable} `{ComposeLib}.

(** ** Labels *)

Definition router_prefix : string := "traefik.http.routers.".
Definition service_prefix : string := "traefik.http.services.".

Definition label_key (prefix router field : string) : string := (prefix ++ router ++ "." ++ field)%string.

Lemma split_field_ok remainder fields router field :
  split_field remainder fields = Some (router, field) -> remainder = (router ++ "." ++ field)%string /\ In field fields.
Proof.
  induction fields as [|f fields IH]; simpl; [done|]. destruct (HasSuffix remainder _) eqn:Hs.
  - destruct (_ =? "")%string; [done|]. intros [= <- <-]. split; [by apply HasSuffix_split|by left].
  - intros Hr. apply IH in Hr as [? ?]. auto.
Qed.

Lemma splitTraefikLabel_ok key prefix router field :
  splitTraefikLabel key prefix = Some (router, field) -> key = label_key prefix router field /\ In field label_fields.
Proof.
  unfold splitTraefikLabel. destruct (HasPrefix key prefix) eqn:Hp; [|done]. destruct (_ =? "")%string; [done|].
  intros [E Hin]%split_field_ok. split; [|done]. unfold label_key. rewrite <- E. by apply HasPrefix_split.
Qed.

(** The fields a router may have. *)
Definition router_fields : list string :=
  ["rule"; "tls.certresolver"; "entrypoints"; "service"; "observability.metrics"; "observability.accesslogs"; "tls"].

Lemma set_router_ok stack router field v c c' :
  set_router stack router field v c = Ok c' ->
  HasPrefix router (stack ++ "-")%string = true /\ In field router_fields /\ servicePorts c' = servicePorts c /\ hasTraefikLabel c' = true /\
  exists e, routers c' = <[router := e]> (routers c) /\
    let old := match routers c !! router with Some e => e | None => mkRouter "" "" "" "" end in
    ar_rule e = (if (field =? "rule")%string then v else ar_rule old) /\
    ar_resolver e = (if (field =? "tls.certresolver")%string then v else ar_resolver old) /\
    ar_entrypoints e = (if (field =? "entrypoints")%string then v else ar_entrypoints old).
Proof.
  unfold set_router. destruct (HasPrefix router _); [|done]. cbn [negb]. cbv zeta.
  set (old := match routers c !! router with Some e => e | None => _ end).
  intros Hc. split; [done|].
  assert (In field router_fields /\ exists e, c' = mkCollected (<[router := e]> (routers c)) (servicePorts c) true /\
    ar_rule e = (if (field =? "rule")%string then v else ar_rule old) /\
    ar_resolver e = (if (field =? "tls.certresolver")%string then v else ar_resolver old) /\
    ar_entrypoints e = (if (field =? "entrypoints")%string then v else ar_entrypoints old)) as (Hf & e & -> & Hrest).
  { unfold router_fields. destruct (String.eqb_spec field "rule") as [->|N1]; [split; [by left|]; injection Hc as <-; by eexists|].
    destruct (String.eqb_spec field "tls.certresolver") as [->|N2]; [split; [right; by left|]; injection Hc as <-; by eexists|].
    destruct (String.eqb_spec field "entrypoints") as [->|N3]; [split; [do 2 right; by left|]; injection Hc as <-; by eexists|].
    destruct (String.eqb_spec field "service") as [->|N4]; [split; [do 3 right; by left|]; injection Hc as <-; by eexists|].
    destruct (oneOfString field _) eqn:F; [|done]. destruct (oneOfString v _); [|done]. apply oneOfString_In in F.
    split; [simpl in F |- *; tauto|]. injection Hc as <-. by eexists. }
  split; [done|]. split; [done|]. split; [done|]. by exists e.
Qed.

Lemma set_port_ok stack router field v c c' :
  set_port stack router field v c = Ok c' ->
  HasPrefix router (stack ++ "-")%string = true /\ field = "loadbalancer.server.port" /\ routers c' = routers c /\ hasTraefikLabel c' = true.
Proof.
  unfold set_port. destruct (HasPrefix router _); [|done]. simpl. destruct (String.eqb_spec field "loadbalancer.server.port"); [|done].
  by intros [= <-].
Qed.

(** What one label does. *)
Lemma collect_ok stack c key v c' :
  collect stack (Ok c) (key, v) = Ok c' ->
  (HasPrefix key "traefik." = false /\ c' = c) \/
  (In key ["traefik.enable"; "traefik.swarm.network"] /\ routers c' = routers c /\ hasTraefikLabel c' = true) \/
  (exists router field, key = label_key router_prefix router field /\ set_router stack router field v c = Ok c') \/
  (exists router, key = label_key service_prefix router "loadbalancer.server.port" /\ HasPrefix router (stack ++ "-")%string = true /\
     routers c' = routers c /\ hasTraefikLabel c' = true).
Proof.
  unfold collect. destruct (HasPrefix key "traefik."); [|intros [= <-]; by left]. cbn [negb].
  destruct (oneOfString key _) eqn:O1; [intros [= <-]; right; left; split; [by apply oneOfString_In|done]|].
  destruct (splitTraefikLabel key "traefik.http.routers.") as [[router field]|] eqn:S1.
  - intros Hs. do 2 right. left. exists router, field. split; [|done]. by apply splitTraefikLabel_ok in S1 as [? _].
  - destruct (splitTraefikLabel key "traefik.http.services.") as [[router field]|] eqn:S2; [|done]. intros Hs. do 3 right.
    apply set_port_ok in Hs as (Hp & -> & Hr & Ht). exists router. apply splitTraefikLabel_ok in S2 as [? _]. done.
Qed.

Lemma collect_err stack l e : foldl (collect stack) (Err e) l = Err e.
Proof. by induction l. Qed.

Lemma collect_cons stack c kv l c' :
  foldl (collect stack) (Ok c) (kv :: l) = Ok c' -> exists c1, collect stack (Ok c) kv = Ok c1 /\ foldl (collect stack) (Ok c1) l = Ok c'.
Proof. cbn [foldl]. destruct (collect stack (Ok c) kv) as [c1|e]; [by exists c1|]. by rewrite collect_err. Qed.

(** A field of a router that a label has set is what that label says. *)
Definition holds_field (get : approvedRouter -> string) (router v : string) (c : Collected) : Prop :=
  exists e, routers c !! router = Some e /\ get e = v.

(** [get] is the record's field for the label's field. *)
Definition reads_field (get : approvedRouter -> string) (field : string) : Prop :=
  (get = ar_rule /\ field = "rule") \/ (get = ar_resolver /\ field = "tls.certresolver") \/ (get = ar_entrypoints /\ field = "entrypoints").

Lemma set_router_get stack router field v c c' get f :
  set_router stack router field v c = Ok c' -> reads_field get f ->
  exists e, routers c' = <[router := e]> (routers c) /\
    get e = if (field =? f)%string then v else match routers c !! router with Some e => get e | None => "" end.
Proof.
  intros (_ & _ & _ & _ & e & Hr & H1 & H2 & H3)%set_router_ok Hg. exists e. split; [done|].
  destruct Hg as [[-> ->]|[[-> ->]|[-> ->]]]; [rewrite H1|rewrite H2|rewrite H3]; by destruct (routers c !! router), (field =? _)%string.
Qed.

Lemma field_stays stack l c c' get f router v :
  reads_field get f -> foldl (collect stack) (Ok c) l = Ok c' -> ~ In (label_key router_prefix router f) (map fst l) ->
  holds_field get router v c -> holds_field get router v c'.
Proof.
  intros Hg. revert c. induction l as [|[key w] l IH]; intros c Hf Hn Hh; [by injection Hf as <-|].
  apply collect_cons in Hf as (c1 & H1 & Hf). eapply IH; [exact Hf|intros Hin; apply Hn; by right|].
  destruct Hh as (e & He & Hv). unfold holds_field.
  apply collect_ok in H1 as [[_ ->]|[(_ & -> & _)|[(r & field & Hk & Hs)|(r & _ & _ & -> & _)]]]; [by exists e..| |by exists e].
  destruct (set_router_get _ _ _ _ _ _ _ _ Hs Hg) as (e' & -> & Hget). destruct (String.eqb_spec r router) as [->|Hne].
  - exists e'. rewrite lookup_insert_eq. split; [done|]. rewrite Hget, He. destruct (String.eqb_spec field f) as [->|]; [|done].
    destruct Hn. left. done.
  - exists e. by rewrite lookup_insert_ne.
Qed.

(** Every label was read, and set what it says. *)
Lemma collect_reads stack l c c' key v :
  foldl (collect stack) (Ok c) l = Ok c' -> NoDup (map fst l) -> In (key, v) l -> HasPrefix key "traefik." = true ->
  In key ["traefik.enable"; "traefik.swarm.network"] \/
  (exists router, key = label_key service_prefix router "loadbalancer.server.port" /\ HasPrefix router (stack ++ "-")%string = true) \/
  (exists router field, key = label_key router_prefix router field /\ HasPrefix router (stack ++ "-")%string = true /\ In field router_fields /\
     is_Some (routers c' !! router) /\ forall get, reads_field get field -> holds_field get router v c').
Proof.
  revert c. induction l as [|[key0 w] l IH]; intros c Hf Hnd Hin Hp; [done|].
  apply collect_cons in Hf as (c1 & H1 & Hf). cbn [map fst] in Hnd. apply NoDup_cons in Hnd as [Hn0 Hnd].
  destruct Hin as [[= -> ->]|Hin]; [|by eapply IH].
  apply collect_ok in H1 as [[? _]|[(Hk & _)|[(r & field & Hk & Hs)|(r & Hk & Hr & _)]]]; [congruence|by left| |right; left; by exists r].
  right. right. exists r, field. split; [done|]. pose proof (set_router_ok _ _ _ _ _ _ Hs) as (Hr & Hfl & _ & _ & e & Hrs & _).
  split; [done|]. split; [done|]. split.
  - assert (forall l c, is_Some (routers c !! r) -> foldl (collect stack) (Ok c) l = Ok c' -> is_Some (routers c' !! r)) as Hstay.
    { clear. intros l. induction l as [|[k w] l IH]; intros c Hc Hf; [by injection Hf as <-|]. apply collect_cons in Hf as (c1 & H1 & Hf).
      eapply IH; [|exact Hf]. apply collect_ok in H1 as [[_ ->]|[(_ & -> & _)|[(r' & f & _ & Hs)|(r' & _ & _ & -> & _)]]]; try done.
      apply set_router_ok in Hs as (_ & _ & _ & _ & e & -> & _). destruct (String.eqb_spec r' r) as [->|]; [rewrite lookup_insert_eq; by eexists|].
      by rewrite lookup_insert_ne. }
    eapply Hstay; [|exact Hf]. rewrite Hrs, lookup_insert_eq. by eexists.
  - intros get Hg. eapply field_stays; [exact Hg|exact Hf|rewrite <- Hk; by rewrite <- list_elem_of_In|].
    destruct (set_router_get _ _ _ _ _ _ _ _ Hs Hg) as (e' & Hr' & Hget). exists e'. rewrite Hr', lookup_insert_eq. split; [done|].
    by rewrite Hget, String.eqb_refl.
Qed.

(** A field that was set comes from a label. *)
Lemma collect_from stack l c c' get f router e :
  reads_field get f -> foldl (collect stack) (Ok c) l = Ok c' -> routers c' !! router = Some e -> get e <> "" ->
  In (label_key router_prefix router f, get e) l \/ holds_field get router (get e) c.
Proof.
  intros Hg. revert c. induction l as [|[key w] l IH]; intros c Hf He Hne; [injection Hf as <-; right; by exists e|].
  apply collect_cons in Hf as (c1 & H1 & Hf). destruct (IH _ Hf He Hne) as [Hin|(e1 & He1 & Hget)]; [left; by right|].
  apply collect_ok in H1 as [[_ ->]|[(_ & Er & _)|[(r & field & Hk & Hs)|(r & _ & _ & Er & _)]]]; [right; by exists e1|rewrite Er in He1; right; by exists e1| |rewrite Er in He1; right; by exists e1].
  destruct (set_router_get _ _ _ _ _ _ _ _ Hs Hg) as (e2 & Er & Hget2). rewrite Er in He1. destruct (String.eqb_spec r router) as [->|Hr].
  - rewrite lookup_insert_eq in He1. injection He1 as <-. rewrite Hget in Hget2. destruct (String.eqb_spec field f) as [->|Hff].
    + left. left. by rewrite Hk, Hget2.
    + right. destruct (routers c !! router) as [e0|] eqn:E0; [|congruence]. by exists e0.
  - right. rewrite lookup_insert_ne in He1 by done. by exists e1.
Qed.

Lemma collect_has stack l c c' :
  foldl (collect stack) (Ok c) l = Ok c' ->
  hasTraefikLabel c = true \/ (exists kv, In kv l /\ HasPrefix (fst kv) "traefik." = true) -> hasTraefikLabel c' = true.
Proof.
  revert c. induction l as [|[k w] l IH]; intros c Hf Hc; [injection Hf as <-; by destruct Hc as [|(? & ? & _)]|].
  apply collect_cons in Hf as (c1 & H1 & Hf). apply (IH c1 Hf).
  apply collect_ok in H1 as [[Hk ->]|[(_ & _ & ->)|[(r & f & _ & Hs)|(r & _ & _ & _ & ->)]]]; [|by left| |by left].
  - destruct Hc as [|(kv & [<-|Hin] & Hp)]; [by left|simpl in Hp; congruence|right; by exists kv].
  - apply set_router_ok in Hs as (_ & _ & _ & -> & _). by left.
Qed.

(** A label names one field of one router. *)
Lemma router_field_ends f g : In f router_fields -> In g router_fields -> f = g \/ last2 f <> last2 g.
Proof.
  assert (forallb (fun f => forallb (fun g => (f =? g)%string || negb (bool_decide (last2 f = last2 g))) router_fields) router_fields = true) as Hall by done.
  intros Hf Hg. rewrite forallb_forall in Hall. specialize (Hall f Hf). rewrite forallb_forall in Hall. specialize (Hall g Hg).
  apply orb_prop in Hall as [E%String.eqb_eq|E]; [by left|right]. apply negb_true_iff, bool_decide_eq_false in E. done.
Qed.

Lemma label_key_inj p r f r' f' :
  In f router_fields -> In f' router_fields -> label_key p r f = label_key p r' f' -> r = r' /\ f = f'.
Proof.
  intros Hf Hf' E. assert (forall g, In g router_fields -> (2 <= String.length g)%nat) as Hlen.
  { intros g Hg. unfold router_fields in Hg. simpl in Hg. repeat (destruct Hg as [<-|Hg]; [simpl; lia|]). done. }
  assert (forall q g, label_key p q g = ((p ++ q ++ ".") ++ g)%string) as Hk by (intros; unfold label_key; by rewrite !string_app_assoc).
  destruct (router_field_ends f f' Hf Hf') as [<-|Hne].
  - split; [|done]. rewrite !Hk in E. apply (f_equal bytes) in E. rewrite !bytes_app in E. apply app_inv_tail in E.
    rewrite !app_assoc in E. apply app_inv_tail, app_inv_head in E. by rewrite <- (of_bytes_bytes r), E, of_bytes_bytes.
  - exfalso. rewrite !Hk in E. revert E. apply app_neq; auto.
Qed.

(** ** Routes of an admitted stack *)

(** The router is complete, and either internal under the name derived from the
    service, or public through the encrypted entry point with a certificate
    resolver. *)
Definition confined_router (labels : gmap string string) (stack service router : string) : Prop :=
  exists rule host, labels !! label_key router_prefix router "rule" = Some rule /\ routerRulePattern (TrimSpace rule) = Some host /\
    if HasSuffix router "-internal" then
      labels !! label_key router_prefix router "entrypoints" = Some "internal-http" /\
      ToLower (TrimSuffix (TrimSpace host) ".") = internal_host stack service /\
      (forall v, labels !! label_key router_prefix router "tls.certresolver" = Some v -> v = "")
    else
      labels !! label_key router_prefix router "entrypoints" = Some "websecure" /\
      exists v, labels !! label_key router_prefix router "tls.certresolver" = Some v /\ blank v = false.

(** What a label of an admitted service may be. *)
Definition confined_label (labels : gmap string string) (stack service key v : string) : Prop :=
  (key = "traefik.enable" /\ In v ["true"; "false"]) \/ (key = "traefik.swarm.network" /\ v = route_network stack service) \/
  (exists name, HasPrefix name (stack ++ "-")%string = true /\ key = label_key service_prefix name "loadbalancer.server.port") \/
  (exists name field, HasPrefix name (stack ++ "-")%string = true /\ key = label_key router_prefix name field /\ In field router_fields /\
     confined_router labels stack service name).

(** A label of a router determines the field. *)
Lemma collected_field stack labels c router v e get f :
  reads_field get f -> foldl (collect stack) (Ok no_labels) (map_to_list labels) = Ok c -> routers c !! router = Some e ->
  labels !! label_key router_prefix router f = Some v -> get e = v.
Proof.
  intros Hg Hf He Hl. assert (In (label_key router_prefix router f, v) (map_to_list labels)) as Hin
    by (apply list_elem_of_In; by apply elem_of_map_to_list).
  assert (HasPrefix (label_key router_prefix router f) "traefik." = true) as Hp by done.
  destruct (collect_reads _ _ _ _ _ _ Hf (NoDup_fst_map_to_list _) Hin Hp) as [Hk|[(r & Hk & _)|(r & f' & Hk & _ & Hf' & _ & Hh)]].
  - exfalso. destruct Hk as [E|[E|[]]]; discriminate E.
  - exfalso. discriminate Hk.
  - assert (In f router_fields) as Hfl by (destruct Hg as [[_ ->]|[[_ ->]|[_ ->]]]; unfold router_fields; simpl; tauto).
    apply label_key_inj in Hk as [-> ->]; [|done|done]. destruct (Hh get Hg) as (e' & He' & <-). congruence.
Qed.

Lemma router_confined stack service labels c router e :
  foldl (collect stack) (Ok no_labels) (map_to_list labels) = Ok c -> routers c !! router = Some e ->
  validateRouter stack service (servicePorts c) (router, e) = Ok tt -> confined_router labels stack service router.
Proof.
  intros Hf He Hv. unfold validateRouter in Hv.
  assert (forall get f, reads_field get f -> get e <> "" -> labels !! label_key router_prefix router f = Some (get e)) as Hget.
  { intros get f Hg Hne. destruct (collect_from _ _ _ _ _ _ _ _ Hg Hf He Hne) as [Hin|(e0 & He0 & _)]; [|by simpl in He0].
    by apply list_elem_of_In, elem_of_map_to_list in Hin. }
  assert (forall get f v, reads_field get f -> labels !! label_key router_prefix router f = Some v -> get e = v) as Hset
    by (intros; by eapply collected_field).
  assert (reads_field ar_rule "rule") as R1 by (by left). assert (reads_field ar_resolver "tls.certresolver") as R2 by (right; by left).
  assert (reads_field ar_entrypoints "entrypoints") as R3 by (right; by right).
  destruct (String.eqb_spec (ar_rule e) "") as [|Hrule]; [done|]. destruct (String.eqb_spec (ar_entrypoints e) "") as [|Hentry]; [done|]. cbn [orb] in Hv.
  destruct (routerRulePattern _) as [host|] eqn:P; [|done]. cbv zeta in Hv. exists (ar_rule e), host.
  split; [by apply (Hget _ _ R1)|]. split; [done|]. destruct (HasSuffix router "-internal").
  - apply refuse_if_iff in Hv. apply orb_false_iff in Hv as [Hv V3]. apply orb_false_iff in Hv as [V1 V2].
    apply negb_false_iff, String.eqb_eq in V1, V2, V3. split; [rewrite <- V2; by apply (Hget _ _ R3)|]. split; [done|].
    intros v Hl. rewrite <- (Hset _ _ _ R2 Hl). done.
  - apply all_ok_iff in Hv. rewrite !Forall_cons, !refuse_if_iff in Hv. destruct Hv as (V1 & V2 & _). apply negb_false_iff, String.eqb_eq in V1.
    split; [rewrite <- V1; by apply (Hget _ _ R3)|]. exists (ar_resolver e). split; [|done]. apply (Hget _ _ R2). intros E. by rewrite E in V2.
Qed.

(** C13. Every deploy label of a service in an admitted stack whose key starts
    with [traefik.] in lower case is confined: it switches Traefik on or off,
    names the service's own route network, gives the port of a service in the
    stack's namespace, or belongs to a router in that namespace which has a rule
    for a single host and which is either internal (private entry point, the
    host name derived from the service, no certificate) or public through the
    encrypted entry point with a certificate resolver.  No middleware, TCP or UDP
    router and no clear-text public router is admitted under such a key.  Keys
    that spell the prefix in another case are not looked at by the code, and not
    covered; neither is which service a router's [service] label names. *)
Theorem admitted_routes_are_confined stack root services item service labels key v :
  admit_document stack root = Ok tt -> services_of root = Some services -> In item services -> snd item = Mapping service ->
  composeLabels (at_key service "deploy") = Ok labels -> labels !! key = Some v -> HasPrefix key "traefik." = true ->
  confined_label labels stack (fst item) key v.
Proof.
  intros Ha Hs Hi Hsv Hl Hk Hp. unfold admit_document in Ha. rewrite all_ok_iff, !Forall_cons in Ha. destruct Ha as (_ & _ & Ha & _).
  unfold validateWorkloadRoutes in Ha. rewrite Hs, each_iff in Ha. specialize (Ha item Hi). unfold validateServiceRoutes in Ha.
  rewrite Hsv in Ha. cbn [asMap] in Ha. rewrite Hl in Ha. destruct (foldl _ _ _) as [c|] eqn:F; [|done].
  assert (In (key, v) (map_to_list labels)) as Hin by (apply list_elem_of_In; by apply elem_of_map_to_list).
  rewrite (collect_has _ _ _ _ F (or_intror (ex_intro _ (key, v) (conj Hin Hp)))) in Ha. cbn [negb] in Ha.
  rewrite all_ok_iff, Forall_app, !Forall_cons, !refuse_if_iff, Forall_map in Ha. destruct Ha as [(A1 & _) A3].
  apply orb_false_iff in A1 as [A1 A2]. apply negb_false_iff in A1, A2. apply oneOfString_In in A1. apply String.eqb_eq in A2.
  unfold label in A1, A2. unfold confined_label.
  destruct (collect_reads _ _ _ _ _ _ F (NoDup_fst_map_to_list _) Hin Hp) as [Hkey|[(r & Hkey & Hr)|(r & f & Hkey & Hr & Hf & [e He] & _)]].
  - destruct Hkey as [<-|[<-|[]]]; [left; split; [done|]; by rewrite Hk in A1|right; left; split; [done|]; by rewrite Hk in A2].
  - right. right. left. by exists r.
  - do 3 right. exists r, f. split; [done|]. split; [done|]. split; [done|]. eapply router_confined; [exact F|exact He|].
    rewrite Forall_forall in A3. apply (A3 (r, e)). by apply elem_of_map_to_list.
Qed.

(** ** Names of an admitted stack *)

(** The stack mounts the cluster's resource [name]. *)
Definition mounts (root : entries) (kind name : string) : Prop :=
  exists m item resource physical, find_entry kind root = Some (Mapping m) /\ In item m /\ snd item = Mapping resource /\
    boolValue (at_key resource "external") = true /\ at_key resource "name" = Str physical /\ name = TrimSpace physical.

(** A label of the stack defines the Traefik router or service [name]: the name
    is in the key of the label. *)
Definition defines (root : entries) (name : string) : Prop :=
  exists services item service labels prefix field v, services_of root = Some services /\ In item services /\ snd item = Mapping service /\
    composeLabels (at_key service "deploy") = Ok labels /\ In prefix [router_prefix; service_prefix] /\
    labels !! label_key prefix name field = Some v /\ splitTraefikLabel (label_key prefix name field) prefix = Some (name, field).

(** The names a stack takes: what it mounts, and what its labels define. *)
Definition takes (root : entries) (name : string) : Prop :=
  (exists kind, In kind ["secrets"; "configs"; "volumes"] /\ mounts root kind name) \/ defines root name.

Lemma takes_own stack root name : admit_document stack root = Ok tt -> takes root name -> own_name stack name = true.
Proof.
  intros Ha Hu. unfold admit_document in Ha. rewrite all_ok_iff, !Forall_cons in Ha. destruct Ha as (H1 & _ & H3 & _). unfold own_name.
  destruct Hu as [(kind & Hk & m & item & resource & physical & Hm & Hi & Hr & Hx & Hn & ->)|(services & item & service & labels & prefix & field & v & Hs & Hi & Hsv & Hl & Hp & Hlk & Hsp)].
  - unfold validateWorkloadExternalResources in H1. rewrite all_ok_iff, Forall_app, Forall_map, Forall_forall in H1. destruct H1 as [H1 _].
    specialize (H1 kind (proj2 (list_elem_of_In _ _) Hk)). unfold validateScopedExternalResources, top_level in H1. rewrite Hm, each_iff in H1.
    specialize (H1 item Hi). unfold validateScopedExternal in H1. rewrite Hr in H1. cbn [asMap] in H1. rewrite Hx, Hn in H1. cbn [negb as_string] in H1.
    rewrite all_ok_iff, !Forall_cons, !refuse_if_iff in H1. destruct H1 as (_ & H1 & _). by apply negb_false_iff in H1.
  - unfold validateWorkloadRoutes in H3. rewrite Hs, each_iff in H3. specialize (H3 item Hi). unfold validateServiceRoutes in H3.
    rewrite Hsv in H3. cbn [asMap] in H3. rewrite Hl in H3. destruct (foldl _ _ _) as [c|] eqn:F; [|done]. clear H3. apply orb_true_iff. left.
    assert (forall l c0, foldl (collect stack) (Ok c0) l = Ok c -> In (label_key prefix name field, v) l -> exists c1 c2, collect stack (Ok c1) (label_key prefix name field, v) = Ok c2) as Hstep.
    { induction l as [|kv l IH]; intros c0 Hf Hin; [done|]. apply collect_cons in Hf as (c1 & H1' & Hf). destruct Hin as [->|Hin]; [by exists c0, c1|by eapply IH]. }
    destruct (Hstep _ _ F) as (c1 & c2 & Hc); [by apply list_elem_of_In, elem_of_map_to_list|]. unfold collect in Hc.
    destruct Hp as [<-|[<-|[]]].
    + change (HasPrefix (label_key router_prefix name field) "traefik.") with true in Hc. cbn [negb] in Hc.
      change (oneOfString (label_key router_prefix name field) ["traefik.enable"; "traefik.swarm.network"]) with false in Hc. cbn iota in Hc.
      unfold router_prefix in Hc, Hsp. rewrite Hsp in Hc. by apply set_router_ok in Hc as (? & _).
    + change (HasPrefix (label_key service_prefix name field) "traefik.") with true in Hc. cbn [negb] in Hc.
      change (oneOfString (label_key service_prefix name field) ["traefik.enable"; "traefik.swarm.network"]) with false in Hc. cbn iota in Hc.
      change (splitTraefikLabel (label_key service_prefix name field) "traefik.http.routers.") with (@None (string * string)) in Hc.
      unfold service_prefix in Hc, Hsp. rewrite Hsp in Hc. by apply set_port_ok in Hc as (? & _).
Qed.

(** A stack that is named inside the namespace of another one. *)
Definition nested_in (inner outer : string) : Prop := own_name outer inner = true.

(** C14. Two different admitted stacks, neither of them named inside the other's
    namespace, take no name in common: an external secret, config or volume that
    one mounts, and a Traefik router or service that a label of one defines
    (under the lower-case prefixes [traefik.http.routers.] and
    [traefik.http.services.]), is neither mounted nor defined by the other.  A
    router's [service] label only refers to a service, by any name: admission
    does not check it, and it is not covered. *)
Theorem admitted_stacks_are_disjoint stack1 root1 stack2 root2 name :
  admit_document stack1 root1 = Ok tt -> admit_document stack2 root2 = Ok tt ->
  stack1 <> stack2 -> ~ nested_in stack1 stack2 -> ~ nested_in stack2 stack1 ->
  takes root1 name -> ~ takes root2 name.
Proof.
  intros A1 A2 Hne N1 N2 U1 U2. apply (takes_own _ _ _ A1) in U1. apply (takes_own _ _ _ A2) in U2. unfold own_name, nested_in in *.
  rewrite orb_true_iff in *.
  assert (forall ca cb, HasPrefix name (stack1 ++ String ca "")%string = true -> HasPrefix name (stack2 ++ String cb "")%string = true ->
    (ca = "-"%char \/ ca = "_"%char) -> (cb = "-"%char \/ cb = "_"%char) -> False) as Hcase.
  { intros ca cb Ha Hb Hca Hcb. destruct (namespaces_apart _ _ _ _ _ Ha Hb) as [|[Hx|Hx]]; [done|apply N2|apply N1]; unfold own_name; rewrite orb_true_iff;
      [destruct Hca as [->| ->]|destruct Hcb as [->| ->]]; tauto. }
  destruct U1 as [U1|U1], U2 as [U2|U2]; eapply Hcase; try exact U1; try exact U2; tauto.
Qed.
End Routes.
