(* ===== verification/Application.v ===== *)
(** * internal/ops/application.go: applications

    The spec of an application, its normal form and its validation, and the
    compose document that [RenderApplication] generates from it.  Plans come from
    resource_plan.go, engines and secret versions from database.go.  The document
    is the value that its YAML text decodes to. *)

From Stdlib Require Import ZArith Lia Bool Ascii String.
From stdpp Require Import base tactics list strings gmap.
From S2P Require Import Prelude GoStrings GoText GoNumbers GoYaml ComposePolicy RoutingTypes RoutingDomain RoutingLabels Admission.

Local Open Scope string_scope.
Local Open Scope list_scope.
Local Open Scope bool_scope.
Local Open Scope Z_scope.

(** ** Constants and patterns *)

Definition ApplicationServiceName : string := "app".
Definition DeliverySecret : string := "secret".
Definition DeliveryEnv : string := "env".
Definition DefaultResolver : string := "http".
Definition KindWeb : string := "web".
Definition KindWorker : string := "worker".
Definition KindJob : string := "job".
Definition ProtocolHTTP : string := "http".
Definition ProtocolTCP : string := "tcp".
Definition maxApplicationDependencies : Z := 8.
Definition defaultHealthPath : string := "/healthz".
Definition defaultMetricsPath : string := "/metrics".
Definition maxApplicationEnv : Z := 50.
Definition maxDatabaseEnvKeys : Z := 8.
Definition maxSecretEnvValue : Z := 4096.
Definition jobMaxAttempts : Z := 10.

Definition applicationNamePattern : string -> bool := pattern lower_case (fun c => lower_case c || digit c || any_of "-" c) 40.
Definition environmentKeyPattern : string -> bool :=
  pattern (fun c => lower_case c || upper_case c || any_of "_" c) (fun c => alnum c || any_of "_" c) 63.

(** [[a-z0-9]([a-z0-9-]{0,61}[a-z0-9])?] *)
Definition host_label (s : string) : bool :=
  match bytes s with
  | [] => false
  | c :: rest =>
      key_char c && (Z.of_nat (List.length rest) <=? 62) && forallb (fun x => key_char x || Ascii.eqb x hyphen) rest
      && match rev rest with [] => true | l :: _ => key_char l end
  end.

Definition applicationHostPattern (s : string) : bool :=
  let labels := SplitChar dot s in Nat.leb 2 (List.length labels) && forallb host_label labels.

(** ** Plans and engines *)

Record ResourcePlan := mkResourcePlan { CPUCores : float64; plan_MemoryMiB : Z }.

(** A quarter of a core and its multiples. *)
Definition quarters (n : Z) : float64 := Fin false (n * 2 ^ 1072).

Definition resourcePlans : list (string * ResourcePlan) :=
  [ ("nano", mkResourcePlan (quarters 1) 256); ("small", mkResourcePlan (quarters 2) 512); ("medium", mkResourcePlan (quarters 4) 1024);
    ("large", mkResourcePlan (quarters 8) 2048); ("xlarge", mkResourcePlan (quarters 16) 4096) ].

Definition DefaultResourcePlan : string := "small".

Definition databaseCatalog : list string := ["postgres"; "mongo"; "redis"].

Definition DatabaseDefinitionFor (engine : string) : option string := List.find (fun e => (e =? TrimSpace engine)%string) databaseCatalog.

Definition URISecretVersion (mongoReplicaSet : bool) (engine : string) : string :=
  if (engine =? "mongo")%string && mongoReplicaSet then "v2" else "v1".

Definition DeliveredURI (mongoReplicaSet : bool) (engine uri : string) : string :=
  if negb (engine =? "mongo")%string || negb mongoReplicaSet || Contains uri "directConnection=" || HasPrefix uri "managed://" then uri
  else (uri ++ (if Contains uri "?" then "&" else "?") ++ "directConnection=true")%string.

(** ** The spec *)

Record ApplicationDependency := mkDependency { dep_Application : string; dep_Env : list string }.

Record ApplicationSpec := mkSpec {
  sp_Backend : string; sp_CPUs : float64; sp_Databases : list string; sp_DependsOn : list ApplicationDependency;
  sp_DatabaseDelivery : string; sp_DatabaseEnv : gmap string (list string); sp_DatabaseOwner : string; sp_Domain : string;
  sp_Env : gmap string string; sp_HealthCommand : list string; sp_HealthPath : string; sp_Image : string; sp_Kind : string;
  sp_MemoryMiB : Z; sp_Metrics : bool; sp_MetricsPath : string; sp_MetricsPort : Z; sp_Name : string; sp_Plan : string; sp_Port : Z;
  sp_Protocol : string; sp_Replicas : Z; sp_Resolver : string; sp_SecretEnv : gmap string string; sp_Tracing : bool }.

Definition Routed (s : ApplicationSpec) : bool := (sp_Kind s =? "")%string || (sp_Kind s =? KindWeb)%string.

Definition HTTPRouted (s : ApplicationSpec) : bool := Routed s && negb (sp_Protocol s =? ProtocolTCP)%string.

Definition StackName (s : ApplicationSpec) (namespace : string) : string := (namespace ++ "-" ++ sp_Name s)%string.

Definition ServiceDNSName (s : ApplicationSpec) (namespace : string) : string := (StackName s namespace ++ "_" ++ ApplicationServiceName)%string.

Definition Redacted (s : ApplicationSpec) : ApplicationSpec :=
  mkSpec (sp_Backend s) (sp_CPUs s) (sp_Databases s) (sp_DependsOn s) (sp_DatabaseDelivery s) (sp_DatabaseEnv s) (sp_DatabaseOwner s) (sp_Domain s)
    (sp_Env s) (sp_HealthCommand s) (sp_HealthPath s) (sp_Image s) (sp_Kind s) (sp_MemoryMiB s) (sp_Metrics s) (sp_MetricsPath s) (sp_MetricsPort s)
    (sp_Name s) (sp_Plan s) (sp_Port s) (sp_Protocol s) (sp_Replicas s) (sp_Resolver s) ((fun _ => "") <$> sp_SecretEnv s) (sp_Tracing s).

(** [strings.ReplaceAll(s, "-", "_")] *)
Definition underscored (s : string) : string := of_bytes (map (fun c => if Ascii.eqb c hyphen then "_"%char else c) (bytes s)).

(** [f == 0] and [f > 64]. *)
Definition float_is_zero (f : float64) : bool := match f with Fin _ n => n =? 0 | _ => false end.
Definition float_above (f : float64) (limit : Z) : bool := match f with Inf false => true | Fin false n => limit * 2 ^ 1074 <? n | _ => false end.

Definition insert_dependency (x : ApplicationDependency) : list ApplicationDependency -> list ApplicationDependency :=
  fix go l := match l with
              | [] => [x]
              | y :: l' => if String.leb (dep_Application x) (dep_Application y) then x :: l else y :: go l'
              end.

(** The distinct non-empty values, in order. *)
Fixpoint distinct (seen : list string) (l : list string) : list string :=
  match l with
  | [] => []
  | x :: rest => if (x =? "")%string || oneOfString x seen then distinct seen rest else x :: distinct (x :: seen) rest
  end.

Definition non_empty (l : list string) : list string := List.filter (fun x => negb (x =? "")%string) l.

Section Application.
Context `{CaseTable} `{ComposeLib}.

Definition LookupResourcePlan (name : string) : option ResourcePlan :=
  let name := lowered name in
  let name := if (name =? "")%string then DefaultResourcePlan else name in
  match List.find (fun p => (fst p =? name)%string) resourcePlans with Some (_, plan) => Some plan | None => None end.

Definition dependencyAddressVariable (application : string) : string := (ToUpper (underscored application) ++ "_ADDRESS")%string.

Definition secretEnvSecretName (stack key v : string) : string :=
  (stack ++ "_s" ++ of_bytes (take 16 (bytes (Sum256_hex (key ++ of_bytes [chr 0] ++ v)))))%string.

Definition normalize_dependency (d : ApplicationDependency) : ApplicationDependency :=
  mkDependency (lowered (dep_Application d)) (sort_strings (non_empty (map TrimSpace (dep_Env d)))).

(** The engines among [databases], each with its distinct keys. *)
Definition normalize_database_env (databases : list string) (env : gmap string (list string)) : gmap string (list string) :=
  foldl (fun acc kv =>
    let engine := lowered (fst kv) in
    let cleaned := distinct [] (map TrimSpace (snd kv)) in
    if oneOfString engine databases then match cleaned with [] => acc | _ => <[engine := sort_strings cleaned]> acc end else acc)
    ∅ (map_to_list env).

Definition Normalize (s : ApplicationSpec) : ApplicationSpec :=
  let owner := lowered (sp_DatabaseOwner s) in
  let owner := if (owner =? sp_Name s)%string then "" else owner in
  let domain := host_form (sp_Domain s) in
  let kind := lowered (sp_Kind s) in
  let kind := if (kind =? "")%string then KindWeb else kind in
  let protocol := lowered (sp_Protocol s) in
  let protocol := if (protocol =? "")%string && (kind =? KindWeb)%string then ProtocolHTTP else protocol in
  let resolver := TrimSpace (sp_Resolver s) in
  let resolver := if negb (domain =? "")%string && (resolver =? "")%string then DefaultResolver else resolver in
  let delivery := TrimSpace (sp_DatabaseDelivery s) in
  let delivery := if (delivery =? "")%string then DeliverySecret else delivery in
  let health := TrimSpace (sp_HealthPath s) in
  let health := if (kind =? KindWeb)%string && (protocol =? ProtocolHTTP)%string && (health =? "")%string && none (sp_HealthCommand s)
                then defaultHealthPath else health in
  let replicas := if (kind =? KindJob)%string then 1 else sp_Replicas s in
  let replicas := if replicas =? 0 then 1 else replicas in
  let metricsPath := TrimSpace (sp_MetricsPath s) in
  let metricsPath := if sp_Metrics s && (metricsPath =? "")%string then defaultMetricsPath else metricsPath in
  let metricsPort := if sp_Metrics s && (sp_MetricsPort s =? 0) then sp_Port s else sp_MetricsPort s in
  let plan := lowered (sp_Plan s) in
  let size := LookupResourcePlan plan in
  let cpus := match size with Some p => if float_is_zero (sp_CPUs s) then CPUCores p else sp_CPUs s | None => sp_CPUs s end in
  let memory := match size with Some p => if sp_MemoryMiB s =? 0 then plan_MemoryMiB p else sp_MemoryMiB s | None => sp_MemoryMiB s end in
  let databases := distinct [] (map lowered (sp_Databases s)) in
  mkSpec (TrimSpace (sp_Backend s)) cpus (sort_strings databases) (foldr insert_dependency [] (map normalize_dependency (sp_DependsOn s)))
    delivery (normalize_database_env databases (sp_DatabaseEnv s)) owner domain (sp_Env s) (sp_HealthCommand s) health (TrimSpace (sp_Image s)) kind
    memory (sp_Metrics s) metricsPath metricsPort (lowered (sp_Name s)) plan (sp_Port s) protocol replicas resolver (sp_SecretEnv s) (sp_Tracing s).

(** ** Validation *)

Definition text_controls : string := of_bytes [chr 0; chr 13; chr 10].

Definition validateHealthCommand (command : list string) : check :=
  all_ok
    [ refuse_if (12 <? Z.of_nat (List.length command)) "health command may have at most 12 arguments";
      each (fun a => refuse_if ((a =? "")%string || (256 <? len a) || ContainsAny a text_controls)
                       "health command arguments must be short, single-line text") command ].

Definition map_size {A : Type} (m : gmap string A) : Z := Z.of_nat (size m).
Definition taken {A : Type} (m : gmap string A) (k : string) : bool := match m !! k with Some _ => true | None => false end.

Definition validateApplicationEnv (env : gmap string string) : check :=
  all_ok
    [ refuse_if (maxApplicationEnv <? map_size env) "an application may declare at most 50 environment variables";
      each (fun kv => all_ok
              [ refuse_if (negb (environmentKeyPattern (fst kv))) "environment variable has an invalid name";
                refuse_if (secretLikeKey (fst kv)) "environment variable looks like a credential";
                refuse_if ((2048 <? len (snd kv)) || ContainsAny (snd kv) text_controls) "environment variable has an invalid value" ])
        (map_to_list env) ].

(** The variables under which a dependency's address is delivered. *)
Definition dependency_variables (d : ApplicationDependency) : list string := dependencyAddressVariable (dep_Application d) :: dep_Env d.

Fixpoint validate_dependencies (s : ApplicationSpec) (seen : list string) (l : list ApplicationDependency) : check :=
  match l with
  | [] => Ok tt
  | d :: rest =>
      all_ok
        [ refuse_if (negb (applicationNamePattern (dep_Application d)) || (dep_Application d =? sp_Name s)%string)
            "a dependency must name another application";
          refuse_if (oneOfString (dep_Application d) seen) "dependency is listed twice";
          refuse_if (dep_Application d =? sp_Backend s)%string "dependency is already the backend";
          each (fun key => all_ok
                  [ refuse_if (negb (environmentKeyPattern key)) "dependency environment variable has an invalid name";
                    refuse_if (taken (sp_Env s) key) "environment variable is set both directly and by dependency";
                    refuse_if (taken (sp_SecretEnv s) key) "environment variable is set both as secret and by dependency" ])
            (dependency_variables d);
          refuse_if (maxDatabaseEnvKeys <? Z.of_nat (List.length (dep_Env d))) "a dependency may be delivered under at most 8 environment variables";
          validate_dependencies s (dep_Application d :: seen) rest ]
  end.

Definition validateDependencies (s : ApplicationSpec) : check :=
  all_ok [ refuse_if (maxApplicationDependencies <? Z.of_nat (List.length (sp_DependsOn s))) "an application may depend on at most 8 applications";
           validate_dependencies s [] (sp_DependsOn s) ].

(** The lower-cased keys, in the order of the loop. *)
Fixpoint case_distinct (folded : list string) (keys : list string) : bool :=
  match keys with
  | [] => true
  | k :: rest => negb (oneOfString (ToLower k) folded) && case_distinct (ToLower k :: folded) rest
  end.

Definition validateSecretEnv (s : ApplicationSpec) : check :=
  all_ok
    [ refuse_if (maxApplicationEnv <? map_size (sp_Env s) + map_size (sp_SecretEnv s)) "an application may declare at most 50 environment variables";
      refuse_if (negb (case_distinct [] (map fst (map_to_list (sp_SecretEnv s))))) "secret environment variables must differ by more than letter case";
      each (fun kv => let key := fst kv in
              all_ok
                [ refuse_if (negb (environmentKeyPattern key) || (58 <? len key)) "secret environment variable has an invalid name";
                  refuse_if (taken (sp_Env s) key) "environment variable is set both as plain and secret";
                  refuse_if (taken (sp_Env s) (key ++ "_FILE")%string) "environment variable collides with secret";
                  refuse_if (existsb (fun keys => oneOfString key (snd keys)) (map_to_list (sp_DatabaseEnv s)))
                    "environment variable is set both as secret and by a managed database";
                  refuse_if ((maxSecretEnvValue <? len (snd kv)) || ContainsAny (snd kv) (of_bytes [chr 0])) "secret environment variable has an invalid value" ])
        (map_to_list (sp_SecretEnv s)) ].

Definition known_engine (engine : string) : bool := match DatabaseDefinitionFor engine with Some _ => true | None => false end.

(** The rules of each kind. *)
Definition validate_kind (s : ApplicationSpec) : check :=
  let domain := negb (sp_Domain s =? "")%string in
  let health := negb (sp_HealthPath s =? "")%string in
  if oneOfString (sp_Kind s) [KindWeb; ""] then
    if sp_Port s =? 0 then Err "application port is required"
    else if oneOfString (sp_Protocol s) [""; ProtocolHTTP] then Ok tt
    else if (sp_Protocol s =? ProtocolTCP)%string then
      all_ok [ refuse_if domain "a TCP application is internal and cannot claim a domain";
               refuse_if (health || sp_Metrics s) "a TCP application has no HTTP health path or metrics endpoint" ]
    else Err "application protocol must be http or tcp"
  else if oneOfString (sp_Kind s) [KindWorker; KindJob] then
    all_ok [ refuse_if (negb (sp_Protocol s =? "")%string) "no route, so it takes no protocol";
             refuse_if domain "no route of its own and cannot claim a domain";
             refuse_if (sp_Metrics s) "no route for metrics to be scraped through";
             refuse_if ((sp_Kind s =? KindJob)%string && (health || negb (none (sp_HealthCommand s)))) "a job runs to completion and takes no health probe";
             refuse_if ((sp_Kind s =? KindWorker)%string && health) "a worker has no HTTP route" ]
  else Err "application kind must be web, worker, or job".

Definition Validate (s : ApplicationSpec) : check :=
  let domain := negb (sp_Domain s =? "")%string in
  all_ok
    [ refuse_if (negb (applicationNamePattern (sp_Name s))) "application name must be lowercase letters, digits, and hyphens";
      validateImage (sp_Image s);
      validate_kind s;
      refuse_if (match LookupResourcePlan (sp_Plan s) with Some _ => false | None => true end) "resource plan is not offered";
      refuse_if (domain && negb (applicationHostPattern (sp_Domain s))) "application domain must be a fully qualified hostname";
      refuse_if (domain && blank (sp_Resolver s)) "a routed application needs a certificate resolver";
      refuse_if (negb (sp_Resolver s =? "")%string && negb (dockerReferenceName (sp_Resolver s))) "certificate resolver name is invalid";
      refuse_if (negb (sp_HealthPath s =? "")%string && negb (httpPathPattern (sp_HealthPath s))) "health path must be an absolute HTTP path";
      validateHealthCommand (sp_HealthCommand s);
      (if sp_Metrics s then
         all_ok [ refuse_if (negb (httpPathPattern (sp_MetricsPath s))) "metrics path must be an absolute HTTP path";
                  refuse_if (sp_MetricsPort s =? 0) "metrics port is required when metrics are enabled";
                  refuse_if (negb (sp_MetricsPort s =? sp_Port s)) "application metrics must use the routed application port" ]
       else Ok tt);
      refuse_if (1000 <? sp_Replicas s) "replicas must be 1000 or fewer";
      refuse_if (not_positive (sp_CPUs s) || float_above (sp_CPUs s) 64) "cpus must be between 0 and 64";
      refuse_if ((sp_MemoryMiB s <? 64) || (262144 <? sp_MemoryMiB s)) "memory must be between 64 MiB and 256 GiB";
      refuse_if (negb (oneOfString (sp_DatabaseDelivery s) [DeliverySecret; DeliveryEnv])) "database delivery must be secret or env";
      each (fun e => refuse_if (negb (known_engine e)) "unsupported managed database") (sp_Databases s);
      each (fun kv => all_ok
              ([ refuse_if (negb (known_engine (fst kv))) "unsupported managed database";
                 refuse_if (maxDatabaseEnvKeys <? Z.of_nat (List.length (snd kv))) "a managed database may be delivered under at most 8 environment variables" ] ++
               map (fun key => all_ok
                     [ refuse_if (negb (environmentKeyPattern key)) "database environment variable has an invalid name";
                       refuse_if (taken (sp_Env s) key) "environment variable is set both directly and by a managed database" ]) (snd kv)))
        (map_to_list (sp_DatabaseEnv s));
      refuse_if (negb (sp_DatabaseOwner s =? "")%string && (negb (applicationNamePattern (sp_DatabaseOwner s)) || none (sp_Databases s)))
        "database owner must name another application, and the application must attach a database";
      refuse_if (negb (sp_Backend s =? "")%string && negb (applicationNamePattern (sp_Backend s))) "backend must name another application";
      refuse_if ((sp_Backend s =? sp_Name s)%string && negb (sp_Backend s =? "")%string) "an application cannot be its own backend";
      validateApplicationEnv (sp_Env s);
      validateDependencies s;
      validateSecretEnv s ].

(** ** Rendering *)

Record ApplicationRenderInput := mkRender {
  in_BackendDomain : string; in_DependencyAddresses : gmap string string; in_DatabaseURIs : gmap string string;
  in_URISecretVersions : gmap string string; in_Namespace : string; in_Route : option RouteSpec; in_Spec : ApplicationSpec }.

(** What the loops fill: the environment, the secrets of the service and the
    top-level secrets. *)
Record Rendered := mkRendered { rd_env : gmap string string; rd_secrets : list string; rd_top : gmap string string }.

Definition with_env (f : gmap string string -> gmap string string) (r : Rendered) : Rendered := mkRendered (f (rd_env r)) (rd_secrets r) (rd_top r).

(** The secret [physical], mounted as [logical]. *)
Definition with_secret (logical physical : string) (r : Rendered) : Rendered :=
  mkRendered (rd_env r) (rd_secrets r ++ [logical]) (<[logical := physical]> (rd_top r)).

Definition set_all (keys : list string) (v : string) (m : gmap string string) : gmap string string := foldl (fun m k => <[k := v]> m) m keys.

Definition secret_path (logical : string) : string := ("/run/secrets/" ++ logical)%string.

Definition database_variables (spec : ApplicationSpec) (engine : string) : list string :=
  (ToUpper engine ++ "_URL")%string :: match sp_DatabaseEnv spec !! engine with Some keys => keys | None => [] end.

Definition database_secret (stack engine version : string) : string :=
  (stack ++ "_" ++ engine ++ "_uri_" ++ (if (version =? "")%string then "v1" else version))%string.

Definition render_database (input : ApplicationRenderInput) (spec : ApplicationSpec) (stack : string)
  (acc : result string Rendered) (engine : string) : result string Rendered :=
  match acc with
  | Err e => Err e
  | Ok r =>
      if negb (known_engine engine) then Err "unsupported managed database"
      else
        let uri := label (in_DatabaseURIs input) engine in
        if blank uri then Err "managed database is not deployed"
        else
          let variables := database_variables spec engine in
          if (sp_DatabaseDelivery spec =? DeliveryEnv)%string then Ok (with_env (set_all variables uri) r)
          else
            let logical := (engine ++ "_uri")%string in
            Ok (with_env (set_all (map (fun v => v ++ "_FILE")%string variables) (secret_path logical))
                  (with_secret logical (database_secret stack engine (label (in_URISecretVersions input) engine)) r))
  end.

Definition SecretEnvKeys (spec : ApplicationSpec) : list string := sort_strings (map fst (map_to_list (sp_SecretEnv spec))).

Definition render_secret (spec : ApplicationSpec) (stack : string) (acc : result string Rendered) (key : string) : result string Rendered :=
  match acc with
  | Err e => Err e
  | Ok r =>
      let v := label (sp_SecretEnv spec) key in
      if (v =? "")%string then Err "secret environment variable has no value"
      else
        let logical := ("env_" ++ ToLower key)%string in
        Ok (with_env (fun m => <[(key ++ "_FILE")%string := secret_path logical]> m) (with_secret logical (secretEnvSecretName stack key v) r))
  end.

Definition render_dependency (input : ApplicationRenderInput) (acc : result string Rendered) (d : ApplicationDependency) : result string Rendered :=
  match acc with
  | Err e => Err e
  | Ok r =>
      let address := label (in_DependencyAddresses input) (dep_Application d) in
      if (address =? "")%string then Err "dependency has no route yet"
      else Ok (with_env (set_all (dependency_variables d) address) r)
  end.

Definition backend_env (input : ApplicationRenderInput) (spec : ApplicationSpec) (m : gmap string string) : gmap string string :=
  if (sp_Backend spec =? "")%string then m
  else
    let service := (in_Namespace input ++ "-" ++ sp_Backend spec ++ "_" ++ ApplicationServiceName)%string in
    let m := <["BACKEND_INTERNAL_URL" := ("http://" ++ defaultRouteKey service ++ ".swarmops.internal:8081")%string]> m in
    if (in_BackendDomain input =? "")%string then m else <["BACKEND_PUBLIC_URL" := ("https://" ++ in_BackendDomain input)%string]> m.

Definition tracing_env (spec : ApplicationSpec) (stack : string) (m : gmap string string) : gmap string string :=
  if sp_Tracing spec then
    <["OTEL_SERVICE_NAME" := stack]> (<["OTEL_EXPORTER_OTLP_PROTOCOL" := "http/protobuf"]>
      (<["OTEL_EXPORTER_OTLP_ENDPOINT" := "http://swarmops-jaeger-otlp.swarmops.internal:8081"]> m))
  else m.

Definition initial_env (spec : ApplicationSpec) : gmap string string :=
  sp_Env spec ∪ (if sp_Port spec =? 0 then ∅ else {["PORT" := decimal (sp_Port spec)]}).

(** Everything the environment and the secrets need. *)
Definition render_parts (input : ApplicationRenderInput) (spec : ApplicationSpec) (stack : string) : result string Rendered :=
  match foldl (render_dependency input)
          (foldl (render_secret spec stack)
             (foldl (render_database input spec stack) (Ok (mkRendered (initial_env spec) [] ∅)) (sp_Databases spec))
             (SecretEnvKeys spec))
          (sp_DependsOn spec) with
  | Ok r => Ok (with_env (fun m => tracing_env spec stack (backend_env input spec m)) r)
  | Err e => Err e
  end.

(** *** The route and its labels *)

Definition applicationRouteSpec (spec : ApplicationSpec) (stack : string) : RouteSpec :=
  let serviceKey := (stack ++ "_" ++ ApplicationServiceName)%string in
  let host := if (sp_Domain spec =? "")%string then (sp_Name spec ++ ".swarmops.internal")%string else sp_Domain spec in
  let healthPath := if (sp_HealthPath spec =? "")%string then "/" else sp_HealthPath spec in
  RouteSpec_Normalize
    (mkRoute true "" true (mkHealth "response" healthPath 5) (defaultRouteKey serviceKey) 0 true (mkMatch [host] "/" []) true
       RouteHTTP (negb (sp_Domain spec =? "")%string) "" RouteInternal false serviceKey RouteTLSOff (sp_Port spec) RoutingSchemaVersion).

Definition applicationTCPRouteSpec (spec : ApplicationSpec) (stack : string) : RouteSpec :=
  let serviceKey := (stack ++ "_" ++ ApplicationServiceName)%string in
  RouteSpec_Normalize
    (mkRoute false "" true (mkHealth "handshake" "" 5) (defaultRouteKey serviceKey) 0 true (mkMatch [] "" []) true
       RouteTCP false "" RouteInternal false serviceKey RouteTLSOff (sp_Port spec) RoutingSchemaVersion).

Definition applicationLabels (spec : ApplicationSpec) (stack : string) (requested : option RouteSpec) : gmap string string :=
  let route := match requested with Some route => RouteSpec_Normalize route | None => applicationRouteSpec spec stack end in
  match RenderRouteLabels route (RouteNetworkName (rt_ServiceKey route)) with
  | Ok labels => labels
  | Err _ => {["traefik.enable" := "false"]}
  end.

(** *** The document *)

Definition strings (l : list string) : value := Seq (map Str l).
Definition text_map (m : gmap string string) : value := Mapping (map (fun kv => (fst kv, Str (snd kv))) (map_to_list m)).
Definition number (n : Z) : value := Scalar (decimal n).

Definition formatCPUs (f : float64) : string :=
  match f with
  | NaN => "NaN"
  | Inf neg => if neg then "-Inf" else "+Inf"
  | Fin neg n => ((if neg then "-" else "") ++ (if (n =? 0)%Z then "0" else FormatFloat n))%string
  end.

Definition applicationHealthcheck (spec : ApplicationSpec) : option value :=
  let probe test := Some (Mapping [("test", strings test); ("interval", Str "15s"); ("timeout", Str "5s"); ("retries", number 5); ("start_period", Str "30s")]) in
  match sp_HealthCommand spec with
  | _ :: _ => probe ("CMD" :: sp_HealthCommand spec)
  | [] =>
      if (sp_HealthPath spec =? "")%string then None
      else
        let target := ("http://127.0.0.1:" ++ decimal (sp_Port spec) ++ sp_HealthPath spec)%string in
        probe ["CMD-SHELL"; ("wget -q -O - " ++ target ++ " > /dev/null 2>&1 || curl -fsS " ++ target ++ " > /dev/null 2>&1 || exit 1")%string]
  end.

Definition size_of (spec : ApplicationSpec) : value :=
  Mapping [("cpus", Str (formatCPUs (sp_CPUs spec))); ("memory", Str (decimal (sp_MemoryMiB spec) ++ "M")%string)].

Definition resources_of (spec : ApplicationSpec) : value := Mapping [("reservations", size_of spec); ("limits", size_of spec)].

Definition rolling (spec : ApplicationSpec) : entries :=
  [ ("replicas", number (sp_Replicas spec));
    ("update_config", Mapping [("order", Str "start-first"); ("parallelism", number 1); ("failure_action", Str "rollback"); ("monitor", Str "45s")]);
    ("rollback_config", Mapping [("order", Str "start-first")]);
    ("restart_policy", Mapping [("condition", Str "any"); ("delay", Str "5s")]);
    ("resources", resources_of spec) ].

Definition applicationDeploy (spec : ApplicationSpec) (stack : string) (requested : option RouteSpec) : entries :=
  if (sp_Kind spec =? KindJob)%string then
    [ ("mode", Str "replicated-job"); ("replicas", number 1);
      ("restart_policy", Mapping [("condition", Str "on-failure"); ("delay", Str "10s"); ("max_attempts", number jobMaxAttempts)]);
      ("resources", resources_of spec) ]
  else if (sp_Kind spec =? KindWorker)%string then rolling spec
  else
    rolling spec ++
    (if (sp_Protocol spec =? ProtocolTCP)%string then []
     else let labels := applicationLabels spec stack requested in
          if map_size labels =? 0 then [] else [("labels", text_map labels)]).

Definition secret_mount (logical : string) : value := Mapping [("source", Str logical); ("target", Str logical); ("mode", number 292)].

Definition external_named (name : string) : value := Mapping [("external", Bool true); ("name", Str name)].

Definition service_document (spec : ApplicationSpec) (stack : string) (route : option RouteSpec) (r : Rendered) : entries :=
  [ ("image", Str (sp_Image spec)); ("environment", text_map (rd_env r)); ("networks", strings ["traefik-route"]);
    ("deploy", Mapping (applicationDeploy spec stack route)) ] ++
  match applicationHealthcheck spec with Some probe => [("healthcheck", probe)] | None => [] end ++
  match rd_secrets r with [] => [] | l => [("secrets", Seq (map secret_mount l))] end.

Definition application_document (spec : ApplicationSpec) (namespace : string) (route : option RouteSpec) (r : Rendered) : entries :=
  let stack := StackName spec namespace in
  [ ("version", Str "3.9");
    ("services", Mapping [(ApplicationServiceName, Mapping (service_document spec stack route r))]);
    ("networks", Mapping [("traefik-route", external_named (RouteNetworkName (ServiceDNSName spec namespace)))]) ] ++
  match map_to_list (rd_top r) with [] => [] | l => [("secrets", Mapping (map (fun kv => (fst kv, external_named (snd kv))) l))] end.

(** The document that [RenderApplication] serializes. *)
Definition render_document (input : ApplicationRenderInput) : result string entries :=
  let spec := Normalize (in_Spec input) in
  match Validate spec with
  | Err e => Err e
  | Ok _ =>
      if negb (dockerReferenceName (in_Namespace input)) then Err "platform namespace is invalid"
      else match render_parts input spec (StackName spec (in_Namespace input)) with
      | Err e => Err e
      | Ok r => Ok (application_document spec (in_Namespace input) (in_Route input) r)
      end
  end.

Definition RenderApplication (input : ApplicationRenderInput) : result string string :=
  match render_document input with
  | Err e => Err e
  | Ok document => match yaml_Marshal document with Some text => Ok text | None => Err "render application compose" end
  end.

End Application.
