(* ===== verification/ApplicationFacts.v ===== *)
(** * Applications: names, networks, labels and sizes of a rendered document *)

From Stdlib Require Import ZArith Lia Bool Ascii String.
From stdpp Require Import base tactics list strings gmap.
From S2P Require Import Prelude GoStrings GoText GoNumbers GoYaml ComposePolicy RoutingTypes RoutingDomain RoutingLabels Admission AdmissionRoutes Application.

Local Open Scope string_scope.
Local Open Scope list_scope.
Local Open Scope bool_scope.
Local Open Scope Z_scope.

(** ** Plain text *)

(** The characters of host names, keys and Docker names in lower case. *)
Definition plain_char (c : ascii) : bool := key_char c || any_of "-_." c.
Definition plain (s : string) : bool := forallb plain_char (bytes s).

Lemma plain_code c : plain_char c = true -> code c = 45 \/ code c = 46 \/ code c = 95 \/ 48 <= code c <= 57 \/ 97 <= code c <= 122.
Proof.
  unfold plain_char, key_char, lower_case, digit, between, any_of. intros Hc. apply orb_prop in Hc as [Hc|Hc]; [lia|].
  apply existsb_exists in Hc as (x & Hx & E%Ascii.eqb_eq). subst x. simpl in Hx. destruct Hx as [<-|[<-|[<-|[]]]]; vm_compute; auto.
Qed.

Lemma plain_printable s : plain s = true -> forallb printable (bytes s) = true.
Proof.
  unfold plain. rewrite !forallb_forall. intros Hs x Hx. specialize (Hs x Hx). apply plain_code in Hs. unfold printable, between. lia.
Qed.

Lemma plain_trim s : plain s = true -> TrimSpace s = s.
Proof. intros Hs. by apply TrimSpace_printable, plain_printable. Qed.

Lemma plain_app a b : plain (a ++ b) = plain a && plain b.
Proof. unfold plain. by rewrite bytes_app, forallb_app. Qed.

Lemma plain_of_bytes l : plain (of_bytes l) = forallb plain_char l.
Proof. unfold plain. by rewrite bytes_of_bytes. Qed.

Lemma forallb_weaken {A} (f g : A -> bool) l : (forall x, f x = true -> g x = true) -> forallb f l = true -> forallb g l = true.
Proof. intros Hfg. rewrite !forallb_forall. auto. Qed.

Section Facts.
Context `{CaseTable} `{ComposeLib}.

Lemma plain_lower s : plain s = true -> ToLower s = s.
Proof.
  unfold ToLower, map_case, plain. intros Hs.
  assert (forallb is_ascii (bytes s) = true) as ->.
  { eapply forallb_weaken; [|exact Hs]. intros x Hx%plain_code. unfold is_ascii. lia. }
  rewrite <- (of_bytes_bytes s) at 2. f_equal. rewrite <- (map_id (bytes s)) at 2. apply map_ext_in. intros x Hx. rewrite forallb_forall in Hs.
  specialize (Hs x Hx). apply plain_code in Hs. unfold lower_ascii. replace (between 65 90 (code x)) with false; [done|]. symmetry. unfold between. lia.
Qed.

Lemma plain_lowered s : plain s = true -> lowered s = s.
Proof. intros Hs. unfold lowered. by rewrite plain_trim, plain_lower. Qed.

(** ** Patterns *)

Lemma pattern_ok first rest n s : pattern first rest n s = true -> exists c l, bytes s = c :: l /\ first c = true /\ forallb rest l = true /\ Z.of_nat (length l) <= n.
Proof.
  unfold pattern. destruct (bytes s) as [|c l]; [done|]. intros Hp. apply andb_prop in Hp as [Hp Hn%Z.leb_le]. apply andb_prop in Hp as [Hc Hl]. by exists c, l.
Qed.

Lemma pattern_intro first rest n s c l :
  bytes s = c :: l -> first c = true -> forallb rest l = true -> Z.of_nat (length l) <= n -> pattern first rest n s = true.
Proof. intros E Hc Hl Hn. unfold pattern. rewrite E, Hc, Hl. by apply Z.leb_le. Qed.

(** A plain string that starts with a letter or digit is a Docker name. *)
Lemma plain_docker s c l : plain s = true -> bytes s = c :: l -> key_char c = true -> len s <= 128 -> dockerReferenceName s = true.
Proof.
  intros Hs E Hc Hl. unfold len in Hl. rewrite <- length_bytes, E in Hl. cbn [length] in Hl. eapply pattern_intro; [exact E| | |lia].
  - unfold key_char in Hc. unfold alnum. apply orb_prop in Hc as [->| ->]; by rewrite ?orb_true_r.
  - unfold plain in Hs. rewrite E in Hs. simpl in Hs. apply andb_prop in Hs as [_ Hs]. eapply forallb_weaken; [|exact Hs].
    intros x. unfold plain_char, key_char, alnum, any_of. simpl. intros Hx. destruct (lower_case x), (digit x); simpl in *; rewrite ?orb_true_r; try done.
    destruct (Ascii.eqb x "-"), (Ascii.eqb x "_"), (Ascii.eqb x "."); try done; by rewrite ?orb_true_r.
Qed.

Lemma name_plain name : applicationNamePattern name = true -> plain name = true /\ name <> "" /\ len name <= 41.
Proof.
  intros (c & l & E & Hc & Hl & Hn)%pattern_ok. unfold plain. rewrite E. split; [|split].
  - simpl. apply andb_true_iff. split; [unfold plain_char, key_char; by rewrite Hc|]. eapply forallb_weaken; [|exact Hl].
    intros x Hx. unfold plain_char, key_char. apply orb_prop in Hx as [->|Hx]; [done|]. unfold any_of in *. simpl in *.
    destruct (Ascii.eqb x "-"); [by rewrite orb_true_r|done].
  - intros ->. discriminate E.
  - unfold len. rewrite <- length_bytes, E. simpl. lia.
Qed.

(** ** Route keys *)

(** The stack of an application, and its service. *)
Definition app_stack (name : string) : string := ("production-" ++ name)%string.
Definition app_service (name : string) : string := (app_stack name ++ "_app")%string.
Definition app_key (name : string) : string := (app_stack name ++ "-app")%string.

Lemma drop_char_other c x l : Ascii.eqb x c = false -> drop_char c (x :: l) = x :: l.
Proof. intros E. cbn [drop_char]. by rewrite E. Qed.

Lemma TrimChar_ends c s x m y : bytes s = x :: m ++ [y] -> Ascii.eqb x c = false -> Ascii.eqb y c = false -> TrimChar c s = s.
Proof.
  intros E Hx Hy. unfold TrimChar. rewrite E, drop_char_other by done. rewrite app_comm_cons, rev_app_distr. cbn [rev app].
  rewrite drop_char_other by done. cbn [rev]. rewrite rev_app_distr, rev_involutive. rewrite <- (of_bytes_bytes s), E. done.
Qed.

Lemma route_key_of name : applicationNamePattern name = true -> defaultRouteKey (app_service name) = app_key name.
Proof.
  intros Hn. destruct (name_plain _ Hn) as (Hp & _ & Hlen). pose proof Hn as (c0 & l0 & E0 & Hc0 & Hl0 & _)%pattern_ok.
  assert (plain (app_service name) = true) as Hs by (unfold app_service, app_stack; by rewrite !plain_app, Hp).
  unfold defaultRouteKey. rewrite plain_lower by done. rewrite runes_ascii.
  2: { eapply forallb_weaken; [|exact Hs]. intros x Hx%plain_code. unfold is_ascii. lia. }
  assert (string_of_runes (map key_rune (map (fun c => [c]) (bytes (app_service name)))) = app_key name) as ->.
  { unfold string_of_runes. rewrite map_map, <- (of_bytes_bytes (app_key name)). f_equal.
    assert (bytes (app_service name) = bytes "production-" ++ bytes name ++ bytes "_app") as ->
      by (unfold app_service, app_stack; by rewrite !bytes_app, <- app_assoc).
    assert (bytes (app_key name) = bytes "production-" ++ bytes name ++ bytes "-app") as ->
      by (unfold app_key, app_stack; by rewrite !bytes_app, <- app_assoc).
    assert (concat (map (fun c => key_rune [c]) (bytes name)) = bytes name) as Hid.
    { clear Hs Hlen. assert (forallb (fun c => key_char c || Ascii.eqb c hyphen) (bytes name) = true) as Hk.
      { rewrite E0. simpl. apply andb_true_iff. split; [unfold key_char; by rewrite Hc0|].
        eapply forallb_weaken; [|exact Hl0]. intros x Hx. unfold key_char, any_of in *. simpl in Hx. by rewrite orb_false_r in Hx. }
      revert Hk. generalize (bytes name). intros l. induction l as [|c l IH]; [done|]. cbn [forallb]. intros [Hc Hl]%andb_prop. 
      change (key_rune [c] ++ concat (map (fun c => key_rune [c]) l) = c :: l). rewrite IH by done. unfold key_rune. by rewrite Hc. }
    rewrite !map_app, !concat_app, Hid. done. }
  assert (TrimChar hyphen (app_key name) = app_key name) as ->.
  { apply (TrimChar_ends _ _ "p"%char (bytes ("roduction-" ++ name ++ "-ap")) "p"%char); [|done|done]. unfold app_key, app_stack. rewrite !bytes_app.
    cbn [bytes list_ascii_of_string app]. by rewrite <- !app_assoc. }
  assert (bytes (app_key name) = "p"%char :: bytes (("roduction-" ++ name) ++ "-app")%string) as E1 by reflexivity. rewrite E1. cbn iota.
  change (lower_case "p"%char) with true. cbn iota. rewrite take_ge, of_bytes_bytes; [done|]. unfold app_key, app_stack.
  rewrite !bytes_app, !length_app, !length_bytes. unfold len in Hlen. cbn [String.length]. lia.
Qed.

Lemma squeeze_chars b l : forallb (fun c => key_char c || Ascii.eqb c hyphen) (squeeze b l) = true.
Proof. revert b. induction l as [|c l IH]; intros b; [done|]. simpl. destruct (key_char c) eqn:K; [simpl; by rewrite K, IH|]. destruct b; simpl; by rewrite ?IH. Qed.

Lemma drop_char_sub f c l : forallb f l = true -> forallb f (drop_char c l) = true.
Proof. induction l as [|x l IH]; [done|]. simpl. intros [Hx Hl]%andb_prop. destruct (Ascii.eqb x c); [by apply IH|]. simpl. by rewrite Hx, Hl. Qed.

Lemma TrimChar_sub f c s : forallb f (bytes s) = true -> forallb f (bytes (TrimChar c s)) = true.
Proof.
  intros Hs. unfold TrimChar. rewrite bytes_of_bytes. rewrite forallb_forall. intros x Hx%in_rev. revert x Hx. apply forallb_forall.
  apply drop_char_sub, forallb_forall. intros x Hx%in_rev. revert x Hx. by apply forallb_forall, drop_char_sub.
Qed.

Lemma forallb_take {A} (f : A -> bool) n l : forallb f l = true -> forallb f (take n l) = true.
Proof. rewrite !forallb_forall. intros Hl x Hx. apply Hl. rewrite <- (take_drop n l). apply in_or_app. by left. Qed.

(** The name of a route network is plain and short. *)
Lemma network_name serviceKey : plain (RouteNetworkName serviceKey) = true /\ dockerReferenceName (RouteNetworkName serviceKey) = true.
Proof.
  unfold RouteNetworkName. cbv zeta. set (clean0 := TrimChar hyphen _). set (clean := if (clean0 =? "")%string then "service" else clean0).
  assert (forallb (fun c => key_char c || Ascii.eqb c hyphen) (bytes clean) = true) as Hc.
  { unfold clean. destruct (clean0 =? "")%string; [done|]. apply TrimChar_sub. rewrite bytes_of_bytes. apply squeeze_chars. }
  assert (forall l, forallb (fun c => key_char c || Ascii.eqb c hyphen) l = true -> forallb plain_char l = true) as Hpl.
  { intros l. apply forallb_weaken. intros x Hx. unfold plain_char. apply orb_prop in Hx as [->|Hx%Ascii.eqb_eq]; [done|]. by subst. }
  assert (forallb plain_char (take 8 (bytes (Sum256_hex serviceKey))) = true) as Hh.
  { apply forallb_take. pose proof (Sum256_hex_form serviceKey) as Hf. unfold exactly in Hf. apply andb_prop in Hf as [Hf _].
    eapply forallb_weaken; [|exact Hf]. intros x Hx. unfold is_hex in Hx. unfold plain_char, key_char, digit, lower_case, between in *. lia. }
  assert (plain ("swarmops-route-" ++ of_bytes (take 42 (bytes clean)) ++ "-" ++ of_bytes (take 8 (bytes (Sum256_hex serviceKey)))) = true) as Hp.
  { rewrite !plain_app, !plain_of_bytes, Hh, (Hpl _ (forallb_take _ 42 _ Hc)). done. }
  split; [exact Hp|]. eapply plain_docker; [exact Hp|reflexivity|done|].
  unfold len. rewrite <- length_bytes, !bytes_app, !bytes_of_bytes, !length_app, !length_take, !length_bytes. cbn [String.length]. lia.
Qed.

(** ** Labels are taken apart as they were put together *)

Lemma HasSuffix_app a s : HasSuffix (a ++ s) s = true /\ TrimSuffix (a ++ s) s = a.
Proof.
  assert (String.length (a ++ s)%string = (String.length a + String.length s)%nat) as Hl by (by rewrite <- !length_bytes, bytes_app, length_app).
  assert (HasSuffix (a ++ s) s = true) as Hs.
  { unfold HasSuffix, len. rewrite Hl. apply andb_true_iff. split; [apply Z.leb_le; lia|]. apply String.eqb_eq.
    rewrite <- (of_bytes_bytes (String.substring _ _ _)), bytes_substring, bytes_app.
    replace (String.length a + String.length s - String.length s)%nat with (length (bytes a)) by (rewrite length_bytes; lia).
    rewrite drop_app_length, take_ge by (rewrite length_bytes; lia). apply of_bytes_bytes. }
  split; [done|]. unfold TrimSuffix. rewrite Hs, Hl, bytes_app.
  replace (String.length a + String.length s - String.length s)%nat with (length (bytes a)) by (rewrite length_bytes; lia).
  rewrite take_app_length. apply of_bytes_bytes.
Qed.

Lemma label_field_ends f g : In f label_fields -> In g label_fields -> f = g \/ last2 f <> last2 g.
Proof.
  assert (forallb (fun f => forallb (fun g => (f =? g)%string || negb (bool_decide (last2 f = last2 g))) label_fields) label_fields = true) as Hall by done.
  intros Hf Hg. rewrite forallb_forall in Hall. specialize (Hall f Hf). rewrite forallb_forall in Hall. specialize (Hall g Hg).
  apply orb_prop in Hall as [E%String.eqb_eq|E]; [by left|right]. apply negb_true_iff, bool_decide_eq_false in E. done.
Qed.

Lemma split_field_app router f fields :
  router <> "" -> In f fields -> incl fields label_fields -> split_field (router ++ "." ++ f) fields = Some (router, f).
Proof.
  intros Hr Hf Hincl. assert (forall g, In g label_fields -> (2 <= String.length g)%nat) as Hlen.
  { intros g Hg. unfold label_fields in Hg. simpl in Hg. repeat (destruct Hg as [<-|Hg]; [simpl; lia|]). done. }
  pose proof (Hincl f Hf) as Hfl. induction fields as [|g fields IH]; [done|]. cbn [split_field].
  destruct (label_field_ends f g Hfl (Hincl g (or_introl eq_refl))) as [<-|Hne].
  - destruct (HasSuffix_app router ("." ++ f)) as [-> ->]. by destruct (String.eqb_spec router "").
  - assert (HasSuffix (router ++ "." ++ f) ("." ++ g) = false) as ->.
    { apply not_true_iff_false. intros E%HasSuffix_split. revert E. rewrite <- (string_app_assoc router "." f), <- (string_app_assoc _ "." g).
      apply app_neq; auto. apply Hlen, Hincl. by left. }
    apply IH; [destruct Hf as [->|]; [by destruct Hne|done]|intros x Hx; apply Hincl; by right].
Qed.

Lemma split_label prefix router f :
  router <> "" -> In f label_fields -> splitTraefikLabel (label_key prefix router f) prefix = Some (router, f).
Proof.
  intros Hr Hf. unfold splitTraefikLabel, label_key. assert (HasPrefix (prefix ++ router ++ "." ++ f) prefix = true) as Hp by apply prefix_append.
  rewrite Hp. assert (TrimPrefix (prefix ++ router ++ "." ++ f) prefix = (router ++ "." ++ f)%string) as ->.
  { unfold TrimPrefix. rewrite Hp, bytes_app, <- length_bytes, drop_app_length. apply of_bytes_bytes. }
  destruct (String.eqb_spec (router ++ "." ++ f) "") as [E|]; [|apply split_field_app; [done|done|by intros ?]].
  apply (f_equal String.length) in E. rewrite <- length_bytes, !bytes_app, !length_app in E. simpl in E. lia.
Qed.

(** ** Sizes *)

Lemma round_units_whole z : 0 < z < 2 ^ 53 -> round_units (z * 2 ^ 1074) 1 = Some (z * 2 ^ 1074).
Proof.
  intros Hz. unfold round_units. rewrite Z.div_1_r, Z.mul_1_l. assert (Z.log2 (z * 2 ^ 1074) = Z.log2 z + 1074) as ->.
  { rewrite Z.log2_mul_pow2; lia. }
  assert (0 <= Z.log2 z < 53) as Hl. { split; [apply Z.log2_nonneg|]. apply Z.log2_lt_pow2; lia. }
  rewrite Z.max_r by lia. set (k := Z.log2 z + 1074 - 52).
  assert (z * 2 ^ 1074 = (z * 2 ^ (1074 - k)) * 2 ^ k) as E. { rewrite <- Z.mul_assoc, <- Z.pow_add_r by lia. do 2 f_equal. lia. }
  assert (0 < 2 ^ k) as Hk by (apply Z.pow_pos_nonneg; lia).
  assert (half_even (z * 2 ^ 1074) (2 ^ k) * 2 ^ k = z * 2 ^ 1074) as ->.
  { rewrite E. unfold half_even. rewrite Z.div_mul, Z.mod_mul by lia. replace (2 * 0 <? 2 ^ k) with true by (symmetry; apply Z.ltb_lt; lia). done. }
  replace (z * 2 ^ 1074 <? 2 ^ 2098) with true; [done|]. symmetry. apply Z.ltb_lt.
  apply (Z.lt_le_trans _ (2 ^ 53 * 2 ^ 1074)); [apply Zmult_lt_compat_r; [apply Z.pow_pos_nonneg; lia|lia]|]. rewrite <- Z.pow_add_r by lia. apply Z.pow_le_mono_r; lia.
Qed.

Lemma ParseFloat_decimal z : 0 < z < 2 ^ 53 -> ParseFloat (decimal z) = Some (Fin false (z * 2 ^ 1074)).
Proof.
  intros Hz. destruct (decimal_digits z) as (Hne & Hd & Hv); [lia|].
  pose proof (read_fixed (bytes (decimal z)) [] (z * 2 ^ 1074) Hne Hd eq_refl) as Hr. rewrite app_nil_r, Hv, of_bytes_bytes in Hr.
  apply Hr; [lia|]. by apply round_units_whole.
Qed.

Lemma digits_of_all l rest : forallb digit l = true -> match rest with c :: _ => digit c = false | [] => True end -> digits_of (l ++ rest) = (l, rest).
Proof.
  induction l as [|c l IH]; intros Hl Hr; [destruct rest; [done|]; simpl; by rewrite Hr|]. simpl in *. apply andb_prop in Hl as [-> Hl]. by rewrite IH.
Qed.

(** The size of an application is read as a positive quantity. *)
Lemma memory_reads m : 64 <= m <= 262144 -> exists f, parseMemoryMiB (decimal m ++ "M") = Ok f /\ not_positive f = false.
Proof.
  intros Hm. destruct (decimal_digits m) as (Hne & Hd & Hv); [lia|].
  assert (TrimSpace (decimal m ++ "M") = (decimal m ++ "M")%string) as Ht.
  { apply TrimSpace_printable. rewrite bytes_app, forallb_app. apply andb_true_iff. split; [|done].
    eapply forallb_weaken; [|exact Hd]. intros x Hx%digit_code. unfold printable, between. lia. }
  unfold parseMemoryMiB. rewrite Ht, bytes_app. change (bytes "M") with ["M"%char]. unfold quantity_text.
  rewrite digits_of_all by done. destruct (bytes (decimal m)) as [|c l] eqn:E; [done|]. change (Ascii.eqb "M" ".") with false. cbn iota.
  change (memory_unit ["M"%char]) with true. cbn [negb]. rewrite <- E, of_bytes_bytes, ParseFloat_decimal by lia.
  assert (0 < m * 2 ^ 1074) as Hpos by (apply Z.mul_pos_pos; [lia|apply Z.pow_pos_nonneg; lia]).
  assert (not_positive (Fin false (m * 2 ^ 1074)) = false) as -> by (unfold not_positive; simpl orb; apply Z.eqb_neq; lia).
  assert (ToLower (of_bytes ["M"%char]) = "m") as -> by (by vm_compute). change (multiplier "m") with (Some 20). cbn iota.
  eexists. split; [done|]. unfold scale_up. rewrite <- Z.mul_assoc, <- Z.pow_add_r by lia. change (1074 + 20) with 1094.
  replace (m * 2 ^ 1094 <? 2 ^ 2098) with true.
  2: { symmetry. apply Z.ltb_lt. apply (Z.lt_le_trans _ (2 ^ 53 * 2 ^ 1094)); [apply Zmult_lt_compat_r; [apply Z.pow_pos_nonneg; lia|lia]|].
       rewrite <- Z.pow_add_r by lia. apply Z.pow_le_mono_r; lia. }
  unfold scale_down. rewrite (round_units_ratio _ _ (m * 2 ^ 1074) 1), round_units_whole by (rewrite ?Z.mul_1_r, <- ?Z.mul_assoc, <- ?Z.pow_add_r; lia).
  unfold not_positive. simpl orb. apply Z.eqb_neq. lia.
Qed.

Lemma digits_trim s : bytes s <> [] -> forallb (fun c => digit c || Ascii.eqb c dot) (bytes s) = true -> TrimSpace s = s /\ blank s = false.
Proof.
  intros Hne Hs. assert (TrimSpace s = s) as Ht.
  { apply TrimSpace_printable. eapply forallb_weaken; [|exact Hs]. intros x Hx. apply orb_prop in Hx as [Hx%digit_code|Hx%Ascii.eqb_eq].
    - unfold printable, between. lia.
    - by subst. }
  split; [done|]. unfold blank. rewrite Ht. apply String.eqb_neq. by intros ->.
Qed.

Lemma FormatFloat_text n : representable n ->
  bytes (FormatFloat n) <> [] /\ forallb (fun c => digit c || Ascii.eqb c dot) (bytes (FormatFloat n)) = true.
Proof.
  intros [Hn _]. unfold FormatFloat. destruct (reduce 1074 n) as [odd k] eqn:R. pose proof (reduce_spec 1074 n) as Hred. rewrite R in Hred. destruct Hred as [Hk En].
  assert (0 < odd) as Ho. { assert (0 < 2 ^ Z.of_nat (1074 - k)) by (apply Z.pow_pos_nonneg; lia). nia. }
  set (m := shortest _ _ _ _ _). assert (0 <= m) as Hm by (apply shortest_nonneg; pose proof (Z.pow_nonneg 5 (Z.of_nat k)); nia). clearbody m.
  unfold fixed. assert (0 < 10 ^ Z.of_nat k) as H10 by (apply Z.pow_pos_nonneg; lia).
  destruct (decimal_digits (m / 10 ^ Z.of_nat k)) as (Wne & Wd & _); [apply Z.div_pos; lia|].
  destruct (frac_digits_spec k (m mod 10 ^ Z.of_nat k) [] (Z.mod_pos_bound _ _ H10)) as (l & -> & _ & Ld & _). rewrite app_nil_r.
  assert (forall q, forallb digit q = true -> forallb (fun c => digit c || Ascii.eqb c dot) q = true) as Hw
    by (intros q; apply forallb_weaken; by intros x ->).
  destruct (trim_zeros_spec l) as [j Ej]. destruct (trim_zeros l) as [|c f] eqn:T; [split; [done|by apply Hw]|].
  rewrite !bytes_app, bytes_of_bytes. split; [by destruct (bytes (decimal _))|]. rewrite !forallb_app, (Hw _ Wd). cbn [andb].
  rewrite Ej, forallb_app in Ld. apply andb_prop in Ld as [Ld _]. by rewrite (Hw _ Ld).
Qed.

(** What a rendered service declares is accepted. *)
Lemma reservations_ok spec deploy n :
  at_key deploy "resources" = resources_of spec -> sp_CPUs spec = Fin false n -> representable n -> 64 <= sp_MemoryMiB spec <= 262144 ->
  succeeds (composeReservations deploy) = Ok tt /\ validateResources (Mapping deploy) = Ok tt.
Proof.
  intros Hd Hc Hn Hm. destruct (FormatFloat_text n Hn) as [Tne Td]. destruct (digits_trim _ Tne Td) as [Tt Tb].
  assert (formatCPUs (sp_CPUs spec) = FormatFloat n) as Hf.
  { rewrite Hc. unfold formatCPUs. replace (n =? 0) with false by (symmetry; apply Z.eqb_neq; destruct Hn; lia). done. }
  destruct (memory_reads _ Hm) as (f & Hmem & Hpos). split.
  - unfold composeReservations. rewrite Hd. unfold resources_of, size_of. cbn [asMap]. unfold at_key, find_entry.
    cbn [List.find fst snd String.eqb Ascii.eqb Bool.eqb asMap as_string].
    rewrite Hf, Tt, (format_reads_back n Hn). assert (not_positive (Fin false n) = false) as -> by (unfold not_positive; simpl orb; apply Z.eqb_neq; destruct Hn; lia).
    by rewrite Hmem, Hpos.
  - unfold validateResources. cbn [asMap]. rewrite Hd. unfold resources_of. cbn [asMap].
    assert (blank (decimal (sp_MemoryMiB spec) ++ "M") = false) as Hb.
    { destruct (decimal_digits (sp_MemoryMiB spec)) as (Hne & Hdd & _); [lia|]. destruct (decimal (sp_MemoryMiB spec)) as [|c t]; [done|].
      unfold blank. destruct (TrimSpace_head c (t ++ "M")) as [u E]; [|change (String c t ++ "M")%string with (String c (t ++ "M")); by rewrite E].
      cbn in Hdd. apply andb_prop in Hdd as [Hx%digit_code _]. unfold printable, between. lia. }
    unfold each. simpl. unfold size_of. simpl. unfold declares, at_key, find_entry. simpl. by rewrite Hf, Tb, Hb.
Qed.
End Facts.
