(* ===== verification/ApplicationLabels.v ===== *)
(** * Applications: the labels of a rendered service are admitted

    An HTTP application gets one router, internal, under the name derived from
    its service; the checks of admission.go accept it in whatever order they
    read the labels. *)

From Stdlib Require Import ZArith Lia Bool Ascii String.
From stdpp Require Import base tactics list strings gmap.
From S2P Require Import Prelude GoStrings GoText GoNumbers GoYaml ComposePolicy RoutingTypes RoutingDomain RoutingLabels Admission AdmissionRoutes Application ApplicationFacts.

Local Open Scope string_scope.
Local Open Scope list_scope.
Local Open Scope bool_scope.
Local Open Scope Z_scope.

Lemma assign_defined pairs k : In k (map fst pairs) -> is_Some (assign pairs !! k).
Proof.
  unfold assign. intros Hin. cut (forall m : gmap string string, is_Some (m !! k) \/ In k (map fst pairs) ->
    is_Some (foldl (fun m kv => <[fst kv := snd kv]> m) m pairs !! k)); [auto|]. clear Hin.
  induction pairs as [|[k0 v0] pairs IH]; intros m Hm; [by destruct Hm|]. cbn [foldl map fst snd] in *. apply IH.
  destruct (String.eqb_spec k0 k) as [->|Hne]; [left; rewrite lookup_insert_eq; by eexists|].
  destruct Hm as [Hm|[->|Hm]]; [left; by rewrite lookup_insert_ne|done|by right].
Qed.

Section Labels.
Context `{CaseTable} `{ComposeLib}.

(** ** Labels that the loop accepts *)

Definition acceptable (stack key v : string) : Prop :=
  HasPrefix key "traefik." = false \/ In key ["traefik.enable"; "traefik.swarm.network"] \/
  (exists router field, key = label_key router_prefix router field /\ HasPrefix router (stack ++ "-")%string = true /\ In field router_fields /\
     (In field ["observability.metrics"; "observability.accesslogs"; "tls"] -> In v ["true"; "false"])) \/
  (exists router, key = label_key service_prefix router "loadbalancer.server.port" /\ HasPrefix router (stack ++ "-")%string = true).

Lemma prefixed_nonempty name stack : HasPrefix name (stack ++ "-")%string = true -> name <> "".
Proof. intros Hp ->. by destruct stack. Qed.

Lemma set_router_accepts stack router field v c :
  HasPrefix router (stack ++ "-")%string = true -> In field router_fields ->
  (In field ["observability.metrics"; "observability.accesslogs"; "tls"] -> In v ["true"; "false"]) ->
  exists c', set_router stack router field v c = Ok c'.
Proof.
  intros Hp Hf Hv. unfold set_router. rewrite Hp. cbn [negb]. cbv zeta.
  destruct (field =? "rule")%string eqn:N1; [by eexists|]. destruct (field =? "tls.certresolver")%string eqn:N2; [by eexists|].
  destruct (field =? "entrypoints")%string eqn:N3; [by eexists|]. destruct (field =? "service")%string eqn:N4; [by eexists|].
  apply String.eqb_neq in N1, N2, N3, N4. assert (In field ["observability.metrics"; "observability.accesslogs"; "tls"]) as Hin.
  { unfold router_fields in Hf. simpl in Hf |- *. intuition congruence. }
  specialize (Hv Hin). apply oneOfString_In in Hin, Hv. rewrite Hin, Hv. by eexists.
Qed.

Lemma collect_accepts stack c key v : acceptable stack key v -> exists c', collect stack (Ok c) (key, v) = Ok c'.
Proof.
  unfold collect. intros [-> |[Hk|[(r & f & -> & Hr & Hf & Hv)|(r & -> & Hr)]]].
  - by eexists.
  - apply oneOfString_In in Hk. rewrite Hk. destruct (HasPrefix key _); by eexists.
  - change (HasPrefix (label_key router_prefix r f) "traefik.") with true. change (oneOfString (label_key router_prefix r f) _) with false. cbn [negb].
    change "traefik.http.routers." with router_prefix. rewrite split_label; [by apply set_router_accepts|by eapply prefixed_nonempty|].
    unfold router_fields, label_fields in *. simpl in *. tauto.
  - change (HasPrefix (label_key service_prefix r _) "traefik.") with true. change (oneOfString (label_key service_prefix r _) _) with false. cbn [negb].
    change (splitTraefikLabel (label_key service_prefix r _) "traefik.http.routers.") with (@None (string * string)). cbn iota.
    change "traefik.http.services." with service_prefix. rewrite split_label; [|by eapply prefixed_nonempty|unfold label_fields; simpl; tauto].
    unfold set_port. rewrite Hr. by eexists.
Qed.

Lemma collect_all stack l c : (forall k v, In (k, v) l -> acceptable stack k v) -> exists c', foldl (collect stack) (Ok c) l = Ok c'.
Proof.
  revert c. induction l as [|[k v] l IH]; intros c Hl; [by eexists|]. cbn [foldl].
  destruct (collect_accepts stack c k v (Hl k v (or_introl eq_refl))) as [c1 ->]. apply IH. intros k' v' Hin. apply Hl. by right.
Qed.

(** A router comes from a label. *)
Lemma collect_router_from stack l c c' router :
  foldl (collect stack) (Ok c) l = Ok c' -> is_Some (routers c' !! router) ->
  is_Some (routers c !! router) \/ exists field v, In field router_fields /\ In (label_key router_prefix router field, v) l.
Proof.
  revert c. induction l as [|[k v] l IH]; intros c Hf Hr; [injection Hf as <-; by left|].
  apply collect_cons in Hf as (c1 & H1 & Hf). destruct (IH _ Hf Hr) as [Hc|(f & w & Hfl & Hin)]; [|right; exists f, w; split; [done|by right]].
  apply collect_ok in H1 as [[_ ->]|[(_ & Er & _)|[(r & field & Hk & Hs)|(r & _ & _ & Er & _)]]]; [by left|rewrite Er in Hc; by left| |rewrite Er in Hc; by left].
  apply set_router_ok in Hs as (_ & Hfl & _ & _ & e & Er & _). rewrite Er in Hc. destruct (String.eqb_spec r router) as [->|Hne].
  - right. exists field, v. split; [done|]. left. by rewrite Hk.
  - rewrite lookup_insert_ne in Hc by done. by left.
Qed.

Lemma composeLabels_text m deploy :
  at_key deploy "labels" = text_map m -> composeLabels (Mapping deploy) = Ok m.
Proof.
  intros Hd. unfold composeLabels. cbn [asMap]. rewrite Hd. unfold text_map.
  rewrite <- (list_to_map_to_list m) at 2. assert (forall l acc, NoDup (map fst l) -> (forall k, In k (map fst l) -> acc !! k = None) ->
    foldl label_entry (Ok acc) (map (fun kv => (fst kv, Str (snd kv))) l) = Ok (list_to_map l ∪ acc)) as Hgen.
  { clear. intros l. induction l as [|[k v] l IH]; intros acc Hnd Hacc; [cbn; by rewrite (left_id_L ∅ (∪))|].
    cbn [map fst] in Hnd. apply NoDup_cons in Hnd as [Hn Hnd]. cbn [map foldl]. unfold label_entry at 2. cbn [fst snd]. rewrite IH; [|done|].
    - f_equal. cbn [list_to_map foldr]. unfold list_to_map. cbn. rewrite <- insert_union_l, <- insert_union_r; [done|]. apply not_elem_of_list_to_map_1. exact Hn.
    - intros k' Hk'. rewrite lookup_insert_ne; [apply Hacc; by right|]. intros ->. apply Hn. by apply list_elem_of_In. }
  rewrite Hgen; [by rewrite (right_id_L ∅ (∪))|apply NoDup_fst_map_to_list|done].
Qed.

(** ** Hosts *)

(** Plain text that ends in a letter or a digit. *)
Definition clean_host (h : string) : Prop := plain h = true /\ exists m y, bytes h = m ++ [y] /\ key_char y = true.

Lemma clean_host_form h : clean_host h -> host_form h = h.
Proof.
  intros (Hp & m & y & E & Hy). unfold host_form. rewrite plain_trim by done. assert (TrimSuffix h "." = h) as ->; [|by apply plain_lower].
  unfold TrimSuffix. destruct (HasSuffix h ".") eqn:Hs; [|done]. apply HasSuffix_split, (f_equal bytes) in Hs.
  rewrite bytes_app, E in Hs. apply app_inj_tail in Hs as [_ ->]. discriminate Hy.
Qed.

Lemma clean_host_normal h : clean_host h -> normalizeHosts [h] = [h].
Proof.
  intros Hc. unfold normalizeHosts, distinct_hosts. rewrite (clean_host_form _ Hc). destruct (String.eqb_spec h "") as [->|]; [|done].
  destruct Hc as (_ & m & y & E & _). by destruct m.
Qed.

Lemma host_label_clean l : host_label (of_bytes l) = true -> forallb plain_char l = true /\ exists m y, l = m ++ [y] /\ key_char y = true.
Proof.
  unfold host_label. rewrite bytes_of_bytes. destruct l as [|c l]; [done|]. intros Hh. apply andb_prop in Hh as [Hh Hlast].
  apply andb_prop in Hh as [Hh Hall]. apply andb_prop in Hh as [Hc _]. split.
  - simpl. apply andb_true_iff. split; [unfold plain_char; by rewrite Hc|]. eapply forallb_weaken; [|exact Hall]. intros x Hx.
    unfold plain_char. apply orb_prop in Hx as [->|E%Ascii.eqb_eq]; [done|by subst].
  - destruct (rev l) as [|y r] eqn:R.
    + exists [], c. split; [|done]. apply (f_equal (@rev _)) in R. rewrite rev_involutive in R. by rewrite R.
    + exists (c :: rev r), y. split; [|done]. rewrite <- (rev_involutive l), R. done.
Qed.

Lemma split_clean acc l : forallb host_label (map of_bytes (split_bytes dot acc l)) = true ->
  forallb plain_char (rev acc ++ l) = true /\ exists m y, rev acc ++ l = m ++ [y] /\ key_char y = true.
Proof.
  revert acc. induction l as [|x l IH]; intros acc; cbn [split_bytes].
  - cbn [map forallb]. rewrite andb_true_r, app_nil_r. apply host_label_clean.
  - destruct (Ascii.eqb_spec x dot) as [->|_].
    + cbn [map forallb]. intros [Ha Hl]%andb_prop. apply host_label_clean in Ha as [Ha _]. apply IH in Hl as (Hl & m & y & E & Hy). cbn [rev app] in *.
      split; [by rewrite forallb_app, Ha; cbn [forallb andb]; rewrite Hl|]. exists (rev acc ++ dot :: m), y. split; [|done]. by rewrite E, <- app_assoc.
    + intros Hl. apply IH in Hl. cbn [rev] in Hl. by rewrite <- app_assoc in Hl.
Qed.

Lemma domain_clean h : applicationHostPattern h = true -> clean_host h.
Proof. unfold applicationHostPattern. cbv zeta. intros [_ Hl]%andb_prop. apply split_clean in Hl. done. Qed.

Lemma internal_clean a : plain a = true -> clean_host (a ++ ".swarmops.internal")%string.
Proof.
  intros Ha. split; [by rewrite plain_app, Ha|]. exists (bytes a ++ bytes ".swarmops.interna"), "l"%char. split; [|done].
  by rewrite bytes_app, <- app_assoc.
Qed.

(** ** The route *)

Definition app_host (spec : ApplicationSpec) : string :=
  if (sp_Domain spec =? "")%string then (sp_Name spec ++ ".swarmops.internal")%string else sp_Domain spec.

(** The route of an HTTP application, in normal form. *)
Definition app_route (spec : ApplicationSpec) : RouteSpec :=
  mkRoute true "" true (mkHealth "response" (if (sp_HealthPath spec =? "")%string then "/" else sp_HealthPath spec) 5) (app_key (sp_Name spec)) 0 true
    (mkMatch [app_host spec] "/" []) true RouteHTTP (negb (sp_Domain spec =? "")%string) "" RouteInternal false (app_service (sp_Name spec)) RouteTLSOff
    (sp_Port spec) 1.

Record routable (spec : ApplicationSpec) : Prop := mkRoutable {
  ra_name : applicationNamePattern (sp_Name spec) = true;
  ra_domain : sp_Domain spec <> "" -> applicationHostPattern (sp_Domain spec) = true;
  ra_health : sp_HealthPath spec <> "" -> httpPathPattern (sp_HealthPath spec) = true;
  ra_port : sp_Port spec <> 0 }.

Lemma app_names spec : applicationNamePattern (sp_Name spec) = true ->
  plain (app_key (sp_Name spec)) = true /\ plain (app_service (sp_Name spec)) = true /\ plain (app_stack (sp_Name spec)) = true.
Proof. intros (Hp & _)%name_plain. unfold app_key, app_service, app_stack. by rewrite !plain_app, Hp. Qed.

Lemma app_host_clean spec : routable spec -> clean_host (app_host spec).
Proof.
  intros [Hn Hd _ _]. unfold app_host. destruct (String.eqb_spec (sp_Domain spec) "") as [_|Hne]; [|by apply domain_clean, Hd].
  apply internal_clean. by destruct (name_plain _ Hn).
Qed.

Lemma app_route_normal spec : routable spec -> RouteSpec_Normalize (app_route spec) = app_route spec.
Proof.
  intros Hr. destruct (app_names spec (ra_name _ Hr)) as (Hk & Hs & _). unfold RouteSpec_Normalize, app_route.
  cbn [rt_AccessLogs rt_DNSReference rt_Enabled rt_Health rt_Key rt_ListenPort rt_Managed rt_Match rt_Metrics rt_Protocol rt_PublicAllow rt_Resolver
       rt_Scope rt_Sensitive rt_ServiceKey rt_TLS rt_TargetPort rt_Version rm_Hosts rm_PathPrefix rm_SNI].
  rewrite (clean_host_normal _ (app_host_clean _ Hr)), !plain_lowered, (plain_trim (app_service _)) by done. f_equal.
  unfold normalize_health. cbn [rh_Kind rh_Path rh_TimeoutSeconds]. destruct (String.eqb_spec (sp_HealthPath spec) "") as [|Hne]; [done|].
  by apply String.eqb_neq in Hne; rewrite Hne, andb_false_r.
Qed.

Lemma applicationRouteSpec_is spec : routable spec -> applicationRouteSpec spec (app_stack (sp_Name spec)) = app_route spec.
Proof.
  intros Hr. rewrite <- (app_route_normal _ Hr). unfold applicationRouteSpec, app_route. cbv zeta.
  change (app_stack (sp_Name spec) ++ "_" ++ ApplicationServiceName)%string with (app_service (sp_Name spec)).
  by rewrite (route_key_of _ (ra_name _ Hr)).
Qed.

Lemma key_is_route_key name : applicationNamePattern name = true -> routeKeyPattern (app_key name) = true.
Proof.
  intros Hn. pose proof Hn as (c & l & E & Hc & Hl & Hlen)%pattern_ok.
  eapply (pattern_intro _ _ _ _ "p"%char (bytes ("roduction-" ++ name ++ "-app"))); [unfold app_key, app_stack; by rewrite string_app_assoc|done| |].
  - rewrite !bytes_app, !forallb_app, E. cbn [forallb]. rewrite Hc, Hl. done.
  - rewrite !bytes_app, !length_app, E. cbn [length]. simpl. lia.
Qed.

Lemma service_key_valid name : applicationNamePattern name = true -> validServiceKey (app_service name) = true.
Proof.
  intros Hn. destruct (name_plain _ Hn) as (Hp & _ & Hlen). assert (plain (app_service name) = true) as Hs by (unfold app_service, app_stack; by rewrite !plain_app, Hp).
  assert (len (app_service name) <= 128) as Hl.
  { unfold len in *. rewrite <- length_bytes in *. unfold app_service, app_stack. rewrite !bytes_app, !length_app. simpl. lia. }
  assert (bytes (app_service name) = "p"%char :: bytes ("roduction-" ++ name ++ "_app")%string) as E by (unfold app_service, app_stack; by rewrite string_app_assoc).
  pose proof (plain_docker _ _ _ Hs E eq_refl Hl) as (c & l & E' & Hc & Hr & _)%pattern_ok.
  unfold validServiceKey. rewrite !andb_true_iff. split; [split; [split|]|].
  - done.
  - by apply Z.leb_le.
  - apply negb_true_iff, not_true_iff_false. unfold ContainsAny. intros (x & Hx & Hc')%existsb_exists.
    unfold plain in Hs. rewrite forallb_forall in Hs. specialize (Hs x Hx). apply plain_code in Hs. apply existsb_exists in Hc' as (z & Hz & Ez%Ascii.eqb_eq).
    subst z. unfold controls in Hz. simpl in Hz. repeat (destruct Hz as [<-|Hz]; [vm_compute in Hs; intuition congruence|]). done.
  - eapply pattern_intro; [exact E'|done|done|]. unfold len. rewrite <- length_bytes, E'. cbn [length]. lia.
Qed.

Lemma app_route_valid spec : routable spec -> RouteSpec_Validate (app_route spec) = Ok tt.
Proof.
  intros Hr. unfold RouteSpec_Validate. rewrite app_route_normal by done. destruct Hr as [Hn _ Hh Hp].
  assert (httpPathPattern (rh_Path (rt_Health (app_route spec))) = true) as Hpath.
  { cbn [app_route rt_Health rh_Path]. destruct (String.eqb_spec (sp_HealthPath spec) ""); [done|by apply Hh]. }
  assert (routeKeyPattern (rt_Key (app_route spec)) = true) as Hk by (by apply key_is_route_key).
  assert (validServiceKey (rt_ServiceKey (app_route spec)) = true) as Hs by (by apply service_key_valid).
  assert ((rt_TargetPort (app_route spec) =? 0) = false) as Ht by (by apply Z.eqb_neq).
  unfold route_guards, health_guards. rewrite Hk, Hs, Ht, Hpath. reflexivity.
Qed.

(** *** Its labels *)

Definition app_router (name : string) : string := (app_key name ++ "-http-internal")%string.
Definition app_rule (name : string) : string := ("Host(" ++ quoted (app_key name ++ ".swarmops.internal") ++ ")")%string.

Definition app_pairs (spec : ApplicationSpec) : list (string * string) :=
  let router := label_key router_prefix (app_router (sp_Name spec)) in
  [ ("swarmops.routing.version", "1"); ("swarmops.routing.route", app_key (sp_Name spec)); ("traefik.enable", "true");
    ("traefik.swarm.network", RouteNetworkName (app_service (sp_Name spec)));
    (label_key service_prefix (app_key (sp_Name spec) ++ "-http") "loadbalancer.server.port", decimal (sp_Port spec));
    (router "entrypoints", "internal-http"); (router "service", (app_key (sp_Name spec) ++ "-http")%string); (router "rule", app_rule (sp_Name spec));
    (router "observability.metrics", "true"); (router "observability.accesslogs", "true") ].

Lemma app_labels spec : routable spec -> exists listing,
  applicationLabels spec (app_stack (sp_Name spec)) None = <["swarmops.routing.labels" := listing]> (assign (app_pairs spec)).
Proof.
  intros Hr. unfold applicationLabels. rewrite (applicationRouteSpec_is _ Hr). unfold RenderRouteLabels. rewrite (app_route_normal _ Hr), (app_route_valid _ Hr).
  destruct (network_name (rt_ServiceKey (app_route spec))) as [_ ->]. cbn [negb].
  assert (route_labels (app_route spec) (RouteNetworkName (rt_ServiceKey (app_route spec))) = app_pairs spec) as ->; [|by eexists].
  unfold route_labels, base_labels, http_labels, http_router, app_pairs, app_router, routeRouterName, label_key, router_key, renderHTTPRule, app_rule, quoted. cbn -[decimal RouteNetworkName app_key app_service].
  rewrite !string_app_assoc. reflexivity.
Qed.

(** The value of a label is what the list says; the router's fields are told
    apart by their ends. *)
Lemma app_label_In spec listing k v :
  <["swarmops.routing.labels" := listing]> (assign (app_pairs spec)) !! k = Some v -> HasPrefix k "traefik." = true -> In (k, v) (app_pairs spec).
Proof.
  intros Hl Hp. destruct (String.eqb_spec k "swarmops.routing.labels") as [->|Hne]; [done|].
  rewrite lookup_insert_ne in Hl by done. by apply assign_In.
Qed.

Lemma app_label_is spec listing k v :
  In (k, v) (app_pairs spec) -> HasPrefix k "traefik." = true -> (forall w, In (k, w) (app_pairs spec) -> w = v) ->
  <["swarmops.routing.labels" := listing]> (assign (app_pairs spec)) !! k = Some v.
Proof.
  intros Hin Hp Hu. destruct (String.eqb_spec k "swarmops.routing.labels") as [->|Hne]; [done|]. rewrite lookup_insert_ne by done.
  destruct (assign_defined (app_pairs spec) k) as [w Hw]; [by apply in_map_iff; exists (k, v)|]. rewrite Hw. f_equal. by apply Hu, assign_In.
Qed.

(** Takes apart [In (k, v) (app_pairs spec)] for a key whose start is known. *)
Ltac app_pair_cases Hw :=
  unfold app_pairs in Hw; cbn [In] in Hw;
  repeat (destruct Hw as [Hw|Hw];
    [let Hk := fresh "Hk" in pose proof (f_equal fst Hw) as Hk; apply (f_equal snd) in Hw; cbn [fst snd] in Hk, Hw;
     first [discriminate Hk
           |apply label_key_inj in Hk as [_ Hk]; [discriminate Hk|unfold router_fields; cbn; tauto..]
           |by symmetry]|]);
  try done.

Lemma router_field_is spec listing field v :
  In (field, v) [("rule", app_rule (sp_Name spec)); ("entrypoints", "internal-http")] ->
  <["swarmops.routing.labels" := listing]> (assign (app_pairs spec)) !! label_key router_prefix (app_router (sp_Name spec)) field = Some v.
Proof.
  intros [[= <- <-]|[[= <- <-]|[]]]; (apply app_label_is; [unfold app_pairs; cbn [In]; tauto|done|]); intros w Hw; app_pair_cases Hw.
Qed.

(** ** The router is approved *)

Lemma span_all f l rest : forallb f l = true -> match rest with c :: _ => f c = false | [] => True end -> span f (l ++ rest) = (l, rest).
Proof.
  induction l as [|c l IH]; intros Hl Hr; [destruct rest; [done|]; simpl; by rewrite Hr|]. simpl in *. apply andb_prop in Hl as [-> Hl]. by rewrite IH.
Qed.

Lemma plain_rule_char c : plain_char c = true -> rule_char c = true.
Proof.
  intros Hc%plain_code. unfold rule_char. apply negb_true_iff. rewrite !orb_false_iff.
  assert (forall s, (forall x, In x (bytes s) -> code x <> code c) -> any_of s c = false) as Hno.
  { intros s Hs. unfold any_of. apply not_true_iff_false. intros (x & Hx & E%Ascii.eqb_eq)%existsb_exists. subst. by apply (Hs x). }
  split; [split|]; apply Hno; intros x Hx; try rewrite bytes_of_bytes in Hx; cbn [In bytes list_ascii_of_string] in Hx;
    repeat (destruct Hx as [<-|Hx]; [intros E; rewrite <- E in Hc; vm_compute in Hc; intuition congruence|]); done.
Qed.

Lemma rule_host host : plain host = true -> host <> "" -> routerRulePattern ("Host(" ++ quoted host ++ ")") = Some host.
Proof.
  intros Hp Hne. unfold routerRulePattern. change (HasPrefix _ "Host(") with true. cbn iota.
  assert (TrimPrefix ("Host(" ++ quoted host ++ ")") "Host(" = (quoted host ++ ")")%string) as ->.
  { unfold TrimPrefix. change (HasPrefix _ "Host(") with true. cbn iota. exact (of_bytes_bytes (quoted host ++ ")")). }
  assert (bytes (quoted host ++ ")") = chr 96 :: bytes host ++ [chr 96; ")"%char]) as ->.
  { unfold quoted, backquote. rewrite !bytes_app, !bytes_of_bytes, <- !app_assoc. done. }
  cbn [span]. change (rule_space (chr 96)) with false. cbn [snd optional]. change (rule_quote (chr 96)) with true. cbn iota.
  rewrite span_all; [|eapply forallb_weaken; [exact plain_rule_char|exact Hp]|done].
  destruct (bytes host) as [|c l] eqn:E; [destruct Hne; by rewrite <- (of_bytes_bytes host), E|]. transitivity (Some (of_bytes (bytes host))); [by rewrite E|by rewrite of_bytes_bytes].
Qed.

Lemma app_rule_trim name : applicationNamePattern name = true -> TrimSpace (app_rule name) = app_rule name.
Proof.
  intros (Hp & _)%name_plain. apply TrimSpace_printable. unfold app_rule, quoted, backquote, app_key, app_stack. rewrite !bytes_app, !forallb_app.
  rewrite (plain_printable _ Hp). done.
Qed.

Lemma app_router_approved spec ports :
  applicationNamePattern (sp_Name spec) = true -> forall e, ar_rule e = app_rule (sp_Name spec) -> ar_entrypoints e = "internal-http" -> ar_resolver e = "" ->
  validateRouter (app_stack (sp_Name spec)) "app" ports (app_router (sp_Name spec), e) = Ok tt.
Proof.
  intros Hn e Hr He Hs. unfold validateRouter. rewrite Hr, He, (app_rule_trim _ Hn). change (app_rule (sp_Name spec) =? "")%string with false.
  change ("internal-http" =? "")%string with false. cbn [orb]. destruct (app_names spec Hn) as (Hk & _).
  assert (plain (app_key (sp_Name spec) ++ ".swarmops.internal") = true) as Hp by (by rewrite plain_app, Hk).
  unfold app_rule. rewrite rule_host; [|done|done]. cbv zeta.
  assert (HasSuffix (app_router (sp_Name spec)) "-internal" = true) as ->.
  { unfold app_router. change "-http-internal" with ("-http" ++ "-internal")%string. rewrite <- string_app_assoc. apply HasSuffix_app. }
  change (ToLower (TrimSuffix (TrimSpace (app_key (sp_Name spec) ++ ".swarmops.internal")) ".")) with (host_form (app_key (sp_Name spec) ++ ".swarmops.internal")).
  rewrite (clean_host_form _ (internal_clean _ Hk)). unfold internal_host.
  change (app_stack (sp_Name spec) ++ "_" ++ "app")%string with (app_service (sp_Name spec)). rewrite (route_key_of _ Hn), Hs.
  change ("." ++ ReservedInternalZone)%string with ".swarmops.internal". by rewrite String.eqb_refl.
Qed.

(** Every label of the application is one the loop accepts. *)
Lemma app_pairs_acceptable spec k v : In (k, v) (app_pairs spec) -> acceptable (app_stack (sp_Name spec)) k v.
Proof.
  assert (forall suffix, HasPrefix (app_key (sp_Name spec) ++ suffix) (app_stack (sp_Name spec) ++ "-") = true) as Hown.
  { intros suffix. unfold app_key. change "-app" with ("-" ++ "app")%string. rewrite <- string_app_assoc, (string_app_assoc _ "app"). apply prefix_append. }
  unfold app_pairs, acceptable. cbn [In]. intros Hin.
  repeat (destruct Hin as [[= <- <-]|Hin]; [first [by left|right; left; cbn [In]; tauto
    |do 2 right; left; eexists (app_router (sp_Name spec)), _; (split; [reflexivity|]); split; [apply Hown|]; split; [unfold router_fields; cbn [In]; tauto|]; cbn [In];
       intuition discriminate
    |do 3 right; eexists (app_key (sp_Name spec) ++ "-http")%string; split; [reflexivity|apply Hown]]|]). done.
Qed.

Lemma app_routers spec listing c router :
  let labels := <["swarmops.routing.labels" := listing]> (assign (app_pairs spec)) in
  foldl (collect (app_stack (sp_Name spec))) (Ok no_labels) (map_to_list labels) = Ok c -> is_Some (routers c !! router) -> router = app_router (sp_Name spec).
Proof.
  intros labels F Hr. destruct (collect_router_from _ _ _ _ _ F Hr) as [[x Hx]|(f & v & Hf & Hin)]; [discriminate Hx|].
  apply list_elem_of_In, elem_of_map_to_list in Hin. apply app_label_In in Hin; [|done]. unfold app_pairs in Hin. cbn [In] in Hin.
  repeat (destruct Hin as [Hin|Hin]; [apply (f_equal fst) in Hin; cbn [fst] in Hin; first [discriminate Hin
    |apply label_key_inj in Hin as [<- _]; [done|unfold router_fields; cbn [In]; tauto|done]]|]). done.
Qed.

Theorem app_routes_ok spec service deploy :
  routable spec -> at_key service "deploy" = Mapping deploy ->
  at_key deploy "labels" = text_map (applicationLabels spec (app_stack (sp_Name spec)) None) ->
  validateServiceRoutes (app_stack (sp_Name spec)) ("app", Mapping service) = Ok tt.
Proof.
  intros Hr Hd Hl. unfold validateServiceRoutes. cbn [fst snd asMap]. rewrite Hd, (composeLabels_text _ _ Hl). destruct (app_labels spec Hr) as [listing ->].
  set (labels := <["swarmops.routing.labels" := listing]> (assign (app_pairs spec))).
  destruct (collect_all (app_stack (sp_Name spec)) (map_to_list labels) no_labels) as [c F].
  { intros k v Hin. apply list_elem_of_In, elem_of_map_to_list in Hin. destruct (HasPrefix k "traefik.") eqn:P; [|by left].
    by apply app_pairs_acceptable, (app_label_In _ listing). }
  rewrite F. destruct (negb (hasTraefikLabel c)); [done|]. set (stack := app_stack (sp_Name spec)) in *.
  assert (forall k v, labels !! k = Some v -> HasPrefix k "traefik." = true -> In (k, v) (map_to_list labels)) as Hlist
    by (intros; apply list_elem_of_In; by apply elem_of_map_to_list).
  pose proof (router_field_is spec listing "rule" _ (or_introl eq_refl)) as Lrule. pose proof (router_field_is spec listing "entrypoints" _ (or_intror (or_introl eq_refl))) as Lentry.
  fold labels in Lrule, Lentry.
  assert (forall e, routers c !! app_router (sp_Name spec) = Some e -> ar_rule e = app_rule (sp_Name spec) /\ ar_entrypoints e = "internal-http" /\ ar_resolver e = "") as He.
  { intros e He. split; [|split].
    - eapply (collected_field _ labels c _ _ e ar_rule "rule"); eauto. by left.
    - eapply (collected_field _ labels c _ _ e ar_entrypoints "entrypoints"); eauto. right. by right.
    - destruct (String.eqb_spec (ar_resolver e) "") as [|Hne]; [done|]. exfalso.
      destruct (collect_from _ _ _ _ ar_resolver "tls.certresolver" _ _ (or_intror (or_introl (conj eq_refl eq_refl))) F He Hne) as [Hin|(x & Hx & _)]; [|discriminate Hx].
      apply list_elem_of_In, elem_of_map_to_list in Hin. apply app_label_In in Hin; [|done]. app_pair_cases Hin. }
  apply all_ok_iff, Forall_app. split; [|apply Forall_map, Forall_forall; intros [r e] Hin%elem_of_map_to_list].
  - rewrite !Forall_cons, !refuse_if_iff. split; [|split; [|done]].
    + unfold label, labels. rewrite (app_label_is spec listing "traefik.enable" "true"), (app_label_is spec listing "traefik.swarm.network" (RouteNetworkName (app_service (sp_Name spec))));
        [by rewrite String.eqb_refl|unfold app_pairs; cbn [In]; tauto|done|intros w Hw; app_pair_cases Hw|unfold app_pairs; cbn [In]; tauto|done|intros w Hw; app_pair_cases Hw].
    + destruct (map_to_list (routers c)) eqn:M; [|done]. apply map_to_list_empty_iff in M.
      destruct (collect_reads _ _ _ _ _ _ F (NoDup_fst_map_to_list _) (Hlist _ _ Lrule eq_refl) eq_refl) as [Hk|[(r & Hk & _)|(r & f & _ & _ & _ & [x Hx] & _)]];
        [by destruct Hk as [E|[E|[]]]|done|]. by rewrite M in Hx.
  - assert (r = app_router (sp_Name spec)) as -> by (eapply app_routers; [exact F|by exists e]).
    destruct (He e Hin) as (H1 & H2 & H3). apply app_router_approved; [apply Hr|done..].
Qed.

End Labels.
