(* ===== verification/ApplicationTheorems.v ===== *)
(** * Applications: what is rendered is admitted

    The document that [RenderApplication] generates for a valid spec passes the
    compose policy and the stack admission. *)

From Stdlib Require Import ZArith Lia Bool Ascii String.
From stdpp Require Import base tactics list strings gmap.
From S2P Require Import Prelude GoStrings GoText GoNumbers GoYaml ComposePolicy RoutingTypes RoutingDomain RoutingLabels Admission AdmissionRoutes Application ApplicationFacts ApplicationLabels.

Local Open Scope string_scope.
Local Open Scope list_scope.
Local Open Scope bool_scope.
Local Open Scope Z_scope.

Section Rendered.
Context `{CaseTable} `{ComposeLib}.

(** ** Secrets *)

Lemma plain_blank s : plain s = true -> s <> "" -> blank s = false.
Proof. intros Hp Hne. unfold blank. rewrite plain_trim by done. by apply String.eqb_neq. Qed.

Lemma mounted_path logical : plain logical = true -> logical <> "" -> len logical <= 128 -> secretFilePath (secret_path logical) = true.
Proof.
  intros Hp Hne Hl. unfold secretFilePath. assert (HasPrefix (secret_path logical) "/run/secrets/" = true) as Hpre by apply prefix_append.
  assert (TrimPrefix (secret_path logical) "/run/secrets/" = logical) as -> by (unfold TrimPrefix; rewrite Hpre; exact (of_bytes_bytes logical)).
  rewrite Hpre. cbn [andb].
  assert (forall x, plain_char x = true -> alnum x || any_of "._-" x = true) as Hx.
  { intros x. unfold plain_char, key_char, alnum, any_of. simpl. destruct (lower_case x), (digit x); simpl; rewrite ?orb_true_r; try done.
    destruct (Ascii.eqb x "-"), (Ascii.eqb x "_"), (Ascii.eqb x "."); try done; by rewrite ?orb_true_r. }
  destruct (bytes logical) as [|c l] eqn:E; [destruct Hne; by rewrite <- (of_bytes_bytes logical), E|]. unfold plain in Hp. rewrite E in Hp.
  cbn [forallb] in Hp. apply andb_prop in Hp as [Hc Hp]. unfold len in Hl. rewrite <- length_bytes, E in Hl. cbn [length] in Hl.
  eapply pattern_intro; [exact E|by apply Hx|eapply forallb_weaken; [exact Hx|exact Hp]|lia].
Qed.

(** The name under which a secret is created for the stack. *)
Definition own_secret (stack name : string) : Prop := TrimSpace name = name /\ dockerReferenceName name = true /\ own_name stack name = true.

Lemma stack_secret name suffix : applicationNamePattern name = true -> plain suffix = true -> len suffix <= 64 -> own_secret (app_stack name) (app_stack name ++ "_" ++ suffix).
Proof.
  intros (Hp & _ & Hl)%name_plain Hs Hsl. assert (plain (app_stack name ++ "_" ++ suffix) = true) as Hall by (unfold app_stack; by rewrite !plain_app, Hp, Hs).
  split; [by apply plain_trim|]. split.
  - apply (plain_docker _ "p"%char (bytes ("roduction-" ++ name ++ "_" ++ suffix))); [done|unfold app_stack; by rewrite string_app_assoc|done|].
    unfold len in *. rewrite <- length_bytes in *. unfold app_stack. rewrite !bytes_app, !length_app. simpl. lia.
  - unfold own_name. rewrite <- string_app_assoc. apply orb_true_iff. right. apply prefix_append.
Qed.

Lemma key_plain key : environmentKeyPattern key = true -> plain (ToLower key) = true /\ len (ToLower key) = len key.
Proof.
  intros (c & l & E & Hc & Hl & _)%pattern_ok. assert (forallb (fun c => alnum c || any_of "_" c) (bytes key) = true) as Hk.
  { rewrite E. cbn [forallb]. apply andb_true_iff. split; [|done]. unfold alnum. destruct (lower_case c), (upper_case c), (any_of "_" c); try done; by rewrite ?orb_true_r. }
  assert (forall x, alnum x || any_of "_" x = true -> is_ascii x = true /\ plain_char (lower_ascii x) = true) as Hx.
  { intros x Hx. unfold alnum, lower_case, upper_case, digit, between, any_of in Hx. simpl in Hx. rewrite orb_false_r in Hx.
    destruct (Ascii.eqb_spec x "_") as [E0|N0]; [rewrite E0; by vm_compute|]. rewrite orb_false_r in Hx. unfold is_ascii, lower_ascii, plain_char, key_char, lower_case, digit, between.
    destruct ((65 <=? code x) && (code x <=? 90)) eqn:U; [|split; [lia|]; apply orb_true_iff; left; lia].
    assert (code (chr (code x + 32)) = code x + 32) as Ec. { apply code_chr. lia. }
    rewrite Ec. split; [lia|]. apply orb_true_iff. left. lia. }
  rewrite forallb_forall in Hk. unfold ToLower, map_case.
  assert (forallb is_ascii (bytes key) = true) as -> by (apply forallb_forall; intros x Hin; by apply Hx, Hk). split.
  - rewrite plain_of_bytes. apply forallb_forall. intros y (x & <- & Hin)%in_map_iff. by apply Hx, Hk.
  - unfold len. by rewrite <- !length_bytes, bytes_of_bytes, length_map.
Qed.

(** ** The environment and the secrets *)

(** What the loops keep: no variable looks like a credential unless it carries a
    mounted secret's path, and every secret belongs to the stack. *)
Record rendered_ok (stack : string) (r : Rendered) : Prop := mkRenderedOk {
  ro_env : forall k v, rd_env r !! k = Some v -> env_allowed k v = true;
  ro_secrets : forall l, In l (rd_secrets r) -> blank l = false;
  ro_top : forall l p, rd_top r !! l = Some p -> own_secret stack p }.

Lemma set_all_lookup keys v m k w : set_all keys v m !! k = Some w -> (In k keys /\ w = v) \/ m !! k = Some w.
Proof.
  unfold set_all. revert m. induction keys as [|x keys IH]; intros m Hk; [by right|]. cbn [foldl] in Hk. apply IH in Hk as [[Hin ->]|Hk]; [left; split; [by right|done]|].
  destruct (String.eqb_spec x k) as [->|Hne]; [|rewrite lookup_insert_ne in Hk by done; by right].
  rewrite lookup_insert_eq in Hk. injection Hk as ->. left. split; [by left|done].
Qed.

Lemma with_env_ok stack r keys v :
  rendered_ok stack r -> (forall k, In k keys -> env_allowed k v = true) -> rendered_ok stack (with_env (set_all keys v) r).
Proof.
  intros [He Hs Ht] Hk. split; [|exact Hs|exact Ht]. cbn [with_env rd_env]. intros k w Hw. apply set_all_lookup in Hw as [[Hin ->]|Hw]; auto.
Qed.

Lemma with_secret_ok stack r logical physical :
  rendered_ok stack r -> blank logical = false -> own_secret stack physical -> rendered_ok stack (with_secret logical physical r).
Proof.
  intros [He Hs Ht] Hl Hp. split; [exact He| |]; cbn [with_secret rd_secrets rd_top].
  - intros l Hin. apply in_app_or in Hin as [Hin|[<-|[]]]; auto.
  - intros l p Hlp. destruct (String.eqb_spec logical l) as [->|Hne]; [rewrite lookup_insert_eq in Hlp; by injection Hlp as <-|].
    rewrite lookup_insert_ne in Hlp by done. by eapply Ht.
Qed.

Lemma file_variable v logical : plain logical = true -> logical <> "" -> len logical <= 128 -> env_allowed (v ++ "_FILE") (secret_path logical) = true.
Proof. intros Hp Hne Hl. unfold env_allowed. destruct (HasSuffix_app v "_FILE") as [-> _]. by rewrite mounted_path. Qed.

Lemma loop_ok {A} (f : result string Rendered -> A -> result string Rendered) stack l :
  (forall e x, f (Err e) x = Err e) ->
  (forall r x r', In x l -> rendered_ok stack r -> f (Ok r) x = Ok r' -> rendered_ok stack r') ->
  forall acc r', (forall r, acc = Ok r -> rendered_ok stack r) -> foldl f acc l = Ok r' -> rendered_ok stack r'.
Proof.
  intros Herr. induction l as [|x l IH]; intros Hstep acc r' Hacc Hf; [by apply Hacc|]. cbn [foldl] in Hf.
  eapply IH; [intros; eapply Hstep; [by right|done..]| |exact Hf]. intros r Hr. destruct acc as [r0|e]; [|by rewrite Herr in Hr].
  eapply Hstep; [by left|by apply Hacc|exact Hr].
Qed.

Section Loops.
Variable input : ApplicationRenderInput.
Variable spec : ApplicationSpec.
Hypothesis name_ok : applicationNamePattern (sp_Name spec) = true.
Hypothesis databases_known : forall e, In e (sp_Databases spec) -> In e databaseCatalog.
Hypothesis versions_known : forall e, In (label (in_URISecretVersions input) e) [""; "v1"; "v2"].
Hypothesis secrets_named : forall k, In k (SecretEnvKeys spec) -> environmentKeyPattern k = true /\ len k <= 58.
Hypothesis dependencies_named : forall d k, In d (sp_DependsOn spec) -> In k (dependency_variables d) -> secretLikeKey k = false.
Hypothesis databases_named :
  sp_DatabaseDelivery spec = DeliveryEnv -> forall e k, In e (sp_Databases spec) -> In k (database_variables spec e) -> secretLikeKey k = false.

Let stack := app_stack (sp_Name spec).

Lemma named_ok k v : secretLikeKey k = false -> env_allowed k v = true.
Proof. unfold env_allowed. intros ->. by rewrite orb_true_r. Qed.

Lemma render_database_ok r e r' :
  In e (sp_Databases spec) -> rendered_ok stack r -> render_database input spec stack (Ok r) e = Ok r' -> rendered_ok stack r'.
Proof.
  intros Hin Hr. unfold render_database. destruct (known_engine e); [|done]. cbn [negb]. cbv zeta. destruct (blank _); [done|].
  destruct (String.eqb_spec (sp_DatabaseDelivery spec) DeliveryEnv) as [Hd|_]; intros Hf.
  - assert (r' = with_env (set_all (database_variables spec e) (label (in_DatabaseURIs input) e)) r) as -> by congruence.
    apply with_env_ok; [done|]. intros k Hk. apply named_ok. by eapply databases_named.
  - match type of Hf with Ok ?x = _ => assert (r' = x) as -> by congruence end. clear Hf.
    assert (plain (e ++ "_uri") = true /\ (e ++ "_uri")%string <> "" /\ len (e ++ "_uri") <= 128) as (Hp & Hne & Hl).
    { apply databases_known in Hin. destruct Hin as [<-|[<-|[<-|[]]]]; by vm_compute. }
    apply with_env_ok.
    + apply with_secret_ok; [done|by apply plain_blank|]. unfold database_secret. apply stack_secret; [done| |].
      * apply databases_known in Hin. destruct (versions_known e) as [<-|[<-|[<-|[]]]]; destruct Hin as [<-|[<-|[<-|[]]]]; by vm_compute.
      * apply databases_known in Hin. destruct (versions_known e) as [<-|[<-|[<-|[]]]]; destruct Hin as [<-|[<-|[<-|[]]]]; by vm_compute.
    + intros k (v & <- & _)%in_map_iff. by apply file_variable.
Qed.

Lemma render_secret_ok r k r' :
  In k (SecretEnvKeys spec) -> rendered_ok stack r -> render_secret spec stack (Ok r) k = Ok r' -> rendered_ok stack r'.
Proof.
  intros Hin Hr. unfold render_secret. cbv zeta. destruct (_ =? "")%string; [done|]. intros Hf.
  match type of Hf with Ok ?x = _ => assert (r' = x) as -> by congruence end. clear Hf. destruct (secrets_named k Hin) as [Hk Hlen].
  destruct (key_plain k Hk) as [Hp Hl]. assert (plain ("env_" ++ ToLower k) = true) as Hpl by (by rewrite plain_app, Hp).
  apply (with_env_ok _ _ [(k ++ "_FILE")%string]).
  - apply with_secret_ok; [done|by apply plain_blank|]. unfold secretEnvSecretName. set (h := Sum256_hex _).
    apply (stack_secret _ ("s" ++ of_bytes (take 16 (bytes h)))); [done| |].
    + rewrite plain_app, plain_of_bytes. cbn [andb]. change (plain "s") with true. apply forallb_take.
      pose proof (Sum256_hex_form (k ++ of_bytes [chr 0] ++ label (sp_SecretEnv spec) k)) as Hx. fold h in Hx. unfold exactly in Hx. apply andb_prop in Hx as [Hx _].
      eapply forallb_weaken; [|exact Hx]. intros x Hc. unfold is_hex in Hc. unfold plain_char, key_char, digit, lower_case, between in *. lia.
    + unfold len. rewrite <- length_bytes, bytes_app, length_app, bytes_of_bytes, length_take, !length_bytes. cbn [String.length]. lia.
  - intros k' [<-|[]]. apply file_variable; [done|done|]. unfold len in *. rewrite <- length_bytes, bytes_app, length_app, !length_bytes. cbn [String.length]. lia.
Qed.

Lemma render_dependency_ok r d r' :
  In d (sp_DependsOn spec) -> rendered_ok stack r -> render_dependency input (Ok r) d = Ok r' -> rendered_ok stack r'.
Proof.
  intros Hin Hr. unfold render_dependency. cbv zeta. destruct (_ =? "")%string; [done|]. intros Hf.
  match type of Hf with Ok ?x = _ => assert (r' = x) as -> by congruence end. apply with_env_ok; [done|]. intros k Hk. apply named_ok. by eapply dependencies_named.
Qed.

Lemma render_parts_ok r' :
  (forall k v, sp_Env spec !! k = Some v -> secretLikeKey k = false) -> render_parts input spec stack = Ok r' -> rendered_ok stack r'.
Proof.
  intros Henv. unfold render_parts. destruct (foldl _ _ _) as [r|] eqn:F; [|done]. intros Hf.
  match type of Hf with Ok ?x = _ => assert (r' = x) as -> by congruence end. clear Hf. assert (rendered_ok stack r) as [He Hs Ht].
  { eapply (loop_ok (render_dependency input)); [done|intros; by eapply render_dependency_ok| |exact F]. intros r1 F1.
    eapply (loop_ok (render_secret spec stack)); [done|intros; by eapply render_secret_ok| |exact F1]. intros r2 F2.
    eapply (loop_ok (render_database input spec stack)); [done|intros; by eapply render_database_ok| |exact F2]. intros r3 F3.
    assert (r3 = mkRendered (initial_env spec) [] ∅) as -> by congruence. split; cbn [rd_env rd_secrets rd_top]; [|done|by intros l p Hlp].
    intros k v Hk. unfold initial_env in Hk. apply lookup_union_Some_raw in Hk as [Hk|[_ Hk]]; [by eapply named_ok, Henv|].
    destruct (sp_Port spec =? 0); [by rewrite lookup_empty in Hk|]. apply lookup_singleton_Some in Hk as [<- _]. by apply named_ok. }
  split; cbn [with_env rd_env]; [|exact Hs|exact Ht].
  assert (forall (m : gmap string string) x y, secretLikeKey x = false -> (forall k v, m !! k = Some v -> env_allowed k v = true) ->
    forall k v, <[x := y]> m !! k = Some v -> env_allowed k v = true) as Hins.
  { intros m x y Hx Hm k v Hk. destruct (String.eqb_spec x k) as [<-|]; [by apply named_ok|]. rewrite lookup_insert_ne in Hk by done. by apply Hm. }
  assert (forall k v, backend_env input spec (rd_env r) !! k = Some v -> env_allowed k v = true) as Hb.
  { unfold backend_env. destruct (sp_Backend spec =? "")%string; [done|]. cbv zeta. destruct (in_BackendDomain input =? "")%string; repeat (apply Hins; [done|]); done. }
  unfold tracing_env. destruct (sp_Tracing spec); [|exact Hb]. repeat (apply Hins; [done|]). exact Hb.
Qed.
End Loops.

(** ** The document *)

Lemma env_values_text m k v :
  foldl (fun acc kv => <[fst kv := Sprint (snd kv)]> acc) (∅ : gmap string string) (map (fun kv => (fst kv, Str (snd kv))) (map_to_list m)) !! k = Some v -> m !! k = Some v.
Proof.
  assert (forall l (acc : gmap string string), foldl (fun acc kv => <[fst kv := Sprint (snd kv)]> acc) acc (map (fun kv => (fst kv, Str (snd kv))) l) !! k = Some v ->
    In (k, v) l \/ acc !! k = Some v) as Hgen.
  { intros l. induction l as [|[x y] l IH]; intros acc Hk; [by right|]. cbn [map foldl fst snd Sprint] in Hk. apply IH in Hk as [|Hk]; [left; by right|].
    destruct (String.eqb_spec x k) as [->|]; [rewrite lookup_insert_eq in Hk; injection Hk as ->; left; by left|]. rewrite lookup_insert_ne in Hk by done. by right. }
  intros Hk. apply Hgen in Hk as [Hk|Hk]; [by apply list_elem_of_In, elem_of_map_to_list in Hk|discriminate Hk].
Qed.

Lemma environment_ok m : (forall k v, m !! k = Some v -> env_allowed k v = true) -> validateEnvironment (text_map m) = Ok tt.
Proof.
  intros Hm. unfold validateEnvironment, text_map, env_values. apply each_iff. intros [k v] Hin. apply refuse_if_iff, negb_false_iff.
  apply list_elem_of_In, elem_of_map_to_list, env_values_text in Hin. by apply Hm.
Qed.

Lemma image_not_blank image : validateImage image = Ok tt -> blank image = false.
Proof. unfold validateImage, blank. destruct (String.eqb_spec (TrimSpace image) "") as [->|]; [|done]. intros Hv. vm_compute in Hv. discriminate Hv. Qed.

(** What a valid spec provides to its document. *)
Record sound_spec (spec : ApplicationSpec) : Prop := mkSound {
  so_name : applicationNamePattern (sp_Name spec) = true;
  so_image : validateImage (sp_Image spec) = Ok tt;
  so_kind : sp_Kind spec <> KindJob -> sp_Kind spec <> KindWorker -> routable spec;
  so_size : exists n, sp_CPUs spec = Fin false n /\ representable n;
  so_memory : 64 <= sp_MemoryMiB spec <= 262144;
  so_replicas : 1 <= sp_Replicas spec <= 1000 }.

Lemma deploy_resources spec stack route : at_key (applicationDeploy spec stack route) "resources" = resources_of spec.
Proof. unfold applicationDeploy. destruct (sp_Kind spec =? KindJob)%string; [done|]. by destruct (sp_Kind spec =? KindWorker)%string. Qed.

Lemma service_ok spec r :
  sound_spec spec -> rendered_ok (app_stack (sp_Name spec)) r ->
  validateService ("app", Mapping (service_document spec (app_stack (sp_Name spec)) None r)) = Ok tt.
Proof.
  intros [Hn Hi _ (n & Hc & Hrep) Hm _] [He Hs _]. set (service := service_document _ _ _ _). unfold validateService.
  change (negb (composeNamePattern (fst ("app", Mapping service)))) with false. cbn [snd asMap]. cbn iota.
  change (at_key service "image") with (Str (sp_Image spec)). cbn [as_string].
  assert (forall k, In k ["build"; "runtime"] -> has_key service k = false) as Habsent.
  { intros k Hk. unfold service, service_document. destruct (applicationHealthcheck spec), (rd_secrets r); destruct Hk as [<-|[<-|[]]]; reflexivity. }
  assert (forall k, In k ["ports"; "devices"; "cap_add"; "device_cgroup_rules"; "security_opt"] -> hasNonEmpty service k = false) as Hempty.
  { intros k Hk. unfold service, service_document. destruct (applicationHealthcheck spec), (rd_secrets r); repeat (destruct Hk as [<-|Hk]; [reflexivity|]); done. }
  assert (forall k, In k ["privileged"; "pid"; "network_mode"; "ipc"; "volumes"; "configs"] -> at_key service k = Null) as Hnull.
  { intros k Hk. unfold service, service_document. destruct (applicationHealthcheck spec), (rd_secrets r); repeat (destruct Hk as [<-|Hk]; [reflexivity|]); done. }
  apply all_ok_iff. rewrite !Forall_cons, !refuse_if_iff. split; [by apply image_not_blank|]. split; [done|]. split; [apply Habsent; cbn; tauto|].
  split; [unfold host_namespaces; rewrite !Hnull by (cbn; tauto); by vm_compute|].
  split; [unfold restricted_fields; cbn [existsb]; rewrite !Hempty by (cbn; tauto); done|]. split; [apply Habsent; cbn; tauto|]. split; [apply Hempty; cbn; tauto|].
  rewrite !(Hnull "volumes"), !(Hnull "configs") by (cbn; tauto). split; [done|]. split; [exact (environment_ok _ He)|]. split.
  - assert (at_key service "secrets" = Null \/ at_key service "secrets" = Seq (map secret_mount (rd_secrets r))) as [->| ->]; [|done|].
    { unfold service, service_document. destruct (applicationHealthcheck spec), (rd_secrets r); [by left|by right|by left|by right]. }
    apply each_iff. intros v (l & <- & Hl)%in_map_iff. apply refuse_if_iff.
    change (blank l || negb (is_null Null) = false). by rewrite (Hs l Hl).
  - split; [done|]. split; [|done]. change (at_key service "deploy") with (Mapping (applicationDeploy spec (app_stack (sp_Name spec)) None)).
    by destruct (reservations_ok spec _ n (deploy_resources spec (app_stack (sp_Name spec)) None) Hc Hrep Hm) as [_ ?].
Qed.

Lemma document_checked spec r :
  sound_spec spec -> rendered_ok (app_stack (sp_Name spec)) r -> check_document (application_document spec ApplicationNamespace None r) = Ok tt.
Proof.
  intros Hspec Hr. unfold check_document. set (doc := application_document _ _ _ _).
  change (services_of doc) with (Some [("app", Mapping (service_document spec (app_stack (sp_Name spec)) None r))]). cbn iota.
  assert (forall k, In k ["configs"; "volumes"] -> find_entry k doc = None) as Hnone.
  { intros k Hk. unfold doc, application_document. destruct (map_to_list (rd_top r)); destruct Hk as [<-|[<-|[]]]; reflexivity. }
  apply all_ok_iff. cbn [map app]. rewrite !Forall_cons. split; [done|]. split; [|split; [|split; [|split; [done|split; [by apply service_ok|done]]]]].
  - assert (find_entry "secrets" doc = None \/ exists l, find_entry "secrets" doc = Some (Mapping (map (fun kv => (fst kv, external_named (snd kv))) l))) as [E|[l E]].
    { unfold doc, application_document. destruct (map_to_list (rd_top r)) as [|p l]; [by left|right; by exists (p :: l)]. }
    + unfold validateTopLevelExternalResources, top_level. by rewrite E.
    + unfold validateTopLevelExternalResources, top_level. rewrite E. apply each_iff. by intros v (kv & <- & _)%in_map_iff.
  - unfold validateTopLevelExternalResources, top_level. rewrite Hnone by (cbn; tauto). done.
  - unfold validateTopLevelVolumes, top_level. rewrite Hnone by (cbn; tauto). done.
Qed.

(** ** Its admission *)

Lemma secret_scoped stack l p : own_secret stack p -> validateScopedExternal stack (l, external_named p) = Ok tt.
Proof.
  intros (Ht & Hd & Ho). change (all_ok [ refuse_if (negb (dockerReferenceName (TrimSpace p))) "external resource must declare an explicit safe name";
    refuse_if (negb (own_name stack (TrimSpace p))) "external resource name must start with the stack name" ] = Ok tt). by rewrite Ht, Hd, Ho.
Qed.

Lemma network_scoped stack service : validateExternalNetwork stack [("app", service)] ("traefik-route", external_named (route_network stack "app")) = Ok tt.
Proof.
  unfold validateExternalNetwork. destruct (network_name (stack ++ "_" ++ "app")) as [Hp _]. cbn [snd asMap external_named].
  change (negb (boolValue (at_key [("external", Bool true); ("name", Str (route_network stack "app"))] "external"))) with false. cbn iota zeta.
  change (match at_key [("external", Bool true); ("name", Str (route_network stack "app"))] "name" with Str s => s | _ => "" end) with (route_network stack "app").
  unfold route_network at 1. rewrite plain_trim by done. apply refuse_if_iff. cbn [map fst]. unfold route_network.
  assert (oneOfString (RouteNetworkName (stack ++ "_" ++ "app")) [RouteNetworkName (stack ++ "_" ++ "app")] = true) as -> by (apply oneOfString_In; by left). done.
Qed.

Lemma replicas_ok n : 1 <= n <= 1000 -> composeReplicaCount (number n) = Ok n.
Proof.
  intros Hn. unfold composeReplicaCount, number. cbn [Sprint]. destruct (decimal_digits n) as (Hne & Hd & _); [lia|].
  destruct (digits_trim (decimal n) Hne) as [-> _]; [eapply forallb_weaken; [|exact Hd]; by intros x ->|].
  rewrite Atoi_decimal by lia. by replace (n <? 1) with false by lia.
Qed.

Lemma capacity_ok spec r :
  sound_spec spec -> validateCapacity ("app", Mapping (service_document spec (app_stack (sp_Name spec)) None r)) = Ok tt.
Proof.
  intros [_ _ _ (n & Hc & Hrep) Hm Hreps]. unfold validateCapacity. cbn [snd asMap]. set (deploy := applicationDeploy spec (app_stack (sp_Name spec)) None).
  change (at_key (service_document spec (app_stack (sp_Name spec)) None r) "deploy") with (Mapping deploy). cbn [asMap].
  destruct (reservations_ok spec _ n (deploy_resources spec (app_stack (sp_Name spec)) None) Hc Hrep Hm) as [Hres _]. fold deploy in Hres.
  assert ((find_entry "mode" deploy = Some (Str "replicated-job") /\ at_key deploy "replicas" = number 1) \/
          (find_entry "mode" deploy = None /\ at_key deploy "replicas" = number (sp_Replicas spec))) as [[-> ->]|[-> ->]].
  { unfold deploy, applicationDeploy. destruct (sp_Kind spec =? KindJob)%string; [by left|right]. destruct (sp_Kind spec =? KindWorker)%string; [done|].
    destruct (sp_Protocol spec =? ProtocolTCP)%string; [done|]. cbv zeta. by destruct (map_size _ =? 0). }
  - rewrite Hres, (replicas_ok 1) by lia. by vm_compute.
  - rewrite Hres, replicas_ok by lia. done.
Qed.

Lemma unrouted_ok stack service deploy : at_key service "deploy" = Mapping deploy -> at_key deploy "labels" = Null -> validateServiceRoutes stack ("app", Mapping service) = Ok tt.
Proof. intros Hd Hl. unfold validateServiceRoutes. cbn [fst snd asMap]. rewrite Hd. unfold composeLabels. cbn [asMap]. rewrite Hl. done. Qed.

Lemma routes_ok spec r :
  sound_spec spec -> validateServiceRoutes (app_stack (sp_Name spec)) ("app", Mapping (service_document spec (app_stack (sp_Name spec)) None r)) = Ok tt.
Proof.
  intros [_ _ Hk _ _ _]. set (service := service_document _ _ _ _). set (deploy := applicationDeploy spec (app_stack (sp_Name spec)) None).
  assert (at_key service "deploy" = Mapping deploy) as Hd by reflexivity. unfold deploy, applicationDeploy in *.
  destruct (String.eqb_spec (sp_Kind spec) KindJob) as [|H1]; [by eapply unrouted_ok|]. destruct (String.eqb_spec (sp_Kind spec) KindWorker) as [|H2]; [by eapply unrouted_ok|].
  destruct (sp_Protocol spec =? ProtocolTCP)%string; [by eapply unrouted_ok|]. cbv zeta in Hd. destruct (map_size _ =? 0); [by eapply unrouted_ok|].
  by eapply app_routes_ok; [apply Hk|exact Hd|].
Qed.

Lemma document_admitted spec r :
  sound_spec spec -> rendered_ok (app_stack (sp_Name spec)) r -> admit_document (app_stack (sp_Name spec)) (application_document spec ApplicationNamespace None r) = Ok tt.
Proof.
  intros Hspec Hr. unfold admit_document. set (doc := application_document _ _ _ _). set (service := Mapping (service_document spec (app_stack (sp_Name spec)) None r)).
  assert (services_of doc = Some [("app", service)]) as Hs by reflexivity.
  assert (forall k, In k ["configs"; "volumes"] -> find_entry k doc = None) as Hnone.
  { intros k Hk. unfold doc, application_document. destruct (map_to_list (rd_top r)); destruct Hk as [<-|[<-|[]]]; reflexivity. }
  apply all_ok_iff. rewrite !Forall_cons. split; [|split; [|split; [|done]]].
  - unfold validateWorkloadExternalResources. apply all_ok_iff. cbn [map app]. rewrite !Forall_cons. unfold validateScopedExternalResources, top_level.
    rewrite !(Hnone "configs"), !(Hnone "volumes") by (cbn; tauto). split; [|split; [done|split; [done|split; [|done]]]].
    + assert (find_entry "secrets" doc = None \/ find_entry "secrets" doc = Some (Mapping (map (fun kv => (fst kv, external_named (snd kv))) (map_to_list (rd_top r))))) as [->| ->]; [|done|].
      { unfold doc, application_document. destruct (map_to_list (rd_top r)); [by left|by right]. }
      apply each_iff. intros v ([l p] & <- & Hin)%in_map_iff. apply list_elem_of_In, elem_of_map_to_list in Hin. apply secret_scoped. by eapply (ro_top _ _ Hr).
    + unfold validateExternalNetworks.
      change (find_entry "networks" doc) with (Some (Mapping [("traefik-route", external_named (route_network (app_stack (sp_Name spec)) "app"))])). rewrite Hs.
      apply each_iff. intros v [<-|[]]. apply network_scoped.
  - unfold validateWorkloadCapacity. rewrite Hs. apply each_iff. intros v [<-|[]]. by apply capacity_ok.
  - unfold validateWorkloadRoutes. rewrite Hs. apply each_iff. intros v [<-|[]]. by apply routes_ok.
Qed.

(** ** Specs *)

(** What the caller of [RenderApplication] passes besides a spec: the namespace
    of applications and no route of its own.  Sizes are numbers, engines and
    versions those of database.go, and the variables under which an address or a
    connection string is delivered in the clear do not look like credentials. *)
Record renderable (input : ApplicationRenderInput) : Prop := mkRenderable {
  rn_namespace : in_Namespace input = ApplicationNamespace;
  rn_route : in_Route input = None;
  rn_cpus : exists n, sp_CPUs (in_Spec input) = Fin false n /\ (n = 0 \/ representable n);
  rn_replicas : 0 <= sp_Replicas (in_Spec input);
  rn_databases : forall e, In e (sp_Databases (in_Spec input)) -> In e databaseCatalog;
  rn_versions : forall e, In (label (in_URISecretVersions input) e) [""; "v1"; "v2"];
  rn_dependencies : forall d k, In d (sp_DependsOn (Normalize (in_Spec input))) -> In k (dependency_variables d) -> secretLikeKey k = false;
  rn_environment : sp_DatabaseDelivery (Normalize (in_Spec input)) = DeliveryEnv ->
    forall e k, In e (sp_Databases (Normalize (in_Spec input))) -> In k (database_variables (Normalize (in_Spec input)) e) -> secretLikeKey k = false }.

Lemma plan_size p : In p (map snd resourcePlans) -> exists n, CPUCores p = Fin false n /\ representable n.
Proof. cbn [map snd resourcePlans In]. intros Hp. repeat (destruct Hp as [<-|Hp]; [eexists; split; [reflexivity|split; [lia|by vm_compute]]|]). done. Qed.

Lemma LookupResourcePlan_In name p : LookupResourcePlan name = Some p -> In p (map snd resourcePlans).
Proof.
  unfold LookupResourcePlan. cbv zeta. destruct (List.find _ _) as [[k q]|] eqn:F; [|done]. intros [= <-]. apply find_some in F as [F _].
  apply in_map_iff. by exists (k, q).
Qed.

Lemma distinct_In seen l x : In x (distinct seen l) -> In x l.
Proof.
  revert seen. induction l as [|y l IH]; intros seen; cbn [distinct]; [done|]. destruct (_ || _); [intros Hx; right; by eapply IH|].
  intros [->|Hx]; [by left|right; by eapply IH].
Qed.

Lemma Normalize_databases spec e :
  (forall x, In x (sp_Databases spec) -> In x databaseCatalog) -> In e (sp_Databases (Normalize spec)) -> In e databaseCatalog.
Proof.
  intros Hall Hin. apply sort_strings_In, distinct_In, in_map_iff in Hin as (x & <- & Hx). apply Hall in Hx.
  rewrite plain_lowered; [done|]. by destruct Hx as [<-|[<-|[<-|[]]]].
Qed.

Lemma Validate_sound input :
  renderable input -> Validate (Normalize (in_Spec input)) = Ok tt -> sound_spec (Normalize (in_Spec input)).
Proof.
  intros [_ _ (n & Hn & Hrep) Hreps _ _ _ _] V. set (spec := Normalize (in_Spec input)) in *. unfold Validate in V. cbv zeta in V. rewrite all_ok_iff, !Forall_cons, !refuse_if_iff in V.
  destruct V as (Vname & Vimage & Vkind & Vplan & Vdomain & _ & _ & Vhealth & _ & _ & Vreps & Vcpus & Vmem & _).
  apply negb_false_iff in Vname. apply orb_false_iff in Vmem as [Vm1 Vm2].
  assert (exists p, LookupResourcePlan (sp_Plan spec) = Some p) as [p Hp] by (destruct (LookupResourcePlan _) as [p|]; [by exists p|done]).
  split; [done|done| | |lia|].
  - intros Hj Hw. unfold validate_kind in Vkind. cbv zeta in Vkind. destruct (oneOfString (sp_Kind spec) [KindWeb; ""]).
    + destruct (sp_Port spec =? 0) eqn:P; [done|]. split; [done| | |by apply Z.eqb_neq].
      * intros Hne%String.eqb_neq. rewrite Hne in Vdomain. by apply negb_false_iff in Vdomain.
      * intros Hne%String.eqb_neq. rewrite Hne in Vhealth. by apply negb_false_iff in Vhealth.
    + destruct (oneOfString (sp_Kind spec) [KindWorker; KindJob]) eqn:K; [|done]. apply oneOfString_In in K. destruct K as [K|[K|[]]]; congruence.
  - assert (sp_CPUs spec = if float_is_zero (sp_CPUs (in_Spec input)) then CPUCores p else sp_CPUs (in_Spec input)) as ->.
    { unfold spec, Normalize. cbn [sp_CPUs]. cbv zeta. change (LookupResourcePlan (lowered (sp_Plan (in_Spec input)))) with (LookupResourcePlan (sp_Plan spec)). by rewrite Hp. }
    rewrite Hn. cbn [float_is_zero]. destruct (Z.eqb_spec n 0); [by apply plan_size, (LookupResourcePlan_In (sp_Plan spec))|]. exists n. split; [done|]. by destruct Hrep.
  - split; [|lia]. unfold spec, Normalize. cbn [sp_Replicas]. cbv zeta. set (k := if (_ =? KindJob)%string then _ else _). assert (0 <= k) by (unfold k; destruct (_ =? KindJob)%string; lia).
    destruct (Z.eqb_spec k 0); lia.
Qed.

(** C7. What the platform generates it also admits: for every spec that
    [RenderApplication] accepts, web service, worker or job, the generated compose
    document passes the compose policy and the admission checks of the
    application's own stack, so that a rendered application is never refused at
    deployment.  Assumed are the namespace of applications, no custom route, a CPU
    count that is a number, catalogued engines and secret versions, and plain
    names for the variables that carry addresses. *)
Theorem rendered_application_is_admitted input document :
  renderable input -> render_document input = Ok document ->
  check_document document = Ok tt /\ admit_document (StackName (Normalize (in_Spec input)) (in_Namespace input)) document = Ok tt.
Proof.
  intros Hin. unfold render_document. cbv zeta. set (spec := Normalize (in_Spec input)). destruct (Validate spec) as [[]|] eqn:V; [|done].
  destruct (negb _); [done|]. rewrite (rn_namespace _ Hin), (rn_route _ Hin). change (StackName spec ApplicationNamespace) with (app_stack (sp_Name spec)).
  pose proof (Validate_sound _ Hin V) as Hspec. fold spec in Hspec. destruct (render_parts _ _ _) as [r|] eqn:R; [|done]. intros [= <-].
  assert (rendered_ok (app_stack (sp_Name spec)) r) as Hr; [|split; [by apply document_checked|by apply document_admitted]].
  unfold Validate in V. cbv zeta in V. rewrite all_ok_iff, !Forall_cons in V.
  destruct V as (_ & _ & _ & _ & _ & _ & _ & _ & _ & _ & _ & _ & _ & _ & _ & _ & _ & _ & _ & Venv & _ & Vsecret & _).
  eapply render_parts_ok; [apply Hspec|intros e He; eapply Normalize_databases; [apply Hin|exact He]|apply Hin| |apply Hin|apply Hin| |exact R].
  - intros k Hk. unfold SecretEnvKeys in Hk. apply sort_strings_In, in_map_iff in Hk as ([k' v] & <- & Hkv). unfold validateSecretEnv in Vsecret.
    rewrite all_ok_iff, !Forall_cons, each_iff in Vsecret. destruct Vsecret as (_ & _ & Vs & _). specialize (Vs _ Hkv).
    rewrite all_ok_iff, !Forall_cons, !refuse_if_iff in Vs. destruct Vs as (Vs & _). apply orb_false_iff in Vs as [Vs1 Vs2]. apply negb_false_iff in Vs1. split; [done|lia].
  - intros k v Hkv. unfold validateApplicationEnv in Venv. rewrite all_ok_iff, !Forall_cons, each_iff in Venv. destruct Venv as (_ & Ve & _).
    specialize (Ve (k, v) (proj1 (list_elem_of_In _ _) (proj2 (elem_of_map_to_list _ _ _) Hkv))). rewrite all_ok_iff, !Forall_cons, !refuse_if_iff in Ve. by destruct Ve as (_ & Ve & _).
Qed.

End Rendered.
