(* ===== verification/AdmissionRuns.v ===== *)
(** * Stack admission: runs

    Documents and deployments on which the theorems apply, and what the checks
    let through. *)

From Stdlib Require Import ZArith Lia Bool Ascii String.
From stdpp Require Import base tactics list strings gmap.
From S2P Require Import Prelude GoStrings GoText GoNumbers GoYaml ComposePolicy RoutingTypes RoutingDomain RoutingLabels Admission StackDeploy AdmissionTheorems AdmissionRoutes.

Local Open Scope string_scope.
Local Open Scope list_scope.
Local Open Scope bool_scope.
Local Open Scope Z_scope.

#[local] Existing Instance plain_case.

(** ** Two documents *)

Definition size_value : value := Mapping [("cpus", Str "0.5"); ("memory", Str "512M")].

Definition stack_document (labels : list (string * value)) (secret : string) (extra : entries) : entries :=
  [ ("version", Str "3.9");
    ("services", Mapping [("app", Mapping ([ ("image", Str "registry.example.com/shop:1.4"); ("environment", Mapping [("PORT", Str "8080")]);
       ("deploy", Mapping [("replicas", Scalar "2"); ("resources", Mapping [("limits", size_value); ("reservations", size_value)]); ("labels", Mapping labels)]);
       ("secrets", Seq [Str "db"]) ] ++ extra))]);
    ("secrets", Mapping [("db", Mapping [("external", Bool true); ("name", Str secret)])]) ].

(** The service of the stack [name] with an internal and a public router. *)
Definition routed_labels (network name : string) : list (string * value) :=
  [ ("traefik.enable", Str "true"); ("traefik.swarm.network", Str network);
    (label_key service_prefix (name ++ "-app-http") "loadbalancer.server.port", Str "8080");
    (label_key router_prefix (name ++ "-app-http-internal") "rule", Str ("Host(" ++ quoted (name ++ "-app.swarmops.internal") ++ ")"));
    (label_key router_prefix (name ++ "-app-http-internal") "entrypoints", Str "internal-http");
    (label_key router_prefix (name ++ "-app-http-public") "rule", Str ("Host(" ++ quoted "shop.example.com" ++ ")"));
    (label_key router_prefix (name ++ "-app-http-public") "entrypoints", Str "websecure");
    (label_key router_prefix (name ++ "-app-http-public") "tls.certresolver", Str "le") ].

(** The digest is a constant. *)
Definition digest_text : string := "00112233445566778899aabbccddeeff00112233445566778899aabbccddeeff".

Definition shop_network : string := "swarmops-route-production-shop-app-00112233".

Definition shop_document : entries := stack_document (routed_labels shop_network "production-shop") "production-shop_db_v1" [].
Definition shop_placed : entries :=
  match pin_document "node1" shop_document with Ok d => d | Err _ => [] end.

(** A library that reads and writes these two documents. *)
#[local] Instance shop_library : ComposeLib := {|
  yaml_Unmarshal := fun raw => if (raw =? "shop")%string then Some shop_document else if (raw =? "placed")%string then Some shop_placed else None;
  yaml_Marshal := fun _ => Some "placed";
  Sum256_hex := fun _ => digest_text;
  Sum256_hex_form := fun _ => eq_refl |}.

(** The name of the network is the one the code derives. *)
Lemma shop_network_derived : route_network "production-shop" "app" = shop_network.
Proof. vm_compute. reflexivity. Qed.

Lemma shop_checked : check_document shop_document = Ok tt.
Proof. vm_compute. reflexivity. Qed.

Lemma shop_admitted : admit_document "production-shop" shop_document = Ok tt.
Proof. vm_compute. reflexivity. Qed.

Lemma placement_keeps_admission_witness : admit_document "production-shop" shop_placed = Ok tt.
Proof.
  apply (placement_keeps_admission "node1" "production-shop" shop_document shop_placed);
    [vm_compute; reflexivity|exact shop_checked|exact shop_admitted].
Defined.

(** ** A deployment *)

Definition shop_plane : ControlPlane := mkControl true (Some true) true "".
Definition empty_cluster : Cluster := mkCluster [] [] [] [].

Lemma deployed_document_was_checked_witness :
  let '(r, s') := DeployStack shop_plane "op" "r1" "production-shop" "shop" "node1" empty_cluster in
  is_ok r = true /\ List.length (runs s') = 2%nat /\
  ((audit s' = [] /\ runs s' = [] /\ is_ok r = false) \/
   (Mutations shop_plane = true /\ audit_writable shop_plane = Some true /\ exists detail,
      audit s' = [] ++ kept empty_cluster (mkEvent "stack.deploy" "op" detail (if is_ok r then "success" else "failure") "r1" ("stack/" ++ "production-shop")))).
Proof.
  destruct (DeployStack shop_plane "op" "r1" "production-shop" "shop" "node1" empty_cluster) as [r s'] eqn:E.
  split; [|split].
  - change r with (fst (r, s')). rewrite <- E. vm_compute. reflexivity.
  - change s' with (snd (r, s')). rewrite <- E. vm_compute. reflexivity.
  - exact (proj2 (proj2 (deployed_document_was_checked shop_plane "op" "r1" "production-shop" "shop" "node1" empty_cluster r s' E))).
Defined.

(** The check before the deployment only asks whether the database is ready; the
    record behind it can still fail, and then the deployment leaves none. *)
Lemma deployment_without_record :
  let '(r, s') := DeployStack shop_plane "op" "r1" "production-shop" "shop" "node1" (mkCluster [] [] [] [false]) in
  is_ok r = true /\ List.length (runs s') = 2%nat /\ audit s' = [].
Proof. vm_compute. done. Qed.

(** ** Routes and names *)

Definition app_of (d : entries) : value := match services_of d with Some [(_, v)] => v | _ => Null end.
Definition service_of_app (d : entries) : entries := match app_of d with Mapping m => m | _ => [] end.
Definition labels_of_app (d : entries) : gmap string string :=
  match composeLabels (at_key (service_of_app d) "deploy") with Ok l => l | Err _ => ∅ end.

Lemma labels_of_app_ok d :
  is_ok (composeLabels (at_key (service_of_app d) "deploy")) = true -> composeLabels (at_key (service_of_app d) "deploy") = Ok (labels_of_app d).
Proof. unfold labels_of_app. by destruct (composeLabels _). Qed.

Lemma admitted_routes_are_confined_witness :
  confined_label (labels_of_app shop_document) "production-shop" "app"
    (label_key router_prefix "production-shop-app-http-public" "entrypoints") "websecure".
Proof.
  apply (admitted_routes_are_confined "production-shop" shop_document [("app", app_of shop_document)] ("app", app_of shop_document)
           (service_of_app shop_document) (labels_of_app shop_document));
    [exact shop_admitted|vm_compute; reflexivity|left; reflexivity|vm_compute; reflexivity|apply labels_of_app_ok; vm_compute; reflexivity|
     vm_compute; reflexivity|vm_compute; reflexivity].
Defined.

Definition blog_document : entries := stack_document [] "production-blog_db_v1" [].

Lemma admitted_stacks_are_disjoint_witness : ~ takes blog_document "production-shop_db_v1".
Proof.
  apply (admitted_stacks_are_disjoint "production-shop" shop_document "production-blog" blog_document "production-shop_db_v1");
    [exact shop_admitted|vm_compute; reflexivity|discriminate|intros E; vm_compute in E; discriminate E|intros E; vm_compute in E; discriminate E|].
  left. exists "secrets". split; [by left|].
  exists [("db", Mapping [("external", Bool true); ("name", Str "production-shop_db_v1")])], ("db", Mapping [("external", Bool true); ("name", Str "production-shop_db_v1")]),
    [("external", Bool true); ("name", Str "production-shop_db_v1")], "production-shop_db_v1".
  split; [reflexivity|]. split; [by left|]. split; [reflexivity|]. split; [reflexivity|]. split; [reflexivity|vm_compute; reflexivity].
Defined.

(** ** What the checks let through *)

(** The stack of an application [a] may mount a secret that belongs to the stack
    of an application [a-b]: the prefix of the one is the prefix of the other. *)
Lemma nested_stack_mounts_secret :
  admit_document "production-shop" (stack_document [] "production-shop-admin_db_v1" []) = Ok tt /\
  admit_document "production-shop-admin" (stack_document [] "production-shop-admin_db_v1" []) = Ok tt.
Proof. split; vm_compute; reflexivity. Qed.

(** Label names are compared with their case: a router under [Traefik.] is not
    looked at. *)
Lemma other_case_label_not_checked :
  admit_document "production-shop" (stack_document [("Traefik.enable", Str "true"); ("Traefik.http.routers.api.rule", Str "PathPrefix(/)");
    ("Traefik.http.routers.api.entrypoints", Str "web")] "production-shop_db_v1" []) = Ok tt.
Proof. vm_compute. reflexivity. Qed.

(** A bind mount of /etc, as Docker reads the document, is no host path before
    the variable is expanded. *)
Lemma interpolated_bind_accepted :
  check_document (stack_document [] "production-shop_db_v1" [("volumes", Seq [Str "${SOURCE:-/etc}:/host"])]) = Ok tt /\
  check_document (stack_document [] "production-shop_db_v1" [("volumes", Seq [Str "/etc:/host"])]) = Err "service uses a host bind mount".
Proof. split; vm_compute; reflexivity. Qed.

(** The value of a router's [service] label is not checked: a router of one stack
    may send the requests for its host to the service of another stack. *)
Lemma router_refers_to_another_stack :
  admit_document "production-shop" (stack_document (routed_labels shop_network "production-shop" ++
    [(label_key router_prefix "production-shop-app-http-public" "service", Str "production-blog-app-http")]) "production-shop_db_v1" []) = Ok tt.
Proof. vm_compute. reflexivity. Qed.

(** A reservation of [nan] processors is positive. *)
Lemma nan_reservation_accepted :
  succeeds (composeReservations [("resources", Mapping [("reservations", Mapping [("cpus", Str "nan"); ("memory", Str "512M")])])]) = Ok tt.
Proof. vm_compute. reflexivity. Qed.

(** Two services of different stacks have one internal host name. *)
Lemma internal_names_collide : internal_host "production-a" "b-app" = internal_host "production-a-b" "app".
Proof. vm_compute. reflexivity. Qed.
