(* ===== verification/ApplicationRuns.v ===== *)
(** * Applications: runs

    A spec that is rendered and admitted, and specs that are not. *)

From Stdlib Require Import ZArith Lia Bool Ascii String.
From stdpp Require Import base tactics list strings gmap.
From S2P Require Import Prelude GoStrings GoText GoNumbers GoYaml ComposePolicy RoutingTypes RoutingDomain RoutingLabels Admission AdmissionRoutes Application ApplicationFacts ApplicationTheorems AdmissionRuns.

Local Open Scope string_scope.
Local Open Scope list_scope.
Local Open Scope bool_scope.
Local Open Scope Z_scope.

#[local] Existing Instance plain_case.
#[local] Existing Instance shop_library.

(** A web application with a database, a secret and a dependency. *)
Definition shop_spec (depends : list ApplicationDependency) : ApplicationSpec :=
  mkSpec "" (Fin false 0) ["postgres"] depends "" ∅ "" "Shop.example.com." {["LOG_LEVEL" := "info"]} [] "" "registry.example.com/shop:1.4" "" 0
    false "" 0 " Shop " "" 8080 "" 0 "" {["API_TOKEN" := "s3cret"]} true.

Definition shop_input (depends : list ApplicationDependency) : ApplicationRenderInput :=
  mkRender "" {["mail" := "mail.swarmops.internal:8081"; "token" := "token.swarmops.internal:8081"]} {["postgres" := "postgres://db"]} ∅ "production" None (shop_spec depends).

Definition mail : ApplicationDependency := mkDependency "mail" ["SMTP_HOST"].

(** What is rendered, or nothing. *)
Definition rendered (input : ApplicationRenderInput) : entries := match render_document input with Ok d => d | Err _ => [] end.

Lemma rendered_ok_eq input : is_ok (render_document input) = true -> render_document input = Ok (rendered input).
Proof. unfold rendered. by destruct (render_document input). Qed.

Lemma shop_renderable : renderable (shop_input [mail]).
Proof.
  split; [reflexivity|reflexivity|exists 0; split; [reflexivity|by left]|done| |left; reflexivity| |].
  - intros e [<-|[]]. by left.
  - assert (forallb (fun d => forallb (fun k => negb (secretLikeKey k)) (dependency_variables d)) (sp_DependsOn (Normalize (shop_spec [mail]))) = true) as Hall
      by (vm_compute; reflexivity).
    intros d k Hd Hk. rewrite forallb_forall in Hall. specialize (Hall d Hd). rewrite forallb_forall in Hall. by apply negb_true_iff, Hall.
  - intros E. vm_compute in E. discriminate E.
Qed.

Lemma rendered_application_is_admitted_witness :
  check_document (rendered (shop_input [mail])) = Ok tt /\ admit_document "production-shop" (rendered (shop_input [mail])) = Ok tt.
Proof.
  apply (rendered_application_is_admitted (shop_input [mail]) (rendered (shop_input [mail])));
    [exact shop_renderable|apply rendered_ok_eq; vm_compute; reflexivity].
Defined.

(** ** Specs that are valid, rendered, and then refused *)

(** A dependency whose name looks like a credential. *)
Lemma credential_like_dependency_refused :
  Validate (Normalize (shop_spec [mkDependency "token" []])) = Ok tt /\
  is_ok (render_document (shop_input [mkDependency "token" []])) = true /\
  check_document (rendered (shop_input [mkDependency "token" []])) = Err "service supplies secret-like environment variable".
Proof. split; [|split]; vm_compute; reflexivity. Qed.

(** ** Normal forms *)

(** The owner is compared with the name before the name is normalized. *)
Definition owned_spec : ApplicationSpec :=
  mkSpec "" (Fin false 0) ["postgres"] [] "" ∅ "shop" "" ∅ [] "" "shop:1.4" "" 0 false "" 0 "Shop" "" 8080 "" 0 "" ∅ false.

Lemma own_database_owner_kept :
  Validate (Normalize owned_spec) = Ok tt /\ sp_DatabaseOwner (Normalize owned_spec) = sp_Name (Normalize owned_spec) /\
  sp_DatabaseOwner (Normalize (Normalize owned_spec)) = "".
Proof. split; [|split]; vm_compute; reflexivity. Qed.
