(* ===== verification/GoBase64.v ===== *)
(** * [base64.RawURLEncoding]

    The unpadded URL alphabet.  [DecodeString] skips line breaks, refuses every
    other foreign character and a last group of one character, and ignores the
    bits that are left over. *)

From Stdlib Require Import ZArith Lia Bool Ascii String.
From stdpp Require Import base tactics list strings.
From S2P Require Import Prelude GoStrings GoText.

Local Open Scope string_scope.
Local Open Scope list_scope.
Local Open Scope bool_scope.
Local Open Scope Z_scope.

(** ** The alphabet *)

Definition letter_of (n : Z) : ascii :=
  if n <? 26 then chr (65 + n) else if n <? 52 then chr (71 + n) else if n <? 62 then chr (n - 4) else if n =? 62 then "-"%char else "_"%char.

Definition value_of_letter (c : ascii) : option Z :=
  if upper_case c then Some (code c - 65)
  else if lower_case c then Some (code c - 71)
  else if digit c then Some (code c + 4)
  else if Ascii.eqb c "-"%char then Some 62
  else if Ascii.eqb c "_"%char then Some 63
  else None.

(** ** Groups of six bits *)

Fixpoint sextets (l : list Z) : list Z :=
  match l with
  | a :: b :: c :: rest => [a / 4; (a mod 4) * 16 + b / 16; (b mod 16) * 4 + c / 64; c mod 64] ++ sextets rest
  | [a; b] => [a / 4; (a mod 4) * 16 + b / 16; (b mod 16) * 4]
  | [a] => [a / 4; (a mod 4) * 16]
  | [] => []
  end.

Fixpoint octets (l : list Z) : option (list Z) :=
  match l with
  | a :: b :: c :: d :: rest =>
      match octets rest with
      | Some l' => Some ([a * 4 + b / 16; (b mod 16) * 16 + c / 4; (c mod 4) * 64 + d] ++ l')
      | None => None
      end
  | [a; b; c] => Some [a * 4 + b / 16; (b mod 16) * 16 + c / 4]
  | [a; b] => Some [a * 4 + b / 16]
  | [_] => None
  | [] => Some []
  end.

Definition line_break (c : ascii) : bool := (code c =? 10) || (code c =? 13).

Definition EncodeToString (l : list ascii) : string := of_bytes (map letter_of (sextets (map code l))).

Definition DecodeString (s : string) : option (list ascii) :=
  match mapM value_of_letter (List.filter (fun c => negb (line_break c)) (bytes s)) with
  | Some values => match octets values with Some l => Some (map chr l) | None => None end
  | None => None
  end.

(** ** Round trip *)

Lemma list_ind3 {A} (P : list A -> Prop) :
  P [] -> (forall a, P [a]) -> (forall a b, P [a; b]) -> (forall a b c l, P l -> P (a :: b :: c :: l)) -> forall l, P l.
Proof.
  intros H0 H1 H2 H3. cut (forall n l, (length l <= n)%nat -> P l); [eauto|].
  intros n. induction n as [|n IH]; intros [|a [|b [|c l]]] Hl; auto; simpl in Hl; [lia..|]. apply H3, IH. lia.
Qed.

Definition is_byte (n : Z) : Prop := 0 <= n < 256.
Definition is_sextet (n : Z) : Prop := 0 <= n < 64.

Lemma sextets_range l : Forall is_byte l -> Forall is_sextet (sextets l).
Proof.
  induction l as [|a|a b|a b c l IH] using list_ind3; intros Hl; repeat rewrite Forall_cons in Hl; cbn [sextets app];
    repeat (constructor; [unfold is_byte, is_sextet in *; Z.div_mod_to_equations; lia|]); [constructor..|]. apply IH. tauto.
Qed.

Lemma octets_sextets l : Forall is_byte l -> octets (sextets l) = Some l.
Proof.
  induction l as [|a|a b|a b c l IH] using list_ind3; intros Hl; repeat rewrite Forall_cons in Hl; unfold is_byte in Hl; cbn [sextets app octets]; [done| | |].
  - do 2 f_equal. Z.div_mod_to_equations; lia.
  - do 2 f_equal; [|f_equal]; Z.div_mod_to_equations; lia.
  - rewrite IH by tauto. cbn [app]. f_equal. f_equal; [|f_equal; [|f_equal]]; Z.div_mod_to_equations; lia.
Qed.

Lemma letter_value n : is_sextet n -> value_of_letter (letter_of n) = Some n /\ line_break (letter_of n) = false /\ letter_of n <> "."%char.
Proof.
  intros Hn. assert (forallb (fun k => bool_decide (value_of_letter (letter_of k) = Some k) && negb (line_break (letter_of k)) && negb (Ascii.eqb (letter_of k) "."%char))
    (map Z.of_nat (seq 0 64)) = true) as Hall by (vm_compute; reflexivity).
  rewrite forallb_forall in Hall. specialize (Hall n). rewrite in_map_iff in Hall.
  assert (exists k, Z.of_nat k = n /\ In k (seq 0 64)) as Hin by (exists (Z.to_nat n); unfold is_sextet in Hn; split; [lia|apply in_seq; lia]).
  specialize (Hall Hin). apply andb_prop in Hall as [Hall H3]. apply andb_prop in Hall as [H1 H2]. apply bool_decide_eq_true in H1. apply negb_true_iff in H2, H3.
  split; [done|]. split; [done|]. by apply Ascii.eqb_neq.
Qed.

Lemma code_is_byte c : is_byte (code c).
Proof. unfold is_byte, code. pose proof (Ascii.N_ascii_bounded c). lia. Qed.

Lemma bytes_are_bytes l : Forall is_byte (map code l).
Proof. apply Forall_map, Forall_forall. intros c _. apply code_is_byte. Qed.

Theorem Decode_Encode l : DecodeString (EncodeToString l) = Some l.
Proof.
  unfold DecodeString, EncodeToString. rewrite bytes_of_bytes. pose proof (sextets_range _ (bytes_are_bytes l)) as Hr.
  assert (List.filter (fun c => negb (line_break c)) (map letter_of (sextets (map code l))) = map letter_of (sextets (map code l))) as ->.
  { clear -Hr. induction Hr as [|n ns Hn _ IH]; [done|]. cbn [map List.filter]. destruct (letter_value n Hn) as (_ & -> & _). cbn [negb]. by rewrite IH. }
  assert (mapM value_of_letter (map letter_of (sextets (map code l))) = Some (sextets (map code l))) as ->.
  { clear -Hr. induction Hr as [|n ns Hn _ IH]; [done|]. cbn [map mapM]. destruct (letter_value n Hn) as (-> & _). cbn. by rewrite IH. }
  rewrite (octets_sextets _ (bytes_are_bytes l)), map_map. f_equal. rewrite <- (map_id l) at 2. apply map_ext. apply chr_code.
Qed.

(** The text has no dot, and is empty only for nothing. *)
Lemma Encode_no_dot l : ~ In "."%char (bytes (EncodeToString l)).
Proof.
  unfold EncodeToString. rewrite bytes_of_bytes. intros (n & Hn & Hin)%in_map_iff. pose proof (sextets_range _ (bytes_are_bytes l)) as Hr.
  rewrite Forall_forall in Hr. destruct (letter_value n) as (_ & _ & Hd); [by apply Hr, list_elem_of_In|]. done.
Qed.

Lemma Encode_empty l : EncodeToString l = "" -> l = [].
Proof. intros E. pose proof (Decode_Encode l) as D. rewrite E in D. cbn in D. by injection D as <-. Qed.
