(* ===== verification/Logstore.v ===== *)
(** * internal/logstore: retained log records

    [Query] with its cursors, [Cleanup] by age and capacity, and [Status].  The
    volume is a set of record files (one JSON record per line), a state file and
    the sizes of the forwarders' buffers.  [encoding/json] on records, cursors and
    states is the class [LogLib]; whether a file can be opened or removed is part
    of the volume.  Times are instants in nanoseconds.  Cancellation and files
    that vanish between two calls are left out. *)

From Stdlib Require Import ZArith Lia Bool Ascii String.
From stdpp Require Import base tactics list strings gmap sorting.
From S2P Require Import Prelude GoStrings GoText GoFiles GoBase64 GoYaml RoutingRows.

Local Open Scope string_scope.
Local Open Scope list_scope.
Local Open Scope bool_scope.
Local Open Scope Z_scope.

Definition DefaultRetention : Z := 7 * 24 * 3600 * second.
Definition DefaultCapacity : Z := 20 * 2 ^ 30.
Definition MaxResponseBytes : Z := 2 * 2 ^ 20.
Definition maxLineBytes : Z := 64 * 2 ^ 10.
Definition DefaultLogLimit : Z := 200.
Definition MaxLogLimit : Z := 1000.
Definition MaxLogRange : Z := 7 * 24 * 3600 * second.
Definition MaxLogSearch : Z := 256.

(** ** Data *)

Record LogRecord := mkLog {
  lr_ID : string; lr_Timestamp : Z; lr_Level : string; lr_SourceKind : string; lr_Node : string; lr_Stack : string; lr_Service : string;
  lr_ContainerID : string; lr_Stream : string; lr_Unit : string; lr_Identifier : string; lr_Message : string }.

Record LogQuery := mkQuery {
  lq_From : Z; lq_To : Z; lq_Level : string; lq_SourceKind : string; lq_Node : string; lq_Stack : string; lq_Service : string;
  lq_Container : string; lq_Unit : string; lq_Search : string; lq_Limit : Z; lq_Cursor : string }.

Record LogFacets := mkFacets {
  lf_Levels : list string; lf_SourceKinds : list string; lf_Nodes : list string; lf_Stacks : list string; lf_Services : list string; lf_Units : list string }.

Record LogPage := mkPage { pg_Records : list LogRecord; pg_NextCursor : string; pg_Truncated : bool; pg_Facets : LogFacets }.

(** Without [ExpectedNodes] and [DroppedRecords], which the store leaves at zero. *)
Record LogStatus := mkLogStatus {
  ls_Healthy : bool; ls_Forwarders : Z; ls_BufferBytes : Z; ls_RetainedBytes : Z; ls_Oldest : Z; ls_Newest : Z; ls_RetentionSeconds : Z;
  ls_CapacityBytes : Z; ls_CapacityEvictions : Z; ls_MalformedRecords : Z; ls_LastCleanupAt : Z; ls_Warnings : list string }.

Record cursor := mkCursor { cu_Timestamp : Z; cu_ID : string }.

Record persistedState := mkState { ps_CapacityEvictions : Z; ps_LastCleanupAt : Z }.

Definition cursor_at (r : LogRecord) : cursor := mkCursor (lr_Timestamp r) (lr_ID r).

(** The years that [time.Time] writes in JSON. *)
Definition json_time (t : Z) : Prop := -62167219200 * second <= t < 253402300800 * second.

(** [json.Unmarshal] and [json.Marshal].  The position of a record that was read
    is written and read back; so is a state; a JSON text is not empty. *)
Class LogLib := {
  record_of_json : Bytes -> option LogRecord;
  json_of_record : LogRecord -> Bytes;
  cursor_of_json : Bytes -> option cursor;
  json_of_cursor : cursor -> Bytes;
  state_of_json : Bytes -> option persistedState;
  json_of_state : persistedState -> Bytes;
  cursor_reads_back : forall line r, record_of_json line = Some r -> cursor_of_json (json_of_cursor (cursor_at r)) = Some (cursor_at r);
  cursor_json_nonempty : forall c, json_of_cursor c <> [];
  state_reads_back : forall st, json_time (ps_LastCleanupAt st) -> 0 <= ps_CapacityEvictions st < 2 ^ 64 -> state_of_json (json_of_state st) = Some st }.

(** ** The volume *)

Record LogFile := mkLogFile {
  fl_content : Bytes; fl_mtime : Z;
  fl_fault : option oserr;    (* what opening it returns *)
  fl_sticky : bool }.         (* removing it fails *)

Record Volume := mkVolume { vo_records : gmap string LogFile; vo_state : option Bytes; vo_buffers : list Z }.

Record Store := mkStore { s_retention : Z; s_capacity : Z; s_readOnly : bool; s_status : LogStatus; s_malformed : Z }.

Definition newStore (retention capacity : Z) (readOnly : bool) : Store :=
  mkStore retention capacity readOnly (mkLogStatus true 0 0 0 zero_time zero_time (retention / second) capacity 0 0 zero_time []) 0.

(** [New]; the directory is created when missing. *)
Definition New (root : string) (retention capacity : Z) : result string Store :=
  if negb (IsAbs (Clean root)) then Err "log root must be absolute"
  else Ok (newStore (if retention <=? 0 then DefaultRetention else retention) (if capacity <=? 0 then DefaultCapacity else capacity) false).

(** [OpenReader]; [records] says what [os.Stat] found: nothing, or whether it is a
    directory. *)
Definition OpenReader (root : string) (records : option bool) : result string Store :=
  if negb (IsAbs (Clean root)) then Err "log root must be absolute"
  else match records with
  | None => Err "open log store for reading"
  | Some false => Err "log store records path is not a directory"
  | Some true => Ok (newStore DefaultRetention DefaultCapacity true)
  end.

(** The files matching [log.*.jsonl], in the order of their names. *)
Definition rotated (name : string) : bool := HasPrefix name "log." && HasSuffix name ".jsonl" && (10 <=? len name).

Definition rotated_files (v : Volume) : list string := List.filter rotated (sort_strings (map fst (map_to_list (vo_records v)))).

Definition live_file : string := "current.jsonl".

Definition recordFiles (v : Volume) : list string :=
  rotated_files v ++ match vo_records v !! live_file with Some _ => [live_file] | None => [] end.

(** ** Lines *)

Definition newline_char : ascii := chr 10.

(** The lines of a file: the text behind the last line break, if any, is one. *)
Definition raw_lines (content : Bytes) : list Bytes :=
  let parts := split_bytes newline_char [] content in
  match rev parts with [] :: rest => rev rest | _ => parts end.

Definition dropCR (line : Bytes) : Bytes :=
  match rev line with c :: rest => if code c =? 13 then rev rest else line | [] => line end.

(** [bufio.Scanner] with a buffer of at most [maxLineBytes]: it stops at the first
    line that does not fit. *)
Fixpoint tokens (lines : list Bytes) : list Bytes :=
  match lines with
  | [] => []
  | l :: rest => if blen l <? maxLineBytes then dropCR l :: tokens rest else []
  end.

(** ** Queries *)

Definition logOneOf (value : string) (allowed : list string) : bool := oneOfString value allowed.

Definition filter_ok (value : string) : bool :=
  negb ((128 <? len value) || ContainsAny value (of_bytes [chr 0; chr 13; chr 10; "/"%char; chr 92])).

Definition LogQuery_Normalize (now : Z) (q : LogQuery) : result string LogQuery :=
  let to := if IsZero (lq_To q) then now else lq_To q in
  let from := if IsZero (lq_From q) then to - 3600 * second else lq_From q in
  let limit := if lq_Limit q =? 0 then DefaultLogLimit else lq_Limit q in
  let search := TrimSpace (lq_Search q) in
  let filters := [lq_Level q; lq_SourceKind q; lq_Node q; lq_Stack q; lq_Service q; lq_Container q; lq_Unit q] in
  match all_ok
    [ refuse_if (negb (from <? to)) "from must be before to";
      refuse_if (MaxLogRange <? to - from) "log range cannot exceed seven days";
      refuse_if ((limit <? 1) || (MaxLogLimit <? limit)) "limit must be between 1 and 1000";
      refuse_if (MaxLogSearch <? len search) "search cannot exceed 256 characters";
      refuse_if (ContainsAny search (of_bytes [chr 0; chr 13; chr 10])) "search must be one literal line";
      each (fun v => refuse_if (negb (filter_ok v)) "filter is invalid") filters;
      refuse_if (negb (lq_Level q =? "")%string && negb (logOneOf (lq_Level q) ["trace"; "debug"; "info"; "warn"; "error"; "fatal"])) "level filter is invalid";
      refuse_if (negb (lq_SourceKind q =? "")%string
                 && negb (logOneOf (lq_SourceKind q) ["container"; "host"; "docker"; "traefik"; "core"; "agent"; "fluentd"])) "sourceKind filter is invalid" ] with
  | Ok _ => Ok (mkQuery from to (lq_Level q) (lq_SourceKind q) (lq_Node q) (lq_Stack q) (lq_Service q) (lq_Container q) (lq_Unit q) search limit (lq_Cursor q))
  | Err e => Err e
  end.

(** A filter that is set must be met. *)
Definition meets (filter value : string) : bool := (filter =? "")%string || (value =? filter)%string.

(** The order of a page: newest first, then by identifier, largest first. *)
Definition newer (a b : LogRecord) : bool :=
  (lr_Timestamp b <? lr_Timestamp a) || ((lr_Timestamp a =? lr_Timestamp b) && String.leb (lr_ID b) (lr_ID a)).

(** [len(m) < 100] keeps the sets small. *)
Definition add_facet (v : string) (l : list string) : list string :=
  if negb (v =? "")%string && (List.length l <? 100)%nat && negb (oneOfString v l) then l ++ [v] else l.

Definition no_facets : LogFacets := mkFacets [] [] [] [] [] [].

Definition facetSets_add (f : LogFacets) (r : LogRecord) : LogFacets :=
  mkFacets (add_facet (lr_Level r) (lf_Levels f)) (add_facet (lr_SourceKind r) (lf_SourceKinds f)) (add_facet (lr_Node r) (lf_Nodes f))
    (add_facet (lr_Stack r) (lf_Stacks f)) (add_facet (lr_Service r) (lf_Services f)) (add_facet (lr_Unit r) (lf_Units f)).

Definition facetSets_result (f : LogFacets) : LogFacets :=
  mkFacets (sort_strings (lf_Levels f)) (sort_strings (lf_SourceKinds f)) (sort_strings (lf_Nodes f)) (sort_strings (lf_Stacks f))
    (sort_strings (lf_Services f)) (sort_strings (lf_Units f)).

Section Logs.
Context `{CaseTable} `{LogLib}.

Definition encodeCursor (c : cursor) : string := EncodeToString (json_of_cursor c).

Definition decodeCursor (raw : string) : result string (option cursor) :=
  if (raw =? "")%string then Ok None
  else match DecodeString raw with
  | None => Err "cursor is invalid"
  | Some b =>
      match cursor_of_json b with
      | Some c => if IsZero (cu_Timestamp c) || (cu_ID c =? "")%string then Err "cursor is invalid" else Ok (Some c)
      | None => Err "cursor is invalid"
      end
  end.

(** One line: a record, or a malformed one. *)
Definition scan_record (line : Bytes) : option LogRecord :=
  match record_of_json line with
  | Some r => if (lr_ID r =? "")%string || IsZero (lr_Timestamp r) || (32 * 1024 <? len (lr_Message r)) then None else Some r
  | None => None
  end.

(** The records of a file in order, and how many lines were malformed. *)
Definition scanFile (content : Bytes) : list LogRecord * Z :=
  let parsed := map scan_record (tokens (raw_lines content)) in
  (omap (fun r => r) parsed, Z.of_nat (List.length (List.filter (fun r => match r with None => true | Some _ => false end) parsed))).

Definition past_cursor (cur : option cursor) (r : LogRecord) : bool :=
  match cur with
  | None => true
  | Some c => negb ((cu_Timestamp c <? lr_Timestamp r) || ((lr_Timestamp r =? cu_Timestamp c) && String.leb (cu_ID c) (lr_ID r)))
  end.

(** What the query asks for, wherever the page starts. *)
Definition selects (q : LogQuery) (r : LogRecord) : bool :=
  negb (lr_Timestamp r <? lq_From q) && negb (lq_To q <? lr_Timestamp r)
  && meets (lq_Level q) (lr_Level r) && meets (lq_SourceKind q) (lr_SourceKind r) && meets (lq_Node q) (lr_Node r) && meets (lq_Stack q) (lr_Stack r)
  && meets (lq_Service q) (lr_Service r) && meets (lq_Container q) (lr_ContainerID r) && meets (lq_Unit q) (lr_Unit r)
  && ((lq_Search q =? "")%string || Contains (ToLower (lr_Message r)) (ToLower (lq_Search q))).

Definition matches (q : LogQuery) (cur : option cursor) (r : LogRecord) : bool := selects q r && past_cursor cur r.

(** The state of the loop over the files. *)
Record scanState := mkScan { sc_seen : list string; sc_records : list LogRecord; sc_facets : LogFacets; sc_malformed : Z }.

Definition visit (q : LogQuery) (cur : option cursor) (s : scanState) (r : LogRecord) : scanState :=
  if oneOfString (lr_ID r) (sc_seen s) then s
  else
    let seen := lr_ID r :: sc_seen s in
    if negb (matches q cur r) then mkScan seen (sc_records s) (sc_facets s) (sc_malformed s)
    else mkScan seen (sc_records s ++ [r]) (facetSets_add (sc_facets s) r) (sc_malformed s).

(** One file; the second component is an error other than a missing file. *)
Definition scan_one (v : Volume) (q : LogQuery) (cur : option cursor) (acc : scanState * option oserr) (name : string) : scanState * option oserr :=
  let '(s, failed) := acc in
  match failed, vo_records v !! name with
  | Some _, _ | None, None => acc
  | None, Some f =>
      match fl_fault f with
      | Some ErrNotExist => acc
      | Some e => (s, Some e)
      | None =>
          let '(records, malformed) := scanFile (fl_content f) in
          let s' := foldl (visit q cur) s records in
          (mkScan (sc_seen s') (sc_records s') (sc_facets s') (uint64_of (sc_malformed s' + malformed)), None)
      end
  end.

Definition newer_than (a b : LogRecord) : Prop := Is_true (newer a b).
#[global] Instance newer_than_dec : RelDecision newer_than.
Proof. intros a b. unfold newer_than. apply _. Defined.

(** The longest start of the page that fits in a response. *)
Fixpoint boundResponse (size : Z) (l : list LogRecord) : list LogRecord * bool :=
  match l with
  | [] => ([], false)
  | r :: rest =>
      let n := size + blen (json_of_record r) in
      if MaxResponseBytes <? n then ([], true)
      else let '(kept, cut) := boundResponse n rest in (r :: kept, cut)
  end.

Definition page_of (q : LogQuery) (s : scanState) : LogPage :=
  let sorted := merge_sort newer_than (sc_records s) in
  let over := lq_Limit q <? Z.of_nat (List.length sorted) in
  let limited := take (Z.to_nat (lq_Limit q)) sorted in
  let '(records, cut) := boundResponse 0 limited in
  let truncated := over || cut in
  let next := match last records with Some r => if truncated then encodeCursor (cursor_at r) else "" | None => "" end in
  mkPage records next truncated (facetSets_result (sc_facets s)).

Definition Query (now : Z) (v : Volume) (q0 : LogQuery) (st : Store) : result string LogPage * Store :=
  match LogQuery_Normalize now q0 with
  | Err e => (Err e, st)
  | Ok q =>
      match decodeCursor (lq_Cursor q) with
      | Err e => (Err e, st)
      | Ok cur =>
          let '(s, failed) := foldl (scan_one v q cur) (mkScan [] [] no_facets (s_malformed st), None) (recordFiles v) in
          let st' := mkStore (s_retention st) (s_capacity st) (s_readOnly st) (s_status st) (sc_malformed s) in
          match failed with
          | Some _ => (Err "read log records", st')
          | None => (Ok (page_of q s), st')
          end
      end
  end.

(** ** Cleanup *)

Record fileInfo := mkInfo { fi_path : string; fi_mtime : Z; fi_size : Z; fi_sticky : bool }.

Definition stat_files (v : Volume) : list fileInfo :=
  omap (fun name => match vo_records v !! name with
                    | Some f => Some (mkInfo name (fl_mtime f) (blen (fl_content f)) (fl_sticky f))
                    | None => None
                    end) (rotated_files v).

(** Too old, and removable. *)
Definition expires (cutoff : Z) (f : fileInfo) : bool := (fi_mtime f <? cutoff) && negb (fi_sticky f).

Fixpoint evict (capacity total : Z) (l : list fileInfo) : list string * Z :=
  match l with
  | [] => ([], 0)
  | f :: rest =>
      if total <=? capacity then ([], 0)
      else if fi_sticky f then evict capacity total rest
      else let '(names, n) := evict capacity (total - fi_size f) rest in (fi_path f :: names, n + 1)
  end.

Definition total_size (l : list fileInfo) : Z := foldr (fun f n => fi_size f + n) 0 l.

Definition remove_files (names : list string) (v : Volume) : Volume :=
  mkVolume (foldr delete (vo_records v) names) (vo_state v) (vo_buffers v).

(** What is removed, and how many files only for the capacity.  [tie] decides
    between equal times. *)
Definition cleanup_plan (tie : string -> Z) (now retention capacity : Z) (v : Volume) : list string * list string * Z :=
  let cutoff := now - retention in
  let all := stat_files v in
  let kept := List.filter (fun f => negb (expires cutoff f)) all in
  let '(names, evicted) := evict capacity (total_size kept) (order_by (fun f => (fi_mtime f, tie (fi_path f))) kept) in
  (map fi_path (List.filter (expires cutoff) all), names, evicted).

Definition readState (v : Volume) : option persistedState := match vo_state v with Some b => state_of_json b | None => None end.

(** [writeState]: the temporary file is written and renamed. *)
Definition writeState (outcome : result oserr unit) (st : persistedState) (v : Volume) : result oserr unit * Volume :=
  match outcome with
  | Ok _ => (Ok tt, mkVolume (vo_records v) (Some (json_of_state st)) (vo_buffers v))
  | Err e => (Err e, v)
  end.

Definition file_records (v : Volume) (name : string) : list LogRecord :=
  match vo_records v !! name with
  | Some f => match fl_fault f with None => fst (scanFile (fl_content f)) | Some _ => [] end
  | None => []
  end.

Definition earliest (acc : Z) (t : Z) : Z := if IsZero acc || (t <? acc) then t else acc.
Definition latest (acc : Z) (t : Z) : Z := if IsZero acc || (acc <? t) then t else acc.

Definition recent_nodes (cutoff : Z) (l : list LogRecord) : list string :=
  remove_dups (map lr_Node (List.filter (fun r => negb (lr_Node r =? "")%string && (cutoff <? lr_Timestamp r)) l)).

Definition refreshStatus (now : Z) (v : Volume) (st : Store) : Store :=
  let names := recordFiles v in
  let records := flat_map (file_records v) names in
  let retained := foldr (fun name n => match vo_records v !! name with Some f => blen (fl_content f) + n | None => n end) 0 names in
  let buffers := foldr Z.add 0 (vo_buffers v) in
  let old := s_status st in
  let '(evictions, cleaned) := match readState v with
                               | Some p => (ps_CapacityEvictions p, ps_LastCleanupAt p)
                               | None => (ls_CapacityEvictions old, ls_LastCleanupAt old)
                               end in
  let times := map lr_Timestamp records in
  mkStore (s_retention st) (s_capacity st) (s_readOnly st)
    (mkLogStatus (ls_Healthy old) (Z.of_nat (List.length (recent_nodes (now - 120 * second) records))) buffers retained
       (foldl earliest zero_time times) (foldl latest zero_time times) (ls_RetentionSeconds old) (ls_CapacityBytes old) evictions
       (ls_MalformedRecords old) cleaned
       ((if 0 <? evictions then ["Retention was shortened by the 20 GiB capacity limit."] else []) ++
        (if 400 * 1024 * 1024 <? buffers then ["Fluentd disk buffers are nearing capacity."] else [])))
    (s_malformed st).

Definition Status (now : Z) (v : Volume) (st : Store) : LogStatus * Store :=
  let st' := refreshStatus now v st in
  let s := s_status st' in
  (mkLogStatus (ls_Healthy s) (ls_Forwarders s) (ls_BufferBytes s) (ls_RetainedBytes s) (ls_Oldest s) (ls_Newest s) (ls_RetentionSeconds s)
     (ls_CapacityBytes s) (ls_CapacityEvictions s) (s_malformed st') (ls_LastCleanupAt s) (ls_Warnings s), st').

Definition note_cleanup (now evicted : Z) (st : Store) : Store :=
  let s := s_status st in
  mkStore (s_retention st) (s_capacity st) (s_readOnly st)
    (mkLogStatus (ls_Healthy s) (ls_Forwarders s) (ls_BufferBytes s) (ls_RetainedBytes s) (ls_Oldest s) (ls_Newest s) (ls_RetentionSeconds s)
       (ls_CapacityBytes s) (uint64_of (ls_CapacityEvictions s + evicted)) (ls_MalformedRecords s) now (ls_Warnings s))
    (s_malformed st).

Definition Cleanup (tie : string -> Z) (outcome : result oserr unit) (now clock : Z) (v : Volume) (st : Store) : result string unit * Volume * Store :=
  if s_readOnly st then (Err "log store is open for reading only", v, st)
  else
    let '(expired, evicted, n) := cleanup_plan tie now (s_retention st) (s_capacity st) v in
    let v1 := remove_files (expired ++ evicted) v in
    let st1 := note_cleanup now n st in
    match writeState outcome (mkState (ls_CapacityEvictions (s_status st1)) (ls_LastCleanupAt (s_status st1))) v1 with
    | (Err _, v2) => (Err "write log state", v2, st1)
    | (Ok _, v2) => (Ok tt, v2, refreshStatus clock v2 st1)
    end.

End Logs.
