(* ===== verification/LogTheorems.v ===== *)
(** * Log store: queries page by page

    Following the cursors returns every selected record once, newest first. *)

From Stdlib Require Import ZArith Lia Bool Ascii String.
From stdpp Require Import base tactics list strings gmap sorting.
From S2P Require Import Prelude GoStrings GoText GoFiles GoBase64 GoYaml RoutingRows Logstore.

Local Open Scope string_scope.
Local Open Scope list_scope.
Local Open Scope bool_scope.
Local Open Scope Z_scope.

(** ** The order of records *)

#[global] Instance newer_total : Total newer_than.
Proof.
  intros a b. unfold newer_than, newer. destruct (Z.lt_trichotomy (lr_Timestamp a) (lr_Timestamp b)) as [Hlt|[Heq|Hgt]].
  - right. apply Is_true_true, orb_true_iff. left. by apply Z.ltb_lt.
  - rewrite Heq, Z.eqb_refl, Z.ltb_irrefl. cbn [orb andb]. destruct (String.leb_total (lr_ID a) (lr_ID b)) as [->| ->]; [by right|by left].
  - left. apply Is_true_true, orb_true_iff. left. by apply Z.ltb_lt.
Qed.

Lemma newer_iff a b : newer_than a b <-> lr_Timestamp b < lr_Timestamp a \/ (lr_Timestamp a = lr_Timestamp b /\ String.le (lr_ID b) (lr_ID a)).
Proof. unfold newer_than, newer, String.le. rewrite Is_true_true, orb_true_iff, andb_true_iff, Z.ltb_lt, Z.eqb_eq, Is_true_true. done. Qed.

#[global] Instance newer_transitive : Transitive newer_than.
Proof.
  intros a b c. rewrite !newer_iff. intros [H1|[E1 L1]] [H2|[E2 L2]]; [left; lia..|]. right. split; [lia|]. by transitivity (lr_ID b).
Qed.

Lemma newer_antisym a b : newer_than a b -> newer_than b a -> lr_Timestamp a = lr_Timestamp b /\ lr_ID a = lr_ID b.
Proof. rewrite !newer_iff. intros [H1|[E1 L1]] [H2|[E2 L2]]; try lia. split; [done|]. by apply (anti_symm String.le). Qed.

Lemma newer_refl a : newer_than a a.
Proof. destruct (newer_total a a); done. Qed.

(** ** Which records there are *)

(** The records whose identifier was not seen before. *)
Fixpoint fresh (seen : list string) (l : list LogRecord) : list LogRecord :=
  match l with
  | [] => []
  | r :: rest => if oneOfString (lr_ID r) seen then fresh seen rest else r :: fresh (lr_ID r :: seen) rest
  end.

Lemma fresh_In seen l r : In r (fresh seen l) -> In r l /\ ~ In (lr_ID r) seen.
Proof.
  revert seen. induction l as [|x l IH]; intros seen; [done|]. cbn [fresh]. destruct (oneOfString (lr_ID x) seen) eqn:O1.
  - intros [? ?]%IH. split; [by right|done].
  - intros [->|Hin]; [split; [by left|]; rewrite <- oneOfString_In; congruence|]. apply IH in Hin as [? Hn]. split; [by right|]. intros ?. apply Hn. by right.
Qed.

Lemma fresh_NoDup seen l : NoDup (map lr_ID (fresh seen l)).
Proof.
  revert seen. induction l as [|x l IH]; intros seen; cbn [fresh]; [constructor|]. destruct (oneOfString _ _); [done|]. cbn [map]. constructor; [|done].
  rewrite list_elem_of_In. intros (r & E & Hin)%in_map_iff. apply fresh_In in Hin as [_ Hn]. apply Hn. left. done.
Qed.

Lemma fresh_complete seen l r :
  In r l -> ~ In (lr_ID r) seen -> (forall r', In r' l -> lr_ID r' = lr_ID r -> r' = r) -> In r (fresh seen l).
Proof.
  revert seen. induction l as [|x l IH]; intros seen Hin Hn Hu; [done|]. cbn [fresh]. destruct (oneOfString (lr_ID x) seen) eqn:O1.
  - destruct Hin as [->|Hin]; [by apply oneOfString_In in O1|]. apply IH; [done|done|]. intros r' Hr'. apply Hu. by right.
  - destruct Hin as [->|Hin]; [by left|]. destruct (decide (lr_ID x = lr_ID r)) as [E|Hne]; [left; apply Hu; [by left|done]|].
    right. apply IH; [done| |intros r' Hr'; apply Hu; by right]. intros [E|?]; done.
Qed.

Section Pages.
Context `{CaseTable} `{LogLib}.

Definition stored (v : Volume) : list LogRecord := flat_map (file_records v) (recordFiles v).
Definition known (v : Volume) : list LogRecord := fresh [] (stored v).

(** Every file can be read, or is gone. *)
Definition readable (v : Volume) : Prop := forall name f, vo_records v !! name = Some f -> fl_fault f = None \/ fl_fault f = Some ErrNotExist.

Lemma visit_all q cur s l :
  sc_records (foldl (visit q cur) s l) = sc_records s ++ List.filter (matches q cur) (fresh (sc_seen s) l).
Proof.
  revert s. induction l as [|r l IH]; intros s; cbn [foldl fresh]; [by rewrite app_nil_r|]. rewrite IH. unfold visit.
  destruct (oneOfString (lr_ID r) (sc_seen s)); [done|]. cbn [List.filter]. destruct (matches q cur r); cbn [negb sc_records sc_seen]; [|done]. by rewrite <- app_assoc.
Qed.

Definition same_scan (a b : scanState) : Prop := sc_seen a = sc_seen b /\ sc_records a = sc_records b /\ sc_facets a = sc_facets b.

Lemma visit_same q cur a b l : same_scan a b -> same_scan (foldl (visit q cur) a l) (foldl (visit q cur) b l).
Proof.
  revert a b. induction l as [|r l IH]; intros a b Hs; [done|]. cbn [foldl]. apply IH. destruct Hs as (H1 & H2 & H3). unfold visit. rewrite H1.
  destruct (oneOfString _ _); [done|]. destruct (negb _); split; cbn; [congruence|split; congruence|congruence|split; congruence].
Qed.

Lemma scan_files v q cur names s s' :
  readable v -> same_scan s s' ->
  exists t, foldl (scan_one v q cur) (s, None) names = (t, None) /\ same_scan t (foldl (visit q cur) s' (flat_map (file_records v) names)).
Proof.
  intros Hv. revert s s'. induction names as [|n names IH]; intros s s' Hs; [by exists s|]. cbn [foldl flat_map]. rewrite foldl_app.
  assert (exists t, scan_one v q cur (s, None) n = (t, None) /\ same_scan t (foldl (visit q cur) s' (file_records v n))) as (t & -> & Ht); [|by apply IH].
  unfold scan_one, file_records. destruct (vo_records v !! n) as [f|] eqn:E; [|by exists s]. destruct (Hv _ _ E) as [-> | ->]; [|by exists s].
  destruct (scanFile (fl_content f)) as [records malformed]. cbn [fst]. eexists. split; [done|].
  destruct (visit_same q cur s s' records Hs) as (H1 & H2 & H3). split; [done|]. split; done.
Qed.

(** ** Sorted answers *)

Definition answer (v : Volume) (q : LogQuery) : list LogRecord := merge_sort newer_than (List.filter (selects q) (known v)).

Lemma NoDup_filter_ids f l : NoDup (map lr_ID l) -> NoDup (map lr_ID (List.filter f l)).
Proof.
  induction l as [|x l IH]; [done|]. cbn [map List.filter]. intros [Hn Hd]%NoDup_cons. destruct (f x); [|by apply IH]. cbn [map]. constructor; [|by apply IH].
  rewrite list_elem_of_In in *. intros (y & E & [Hy _]%List.filter_In)%in_map_iff. apply Hn, in_map_iff. by exists y.
Qed.

Lemma ids_unique l a b : NoDup (map lr_ID l) -> In a l -> In b l -> lr_ID a = lr_ID b -> a = b.
Proof.
  induction l as [|x l IH]; [done|]. cbn [map]. intros [Hn Hd]%NoDup_cons [->|Ha] [->|Hb] E; [done| | |by apply IH].
  - destruct Hn. apply list_elem_of_In. rewrite E. by apply in_map.
  - destruct Hn. apply list_elem_of_In. rewrite <- E. by apply in_map.
Qed.

Lemma StronglySorted_filter f l : StronglySorted newer_than l -> StronglySorted newer_than (List.filter f l).
Proof.
  induction 1 as [|x l Hs IH Hx]; [constructor|]. cbn [List.filter]. destruct (f x); [|done]. constructor; [done|].
  rewrite Forall_forall in *. intros y Hy%list_elem_of_In. apply List.filter_In in Hy as [Hy _]. by apply Hx, list_elem_of_In.
Qed.

Lemma filter_perm {A} (f : A -> bool) l l' : l ≡ₚ l' -> List.filter f l ≡ₚ List.filter f l'.
Proof.
  induction 1 as [|x l l' _ IH|x y l|l1 l2 l3 _ IH1 _ IH2]; [done|cbn; destruct (f x); by rewrite IH|cbn; destruct (f x), (f y); try done; apply perm_swap|by rewrite IH1].
Qed.

Lemma filter_and {A} (f g : A -> bool) l : List.filter (fun x => f x && g x) l = List.filter g (List.filter f l).
Proof. induction l as [|x l IH]; [done|]. cbn. destruct (f x); cbn; [destruct (g x); by rewrite IH|done]. Qed.

(** Sorting and then leaving out what precedes the cursor, or the other way
    round. *)
Lemma sort_filter g l : NoDup (map lr_ID l) -> merge_sort newer_than (List.filter g l) = List.filter g (merge_sort newer_than l).
Proof.
  intros Hd. apply (StronglySorted_unique_strong newer_than).
  - intros a b Ha Hb Hab Hba. destruct (newer_antisym _ _ Hab Hba) as [_ E]. apply (ids_unique l); [done| | |done].
    + rewrite merge_sort_Permutation in Ha. apply list_elem_of_In, List.filter_In in Ha. tauto.
    + apply list_elem_of_In, List.filter_In in Hb as [Hb _]. apply list_elem_of_In. apply list_elem_of_In in Hb. by rewrite merge_sort_Permutation in Hb.
  - apply StronglySorted_merge_sort; apply _.
  - apply StronglySorted_filter, StronglySorted_merge_sort; apply _.
  - rewrite merge_sort_Permutation. apply filter_perm. by rewrite merge_sort_Permutation.
Qed.

Lemma answer_NoDup v q : NoDup (map lr_ID (answer v q)).
Proof. unfold answer. rewrite merge_sort_Permutation. apply NoDup_filter_ids, fresh_NoDup. Qed.

Lemma answer_sorted v q : StronglySorted newer_than (answer v q).
Proof. apply StronglySorted_merge_sort; apply _. Qed.

Lemma answer_In v q r : In r (answer v q) <-> In r (known v) /\ selects q r = true.
Proof. unfold answer. rewrite <- list_elem_of_In, merge_sort_Permutation, list_elem_of_In. apply List.filter_In. Qed.

(** ** Cursors *)

Lemma past_cursor_newer r x : past_cursor (Some (cursor_at r)) x = negb (newer x r).
Proof. unfold past_cursor, cursor_at, newer. cbn [cu_Timestamp cu_ID]. done. Qed.

(** Behind the cursor of a record come the records behind it. *)
Lemma filter_cursor pre r suf :
  StronglySorted newer_than (pre ++ r :: suf) -> NoDup (map lr_ID (pre ++ r :: suf)) ->
  List.filter (past_cursor (Some (cursor_at r))) (pre ++ r :: suf) = suf.
Proof.
  intros Hs Hd. rewrite List.filter_app. assert (forall x, newer_than x r -> past_cursor (Some (cursor_at r)) x = false) as Hout.
  { intros x Hx%Is_true_true. rewrite past_cursor_newer. by rewrite Hx. }
  apply StronglySorted_app in Hs as (Hpre & Hs1 & Hs2). inversion Hs2 as [|? ? Hsuf Hr]; subst.
  assert (List.filter (past_cursor (Some (cursor_at r))) pre = []) as ->.
  { clear -Hpre Hout. induction pre as [|x pre IH]; [done|]. cbn [List.filter]. rewrite Hout by (apply Hpre; constructor). apply IH. intros a b Ha Hb. apply Hpre; [by constructor|done]. }
  cbn [app List.filter]. rewrite (Hout r) by apply newer_refl.
  assert (forall x, In x suf -> past_cursor (Some (cursor_at r)) x = true) as Hin.
  { intros x Hx. rewrite past_cursor_newer. apply negb_true_iff, not_true_iff_false. intros Hn. rewrite Forall_forall in Hr. assert (newer_than x r) as Hxr by (by apply Is_true_true).
    destruct (newer_antisym _ _ (Hr x (proj2 (list_elem_of_In _ _) Hx)) Hxr) as [_ E]. rewrite map_app in Hd. apply NoDup_app in Hd as (_ & _ & Hd). cbn [map] in Hd.
    apply NoDup_cons in Hd as [Hd _]. apply Hd, list_elem_of_In. rewrite E. by apply in_map. }
  clear -Hin. induction suf as [|x suf IH]; [done|]. cbn [List.filter]. rewrite Hin by (by left). f_equal. apply IH. intros y Hy. apply Hin. by right.
Qed.

Lemma scanned_line content r : In r (fst (scanFile content)) -> exists line, record_of_json line = Some r /\ lr_ID r <> "" /\ IsZero (lr_Timestamp r) = false.
Proof.
  unfold scanFile. cbn [fst]. rewrite <- list_elem_of_In, list_elem_of_omap. intros (o & Ho & ->). apply list_elem_of_In, in_map_iff in Ho as (line & Ho & _).
  exists line. unfold scan_record in Ho. destruct (record_of_json line) as [r0|]; [|done]. destruct (String.eqb_spec (lr_ID r0) ""); [done|].
  destruct (IsZero (lr_Timestamp r0)) eqn:Z0; [done|]. destruct (32 * 1024 <? len (lr_Message r0)); [done|]. by injection Ho as ->.
Qed.

Lemma stored_line v r : In r (stored v) -> exists line, record_of_json line = Some r /\ lr_ID r <> "" /\ IsZero (lr_Timestamp r) = false.
Proof.
  unfold stored. intros (n & _ & Hr)%in_flat_map. unfold file_records in Hr. destruct (vo_records v !! n) as [f|]; [|done]. destruct (fl_fault f); [done|].
  by eapply scanned_line.
Qed.

Lemma known_stored v r : In r (known v) -> In r (stored v).
Proof. by intros [? _]%fresh_In. Qed.

Lemma cursor_round_trip v r : In r (stored v) -> decodeCursor (encodeCursor (cursor_at r)) = Ok (Some (cursor_at r)) /\ encodeCursor (cursor_at r) <> "".
Proof.
  intros (line & Hl & Hid & Hz)%stored_line. assert (encodeCursor (cursor_at r) <> "") as Hne.
  { intros E%Encode_empty. by apply cursor_json_nonempty in E. }
  split; [|done]. unfold decodeCursor. apply String.eqb_neq in Hne. rewrite Hne. unfold encodeCursor. rewrite Decode_Encode, (cursor_reads_back _ _ Hl).
  unfold cursor_at. cbn [cu_Timestamp cu_ID]. rewrite Hz. apply String.eqb_neq in Hid. by rewrite Hid.
Qed.

(** ** Pages *)

(** No record is larger than a response. *)
Definition small (v : Volume) : Prop := forall r, In r (stored v) -> blen (json_of_record r) <= MaxResponseBytes.

Lemma boundResponse_take size l : exists k, boundResponse size l = (take k l, (k <? length l)%nat) /\ (k <= length l)%nat /\
  (0 <= size -> forall r rest, l = r :: rest -> size + blen (json_of_record r) <= MaxResponseBytes -> (1 <= k)%nat).
Proof.
  revert size. induction l as [|r l IH]; intros size; [by exists 0%nat|]. cbn [boundResponse]. destruct (MaxResponseBytes <? _) eqn:B.
  - exists 0%nat. split; [done|]. split; [simpl; lia|]. intros _ r' rest [= -> ->] Hle. apply Z.ltb_lt in B. lia.
  - destruct (IH (size + blen (json_of_record r))) as (k & -> & Hk & _). exists (S k). split; [done|]. split; [simpl; lia|]. intros; lia.
Qed.

(** A page is a start of what is left, and never empty when anything is; it says
    whether there is more, and then where. *)
Lemma page_of_spec q s T :
  merge_sort newer_than (sc_records s) = T -> 1 <= lq_Limit q -> (forall r, In r T -> blen (json_of_record r) <= MaxResponseBytes) ->
  exists k, (k <= length T)%nat /\ Z.of_nat k <= lq_Limit q /\ (T <> [] -> (1 <= k)%nat) /\ pg_Records (page_of q s) = take k T /\
    pg_Truncated (page_of q s) = (k <? length T)%nat /\
    forall r, (k < length T)%nat -> last (take k T) = Some r -> pg_NextCursor (page_of q s) = encodeCursor (cursor_at r).
Proof.
  intros HT Hl Hsmall. unfold page_of. rewrite HT. destruct (boundResponse_take 0 (take (Z.to_nat (lq_Limit q)) T)) as (k & -> & Hk & Hk1).
  rewrite length_take in Hk |- *. exists k. rewrite take_take. replace (k `min` Z.to_nat (lq_Limit q))%nat with k by lia.
  assert ((lq_Limit q <? Z.of_nat (length T)) || (k <? Z.to_nat (lq_Limit q) `min` length T)%nat = (k <? length T)%nat) as Htr.
  { destruct (k <? length T)%nat eqn:K.
    - apply orb_true_iff. apply Nat.ltb_lt in K. destruct (Z.ltb_spec (lq_Limit q) (Z.of_nat (length T))); [by left|right]. apply Nat.ltb_lt. lia.
    - apply Nat.ltb_ge in K. apply orb_false_iff. split; [apply Z.ltb_ge|apply Nat.ltb_ge]; lia. }
  cbn [pg_Records pg_Truncated pg_NextCursor]. rewrite Htr. split; [lia|]. split; [lia|]. split; [|split; [done|split; [done|]]].
  - intros Hne. destruct T as [|r T']; [done|]. destruct (Z.to_nat (lq_Limit q)) as [|n] eqn:En; [lia|].
    apply (Hk1 ltac:(lia) r (take n T')); [done|]. rewrite Z.add_0_l. apply Hsmall. by left.
  - intros r K Hlast. rewrite Hlast. apply Nat.ltb_lt in K. by rewrite K.
Qed.

Definition at_cursor (c : string) (q : LogQuery) : LogQuery :=
  mkQuery (lq_From q) (lq_To q) (lq_Level q) (lq_SourceKind q) (lq_Node q) (lq_Stack q) (lq_Service q) (lq_Container q) (lq_Unit q) (lq_Search q) (lq_Limit q) c.

Lemma Normalize_cursor now now' q q' c :
  IsZero (lq_To q) = false -> LogQuery_Normalize now q = Ok q' -> LogQuery_Normalize now' (at_cursor c q) = Ok (at_cursor c q').
Proof.
  intros Hto. unfold LogQuery_Normalize. cbn [at_cursor lq_From lq_To lq_Level lq_SourceKind lq_Node lq_Stack lq_Service lq_Container lq_Unit lq_Search lq_Limit lq_Cursor].
  rewrite Hto. destruct (all_ok _); [|done]. by intros [= <-].
Qed.

Lemma Normalize_limit now q q' : LogQuery_Normalize now q = Ok q' -> 1 <= lq_Limit q'.
Proof.
  unfold LogQuery_Normalize. destruct (all_ok _) as [[]|e] eqn:A; [|done]. intros [= <-]. cbn [lq_Limit]. apply all_ok_iff in A.
  rewrite !Forall_cons, !refuse_if_iff in A. destruct A as (_ & _ & A & _). apply orb_false_iff in A as [A _]. lia.
Qed.

(** One query, in terms of the answer. *)
Lemma Query_page now v q q' cur st :
  readable v -> LogQuery_Normalize now q = Ok q' -> decodeCursor (lq_Cursor q') = Ok cur ->
  exists s st', Query now v q st = (Ok (page_of q' s), st') /\ merge_sort newer_than (sc_records s) = List.filter (past_cursor cur) (answer v q').
Proof.
  intros Hv Hn Hc. unfold Query. rewrite Hn, Hc.
  destruct (scan_files v q' cur (recordFiles v) (mkScan [] [] no_facets (s_malformed st)) (mkScan [] [] no_facets (s_malformed st)) Hv) as (t & -> & Ht); [done|].
  eexists t, _. split; [done|]. destruct Ht as (_ & -> & _). rewrite visit_all. cbn [sc_records sc_seen app]. fold (stored v). fold (known v).
  unfold matches. rewrite filter_and. unfold answer. apply sort_filter. apply NoDup_filter_ids, fresh_NoDup.
Qed.

(** A client that follows the cursors: the pages it gets, [None] when a query
    fails or the fuel is spent. *)
Fixpoint read_pages (fuel : nat) (clock : nat -> Z) (v : Volume) (q : LogQuery) (st : Store) : option (list (list LogRecord)) :=
  match fuel with
  | O => None
  | S fuel' =>
      match Query (clock fuel) v q st with
      | (Ok page, st') =>
          if pg_Truncated page then
            match read_pages fuel' clock v (at_cursor (pg_NextCursor page) q) st' with Some rest => Some (pg_Records page :: rest) | None => None end
          else Some [pg_Records page]
      | (Err _, _) => None
      end
  end.

Lemma at_cursor_twice a b q : at_cursor a (at_cursor b q) = at_cursor a q.
Proof. done. Qed.

Lemma read_rest v clock now q q' pre T cur c fuel st :
  readable v -> small v -> IsZero (lq_To q) = false -> LogQuery_Normalize now q = Ok q' -> answer v q' = pre ++ T ->
  decodeCursor c = Ok cur -> List.filter (past_cursor cur) (answer v q') = T -> (length T < fuel)%nat ->
  exists pages, read_pages fuel clock v (at_cursor c q) st = Some pages /\ concat pages = T /\ Forall (fun p => Z.of_nat (length p) <= lq_Limit q') pages.
Proof.
  intros Hv Hsm Hto Hn. revert pre T cur c st. induction fuel as [|fuel IH]; intros pre T cur c st HA Hc HT Hf; [lia|]. cbn [read_pages].
  destruct (Query_page (clock (S fuel)) v (at_cursor c q) (at_cursor c q') cur st Hv (Normalize_cursor _ _ _ _ _ Hto Hn) Hc) as (s & st' & -> & HT').
  change (answer v (at_cursor c q')) with (answer v q') in HT'. rewrite HT in HT'.
  assert (forall r, In r (answer v q') -> In r (stored v)) as Hst by (intros r [Hr _]%answer_In; by apply known_stored).
  destruct (page_of_spec (at_cursor c q') s T HT' (Normalize_limit _ _ _ Hn)) as (k & Hk & Hlim & Hk1 & -> & -> & Hnext).
  { intros r Hr. apply Hsm, Hst. rewrite HA. apply in_or_app. by right. }
  destruct (Nat.ltb_spec k (length T)) as [Hlt|Hge].
  - assert (T <> []) as Hne by (intros ->; simpl in Hlt; lia). specialize (Hk1 Hne).
    destruct (last (take k T)) as [r|] eqn:L; [|apply last_None in L; apply (f_equal length) in L; rewrite length_take in L; simpl in L; lia].
    rewrite (Hnext r Hlt eq_refl), at_cursor_twice. apply last_Some in L as [l L].
    assert (answer v q' = (pre ++ l) ++ r :: drop k T) as HA' by (rewrite HA, <- (take_drop k T) at 1; rewrite L, <- !app_assoc; done).
    destruct (IH ((pre ++ l) ++ [r]) (drop k T) (Some (cursor_at r)) (encodeCursor (cursor_at r)) st') as (pages & -> & Hcat & Hall).
    + rewrite HA'. by rewrite <- !app_assoc.
    + apply (cursor_round_trip v). apply Hst. rewrite HA'. apply in_or_app. right. by left.
    + rewrite HA'. apply filter_cursor; rewrite <- HA'; [apply answer_sorted|apply answer_NoDup].
    + rewrite length_drop. lia.
    + exists (take k T :: pages). split; [done|]. split; [cbn [concat]; by rewrite Hcat, take_drop|]. constructor; [|done]. rewrite length_take.
      change (lq_Limit (at_cursor c q')) with (lq_Limit q') in Hlim. lia.
  - exists [take k T]. split; [done|]. split; [cbn [concat]; rewrite app_nil_r, take_ge; [done|lia]|]. constructor; [|constructor]. rewrite length_take.
    change (lq_Limit (at_cursor c q')) with (lq_Limit q') in Hlim. lia.
Qed.

(** ** Records and lines *)

(** The record is on a line of a record file that can be opened, and neither that
    line nor one before it in the file reaches 64 KiB. *)
Definition legible (v : Volume) (r : LogRecord) : Prop :=
  exists name f before line after, In name (recordFiles v) /\ vo_records v !! name = Some f /\ fl_fault f = None /\
    raw_lines (fl_content f) = before ++ line :: after /\ Forall (fun l => blen l < maxLineBytes) (before ++ [line]) /\
    scan_record (dropCR line) = Some r.

Lemma tokens_split lines t :
  In t (tokens lines) <-> exists before line after, lines = before ++ line :: after /\ Forall (fun l => blen l < maxLineBytes) (before ++ [line]) /\ t = dropCR line.
Proof.
  induction lines as [|l lines IH]; cbn [tokens].
  { split; [done|]. intros ([|] & line & after & E & _); discriminate E. }
  destruct (Z.ltb_spec (blen l) maxLineBytes) as [Hs|Hl].
  - cbn [In]. rewrite IH. split.
    + intros [<-|(before & line & after & -> & Hall & ->)]; [exists [], l, lines; split; [done|]; split; [by constructor|done]|].
      exists (l :: before), line, after. split; [done|]. split; [by constructor|done].
    + intros ([|x before] & line & after & E & Hall & ->); injection E as <- E; [by left|right]. exists before, line, after. split; [done|].
      split; [by inversion Hall|done].
  - split; [done|]. intros ([|x before] & line & after & E & Hall & _); injection E as <- E; inversion Hall; lia.
Qed.

Lemma stored_legible v r : In r (stored v) <-> legible v r.
Proof.
  unfold stored, legible. rewrite in_flat_map. split.
  - intros (name & Hn & Hr). unfold file_records in Hr. destruct (vo_records v !! name) as [f|] eqn:F; [|done]. destruct (fl_fault f) eqn:Ff; [done|].
    unfold scanFile in Hr. cbn [fst] in Hr. rewrite <- list_elem_of_In, list_elem_of_omap in Hr. destruct Hr as (o & Ho & ->).
    apply list_elem_of_In, in_map_iff in Ho as (t & Ho & (before & line & after & Hl & Hall & ->)%tokens_split). by exists name, f, before, line, after.
  - intros (name & f & before & line & after & Hn & F & Ff & Hl & Hall & Hr). exists name. split; [done|]. unfold file_records. rewrite F, Ff.
    unfold scanFile. cbn [fst]. rewrite <- list_elem_of_In, list_elem_of_omap. exists (Some r). split; [|done]. apply list_elem_of_In, in_map_iff.
    exists (dropCR line). split; [done|]. apply tokens_split. by exists before, line, after.
Qed.

(** C18. A client that follows the cursors of [Query] gets every selected record
    that the store can read, exactly once and newest first, in pages of at most
    the limit it asked for, after finitely many queries: one more than there are
    such records is always enough.  A record can be read when neither its line
    nor one before it in its file reaches 64 KiB, and when it is the only one
    with its identifier.  This is for queries that say where they end, over files
    of one moment that can all be opened (or are gone), with no record larger
    than a response; the clock may advance between the queries. *)
Theorem log_pages_cover v clock now q q' st :
  readable v -> small v -> IsZero (lq_To q) = false -> lq_Cursor q = "" -> LogQuery_Normalize now q = Ok q' ->
  exists pages, read_pages (S (length (stored v))) clock v q st = Some pages /\
    Forall (fun p => Z.of_nat (length p) <= lq_Limit q') pages /\
    StronglySorted newer_than (concat pages) /\ NoDup (map lr_ID (concat pages)) /\
    (forall r, In r (concat pages) -> legible v r /\ selects q' r = true) /\
    (forall r, legible v r -> selects q' r = true -> (forall r', legible v r' -> lr_ID r' = lr_ID r -> r' = r) -> In r (concat pages)).
Proof.
  intros Hv Hsm Hto Hc Hn. assert (at_cursor "" q = q) as Eq by (destruct q; cbn in *; by subst).
  destruct (read_rest v clock now q q' [] (answer v q') None "" (S (length (stored v))) st) as (pages & HR & HC & HL); try done.
  - induction (answer v q') as [|x l IH]; [done|]. cbn. by f_equal.
  - enough (length (answer v q') <= length (stored v))%nat by lia. unfold answer. rewrite merge_sort_Permutation.
    transitivity (length (known v)); [apply List.filter_length_le|]. unfold known. generalize (@nil string). induction (stored v) as [|x l IH]; intros seen; [done|].
    cbn [fresh]. destruct (oneOfString _ _); simpl; [specialize (IH seen); lia|specialize (IH (lr_ID x :: seen)); lia].
  - rewrite Eq in HR. exists pages. rewrite HC. split; [done|]. split; [done|]. split; [apply answer_sorted|]. split; [apply answer_NoDup|]. split.
    + intros r [Hr Hs]%answer_In. split; [by apply stored_legible, known_stored|done].
    + intros r Hr%stored_legible Hs Hu. apply answer_In. split; [|done]. apply fresh_complete; [done|by intros []|].
      intros r' Hr'%stored_legible. by apply Hu.
Qed.

End Pages.

(** ** Log store: what a cleanup keeps

    The retained files after [Cleanup]. *)

(** ** The files of a volume *)

Definition info (name : string) (f : LogFile) : fileInfo := mkInfo name (fl_mtime f) (blen (fl_content f)) (fl_sticky f).

Lemma rotated_files_In v name : In name (rotated_files v) <-> rotated name = true /\ exists f, vo_records v !! name = Some f.
Proof.
  unfold rotated_files. rewrite List.filter_In, <- list_elem_of_In, sort_strings_perm, list_elem_of_In, in_map_iff. split.
  - intros [([n f] & E & Hin) Hr]. cbn in E. subst n. split; [done|]. exists f. by apply elem_of_map_to_list, list_elem_of_In.
  - intros [Hr [f Hf]]. split; [|done]. exists (name, f). split; [done|]. by apply list_elem_of_In, elem_of_map_to_list.
Qed.

Lemma rotated_files_NoDup v : NoDup (rotated_files v).
Proof.
  unfold rotated_files. assert (NoDup (sort_strings (map fst (map_to_list (vo_records v))))) as Hd.
  { rewrite sort_strings_perm. apply NoDup_fst_map_to_list. }
  induction Hd as [|x l Hn _ IH]; [constructor|]. cbn [List.filter]. destruct (rotated x); [|done]. constructor; [|done].
  rewrite list_elem_of_In in *. intros [Hx _]%List.filter_In. done.
Qed.

Lemma stat_files_In v i : In i (stat_files v) <-> exists f, vo_records v !! fi_path i = Some f /\ i = info (fi_path i) f /\ rotated (fi_path i) = true.
Proof.
  unfold stat_files. rewrite <- list_elem_of_In, list_elem_of_omap. split.
  - intros (name & Hn & E). apply list_elem_of_In, rotated_files_In in Hn as [Hr [f Hf]]. rewrite Hf in E. injection E as <-. by exists f.
  - intros (f & Hf & -> & Hr). cbn [fi_path info]. exists (fi_path i). split; [apply list_elem_of_In, rotated_files_In; by eauto|]. by rewrite Hf.
Qed.

Lemma stat_paths v : map fi_path (stat_files v) = rotated_files v.
Proof.
  unfold stat_files. assert (forall name, In name (rotated_files v) -> exists f, vo_records v !! name = Some f) as Hall by (intros n [_ ?]%rotated_files_In; done).
  induction (rotated_files v) as [|n l IH]; [done|]. destruct (Hall n ltac:(by left)) as [f Hf]. cbn. rewrite Hf. cbn. f_equal. apply IH. intros m Hm. apply Hall. by right.
Qed.

Lemma stat_files_NoDup v : NoDup (stat_files v).
Proof. apply (NoDup_fmap_1 fi_path). change (NoDup (map fi_path (stat_files v))). rewrite stat_paths. apply rotated_files_NoDup. Qed.

Lemma same_file v i j : In i (stat_files v) -> In j (stat_files v) -> fi_path i = fi_path j -> i = j.
Proof. rewrite !stat_files_In. intros (f & Hf & -> & _) (g & Hg & -> & _) E. cbn [info fi_path] in *. rewrite E in *. congruence. Qed.

Lemma remove_lookup names v name : vo_records (remove_files names v) !! name = if oneOfString name names then None else vo_records v !! name.
Proof.
  unfold remove_files. cbn [vo_records]. induction names as [|n names IH]; [done|]. cbn [foldr]. destruct (decide (n = name)) as [->|Hne].
  - rewrite lookup_delete_eq. assert (oneOfString name (name :: names) = true) as ->; [apply oneOfString_In; by left|done].
  - rewrite lookup_delete_ne by done. rewrite IH. assert (oneOfString name (n :: names) = oneOfString name names) as ->; [|done].
    apply eq_true_iff_eq. rewrite !oneOfString_In. split; [intros [?|?]; done|by right].
Qed.

(** Removing some of the rotated files leaves the others. *)
Lemma stat_remove v gone left : stat_files v ≡ₚ gone ++ left -> stat_files (remove_files (map fi_path gone) v) ≡ₚ left.
Proof.
  intros Hp. pose proof (stat_files_NoDup v) as Hd. assert (NoDup (gone ++ left)) as Hd' by (by rewrite <- Hp). apply NoDup_app in Hd' as (_ & Hdis & Hdl).
  assert (forall i, In i (stat_files v) <-> In i gone \/ In i left) as Hall.
  { intros i. rewrite <- in_app_iff, <- !list_elem_of_In. by rewrite Hp. }
  apply NoDup_Permutation; [apply stat_files_NoDup|done|]. intros i. rewrite !list_elem_of_In, stat_files_In. split.
  - intros (f & Hf & Ei & Hr). rewrite remove_lookup in Hf. destruct (oneOfString _ _) eqn:O1; [done|].
    assert (In i (stat_files v)) as Hi by (apply stat_files_In; by exists f). apply Hall in Hi as [Hg|]; [|done].
    exfalso. assert (oneOfString (fi_path i) (map fi_path gone) = true) by (apply oneOfString_In; by apply in_map). congruence.
  - intros Hi. assert (In i (stat_files v)) as Hiv by (apply Hall; by right). pose proof Hiv as (f & Hf & Ei & Hr)%stat_files_In. exists f. split; [|done].
    rewrite remove_lookup. destruct (oneOfString _ _) eqn:O1; [|done]. exfalso. apply oneOfString_In, in_map_iff in O1 as (j & Ej & Hj).
    assert (j = i) as -> by (apply (same_file v); [apply Hall; by left|done|done]). by apply (Hdis i); apply list_elem_of_In.
Qed.

Lemma total_app a b : total_size (a ++ b) = total_size a + total_size b.
Proof. unfold total_size. induction a as [|x a IH]; [done|]. cbn [app foldr]. lia. Qed.

#[global] Instance total_perm : Proper ((≡ₚ) ==> eq) total_size.
Proof. intros l l' Hp. unfold total_size. induction Hp; cbn [foldr]; lia. Qed.

Lemma filter_split_perm {A} (f : A -> bool) l : l ≡ₚ List.filter f l ++ List.filter (fun x => negb (f x)) l.
Proof.
  induction l as [|x l IH]; [done|]. cbn [List.filter]. destruct (f x); cbn [negb app]; [by constructor|]. by rewrite <- Permutation_middle, <- IH.
Qed.

(** ** Eviction *)

Definition removable (f : fileInfo) : bool := negb (fi_sticky f).

(** The oldest removable files go, until the others fit, and no more than that. *)
Lemma evict_spec capacity total l names n :
  evict capacity total l = (names, n) ->
  exists pre suf, l = pre ++ suf /\ names = map fi_path (List.filter removable pre) /\ n = Z.of_nat (length names) /\
    (suf = [] \/ total - total_size (List.filter removable pre) <= capacity) /\
    (names = [] \/ exists f, In f pre /\ removable f = true /\ capacity < total - total_size (List.filter removable pre) + fi_size f).
Proof.
  revert total names n. induction l as [|f l IH]; intros total names n; cbn [evict]; [intros [= <- <-]; exists [], []; by eauto 10|].
  destruct (Z.leb_spec total capacity) as [Hle|Hgt].
  { intros [= <- <-]. exists [], (f :: l). cbn. split; [done|]. split; [done|]. split; [done|]. split; [right; lia|by left]. }
  destruct (fi_sticky f) eqn:St.
  - intros (pre & suf & -> & -> & -> & Hs & Hm)%IH. exists (f :: pre), suf. assert (removable f = false) as Hr by (unfold removable; by rewrite St). cbn [List.filter]. rewrite Hr.
    split; [done|]. split; [done|]. split; [done|]. split; [done|]. destruct Hm as [->|(g & Hg & Hgr & Hc)]; [by left|right]. exists g. split; [by right|done].
  - destruct (evict capacity (total - fi_size f) l) as [names' n'] eqn:E. intros [= <- <-]. apply IH in E as (pre & suf & -> & -> & -> & Hs & Hm).
    exists (f :: pre), suf. assert (removable f = true) as Hr by (unfold removable; by rewrite St). cbn [List.filter]. rewrite Hr.
    cbn [map length]. split; [done|]. split; [done|]. split; [lia|]. unfold total_size in *. cbn [foldr]. split; [destruct Hs; [by left|right; lia]|right].
    destruct Hm as [Hnil|(g & Hg & Hgr & Hc)]; [|exists g; split; [by right|split; [done|lia]]]. exists f. split; [by left|]. split; [done|].
    apply map_eq_nil in Hnil. rewrite Hnil. cbn [foldr]. lia.
Qed.

(** ** What a cleanup did *)

Definition left_behind (v' : Volume) (name : string) (f : LogFile) : Prop := vo_records v' !! name = Some f /\ rotated name = true /\ fl_sticky f = false.

(** Removed although it was young enough. *)
Definition evicted_by (cutoff : Z) (v v' : Volume) (name : string) (f : LogFile) : Prop :=
  vo_records v !! name = Some f /\ vo_records v' !! name = None /\ cutoff <= fl_mtime f.

Section Cleanups.
Context `{CaseTable} `{LogLib}.

Lemma plan_parts tie now retention capacity v expired evicted n :
  cleanup_plan tie now retention capacity v = (expired, evicted, n) ->
  exists old pre suf, expired = map fi_path old /\ evicted = map fi_path (List.filter removable pre) /\ n = Z.of_nat (length evicted) /\
    stat_files v ≡ₚ (old ++ List.filter removable pre) ++ List.filter (fun f => negb (removable f)) pre ++ suf /\
    (forall f, In f old <-> In f (stat_files v) /\ expires (now - retention) f = true) /\
    (forall f g, In f pre -> In g suf -> fi_mtime f <= fi_mtime g) /\
    (suf = [] \/ total_size (List.filter (fun f => negb (removable f)) pre ++ suf) <= capacity) /\
    (evicted = [] \/ exists f, In f pre /\ removable f = true /\ capacity < total_size (List.filter (fun f => negb (removable f)) pre ++ suf) + fi_size f).
Proof.
  unfold cleanup_plan. set (kept := List.filter _ _). set (key := fun f => (fi_mtime f, tie (fi_path f))). destruct (evict _ _ _) as [names m] eqn:E. intros [= <- <- <-].
  apply evict_spec in E as (pre & suf & Hl & -> & -> & Hs & Hm). set (old := List.filter (expires (now - retention)) (stat_files v)).
  pose proof (filter_split_perm removable pre) as Hpre. assert (kept ≡ₚ pre ++ suf) as Hk by (rewrite <- Hl; by rewrite order_by_perm).
  assert (total_size kept - total_size (List.filter removable pre) = total_size (List.filter (fun f => negb (removable f)) pre ++ suf)) as Ht.
  { rewrite Hk, total_app. rewrite Hpre at 1. rewrite !total_app. lia. }
  rewrite Ht in Hs, Hm. exists old, pre, suf. split; [done|]. split; [done|]. split; [done|]. split; [|split; [|split; [|done]]].
  - rewrite (filter_split_perm (expires (now - retention)) (stat_files v)). fold old. fold kept. rewrite Hk, Hpre at 1. by rewrite <- !app_assoc.
  - intros f. apply List.filter_In.
  - intros f g Hf Hg. pose proof (order_by_sorted key kept) as Hsorted. rewrite Hl in Hsorted. apply StronglySorted_app in Hsorted as (Hc & _).
    specialize (Hc f g (proj2 (list_elem_of_In _ _) Hf) (proj2 (list_elem_of_In _ _) Hg)). unfold key_le, lex_le, key in Hc. cbn in Hc. lia.
Qed.

Lemma Cleanup_files tie outcome now clock v st res v' st' :
  Cleanup tie outcome now clock v st = (res, v', st') -> s_readOnly st = false ->
  exists expired evicted n, cleanup_plan tie now (s_retention st) (s_capacity st) v = (expired, evicted, n) /\
    vo_records v' = vo_records (remove_files (expired ++ evicted) v).
Proof.
  unfold Cleanup. intros Hc Hw. rewrite Hw in Hc. destruct (cleanup_plan _ _ _ _ _) as [[expired evicted] n]. exists expired, evicted, n. split; [done|].
  unfold writeState in Hc. by destruct outcome as [[]|]; injection Hc as _ <- _.
Qed.

(** The parts of a cleanup as files of the volume. *)
Lemma cleanup_parts tie now retention capacity v expired evicted n v' :
  cleanup_plan tie now retention capacity v = (expired, evicted, n) -> vo_records v' = vo_records (remove_files (expired ++ evicted) v) ->
  exists old pre suf, let stays := List.filter (fun f => negb (removable f)) pre ++ suf in
    stat_files v' ≡ₚ stays /\
    (forall name f, vo_records v !! name = Some f -> vo_records v' !! name = None <-> In (info name f) (old ++ List.filter removable pre)) /\
    evicted = map fi_path (List.filter removable pre) /\ n = Z.of_nat (length evicted) /\
    stat_files v ≡ₚ (old ++ List.filter removable pre) ++ stays /\
    (forall f, In f old <-> In f (stat_files v) /\ expires (now - retention) f = true) /\
    (forall f g, In f pre -> In g suf -> fi_mtime f <= fi_mtime g) /\ (suf = [] \/ total_size stays <= capacity) /\
    (evicted = [] \/ exists f, In f pre /\ removable f = true /\ capacity < total_size stays + fi_size f).
Proof.
  intros (old & pre & suf & -> & -> & -> & Hp & Hold & Hord & Hs & Hm)%plan_parts Hv'. exists old, pre, suf. cbv zeta.
  assert (stat_files v' = stat_files (remove_files (map fi_path (old ++ List.filter removable pre)) v)) as Est.
  { rewrite map_app. unfold stat_files, rotated_files. by rewrite Hv'. }
  split; [rewrite Est; by apply stat_remove|]. split; [|done].
  intros name f Hf. rewrite Hv', remove_lookup, <- map_app. destruct (oneOfString _ _) eqn:O1.
  - split; [intros _|done]. apply oneOfString_In, in_map_iff in O1 as (j & Ej & Hj). assert (In j (stat_files v)) as Hi.
    { apply list_elem_of_In. rewrite Hp. apply list_elem_of_In, in_or_app. by left. }
    apply stat_files_In in Hi as (g & Hg & Ei & _). rewrite Ej in Hg, Ei. rewrite Hf in Hg. injection Hg as <-. by rewrite <- Ei.
  - rewrite Hf. split; [done|]. intros Hj. exfalso. apply (in_map fi_path), oneOfString_In in Hj. cbn [info fi_path] in Hj. congruence.
Qed.

(** Which side of a cleanup a file is on. *)
Lemma cleanup_sides v v' old pre suf cutoff :
  let stays := List.filter (fun f => negb (removable f)) pre ++ suf in
  stat_files v ≡ₚ (old ++ List.filter removable pre) ++ stays -> stat_files v' ≡ₚ stays ->
  (forall name f, vo_records v !! name = Some f -> vo_records v' !! name = None <-> In (info name f) (old ++ List.filter removable pre)) ->
  (forall f, In f old <-> In f (stat_files v) /\ expires cutoff f = true) ->
  (forall i, In i (stat_files v) <-> In i old \/ In i (List.filter removable pre) \/ In i stays) /\
  (forall i, In i (List.filter removable pre) \/ In i suf -> removable i = true -> cutoff <= fi_mtime i) /\
  (forall name f, left_behind v' name f -> In (info name f) suf) /\
  (forall name f, evicted_by cutoff v v' name f <-> vo_records v !! name = Some f /\ In (info name f) (List.filter removable pre)).
Proof.
  intros stays Hp Hst' Hgone Hold.
  assert (forall i, In i (stat_files v) <-> In i old \/ In i (List.filter removable pre) \/ In i (stays)) as Hall.
  { intros i. rewrite <- list_elem_of_In, Hp, list_elem_of_In, !(in_app_iff _ _ i). tauto. }
  assert (forall i, In i (List.filter removable pre) \/ In i suf -> removable i = true -> cutoff <= fi_mtime i) as Hyoung.
  { intros i Hi Hri. assert (~ In i old) as Hno.
    { pose proof (stat_files_NoDup v) as Hd. rewrite Hp, <- app_assoc in Hd. apply NoDup_app in Hd as (_ & Hd & _). intros Ho. apply (Hd i); [by apply list_elem_of_In|].
      apply list_elem_of_In. unfold stays. rewrite !in_app_iff. tauto. }
    assert (In i (stat_files v)) as Hiv by (apply Hall; unfold stays; rewrite in_app_iff; tauto). destruct (expires cutoff i) eqn:Ex; [by destruct Hno; apply Hold|].
    unfold expires in Ex. unfold removable in Hri. rewrite Hri, andb_true_r in Ex. by apply Z.ltb_ge. }
  assert (forall name f, left_behind v' name f -> In (info name f) suf) as Hleft.
  { intros name f (Hf & Hr & Hs0). assert (In (info name f) (stat_files v')) as Hi by (apply stat_files_In; by exists f).
    rewrite <- list_elem_of_In, Hst', list_elem_of_In in Hi. unfold stays in Hi. rewrite in_app_iff in Hi. destruct Hi as [[_ Hi]%List.filter_In|]; [|done]. unfold removable in Hi. cbn in Hi. by rewrite Hs0 in Hi. }
  assert (forall name f, evicted_by cutoff v v' name f <-> vo_records v !! name = Some f /\ In (info name f) (List.filter removable pre)) as Hev.
  { intros name f. split.
    - intros (Hf & Hn & Hc). apply (Hgone _ _ Hf) in Hn. split; [done|]. apply in_app_iff in Hn as [[_ Ho]%Hold|]; [|done].
      apply andb_true_iff in Ho as [Ho%Z.ltb_lt _]. cbn in Ho. lia.
    - intros [Hf Hi]. split; [done|]. split; [apply (Hgone _ _ Hf), in_app_iff; by right|]. apply (Hyoung (info name f)); [by left|]. by apply List.filter_In in Hi as [_ ?]. }
  done.
Qed.

(** C21. What a [Cleanup] keeps, whether or not it can write its state file: no
    file was changed and only rotated files that could be removed are gone; no
    removable file is older than the retention; the rotated files fit in the
    capacity, or only files that cannot be removed are left; and files were
    evicted for the capacity oldest first, and no more of them than it required:
    with one of them kept, the files would not have fitted. *)
Theorem cleanup_keeps_the_newest tie outcome now clock v st res v' st' :
  s_readOnly st = false -> Cleanup tie outcome now clock v st = (res, v', st') ->
  let cutoff := now - s_retention st in
  (forall name f, vo_records v' !! name = Some f -> vo_records v !! name = Some f) /\
  (forall name f, vo_records v !! name = Some f -> vo_records v' !! name = None -> rotated name = true /\ fl_sticky f = false) /\
  (forall name f, left_behind v' name f -> cutoff <= fl_mtime f) /\
  (total_size (stat_files v') <= s_capacity st \/ forall name f, ~ left_behind v' name f) /\
  (forall name f other g, evicted_by cutoff v v' name f -> left_behind v' other g -> fl_mtime f <= fl_mtime g) /\
  ((forall name f, ~ evicted_by cutoff v v' name f) \/
   exists name f, evicted_by cutoff v v' name f /\ s_capacity st < total_size (stat_files v') + blen (fl_content f)).
Proof.
  intros Hw (expired & evicted & n & Hplan & Hv)%Cleanup_files cutoff; [|done].
  pose proof (cleanup_parts _ _ _ _ _ _ _ _ _ Hplan Hv) as (old & pre & suf & Hst' & Hgone & -> & -> & Hp & Hold & Hord & Hs & Hm). cbv zeta in *.
  assert (forall name f, vo_records v' !! name = Some f -> vo_records v !! name = Some f) as Hsub.
  { intros name f. rewrite Hv, remove_lookup. by destruct (oneOfString _ _). }
  destruct (cleanup_sides v v' old pre suf cutoff Hp Hst' Hgone Hold) as (Hall & Hyoung & Hleft & Hev).
  split; [done|]. split; [|split; [|split; [|split]]].
  - intros name f Hf Hn. apply (Hgone _ _ Hf) in Hn. assert (In (info name f) (stat_files v)) as Hi by (apply Hall; rewrite in_app_iff in Hn; tauto).
    apply stat_files_In in Hi as (_ & _ & _ & Hr). split; [done|]. apply negb_true_iff. apply in_app_iff in Hn as [[_ Ho]%Hold|[_ ?]%List.filter_In]; [|done].
    by apply andb_true_iff in Ho as [_ ?].
  - intros name f Hl. apply (Hyoung (info name f)); [right; by apply Hleft|]. destruct Hl as (_ & _ & Hs0). unfold removable. cbn. by rewrite Hs0.
  - rewrite Hst'. destruct Hs as [->|]; [right; intros name f []%Hleft|by left].
  - intros name f other g [_ Hi]%Hev Hl%Hleft. apply List.filter_In in Hi as [Hi _]. apply (Hord _ _ Hi Hl).
  - destruct Hm as [Hnil|(i & Hi & Hr & Hc)]; [left; intros name f [_ Hi]%Hev; apply map_eq_nil in Hnil; by rewrite Hnil in Hi|right].
    assert (In i (List.filter removable pre)) as Hf by (by apply List.filter_In).
    assert (In i (stat_files v)) as (f & Hl & Ei & _)%stat_files_In by (apply Hall; tauto). exists (fi_path i), f. split; [apply Hev; by rewrite <- Ei|].
    rewrite Hst'. rewrite Ei in Hc. done.
Qed.

End Cleanups.
