(* ===== verification/LogRuns.v ===== *)
(** * Log store: runs

    Three records read in pages of two, a cleanup that evicts, and two runs that
    lose something: a restart and a long line. *)

From Stdlib Require Import ZArith Lia Bool Ascii String.
From stdpp Require Import base tactics list strings gmap sorting.
From S2P Require Import Prelude GoStrings GoText GoFiles GoBase64 GoYaml RoutingRows Securestore SecureFormat Logstore LogTheorems.

Local Open Scope string_scope.
Local Open Scope list_scope.
Local Open Scope bool_scope.
Local Open Scope Z_scope.

#[local] Existing Instance plain_case.

(** ** A format

    A record is a byte for its time and its identifier; a cursor likewise; a
    state is two numbers of fixed width. *)

Definition record_at (t : Z) (id : string) : LogRecord := mkLog id t "info" "host" "n1" "" "" "" "" "" "" "".

Definition record_line (r : LogRecord) : Bytes := chr (lr_Timestamp r) :: bytes (lr_ID r).

Definition state_offset : Z := 2 ^ 70.

#[local] Instance plain_logs : LogLib.
Proof.
  refine {| record_of_json l := match l with b :: id => Some (record_at (code b) (of_bytes id)) | [] => None end;
            json_of_record := record_line;
            cursor_of_json l := match l with b :: id => Some (mkCursor (code b) (of_bytes id)) | [] => None end;
            json_of_cursor c := chr (cu_Timestamp c) :: bytes (cu_ID c);
            state_of_json l := Some (mkState (from_big_endian (take 8 l)) (from_big_endian (drop 8 l) - state_offset));
            json_of_state st := big_endian 8 (ps_CapacityEvictions st) ++ big_endian 9 (ps_LastCleanupAt st + state_offset) |}.
  - intros [|b id] r [= <-]. cbn [cursor_at record_at lr_Timestamp lr_ID cu_Timestamp cu_ID]. by rewrite chr_code, bytes_of_bytes.
  - done.
  - intros [n t] Ht Hn. unfold json_time, second, state_offset in *. cbn [ps_LastCleanupAt ps_CapacityEvictions] in *. f_equal.
    rewrite take_app_length', drop_app_length' by (by rewrite big_endian_length). rewrite !big_endian_decode by (change (256 ^ Z.of_nat 8) with (2 ^ 64); change (256 ^ Z.of_nat 9) with (2 ^ 72); lia).
    f_equal. lia.
Defined.

Definition text_file (mtime : Z) (sticky : bool) (lines : list Bytes) : LogFile :=
  mkLogFile (concat (map (fun l => l ++ [newline_char]) lines)) mtime None sticky.

Definition live (lines : list Bytes) : Volume := mkVolume {[live_file := text_file 0 false lines]} None [].

(** ** Pages *)

Definition three_records : Volume := live (map record_line [record_at 20 "a"; record_at 30 "b"; record_at 20 "c"; record_at 30 "b"]).

Definition two_at_a_time : LogQuery := mkQuery 1 100 "" "" "" "" "" "" "" "" 2 "".

Lemma live_readable lines : readable (live lines).
Proof. intros name f. cbn [live vo_records]. rewrite lookup_singleton_Some. intros [_ <-]. by left. Qed.

Lemma three_small : small three_records.
Proof.
  assert (forallb (fun r => blen (json_of_record r) <=? MaxResponseBytes) (stored three_records) = true) as Hall by (vm_compute; reflexivity).
  intros r Hr. rewrite forallb_forall in Hall. by apply Z.leb_le, Hall.
Qed.

Example three_records_paged :
  read_pages 3 (fun _ => 7) three_records two_at_a_time (newStore DefaultRetention DefaultCapacity true)
  = Some [[record_at 30 "b"; record_at 20 "c"]; [record_at 20 "a"]].
Proof. vm_compute. reflexivity. Qed.

Lemma log_pages_cover_witness :
  exists pages, read_pages (S (length (stored three_records))) (fun _ => 7) three_records two_at_a_time (newStore DefaultRetention DefaultCapacity true) = Some pages /\
    In (record_at 20 "a") (concat pages).
Proof.
  destruct (log_pages_cover three_records (fun _ => 7) 7 two_at_a_time two_at_a_time (newStore DefaultRetention DefaultCapacity true)
              (live_readable _) three_small eq_refl eq_refl eq_refl) as (pages & Hp & _ & _ & _ & _ & Hall).
  exists pages. split; [exact Hp|]. apply Hall; [apply stored_legible; vm_compute; by left|vm_compute; reflexivity|].
  intros r' Hr'%stored_legible E. vm_compute in Hr'. destruct Hr' as [<-|[<-|[<-|[<-|[]]]]]; [reflexivity|discriminate E|discriminate E|discriminate E].
Defined.

(** ** Cleanup *)

Definition bytes_of_size (n : nat) : list Bytes := [repeat "x"%char n].

(** Four rotated files and the live one: one has expired, one cannot be removed. *)
Definition full_volume : Volume :=
  mkVolume {["log.a.jsonl" := text_file 10 false (bytes_of_size 9); "log.b.jsonl" := text_file 200 true (bytes_of_size 9);
             "log.c.jsonl" := text_file 210 false (bytes_of_size 9); "log.d.jsonl" := text_file 220 false (bytes_of_size 9);
             live_file := text_file 5 false (bytes_of_size 9)]} None [].

Definition full_store : Store := newStore 100 25 false.

Definition cleaned : result string unit * Volume * Store := Cleanup (fun _ => 0) (Ok tt) 250 250 full_volume full_store.

Lemma cleaned_ok : exists v' st', cleaned = (Ok tt, v', st').
Proof. unfold cleaned, Cleanup. cbn [s_readOnly full_store newStore]. destruct (cleanup_plan _ _ _ _ _) as [[expired evicted] n]. cbn [writeState]. by eexists _, _. Qed.

Lemma cleanup_keeps_the_newest_witness :
  exists v' st', cleaned = (Ok tt, v', st') /\ (total_size (stat_files v') <= 25 \/ forall name f, ~ left_behind v' name f).
Proof.
  destruct cleaned_ok as (v' & st' & E). exists v', st'. split; [exact E|].
  destruct (cleanup_keeps_the_newest (fun _ => 0) (Ok tt) 250 250 full_volume full_store (Ok tt) v' st' eq_refl E) as (_ & _ & _ & Hcap & _). exact Hcap.
Defined.

(** The expired file and the oldest removable one are gone. *)
Example cleaned_files : rotated_files (snd (fst cleaned)) = ["log.b.jsonl"; "log.d.jsonl"].
Proof. vm_compute. reflexivity. Qed.

Definition evictions_on_record (v : Volume) : option Z := ps_CapacityEvictions <$> readState v.

(** The collector is restarted: its first cleanup counts from zero and overwrites
    what the volume had on record. *)
Lemma restart_forgets_evictions :
  evictions_on_record (snd (fst cleaned)) = Some 1 /\
  evictions_on_record (snd (fst (Cleanup (fun _ => 0) (Ok tt) 260 260 (snd (fst cleaned)) full_store))) = Some 0.
Proof. split; vm_compute; reflexivity. Qed.

(** ** Long lines *)

(** A line of 64 KiB hides every record behind it, without a malformed line being
    counted. *)
Lemma long_line_hides_the_rest long r :
  maxLineBytes <= blen long -> ~ In newline_char long -> ~ In newline_char (record_line r) ->
  scanFile (fl_content (text_file 0 false [long; record_line r])) = ([], 0).
Proof.
  intros Hl Hn Hr. unfold scanFile. cbn [text_file fl_content map concat].
  assert (raw_lines ((long ++ [newline_char]) ++ (record_line r ++ [newline_char]) ++ []) = [long; record_line r]) as ->.
  { unfold raw_lines. rewrite app_nil_r, <- !app_assoc. cbn [app]. rewrite !split_bytes_cut by done. done. }
  cbn [tokens]. assert ((blen long <? maxLineBytes) = false) as -> by (by apply Z.ltb_ge). done.
Qed.
