(* ===== verification/Sessions.v ===== *)
(** * internal/auth: operator sessions

    A session is a signed text that the browser keeps: nothing is stored.  [sign],
    [Verify], [Login] and [Renew], and the handler [withAuth] (api/http/server.go)
    that puts them together.  HMAC, bcrypt and [encoding/json] on claims are the
    class [SessionLib].  Times are instants in nanoseconds; the whole seconds of
    the lifetime are exact below 2^23 seconds. *)

From Stdlib Require Import ZArith Lia Bool Ascii String.
From stdpp Require Import base tactics list strings.
From S2P Require Import Prelude GoStrings GoText GoFiles GoBase64 RoutingRows Securestore.

Local Open Scope string_scope.
Local Open Scope list_scope.
Local Open Scope bool_scope.
Local Open Scope Z_scope.

Record Claims := mkClaims { cl_CSRF : string; cl_Expires : Z; cl_IssuedAt : Z; cl_Username : string }.

(** What [encoding/json] keeps: texts in UTF-8 and integers that fit. *)
Definition json_claims (c : Claims) : Prop :=
  valid_utf8 (cl_CSRF c) = true /\ valid_utf8 (cl_Username c) = true /\ is_int64 (cl_Expires c) /\ is_int64 (cl_IssuedAt c).

Class SessionLib := {
  json_of_claims : Claims -> Bytes;
  claims_of_json : Bytes -> option Claims;
  hmac_sha256 : Bytes -> Bytes -> Bytes;
  bcrypt_matches : Bytes -> string -> bool;
  claims_read_back : forall c, json_claims c -> claims_of_json (json_of_claims c) = Some c;
  claims_json_nonempty : forall c, json_of_claims c <> [];
  hmac_length : forall key text, blen (hmac_sha256 key text) = 32 }.

Record Service := mkService { sv_key : Bytes; sv_passwordHash : Bytes; sv_ttl : Z; sv_username : string }.

Definition New (username : string) (passwordHash key : Bytes) (ttl : Z) : result string Service :=
  if (TrimSpace username =? "")%string || (blen passwordHash =? 0) || (blen key <? 32) then Err "auth service has incomplete configuration"
  else if ttl <=? 0 then Err "session ttl must be positive"
  else Ok (mkService key passwordHash ttl username).

(** [Time.Unix] and [int64(ttl.Seconds())]. *)
Definition Unix (t : Z) : Z := t / second.

Inductive AuthError := ErrInvalidCredentials | ErrInvalidSession | ErrRandom.

(** [randomToken]; [None] when the source of randomness fails. *)
Definition randomToken (random : option Bytes) : result AuthError string :=
  match random with Some value => Ok (EncodeToString value) | None => Err ErrRandom end.

Section Auth.
Context `{SessionLib}.

Definition sign (s : Service) (claims : Claims) : string :=
  let encoded := EncodeToString (json_of_claims claims) in
  encoded ++ "." ++ EncodeToString (hmac_sha256 (sv_key s) (bytes encoded)).

Definition Login (now : Z) (random : option Bytes) (username password : string) (s : Service) : result AuthError (string * Claims) :=
  if negb (username =? sv_username s)%string || negb (bcrypt_matches (sv_passwordHash s) password) then Err ErrInvalidCredentials
  else match randomToken random with
  | Err e => Err e
  | Ok csrf =>
      let claims := mkClaims csrf (Unix (now + sv_ttl s)) (Unix now) (sv_username s) in
      Ok (sign s claims, claims)
  end.

(** The new token and claims, or nothing before the half of the lifetime. *)
Definition Renew (now : Z) (claims : Claims) (s : Service) : option (string * Claims) :=
  if Unix now <? int64_of (cl_IssuedAt claims + Unix (sv_ttl s) / 2) then None
  else
    let renewed := mkClaims (cl_CSRF claims) (Unix (now + sv_ttl s)) (Unix now) (cl_Username claims) in
    Some (sign s renewed, renewed).

Definition Verify (now : Z) (token : string) (s : Service) : result AuthError Claims :=
  match SplitChar "."%char token with
  | [payload; signature] =>
      if (payload =? "")%string || (signature =? "")%string then Err ErrInvalidSession
      else match DecodeString signature with
      | None => Err ErrInvalidSession
      | Some provided =>
          if negb (beq provided (hmac_sha256 (sv_key s) (bytes payload))) then Err ErrInvalidSession
          else match DecodeString payload with
          | None => Err ErrInvalidSession
          | Some text =>
              match claims_of_json text with
              | None => Err ErrInvalidSession
              | Some claims =>
                  if negb (cl_Username claims =? sv_username s)%string || (cl_CSRF claims =? "")%string || (cl_Expires claims <=? Unix now)
                  then Err ErrInvalidSession else Ok claims
              end
          end
      end
  | _ => Err ErrInvalidSession
  end.

Definition VerifyCSRF (claims : Claims) (token : string) : bool := negb (token =? "")%string && (cl_CSRF claims =? token)%string.

(** [withAuth]: the answer, or the claims the handler is called with and the
    cookie that is set. *)
Inductive answer := Unauthorized | Forbidden | Handled (claims : Claims) (cookie : option string).

Definition withAuth (csrf : bool) (now : Z) (cookie : option string) (header : string) (s : Service) : answer :=
  match cookie with
  | None => Unauthorized
  | Some token =>
      match Verify now token s with
      | Err _ => Unauthorized
      | Ok claims =>
          if csrf && negb (VerifyCSRF claims header) then Forbidden
          else match Renew now claims s with
          | Some (renewed, renewedClaims) => Handled renewedClaims (Some renewed)
          | None => Handled claims None
          end
      end
  end.

End Auth.
