(* ===== verification/SessionTheorems.v ===== *)
(** * Operator sessions: what an accepted request tells, and who stays signed in *)

From Stdlib Require Import ZArith Lia Bool Ascii String.
From stdpp Require Import base tactics list strings sorting.
From S2P Require Import Prelude GoStrings GoText GoFiles GoBase64 RoutingRows Securestore SecureFormat Sessions.

Local Open Scope string_scope.
Local Open Scope list_scope.
Local Open Scope bool_scope.
Local Open Scope Z_scope.

(** ** Texts *)

Lemma ascii_valid s : forallb is_ascii (bytes s) = true -> valid_utf8 s = true.
Proof.
  intros Hs. unfold valid_utf8, json_text, string_of_runes. rewrite (runes_ascii _ Hs). apply String.eqb_eq. rewrite <- (of_bytes_bytes s) at 2. f_equal.
  induction (bytes s) as [|c l IH]; [done|]. cbn. f_equal. apply IH. by apply andb_true_iff in Hs as [_ ?].
Qed.

Lemma Encode_valid l : valid_utf8 (EncodeToString l) = true.
Proof.
  apply ascii_valid. unfold EncodeToString. rewrite bytes_of_bytes. pose proof (sextets_range _ (bytes_are_bytes l)) as Hr.
  assert (forallb (fun n => is_ascii (letter_of n)) (map Z.of_nat (seq 0 64)) = true) as Hall by (vm_compute; reflexivity). rewrite forallb_forall in Hall.
  apply forallb_forall. intros c (n & <- & Hn)%in_map_iff. apply Hall, in_map_iff. rewrite Forall_forall in Hr. specialize (Hr n (proj2 (list_elem_of_In _ _) Hn)).
  unfold is_sextet in Hr. exists (Z.to_nat n). split; [lia|apply in_seq; lia].
Qed.

Lemma Unix_lt a b : Unix a < Unix b -> a < b.
Proof. unfold Unix, second. intros ?. Z.div_mod_to_equations; lia. Qed.

Lemma Unix_shift t k : Unix (t + k * second) = Unix t + k.
Proof. unfold Unix, second. rewrite Z.div_add by lia. done. Qed.

Lemma Unix_mono a b : a <= b -> Unix a <= Unix b.
Proof. intros ?. by apply Z.div_le_mono. Qed.

Lemma Unix_int64 a b : is_int64 a -> is_int64 b -> is_int64 (Unix (a + b)) /\ is_int64 (Unix a).
Proof. unfold is_int64, two63, Unix, second. intros ? ?. split; Z.div_mod_to_equations; lia. Qed.

(** ** Histories *)

Inductive event :=
  | LoggedIn (at_ : Z) (username password : string) (random : option Bytes)
  | Requested (at_ : Z) (csrf : bool) (cookie header : string).

Definition happened (e : event) : Z := match e with LoggedIn t _ _ _ | Requested t _ _ _ => t end.

Section Sessions.
Context `{SessionLib} (s : Service).

(** The claims an event signs. *)
Definition signed_by (e : event) : option Claims :=
  match e with
  | LoggedIn t username password random => match Login t random username password s with Ok (_, c) => Some c | Err _ => None end
  | Requested t csrf cookie header => match withAuth csrf t (Some cookie) header s with Handled c (Some _) => Some c | _ => None end
  end.

(** Newest first. *)
Definition signed (h : list event) : list Claims := omap signed_by h.

(** A text whose signature is right was signed by the service: nobody else has
    the key. *)
Definition authentic (earlier : list event) (token : string) : Prop :=
  forall payload signature, SplitChar "."%char token = [payload; signature] -> DecodeString signature = Some (hmac_sha256 (sv_key s) (bytes payload)) ->
    exists c, In c (signed earlier) /\ payload = EncodeToString (json_of_claims c).

Inductive genuine : list event -> Prop :=
  | genuine_start : genuine []
  | genuine_login t username password random h : genuine h -> is_int64 t -> genuine (LoggedIn t username password random :: h)
  | genuine_request t csrf cookie header h : genuine h -> is_int64 t -> authentic h cookie -> genuine (Requested t csrf cookie header :: h).

(** An accepted request at that time with that token. *)
Definition used (h : list event) (csrf : string) (t : Z) : Prop :=
  exists flag cookie header c new, In (Requested t flag cookie header) h /\ withAuth flag t (Some cookie) header s = Handled c new /\ cl_CSRF c = csrf.

Definition within (a b : Z) : Prop := b < a + sv_ttl s.

Definition pedigree (h : list event) (c : Claims) (issued : Z) : Prop :=
  exists t0 password random times,
    In (LoggedIn t0 (sv_username s) password (Some random)) h /\ bcrypt_matches (sv_passwordHash s) password = true /\
    c = mkClaims (EncodeToString random) (Unix (issued + sv_ttl s)) (Unix issued) (sv_username s) /\ is_int64 issued /\
    Forall (used h (EncodeToString random)) times /\ Sorted within (t0 :: times) /\ last (t0 :: times) = Some issued.

Lemma used_later e h csrf t : used h csrf t -> used (e :: h) csrf t.
Proof. intros (flag & cookie & header & c & new & Hin & Hok). exists flag, cookie, header, c, new. split; [by right|done]. Qed.

Lemma pedigree_later e h c issued : pedigree h c issued -> pedigree (e :: h) c issued.
Proof.
  intros (t0 & password & random & times & Hin & Hb & -> & Hi & Hu & Hs). exists t0, password, random, times. split; [by right|].
  repeat (split; [done|]). split; [|done]. eapply Forall_impl; [exact Hu|]. intros ?. apply used_later.
Qed.

Context (utf8 : valid_utf8 (sv_username s) = true) (lifetime : 0 < sv_ttl s < two63).

Lemma pedigree_json h c issued : pedigree h c issued -> json_claims c.
Proof.
  intros (t0 & password & random & times & _ & _ & -> & Hi & _). unfold json_claims. cbn. destruct (Unix_int64 issued (sv_ttl s)); [done|unfold is_int64; lia|].
  split; [apply Encode_valid|]. done.
Qed.

Lemma Verify_ok t token c : Verify t token s = Ok c ->
  exists payload signature text, SplitChar "."%char token = [payload; signature] /\ DecodeString signature = Some (hmac_sha256 (sv_key s) (bytes payload)) /\
    DecodeString payload = Some text /\ claims_of_json text = Some c /\ cl_Username c = sv_username s /\ cl_CSRF c <> "" /\ Unix t < cl_Expires c.
Proof.
  unfold Verify. destruct (SplitChar _ token) as [|payload [|signature [|]]] eqn:Sp; try done. destruct (_ || _); [done|]. destruct (DecodeString signature) as [provided|] eqn:D; [|done].
  destruct (beq _ _) eqn:B; cbn [negb]; [|done]. apply beq_eq in B as ->. destruct (DecodeString payload) as [text|] eqn:P; [|done].
  destruct (claims_of_json text) as [c'|] eqn:J; [|done]. destruct (_ || _) eqn:G; [done|]. intros [= ->]. apply orb_false_iff in G as [G G3]. apply orb_false_iff in G as [G1 G2].
  apply negb_false_iff, String.eqb_eq in G1. apply String.eqb_neq in G2. apply Z.leb_gt in G3. by exists payload, signature, text.
Qed.

(** What is accepted was signed. *)
Lemma Verify_signed h t token c :
  (forall c', In c' (signed h) -> json_claims c') -> authentic h token -> Verify t token s = Ok c -> In c (signed h) /\ Unix t < cl_Expires c.
Proof.
  intros Hj Ha (payload & signature & text & Hp & Hd & Ht & Hc & _ & _ & He)%Verify_ok. split; [|done]. destruct (Ha _ _ Hp Hd) as (c' & Hin & ->).
  rewrite Decode_Encode in Ht. injection Ht as <-. rewrite claims_read_back in Hc by auto. by injection Hc as <-.
Qed.

Lemma withAuth_handled csrf t cookie header c new :
  withAuth csrf t (Some cookie) header s = Handled c new ->
  exists c0, Verify t cookie s = Ok c0 /\ (csrf = true -> VerifyCSRF c0 header = true) /\ cl_CSRF c = cl_CSRF c0 /\ cl_Username c = cl_Username c0 /\
    (new = None /\ c = c0 \/ new <> None /\ c = mkClaims (cl_CSRF c0) (Unix (t + sv_ttl s)) (Unix t) (cl_Username c0)).
Proof.
  unfold withAuth. destruct (Verify t cookie s) as [c0|]; [|done]. intros E. exists c0. split; [done|]. destruct csrf; cbn [andb] in E.
  - destruct (VerifyCSRF c0 header); [|done]. cbn [negb] in E. split; [done|]. unfold Renew in E. destruct (_ <? _) in E; injection E as <- <-; auto.
  - split; [done|]. unfold Renew in E. destruct (_ <? _) in E; injection E as <- <-; auto.
Qed.

(** The pedigree of a request that is accepted. *)
Lemma request_pedigree h t csrf cookie header c new :
  (forall c', In c' (signed h) -> exists issued, pedigree h c' issued) -> authentic h cookie -> withAuth csrf t (Some cookie) header s = Handled c new ->
  exists c0 issued, pedigree h c0 issued /\ within issued t /\ Verify t cookie s = Ok c0.
Proof.
  intros Hs Ha (c0 & Hv & _)%withAuth_handled. destruct (Verify_signed h t cookie c0) as [Hin Hlt]; [|done|done|].
  { intros c' [issued Hp]%Hs. by eapply pedigree_json. }
  destruct (Hs _ Hin) as [issued Hp]. exists c0, issued. split; [done|]. split; [|done]. destruct Hp as (? & ? & ? & ? & _ & _ & -> & _). cbn in Hlt. by apply Unix_lt.
Qed.

Lemma Sorted_snoc l a b : Sorted within l -> last l = Some a -> within a b -> Sorted within (l ++ [b]).
Proof.
  induction l as [|x l IH]; [done|]. intros [Hl Hx]%Sorted_inv Hlast Hw. destruct l as [|y l]; cbn [app].
  - injection Hlast as ->. repeat constructor. done.
  - constructor; [by apply IH|]. constructor. by inversion Hx.
Qed.

Lemma signed_pedigree h c : genuine h -> In c (signed h) -> exists issued, pedigree h c issued.
Proof.
  intros Hg. revert c. induction Hg as [|t u p r h Hg IH Ht|t csrf cookie header h Hg IH Ht Ha]; intros c; [done| |].
  - cbn [signed omap list_omap signed_by]. destruct (Login t r u p s) as [[token c1]|] eqn:L.
    + intros [<-|Hin]; [|destruct (IH _ Hin) as [i ?]; exists i; by apply pedigree_later]. exists t. unfold Login in L.
      destruct (String.eqb_spec u (sv_username s)) as [->|]; [|done]. destruct (bcrypt_matches _ p) eqn:B; [|done]. destruct r as [random|]; [|done].
      injection L as <- <-. exists t, p, random, []. split; [by left|]. do 3 (split; [done|]). split; [constructor|]. split; [by repeat constructor|done].
    + intros Hin. destruct (IH _ Hin) as [i ?]. exists i. by apply pedigree_later.
  - cbn [signed omap list_omap signed_by]. destruct (withAuth csrf t (Some cookie) header s) as [| |c1 [new|]] eqn:W;
      try (intros Hin; destruct (IH _ Hin) as [i ?]; exists i; by apply pedigree_later).
    intros [<-|Hin]; [|destruct (IH _ Hin) as [i ?]; exists i; by apply pedigree_later]. exists t.
    destruct (request_pedigree h t csrf cookie header c1 (Some new) IH Ha W) as (c0 & issued & Hp & Hw & Hv).
    pose proof (withAuth_handled _ _ _ _ _ _ W) as (c0' & Hv' & _ & Hcs & _ & Hnew). rewrite Hv in Hv'. injection Hv' as <-. destruct Hnew as [[? _]|[_ Hc1]]; [done|].
    apply (pedigree_later (Requested t csrf cookie header)) in Hp as (t0 & password & random & times & Hin & Hb & -> & Hi & Hu & Hs & Hl). cbn in Hcs.
    exists t0, password, random, (times ++ [t]). split; [done|]. split; [done|]. split; [done|]. split; [done|]. split; [|split].
    + apply Forall_app. split; [done|]. apply Forall_singleton. exists csrf, cookie, header, c1, (Some new). split; [by left|done].
    + by apply (Sorted_snoc (t0 :: times) issued).
    + change (t0 :: times ++ [t]) with ((t0 :: times) ++ [t]). apply last_snoc.
Qed.

(** C19. Whoever is let in signed in with the password: behind every request that
    [withAuth] accepts there is a login with the operator's name and a password
    that matches the hash, and since then the session was used in every interval
    as long as its lifetime, each time through an accepted request with the same
    request token; a request that must carry that token carries the one of that
    login.  Assumed is that nobody can sign without the key. *)
Theorem accepted_session_was_logged_in h t csrf cookie header c new :
  genuine h -> authentic h cookie -> withAuth csrf t (Some cookie) header s = Handled c new ->
  exists t0 password random times,
    In (LoggedIn t0 (sv_username s) password (Some random)) h /\ bcrypt_matches (sv_passwordHash s) password = true /\
    cl_Username c = sv_username s /\ cl_CSRF c = EncodeToString random /\ (csrf = true -> header = EncodeToString random) /\
    Forall (used h (EncodeToString random)) times /\ Sorted within (t0 :: times ++ [t]).
Proof.
  intros Hg Ha W. destruct (request_pedigree h t csrf cookie header c new (fun c' => signed_pedigree h c' Hg) Ha W) as (c0 & issued & Hp & Hw & Hv).
  apply withAuth_handled in W as (c0' & Hv' & Hcsrf & Hcs & Hun & _). rewrite Hv in Hv'. injection Hv' as <-.
  destruct Hp as (t0 & password & random & times & Hin & Hb & -> & _ & Hu & Hs & Hl). cbn in Hcs, Hun. exists t0, password, random, times.
  repeat (split; [done|]). split; [|split; [done|by apply (Sorted_snoc (t0 :: times) issued)]].
  intros ->. specialize (Hcsrf eq_refl). apply andb_true_iff in Hcsrf as [_ E%String.eqb_eq]. by cbn in E.
Qed.

(** ** Staying signed in *)

Lemma SplitChar_two c a b : ~ In c (bytes a) -> ~ In c (bytes b) -> SplitChar c (a ++ String c b) = [a; b].
Proof.
  intros Ha Hb. unfold SplitChar. rewrite bytes_app. change (bytes (String c b)) with (c :: bytes b). rewrite split_bytes_cut, split_bytes_end by done.
  cbn [rev app map]. by rewrite !of_bytes_bytes.
Qed.

(** A token that was signed is accepted until it expires. *)
Lemma sign_Verify t c :
  json_claims c -> cl_Username c = sv_username s -> cl_CSRF c <> "" -> Unix t < cl_Expires c -> Verify t (sign s c) s = Ok c.
Proof.
  intros Hj Hu Hc Hx. unfold sign, Verify. set (payload := EncodeToString (json_of_claims c)). set (mac := hmac_sha256 (sv_key s) (bytes payload)).
  change ("." ++ EncodeToString mac)%string with (String "."%char (EncodeToString mac)). rewrite SplitChar_two by apply Encode_no_dot.
  assert (payload <> "") as Hp%String.eqb_neq by (intros E%Encode_empty; by apply claims_json_nonempty in E).
  assert (EncodeToString mac <> "") as Hm%String.eqb_neq.
  { intros E%Encode_empty. pose proof (hmac_length (sv_key s) (bytes payload)) as L. fold mac in L. by rewrite E in L. }
  rewrite Hp, Hm. cbn [orb]. rewrite Decode_Encode. replace (beq _ _) with true by (symmetry; by apply beq_eq). cbn [negb]. unfold payload. rewrite Decode_Encode, claims_read_back by done.
  rewrite Hu, String.eqb_refl. apply String.eqb_neq in Hc. rewrite Hc. assert ((cl_Expires c <=? Unix t) = false) as -> by (by apply Z.leb_gt). done.
Qed.

(** A client that keeps the cookie it was given last. *)
Fixpoint keep_using (cookie csrf : string) (times : list Z) : list answer :=
  match times with
  | [] => []
  | t :: rest =>
      let a := withAuth true t (Some cookie) csrf s in
      a :: keep_using (match a with Handled _ (Some new) => new | _ => cookie end) csrf rest
  end.

Definition half_life : Z := Unix (sv_ttl s) / 2.
Definition soon (a b : Z) : Prop := a <= b <= a + half_life * second.
Definition accepted_as (csrf : string) (a : answer) : Prop := exists c new, a = Handled c new /\ cl_CSRF c = csrf.

Definition issued_at (csrf : string) (issued : Z) : Claims := mkClaims csrf (Unix (issued + sv_ttl s)) (Unix issued) (sv_username s).

Lemma lives_on issued p t :
  second <= sv_ttl s -> (p = issued \/ Unix p < Unix issued + half_life) -> soon p t -> Unix t < Unix (issued + sv_ttl s).
Proof.
  intros Hsec Hp [_ Ht%Unix_mono]. rewrite Unix_shift in Ht. assert (Unix issued + Unix (sv_ttl s) <= Unix (issued + sv_ttl s)) as Hsum.
  { unfold Unix, second. Z.div_mod_to_equations; lia. }
  assert (1 <= Unix (sv_ttl s)) as H1. { unfold Unix, second in *. Z.div_mod_to_equations; lia. }
  unfold half_life in *. destruct Hp as [->|Hp]; Z.div_mod_to_equations; lia.
Qed.

Lemma keep_using_accepted csrf issued p times :
  second <= sv_ttl s -> csrf <> "" -> valid_utf8 csrf = true -> is_int64 issued -> Forall is_int64 times ->
  (p = issued \/ Unix p < Unix issued + half_life) -> Sorted soon (p :: times) ->
  Forall (accepted_as csrf) (keep_using (sign s (issued_at csrf issued)) csrf times).
Proof.
  intros Hsec Hne Hutf. revert issued p. induction times as [|t times IH]; intros issued p Hi Hts Hp Hsorted; [constructor|]. cbn [keep_using].
  apply Sorted_inv in Hsorted as [Hsorted Hhd]. assert (soon p t) as Hpt by (by inversion Hhd). apply Forall_cons in Hts as [Ht Hts].
  assert (is_int64 (sv_ttl s)) as Httl by (unfold is_int64, two63 in *; lia). destruct (Unix_int64 issued (sv_ttl s) Hi Httl) as [Hi1 Hi2].
  assert (Verify t (sign s (issued_at csrf issued)) s = Ok (issued_at csrf issued)) as Hv.
  { apply sign_Verify; [unfold json_claims; cbn; auto|done|done|]. cbn. by apply (lives_on issued p). }
  unfold withAuth. rewrite Hv. assert (VerifyCSRF (issued_at csrf issued) csrf = true) as ->.
  { unfold VerifyCSRF. cbn. rewrite String.eqb_refl. apply String.eqb_neq in Hne. by rewrite Hne. }
  cbn [andb negb]. unfold Renew. cbn [issued_at cl_IssuedAt cl_CSRF cl_Username]. destruct (Z.ltb_spec (Unix t) (int64_of (Unix issued + Unix (sv_ttl s) / 2))) as [Hlt|_].
  - rewrite int64_small in Hlt by (unfold is_int64, two63, Unix, second in *; Z.div_mod_to_equations; lia). constructor; [by eexists _, _|]. apply (IH issued t); [done|done|by right|done].
  - constructor; [by eexists _, _|]. apply (IH t t); [done|done|by left|done].
Qed.

(** C23. Whoever keeps using the console stays signed in: after a login, a client
    that presents the newest cookie it was given and the request token of the
    login is accepted at every request, for ever, as long as no two requests are
    more than half a lifetime apart. *)
Theorem active_session_stays_alive t0 random username password token claims times :
  second <= sv_ttl s -> random <> [] -> Forall is_int64 (t0 :: times) -> Login t0 (Some random) username password s = Ok (token, claims) -> Sorted soon (t0 :: times) ->
  Forall (accepted_as (cl_CSRF claims)) (keep_using token (cl_CSRF claims) times).
Proof.
  intros Hsec Hr [Ht0 Hts]%Forall_cons L Hs. unfold Login in L. destruct (_ || _); [done|]. injection L as <- <-. cbn [cl_CSRF].
  apply (keep_using_accepted (EncodeToString random) t0 t0); auto; [by intros E%Encode_empty|apply Encode_valid].
Qed.

End Sessions.

(** ** Operator sessions: runs *)

(** A format: two numbers of fixed width, a text whose characters are each
    announced, and the rest. *)
Fixpoint announce (l : Bytes) : Bytes := match l with [] => [chr 0] | c :: l' => chr 1 :: c :: announce l' end.

Fixpoint announced (l : Bytes) : Bytes * Bytes :=
  match l with
  | a :: c :: l' => if Ascii.eqb a (chr 1) then let '(x, rest) := announced l' in (c :: x, rest) else ([], c :: l')
  | _ => ([], [])
  end.

Lemma announced_back x rest : announced (announce x ++ rest) = (x, rest).
Proof. induction x as [|c x IH]; [by destruct rest|]. cbn [announce app announced]. rewrite Ascii.eqb_refl, IH. done. Qed.

Definition number (z : Z) : Bytes := big_endian 9 (z + two64).
Definition number_back (l : Bytes) : Z := from_big_endian (take 9 l) - two64.

Lemma number_reads z rest : is_int64 z -> number_back (number z ++ rest) = z /\ drop 9 (number z ++ rest) = rest.
Proof.
  intros Hz. unfold number_back, number. rewrite take_app_length', drop_app_length' by (by rewrite big_endian_length). split; [|done].
  rewrite big_endian_decode; [lia|]. change (256 ^ Z.of_nat 9) with (2 ^ 72). unfold is_int64, two63, two64 in *. lia.
Qed.

#[local] Instance plain_sessions : SessionLib.
Proof.
  refine {| json_of_claims c := number (cl_Expires c) ++ number (cl_IssuedAt c) ++ announce (bytes (cl_CSRF c)) ++ bytes (cl_Username c);
            claims_of_json l := let '(csrf, user) := announced (drop 9 (drop 9 l)) in
                                Some (mkClaims (of_bytes csrf) (number_back l) (number_back (drop 9 l)) (of_bytes user));
            hmac_sha256 _ _ := repeat "h"%char 32;
            bcrypt_matches _ password := (password =? "correct horse")%string |}.
  - intros [csrf e i u] (_ & _ & He & Hi). cbn [cl_CSRF cl_Expires cl_IssuedAt cl_Username] in *.
    destruct (number_reads e (number i ++ announce (bytes csrf) ++ bytes u) He) as [-> ->]. destruct (number_reads i (announce (bytes csrf) ++ bytes u) Hi) as [-> ->].
    rewrite announced_back. by rewrite !of_bytes_bytes.
  - intros c E. apply (f_equal length) in E. rewrite length_app in E. unfold number in E. rewrite big_endian_length in E. cbn in E. lia.
  - done.
Defined.

Definition hour : Z := 3600 * second.

Definition console : Service := mkService (repeat "k"%char 32) (bytes "hash") hour "admin".

Example console_new : New "admin" (bytes "hash") (repeat "k"%char 32) hour = Ok console.
Proof. reflexivity. Qed.

Definition random24 : Bytes := repeat "r"%char 24.

Definition first_login : string * Claims :=
  match Login 0 (Some random24) "admin" "correct horse" console with Ok p => p | Err _ => ("", mkClaims "" 0 0 "") end.

Lemma first_login_ok : Login 0 (Some random24) "admin" "correct horse" console = Ok first_login.
Proof. vm_compute. reflexivity. Qed.

Definition first_history : list event := [LoggedIn 0 "admin" "correct horse" (Some random24)].

Lemma first_cookie_authentic : authentic console first_history (fst first_login).
Proof.
  intros payload signature Hp _. exists (snd first_login). split; [left; reflexivity|].
  assert (SplitChar "."%char (fst first_login) = [EncodeToString (json_of_claims (snd first_login)); EncodeToString (repeat "h"%char 32)]) as E by (vm_compute; reflexivity).
  rewrite E in Hp. by injection Hp as <- _.
Qed.

(** The session is renewed in the second half of the hour. *)
Lemma late_request_handled : exists c new, withAuth true (45 * 60 * second) (Some (fst first_login)) (cl_CSRF (snd first_login)) console = Handled c (Some new).
Proof.
  destruct (withAuth true (45 * 60 * second) (Some (fst first_login)) (cl_CSRF (snd first_login)) console) as [| |c [new|]] eqn:E; [| |by exists c, new|];
    apply (f_equal (fun a => match a with Handled _ (Some _) => true | _ => false end)) in E; vm_compute in E; discriminate E.
Qed.

Lemma hour_lifetime : 0 < sv_ttl console < two63.
Proof. unfold console, hour, second, two63. cbn. lia. Qed.

Lemma accepted_session_was_logged_in_witness :
  exists c new t0 password, withAuth true (45 * 60 * second) (Some (fst first_login)) (cl_CSRF (snd first_login)) console = Handled c (Some new) /\
    exists random, In (LoggedIn t0 "admin" password (Some random)) first_history /\ cl_CSRF (snd first_login) = EncodeToString random.
Proof.
  destruct late_request_handled as (c & new & E). exists c, new.
  destruct (accepted_session_was_logged_in console eq_refl hour_lifetime first_history (45 * 60 * second) true (fst first_login) (cl_CSRF (snd first_login)) c (Some new))
    as (t0 & password & random & times & Hin & _ & _ & _ & Hcsrf & _).
  - apply genuine_login; [apply genuine_start|unfold is_int64, two63; lia].
  - apply first_cookie_authentic.
  - exact E.
  - exists t0, password. split; [exact E|]. exists random. split; [exact Hin|apply Hcsrf; reflexivity].
Defined.

Lemma active_session_stays_alive_witness :
  Forall (accepted_as (cl_CSRF (snd first_login))) (keep_using console (fst first_login) (cl_CSRF (snd first_login)) [25 * 60 * second; 50 * 60 * second; 75 * 60 * second]).
Proof.
  apply (active_session_stays_alive console eq_refl hour_lifetime 0 random24 "admin" "correct horse" (fst first_login) (snd first_login)).
  - unfold console, hour, second. cbn. lia.
  - discriminate.
  - repeat constructor; unfold second, two63; lia.
  - rewrite first_login_ok. reflexivity.
  - repeat (apply Sorted_nil || apply HdRel_nil || apply Sorted_cons || apply HdRel_cons); split; vm_compute; discriminate.
Defined.

(** One request after more than an hour is too late. *)
Example idle_session_expires : keep_using console (fst first_login) (cl_CSRF (snd first_login)) [hour] = [Unauthorized].
Proof. vm_compute. reflexivity. Qed.
