(* ===== verification/ChangePreview.v ===== *)
(** * internal/changepreview: what a new image will do to a service

    [ForImageChange] and its parts, and the endpoint that picks the service and
    its peers (api/http/change_preview.go).  Task counts are 64-bit and wrap; the
    loop over the rounds has fuel. *)

From Stdlib Require Import ZArith Lia Bool Ascii String.
From stdpp Require Import base tactics list strings.
From S2P Require Import Prelude GoStrings GoText GoYaml.

Local Open Scope string_scope.
Local Open Scope list_scope.
Local Open Scope bool_scope.
Local Open Scope Z_scope.

(** ** Data *)

Record UpdateConfig := mkConfig { uc_Parallelism : Z; uc_Delay : Z; uc_FailureAction : string; uc_Monitor : Z; uc_Order : string }.

Record UpdatePolicy := mkPolicy {
  up_Parallelism : Z; up_DelaySeconds : Z; up_FailureAction : string; up_MonitorSecond : Z; up_Order : string; up_Known : bool }.

(** [updatePolicy]: what the engine's configuration says, if there is one. *)
Definition updatePolicy (cfg : option UpdateConfig) : UpdatePolicy :=
  match cfg with
  | None => mkPolicy 0 0 "" 0 "" false
  | Some c => mkPolicy (uc_Parallelism c) (Z.quot (uc_Delay c) (10 ^ 9)) (uc_FailureAction c) (Z.quot (uc_Monitor c) (10 ^ 9)) (uc_Order c) true
  end.

(** The fields of a service a preview reads. *)
Record Service := mkService {
  se_ID : string; se_Name : string; se_Image : string; se_DesiredTasks : Z; se_Constraints : list string; se_Stack : string; se_Update : UpdatePolicy }.

Record Step := mkStep { st_Title : string; st_Detail : string; st_Mark : string }.
Record Consequence := mkConsequence { co_Label : string; co_Value : string; co_Note : string; co_Tone : string }.
Record DiffLine := mkDiff { df_Kind : string; df_Text : string }.

Record Preview := mkPreview {
  pv_Service : string; pv_From : string; pv_To : string; pv_Consequences : list Consequence; pv_Steps : list Step; pv_Rollback : string;
  pv_Diff : list DiffLine; pv_Unknowns : list string }.

(** ** Parts *)

Definition shortImage (image : string) : string :=
  let image := match Cut image "@"%char with Some (before, _) => if (before =? "")%string then image else before | None => image end in
  let slash := LastIndex image "/"%char in
  if 0 <=? slash then of_bytes (drop (Z.to_nat (slash + 1)) (bytes image)) else image.

Definition pluralTasks (n : Z) : string := if n =? 1 then "1 task" else decimal n ++ " tasks".

Definition replacementNote (replicas parallelism : Z) (known : bool) : string :=
  if negb known then "one at a time, which is Docker's default — this service configures none"
  else if (replicas <=? parallelism) && (0 <? replicas) then "all at once, as this service is configured"
  else decimal parallelism ++ " at a time, as this service is configured".

Definition specDiff (service : Service) (newImage : string) : list DiffLine :=
  [ mkDiff "context" "services:"; mkDiff "context" ("  " ++ se_Name service ++ ":"); mkDiff "removed" ("    image: " ++ se_Image service);
    mkDiff "added" ("    image: " ++ newImage) ] ++
  (if 0 <? se_DesiredTasks service
   then [mkDiff "context" "    deploy:"; mkDiff "context" ("      replicas: " ++ decimal (se_DesiredTasks service))] else []) ++
  map (fun c => mkDiff "context" ("      placement: " ++ c)) (se_Constraints service) ++
  (if up_Known (se_Update service) then [mkDiff "context" ("      update: parallelism " ++ decimal (up_Parallelism (se_Update service)))] else []).

Definition rollback `{CaseTable} (service : Service) : string :=
  let u := se_Update service in
  if negb (up_Known u) || (up_FailureAction u =? "")%string
  then "This service configures no failure action, so Docker's default applies: the update PAUSES on failure and the tasks already replaced stay on the new image. Nothing rolls back on its own."
  else
    let action := ToLower (up_FailureAction u) in
    if (action =? "rollback")%string
    then "On failure Swarm rolls the replaced tasks back to " ++ shortImage (se_Image service) ++ " automatically. Nothing proceeds past a failed step."
    else if (action =? "continue")%string
    then "This service is configured to CONTINUE on failure, so a failing task does not stop the rollout. Every task will be replaced whether or not the new image works."
    else "On failure the update pauses and the tasks already replaced stay on the new image. Rolling back is a separate action you have to take.".

(** ** Steps *)

Definition pull_step (newImage : string) : Step :=
  mkStep ("Pull " ++ shortImage newImage) "On each node that will run a replacement task." "before any stop".

Definition start_first_step : Step :=
  mkStep "Start replacements before stopping the old tasks" "This service is configured start-first, so capacity briefly doubles rather than dipping." "start-first".

Definition converged_step : Step := mkStep "Converged" "The previous image is retained for rollback until the next prune." "done".

Definition replace_step (n round : Z) : Step := mkStep ("Replace " ++ pluralTasks n) ("Round " ++ decimal round ++ " of the rollout.") "~30s".

(** What separates a round from the next one. *)
Definition pause_steps (u : UpdatePolicy) (more : bool) : list Step :=
  if up_Known u && (0 <? up_MonitorSecond u) && more
  then [mkStep "Health gate" ("Swarm watches for " ++ decimal (up_MonitorSecond u) ++ "s before continuing.") "gate"]
  else if more && up_Known u && (0 <? up_DelaySeconds u)
  then [mkStep "Wait" (decimal (up_DelaySeconds u) ++ "s between rounds, as configured.") "delay"]
  else [].

(** The loop over the rounds; [None] while it still runs. *)
Fixpoint round_steps (fuel : nat) (u : UpdatePolicy) (replicas batch replaced round : Z) : option (list Step) :=
  match fuel with
  | O => None
  | S fuel' =>
      if negb (replaced <? replicas) then Some []
      else
        let remaining := uint64_of (replicas - replaced) in
        let n := if remaining <? batch then remaining else batch in
        match round_steps fuel' u replicas batch (uint64_of (replaced + batch)) (round + 1) with
        | Some rest => Some (replace_step n round :: pause_steps u (uint64_of (replaced + n) <? replicas) ++ rest)
        | None => None
        end
  end.

Definition steps (fuel : nat) (service : Service) (newImage : string) (replicas parallelism : Z) : option (list Step) :=
  let u := se_Update service in
  let batch := if 0 <? parallelism then parallelism else 1 in
  match round_steps fuel u replicas batch 0 1 with
  | Some rounds => Some (pull_step newImage :: (if up_Known u && EqualFold (up_Order u) "start-first" then [start_first_step] else []) ++ rounds ++ [converged_step])
  | None => None
  end.

(** ** The preview *)

Definition parallelism_of (service : Service) : Z :=
  if up_Known (se_Update service) && (0 <? up_Parallelism (se_Update service)) then up_Parallelism (se_Update service) else 1.

Definition serving (replicas parallelism : Z) : Consequence :=
  let label := "Serving during rollout" in
  if replicas <=? 1 then
    mkConsequence label "no" "This service runs a single task, so replacing it means a gap. Scale to two before deploying if that matters." "caution"
  else if replicas <=? parallelism then
    mkConsequence label "no" ("Parallelism is " ++ decimal parallelism ++ " of " ++ decimal replicas ++ " tasks, so every task is replaced at once.") "caution"
  else mkConsequence label "yes" (decimal (uint64_of (replicas - parallelism)) ++ " of " ++ decimal replicas ++ " tasks keep serving at every point.") "good".

Definition sharing (service : Service) (stackPeers : list Service) : Consequence :=
  let peers := map se_Name (List.filter (fun p => negb (se_ID p =? se_ID service)%string) stackPeers) in
  match peers with
  | [] => mkConsequence "Sharing this stack" "0" "Nothing else is deployed alongside it." ""
  | _ => mkConsequence "Sharing this stack" (decimal (Z.of_nat (length peers)))
           (Join peers ", " ++ " — sharing a stack is evidence of a dependency, not proof of one.") "caution"
  end.

Definition ForImageChange `{CaseTable} (fuel : nat) (service : Service) (newImage : string) (stackPeers : list Service) : option Preview :=
  let replicas := se_DesiredTasks service in
  let parallelism := parallelism_of service in
  match steps fuel service newImage replicas parallelism with
  | None => None
  | Some rollout =>
      Some (mkPreview (se_Name service) (se_Image service) newImage
        [ mkConsequence "Services changed" "1" (se_Name service ++ " only") "";
          mkConsequence "Tasks replaced" (decimal replicas) (replacementNote replicas parallelism (up_Known (se_Update service))) "";
          serving replicas parallelism; sharing service stackPeers ]
        rollout (rollback service) (specDiff service newImage)
        ([ "Whether the new image starts cleanly. That is only knowable by running it, which is what the health gate is for.";
           "Registry authentication, which is untested until the first pull." ] ++
         (if negb (up_Known (se_Update service))
          then ["This service declares no update policy, so Docker's defaults apply. The sequence below is those defaults, not a configuration anyone chose."] else [])))
  end.

(** The endpoint, once the services of the server are known. *)
Definition changePreview `{CaseTable} (fuel : nat) (services : list Service) (id image : string) : result string (option Preview) :=
  if (image =? "")%string then Err "Name the image to preview"
  else match List.find (fun s => (se_ID s =? id)%string || (se_Name s =? id)%string) services with
  | None => Err "No such service on the selected server"
  | Some service =>
      let peers := if (se_Stack service =? "")%string then [] else List.filter (fun s => (se_Stack s =? se_Stack service)%string) services in
      Ok (ForImageChange fuel service image peers)
  end.

(** ** The rollout *)

(** The sizes of the rounds: full batches and what is left. *)
Fixpoint rounds (fuel : nat) (replicas batch : Z) : list Z :=
  match fuel with
  | O => []
  | S fuel' => if replicas <=? 0 then [] else Z.min replicas batch :: rounds fuel' (replicas - batch) batch
  end.

(** The steps of rounds of those sizes, numbered from [first]. *)
Fixpoint rollout_of (u : UpdatePolicy) (first : Z) (sizes : list Z) : list Step :=
  match sizes with
  | [] => []
  | n :: rest => replace_step n first :: pause_steps u (match rest with [] => false | _ => true end) ++ rollout_of u (first + 1) rest
  end.

Definition sum (l : list Z) : Z := foldr Z.add 0 l.

Lemma rounds_sum fuel replicas batch : 1 <= batch -> 0 <= replicas <= Z.of_nat fuel -> sum (rounds fuel replicas batch) = replicas.
Proof.
  intros Hb. revert replicas. induction fuel as [|fuel IH]; intros replicas Hr; cbn [rounds sum foldr]; [lia|]. destruct (Z.leb_spec replicas 0); [simpl; lia|]. cbn [sum foldr].
  destruct (Z.le_gt_cases replicas batch).
  - assert (rounds fuel (replicas - batch) batch = []) as ->; [|simpl; lia]. destruct fuel; [done|]. cbn [rounds]. by destruct (Z.leb_spec (replicas - batch) 0); [|lia].
  - unfold sum in IH. rewrite IH; lia.
Qed.

Lemma rounds_range fuel replicas batch : 1 <= batch -> Forall (fun n => 1 <= n <= Z.min replicas batch) (rounds fuel replicas batch).
Proof.
  intros Hb. revert replicas. induction fuel as [|fuel IH]; intros replicas; cbn [rounds]; [constructor|]. destruct (Z.leb_spec replicas 0); [constructor|]. constructor; [lia|].
  eapply Forall_impl; [apply IH|]. cbn beta. lia.
Qed.

Lemma rounds_more fuel replicas batch : 1 <= batch -> replicas <= Z.of_nat fuel -> (match rounds fuel replicas batch with [] => false | _ => true end) = (0 <? replicas).
Proof. intros Hb Hf. destruct fuel as [|fuel]; cbn [rounds]; [symmetry; apply Z.ltb_ge; lia|]. destruct (Z.leb_spec replicas 0); symmetry; [apply Z.ltb_ge|apply Z.ltb_lt]; lia. Qed.

Lemma full_batches fuel replicas batch first later :
  rounds fuel replicas batch = first ++ later -> later <> [] -> Forall (eq batch) first.
Proof.
  revert replicas first. induction fuel as [|fuel IH]; intros replicas [|n first] E Hl; try constructor; cbn [rounds] in E; [done|by destruct (replicas <=? 0)|..];
    destruct (Z.leb_spec replicas 0); try done; injection E as <- E; [|by eapply IH].
  destruct (Z.le_gt_cases replicas batch); [|lia]. exfalso. apply Hl. destruct fuel as [|fuel]; [by destruct first, later|]. cbn [rounds] in E.
  destruct (Z.leb_spec (replicas - batch) 0); [by destruct first, later|lia].
Qed.

(** Some task serves at every point, or none in some round. *)
Lemma serving_rounds fuel replicas batch :
  1 <= batch -> 0 < replicas <= Z.of_nat fuel -> co_Value (serving replicas batch) = "yes" <-> Forall (fun n => n < replicas) (rounds fuel replicas batch).
Proof.
  intros Hb Hr. unfold serving. assert (replicas <= 1 \/ replicas <= batch -> ~ Forall (fun n => n < replicas) (rounds fuel replicas batch)) as Hno.
  { destruct fuel as [|fuel]; [lia|]. cbn [rounds]. destruct (Z.leb_spec replicas 0); [lia|]. intros Hle [Hn _]%Forall_cons. lia. }
  destruct (Z.leb_spec replicas 1); [split; [done|intros []%Hno; lia]|]. destruct (Z.leb_spec replicas batch); [split; [done|intros []%Hno; lia]|].
  split; [intros _|done]. eapply Forall_impl; [by apply rounds_range|]. cbn beta. lia.
Qed.

Lemma sharing_label service peers : co_Label (sharing service peers) = "Sharing this stack".
Proof. unfold sharing. by destruct (map _ _). Qed.

Lemma serving_label replicas batch : co_Label (serving replicas batch) = "Serving during rollout".
Proof. unfold serving. destruct (_ <=? _); [done|]. by destruct (_ <=? _). Qed.

(** The loop ends, and shows these rounds. *)
Lemma round_steps_rounds fuel u replicas batch replaced round :
  1 <= batch -> 0 <= replaced -> replicas + batch <= two64 -> replicas - replaced <= Z.of_nat fuel ->
  round_steps (S fuel) u replicas batch replaced round = Some (rollout_of u round (rounds fuel (replicas - replaced) batch)).
Proof.
  intros Hb. revert replaced round. induction fuel as [|fuel IH]; intros replaced round Hd H64 Hf.
  - cbn [round_steps rounds rollout_of]. destruct (Z.ltb_spec replaced replicas); [lia|done].
  - cbn [rounds]. remember (S fuel) as k. cbn [round_steps]. destruct (Z.ltb_spec replaced replicas) as [Hlt|Hge]; cbn [negb]; [|by destruct (Z.leb_spec (replicas - replaced) 0); [|lia]].
    destruct (Z.leb_spec (replicas - replaced) 0); [lia|]. subst k. rewrite !uint64_small by (unfold is_uint64, two64 in *; lia).
    set (n := if _ <? _ then _ else _). assert (n = Z.min (replicas - replaced) batch) as -> by (unfold n; destruct (Z.ltb_spec (replicas - replaced) batch); lia).
    rewrite IH by lia. cbn [rollout_of]. replace (replicas - (replaced + batch)) with (replicas - replaced - batch) by lia. do 4 f_equal.
    rewrite rounds_more by lia. rewrite uint64_small by (unfold is_uint64, two64 in *; lia). apply eq_true_iff_eq. rewrite !Z.ltb_lt. lia.
Qed.

(** The policy starts the replacements before it stops the old tasks. *)
Definition starts_first `{CaseTable} (service : Service) : bool :=
  up_Known (se_Update service) && EqualFold (up_Order (se_Update service)) "start-first".

Definition intro_steps `{CaseTable} (service : Service) (newImage : string) : list Step :=
  pull_step newImage :: (if starts_first service then [start_first_step] else []).

Definition well_formed (service : Service) : Prop := 0 <= se_DesiredTasks service /\ se_DesiredTasks service + parallelism_of service <= two64.

Lemma parallelism_pos service : 1 <= parallelism_of service.
Proof. unfold parallelism_of. destruct (up_Known _ && _) eqn:E; [|lia]. apply andb_prop in E as [_ E]. lia. Qed.

(** C24. The preview of a new image exists and tells one rollout, for any number
    of tasks that is not negative and with the parallelism stays below 2^64: its
    steps are the pull, the rounds and the end, the rounds replace every task
    exactly once, in batches of the parallelism (where the preview reads a
    configured 0, which to Docker means all at once, as 1) with only the last one
    smaller, and a pause stands between two rounds and nowhere else.  For a
    service with at least one task that is not replaced start-first, it says
    that the service keeps serving exactly when no round takes all of its
    tasks. *)
Theorem preview_tells_the_rollout `{CaseTable} service newImage peers :
  well_formed service ->
  exists p sizes, ForImageChange (S (Z.to_nat (se_DesiredTasks service))) service newImage peers = Some p /\
    pv_Steps p = intro_steps service newImage ++ rollout_of (se_Update service) 1 sizes ++ [converged_step] /\
    sum sizes = se_DesiredTasks service /\ Forall (fun n => 1 <= n <= parallelism_of service) sizes /\
    (forall first later, sizes = first ++ later -> later <> [] -> Forall (eq (parallelism_of service)) first) /\
    (0 < se_DesiredTasks service -> starts_first service = false ->
     Exists (fun c => co_Label c = "Serving during rollout" /\ co_Value c = "yes") (pv_Consequences p) <-> Forall (fun n => n < se_DesiredTasks service) sizes).
Proof.
  intros [H0 H64]. set (replicas := se_DesiredTasks service) in *. set (batch := parallelism_of service) in *. pose proof (parallelism_pos service) as Hb. fold batch in Hb.
  set (sizes := rounds (Z.to_nat replicas) replicas batch). unfold ForImageChange, steps. fold replicas. fold batch.
  assert ((if 0 <? batch then batch else 1) = batch) as -> by (destruct (Z.ltb_spec 0 batch); lia).
  rewrite (round_steps_rounds (Z.to_nat replicas)) by lia. rewrite Z.sub_0_r. fold sizes. eexists _, sizes. split; [done|]. cbn [pv_Steps pv_Consequences].
  split; [by rewrite app_comm_cons|]. split; [apply rounds_sum; lia|]. pose proof (rounds_range (Z.to_nat replicas) replicas batch Hb) as Hr. fold sizes in Hr.
  split; [eapply Forall_impl; [exact Hr|cbn beta; lia]|]. split; [intros ? ?; apply full_batches|]. intros Hpos _.
  rewrite !Exists_cons, Exists_nil, serving_label, sharing_label. cbn [co_Label]. pose proof (serving_rounds (Z.to_nat replicas) replicas batch Hb ltac:(lia)) as Hs; fold sizes in Hs; rewrite <- Hs.
  split; [intros [[? _]|[[? _]|[[_ ?]|[[? _]|[]]]]]; done|]. intros ?. right. right. by left.
Qed.

(** ** Change previews: runs

    A rolling update, and two previews that do not tell what Swarm will do. *)

#[local] Existing Instance plain_case.

Definition web (replicas : Z) (cfg : option UpdateConfig) : Service :=
  mkService "s1" "shop_web" "registry.example.com/shop/web:1.4@sha256:00" replicas ["node.role==worker"] "shop" (updatePolicy cfg).

Definition by_two : UpdateConfig := mkConfig 2 (5 * 10 ^ 9) "rollback" (30 * 10 ^ 9) "stop-first".

Definition titles (p : option Preview) : list string := match p with Some p => map st_Title (pv_Steps p) | None => [] end.

Example five_tasks_by_two :
  titles (ForImageChange 6 (web 5 (Some by_two)) "registry.example.com/shop/web:1.5" [web 5 (Some by_two)])
  = ["Pull web:1.5"; "Replace 2 tasks"; "Health gate"; "Replace 2 tasks"; "Health gate"; "Replace 1 task"; "Converged"].
Proof. vm_compute. reflexivity. Qed.

Lemma preview_tells_the_rollout_witness :
  exists p sizes, ForImageChange 6 (web 5 (Some by_two)) "registry.example.com/shop/web:1.5" [] = Some p /\
    pv_Steps p = intro_steps (web 5 (Some by_two)) "registry.example.com/shop/web:1.5" ++ rollout_of (updatePolicy (Some by_two)) 1 sizes ++ [converged_step] /\ sum sizes = 5.
Proof.
  destruct (preview_tells_the_rollout (web 5 (Some by_two)) "registry.example.com/shop/web:1.5" []) as (p & sizes & Hp & Hs & Hsum & _).
  - unfold well_formed, two64. vm_compute. split; discriminate.
  - exists p, sizes. split; [exact Hp|]. split; [exact Hs|exact Hsum].
Defined.

Definition values (p : option Preview) (label : string) : list string :=
  match p with Some p => map co_Value (List.filter (fun c => (co_Label c =? label)%string) (pv_Consequences p)) | None => [] end.

(** Parallelism 0 is a policy for Docker: all tasks at once.  The preview replaces
    one at a time and promises that the service keeps serving. *)
Lemma unlimited_parallelism_previewed_as_one :
  let p := ForImageChange 4 (web 3 (Some (mkConfig 0 0 "" 0 ""))) "web:2" [] in
  titles p = ["Pull web:2"; "Replace 1 task"; "Replace 1 task"; "Replace 1 task"; "Converged"] /\ values p "Serving during rollout" = ["yes"].
Proof. vm_compute. split; reflexivity. Qed.

(** A single task that is replaced start-first: the steps say that capacity does
    not dip, the consequences that there is a gap. *)
Lemma start_first_previewed_as_gap :
  let p := ForImageChange 2 (web 1 (Some (mkConfig 1 0 "" 0 "start-first"))) "web:2" [] in
  titles p = ["Pull web:2"; "Start replacements before stopping the old tasks"; "Replace 1 task"; "Converged"] /\ values p "Serving during rollout" = ["no"].
Proof. vm_compute. split; reflexivity. Qed.
