(* ===== verification/AuditLedger.v ===== *)
(** * internal/audit: the audit ledger

    [Record] with its transaction ([insertEvent], [trim]), [Recent] with its two
    reads, [Open] and [Writable], over the tables of migrations/0001_audit.sql.
    [auto_increment] is the counter of the table; values that rolled back
    transactions took are an input.  Texts are compared by the collation of the
    tables, a map is ranged over in any order and copied without aliases. *)

From Stdlib Require Import ZArith Lia Bool Ascii String.
From stdpp Require Import base tactics list strings gmap sorting.
From S2P Require Import Prelude GoStrings GoText Sqlstore RoutingRows.

Local Open Scope string_scope.
Local Open Scope list_scope.
Local Open Scope bool_scope.
Local Open Scope Z_scope.
Local Open Scope tx_scope.

(** ** Data *)

Record AuditEvent := mkEvent {
  ev_Action : string; ev_Actor : string; ev_Detail : option (gmap string string); ev_ID : string; ev_OccurredAt : Z; ev_Outcome : string;
  ev_RequestID : string; ev_Target : string }.

Record EventRow := mkRow {
  er_seq : Z; er_id : string; er_occurred_at : Z; er_actor : string; er_action : string; er_target : string; er_outcome : string; er_request_id : option string }.

Record DetailRow := mkDetail { dr_seq : Z; dr_key : string; dr_value : string }.

Record AuditDB := mkAuditDB { audit_events : list EventRow; audit_event_details : list DetailRow; auto_increment : Z }.

Inductive aerr := AuditServer (code : Z) | AuditTimeout | AuditConnection.

#[export] Instance aerr_server : ServerError aerr := {|
  server := AuditServer;
  server_code := fun e => match e with AuditServer c => Some c | _ => None end;
  ctx_done := AuditTimeout;
  lost_connection := AuditConnection;
  server_code_server := fun c => eq_refl;
  server_code_lost := eq_refl |}.

(** [Open]; a store is its bound. *)
Definition Open (db : option AuditDB) (maxEvents : Z) : result string Z :=
  match db with
  | None => Err "audit store requires a database"
  | Some _ => if maxEvents <? 1 then Err "audit retention must be positive" else Ok maxEvents
  end.

Definition nullString (value : string) : option string := if (value =? "")%string then None else Some value.

(** A [CHAR] column drops the blanks at the end. *)
Definition char_column (s : string) : string := of_bytes (rev (drop_char " "%char (rev (bytes s)))).

Section Audit.
Context `{Collation} `{MapOrder}.

(** ** Writing *)

Definition insert_detail (seq : Z) (kv : string * string) : tx AuditDB aerr unit :=
  db <- tx_get ;;
  tx_guard (valid_utf8 (fst kv) && valid_utf8 (snd kv)) (server ErrIncorrectString) ;;;
  tx_guard (varchar 190 (fst kv) && (len (snd kv) <=? 65535)) (server ErrDataTooLong) ;;;
  tx_guard (negb (existsb (fun r => (dr_seq r =? seq) && ceq (fst kv) (dr_key r)) (audit_event_details db))) (server ErrDuplicateEntry) ;;;
  tx_modify (fun db => mkAuditDB (audit_events db) (audit_event_details db ++ [mkDetail seq (fst kv) (snd kv)]) (auto_increment db)).

Fixpoint insert_details (seq : Z) (kvs : list (string * string)) : tx AuditDB aerr unit :=
  match kvs with
  | [] => tx_ret tt
  | kv :: rest => insert_detail seq kv ;;; insert_details seq rest
  end.

Definition event_row (seq : Z) (event : AuditEvent) : EventRow :=
  mkRow seq (char_column (ev_ID event)) (ev_OccurredAt event) (ev_Actor event) (ev_Action event) (ev_Target event) (ev_Outcome event) (nullString (ev_RequestID event)).

(** [gap]: how many values of the counter were lost meanwhile. *)
Definition insertEvent (gap : nat) (event : AuditEvent) : tx AuditDB aerr unit :=
  db <- tx_get ;;
  let seq := auto_increment db + Z.of_nat gap in
  tx_guard (forallb valid_utf8 [ev_ID event; ev_Actor event; ev_Action event; ev_Target event; ev_Outcome event; ev_RequestID event]) (server ErrIncorrectString) ;;;
  tx_guard (varchar 32 (char_column (ev_ID event)) && varchar 190 (ev_Actor event) && varchar 190 (ev_Action event) && varchar 512 (ev_Target event)
            && varchar 64 (ev_Outcome event) && varchar 128 (ev_RequestID event)) (server ErrDataTooLong) ;;;
  tx_guard (negb (existsb (fun r => ceq (char_column (ev_ID event)) (er_id r)) (audit_events db))) (server ErrDuplicateEntry) ;;;
  tx_modify (fun db => mkAuditDB (audit_events db ++ [event_row seq event]) (audit_event_details db) (seq + 1)) ;;;
  insert_details seq (match ev_Detail event with Some m => ranged m | None => [] end).

(** [ORDER BY seq DESC]. *)
Definition newest_first (db : AuditDB) : list EventRow := rev (order_by (fun r => (er_seq r, 0)) (audit_events db)).

(** The details of a deleted event go with it. *)
Definition delete_upto (boundary : Z) (db : AuditDB) : AuditDB :=
  mkAuditDB (sql_delete (fun r => er_seq r <=? boundary) (audit_events db)) 
    (sql_delete (fun d => sql_exists (fun r => (er_seq r <=? boundary) && (er_seq r =? dr_seq d)) (audit_events db)) (audit_event_details db)) (auto_increment db).

Definition trim (maxEvents : Z) : tx AuditDB aerr unit :=
  db <- tx_get ;;
  match drop (Z.to_nat maxEvents) (newest_first db) with
  | [] => tx_ret tt
  | r :: _ => tx_modify (delete_upto (er_seq r))
  end.

(** The event as it is saved: an identifier and a time are supplied when missing. *)
Definition prepared (now : Z) (newID : option string) (event : AuditEvent) : option AuditEvent :=
  match (if (ev_ID event =? "")%string then newID else Some (ev_ID event)) with
  | None => None
  | Some id =>
      let at_ := if IsZero (ev_OccurredAt event) then now else ev_OccurredAt event in
      Some (mkEvent (ev_Action event) (ev_Actor event) (ev_Detail event) id (timestamp_of at_) (ev_Outcome event) (ev_RequestID event) (ev_Target event))
  end.

(** [Record]. *)
Definition RecordEvent (maxEvents now : Z) (newID : option string) (gap : nat) (vs : list verdict) (event : AuditEvent) (db : AuditDB) : result string AuditEvent * AuditDB :=
  match prepared now newID event with
  | None => (Err "generate audit id", db)
  | Some e =>
      match WithTx vs (insertEvent gap e ;;; trim maxEvents) db with
      | (Ok _, db') => (Ok e, db')
      | (Err _, db') => (Err "save audit event", db')
      end
  end.

(** ** Reading *)

Definition event_of_row (r : EventRow) : AuditEvent :=
  mkEvent (er_action r) (er_actor r) None (er_id r) (er_occurred_at r) (er_outcome r) (default "" (er_request_id r)) (er_target r).

Definition with_detail (d : DetailRow) (e : AuditEvent) : AuditEvent :=
  mkEvent (ev_Action e) (ev_Actor e) (Some (<[dr_key d := dr_value d]> (default ∅ (ev_Detail e)))) (ev_ID e) (ev_OccurredAt e) (ev_Outcome e) (ev_RequestID e) (ev_Target e).

(** One row of the second read, put where its event is: [bySeq]. *)
Definition attach (items : list (Z * AuditEvent)) (d : DetailRow) : list (Z * AuditEvent) :=
  map (fun it => if fst it =? dr_seq d then (fst it, with_detail d (snd it)) else it) items.

(** [Recent]: the events come from one state of the database, the details from a
    later one; [fails] says which read fails. *)
Definition Recent (limit : Z) (fails : bool * bool) (db later : AuditDB) : result string (list AuditEvent) :=
  if limit <? 1 then Ok []
  else if fst fails then Err "read audit log"
  else
    let rows := take (Z.to_nat (Z.min limit 500)) (newest_first db) in
    let items := map (fun r => (er_seq r, event_of_row r)) rows in
    match rows with
    | [] => Ok []
    | _ =>
        if snd fails then Err "read audit details"
        else Ok (map snd (foldl attach items (sql_where (fun d => existsb (fun r => er_seq r =? dr_seq d) rows) (audit_event_details later))))
    end.

Definition Writable (ready : bool) : result string unit := if ready then Ok tt else Err "open audit log".

End Audit.
