(* ===== verification/AuditTheorems.v ===== *)
(** * Audit ledger: the newest events, newest first *)

From Stdlib Require Import ZArith Lia Bool Ascii String.
From stdpp Require Import base tactics list strings gmap sorting.
From S2P Require Import Prelude GoStrings GoText Sqlstore RoutingRows AuditLedger.

Local Open Scope string_scope.
Local Open Scope list_scope.
Local Open Scope bool_scope.
Local Open Scope Z_scope.
Local Open Scope tx_scope.

(** ** Rows in order *)

Definition older (a b : EventRow) : Prop := er_seq a < er_seq b.

Record audit_ok (db : AuditDB) : Prop := {
  ao_sorted : StronglySorted older (audit_events db);
  ao_below : Forall (fun r => er_seq r < auto_increment db) (audit_events db);
  ao_details : Forall (fun d => exists r, In r (audit_events db) /\ er_seq r = dr_seq d) (audit_event_details db) }.

Lemma newest_first_rev db : audit_ok db -> newest_first db = rev (audit_events db).
Proof.
  intros [Hs _ _]. unfold newest_first. rewrite order_by_id; [done|]. induction Hs as [|x l _ IH Hx]; constructor; [done|].
  eapply Forall_impl; [exact Hx|]. intros y Hy. unfold older, key_le, lex_le in *. cbn. apply orb_true_iff. left. by apply Z.ltb_lt.
Qed.

(** Deleting up to a row leaves the rows behind it. *)
Lemma delete_upto_rows pre r suf :
  StronglySorted older (pre ++ r :: suf) -> sql_delete (fun x => er_seq x <=? er_seq r) (pre ++ r :: suf) = suf.
Proof.
  intros Hs. apply StronglySorted_app in Hs as (Hpre & _ & Hs). inversion Hs as [|? ? _ Hsuf]; subst. unfold sql_delete. rewrite List.filter_app. cbn [List.filter].
  rewrite Z.leb_refl. cbn [negb]. assert (List.filter (fun x => negb (er_seq x <=? er_seq r)) pre = []) as ->.
  { clear -Hpre. induction pre as [|x pre IH]; [done|]. cbn [List.filter]. assert (older x r) as Hx by (apply Hpre; constructor). unfold older in Hx.
    destruct (Z.leb_spec (er_seq x) (er_seq r)); [cbn; apply IH; intros; apply Hpre; [by constructor|done]|lia]. }
  cbn [app]. clear -Hsuf. induction Hsuf as [|x suf Hx _ IH]; [done|]. cbn [List.filter]. unfold older in Hx.
  destruct (Z.leb_spec (er_seq x) (er_seq r)); [lia|]. cbn [negb]. by rewrite IH.
Qed.

(** ** The ledger *)

Definition details_of (db : AuditDB) (seq : Z) : list DetailRow := sql_where (fun d => dr_seq d =? seq) (audit_event_details db).

Definition add_detail (e : AuditEvent) (d : DetailRow) : AuditEvent := with_detail d e.

Definition read_event (db : AuditDB) (r : EventRow) : AuditEvent := foldl add_detail (event_of_row r) (details_of db (er_seq r)).

(** What the database says, newest first. *)
Definition ledger (db : AuditDB) : list AuditEvent := map (read_event db) (rev (audit_events db)).

Lemma attach_all ds items :
  map snd (foldl attach items ds) = map (fun it => foldl add_detail (snd it) (List.filter (fun d => dr_seq d =? fst it) ds)) items.
Proof.
  revert items. induction ds as [|d ds IH]; intros items; [done|]. cbn [foldl]. rewrite IH. unfold attach. rewrite map_map. apply map_ext. intros [seq e]. cbn [fst snd List.filter].
  rewrite (Z.eqb_sym seq). destruct (dr_seq d =? seq); done.
Qed.

Lemma filter_filter_imp {A} (f g : A -> bool) l : (forall x, f x = true -> g x = true) -> List.filter f (List.filter g l) = List.filter f l.
Proof.
  intros Hfg. induction l as [|x l IH]; [done|]. cbn [List.filter]. destruct (g x) eqn:G; cbn [List.filter]; [by rewrite IH|].
  destruct (f x) eqn:F; [|done]. rewrite (Hfg _ F) in G. done.
Qed.

(** [Recent] reads the start of the ledger. *)
Lemma Recent_ledger limit db : audit_ok db -> Recent limit (false, false) db db = Ok (take (Z.to_nat (Z.min limit 500)) (ledger db)).
Proof.
  intros Hok. unfold Recent, ledger. cbn [fst snd]. destruct (Z.ltb_spec limit 1); [by replace (Z.to_nat (Z.min limit 500)) with 0%nat by lia|].
  rewrite newest_first_rev by done. set (rows := take _ (rev (audit_events db))).
  assert (take (Z.to_nat (Z.min limit 500)) (map (read_event db) (rev (audit_events db))) = map (read_event db) rows) as -> by (symmetry; apply (fmap_take (read_event db))).
  destruct rows as [|r0 rows0] eqn:E; [done|]. rewrite <- E. f_equal. rewrite attach_all, map_map. cbn [fst snd]. apply map_ext_in. intros r Hr. unfold read_event, details_of. f_equal.
  apply filter_filter_imp. intros d Hd%Z.eqb_eq. apply existsb_exists. exists r. split; [done|]. by apply Z.eqb_eq.
Qed.

Section Ledger.
Context `{Collation} `{MapOrder}.

(** What is read back of an event: no map for an empty one, and an identifier
    without blanks at its end. *)
Definition as_stored (e : AuditEvent) : AuditEvent :=
  mkEvent (ev_Action e) (ev_Actor e) (match ev_Detail e with Some m => if decide (m = ∅) then None else Some m | None => None end) (char_column (ev_ID e))
    (ev_OccurredAt e) (ev_Outcome e) (ev_RequestID e) (ev_Target e).

Definition event_details (e : AuditEvent) : list (string * string) := match ev_Detail e with Some m => ranged m | None => [] end.

Lemma insert_details_ok seq kvs db u db' :
  insert_details seq kvs db = (Ok u, db') ->
  db' = mkAuditDB (audit_events db) (audit_event_details db ++ map (fun kv => mkDetail seq (fst kv) (snd kv)) kvs) (auto_increment db).
Proof.
  revert db. induction kvs as [|kv kvs IH]; intros db; cbn [insert_details map].
  - intros [= _ <-]. rewrite app_nil_r. by destruct db.
  - unfold insert_detail, tx_bind, tx_get, tx_guard, tx_ret, tx_fail, tx_modify. destruct (_ && _); [|done]. destruct (_ && _); [|done]. destruct (negb _); [|done].
    intros ->%IH. cbn. by rewrite <- app_assoc.
Qed.

Lemma insertEvent_ok gap e db u db' :
  insertEvent gap e db = (Ok u, db') ->
  let seq := auto_increment db + Z.of_nat gap in
  db' = mkAuditDB (audit_events db ++ [event_row seq e]) (audit_event_details db ++ map (fun kv => mkDetail seq (fst kv) (snd kv)) (event_details e)) (seq + 1).
Proof.
  unfold insertEvent, tx_bind at 1 2 3 4 5, tx_get, tx_guard, tx_ret, tx_fail, tx_modify. destruct (forallb _ _); [|done]. destruct (_ && _); [|done]. destruct (negb _); [|done].
  intros ->%insert_details_ok. done.
Qed.

(** Details one by one give the map. *)
Lemma add_details seq kvs e :
  kvs <> [] -> foldl add_detail e (map (fun kv => mkDetail seq (fst kv) (snd kv)) kvs) =
  mkEvent (ev_Action e) (ev_Actor e) (Some (foldl (fun m kv => <[fst kv := snd kv]> m) (default ∅ (ev_Detail e)) kvs)) (ev_ID e) (ev_OccurredAt e) (ev_Outcome e) (ev_RequestID e) (ev_Target e).
Proof.
  revert e. induction kvs as [|kv kvs IH]; intros e Hne; [done|]. cbn [map foldl]. destruct kvs as [|kv' kvs]; [done|]. rewrite IH by done. done.
Qed.

Lemma foldl_insert_map (m : gmap string string) kvs : kvs ≡ₚ map_to_list m -> foldl (fun m kv => <[fst kv := snd kv]> m) ∅ kvs = m.
Proof.
  intros Hp. assert (foldl (fun (m : gmap string string) kv => <[fst kv := snd kv]> m) ∅ kvs = list_to_map (rev kvs)) as ->.
  { clear Hp. induction kvs as [|[k v] kvs IH] using rev_ind; [done|]. rewrite foldl_app, rev_app_distr. cbn. by rewrite IH. }
  rewrite <- (list_to_map_to_list m). apply list_to_map_proper; [|by rewrite <- Permutation_rev].
  rewrite <- Permutation_rev, Hp. apply NoDup_fst_map_to_list.
Qed.

Lemma read_new db seq e :
  Forall (fun d => dr_seq d <> seq) (audit_event_details db) -> default "" (nullString (ev_RequestID e)) = ev_RequestID e ->
  read_event (mkAuditDB (audit_events db ++ [event_row seq e]) (audit_event_details db ++ map (fun kv => mkDetail seq (fst kv) (snd kv)) (event_details e)) (seq + 1)) (event_row seq e)
  = as_stored e.
Proof.
  intros Hd Hr. unfold read_event, details_of, sql_where. cbn [audit_event_details er_seq event_row]. rewrite List.filter_app.
  assert (List.filter (fun d => dr_seq d =? seq) (audit_event_details db) = []) as ->.
  { clear -Hd. induction Hd as [|d ds Hd _ IH]; [done|]. cbn [List.filter]. apply Z.eqb_neq in Hd. by rewrite Hd. }
  assert (forall kvs, List.filter (fun d => dr_seq d =? seq) (map (fun kv => mkDetail seq (fst kv) (snd kv)) kvs) = map (fun kv => mkDetail seq (fst kv) (snd kv)) kvs) as ->.
  { intros kvs. induction kvs as [|kv kvs IH]; [done|]. cbn [map List.filter dr_seq]. by rewrite Z.eqb_refl, IH. }
  cbn [app]. unfold as_stored, event_details. destruct (ev_Detail e) as [m|] eqn:D; [|cbn; unfold event_of_row; cbn; by rewrite Hr].
  pose proof (ranged_perm m) as Hp. destruct (decide (m = ∅)) as [->|Hne].
  - rewrite map_to_list_empty in Hp. apply Permutation_nil_r in Hp. rewrite Hp. cbn. unfold event_of_row. cbn. by rewrite Hr.
  - rewrite add_details. { cbn. rewrite (foldl_insert_map m) by done. unfold event_of_row. cbn. by rewrite Hr. }
    intros E. rewrite E in Hp. apply Permutation_nil_l in Hp. apply Hne. by apply map_to_list_empty_iff.
Qed.

Lemma null_default s : default "" (nullString s) = s.
Proof. unfold nullString. by destruct (String.eqb_spec s ""). Qed.

(** ** One event more *)

Lemma insert_ledger gap e db u db' :
  audit_ok db -> insertEvent gap e db = (Ok u, db') -> audit_ok db' /\ ledger db' = as_stored e :: ledger db.
Proof.
  intros [Hs Hb Hd] ->%insertEvent_ok. set (seq := auto_increment db + Z.of_nat gap). assert (Forall (fun r => er_seq r < seq) (audit_events db)) as Hlt.
  { eapply Forall_impl; [exact Hb|]. cbn. lia. }
  assert (Forall (fun d => dr_seq d < seq) (audit_event_details db)) as Hdl.
  { eapply Forall_impl; [exact Hd|]. intros d (r & Hr & <-). rewrite Forall_forall in Hlt. by apply Hlt, list_elem_of_In. }
  split.
  - split; cbn [audit_events audit_event_details auto_increment].
    + apply StronglySorted_app. split; [|split; [done|repeat constructor]]. intros a b Ha Hb'%list_elem_of_singleton. subst b. rewrite Forall_forall in Hlt. by apply Hlt.
    + apply Forall_app. split; [eapply Forall_impl; [exact Hlt|cbn; lia]|]. apply Forall_singleton. cbn. lia.
    + apply Forall_app. split.
      * eapply Forall_impl; [exact Hd|]. intros d (r & Hr & E). exists r. split; [|done]. apply in_or_app. by left.
      * apply Forall_map, Forall_forall. intros kv _. exists (event_row seq e). split; [|done]. apply in_or_app. right. by left.
  - unfold ledger at 1. cbn [audit_events]. rewrite rev_app_distr. cbn [rev app map]. f_equal.
    + apply read_new; [|apply null_default]. eapply Forall_impl; [exact Hdl|]. cbn. lia.
    + apply map_ext_in. intros r Hr. apply in_rev in Hr. unfold read_event, details_of, sql_where. f_equal. cbn [audit_event_details]. rewrite List.filter_app.
      rewrite Forall_forall in Hlt. specialize (Hlt r (proj2 (list_elem_of_In _ _) Hr)).
      assert (List.filter (fun d => dr_seq d =? er_seq r) (map (fun kv => mkDetail seq (fst kv) (snd kv)) (event_details e)) = []) as ->; [|apply app_nil_r].
      induction (event_details e) as [|kv kvs IH]; [done|]. cbn [map List.filter dr_seq]. destruct (Z.eqb_spec seq (er_seq r)); [lia|done].
Qed.

Lemma trim_ledger maxEvents db u db' :
  audit_ok db -> trim maxEvents db = (Ok u, db') -> audit_ok db' /\ ledger db' = take (Z.to_nat maxEvents) (ledger db).
Proof.
  intros Hok. unfold trim, tx_bind, tx_get. rewrite newest_first_rev by done. set (n := Z.to_nat maxEvents). pose proof (take_drop n (rev (audit_events db))) as Hsplit.
  destruct (drop n (rev (audit_events db))) as [|r rest].
  { intros [= _ <-]. split; [done|]. unfold ledger. rewrite app_nil_r in Hsplit. rewrite <- (fmap_take (read_event db)), Hsplit. done. }
  intros [= _ <-]. assert (audit_events db = rev rest ++ r :: rev (take n (rev (audit_events db)))) as Ev.
  { rewrite <- (rev_involutive (audit_events db)) at 1. rewrite <- Hsplit at 1. rewrite rev_app_distr. cbn [rev]. by rewrite <- app_assoc. }
  set (kept := take n (rev (audit_events db))) in *. destruct Hok as [Hs Hb Hd]. pose proof Hs as Hs'. rewrite Ev in Hs'.
  assert (audit_events (delete_upto (er_seq r) db) = rev kept) as Hk. { cbn [delete_upto audit_events]. rewrite Ev. by apply delete_upto_rows. }
  assert (forall x, In x (rev kept) -> In x (audit_events db) /\ er_seq r < er_seq x) as Hin.
  { intros x Hx. split; [rewrite Ev; apply in_or_app; right; by right|]. apply StronglySorted_app in Hs' as (_ & _ & Hs'). inversion Hs' as [|? ? _ Hall]; subst.
    rewrite Forall_forall in Hall. by apply Hall, list_elem_of_In. }
  split.
  - split; rewrite ?Hk.
    + apply StronglySorted_app in Hs' as (_ & _ & Hs'). by inversion Hs'.
    + apply Forall_forall. intros x Hx%list_elem_of_In. rewrite Forall_forall in Hb. by apply Hb, list_elem_of_In, Hin.
    + apply Forall_forall. intros d Hdd%list_elem_of_In. apply List.filter_In in Hdd as [Hdd Hn]. rewrite Forall_forall in Hd. destruct (Hd d (proj2 (list_elem_of_In _ _) Hdd)) as (x & Hx & E).
      exists x. split; [|done]. rewrite <- Hk. apply List.filter_In. split; [done|]. apply negb_true_iff. apply negb_true_iff in Hn. apply not_true_iff_false in Hn. apply not_true_iff_false. intros Hle.
      apply Hn, existsb_exists. exists x. split; [done|]. rewrite Hle. cbn [andb]. by apply Z.eqb_eq.
  - unfold ledger. rewrite Hk, rev_involutive, <- (fmap_take (read_event db)). fold kept. apply map_ext_in. intros x Hx. unfold read_event, details_of. f_equal.
    cbn [delete_upto audit_event_details]. apply filter_filter_imp. intros d Hdx%Z.eqb_eq. apply negb_true_iff, not_true_iff_false. intros (y & Hy & E)%existsb_exists.
    apply andb_true_iff in E as [E1%Z.leb_le E2%Z.eqb_eq]. destruct (Hin x) as [_ Hlt]; [by apply in_rev in Hx|]. lia.
Qed.

(** Some attempt's commit may have been carried out without an acknowledgement. *)
Definition may_be_lost (vs : list verdict) : bool :=
  existsb (fun v => match fate_of v with Unacknowledged => true | _ => false end) vs.

Lemma not_lost vs : may_be_lost vs = false -> acknowledged vs.
Proof.
  unfold may_be_lost, acknowledged. intros Hl. apply Forall_forall. intros v Hv Hu.
  assert (existsb (fun v => match fate_of v with Unacknowledged => true | _ => false end) vs = true) as E; [|congruence].
  apply existsb_exists. exists v. split; [by apply list_elem_of_In|by rewrite Hu].
Qed.

(** The event was inserted and the ledger trimmed. *)
Definition appended (maxEvents : Z) (e : AuditEvent) (db db' : AuditDB) : Prop :=
  ledger db' = take (Z.to_nat maxEvents) (as_stored e :: ledger db) /\ auto_increment db < auto_increment db'.

Lemma trim_counter maxEvents db u db' : trim maxEvents db = (Ok u, db') -> auto_increment db' = auto_increment db.
Proof. unfold trim, tx_bind, tx_get. destruct (drop _ _); by intros [= _ <-]. Qed.

Lemma record_tx maxEvents gap e db u db' :
  audit_ok db -> (insertEvent gap e ;;; trim maxEvents) db = (Ok u, db') -> audit_ok db' /\ appended maxEvents e db db'.
Proof.
  intros Hok W. unfold tx_bind in W. destruct (insertEvent gap e db) as [[u1|] db2] eqn:I; [|done].
  destruct (insert_ledger _ _ _ _ _ Hok I) as [Hok2 El]. destruct (trim_ledger _ _ _ _ Hok2 W) as [Hok' El'].
  split; [done|]. split; [by rewrite El', El|]. rewrite (trim_counter _ _ _ _ W). apply insertEvent_ok in I as ->. cbn [auto_increment]. lia.
Qed.

Lemma RecordEvent_ledger maxEvents now newID gap vs event db res db' :
  audit_ok db -> RecordEvent maxEvents now newID gap vs event db = (res, db') ->
  audit_ok db' /\
  match res with
  | Ok e => appended maxEvents e db db'
  | Err _ => db' = db \/ may_be_lost vs = true /\ exists e, prepared now newID event = Some e /\ appended maxEvents e db db'
  end.
Proof.
  intros Hok. unfold RecordEvent. destruct (prepared now newID event) as [e|]; [|by intros [= <- <-]; auto]. destruct (WithTx _ _ db) as [[u|err] db1] eqn:W.
  - apply WithTx_ok, record_tx in W as [? ?]; [|done]. by intros [= <- <-].
  - intros [= <- <-]. destruct (may_be_lost vs) eqn:L; [|apply WithTx_err_acknowledged in W as ->; [auto|by apply not_lost]].
    apply WithTx_err in W as [->|[_ [u W]]]; [by auto|]. apply record_tx in W as [? ?]; [|done]. eauto 6.
Qed.

(** ** Sequences of events *)

Record call := mkCall { k_now : Z; k_newID : option string; k_gap : nat; k_verdicts : list verdict; k_event : AuditEvent }.

(** The events that were recorded, newest first, and the database.  A call that
    failed recorded its event only when the acknowledgement of a commit was lost
    and the table's counter moved. *)
Definition record_call (maxEvents : Z) (acc : list AuditEvent * AuditDB) (k : call) : list AuditEvent * AuditDB :=
  match RecordEvent maxEvents (k_now k) (k_newID k) (k_gap k) (k_verdicts k) (k_event k) (snd acc) with
  | (Ok e, db') => (e :: fst acc, db')
  | (Err _, db') =>
      (match prepared (k_now k) (k_newID k) (k_event k) with
       | Some e => if may_be_lost (k_verdicts k) && (auto_increment (snd acc) <? auto_increment db') then e :: fst acc else fst acc
       | None => fst acc
       end, db')
  end.

Definition no_events : AuditDB := mkAuditDB [] [] 1.

Lemma appended_ledger maxEvents e recorded db db' :
  ledger db = take (Z.to_nat maxEvents) (map as_stored recorded) -> appended maxEvents e db db' ->
  ledger db' = take (Z.to_nat maxEvents) (map as_stored (e :: recorded)).
Proof.
  intros Hl [-> _]. rewrite Hl. cbn [map]. destruct (Z.to_nat maxEvents) as [|n]; [done|]. cbn [take]. f_equal. rewrite take_take. f_equal. lia.
Qed.

Lemma calls_ledger maxEvents calls acc :
  audit_ok (snd acc) -> ledger (snd acc) = take (Z.to_nat maxEvents) (map as_stored (fst acc)) ->
  let acc' := foldl (record_call maxEvents) acc calls in audit_ok (snd acc') /\ ledger (snd acc') = take (Z.to_nat maxEvents) (map as_stored (fst acc')).
Proof.
  revert acc. induction calls as [|k calls IH]; intros acc Hok Hl; [done|]. cbn [foldl]. apply IH; unfold record_call;
    destruct (RecordEvent _ _ _ _ _ _ _) as [[e|err] db'] eqn:R; apply RecordEvent_ledger in R as [Hok' R]; try done; cbn [fst snd map].
  - by eapply appended_ledger.
  - destruct R as [->|(-> & e & -> & R)].
    + rewrite Z.ltb_irrefl, andb_false_r. by destruct (prepared _ _ _).
    + rewrite (proj2 (Z.ltb_lt _ _) (proj2 R)). by eapply appended_ledger.
Qed.

(** C20. The audit ledger is the list of the newest events: after any sequence of
    [Record] calls, whatever the server does to their transactions, [Recent]
    returns the events that were recorded, newest first and each with its
    details, as many as were asked for, but at most 500 and at most the bound of
    the ledger.  A call that failed left nothing behind, unless it lost the
    acknowledgement of its commit: then its event is there too. *)
Theorem recent_is_the_newest maxEvents calls limit :
  let '(recorded, db) := foldl (record_call maxEvents) ([], no_events) calls in
  audit_ok db /\ Recent limit (false, false) db db = Ok (take (Z.to_nat (Z.min limit (Z.min 500 maxEvents))) (map as_stored recorded)).
Proof.
  destruct (calls_ledger maxEvents calls ([], no_events)) as [Hok Hl]; [repeat constructor|by destruct (Z.to_nat maxEvents)|].
  destruct (foldl _ _ _) as [recorded db]. cbn [fst snd] in *. split; [done|]. rewrite Recent_ledger, Hl, take_take by done. do 2 f_equal. lia.
Qed.

End Ledger.

(** ** Audit ledger: runs *)

#[local] Existing Instance binary_collation.
#[local] Existing Instance list_order.

Definition login_event (id : string) (detail : list (string * string)) : AuditEvent :=
  mkEvent "auth.login" "admin" (Some (list_to_map detail)) id 5000 "success" "" "session".

(** Three events in a ledger of two; the second transaction deadlocks once, the
    last event has an identifier that is taken. *)
Definition four_calls : list call :=
  [ mkCall 0 None 0 [] (login_event "a" [("node", "n1")]); mkCall 0 None 0 [deadlocks] (login_event "b" [("node", "n2")]);
    mkCall 0 (Some "c") 3 [] (login_event "" []); mkCall 0 None 0 [] (login_event "c" []) ].

Definition after (calls : list call) : AuditDB := snd (foldl (record_call 2) ([], no_events) calls).

Definition shown (r : result string (list AuditEvent)) : list (string * option (list (string * string))) :=
  match r with Ok l => map (fun e => (ev_ID e, map_to_list <$> ev_Detail e)) l | Err _ => [] end.

(** A commit whose acknowledgement is lost is reported as an error, and is there. *)
Example unacknowledged_event_is_recorded :
  let k := mkCall 0 None 0 [mkVerdict Unacknowledged false] (login_event "a" []) in
  fst (RecordEvent 2 0 None 0 (k_verdicts k) (k_event k) no_events) = Err "save audit event" /\
  shown (Recent 10 (false, false) (after [k]) (after [k])) = [("a", None)].
Proof. split; vm_compute; reflexivity. Qed.

Example two_newest : shown (Recent 10 (false, false) (after four_calls) (after four_calls)) = [("c", None); ("b", Some [("node", "n2")])].
Proof. vm_compute. reflexivity. Qed.

(** The two reads are not one transaction: an event that another call trims in
    between is shown without its details. *)
Lemma trimmed_between_reads :
  shown (Recent 10 (false, false) (after (take 2 four_calls)) (after (take 2 four_calls))) = [("b", Some [("node", "n2")]); ("a", Some [("node", "n1")])] /\
  shown (Recent 10 (false, false) (after (take 2 four_calls)) (after (take 3 four_calls))) = [("b", Some [("node", "n2")]); ("a", None)].
Proof. split; vm_compute; reflexivity. Qed.
