(* ===== verification/GoRegexp.v ===== *)
(** * Regular expressions of package [regexp]

    The anchored patterns the program uses, over ASCII character classes, and
    their matching by derivatives.  [language] says what a pattern means;
    [matches_language] that matching decides it. *)

From Stdlib Require Import ZArith Lia Bool Ascii String.
From stdpp Require Import base tactics list strings.
From S2P Require Import Prelude GoStrings GoText.

Local Open Scope string_scope.
Local Open Scope list_scope.
Local Open Scope bool_scope.

Inductive re :=
  | Empty
  | Eps
  | Class (f : ascii -> bool)
  | Seq (a b : re)
  | Alt (a b : re)
  | Star (a : re).

(** ** Patterns *)

Fixpoint word (l : list ascii) : re := match l with [] => Eps | c :: l' => Seq (Class (Ascii.eqb c)) (word l') end.
Definition Word (s : string) : re := word (bytes s).

Definition Opt (a : re) : re := Alt a Eps.

(** [a{0,n}], [a{n}] and [a{m,m+n}]. *)
Fixpoint upto (n : nat) (a : re) : re := match n with O => Eps | S n' => Opt (Seq a (upto n' a)) end.
Fixpoint times (n : nat) (a : re) : re := match n with O => Eps | S n' => Seq a (times n' a) end.
Definition between_times (m n : nat) (a : re) : re := Seq (times m a) (upto n a).

Definition AnyWord (l : list string) : re := foldr (fun s r => Alt (Word s) r) Empty l.

Declare Scope re_scope.
Delimit Scope re_scope with re.
Notation "a · b" := (Seq a b) (at level 41, right associativity) : re_scope.

(** ** Matching *)

Fixpoint nullable (r : re) : bool :=
  match r with
  | Empty | Class _ => false
  | Eps | Star _ => true
  | Seq a b => nullable a && nullable b
  | Alt a b => nullable a || nullable b
  end.

Definition seq (a b : re) : re := match a with Empty => Empty | Eps => b | _ => Seq a b end.
Definition alt (a b : re) : re := match a, b with Empty, _ => b | _, Empty => a | _, _ => Alt a b end.

Fixpoint der (c : ascii) (r : re) : re :=
  match r with
  | Empty | Eps => Empty
  | Class f => if f c then Eps else Empty
  | Seq a b => alt (seq (der c a) b) (if nullable a then der c b else Empty)
  | Alt a b => alt (der c a) (der c b)
  | Star a => seq (der c a) (Star a)
  end.

Fixpoint matches_bytes (r : re) (l : list ascii) : bool :=
  match l with
  | [] => nullable r
  | c :: l' => matches_bytes (der c r) l'
  end.

(** [regexp.MustCompile("^...$").MatchString(s)]. *)
Definition MatchString (r : re) (s : string) : bool := matches_bytes r (bytes s).

(** ** Meaning *)

Inductive language : re -> list ascii -> Prop :=
  | language_eps : language Eps []
  | language_class f c : f c = true -> language (Class f) [c]
  | language_seq a b x y : language a x -> language b y -> language (Seq a b) (x ++ y)
  | language_left a b x : language a x -> language (Alt a b) x
  | language_right a b x : language b x -> language (Alt a b) x
  | language_stop a : language (Star a) []
  | language_more a x y : language a x -> language (Star a) y -> language (Star a) (x ++ y).

#[local] Hint Constructors language : core.

Lemma seq_language a b l : language (seq a b) l <-> language (Seq a b) l.
Proof.
  destruct a; try done; split.
  - intros Hl. inversion Hl.
  - intros Hl. inversion Hl as [| |? ? ? ? Ha| | | |]; subst. inversion Ha.
  - intros Hl. by apply (language_seq Eps b [] l).
  - intros Hl. inversion Hl as [| |? ? ? ? Ha| | | |]; subst. inversion Ha; subst. done.
Qed.

Lemma alt_language a b l : language (alt a b) l <-> language a l \/ language b l.
Proof.
  assert (language (Alt a b) l <-> language a l \/ language b l) as Halt by (split; [intros Hl; inversion Hl; auto|intros []; auto]).
  assert (~ language Empty l) as He by (intros Hl; inversion Hl).
  destruct a; [cbn; tauto|..]; destruct b; cbn; tauto.
Qed.

Lemma nullable_language r : nullable r = true <-> language r [].
Proof.
  induction r as [| |f|a IHa b IHb|a IHa b IHb|a _]; cbn [nullable].
  - split; [done|intros Hl; inversion Hl].
  - split; auto.
  - split; [done|intros Hl; inversion Hl].
  - rewrite andb_true_iff, IHa, IHb. split; [intros [? ?]; by apply (language_seq a b [] [])|].
    intros Hl. inversion Hl as [| |? ? x y Hx Hy E| | | |]; subst. destruct x, y; done.
  - rewrite orb_true_iff, IHa, IHb. split; [intros []; auto|intros Hl; inversion Hl; auto].
  - split; auto.
Qed.

(** A repetition that starts with a character starts with a turn that does. *)
Lemma star_first a c l : language (Star a) (c :: l) <-> exists x y, l = x ++ y /\ language a (c :: x) /\ language (Star a) y.
Proof.
  split; [|by intros (x & y & -> & Hx & Hy); apply (language_more a (c :: x) y)].
  intros Hl. remember (Star a) as r eqn:Er. remember (c :: l) as k eqn:Ek. revert c l Ek. induction Hl as [|f c1 Hf| | | | |a1 x y Hx _ Hy IH]; intros c l Ek; try done.
  injection Er as ->. destruct x as [|c' x]; [by apply IH|]. injection Ek as -> <-. by exists x, y.
Qed.

Lemma der_language r c l : language (der c r) l <-> language r (c :: l).
Proof.
  revert l. induction r as [| |f|a IHa b IHb|a IHa b IHb|a IHa]; intros l; cbn [der].
  - split; intros Hl; inversion Hl.
  - split; intros Hl; inversion Hl.
  - destruct (f c) eqn:F; split; intros Hl; inversion Hl; subst; auto. congruence.
  - rewrite alt_language, seq_language. split.
    + intros [Hl|Hl].
      * inversion Hl as [| |? ? x y Hx Hy| | | |]; subst. apply IHa in Hx. by apply (language_seq a b (c :: x) y).
      * destruct (nullable a) eqn:N; [|inversion Hl]. apply nullable_language in N. apply IHb in Hl. by apply (language_seq a b [] (c :: l)).
    + intros Hl. inversion Hl as [| |? ? x y Hx Hy| | | |]; subst. destruct x as [|c' x]; simplify_list_eq.
      * right. apply nullable_language in Hx. rewrite Hx. by apply IHb.
      * left. constructor; [by apply IHa|done].
  - rewrite alt_language, IHa, IHb. split; [intros []; auto|intros Hl; inversion Hl; auto].
  - rewrite seq_language, star_first. split.
    + intros Hl. inversion Hl as [| |? ? x y Hx Hy| | | |]; subst. exists x, y. split; [done|]. split; [by apply IHa|done].
    + intros (x & y & -> & Hx & Hy). constructor; [by apply IHa|done].
Qed.

(** Matching decides the language. *)
Theorem matches_language r s : MatchString r s = true <-> language r (bytes s).
Proof.
  unfold MatchString. generalize (bytes s). intros l. revert r. induction l as [|c l IH]; intros r; cbn [matches_bytes]; [apply nullable_language|].
  rewrite IH. apply der_language.
Qed.

(** ** Characters *)

Fixpoint letters (r : re) (c : ascii) : bool :=
  match r with
  | Empty | Eps => false
  | Class f => f c
  | Seq a b | Alt a b => letters a c || letters b c
  | Star a => letters a c
  end.

Lemma language_letters r l : language r l -> forallb (letters r) l = true.
Proof.
  assert (forall (f g : ascii -> bool) l, (forall c, f c = true -> g c = true) -> forallb f l = true -> forallb g l = true) as Hw.
  { intros f g k Hfg. rewrite !forallb_forall. intros Hall c Hc. auto. }
  induction 1 as [|f c Hf|a b x y _ IHx _ IHy|a b x _ IH|a b x _ IH|a|a x y _ IHx _ IHy]; cbn [letters forallb].
  - done.
  - by rewrite Hf.
  - rewrite forallb_app. apply andb_true_iff. split; [revert IHx|revert IHy]; apply Hw; intros c Hc; rewrite Hc; [done|apply orb_true_r].
  - revert IH. apply Hw. intros c Hc. by rewrite Hc.
  - revert IH. apply Hw. intros c Hc. rewrite Hc. apply orb_true_r.
  - done.
  - rewrite forallb_app. apply andb_true_iff. split; [exact IHx|exact IHy].
Qed.

(** A text that matches has no character outside the pattern's. *)
Lemma match_no_char r s c : MatchString r s = true -> letters r c = false -> ~ In c (bytes s).
Proof.
  intros Hl%matches_language%language_letters Hc Hin. rewrite forallb_forall in Hl. specialize (Hl c Hin). congruence.
Qed.

(** No text that matches starts with that character. *)
Lemma match_first r s c : MatchString r s = true -> der c r = Empty -> forall rest, s <> String c rest.
Proof. intros Hm Hd rest ->. unfold MatchString in Hm. cbn [bytes list_ascii_of_string matches_bytes] in Hm. change (matches_bytes (der c r) (bytes rest) = true) in Hm. rewrite Hd in Hm. clear -Hm. revert Hm. generalize (bytes rest). intros l. induction l; done. Qed.

Lemma match_nonempty r s : MatchString r s = true -> nullable r = false -> s <> "".
Proof. intros Hm Hn ->. unfold MatchString in Hm. cbn in Hm. congruence. Qed.

(** ** Length *)

Fixpoint longest (r : re) : option nat :=
  match r with
  | Empty | Eps => Some 0%nat
  | Class _ => Some 1%nat
  | Seq a b => match longest a, longest b with Some x, Some y => Some (x + y)%nat | _, _ => None end
  | Alt a b => match longest a, longest b with Some x, Some y => Some (Nat.max x y) | _, _ => None end
  | Star _ => None
  end.

Lemma match_length r s n : MatchString r s = true -> longest r = Some n -> (length (bytes s) <= n)%nat.
Proof.
  intros Hl%matches_language. revert n. induction Hl as [|f c Hf|a b x y _ IHx _ IHy|a b x _ IH|a b x _ IH|a|a x y _ IHx _ IHy]; cbn [longest length]; intros n E; try (injection E as <-; lia); try done.
  - destruct (longest a), (longest b); try done. injection E as <-. rewrite length_app. specialize (IHx _ eq_refl). specialize (IHy _ eq_refl). lia.
  - destruct (longest a), (longest b); try done. injection E as <-. specialize (IH _ eq_refl). lia.
  - destruct (longest a), (longest b); try done. injection E as <-. specialize (IH _ eq_refl). lia.
Qed.
