(* ===== verification/MachineCommands.v ===== *)
(** * internal/agentcontrol: the commands a machine accepts

    A command is a [Request] of a fixed vocabulary.  The controller translates
    the Docker command line it would run into one ([FromDockerCLI]), the machine
    checks it and derives the command line again ([DockerArgs]).  bcrypt's [Cost]
    is the class [BcryptCost].  The texts of refusals of an ingress subnet that
    is not IPv4 are one. *)

From Stdlib Require Import ZArith Lia Bool Ascii String.
From stdpp Require Import base tactics list strings.
From S2P Require Import Prelude GoStrings GoText GoNumbers GoYaml GoRegexp.

Local Open Scope string_scope.
Local Open Scope list_scope.
Local Open Scope bool_scope.
Local Open Scope Z_scope.

(** ** Operations *)

Inductive Operation :=
  | NodeAvailability | ServiceRestart | ServiceRollback | ServiceScale | ServiceLogs | StackConfig | StackDeploy | StackRemove | SecretCreate
  | SecretList | SecretRemove | ConfigCreate | ConfigList | NodeRole | NodeLabelAdd | NodeLabelRemove | NodeRemove | ServiceImage | ServiceLimits
  | ServiceRemove | NetworkCreate | NetworkRemove | NetworkPrune | VolumeCreate | VolumeRemove | VolumePrune | ConfigRemove | ImagePull | ImageRemove
  | ImagePrune | ContainerStart | ContainerStop | ContainerRestart | ContainerRemove | ContainerPrune | BuilderPrune | SwarmTokenRotate | SwarmUpdate.

Definition operation_name (o : Operation) : string :=
  match o with
  | NodeAvailability => "node_availability"
  | ServiceRestart => "service_restart"
  | ServiceRollback => "service_rollback"
  | ServiceScale => "service_scale"
  | ServiceLogs => "service_logs"
  | StackConfig => "stack_config"
  | StackDeploy => "stack_deploy"
  | StackRemove => "stack_remove"
  | SecretCreate => "secret_create"
  | SecretList => "secret_list"
  | SecretRemove => "secret_remove"
  | ConfigCreate => "config_create"
  | ConfigList => "config_list"
  | NodeRole => "node_role"
  | NodeLabelAdd => "node_label_add"
  | NodeLabelRemove => "node_label_remove"
  | NodeRemove => "node_remove"
  | ServiceImage => "service_image"
  | ServiceLimits => "service_limits"
  | ServiceRemove => "service_remove"
  | NetworkCreate => "network_create"
  | NetworkRemove => "network_remove"
  | NetworkPrune => "network_prune"
  | VolumeCreate => "volume_create"
  | VolumeRemove => "volume_remove"
  | VolumePrune => "volume_prune"
  | ConfigRemove => "config_remove"
  | ImagePull => "image_pull"
  | ImageRemove => "image_remove"
  | ImagePrune => "image_prune"
  | ContainerStart => "container_start"
  | ContainerStop => "container_stop"
  | ContainerRestart => "container_restart"
  | ContainerRemove => "container_remove"
  | ContainerPrune => "container_prune"
  | BuilderPrune => "builder_prune"
  | SwarmTokenRotate => "swarm_token_rotate"
  | SwarmUpdate => "swarm_update"
  end.

Definition all_operations : list Operation :=
  [NodeAvailability; ServiceRestart; ServiceRollback; ServiceScale; ServiceLogs; StackConfig; StackDeploy; StackRemove; SecretCreate;
   SecretList; SecretRemove; ConfigCreate; ConfigList; NodeRole; NodeLabelAdd; NodeLabelRemove; NodeRemove; ServiceImage; ServiceLimits;
   ServiceRemove; NetworkCreate; NetworkRemove; NetworkPrune; VolumeCreate; VolumeRemove; VolumePrune; ConfigRemove; ImagePull; ImageRemove;
   ImagePrune; ContainerStart; ContainerStop; ContainerRestart; ContainerRemove; ContainerPrune; BuilderPrune; SwarmTokenRotate; SwarmUpdate].

Definition operation_of (name : string) : option Operation := List.find (fun o => (operation_name o =? name)%string) all_operations.

(** ** Requests *)

Record Request := mkRequest {
  rq_All : bool; rq_Attachable : bool; rq_Availability : string; rq_CPULimit : string; rq_Driver : string; rq_Encrypted : bool; rq_Gateway : string;
  rq_Image : string; rq_Ingress : bool; rq_Internal : bool; rq_Key : string; rq_Limit : Z; rq_MemoryLimit : string; rq_Role : string;
  rq_Value : string; rq_Compose : string; rq_Config : string; rq_Name : string; rq_Operation : string; rq_Replicas : Z;
  rq_ResolveImageChanged : bool; rq_Secret : string; rq_ServiceID : string; rq_Subnet : string; rq_Tail : Z; rq_WithRegistryAuth : bool }.

(** A request with nothing but its operation, and its fields set one by one. *)
Definition request (o : Operation) : Request :=
  mkRequest false false "" "" "" false "" "" false false "" 0 "" "" "" "" "" "" (operation_name o) 0 false "" "" "" 0 false.

Definition set_All (x : bool) (r : Request) : Request :=
  mkRequest x (rq_Attachable r) (rq_Availability r) (rq_CPULimit r) (rq_Driver r) (rq_Encrypted r) (rq_Gateway r) (rq_Image r) (rq_Ingress r) (rq_Internal r) (rq_Key r) (rq_Limit r) (rq_MemoryLimit r) (rq_Role r) (rq_Value r) (rq_Compose r) (rq_Config r) (rq_Name r) (rq_Operation r) (rq_Replicas r) (rq_ResolveImageChanged r) (rq_Secret r) (rq_ServiceID r) (rq_Subnet r) (rq_Tail r) (rq_WithRegistryAuth r).
Definition set_Attachable (x : bool) (r : Request) : Request :=
  mkRequest (rq_All r) x (rq_Availability r) (rq_CPULimit r) (rq_Driver r) (rq_Encrypted r) (rq_Gateway r) (rq_Image r) (rq_Ingress r) (rq_Internal r) (rq_Key r) (rq_Limit r) (rq_MemoryLimit r) (rq_Role r) (rq_Value r) (rq_Compose r) (rq_Config r) (rq_Name r) (rq_Operation r) (rq_Replicas r) (rq_ResolveImageChanged r) (rq_Secret r) (rq_ServiceID r) (rq_Subnet r) (rq_Tail r) (rq_WithRegistryAuth r).
Definition set_Availability (x : string) (r : Request) : Request :=
  mkRequest (rq_All r) (rq_Attachable r) x (rq_CPULimit r) (rq_Driver r) (rq_Encrypted r) (rq_Gateway r) (rq_Image r) (rq_Ingress r) (rq_Internal r) (rq_Key r) (rq_Limit r) (rq_MemoryLimit r) (rq_Role r) (rq_Value r) (rq_Compose r) (rq_Config r) (rq_Name r) (rq_Operation r) (rq_Replicas r) (rq_ResolveImageChanged r) (rq_Secret r) (rq_ServiceID r) (rq_Subnet r) (rq_Tail r) (rq_WithRegistryAuth r).
Definition set_CPULimit (x : string) (r : Request) : Request :=
  mkRequest (rq_All r) (rq_Attachable r) (rq_Availability r) x (rq_Driver r) (rq_Encrypted r) (rq_Gateway r) (rq_Image r) (rq_Ingress r) (rq_Internal r) (rq_Key r) (rq_Limit r) (rq_MemoryLimit r) (rq_Role r) (rq_Value r) (rq_Compose r) (rq_Config r) (rq_Name r) (rq_Operation r) (rq_Replicas r) (rq_ResolveImageChanged r) (rq_Secret r) (rq_ServiceID r) (rq_Subnet r) (rq_Tail r) (rq_WithRegistryAuth r).
Definition set_Driver (x : string) (r : Request) : Request :=
  mkRequest (rq_All r) (rq_Attachable r) (rq_Availability r) (rq_CPULimit r) x (rq_Encrypted r) (rq_Gateway r) (rq_Image r) (rq_Ingress r) (rq_Internal r) (rq_Key r) (rq_Limit r) (rq_MemoryLimit r) (rq_Role r) (rq_Value r) (rq_Compose r) (rq_Config r) (rq_Name r) (rq_Operation r) (rq_Replicas r) (rq_ResolveImageChanged r) (rq_Secret r) (rq_ServiceID r) (rq_Subnet r) (rq_Tail r) (rq_WithRegistryAuth r).
Definition set_Encrypted (x : bool) (r : Request) : Request :=
  mkRequest (rq_All r) (rq_Attachable r) (rq_Availability r) (rq_CPULimit r) (rq_Driver r) x (rq_Gateway r) (rq_Image r) (rq_Ingress r) (rq_Internal r) (rq_Key r) (rq_Limit r) (rq_MemoryLimit r) (rq_Role r) (rq_Value r) (rq_Compose r) (rq_Config r) (rq_Name r) (rq_Operation r) (rq_Replicas r) (rq_ResolveImageChanged r) (rq_Secret r) (rq_ServiceID r) (rq_Subnet r) (rq_Tail r) (rq_WithRegistryAuth r).
Definition set_Gateway (x : string) (r : Request) : Request :=
  mkRequest (rq_All r) (rq_Attachable r) (rq_Availability r) (rq_CPULimit r) (rq_Driver r) (rq_Encrypted r) x (rq_Image r) (rq_Ingress r) (rq_Internal r) (rq_Key r) (rq_Limit r) (rq_MemoryLimit r) (rq_Role r) (rq_Value r) (rq_Compose r) (rq_Config r) (rq_Name r) (rq_Operation r) (rq_Replicas r) (rq_ResolveImageChanged r) (rq_Secret r) (rq_ServiceID r) (rq_Subnet r) (rq_Tail r) (rq_WithRegistryAuth r).
Definition set_Image (x : string) (r : Request) : Request :=
  mkRequest (rq_All r) (rq_Attachable r) (rq_Availability r) (rq_CPULimit r) (rq_Driver r) (rq_Encrypted r) (rq_Gateway r) x (rq_Ingress r) (rq_Internal r) (rq_Key r) (rq_Limit r) (rq_MemoryLimit r) (rq_Role r) (rq_Value r) (rq_Compose r) (rq_Config r) (rq_Name r) (rq_Operation r) (rq_Replicas r) (rq_ResolveImageChanged r) (rq_Secret r) (rq_ServiceID r) (rq_Subnet r) (rq_Tail r) (rq_WithRegistryAuth r).
Definition set_Ingress (x : bool) (r : Request) : Request :=
  mkRequest (rq_All r) (rq_Attachable r) (rq_Availability r) (rq_CPULimit r) (rq_Driver r) (rq_Encrypted r) (rq_Gateway r) (rq_Image r) x (rq_Internal r) (rq_Key r) (rq_Limit r) (rq_MemoryLimit r) (rq_Role r) (rq_Value r) (rq_Compose r) (rq_Config r) (rq_Name r) (rq_Operation r) (rq_Replicas r) (rq_ResolveImageChanged r) (rq_Secret r) (rq_ServiceID r) (rq_Subnet r) (rq_Tail r) (rq_WithRegistryAuth r).
Definition set_Internal (x : bool) (r : Request) : Request :=
  mkRequest (rq_All r) (rq_Attachable r) (rq_Availability r) (rq_CPULimit r) (rq_Driver r) (rq_Encrypted r) (rq_Gateway r) (rq_Image r) (rq_Ingress r) x (rq_Key r) (rq_Limit r) (rq_MemoryLimit r) (rq_Role r) (rq_Value r) (rq_Compose r) (rq_Config r) (rq_Name r) (rq_Operation r) (rq_Replicas r) (rq_ResolveImageChanged r) (rq_Secret r) (rq_ServiceID r) (rq_Subnet r) (rq_Tail r) (rq_WithRegistryAuth r).
Definition set_Key (x : string) (r : Request) : Request :=
  mkRequest (rq_All r) (rq_Attachable r) (rq_Availability r) (rq_CPULimit r) (rq_Driver r) (rq_Encrypted r) (rq_Gateway r) (rq_Image r) (rq_Ingress r) (rq_Internal r) x (rq_Limit r) (rq_MemoryLimit r) (rq_Role r) (rq_Value r) (rq_Compose r) (rq_Config r) (rq_Name r) (rq_Operation r) (rq_Replicas r) (rq_ResolveImageChanged r) (rq_Secret r) (rq_ServiceID r) (rq_Subnet r) (rq_Tail r) (rq_WithRegistryAuth r).
Definition set_Limit (x : Z) (r : Request) : Request :=
  mkRequest (rq_All r) (rq_Attachable r) (rq_Availability r) (rq_CPULimit r) (rq_Driver r) (rq_Encrypted r) (rq_Gateway r) (rq_Image r) (rq_Ingress r) (rq_Internal r) (rq_Key r) x (rq_MemoryLimit r) (rq_Role r) (rq_Value r) (rq_Compose r) (rq_Config r) (rq_Name r) (rq_Operation r) (rq_Replicas r) (rq_ResolveImageChanged r) (rq_Secret r) (rq_ServiceID r) (rq_Subnet r) (rq_Tail r) (rq_WithRegistryAuth r).
Definition set_MemoryLimit (x : string) (r : Request) : Request :=
  mkRequest (rq_All r) (rq_Attachable r) (rq_Availability r) (rq_CPULimit r) (rq_Driver r) (rq_Encrypted r) (rq_Gateway r) (rq_Image r) (rq_Ingress r) (rq_Internal r) (rq_Key r) (rq_Limit r) x (rq_Role r) (rq_Value r) (rq_Compose r) (rq_Config r) (rq_Name r) (rq_Operation r) (rq_Replicas r) (rq_ResolveImageChanged r) (rq_Secret r) (rq_ServiceID r) (rq_Subnet r) (rq_Tail r) (rq_WithRegistryAuth r).
Definition set_Role (x : string) (r : Request) : Request :=
  mkRequest (rq_All r) (rq_Attachable r) (rq_Availability r) (rq_CPULimit r) (rq_Driver r) (rq_Encrypted r) (rq_Gateway r) (rq_Image r) (rq_Ingress r) (rq_Internal r) (rq_Key r) (rq_Limit r) (rq_MemoryLimit r) x (rq_Value r) (rq_Compose r) (rq_Config r) (rq_Name r) (rq_Operation r) (rq_Replicas r) (rq_ResolveImageChanged r) (rq_Secret r) (rq_ServiceID r) (rq_Subnet r) (rq_Tail r) (rq_WithRegistryAuth r).
Definition set_Value (x : string) (r : Request) : Request :=
  mkRequest (rq_All r) (rq_Attachable r) (rq_Availability r) (rq_CPULimit r) (rq_Driver r) (rq_Encrypted r) (rq_Gateway r) (rq_Image r) (rq_Ingress r) (rq_Internal r) (rq_Key r) (rq_Limit r) (rq_MemoryLimit r) (rq_Role r) x (rq_Compose r) (rq_Config r) (rq_Name r) (rq_Operation r) (rq_Replicas r) (rq_ResolveImageChanged r) (rq_Secret r) (rq_ServiceID r) (rq_Subnet r) (rq_Tail r) (rq_WithRegistryAuth r).
Definition set_Compose (x : string) (r : Request) : Request :=
  mkRequest (rq_All r) (rq_Attachable r) (rq_Availability r) (rq_CPULimit r) (rq_Driver r) (rq_Encrypted r) (rq_Gateway r) (rq_Image r) (rq_Ingress r) (rq_Internal r) (rq_Key r) (rq_Limit r) (rq_MemoryLimit r) (rq_Role r) (rq_Value r) x (rq_Config r) (rq_Name r) (rq_Operation r) (rq_Replicas r) (rq_ResolveImageChanged r) (rq_Secret r) (rq_ServiceID r) (rq_Subnet r) (rq_Tail r) (rq_WithRegistryAuth r).
Definition set_Config (x : string) (r : Request) : Request :=
  mkRequest (rq_All r) (rq_Attachable r) (rq_Availability r) (rq_CPULimit r) (rq_Driver r) (rq_Encrypted r) (rq_Gateway r) (rq_Image r) (rq_Ingress r) (rq_Internal r) (rq_Key r) (rq_Limit r) (rq_MemoryLimit r) (rq_Role r) (rq_Value r) (rq_Compose r) x (rq_Name r) (rq_Operation r) (rq_Replicas r) (rq_ResolveImageChanged r) (rq_Secret r) (rq_ServiceID r) (rq_Subnet r) (rq_Tail r) (rq_WithRegistryAuth r).
Definition set_Name (x : string) (r : Request) : Request :=
  mkRequest (rq_All r) (rq_Attachable r) (rq_Availability r) (rq_CPULimit r) (rq_Driver r) (rq_Encrypted r) (rq_Gateway r) (rq_Image r) (rq_Ingress r) (rq_Internal r) (rq_Key r) (rq_Limit r) (rq_MemoryLimit r) (rq_Role r) (rq_Value r) (rq_Compose r) (rq_Config r) x (rq_Operation r) (rq_Replicas r) (rq_ResolveImageChanged r) (rq_Secret r) (rq_ServiceID r) (rq_Subnet r) (rq_Tail r) (rq_WithRegistryAuth r).
Definition set_Replicas (x : Z) (r : Request) : Request :=
  mkRequest (rq_All r) (rq_Attachable r) (rq_Availability r) (rq_CPULimit r) (rq_Driver r) (rq_Encrypted r) (rq_Gateway r) (rq_Image r) (rq_Ingress r) (rq_Internal r) (rq_Key r) (rq_Limit r) (rq_MemoryLimit r) (rq_Role r) (rq_Value r) (rq_Compose r) (rq_Config r) (rq_Name r) (rq_Operation r) x (rq_ResolveImageChanged r) (rq_Secret r) (rq_ServiceID r) (rq_Subnet r) (rq_Tail r) (rq_WithRegistryAuth r).
Definition set_ResolveImageChanged (x : bool) (r : Request) : Request :=
  mkRequest (rq_All r) (rq_Attachable r) (rq_Availability r) (rq_CPULimit r) (rq_Driver r) (rq_Encrypted r) (rq_Gateway r) (rq_Image r) (rq_Ingress r) (rq_Internal r) (rq_Key r) (rq_Limit r) (rq_MemoryLimit r) (rq_Role r) (rq_Value r) (rq_Compose r) (rq_Config r) (rq_Name r) (rq_Operation r) (rq_Replicas r) x (rq_Secret r) (rq_ServiceID r) (rq_Subnet r) (rq_Tail r) (rq_WithRegistryAuth r).
Definition set_Secret (x : string) (r : Request) : Request :=
  mkRequest (rq_All r) (rq_Attachable r) (rq_Availability r) (rq_CPULimit r) (rq_Driver r) (rq_Encrypted r) (rq_Gateway r) (rq_Image r) (rq_Ingress r) (rq_Internal r) (rq_Key r) (rq_Limit r) (rq_MemoryLimit r) (rq_Role r) (rq_Value r) (rq_Compose r) (rq_Config r) (rq_Name r) (rq_Operation r) (rq_Replicas r) (rq_ResolveImageChanged r) x (rq_ServiceID r) (rq_Subnet r) (rq_Tail r) (rq_WithRegistryAuth r).
Definition set_ServiceID (x : string) (r : Request) : Request :=
  mkRequest (rq_All r) (rq_Attachable r) (rq_Availability r) (rq_CPULimit r) (rq_Driver r) (rq_Encrypted r) (rq_Gateway r) (rq_Image r) (rq_Ingress r) (rq_Internal r) (rq_Key r) (rq_Limit r) (rq_MemoryLimit r) (rq_Role r) (rq_Value r) (rq_Compose r) (rq_Config r) (rq_Name r) (rq_Operation r) (rq_Replicas r) (rq_ResolveImageChanged r) (rq_Secret r) x (rq_Subnet r) (rq_Tail r) (rq_WithRegistryAuth r).
Definition set_Subnet (x : string) (r : Request) : Request :=
  mkRequest (rq_All r) (rq_Attachable r) (rq_Availability r) (rq_CPULimit r) (rq_Driver r) (rq_Encrypted r) (rq_Gateway r) (rq_Image r) (rq_Ingress r) (rq_Internal r) (rq_Key r) (rq_Limit r) (rq_MemoryLimit r) (rq_Role r) (rq_Value r) (rq_Compose r) (rq_Config r) (rq_Name r) (rq_Operation r) (rq_Replicas r) (rq_ResolveImageChanged r) (rq_Secret r) (rq_ServiceID r) x (rq_Tail r) (rq_WithRegistryAuth r).
Definition set_Tail (x : Z) (r : Request) : Request :=
  mkRequest (rq_All r) (rq_Attachable r) (rq_Availability r) (rq_CPULimit r) (rq_Driver r) (rq_Encrypted r) (rq_Gateway r) (rq_Image r) (rq_Ingress r) (rq_Internal r) (rq_Key r) (rq_Limit r) (rq_MemoryLimit r) (rq_Role r) (rq_Value r) (rq_Compose r) (rq_Config r) (rq_Name r) (rq_Operation r) (rq_Replicas r) (rq_ResolveImageChanged r) (rq_Secret r) (rq_ServiceID r) (rq_Subnet r) x (rq_WithRegistryAuth r).
Definition set_WithRegistryAuth (x : bool) (r : Request) : Request :=
  mkRequest (rq_All r) (rq_Attachable r) (rq_Availability r) (rq_CPULimit r) (rq_Driver r) (rq_Encrypted r) (rq_Gateway r) (rq_Image r) (rq_Ingress r) (rq_Internal r) (rq_Key r) (rq_Limit r) (rq_MemoryLimit r) (rq_Role r) (rq_Value r) (rq_Compose r) (rq_Config r) (rq_Name r) (rq_Operation r) (rq_Replicas r) (rq_ResolveImageChanged r) (rq_Secret r) (rq_ServiceID r) (rq_Subnet r) (rq_Tail r) x.

(** ** Patterns *)

Definition low (c : ascii) : bool := lower_case c || digit c.
Definition chars (f : ascii -> bool) (more : string) : re := Class (fun c => f c || any_of more c).
Definition nonzero (c : ascii) : bool := between 49 57 (code c).
Definition hexadecimal : re := Class (fun c => digit c || between 97 102 (code c)).
Definition version : re := (Class nonzero · Star (Class digit))%re.
Definition engines : re := AnyWord ["postgres"; "mongo"; "redis"].

Definition referencePattern : re := (Class alnum · upto 127 (chars alnum "._:-"))%re.
Definition stackNamePattern : re := (Class low · upto 62 (chars low "_-"))%re.

Definition managedSecretPattern : re :=
  Alt (Word "swarmops_" · Class low · upto 54 (chars low "_"))%re
  (Alt (Word "traefik_dns_" · Class low · upto 72 (chars low "_") · Word "_v" · version)%re
  (Alt (Word "traefik_dashboard_auth_v" · version)%re
       (Class low · upto 80 (chars low "_-") · Word "_" · engines · Word "_uri_v" · version)%re)).

Definition removableDNSSecret : re :=
  (Word "traefik_dns_" · AnyWord ["cloudflare"; "arvan"] · Word "_" · Class low · upto 62 (chars low "_") · Word "_v" · version)%re.

Definition managedConfigPattern : re :=
  Alt (Word "swarmops_traefik_static_v1_" · times 16 hexadecimal)%re
  (Alt (Word "nim_traefik_dynamic_v" · version)%re
  (Alt (Word "swarmops_" · AnyWord ["prometheus_config"; "prometheus_rules"; "alertmanager_config"; "jaeger_config"; "fluentd_aggregator"; "fluentd_forwarder"]
          · Word "_v" · version)%re
       (Word "swarmops_" · engines · Word "_app_bootstrap_" · times 12 hexadecimal)%re)).

Definition secretValuePattern : re := between_times 16 496 (chars alnum "+/=_.:@?&-").

Definition dashboardAuthPattern : re :=
  (Word "operator:$2" · Class (any_of "aby") · Word "$" · times 2 (Class digit) · Word "$" · times 53 (chars alnum "./"))%re.

Definition resourceNamePattern : re := (Class alnum · upto 62 (chars alnum "_.-"))%re.

Definition imageRefPattern : re :=
  (Class low · Opt (Star (chars low "._:-") · Class low)
   · Star (Word "/" · Class low · Opt (Star (chars low "._-") · Class low))
   · Opt (Word ":" · Class alnum · upto 127 (chars alnum "._-"))
   · Opt (Word "@sha256:" · times 64 hexadecimal))%re.

Definition labelKeyPattern : re := (Class alnum · upto 62 (chars alnum "_./-"))%re.
Definition labelValuePattern : re := (Class alnum · upto 127 (chars alnum "_.:/@ -"))%re.
Definition cpuLimitPattern : re := (Alt (Word "0") (Class nonzero · Opt (Class digit)) · Opt (Word "." · between_times 1 2 (Class digit)))%re.
Definition memoryLimitPattern : re := (Class nonzero · upto 5 (Class digit) · Class (any_of "MG"))%re.

Definition validReference (value : string) : bool := MatchString referencePattern value.
Definition oneOf (value : string) (choices : list string) : bool := oneOfString value choices.

Definition MaxComposeBytes : Z := 2 ^ 20.

Definition validCompose (value : string) : bool := negb ((value =? "")%string || (MaxComposeBytes <? len value)).

(** [strconv.ParseUint(s, 10, 64)]. *)
Definition ParseUint (s : string) : option Z :=
  let l := bytes s in
  if negb (s =? "")%string && forallb digit l && (value_of l <? two64) then Some (value_of l) else None.

(** ** Addresses *)

Definition address_value (ip : list Z) : Z := fold_left (fun acc b => 256 * acc + b) ip 0.

(** [netip.ParseAddr] for an IPv4 address, [netip.ParsePrefix] for an IPv4 prefix. *)
Definition ParseAddr4 (s : string) : option Z := address_value <$> parseIPv4 (bytes s).

Definition ParsePrefix4 (s : string) : option (Z * Z) :=
  let i := LastIndex s "/"%char in
  if i <? 0 then None
  else
    let address := of_bytes (take (Z.to_nat i) (bytes s)) in
    let bits := drop (Z.to_nat (i + 1)) (bytes s) in
    match ParseAddr4 address, bits with
    | Some a, c :: more =>
        if forallb digit bits && negb (Ascii.eqb c "0"%char && negb (Nat.eqb (List.length more) 0)) && (value_of bits <=? 32) then Some (a, value_of bits) else None
    | _, _ => None
    end.

Definition validIngressAddressing (subnet gateway : string) : result string unit :=
  match ParsePrefix4 subnet with
  | None => Err "ingress subnet must be an IPv4 CIDR block"
  | Some (a, bits) =>
      let block := 2 ^ (32 - bits) in
      if negb (a mod block =? 0) then Err "ingress subnet must be the network address of its block"
      else if (bits <? 16) || (28 <? bits) then Err "ingress subnet must be between /16 and /28"
      else match ParseAddr4 gateway with
      | None => Err "ingress gateway must be an IPv4 address"
      | Some g => if negb (g / block =? a / block) || (g =? a) then Err "ingress gateway must be a host address inside the ingress subnet" else Ok tt
      end
  end.

(** ** On the machine: the command line of a request *)

(** The arguments and the standard input. *)
Abbreviation command := (result string (list string * string)).

Definition when (ok : bool) (message : string) (args : list string) (input : string) : command := if ok then Ok (args, input) else Err message.

Class BcryptCost := { bcrypt_Cost : string -> option Z }.

Definition network_args (r : Request) : command :=
  let name := rq_Name r in
  if negb (MatchString resourceNamePattern name) || negb (oneOf (rq_Driver r) ["overlay"; "bridge"]) then Err "invalid network creation"
  else if rq_Ingress r then
    if negb (rq_Driver r =? "overlay")%string || negb (name =? "ingress")%string then Err "the swarm ingress network must be an overlay named ingress"
    else if rq_Attachable r || rq_Internal r || rq_Encrypted r then Err "the swarm ingress network does not accept attachable, internal, or encrypted options"
    else match validIngressAddressing (rq_Subnet r) (rq_Gateway r) with
    | Err e => Err e
    | Ok _ => Ok (["network"; "create"; "--driver"; "overlay"; "--ingress"; "--subnet"; rq_Subnet r; "--gateway"; rq_Gateway r; "ingress"], "")
    end
  else if rq_Encrypted r && negb (rq_Driver r =? "overlay")%string then Err "only overlay networks can be encrypted"
  else Ok (["network"; "create"; "--driver"; rq_Driver r] ++ (if rq_Attachable r then ["--attachable"] else [])
           ++ (if rq_Internal r then ["--internal"] else []) ++ (if rq_Encrypted r then ["--opt"; "encrypted=true"] else []) ++ [name], "").

(** [resourceArgs]; [None] for an operation it does not own. *)
Definition resourceArgs (r : Request) : option command :=
  let id := rq_ServiceID r in
  let name := rq_Name r in
  match operation_of (rq_Operation r) with
  | Some NodeRole => Some (when (oneOf (rq_Role r) ["promote"; "demote"] && validReference id) "invalid node role operation" ["node"; rq_Role r; id] "")
  | Some NodeLabelAdd =>
      Some (when (validReference id && MatchString labelKeyPattern (rq_Key r) && MatchString labelValuePattern (rq_Value r)) "invalid node label operation"
              ["node"; "update"; "--label-add"; (rq_Key r ++ "=" ++ rq_Value r)%string; id] "")
  | Some NodeLabelRemove =>
      Some (when (validReference id && MatchString labelKeyPattern (rq_Key r)) "invalid node label removal" ["node"; "update"; "--label-rm"; rq_Key r; id] "")
  | Some NodeRemove => Some (when (validReference id) "invalid node removal" ["node"; "rm"; "--force"; id] "")
  | Some ServiceImage =>
      Some (when (validReference id && MatchString imageRefPattern (rq_Image r)) "invalid service image operation" ["service"; "update"; "--image"; rq_Image r; id] "")
  | Some ServiceLimits =>
      Some (when (validReference id && MatchString cpuLimitPattern (rq_CPULimit r) && MatchString memoryLimitPattern (rq_MemoryLimit r)) "invalid service limit operation"
              ["service"; "update"; "--limit-cpu"; rq_CPULimit r; "--limit-memory"; rq_MemoryLimit r; id] "")
  | Some ServiceRemove => Some (when (validReference id) "invalid service removal" ["service"; "rm"; id] "")
  | Some NetworkCreate => Some (network_args r)
  | Some NetworkRemove => Some (when (MatchString resourceNamePattern name) "invalid network removal" ["network"; "rm"; name] "")
  | Some NetworkPrune => Some (Ok (["network"; "prune"; "--force"], ""))
  | Some VolumeCreate => Some (when (MatchString resourceNamePattern name) "invalid volume creation" ["volume"; "create"; "--driver"; "local"; name] "")
  | Some VolumeRemove => Some (when (MatchString resourceNamePattern name) "invalid volume removal" ["volume"; "rm"; name] "")
  | Some VolumePrune => Some (Ok (["volume"; "prune"; "--force"], ""))
  | Some ConfigRemove => Some (when (MatchString resourceNamePattern name) "invalid config removal" ["config"; "rm"; name] "")
  | Some ImagePull => Some (when (MatchString imageRefPattern (rq_Image r)) "invalid image pull" ["image"; "pull"; rq_Image r] "")
  | Some ImageRemove => Some (when (MatchString imageRefPattern (rq_Image r)) "invalid image removal" ["image"; "rm"; rq_Image r] "")
  | Some ImagePrune => Some (Ok (["image"; "prune"; "--force"] ++ (if rq_All r then ["--all"] else []), ""))
  | Some ContainerStart => Some (when (validReference id) "invalid container operation" ["container"; "start"; id] "")
  | Some ContainerStop => Some (when (validReference id) "invalid container operation" ["container"; "stop"; id] "")
  | Some ContainerRestart => Some (when (validReference id) "invalid container operation" ["container"; "restart"; id] "")
  | Some ContainerRemove => Some (when (validReference id) "invalid container removal" ["container"; "rm"; "--force"; id] "")
  | Some ContainerPrune => Some (Ok (["container"; "prune"; "--force"], ""))
  | Some BuilderPrune => Some (Ok (["builder"; "prune"; "--force"], ""))
  | Some SwarmTokenRotate =>
      Some (when (oneOf (rq_Role r) ["worker"; "manager"]) "invalid join-token rotation" ["swarm"; "join-token"; "--rotate"; "--quiet"; rq_Role r] "")
  | Some SwarmUpdate =>
      Some (when (negb ((rq_Limit r =? 0) || (1000 <? rq_Limit r))) "invalid swarm task history limit" ["swarm"; "update"; "--task-history-limit"; decimal (rq_Limit r)] "")
  | _ => None
  end.

(** Is the value of a managed secret acceptable? *)
Definition secret_value_ok `{BcryptCost} (name value : string) : bool :=
  if HasPrefix name "traefik_dashboard_auth_v" then
    match Cut value ":"%char with
    | None => false
    | Some (_, hash) => MatchString dashboardAuthPattern value && match bcrypt_Cost hash with Some cost => 4 <=? cost | None => false end
    end
  else MatchString secretValuePattern value.

Definition DockerArgs `{BcryptCost} (r : Request) : command :=
  let id := rq_ServiceID r in
  let name := rq_Name r in
  match operation_of (rq_Operation r) with
  | Some NodeAvailability =>
      when (oneOf (rq_Availability r) ["active"; "pause"; "drain"] && validReference id) "invalid node availability operation"
        ["node"; "update"; "--availability"; rq_Availability r; id] ""
  | Some ServiceRestart => when (validReference id) "invalid service restart operation" ["service"; "update"; "--force"; id] ""
  | Some ServiceRollback => when (validReference id) "invalid service rollback operation" ["service"; "rollback"; id] ""
  | Some ServiceScale =>
      when (validReference id && negb (1000 <? rq_Replicas r)) "invalid service scale operation" ["service"; "scale"; (id ++ "=" ++ decimal (rq_Replicas r))%string] ""
  | Some ServiceLogs =>
      when (validReference id && negb ((rq_Tail r =? 0) || (1000 <? rq_Tail r))) "invalid service logs operation"
        ["service"; "logs"; "--raw"; "--timestamps"; "--tail"; decimal (rq_Tail r); id] ""
  | Some StackConfig => when (validCompose (rq_Compose r)) "invalid compose input" ["stack"; "config"; "--compose-file"; "-"] (rq_Compose r)
  | Some StackDeploy =>
      if negb (validCompose (rq_Compose r)) then Err "invalid compose input"
      else when (MatchString stackNamePattern name) "invalid stack name"
             (["stack"; "deploy"; "--detach=false"] ++ (if rq_ResolveImageChanged r then ["--resolve-image=changed"] else [])
              ++ (if rq_WithRegistryAuth r then ["--with-registry-auth"] else []) ++ ["--compose-file"; "-"; name]) (rq_Compose r)
  | Some SecretCreate =>
      when (MatchString managedSecretPattern name && secret_value_ok name (rq_Secret r)) "invalid managed secret operation" ["secret"; "create"; name; "-"] (rq_Secret r)
  | Some SecretList => Ok (["secret"; "ls"; "--format"; "{{.Name}}"], "")
  | Some SecretRemove => when (MatchString removableDNSSecret name) "invalid removable DNS secret" ["secret"; "rm"; name] ""
  | Some ConfigCreate =>
      when (MatchString managedConfigPattern name && negb (rq_Config r =? "")%string && negb (64 * 1024 <? len (rq_Config r))
            && negb (existsb (Ascii.eqb (chr 0)) (bytes (rq_Config r)))) "invalid managed config operation" ["config"; "create"; name; "-"] (rq_Config r)
  | Some ConfigList => Ok (["config"; "ls"; "--format"; "{{.Name}}"], "")
  | Some StackRemove => when (MatchString stackNamePattern name) "invalid stack name" ["stack"; "rm"; name] ""
  | _ => match resourceArgs r with Some c => c | None => Err "unsupported agent operation" end
  end.

(** ** On the controller: the request of a command line *)

Abbreviation parsed := (result string Request).

Definition same (a b : string) : bool := (a =? b)%string.

(** The options of [docker network create] between the driver and the name. *)
Fixpoint network_options (opts : list string) (r : Request) : parsed :=
  match opts with
  | [] => Ok r
  | o :: rest =>
      if same o "--ingress" then network_options rest (set_Ingress true r)
      else if same o "--subnet" then match rest with v :: rest' => network_options rest' (set_Subnet v r) | [] => Err "network subnet requires a value" end
      else if same o "--gateway" then match rest with v :: rest' => network_options rest' (set_Gateway v r) | [] => Err "network gateway requires a value" end
      else if same o "--attachable" then network_options rest (set_Attachable true r)
      else if same o "--internal" then network_options rest (set_Internal true r)
      else if same o "--opt" then
        match rest with
        | v :: rest' => if same v "encrypted=true" then network_options rest' (set_Encrypted true r) else Err "unsupported network driver option"
        | [] => Err "unsupported network driver option"
        end
      else Err "unsupported network option"
  end.

Definition network_request (args : list string) : option parsed :=
  match args with
  | [_; rm; x] =>
      if same rm "rm" then Some (Ok (set_Name x (request NetworkRemove)))
      else if same rm "prune" && same x "--force" then Some (Ok (request NetworkPrune)) else None
  | _ :: create :: flag :: driver :: first :: more =>
      if same create "create" && same flag "--driver" then
        Some (match network_options (removelast (first :: more)) (set_Driver driver (request NetworkCreate)) with
              | Ok r => Ok (set_Name (List.last (first :: more) "") r)
              | Err e => Err e
              end)
      else None
  | _ => None
  end.

Definition node_request (args : list string) : option parsed :=
  match args with
  | [_; role; id] => if oneOf role ["promote"; "demote"] then Some (Ok (set_Role role (set_ServiceID id (request NodeRole)))) else None
  | [_; update; flag; x; id] =>
      if same update "update" && same flag "--label-add" then
        Some (match Cut x "="%char with
              | Some (key, value) => Ok (set_Key key (set_ServiceID id (set_Value value (request NodeLabelAdd))))
              | None => Err "invalid node label operation"
              end)
      else if same update "update" && same flag "--label-rm" then Some (Ok (set_Key x (set_ServiceID id (request NodeLabelRemove)))) else None
  | [_; rm; force; id] => if same rm "rm" && same force "--force" then Some (Ok (set_ServiceID id (request NodeRemove))) else None
  | _ => None
  end.

Definition service_resource (args : list string) : option parsed :=
  match args with
  | [_; update; flag; image; id] =>
      if same update "update" && same flag "--image" then Some (Ok (set_Image image (set_ServiceID id (request ServiceImage)))) else None
  | [_; update; cpu; x; memory; y; id] =>
      if same update "update" && same cpu "--limit-cpu" && same memory "--limit-memory"
      then Some (Ok (set_CPULimit x (set_MemoryLimit y (set_ServiceID id (request ServiceLimits))))) else None
  | [_; rm; id] => if same rm "rm" then Some (Ok (set_ServiceID id (request ServiceRemove))) else None
  | _ => None
  end.

Definition volume_request (args : list string) : option parsed :=
  match args with
  | [_; create; flag; local; name] =>
      if same create "create" && same flag "--driver" && same local "local" then Some (Ok (set_Name name (request VolumeCreate))) else None
  | [_; rm; x] =>
      if same rm "rm" then Some (Ok (set_Name x (request VolumeRemove)))
      else if same rm "prune" && same x "--force" then Some (Ok (request VolumePrune)) else None
  | _ => None
  end.

Definition image_request (args : list string) : option parsed :=
  match args with
  | _ :: verb :: x :: more =>
      if same verb "pull" && (List.length more =? 0)%nat then Some (Ok (set_Image x (request ImagePull)))
      else if same verb "rm" && (List.length more =? 0)%nat then Some (Ok (set_Image x (request ImageRemove)))
      else if same verb "prune" && same x "--force" then
        Some (match more with
              | [] => Ok (request ImagePrune)
              | [all] => if same all "--all" then Ok (set_All true (request ImagePrune)) else Err "unsupported image prune option"
              | _ => Err "unsupported image prune option"
              end)
      else None
  | _ => None
  end.

Definition container_request (args : list string) : option parsed :=
  match args with
  | [_; verb; x] =>
      if same verb "start" then Some (Ok (set_ServiceID x (request ContainerStart)))
      else if same verb "stop" then Some (Ok (set_ServiceID x (request ContainerStop)))
      else if same verb "restart" then Some (Ok (set_ServiceID x (request ContainerRestart)))
      else if same verb "prune" && same x "--force" then Some (Ok (request ContainerPrune)) else None
  | [_; rm; force; id] => if same rm "rm" && same force "--force" then Some (Ok (set_ServiceID id (request ContainerRemove))) else None
  | _ => None
  end.

Definition swarm_request (args : list string) : option parsed :=
  match args with
  | [_; token; rotate; quiet; role] =>
      if same token "join-token" && same rotate "--rotate" && same quiet "--quiet" then Some (Ok (set_Role role (request SwarmTokenRotate))) else None
  | [_; update; flag; x] =>
      if same update "update" && same flag "--task-history-limit"
      then Some (match ParseUint x with Some n => Ok (set_Limit n (request SwarmUpdate)) | None => Err "invalid swarm task history limit" end) else None
  | _ => None
  end.

(** [resourceRequest]; [None] when it does not own the command. *)
Definition resourceRequest (args : list string) (input : string) : option parsed :=
  if negb (same input "") then None
  else match args with
  | [] => None
  | head :: _ =>
      if same head "node" then node_request args
      else if same head "service" then service_resource args
      else if same head "network" then network_request args
      else if same head "volume" then volume_request args
      else if same head "config" then match args with [_; rm; name] => if same rm "rm" then Some (Ok (set_Name name (request ConfigRemove))) else None | _ => None end
      else if same head "image" then image_request args
      else if same head "container" then container_request args
      else if same head "builder" then match args with [_; prune; force] => if same prune "prune" && same force "--force" then Some (Ok (request BuilderPrune)) else None | _ => None end
      else if same head "swarm" then swarm_request args
      else None
  end.

Definition serviceRequest (args : list string) (input : string) : parsed :=
  if negb (same input "") then Err "service operations do not accept input"
  else match args with
  | [_; update; force; id] => if same update "update" && same force "--force" then Ok (set_ServiceID id (request ServiceRestart)) else Err "unsupported agent service operation"
  | [_; verb; x] =>
      if same verb "rollback" then Ok (set_ServiceID x (request ServiceRollback))
      else if same verb "scale" then
        match Cut x "="%char with
        | None => Err "invalid service scale operation"
        | Some (service, replicas) =>
            match ParseUint replicas with
            | Some n => Ok (set_Replicas n (set_ServiceID service (request ServiceScale)))
            | None => Err "invalid service replica count"
            end
        end
      else Err "unsupported agent service operation"
  | [_; logs; raw; stamps; flag; x; id] =>
      if same logs "logs" && same raw "--raw" && same stamps "--timestamps" && same flag "--tail" then
        match ParseUint x with Some n => Ok (set_ServiceID id (set_Tail n (request ServiceLogs))) | None => Err "invalid service log tail" end
      else Err "unsupported agent service operation"
  | _ => Err "unsupported agent service operation"
  end.

Definition secretRequest (args : list string) (input : string) : parsed :=
  match args with
  | [_; verb; x; y] =>
      if same verb "create" && same y "-" then Ok (set_Name x (set_Secret input (request SecretCreate)))
      else if same verb "ls" && same x "--format" && same y "{{.Name}}" && same input "" then Ok (request SecretList)
      else Err "unsupported agent secret operation"
  | [_; rm; name] => if same rm "rm" && same input "" then Ok (set_Name name (request SecretRemove)) else Err "unsupported agent secret operation"
  | _ => Err "unsupported agent secret operation"
  end.

Definition configRequest (args : list string) (input : string) : parsed :=
  match args with
  | [_; verb; x; y] =>
      if same verb "create" && same y "-" then Ok (set_Config input (set_Name x (request ConfigCreate)))
      else if same verb "ls" && same x "--format" && same y "{{.Name}}" && same input "" then Ok (request ConfigList)
      else Err "unsupported agent config operation"
  | _ => Err "unsupported agent config operation"
  end.

(** The options of [docker stack deploy] behind [--detach=false]. *)
Fixpoint deploy_options (opts : list string) (r : Request) : parsed :=
  match opts with
  | [] => Ok r
  | o :: rest =>
      if same o "--resolve-image=changed" then
        if rq_ResolveImageChanged r then Err "duplicate stack resolve-image option" else deploy_options rest (set_ResolveImageChanged true r)
      else if same o "--with-registry-auth" then
        if rq_WithRegistryAuth r then Err "duplicate stack registry-auth option" else deploy_options rest (set_WithRegistryAuth true r)
      else if same o "--compose-file" then
        match rest with
        | [stdin; name] => if same stdin "-" then Ok (set_Name name r) else Err "stack deploy requires compose stdin and one stack name"
        | _ => Err "stack deploy requires compose stdin and one stack name"
        end
      else Err "unsupported agent stack option"
  end.

Definition stack_deploy (args : list string) (input : string) : parsed :=
  match args with
  | _ :: deploy :: detach :: opts =>
      if (List.length opts <? 3)%nat || negb (same deploy "deploy") || negb (same detach "--detach=false") then Err "unsupported agent stack operation"
      else match deploy_options opts (set_Compose input (request StackDeploy)) with
      | Err e => Err e
      | Ok r => if same (rq_Name r) "" then Err "stack deploy requires a stack name" else Ok r
      end
  | _ => Err "unsupported agent stack operation"
  end.

Definition stackRequest (args : list string) (input : string) : parsed :=
  match args with
  | [_; config; flag; stdin] =>
      if same config "config" && same flag "--compose-file" && same stdin "-" then Ok (set_Compose input (request StackConfig)) else stack_deploy args input
  | [_; rm; name] => if same rm "rm" && same input "" then Ok (set_Name name (request StackRemove)) else stack_deploy args input
  | _ => stack_deploy args input
  end.

Definition FromDockerCLI (name : string) (args : list string) (input : string) : parsed :=
  if negb (same name "docker") then Err "agent accepts Docker operations only"
  else if MaxComposeBytes <? len input then Err "compose input exceeds the limit"
  else match args with
  | [] => Err "agent command same required"
  | head :: _ =>
      match resourceRequest args input with
      | Some r => r
      | None =>
          if same head "node" then
            match args with
            | [_; update; flag; x; id] =>
                if same input "" && same update "update" && same flag "--availability" then Ok (set_Availability x (set_ServiceID id (request NodeAvailability)))
                else Err "unsupported agent Docker operation"
            | _ => Err "unsupported agent Docker operation"
            end
          else if same head "service" then serviceRequest args input
          else if same head "stack" then stackRequest args input
          else if same head "secret" then secretRequest args input
          else if same head "config" then configRequest args input
          else Err "unsupported agent Docker operation"
      end
  end.

(** The failures a machine may report. *)
Definition ValidCommandFailureCode (code : string) : bool :=
  oneOf code ["docker_external_config_missing"; "docker_image_unavailable"; "docker_ingress_network_missing"; "docker_external_network_missing";
              "docker_command_output_limit"; "docker_placement_unsatisfied"; "docker_port_unavailable"; "docker_external_secret_missing";
              "docker_stack_deploy_failed"; "docker_command_timed_out"; "docker_operation_failed"].
