(* ===== verification/MachineTheorems.v ===== *)
(** * Machine commands: what is asked is what is run *)

From Stdlib Require Import ZArith Lia Bool Ascii String.
From stdpp Require Import base tactics list strings.
From S2P Require Import Prelude GoStrings GoText GoNumbers GoYaml GoRegexp MachineCommands.

Local Open Scope string_scope.
Local Open Scope list_scope.
Local Open Scope bool_scope.
Local Open Scope Z_scope.

(** ** Operations and their names *)

Lemma operation_of_name o : operation_of (operation_name o) = Some o.
Proof. by destruct o. Qed.

Lemma operation_of_inv name o : operation_of name = Some o -> name = operation_name o.
Proof. intros [_ E]%find_some. by apply String.eqb_eq in E as ->. Qed.

(** The request with the fields its operation uses. *)
Definition canonical (r : Request) : Request :=
  let id := set_ServiceID (rq_ServiceID r) in
  let name := set_Name (rq_Name r) in
  match operation_of (rq_Operation r) with
  | None => r
  | Some o =>
      let blank := request o in
      match o with
      | NodeAvailability => set_Availability (rq_Availability r) (id blank)
      | ServiceRestart | ServiceRollback | NodeRemove | ServiceRemove | ContainerStart | ContainerStop | ContainerRestart | ContainerRemove => id blank
      | ServiceScale => set_Replicas (rq_Replicas r) (id blank)
      | ServiceLogs => id (set_Tail (rq_Tail r) blank)
      | StackConfig => set_Compose (rq_Compose r) blank
      | StackDeploy => name (set_WithRegistryAuth (rq_WithRegistryAuth r) (set_ResolveImageChanged (rq_ResolveImageChanged r) (set_Compose (rq_Compose r) blank)))
      | SecretCreate => name (set_Secret (rq_Secret r) blank)
      | SecretList | ConfigList | NetworkPrune | VolumePrune | ContainerPrune | BuilderPrune => blank
      | ConfigCreate => set_Config (rq_Config r) (name blank)
      | SecretRemove | StackRemove | NetworkRemove | VolumeCreate | VolumeRemove | ConfigRemove => name blank
      | NodeRole => set_Role (rq_Role r) (id blank)
      | NodeLabelAdd => set_Key (rq_Key r) (id (set_Value (rq_Value r) blank))
      | NodeLabelRemove => set_Key (rq_Key r) (id blank)
      | ServiceImage => set_Image (rq_Image r) (id blank)
      | ServiceLimits => set_CPULimit (rq_CPULimit r) (set_MemoryLimit (rq_MemoryLimit r) (id blank))
      | NetworkCreate =>
          let plain := set_Encrypted (rq_Encrypted r) (set_Internal (rq_Internal r) (set_Attachable (rq_Attachable r) (set_Driver (rq_Driver r) (name blank)))) in
          if rq_Ingress r then set_Gateway (rq_Gateway r) (set_Subnet (rq_Subnet r) (set_Ingress true plain)) else plain
      | ImagePull | ImageRemove => set_Image (rq_Image r) blank
      | ImagePrune => set_All (rq_All r) blank
      | SwarmTokenRotate => set_Role (rq_Role r) blank
      | SwarmUpdate => set_Limit (rq_Limit r) blank
      end
  end.

(** ** Texts *)

Lemma cut_bytes_at c seen l rest : ~ In c l -> cut_bytes c seen (l ++ c :: rest) = Some (rev seen ++ l, rest).
Proof.
  revert seen. induction l as [|x l IH]; intros seen Hn; cbn [app cut_bytes]; [by rewrite Ascii.eqb_refl, app_nil_r|].
  destruct (Ascii.eqb_spec x c) as [->|_]; [destruct Hn; by left|]. rewrite IH by (intros ?; apply Hn; by right). cbn [rev]. by rewrite <- app_assoc.
Qed.

Lemma Cut_at c a b : ~ In c (bytes a) -> Cut (a ++ String c b) c = Some (a, b).
Proof.
  intros Hn. unfold Cut. rewrite bytes_app. change (bytes (String c b)) with (c :: bytes b). rewrite cut_bytes_at by done. cbn [rev app]. by rewrite !of_bytes_bytes.
Qed.

Lemma ParseUint_decimal n : 0 <= n < two64 -> ParseUint (decimal n) = Some n.
Proof.
  intros Hn. destruct (decimal_digits n) as (Hne & Hd & Hv); [lia|]. unfold ParseUint. rewrite Hd, Hv.
  assert ((decimal n =? "")%string = false) as ->. { apply String.eqb_neq. intros E. apply Hne. by rewrite E. }
  cbn [negb andb]. by destruct (Z.ltb_spec n two64); [|lia].
Qed.

Section Machine.
Context `{BcryptCost}.

Lemma when_ok ok message args input c : when ok message args input = Ok c -> ok = true /\ c = (args, input).
Proof. unfold when. destruct ok; [|done]. by intros [= <-]. Qed.

(** An ingress network is parsed back, and a plain one. *)
Lemma network_round_trip r args input :
  operation_of (rq_Operation r) = Some NetworkCreate -> network_args r = Ok (args, input) -> FromDockerCLI "docker" args input = Ok (canonical r).
Proof.
  intros Ho. unfold canonical. rewrite Ho. unfold network_args. destruct (_ || _) eqn:G; [done|]. apply orb_false_iff in G as [_ G]. apply negb_false_iff in G.
  destruct (rq_Ingress r).
  - destruct (String.eqb_spec (rq_Driver r) "overlay") as [->|]; [|done]. destruct (String.eqb_spec (rq_Name r) "ingress") as [->|]; [|done]. cbn [negb orb].
    destruct (rq_Attachable r); [done|]. destruct (rq_Internal r); [done|]. destruct (rq_Encrypted r); [done|]. cbn [orb].
    destruct (validIngressAddressing _ _); [|done]. intros [= <- <-]. reflexivity.
  - destruct (_ && _); [done|]. intros [= <- <-]. destruct (rq_Attachable r), (rq_Internal r), (rq_Encrypted r); reflexivity.
Qed.

(** A command with standard input is not one of [resourceRequest]. *)
Lemma with_input head args input :
  input <> "" -> len input <= MaxComposeBytes ->
  FromDockerCLI "docker" (head :: args) input =
  if same head "node" then Err "unsupported agent Docker operation"
  else if same head "service" then serviceRequest (head :: args) input
  else if same head "stack" then stackRequest (head :: args) input
  else if same head "secret" then secretRequest (head :: args) input
  else if same head "config" then configRequest (head :: args) input
  else Err "unsupported agent Docker operation".
Proof.
  intros Hne Hlen. unfold FromDockerCLI. destruct (Z.ltb_spec MaxComposeBytes (len input)); [lia|]. unfold resourceRequest.
  assert (same input "" = false) as -> by (by apply String.eqb_neq). cbn [negb]. change (negb (same "docker" "docker")) with false. cbv iota.
  destruct (same head "node"); [|done]. by repeat case_match.
Qed.

Lemma validCompose_ok value : validCompose value = true -> value <> "" /\ len value <= MaxComposeBytes.
Proof. unfold validCompose. intros [G1 G2]%negb_true_iff%orb_false_iff. split; [by apply String.eqb_neq|by apply Z.ltb_ge]. Qed.

Lemma match_small r s n : MatchString r s = true -> nullable r = false -> longest r = Some n -> Z.of_nat n <= MaxComposeBytes -> s <> "" /\ len s <= MaxComposeBytes.
Proof. intros Hm Hn Hl Hle. split; [by eapply match_nonempty|]. apply (match_length _ _ _ Hm) in Hl. rewrite length_bytes in Hl. unfold len. lia. Qed.

Lemma secret_value_small name value : secret_value_ok name value = true -> value <> "" /\ len value <= MaxComposeBytes.
Proof.
  unfold secret_value_ok. destruct (HasPrefix _ _).
  - destruct (Cut value _) as [[? hash]|]; [|done]. intros [G _]%andb_true_iff. eapply match_small; [exact G|done|vm_compute; reflexivity|done].
  - intros G. eapply match_small; [exact G|done|vm_compute; reflexivity|done].
Qed.

(** The controller reads every command line that a machine derives, and reads it
    as the request it was derived from. *)
Lemma DockerArgs_parsed r args input : 0 <= rq_Replicas r -> 0 <= rq_Tail r -> 0 <= rq_Limit r ->
  DockerArgs r = Ok (args, input) -> FromDockerCLI "docker" args input = Ok (canonical r).
Proof.
  intros Hr Ht Hl. unfold DockerArgs, resourceArgs. destruct (operation_of (rq_Operation r)) as [o|] eqn:Ho; [|done].
  assert (canonical r = canonical r) as Hc by done. unfold canonical at 2 in Hc. rewrite Ho in Hc.
  destruct o; rewrite Hc; try (intros [G [= -> ->]]%when_ok; reflexivity); try (intros [= <- <-]; reflexivity).
  - intros [[Gi G%negb_true_iff%Z.ltb_ge]%andb_true_iff [= -> ->]]%when_ok. cbn -[Cut ParseUint decimal]. change ("=" ++ ?x)%string with (String "="%char x).
    rewrite Cut_at by (eapply match_no_char; [exact Gi|reflexivity]). rewrite ParseUint_decimal by (unfold two64; lia). reflexivity.
  - intros [[Gi G%negb_true_iff]%andb_true_iff [= -> ->]]%when_ok. apply orb_false_iff in G as [_ G%Z.ltb_ge]. cbn -[ParseUint decimal].
    rewrite ParseUint_decimal by (unfold two64; lia). reflexivity.
  - intros [[Hne Hlen]%validCompose_ok [= -> ->]]%when_ok. by rewrite with_input.
  - destruct (validCompose _) eqn:V; [|done]. apply validCompose_ok in V as [Hne Hlen]. intros [G [= -> ->]]%when_ok. cbn [app]. rewrite with_input by done.
    apply match_nonempty in G; [|done]. destruct (rq_Name r) as [|c n]; [done|]. destruct (rq_ResolveImageChanged r), (rq_WithRegistryAuth r); reflexivity.
  - intros [[_ G]%andb_true_iff [= -> ->]]%when_ok. apply secret_value_small in G as [Hne Hlen]. by rewrite with_input.
  - intros [G [= -> ->]]%when_ok. rewrite !andb_true_iff, !negb_true_iff in G. destruct G as (((_ & Hne%String.eqb_neq) & Hlen%Z.ltb_ge) & _).
    rewrite with_input; [reflexivity|done|unfold MaxComposeBytes; lia].
  - intros [[G _]%andb_true_iff [= -> ->]]%when_ok. apply oneOfString_In in G as [<-|[<-|[]]]; reflexivity.
  - intros [[[_ Gk]%andb_true_iff _]%andb_true_iff [= -> ->]]%when_ok. cbn -[Cut]. change ("=" ++ rq_Value r)%string with (String "="%char (rq_Value r)).
    rewrite Cut_at by (eapply match_no_char; [exact Gk|reflexivity]). reflexivity.
  - rewrite <- Hc. by apply network_round_trip.
  - intros [= <- <-]. by destruct (rq_All r).
  - intros [G%negb_true_iff [= -> ->]]%when_ok. apply orb_false_iff in G as [_ G%Z.ltb_ge]. cbn -[ParseUint decimal]. rewrite ParseUint_decimal by (unfold two64; lia). reflexivity.
Qed.

(** ** From the controller to the machine *)

Lemma cut_bytes_inv c seen l a b : cut_bytes c seen l = Some (a, b) -> rev seen ++ l = a ++ c :: b.
Proof.
  revert seen. induction l as [|x l IH]; intros seen; cbn [cut_bytes]; [done|]. destruct (Ascii.eqb_spec x c) as [->|_]; [by intros [= <- <-]|].
  intros E%IH. cbn [rev] in E. by rewrite <- app_assoc in E.
Qed.

Lemma Cut_inv s c a b : Cut s c = Some (a, b) -> s = (a ++ String c b)%string.
Proof.
  unfold Cut. destruct (cut_bytes c [] (bytes s)) as [[x y]|] eqn:E; [|done]. intros [= <- <-]. apply cut_bytes_inv in E. cbn in E.
  rewrite <- (of_bytes_bytes s), <- (of_bytes_bytes (_ ++ _)%string), bytes_app. change (bytes (String c (of_bytes y))) with (c :: bytes (of_bytes y)). by rewrite !bytes_of_bytes, E.
Qed.

(** Operations whose command line can be written in more than one way: options in
    another order, numbers with zeros in front. *)
Definition flexible (r : Request) : bool := oneOf (rq_Operation r) ["service_scale"; "service_logs"; "swarm_update"; "stack_deploy"; "network_create"].

(** What is run for a request that was read from a command line. *)
Definition faithful (args : list string) (input : string) (r : Request) : Prop :=
  canonical r = r /\ 0 <= rq_Replicas r /\ 0 <= rq_Tail r /\ 0 <= rq_Limit r /\
  forall args' input', DockerArgs r = Ok (args', input') -> input' = input /\ (args' = args \/ flexible r = true).

Lemma ParseUint_nonneg s n : ParseUint s = Some n -> 0 <= n.
Proof.
  unfold ParseUint. destruct (_ && _) eqn:G; [|done]. intros [= <-]. apply andb_prop in G as [G _]. apply andb_prop in G as [_ G]. unfold value_of.
  assert (forall l acc, 0 <= acc -> forallb digit l = true -> 0 <= fold_left (fun acc c => 10 * acc + (code c - 48)) l acc) as Hn; [|by apply Hn].
  induction l as [|c l IH]; intros acc Ha; cbn [forallb fold_left]; [done|]. intros [Hc Hl]%andb_prop. apply IH; [|done]. unfold digit, between in Hc. lia.
Qed.

Ltac equal_words :=
  repeat match goal with
         | E : _ && _ = true |- _ => apply andb_prop in E as [? ?]
         | E : same _ _ = true |- _ => apply String.eqb_eq in E; subst
         | E : negb (same _ _) = false |- _ => apply negb_false_iff in E
         | E : (length ?l =? 0)%nat = true |- _ => destruct l; [clear E|discriminate E]
         | E : oneOf _ _ = true |- _ => apply oneOfString_In in E; cbn [In] in E; destruct_or? E; subst; try done
         end.

Ltac run_it :=
  split; [reflexivity|]; do 3 (split; [first [done|by eapply ParseUint_nonneg]|]); intros args' input' D;
  first [apply when_ok in D as [_ [= -> ->]]|injection D as <- <-]; split; [done|first [by left|by right]].

Ltac read_it R :=
  repeat (let E := fresh "E" in match type of R with context [match ?x with _ => _ end] => destruct x eqn:E; try discriminate R end);
  try (injection R as <-); equal_words; try run_it.

Lemma node_faithful tail r : node_request ("node" :: tail) = Some (Ok r) -> faithful ("node" :: tail) "" r.
Proof.
  intros R. unfold node_request in R. read_it R. apply Cut_inv in E5 as ->. run_it.
Qed.

Lemma service_resource_faithful tail r : service_resource ("service" :: tail) = Some (Ok r) -> faithful ("service" :: tail) "" r.
Proof. intros R. unfold service_resource in R. read_it R. Qed.

Lemma volume_faithful tail r : volume_request ("volume" :: tail) = Some (Ok r) -> faithful ("volume" :: tail) "" r.
Proof. intros R. unfold volume_request in R. read_it R. Qed.

Lemma image_faithful tail r : image_request ("image" :: tail) = Some (Ok r) -> faithful ("image" :: tail) "" r.
Proof. intros R. unfold image_request in R. read_it R. Qed.

Lemma container_faithful tail r : container_request ("container" :: tail) = Some (Ok r) -> faithful ("container" :: tail) "" r.
Proof. intros R. unfold container_request in R. read_it R. Qed.

Lemma swarm_faithful tail r : swarm_request ("swarm" :: tail) = Some (Ok r) -> faithful ("swarm" :: tail) "" r.
Proof. intros R. unfold swarm_request in R. read_it R. Qed.

Lemma service_faithful tail input r : serviceRequest ("service" :: tail) input = Ok r -> faithful ("service" :: tail) input r.
Proof. intros R. unfold serviceRequest in R. read_it R. Qed.

Lemma secret_faithful tail input r : secretRequest ("secret" :: tail) input = Ok r -> faithful ("secret" :: tail) input r.
Proof. intros R. unfold secretRequest in R. read_it R. Qed.

Lemma config_faithful tail input r : configRequest ("config" :: tail) input = Ok r -> faithful ("config" :: tail) input r.
Proof. intros R. unfold configRequest in R. read_it R. Qed.

(** ** Options *)

Definition deploy_request (compose name : string) (changed auth : bool) : Request :=
  set_Name name (set_WithRegistryAuth auth (set_ResolveImageChanged changed (set_Compose compose (request StackDeploy)))).

Lemma deploy_options_shape opts compose name changed auth r :
  deploy_options opts (deploy_request compose name changed auth) = Ok r -> exists name' changed' auth', r = deploy_request compose name' changed' auth'.
Proof.
  revert name changed auth. induction opts as [|o opts IH]; intros name changed auth; cbn [deploy_options]; [intros [= <-]; by eauto|].
  destruct (same o "--resolve-image=changed"). { destruct changed; [done|]. apply (IH name true auth). }
  destruct (same o "--with-registry-auth"). { destruct auth; [done|]. apply (IH name changed true). }
  destruct (same o "--compose-file"); [|done]. destruct opts as [|x [|y [|]]]; try done. destruct (same x "-"); [|done]. intros [= <-]. by exists y, changed, auth.
Qed.

Lemma stack_deploy_faithful tail input r : stack_deploy ("stack" :: tail) input = Ok r -> faithful ("stack" :: tail) input r.
Proof.
  unfold stack_deploy. intros R. destruct tail as [|deploy [|detach opts]]; [done..|]. destruct (_ || _) in R; [done|].
  destruct (deploy_options opts _) as [r1|] eqn:D; [|done]. destruct (same (rq_Name r1) ""); [done|]. injection R as <-.
  apply (deploy_options_shape opts input "" false false) in D as (name & changed & auth & ->). split; [reflexivity|]. do 3 (split; [done|]). intros args' input' E.
  change ((if negb (validCompose input) then Err "invalid compose input" else
           when (MatchString stackNamePattern name) "invalid stack name"
             (["stack"; "deploy"; "--detach=false"] ++ (if changed then ["--resolve-image=changed"] else []) ++ (if auth then ["--with-registry-auth"] else [])
              ++ ["--compose-file"; "-"; name]) input) = Ok (args', input')) in E.
  destruct (validCompose input); [|done]. apply when_ok in E as [_ [= -> ->]]. split; [done|by right].
Qed.

Lemma stack_faithful tail input r : stackRequest ("stack" :: tail) input = Ok r -> faithful ("stack" :: tail) input r.
Proof.
  intros R. destruct tail as [|a [|b [|c [|d more]]]]; try (by apply stack_deploy_faithful); cbn [stackRequest] in R.
  - destruct (same a "rm" && same input "") eqn:E; [|by apply stack_deploy_faithful]. injection R as <-. equal_words. run_it.
  - destruct (same a "config" && same b "--compose-file" && same c "-") eqn:E; [|by apply stack_deploy_faithful]. injection R as <-. equal_words. run_it.
Qed.

Definition network (driver name subnet gateway : string) (ingress attachable internal encrypted : bool) : Request :=
  set_Name name (set_Encrypted encrypted (set_Internal internal (set_Attachable attachable (set_Gateway gateway (set_Subnet subnet (set_Ingress ingress (set_Driver driver (request NetworkCreate)))))))).

Lemma network_options_shape opts d n s g i a k e r :
  network_options opts (network d n s g i a k e) = Ok r -> exists s' g' i' a' k' e', r = network d n s' g' i' a' k' e'.
Proof.
  assert (length opts <= length opts)%nat as Hl by done. revert Hl. generalize (length opts) at 2. intros fuel. revert opts s g i a k e.
  induction fuel as [|fuel IH]; intros [|o rest] s g i a k e Hl; cbn [network_options]; try (intros [= <-]; by eauto 8); [simpl in Hl; lia|]. simpl in Hl.
  destruct (same o "--ingress"); [apply (IH rest s g true a k e); lia|].
  destruct (same o "--subnet"); [destruct rest as [|v rest]; [done|]; apply (IH rest v g i a k e); simpl in Hl; lia|].
  destruct (same o "--gateway"); [destruct rest as [|v rest]; [done|]; apply (IH rest s v i a k e); simpl in Hl; lia|].
  destruct (same o "--attachable"); [apply (IH rest s g i true k e); lia|].
  destruct (same o "--internal"); [apply (IH rest s g i a true e); lia|].
  destruct (same o "--opt"); [|done]. destruct rest as [|v rest]; [done|]. destruct (same v "encrypted=true"); [|done]. apply (IH rest s g i a k true). simpl in Hl. lia.
Qed.

Lemma DockerArgs_network r : rq_Operation r = operation_name NetworkCreate -> DockerArgs r = network_args r.
Proof. intros E. unfold DockerArgs, resourceArgs. rewrite E, operation_of_name. reflexivity. Qed.

Lemma canonical_network d n s g i a k e : canonical (network d n s g i a k e) = if i then network d n s g i a k e else network d n "" "" i a k e.
Proof. unfold canonical. change (rq_Operation (network d n s g i a k e)) with (operation_name NetworkCreate). rewrite operation_of_name. destruct i; vm_compute; reflexivity. Qed.

(** No address, or the ingress network. *)
Definition addressing_used (r : Request) : Prop := rq_Ingress r = true \/ (rq_Subnet r = "" /\ rq_Gateway r = "").

Lemma network_faithful tail r : network_request ("network" :: tail) = Some (Ok r) -> addressing_used r -> faithful ("network" :: tail) "" r.
Proof.
  intros R Hu. destruct tail as [|a [|b [|c [|d more]]]]; try done; cbn [network_request] in R.
  - destruct (same a "rm") eqn:E1; [injection R as <-; equal_words; run_it|]. destruct (same a "prune" && same b "--force") eqn:E2; [|done]. injection R as <-. equal_words. run_it.
  - destruct (same a "create" && same b "--driver"); [|done]. destruct (network_options _ _) as [r1|] eqn:O1; [|done]. injection R as <-.
    apply (network_options_shape _ c "" "" "" false false false false) in O1 as (s & g & i & x & k & e & ->). set (name := List.last (d :: more) "") in *.
    change (addressing_used (network c name s g i x k e)) in Hu. change (faithful ("network" :: a :: b :: c :: d :: more) "" (network c name s g i x k e)).
    split; [|split; [apply Z.le_refl|split; [apply Z.le_refl|split; [apply Z.le_refl|]]]].
    + rewrite canonical_network. by destruct Hu as [Hi|[Hs Hg]]; cbn [network set_Name set_Encrypted set_Internal set_Attachable set_Gateway set_Subnet set_Ingress set_Driver rq_Ingress rq_Subnet rq_Gateway] in *; subst; [|destruct i].
    + intros args' input' D. rewrite DockerArgs_network in D by reflexivity. split; [|by right].
      unfold network_args in D. destruct (_ || _); [done|]. destruct (rq_Ingress _); [|destruct (_ && _); [done|by injection D]].
      destruct (_ || _); [done|]. destruct (_ || _); [done|]. destruct (validIngressAddressing _ _); [by injection D|done].
Qed.

Lemma resource_faithful args input r :
  resourceRequest args input = Some (Ok r) -> addressing_used r -> faithful args input r.
Proof.
  unfold resourceRequest. destruct (negb (same input "")) eqn:E0; [done|]. apply negb_false_iff, String.eqb_eq in E0 as ->. destruct args as [|head tail]; [done|]. intros R Hu.
  destruct (same head "node") eqn:E; [apply String.eqb_eq in E as ->; by apply node_faithful|]. clear E.
  destruct (same head "service") eqn:E; [apply String.eqb_eq in E as ->; by apply service_resource_faithful|]. clear E.
  destruct (same head "network") eqn:E; [apply String.eqb_eq in E as ->; by apply network_faithful|]. clear E.
  destruct (same head "volume") eqn:E; [apply String.eqb_eq in E as ->; by apply volume_faithful|]. clear E.
  destruct (same head "config") eqn:E; [apply String.eqb_eq in E as ->; clear Hu; read_it R|]. clear E.
  destruct (same head "image") eqn:E; [apply String.eqb_eq in E as ->; by apply image_faithful|]. clear E.
  destruct (same head "container") eqn:E; [apply String.eqb_eq in E as ->; by apply container_faithful|]. clear E.
  destruct (same head "builder") eqn:E; [apply String.eqb_eq in E as ->; clear Hu; read_it R|]. clear E.
  destruct (same head "swarm") eqn:E; [apply String.eqb_eq in E as ->; by apply swarm_faithful|done].
Qed.

Lemma FromDockerCLI_faithful args input r : FromDockerCLI "docker" args input = Ok r -> addressing_used r -> faithful args input r.
Proof.
  unfold FromDockerCLI. change (negb (same "docker" "docker")) with false. cbv iota. destruct (MaxComposeBytes <? len input); [done|]. destruct args as [|head tail]; [done|].
  destruct (resourceRequest (head :: tail) input) as [[r1|]|] eqn:Rs; [intros [= ->]; by apply resource_faithful|done|]. clear Rs. intros R _.
  destruct (same head "node") eqn:E; [apply String.eqb_eq in E as ->; read_it R|]. clear E.
  destruct (same head "service") eqn:E; [apply String.eqb_eq in E as ->; by apply service_faithful|]. clear E.
  destruct (same head "stack") eqn:E; [apply String.eqb_eq in E as ->; by apply stack_faithful|]. clear E.
  destruct (same head "secret") eqn:E; [apply String.eqb_eq in E as ->; by apply secret_faithful|]. clear E.
  destruct (same head "config") eqn:E; [apply String.eqb_eq in E as ->; by apply config_faithful|done].
Qed.

(** C16. A machine runs what the controller asked for: when a Docker command line
    becomes a request and the machine derives a command line from it again, the
    standard input is the same and the command line is the same one, or, for the
    five operations whose options and numbers can be written in several ways, one
    that means the same request.  The request is not a network with addresses
    that is not the ingress network. *)
Theorem machine_runs_what_was_asked args input r args' input' :
  FromDockerCLI "docker" args input = Ok r -> addressing_used r -> DockerArgs r = Ok (args', input') ->
  input' = input /\ (args' = args \/ flexible r = true) /\ FromDockerCLI "docker" args' input' = Ok r.
Proof.
  intros R Hu D. destruct (FromDockerCLI_faithful _ _ _ R Hu) as (Hc & H1 & H2 & H3 & Hrun). destruct (Hrun _ _ D) as [-> Hargs]. split; [done|]. split; [done|].
  rewrite <- Hc. by apply DockerArgs_parsed.
Qed.

(** ** No words of one's own *)

Definition dashed (s : string) : bool := match s with String c _ => Ascii.eqb c "-"%char | EmptyString => false end.

Lemma match_dashed r s : MatchString r s = true -> der "-"%char r = Empty -> dashed s = false.
Proof. intros Hm Hd. destruct s as [|c s]; [done|]. cbn. destruct (Ascii.eqb_spec c "-") as [->|]; [|done]. by destruct (match_first _ _ _ Hm Hd s). Qed.

Lemma match_dashed_app r s t : MatchString r s = true -> nullable r = false -> der "-"%char r = Empty -> dashed (s ++ t) = false.
Proof. intros Hm Hn Hd. pose proof (match_dashed _ _ Hm Hd) as E. apply match_nonempty in Hm; [|done]. by destruct s. Qed.

Lemma decimal_dashed n : 0 <= n -> dashed (decimal n) = false.
Proof.
  intros Hn. destruct (decimal_digits n Hn) as (Hne & Hd & _). destruct (decimal n) as [|c s]; [done|]. cbn in *. apply andb_prop in Hd as [Hd _].
  destruct (Ascii.eqb_spec c "-") as [->|]; [by vm_compute in Hd|done].
Qed.

Lemma split_bytes_chars c acc l x : In x acc \/ In x l -> x = c \/ exists p, In p (split_bytes c acc l) /\ In x p.
Proof.
  revert acc. induction l as [|y l IH]; intros acc Hx; cbn [split_bytes].
  - destruct Hx as [Hx|[]]. right. exists (rev acc). split; [by left|by apply -> in_rev].
  - destruct (Ascii.eqb_spec y c) as [->|_].
    + destruct Hx as [Hx|[->|Hx]]; [right; exists (rev acc); split; [by left|by apply -> in_rev]|by left|].
      destruct (IH [] (or_intror Hx)) as [?|(p & Hp & Hxp)]; [by left|right]. exists p. split; [by right|done].
    + apply IH. destruct Hx as [Hx|[->|Hx]]; [left; by right|left; by left|by right].
Qed.

Lemma parseIPv4_chars l ip x : parseIPv4 l = Some ip -> In x l -> x = dot \/ digit x = true.
Proof.
  unfold parseIPv4. intros E Hx. destruct (split_bytes_chars dot [] l x (or_intror Hx)) as [?|(p & Hp & Hxp)]; [by left|right].
  assert (exists n, octet p = Some n) as [n Ho].
  { apply (in_map octet) in Hp. destruct (map octet _) as [|[a|] [|[b|] [|[c|] [|[d|] [|]]]]]; try done. destruct Hp as [<-|[<-|[<-|[<-|[]]]]]; by eauto. }
  unfold octet in Ho. destruct p as [|c p]; [done|]. destruct (_ && _) eqn:G; [|done]. apply andb_prop in G as [G _]. apply andb_prop in G as [G _].
  rewrite forallb_forall in G. by apply G.
Qed.

Lemma address_dashed s a : ParseAddr4 s = Some a -> dashed s = false.
Proof.
  unfold ParseAddr4. destruct (parseIPv4 (bytes s)) as [ip|] eqn:E; [|done]. intros _. destruct s as [|c s]; [done|]. cbn [dashed].
  destruct (Ascii.eqb_spec c "-") as [->|]; [|done]. destruct (parseIPv4_chars _ _ "-"%char E) as [?|Hd]; [by left|done|by vm_compute in Hd].
Qed.

Lemma prefix_dashed s p : ParsePrefix4 s = Some p -> dashed s = false.
Proof.
  unfold ParsePrefix4. destruct (_ <? _); [done|]. destruct s as [|c s]; [done|]. destruct (Z.to_nat (LastIndex _ _)); [done|]. cbn [take bytes list_ascii_of_string].
  destruct (ParseAddr4 _) as [a|] eqn:A; [|done]. by apply address_dashed in A.
Qed.

(** The Docker commands and the options that occur. *)
Definition docker_commands : list (list string) :=
  [["node"; "update"]; ["node"; "promote"]; ["node"; "demote"]; ["node"; "rm"]; ["service"; "update"]; ["service"; "rollback"]; ["service"; "scale"]; ["service"; "logs"];
   ["service"; "rm"]; ["stack"; "config"]; ["stack"; "deploy"]; ["stack"; "rm"]; ["secret"; "create"]; ["secret"; "ls"]; ["secret"; "rm"]; ["config"; "create"]; ["config"; "ls"];
   ["config"; "rm"]; ["network"; "create"]; ["network"; "rm"]; ["network"; "prune"]; ["volume"; "create"]; ["volume"; "rm"]; ["volume"; "prune"]; ["image"; "pull"]; ["image"; "rm"];
   ["image"; "prune"]; ["container"; "start"]; ["container"; "stop"]; ["container"; "restart"]; ["container"; "rm"]; ["container"; "prune"]; ["builder"; "prune"];
   ["swarm"; "join-token"]; ["swarm"; "update"]].

Definition docker_options : list string :=
  ["--availability"; "--force"; "--raw"; "--timestamps"; "--tail"; "--compose-file"; "-"; "--detach=false"; "--resolve-image=changed"; "--with-registry-auth"; "--format";
   "--label-add"; "--label-rm"; "--image"; "--limit-cpu"; "--limit-memory"; "--driver"; "--ingress"; "--subnet"; "--gateway"; "--attachable"; "--internal"; "--opt"; "--all";
   "--rotate"; "--quiet"; "--task-history-limit"].

Definition known_word (a : string) : bool := negb (dashed a) || oneOf a docker_options.

Definition closed (args : list string) : Prop := In (take 2 args) docker_commands /\ forallb known_word args = true.

Lemma known_value s : dashed s = false -> known_word s = true.
Proof. intros E. unfold known_word. by rewrite E. Qed.

Lemma known_match r s : MatchString r s = true -> der "-"%char r = Empty -> known_word s = true.
Proof. intros Hm Hd. by eapply known_value, match_dashed. Qed.

Ltac known :=
  repeat match goal with
         | |- _ && _ = true => apply andb_true_intro; split
         | G : MatchString ?p ?s = true |- known_word ?s = true => apply (known_match p s G); reflexivity
         | |- known_word (decimal _) = true => apply known_value, decimal_dashed; lia
         | |- _ => reflexivity
         end.

Lemma network_closed r args input : network_args r = Ok (args, input) -> closed args.
Proof.
  unfold network_args. destruct (_ || _) eqn:G; [done|]. apply orb_false_iff in G as [G1%negb_false_iff G2%negb_false_iff]. apply oneOfString_In in G2.
  destruct (rq_Ingress r).
  - destruct (_ || _); [done|]. destruct (_ || _); [done|]. unfold validIngressAddressing. destruct (ParsePrefix4 _) as [[a bits]|] eqn:P; [|done].
    destruct (negb _); [done|]. destruct (_ || _); [done|]. destruct (ParseAddr4 _) as [g|] eqn:A; [|done]. destruct (_ || _); [done|]. intros [= <- <-].
    apply prefix_dashed in P. apply address_dashed in A. split; [vm_compute; tauto|]. cbn [forallb]. rewrite (known_value _ P), (known_value _ A). reflexivity.
  - destruct (_ && _); [done|]. intros [= <- <-]. split; [vm_compute; tauto|]. destruct G2 as [<-|[<-|[]]], (rq_Attachable r), (rq_Internal r), (rq_Encrypted r); cbn [app forallb]; known.
Qed.

(** C17. Nothing but the fixed vocabulary reaches Docker: whatever request a
    machine accepts, the command line it runs is one of the listed commands, and
    every argument that Docker could take for an option is one of the listed
    options; no name, label, image, number or address of a request can become an
    option. *)
Theorem machine_argv_is_closed r args input :
  0 <= rq_Replicas r -> 0 <= rq_Tail r -> 0 <= rq_Limit r -> DockerArgs r = Ok (args, input) ->
  In (take 2 args) docker_commands /\ forall a, In a args -> dashed a = true -> In a docker_options.
Proof.
  intros Hr Ht Hl D. assert (closed args) as [Hc Hk].
  2: { split; [done|]. intros a Ha Hd. rewrite forallb_forall in Hk. specialize (Hk a Ha). unfold known_word in Hk. rewrite Hd in Hk. by apply oneOfString_In. }
  revert D. unfold DockerArgs, resourceArgs, validReference. destruct (operation_of (rq_Operation r)) as [o|]; [|done].
  destruct o; try (by apply network_closed); try (intros [= <- <-]); try (intros [G [= -> ->]]%when_ok; rewrite ?andb_true_iff in G; destruct_and? G).
  all: try (split; [vm_compute; tauto|]; cbn [forallb]; known).
  - apply oneOfString_In in H0 as [<-|[<-|[<-|[]]]]; reflexivity.
  - by apply known_value, (match_dashed_app referencePattern).
  - destruct (negb _); [done|]. intros [G [= -> ->]]%when_ok. split; [vm_compute; tauto|]. destruct (rq_ResolveImageChanged r), (rq_WithRegistryAuth r); cbn [app forallb]; known.
  - apply oneOfString_In in H0 as [<-|[<-|[]]]; (split; [vm_compute; tauto|]; cbn [forallb]; known).
  - by apply known_value, (match_dashed_app labelKeyPattern).
  - by destruct (rq_All r).
  - apply oneOfString_In in G as [<-|[<-|[]]]; reflexivity.
Qed.

End Machine.

(** ** Machine commands: runs

    Commands on their way from the controller to a machine, one that loses its
    options on the way, and texts that the patterns take or refuse. *)

#[local] Instance cheap_hashes : BcryptCost := {| bcrypt_Cost := fun _ => Some 10 |}.

Definition scale_web : Request := set_Replicas 7 (set_ServiceID "shop_web" (request ServiceScale)).

Lemma machine_runs_what_was_asked_witness :
  FromDockerCLI "docker" ["service"; "scale"; "shop_web=007"] "" = Ok scale_web /\ DockerArgs scale_web = Ok (["service"; "scale"; "shop_web=7"], "") /\
  FromDockerCLI "docker" ["service"; "scale"; "shop_web=7"] "" = Ok scale_web.
Proof.
  split; [vm_compute; reflexivity|]. split; [vm_compute; reflexivity|].
  apply (machine_runs_what_was_asked ["service"; "scale"; "shop_web=007"] "" scale_web); [vm_compute; reflexivity|right; split; reflexivity|vm_compute; reflexivity].
Defined.

Lemma machine_argv_is_closed_witness :
  DockerArgs scale_web = Ok (["service"; "scale"; "shop_web=7"], "") /\
  In ["service"; "scale"] docker_commands /\ forall a, In a ["service"; "scale"; "shop_web=7"] -> dashed a = true -> In a docker_options.
Proof.
  split; [vm_compute; reflexivity|].
  apply (machine_argv_is_closed scale_web ["service"; "scale"; "shop_web=7"] ""); vm_compute; first [reflexivity|discriminate].
Defined.

(** A subnet that is not for the ingress network is read into the request and then
    left out: the machine creates another network than the one asked for. *)
Lemma plain_network_loses_its_subnet :
  exists r, FromDockerCLI "docker" ["network"; "create"; "--driver"; "overlay"; "--subnet"; "10.1.0.0/24"; "back"] "" = Ok r /\
    DockerArgs r = Ok (["network"; "create"; "--driver"; "overlay"; "back"], "").
Proof. eexists. split; [vm_compute; reflexivity|vm_compute; reflexivity]. Qed.

Example images :
  map (MatchString imageRefPattern) ["nginx"; "registry.example.com:5000/shop/web:1.4"; "web@sha256:00"; "Web"; "web:"; "a//b"; "-web"]
  = [true; true; false; false; false; false; false].
Proof. vm_compute. reflexivity. Qed.

Example managed_names :
  map (MatchString managedSecretPattern) ["swarmops_grafana_password"; "shop_postgres_uri_v2"; "shop_postgres_uri_v0"; "traefik_dns_cloudflare_main_v1"; "shop_mysql_uri_v1"]
  = [true; true; false; true; false].
Proof. vm_compute. reflexivity. Qed.

Example ingress_addresses :
  map (fun p => is_ok (validIngressAddressing (fst p) (snd p))) [("10.0.0.0/24", "10.0.0.1"); ("10.0.0.0/24", "10.0.1.1"); ("10.0.0.4/24", "10.0.0.5"); ("10.0.0.0/8", "10.0.0.1"); ("10.0.0.0/024", "10.0.0.1")]
  = [true; false; false; false; false].
Proof. vm_compute. reflexivity. Qed.
