(* ===== verification/Diagnosis.v ===== *)
(** * internal/diagnosis: why a service does not run

    [Diagnose] with its three rules, the evidence it collects and the reading of
    placement constraints.  Printing a size with one digit is the class
    [Decimals]. *)

From Stdlib Require Import ZArith Lia Bool Ascii String.
From stdpp Require Import base tactics list strings gmap.
From S2P Require Import Prelude GoStrings GoText RoutingRows.

Local Open Scope string_scope.
Local Open Scope list_scope.
Local Open Scope bool_scope.
Local Open Scope Z_scope.

(** ** Facts *)

Record Service := mkService { sv_Name : string; sv_RunningTasks : Z; sv_DesiredTasks : Z }.
Record Task := mkTask { tk_Error : string; tk_DesiredState : string; tk_NodeID : string }.
Record Node := mkNode {
  nd_ID : string; nd_Hostname : string; nd_Role : string; nd_Labels : gmap string string; nd_Healthy : bool; nd_Capacity : Z; nd_Used : Z }.

Record Facts := mkFacts {
  fa_Service : Service; fa_Tasks : list Task; fa_Nodes : list Node; fa_ImageBytes : Z; fa_ImageKnown : bool; fa_Constraints : list string;
  fa_ProbedAt : Z; fa_ClusterAt : Z; fa_Now : Z }.

(** ** Answers *)

Inductive Tone := ToneNeutral | ToneWarning | ToneDanger.

Record Evidence := mkEvidence { ei_Label : string; ei_Source : string; ei_ObservedAt : Z }.
Record Link := mkLink { li_Step : string; li_Claim : string; li_Evidence : option Evidence; li_Tone : Tone }.
Record Action := mkAction { ac_Kind : string; ac_Label : string; ac_Detail : string; ac_Primary : bool }.
Record Elsewhere := mkElsewhere { el_Commands : list string; el_Note : string }.
Record Chain := mkChain {
  ch_Rule : string; ch_Subject : string; ch_Links : list Link; ch_Actions : list Action; ch_Elsewhere : Elsewhere; ch_Evidence : list Evidence; ch_Caveats : list string }.
Record Refusal := mkRefusal { rf_Subject : string; rf_Reason : string; rf_Evidence : list Evidence }.

Inductive Result := Explained (c : Chain) | Refused (r : Refusal).

Definition MaxEvidenceAge : Z := 90 * second.

Definition Stale (e : Evidence) (now max : Z) : bool := IsZero (ei_ObservedAt e) || (max <? now - ei_ObservedAt e).

(** ** Constraints *)

(** [strings.SplitN(s, sep, 2)] for the separator of two characters [a b]. *)
Fixpoint cut_pair (a b : ascii) (seen l : list ascii) : option (list ascii * list ascii) :=
  match l with
  | x :: ((y :: l'') as l') => if Ascii.eqb x a && Ascii.eqb y b then Some (rev seen, l'') else cut_pair a b (x :: seen) l'
  | _ => None
  end.

Definition Cut2 (s : string) (a b : ascii) : option (string * string) :=
  match cut_pair a b [] (bytes s) with Some (x, y) => Some (TrimSpace (of_bytes x), TrimSpace (of_bytes y)) | None => None end.

(** The key, the value wanted and whether it must differ. *)
Definition read_constraint (raw : string) : option (string * string * bool) :=
  let c := TrimSpace raw in
  match Cut2 c "!"%char "="%char with
  | Some (key, want) => Some (key, want, true)
  | None => match Cut2 c "="%char "="%char with Some (key, want) => Some (key, want, false) | None => None end
  end.

Definition label_prefix : string := "node.labels.".

Definition attribute (n : Node) (key : string) : option string :=
  if HasPrefix key label_prefix then Some (default "" (nd_Labels n !! TrimPrefix key label_prefix))
  else if (key =? "node.role")%string then Some (nd_Role n)
  else if (key =? "node.hostname")%string then Some (nd_Hostname n)
  else if (key =? "node.id")%string then Some (nd_ID n)
  else None.

(** [matchesConstraints]: does the node match, and was every constraint met on
    the way understood? *)
Fixpoint matchesConstraints (n : Node) (constraints : list string) : bool * bool :=
  match constraints with
  | [] => (true, true)
  | raw :: rest =>
      match read_constraint raw with
      | None => (false, false)
      | Some (key, want, negate) =>
          match attribute n key with
          | None => (false, false)
          | Some have => if Bool.eqb (have =? want)%string negate then (false, true) else matchesConstraints n rest
          end
      end
  end.

(** ** Evidence *)

(** [fmt.Sprintf("%.1f", float64(b)/float64(div))]. *)
Class Decimals := { one_digit : Z -> Z -> string }.

Section Diagnosis.
Context `{Decimals}.

(** The loop divides by 1000 while it can; the letter follows. *)
Fixpoint unit_of (letters : list string) (b div : Z) : string :=
  match letters with
  | [] => ""
  | [l] => one_digit b div ++ " " ++ l ++ "B"
  | l :: rest => if b / div <? 1000 then one_digit b div ++ " " ++ l ++ "B" else unit_of rest b (1000 * div)
  end.

Definition humanBytes (b : Z) : string := if b <? 1000 then decimal b ++ " B" else unit_of ["k"; "M"; "G"; "T"; "P"; "E"] b 1000.

Definition tasks_of (f : Facts) (infix : string) : string := decimal (sv_RunningTasks (fa_Service f)) ++ infix ++ decimal (sv_DesiredTasks (fa_Service f)).

Definition taskEvidence (f : Facts) : Evidence := mkEvidence (tasks_of f "/" ++ " tasks") "swarm manager" (fa_ClusterAt f).

Definition gatherEvidence (f : Facts) : list Evidence :=
  [taskEvidence f] ++
  (if fa_ImageKnown f then [mkEvidence ("image " ++ humanBytes (fa_ImageBytes f)) "registry manifest" (fa_ClusterAt f)] else []) ++
  [mkEvidence (decimal (Z.of_nat (length (List.filter nd_Healthy (fa_Nodes f)))) ++ "/" ++ decimal (Z.of_nat (length (fa_Nodes f))) ++ " hosts reporting")
     "read-only host probes" (fa_ProbedAt f)].

Definition probeCaveat (f : Facts) : list string :=
  let silent := map nd_Hostname (List.filter (fun n => negb (nd_Healthy n)) (fa_Nodes f)) in
  match silent with
  | [] => []
  | _ => [(decimal (Z.of_nat (length silent)) ++ " host(s) are not reporting a read-only probe (" ++ Join (sort_strings silent) ", " ++
          "), so their capacity is unknown rather than full. If the task still will not place after this is resolved, that is the next thing to check.")%string]
  end.

Definition observed (f : Facts) : Link :=
  mkLink "observed" (sv_Name (fa_Service f) ++ " is running " ++ tasks_of f " of " ++ " desired tasks.") (Some (taskEvidence f)) ToneWarning.

(** ** Rules *)

Definition constraintUnsatisfiable (f : Facts) : option Chain :=
  let name := sv_Name (fa_Service f) in
  let nodes := fa_Nodes f in
  let verdicts := map (fun n => matchesConstraints n (fa_Constraints f)) nodes in
  if (length (fa_Constraints f) =? 0)%nat || (length nodes =? 0)%nat then None
  else if negb (forallb snd verdicts) then None
  else if existsb fst verdicts then None
  else
    let total := decimal (Z.of_nat (length nodes)) in
    Some (mkChain "constraint-unsatisfiable" name
      [ observed f;
        mkLink "because" "No node in the cluster satisfies the service's placement constraints."
          (Some (mkEvidence (Join (fa_Constraints f) ", ") "service spec" (fa_ClusterAt f))) ToneDanger;
        mkLink "because" ("0 of " ++ total ++ " nodes carry the labels the constraint requires.")
          (Some (mkEvidence ("0/" ++ total ++ " nodes match") "node labels · swarm manager" (fa_ClusterAt f))) ToneDanger ]
      [ mkAction "edit-constraint" "Relax the constraint" "Edit the service's placement rule so an existing node can satisfy it." true;
        mkAction "label-node" "Label a node to match" "Add the required label to a node that should carry this workload." false ]
      (mkElsewhere [("kubectl get pods -l app=" ++ name)%string; "kubectl describe pod <name>"; "kubectl get events --sort-by=.lastTimestamp"; "kubectl get nodes --show-labels"]
         "The last step is a comparison you do in your head: the pod's nodeSelector against every node's labels.")
      []
      ["This checks labels, role, hostname and id. A constraint using any other expression is not evaluated here, and the engine declines rather than guessing at it."]).

(** The healthy nodes that match; [None] when a constraint is not understood. *)
Fixpoint candidates (constraints : list string) (nodes : list Node) : option (list Node) :=
  match nodes with
  | [] => Some []
  | n :: rest =>
      if negb (nd_Healthy n) then candidates constraints rest
      else
        let '(ok, understood) := match constraints with [] => (true, true) | _ => matchesConstraints n constraints end in
        if negb understood then None
        else match candidates constraints rest with
        | Some l => Some (if ok then n :: l else l)
        | None => None
        end
  end.

Definition free_bytes (n : Node) : Z := uint64_of (nd_Capacity n - nd_Used n).

Definition no_node : Node := mkNode "" "" "" ∅ false 0 0.

(** The loop over the candidates: the most room, or [None] when the image fits. *)
Fixpoint roomiest_of (bytes_ : Z) (best : Z) (roomiest : Node) (l : list Node) : option (Z * Node) :=
  match l with
  | [] => Some (best, roomiest)
  | n :: rest =>
      let free := free_bytes n in
      if bytes_ <=? free then None
      else if (best <? free) || (nd_ID roomiest =? "")%string then roomiest_of bytes_ free n rest
      else roomiest_of bytes_ best roomiest rest
  end.

Definition nodeCannotHoldImage (f : Facts) : option Chain :=
  let name := sv_Name (fa_Service f) in
  if negb (fa_ImageKnown f) || (fa_ImageBytes f =? 0) then None
  else if Stale (mkEvidence "" "read-only host probe" (fa_ProbedAt f)) (fa_Now f) MaxEvidenceAge then None
  else match candidates (fa_Constraints f) (fa_Nodes f) with
  | None | Some [] => None
  | Some l =>
      match roomiest_of (fa_ImageBytes f) 0 no_node l with
      | None => None
      | Some (best, roomiest) =>
          let host := nd_Hostname roomiest in
          Some (mkChain "node-cannot-hold-image" name
            [ observed f;
              mkLink "because" ("No eligible node has room for the image. The roomiest, " ++ host ++ ", is short by " ++ humanBytes (uint64_of (fa_ImageBytes f - best)) ++ ".")
                (Some (mkEvidence (humanBytes best ++ " free · " ++ humanBytes (fa_ImageBytes f) ++ " required") ("read-only host probe · " ++ host) (fa_ProbedAt f))) ToneDanger ]
            [ mkAction "prune" ("Reclaim space on " ++ host) "Prune images no running or desired task references. The run is recorded in the audit trail." true;
              mkAction "reschedule" "Place on another node" "Move this workload to a node with more room." false ]
            (mkElsewhere [("kubectl get pods -l app=" ++ name)%string; "kubectl describe pod <name>"; "kubectl get events --sort-by=.lastTimestamp"; ("kubectl describe node " ++ host)%string;
                          ("ssh " ++ host ++ " df -h")%string; "# then compare free space against the image size by hand"]
               "The last two leave the cluster entirely: node capacity does not include image size, so the comparison is done off-cluster.")
            []
            ("Disk is the only capacity checked here. A pull can also fail on registry authentication, which cannot be tested without attempting it." :: probeCaveat f))
      end
  end.

(** [truncate]: the text is cut by bytes. *)
Definition shorten (s : string) (n : Z) : string :=
  let s := TrimSpace s in
  if len s <=? n then s else of_bytes (take (Z.to_nat (n - 1)) (bytes s)) ++ "…".

Definition taskFailing (f : Facts) : option Chain :=
  let name := sv_Name (fa_Service f) in
  match List.find (fun t => negb (tk_Error t =? "")%string && (tk_DesiredState t =? "running")%string) (fa_Tasks f) with
  | None => None
  | Some failing =>
      let host := match List.find (fun n => (nd_ID n =? tk_NodeID failing)%string && negb (nd_Hostname n =? "")%string) (fa_Nodes f) with
                  | Some n => nd_Hostname n
                  | None => tk_NodeID failing
                  end in
      Some (mkChain "task-failing" name
        [ observed f;
          mkLink "because" ("A task was placed on " ++ host ++ " and stopped with an error, so this is the workload failing rather than placement.")
            (Some (mkEvidence (shorten (tk_Error failing) 120) "task state · swarm manager" (fa_ClusterAt f))) ToneDanger ]
        [ mkAction "logs" "Read this task's logs" "The container's own output is the only thing that says why it exited." true ]
        (mkElsewhere [("kubectl get pods -l app=" ++ name)%string; "kubectl describe pod <name>"; "kubectl logs <name> --previous"]
           "--previous is the step people forget: without it you read the logs of the container that has not failed yet.")
        []
        ["SwarmOps reports the error the scheduler recorded. Why the process exited is in the container's logs, which this chain does not read or interpret."])
  end.

(** ** The engine *)

Definition rules : list (Facts -> option Chain) := [constraintUnsatisfiable; nodeCannotHoldImage; taskFailing].

Fixpoint first_chain (rs : list (Facts -> option Chain)) (f : Facts) : option Chain :=
  match rs with
  | [] => None
  | r :: rest => match r f with Some c => Some c | None => first_chain rest f end
  end.

(** The trail is what the links carry. *)
Definition with_trail (c : Chain) : Chain :=
  mkChain (ch_Rule c) (ch_Subject c) (ch_Links c) (ch_Actions c) (ch_Elsewhere c) (ch_Evidence c ++ omap li_Evidence (ch_Links c)) (ch_Caveats c).

Definition at_time (clock : Z) (f : Facts) : Facts :=
  if IsZero (fa_Now f)
  then mkFacts (fa_Service f) (fa_Tasks f) (fa_Nodes f) (fa_ImageBytes f) (fa_ImageKnown f) (fa_Constraints f) (fa_ProbedAt f) (fa_ClusterAt f) clock else f.

Definition Diagnose (clock : Z) (f0 : Facts) : Result :=
  let f := at_time clock f0 in
  let s := fa_Service f in
  if (sv_DesiredTasks s <=? sv_RunningTasks s) && (0 <? sv_DesiredTasks s)
  then Refused (mkRefusal (sv_Name s) "This service is running every task it was asked to run. There is nothing to explain." [taskEvidence f])
  else match first_chain rules f with
  | Some c => Explained (with_trail c)
  | None =>
      Refused (mkRefusal (sv_Name s)
        ("None of the " ++ decimal (Z.of_nat (length rules)) ++
         " rules SwarmOps knows can explain this from the measurements available. The evidence gathered is below; the service's task history and logs are the next place to look.")
        (gatherEvidence f))
  end.

End Diagnosis.
