(* ===== verification/DiagnosisTheorems.v ===== *)
(** * Diagnosis: no explanation without its reason *)

From Stdlib Require Import ZArith Lia Bool Ascii String.
From stdpp Require Import base tactics list strings gmap.
From S2P Require Import Prelude GoStrings GoText RoutingRows Diagnosis.

Local Open Scope string_scope.
Local Open Scope list_scope.
Local Open Scope bool_scope.
Local Open Scope Z_scope.

(** ** Constraints *)

(** The node has the attribute the constraint names, with the value it asks for,
    or another one when it asks for that. *)
Definition meets_constraint (n : Node) (raw : string) : Prop :=
  exists key want negate have, read_constraint raw = Some (key, want, negate) /\ attribute n key = Some have /\ (if negate : bool then have <> want else have = want).

Lemma matches_all n constraints : matchesConstraints n constraints = (true, true) <-> Forall (meets_constraint n) constraints.
Proof.
  induction constraints as [|raw rest IH]; cbn [matchesConstraints]; [by split; [constructor|]|]. rewrite Forall_cons, <- IH. unfold meets_constraint. split.
  - destruct (read_constraint raw) as [[[key want] negate]|] eqn:R; [|done]. destruct (attribute n key) as [have|] eqn:A; [|done].
    destruct (Bool.eqb _ _) eqn:B; [done|]. intros Hrest. split; [|done]. exists key, want, negate, have. split; [done|]. split; [done|]. apply eqb_false_iff in B.
    destruct negate; destruct (String.eqb_spec have want); done.
  - intros [(key & want & negate & have & -> & -> & Hm) Hrest]. destruct (Bool.eqb _ _) eqn:B; [|done]. apply eqb_prop in B.
    destruct negate; [apply String.eqb_eq in B|apply String.eqb_neq in B]; done.
Qed.

Lemma matches_understood n constraints : fst (matchesConstraints n constraints) = true -> matchesConstraints n constraints = (true, true).
Proof.
  induction constraints as [|raw rest IH]; cbn [matchesConstraints]; [done|]. destruct (read_constraint raw) as [[[key want] negate]|]; [|done].
  destruct (attribute n key); [|done]. destruct (Bool.eqb _ _); [done|exact IH].
Qed.

(** ** Room *)

(** A node a task of the service could be placed on, as far as is known. *)
Definition eligible (f : Facts) (n : Node) : Prop := In n (fa_Nodes f) /\ nd_Healthy n = true /\ Forall (meets_constraint n) (fa_Constraints f).

Lemma candidates_eligible constraints nodes l :
  candidates constraints nodes = Some l -> forall n, In n l <-> In n nodes /\ nd_Healthy n = true /\ Forall (meets_constraint n) constraints.
Proof.
  revert l. induction nodes as [|x nodes IH]; intros l; cbn [candidates]; [intros [= <-] n; cbn; tauto|]. destruct (nd_Healthy x) eqn:Hx; cbn [negb].
  - assert ((match constraints with [] => (true, true) | _ => matchesConstraints x constraints end) = matchesConstraints x constraints) as -> by (by destruct constraints).
    destruct (matchesConstraints x constraints) as [ok understood] eqn:M. destruct understood; cbn [negb]; [|done]. destruct (candidates constraints nodes) as [l1|]; [|done].
    intros [= <-] n. specialize (IH l1 eq_refl n). destruct ok.
    + apply matches_all in M. cbn [In]. rewrite IH. clear IH. split; [intros [<-|(? & ? & ?)]; by auto|intros ([->|?] & ? & ?); by auto].
    + rewrite IH. cbn [In]. clear IH. split; [intros (? & ? & ?); by auto|]. intros ([->|?] & ? & Hm); [apply matches_all in Hm; congruence|by auto].
  - intros E n. rewrite (IH l E n). cbn [In]. clear IH. split; [intros (? & ? & ?); by auto|]. intros ([->|?] & ? & ?); [congruence|by auto].
Qed.

Lemma free_range n : 0 <= free_bytes n.
Proof. apply Z.mod_pos_bound. done. Qed.

Lemma roomiest_spec size best roomiest l best' r :
  (nd_ID roomiest <> "" \/ best = 0) -> (forall n, In n l -> nd_ID n <> "") -> roomiest_of size best roomiest l = Some (best', r) ->
  (forall n, In n l -> free_bytes n < size) /\ best <= best' /\ (forall n, In n l -> free_bytes n <= best') /\
  (r = roomiest /\ best' = best /\ (l = [] \/ nd_ID roomiest <> "") \/ In r l /\ free_bytes r = best').
Proof.
  revert best roomiest. induction l as [|n l IH]; intros best roomiest Hb Hids; cbn [roomiest_of].
  - intros [= <- <-]. split; [done|]. split; [lia|]. split; [done|]. left. by auto.
  - destruct (Z.leb_spec size (free_bytes n)) as [|Hlt]; [done|]. assert (nd_ID n <> "") as Hn by (apply Hids; by left). pose proof (free_range n) as H0.
    destruct ((best <? free_bytes n) || (nd_ID roomiest =? "")%string) eqn:G; intros E.
    + apply IH in E as (H1 & H2 & H3 & H4); [|by left|intros m Hm; apply Hids; by right].
      assert (best <= free_bytes n) as Hbest. { apply orb_true_iff in G as [G%Z.ltb_lt|G%String.eqb_eq]; [lia|]. destruct Hb as [Hb| ->]; [done|lia]. }
      split; [intros m [<-|Hm]; [done|by apply H1]|]. split; [lia|]. split; [intros m [<-|Hm]; [done|by apply H3]|]. right.
      destruct H4 as [(-> & -> & _)|[Hr ?]]; [split; [by left|done]|split; [by right|done]].
    + apply orb_false_iff in G as [G1%Z.ltb_ge G2%String.eqb_neq]. apply IH in E as (H1 & H2 & H3 & H4); [|by left|intros m Hm; apply Hids; by right].
      split; [intros m [<-|Hm]; [done|by apply H1]|]. split; [lia|]. split; [intros m [<-|Hm]; [lia|by apply H3]|].
      destruct H4 as [(-> & -> & _)|[Hr ?]]; [left; by auto|right; split; [by right|done]].
Qed.

Lemma fits_nowhere size best roomiest l x : roomiest_of size best roomiest l = Some x -> forall n, In n l -> free_bytes n < size.
Proof.
  revert best roomiest. induction l as [|n l IH]; intros best roomiest; cbn [roomiest_of]; [done|]. destruct (Z.leb_spec size (free_bytes n)) as [|Hlt]; [done|].
  destruct (_ || _); intros E m [<-|Hm]; try done; by eapply IH.
Qed.

Section Sound.
Context `{Decimals}.

(** The reason a rule gives, as facts. *)
Definition reason (f : Facts) (c : Chain) : Prop :=
  (ch_Rule c = "constraint-unsatisfiable" /\ fa_Nodes f <> [] /\ forall n, In n (fa_Nodes f) -> ~ Forall (meets_constraint n) (fa_Constraints f)) \/
  (ch_Rule c = "node-cannot-hold-image" /\ IsZero (fa_ProbedAt f) = false /\ fa_Now f - fa_ProbedAt f <= MaxEvidenceAge /\
   (forall n, eligible f n -> free_bytes n < fa_ImageBytes f) /\
   ((forall n, In n (fa_Nodes f) -> nd_ID n <> "") ->
    exists roomiest, eligible f roomiest /\ (forall n, eligible f n -> free_bytes n <= free_bytes roomiest) /\
      In ("read-only host probe · " ++ nd_Hostname roomiest)%string (map ei_Source (ch_Evidence c)))) \/
  (ch_Rule c = "task-failing" /\ exists t, In t (fa_Tasks f) /\ tk_Error t <> "" /\ tk_DesiredState t = "running").

Definition evidenced (c : Chain) : Prop := Forall (fun l => is_Some (li_Evidence l)) (ch_Links c) /\ ch_Evidence c = omap li_Evidence (ch_Links c).

Lemma constraint_sound f c : constraintUnsatisfiable f = Some c -> reason f (with_trail c) /\ evidenced (with_trail c).
Proof.
  unfold constraintUnsatisfiable. destruct (_ || _) eqn:G; [done|]. apply orb_false_iff in G as [_ G%Nat.eqb_neq]. destruct (negb _); [done|]. destruct (existsb fst _) eqn:X; [done|].
  intros [= <-]. split; [|split; [by repeat constructor|reflexivity]]. left. split; [done|]. split; [by intros E; rewrite E in G|]. intros n Hn Hall%matches_all.
  apply not_true_iff_false in X. apply X, existsb_exists. exists (true, true). split; [|done]. apply in_map_iff. by exists n.
Qed.

Lemma image_sound f c : nodeCannotHoldImage f = Some c -> reason f (with_trail c) /\ evidenced (with_trail c).
Proof.
  unfold nodeCannotHoldImage. destruct (_ || _); [done|]. destruct (Stale _ _ _) eqn:St; [done|]. apply orb_false_iff in St as [St1 St2%Z.ltb_ge]. cbn in St1, St2.
  destruct (candidates _ _) as [[|n0 l]|] eqn:C; [done| |done]. pose proof (candidates_eligible _ _ _ C) as Hel. destruct (roomiest_of _ _ _ _) as [[best r]|] eqn:R; [|done].
  intros [= <-]. split; [|split; [by repeat constructor|reflexivity]]. right. left. split; [done|]. split; [done|]. split; [done|]. split.
  - intros n Hn. apply (fits_nowhere _ _ _ _ _ R), Hel, Hn.
  - intros Hids. destruct (roomiest_spec _ _ _ _ _ _ (or_intror eq_refl) (fun n Hn => Hids n (proj1 (proj1 (Hel n) Hn))) R) as (_ & _ & Hmax & [(_ & _ & [?|?])|[Hr <-]]); [done|done|].
    exists r. split; [by apply Hel|]. split; [intros n Hn; by apply Hmax, Hel|]. cbn. right. by left.
Qed.

Lemma task_sound f c : taskFailing f = Some c -> reason f (with_trail c) /\ evidenced (with_trail c).
Proof.
  unfold taskFailing. destruct (find _ (fa_Tasks f)) as [t|] eqn:F; [|done]. apply find_some in F as [Hin [G1%negb_true_iff%String.eqb_neq G2%String.eqb_eq]%andb_true_iff].
  intros [= <-]. split; [|split; [by repeat constructor|reflexivity]]. right. right. split; [done|]. by exists t.
Qed.

(** C22. The engine explains only what it measured: a service that should run at
    least one task and runs all of them is never explained (one scaled to zero
    can be); a chain says that no node satisfies the constraints only if there
    are nodes and none of them does, that the image fits nowhere only if a
    reading of the last 90 seconds shows every eligible node short of room, and
    then, if the nodes have identifiers, its evidence names the one with the
    most, and that a task is failing only if a task that should run has an error;
    every link carries its evidence, and the trail is that evidence and nothing
    else. *)
Theorem chains_are_sound clock f0 c :
  Diagnose clock f0 = Explained c ->
  let f := at_time clock f0 in
  ~ (0 < sv_DesiredTasks (fa_Service f) <= sv_RunningTasks (fa_Service f)) /\ reason f c /\ evidenced c.
Proof.
  intros D f. unfold Diagnose in D. fold f in D. destruct (_ && _) eqn:G; [done|]. split. { intros [H1 H2]. apply andb_false_iff in G as [G%Z.leb_gt|G%Z.ltb_ge]; lia. }
  cbn [first_chain rules] in D. destruct (constraintUnsatisfiable f) as [c1|] eqn:E1; [injection D as <-; by apply constraint_sound|].
  destruct (nodeCannotHoldImage f) as [c1|] eqn:E2; [injection D as <-; by apply image_sound|].
  destruct (taskFailing f) as [c1|] eqn:E3; [injection D as <-; by apply task_sound|done].
Qed.

End Sound.

(** ** Diagnosis: runs *)

#[local] Instance whole_numbers : Decimals := {| one_digit := fun b div => (decimal (b / div) ++ ".0")%string |}.

Definition worker (id : string) (tier : string) (capacity used : Z) : Node := mkNode id ("host-" ++ id) "worker" {["tier" := tier]} true capacity used.

Definition two_workers : list Node := [worker "a" "edge" 5000 4500; worker "b" "edge" 5000 3000].

Definition waiting (desired : Z) (constraints : list string) : Facts :=
  mkFacts (mkService "shop" 0 desired) [] two_workers 2100 true constraints (100 * second) (100 * second) (110 * second).

Definition rule_of (r : Result) : string := match r with Explained c => ch_Rule c | Refused _ => "" end.

Example no_such_tier : rule_of (Diagnose 0 (waiting 2 ["node.labels.tier == core"])) = "constraint-unsatisfiable".
Proof. vm_compute. reflexivity. Qed.

Example unknown_constraint : rule_of (Diagnose 0 (waiting 2 ["node.platform.os == linux"])) = "".
Proof. vm_compute. reflexivity. Qed.

(** The image fits on neither; host-b has the most room. *)
Definition short_of_room : Chain :=
  match Diagnose 0 (waiting 2 ["node.labels.tier!=core"]) with Explained c => c | Refused _ => mkChain "" "" [] [] (mkElsewhere [] "") [] [] end.

Lemma short_of_room_explained : Diagnose 0 (waiting 2 ["node.labels.tier!=core"]) = Explained short_of_room.
Proof.
  unfold short_of_room. assert (rule_of (Diagnose 0 (waiting 2 ["node.labels.tier!=core"])) = "node-cannot-hold-image") as E by (vm_compute; reflexivity).
  by destruct (Diagnose 0 (waiting 2 ["node.labels.tier!=core"])).
Qed.

Lemma chains_are_sound_witness :
  Diagnose 0 (waiting 2 ["node.labels.tier!=core"]) = Explained short_of_room /\ reason (waiting 2 ["node.labels.tier!=core"]) short_of_room.
Proof.
  split; [exact short_of_room_explained|].
  destruct (chains_are_sound 0 (waiting 2 ["node.labels.tier!=core"]) short_of_room short_of_room_explained) as (_ & Hreason & _). exact Hreason.
Defined.

(** A service that was scaled to zero runs every task it was asked to run, and is
    explained all the same. *)
Lemma scaled_to_zero_is_explained : rule_of (Diagnose 0 (waiting 0 ["node.labels.tier == core"])) = "constraint-unsatisfiable".
Proof. vm_compute. reflexivity. Qed.

(** A long error is cut by bytes, here inside a character. *)
Lemma long_error_cut_inside_a_character :
  let s := of_bytes (concat (repeat [chr 195; chr 169] 100)) in valid_utf8 s = true /\ valid_utf8 (shorten s 120) = false.
Proof. vm_compute. split; reflexivity. Qed.
